(* ===== verification/_CoqProject ===== *)
-Q . S2P
Prelude.v
Words.v
Bits.v
Encoding.v
Key.v
Entries.v
Block.v
Header.v
Floats.v
PtrPilot.v
PtrSort.v
PtrHeap.v
PtrSearch.v
PtrSolver.v
PtrPin.v
PtrInv.v
PtrSolve.v
PtrReset.v
PtrBuilder.v
PtrBlock.v
BijMix.v
BijBits.v
BijStream.v
BijEnc.v
BijSolver.v
BijBuilder.v
BijDecode.v
BijGolomb.v
BijElias.v
BijRange.v
BijFallback.v
BijSeeds.v
BijSplit.v
BijSolve.v
BijMeta.v
BijLayout.v
BijQuery.v
BijSafe.v
BijPayload.v
BijBlock.v
Algorithm.v
Index.v
IndexSafe.v
Image.v
IndexQuery.v
File.v
Options.v
Writer.v
WriterSpec.v
Builder.v
BuilderSpec.v
SortedBuild.v
Pipeline.v
PipelineLive.v
PipelineSafe.v
ParallelBuild.v
UnsortedBuffer.v
UnsortedWrite.v
UnsortedCommute.v
UnsortedRead.v
UnsortedReadSpec.v
UnsortedMerge.v
UnsortedBuilder.v
UnsortedBlocks.v
UnsortedFinish.v
UnsortedPartitions.v
UnsortedFast.v
UnsortedParallel.v
UnsortedBuild.v
UnsortedCorrect.v
UnsortedConcurrent.v
UnsortedAddKeys.v
