(* ===== verification/Prelude.v ===== *)
(** * streamhash: a verification development

    streamhash builds an immutable index file that maps each of [n] keys to a
    rank in [0,n) (a minimal perfect hash), with an optional fingerprint and an
    optional payload per key, and answers queries from the bytes of the file.
    The development models the Go code of the library, as written, and proves
    that what is built is what is queried.

    ** The program and its model

    Keys are routed to blocks by [FastRange32] of their first eight bytes; each
    block is built by one of two algorithms; an index writer lays the blocks out
    in a file; an index reader answers queries. Three builders drive this: sorted
    keys with one worker, sorted keys with a pipeline of workers, and keys in any
    order, partitioned through temporary files, from one or several goroutines.

    - [internal/sherr/errors.go], [sentinels.go]: [error] below. [Panic] is a
      result of its own, so that the absence of panics is a theorem.
    - machine words, [encoding/binary]: [Words]; [internal/bits]: [Bits];
      [float64] arithmetic: [Floats].
    - [internal/encoding]: [Encoding]; the loop of both block builders that
      fills the payload region: [Entries].
    - [key.go], [prehash.go]: [Key]; [header.go]: [Header].
    - [algorithm.go]: the interfaces are the class [Block.BlockOps] and their
      contract [Block.BlockContract]; [Algorithm] has the instances and the
      choice between them ([newBlockBuilder], [newBlockDecoder]).
    - [internal/ptrhash]: [PtrPilot] ([config.go], [pilot.go], the remap table),
      [PtrSort] ([counting_sort.go]), [PtrHeap] ([heap.go]), [PtrSearch]
      ([pilot_search.go], the solver's state), [PtrSolver] ([solver.go]),
      [PtrBuilder] ([builder.go], [decoder.go]). [PtrPin], [PtrInv], [PtrSolve]
      and [PtrReset] prove the solver, [PtrBlock] the block.
    - [internal/bijection]: [BijMix] ([config.go], [mix.go]), [BijBits]
      ([bitio.go]), [BijEnc] ([encoding.go]), [BijSolver] ([solver.go],
      [solver_build.go]), [BijBuilder] ([builder.go]), [BijDecode]
      ([decode.go]). [BijStream], [BijGolomb], [BijElias], [BijRange] and
      [BijFallback] prove the encodings, [BijSeeds], [BijSplit] and [BijSolve]
      the solver, [BijMeta] to [BijBlock] the block.
    - [builder_options.go]: [Options].
    - [index_writer.go]: [Writer], over the file system of [File] (which also
      has [platform_*.go]'s preallocation); [WriterSpec] proves it against the
      image of a file ([Image]), an abstract value.
    - [index.go]: [Index]; [IndexSafe] (untrusted bytes), [IndexQuery] (the
      bytes of an image).
    - [builder.go] and the producer side of [builder_parallel.go]: [Builder];
      [BuilderSpec] and [SortedBuild] prove it with one worker.
    - the goroutines of [builder_parallel.go]: [Pipeline], a step relation;
      [PipelineLive], [PipelineSafe]; [ParallelBuild] joins it to the builder.
    - [builder_unsorted.go]: [UnsortedBuffer] (partitions, writers, the double
      buffer and its flush); [builder_unsorted_finish.go]: [UnsortedRead] (the
      read phase, the merge of the block counts); [UnsortedBuilder] has the
      builder itself and the three ways [Finish] goes over the blocks.
      [UnsortedWrite], [UnsortedCommute], [UnsortedReadSpec] and
      [UnsortedMerge] prove the two phases; [UnsortedBlocks], [UnsortedFinish],
      [UnsortedPartitions], [UnsortedFast] and [UnsortedParallel] the three
      ways; [UnsortedBuild] and [UnsortedCorrect] the builder fed one key at a
      time; [UnsortedConcurrent] and [UnsortedAddKeys] with several writers.

    ** How state, errors and effects are modelled

    A machine integer is a [Z] whose wrap-around is written out ([u8] to [u64]).
    Bytes are [Z]s and byte slices lists. A function that can fail is in [res]
    (a value, an [error] or [Panic]); an operation on state that can fail is in
    [File.stM], whose failures keep the state they reached, and is specified
    with [File.wps], a weakest precondition for both outcomes that excludes
    panics. Wrapping an error with text is the error itself; an error that wraps
    no sentinel is [ErrOther]; [errors.Join] is its first error.

    What is not the program's code is a class, and every theorem holds for any
    instance (unless it names laws):
    - [Index.XXHash]: the one-shot and the streaming hash; [XXHashLaws]: the
      streaming hash is the one-shot hash of what was written, and is 64 bits;
    - [File.OS]: which system calls fail, and how much of a failed write was
      stored, call by call (a file also remembers, in [f_stuck], that its removal
      failed, which only the theorems look at);
    - [UnsortedBuffer.Temp]: whether the temporary directory can be used, and
      where in the oracle of system calls each temporary file begins;
    - [Builder.Env]: what the calling goroutine sees of its context and of the
      pipeline: the outcome of each send and poll, and how draining ends;
    - [ParallelBuild.PipeLaws]: the pipeline is one of the step relation of
      [Pipeline]: what a send or a poll finds in [writerDone] is what a read gives
      in some state of a run, and draining is a run to the end, for the blocks
      sent. Safety of the relation gives the errors that can be read and what a
      run leaves behind, liveness that such a run exists;
    - [UnsortedBuilder.Sched]: the order in which the goroutines of [AddKeys]
      take their steps.

    ** What is proved

    - End to end: [concurrent_build_correct], [unsorted_build_correct],
      [parallel_build_correct] and [sorted_build_correct] take a build from its
      options to the bytes of the file, under any pattern of failing system
      calls: on success the file opens, verifies and answers every key with its
      rank and payload; on failure the error is one of those listed and the file
      is closed and removed, with three exceptions, each of them stated: the
      options were rejected or the file could not be created (the path is as it
      was), no space could be reserved for the new file (it stays, empty), or
      [os.Remove] itself failed. The parts they rest on are stated for themselves:
      [image_answers], [pipeline_outcome], [mergeBlockCounts_exact],
      [counting_sort_groups], [readRegion_records].
    - The pipeline: whatever the schedule, a bounded number of steps, no
      deadlock and no panic ([pipeline_ends]); blocks committed in order
      ([pipeline_outcome]).
    - Both block algorithms are minimal perfect hashes ([ptr_block_correct],
      [bij_block_correct]); duplicates are refused; the solvers end.
    - Hand-optimised loops are equal to one reference each
      ([findFreePilot_first], [solveDirectBucket_first]); a background flush may
      run at any time ([background_flush_any_time]).
    - Untrusted input: opening, querying and verifying any bytes never panics
      ([index_never_panics], [QuerySlot_safe], [bij_QuerySlot_safe]).
    - Round trips of every record and encoding: header, RAM index, entries,
      payloads, fingerprints, remap table, Elias-Fano counts, seed stream,
      fallback list.

    ** Fuel and bounds

    Loops that are not structural have fuel and panic when it runs out, so that
    "no panic" also says the fuel is enough. [File.whileM] is given one more
    round than the block number it runs up to;
    [readRegion] and the loop over the entries of a buffer one more than the
    bytes they have to go, as every round consumes a byte at least; the heap's
    [up] and [down] the size of the heap; the bit readers the bits or bytes
    left; the solver's rounds are limited by the source (its eviction limit).
    The searches for seeds and pilots are bounded in the source. A schedule of
    the writers of [AddKeys] is any finite list of choices, after which each
    goroutine is run to its end (its keys left, its return and its close), so
    that every interleaving is some schedule.

    The hypothesis [limits_ok] bounds the block sizes that the source computes
    in floating point, and [geometry_ok] says that the partitions so computed
    are not empty and cover the blocks; the witnesses compute both for a
    configuration. [small_blocks] says that no block is given 2^32 keys. The
    queries are answered for files below 2^40 bytes, the width of an offset in
    the RAM index.

    ** Choices, and what is not modelled

    - A background flush touches nothing its writer looks at before waiting for
      it; it is performed at the wait. A read-ahead is performed when its result
      is taken, and the entries of a block are copied when the block is
      dispatched, so the fences and scratch arrays that protect the read slots
      ([blockCursors], [blockEntries], the reuse of [flatBuf]) have no
      counterpart. Pools of reusable slices are fresh slices.
    - The pipeline's caller stops at the first failing [AddKey] and closes; a
      caller that ignores the error and goes on is not modelled, so the nil that
      [consumePipelineError] provides for is never read.
    - [mmap] is the bytes of the file, [madvise] has no effect on results; the
      [init] check of the byte order is a platform check; xxh3 is a parameter.
    - The test hook [writerFaultHook] is nil. Removing the temporary directory's
      files is best effort in the source and has no state here.
    - The benchmark commands under [cmd/bench] have no library logic. *)
From Stdlib Require Export ZArith Lia List Permutation.
From stdpp Require Export base tactics list numbers sets.

#[global] Set Default Goal Selector "1".
#[export] Set Default Proof Using "Type".

Declare Scope go_scope.
Delimit Scope go_scope with go.
#[local] Open Scope Z_scope.

(** ** Errors: the sentinels of [internal/sherr/errors.go]

    An error built with [fmt.Errorf("%w: ...", sentinel, ...)] is the sentinel
    it wraps ([errors.Is] sees nothing else); an error with no sentinel is
    [ErrOther], and the two internal signals have constructors of their own. *)
Inductive error : Type :=
  | ErrBuilderClosed | ErrTooManyKeys | ErrKeyTooShort | ErrKeyTooLong
  | ErrPayloadOverflow | ErrDuplicateKey | ErrUnsortedInput | ErrKeyCountMismatch
  | ErrPayloadTooLarge | ErrFingerprintTooLarge | ErrSplitBucketSeedSearchFailed
  | ErrIndistinguishableHashes
  | ErrInvalidMagic | ErrInvalidVersion | ErrChecksumFailed | ErrTruncatedFile
  | ErrCorruptedIndex
  | ErrIndexClosed | ErrNoPayload | ErrNotFound
  | ErrInvalidGeometry | ErrBlockOverflow
  | errEvictionLimitExceeded
  | ErrOther.

#[export] Instance error_eq_dec : EqDecision error.
Proof. solve_decision. Defined.

(** ** The result monad

    A Go function returns a value, returns an error, or panics (explicitly, or
    through an index or slice expression out of range). *)
Inductive res (A : Type) : Type :=
  | Ok (a : A)
  | Err (e : error)
  | Panic.
Arguments Ok {A} a.
Arguments Err {A} e.
Arguments Panic {A}.

#[export] Instance res_ret : MRet res := @Ok.
#[export] Instance res_bind : MBind res := fun A B k m =>
  match m with Ok a => k a | Err e => Err e | Panic => Panic end.
#[export] Instance res_fmap : FMap res := fun A B f m =>
  match m with Ok a => Ok (f a) | Err e => Err e | Panic => Panic end.

Lemma res_bind_ok {A B} (m : res A) (k : A -> res B) b :
  m ≫= k = Ok b <-> exists a, m = Ok a /\ k a = Ok b.
Proof. destruct m; simpl; split; naive_solver. Qed.

Lemma res_bind_assoc {A B C} (m : res A) (f : A -> res B) (g : B -> res C) :
  (m ≫= f) ≫= g = m ≫= (fun a => f a ≫= g).
Proof. by destruct m. Qed.

(** [wp m Q E]: [m] does not panic, a value it returns satisfies [Q] and an
    error it returns satisfies [E]. *)
Definition wp {A} (m : res A) (Q : A -> Prop) (E : error -> Prop) : Prop :=
  match m with Ok a => Q a | Err e => E e | Panic => False end.

Definition no_err : error -> Prop := fun _ => False.
Definition any_err : error -> Prop := fun _ => True.

Section wp.
Context {A B : Type}.
Implicit Types (E : error -> Prop).

Lemma wp_ok (a : A) (Q : A -> Prop) E : Q a -> wp (Ok a) Q E.
Proof. intros H; exact H. Qed.

Lemma wp_mret (a : A) (Q : A -> Prop) E : Q a -> wp (mret a) Q E.
Proof. intros H; exact H. Qed.

Lemma wp_err e (Q : A -> Prop) E : E e -> wp (Err e) Q E.
Proof. intros H; exact H. Qed.

Lemma wp_bind (m : res A) (k : A -> res B) Q E :
  wp m (fun a => wp (k a) Q E) E -> wp (m ≫= k) Q E.
Proof. by destruct m. Qed.

Lemma wp_bind_inv (m : res A) (k : A -> res B) Q E :
  wp (m ≫= k) Q E -> wp m (fun a => wp (k a) Q E) E.
Proof. by destruct m. Qed.

Lemma wp_mono (m : res A) (Q Q' : A -> Prop) (E E' : error -> Prop) :
  wp m Q E -> (forall a, Q a -> Q' a) -> (forall e, E e -> E' e) -> wp m Q' E'.
Proof. destruct m; simpl; auto. Qed.

Lemma wp_post (m : res A) (Q Q' : A -> Prop) E :
  wp m Q E -> (forall a, m = Ok a -> Q a -> Q' a) -> wp m Q' E.
Proof. destruct m; simpl; auto. Qed.

Lemma wp_and (m : res A) (Q Q' : A -> Prop) (E E' : error -> Prop) :
  wp m Q E -> wp m Q' E' -> wp m (fun a => Q a /\ Q' a) (fun e => E e /\ E' e).
Proof. destruct m; simpl; auto. Qed.

Lemma wp_elim_ok (m : res A) Q E a : wp m Q E -> m = Ok a -> Q a.
Proof. by intros ? ->. Qed.

Lemma wp_elim_err (m : res A) Q E e : wp m Q E -> m = Err e -> E e.
Proof. by intros ? ->. Qed.

Lemma wp_total (m : res A) Q : wp m Q no_err -> exists a, m = Ok a /\ Q a.
Proof. destruct m as [a | e |]; simpl; [eauto | intros [] ..]. Qed.

Lemma wp_no_panic (m : res A) Q E : wp m Q E -> m <> Panic.
Proof. by destruct m. Qed.
End wp.

(** ** Arrays and slices indexed by Go integers

    Reading or writing out of range panics. *)
Definition idx {A} (l : list A) (i : Z) : res A :=
  if i <? 0 then Panic
  else match l !! Z.to_nat i with Some x => Ok x | None => Panic end.

Definition upd {A} (l : list A) (i : Z) (x : A) : res (list A) :=
  if (0 <=? i) && (i <? Z.of_nat (length l)) then Ok (<[Z.to_nat i := x]> l)
  else Panic.

(** [l[i:j]] *)
Definition slice {A} (l : list A) (i j : Z) : res (list A) :=
  if (0 <=? i) && (i <=? j) && (j <=? Z.of_nat (length l))
  then Ok (take (Z.to_nat (j - i)) (drop (Z.to_nat i) l))
  else Panic.

(** [len(l)] *)
Definition len {A} (l : list A) : Z := Z.of_nat (length l).

(** [make([]T, n)] with the zero value [d]. *)
Definition make {A} (d : A) (n : Z) : list A := replicate (Z.to_nat n) d.

(** Overwriting a window of a buffer: the bytes a sequence of stores to
    [buf[off : off+len(bs)]] leaves; panics when the window is out of range. *)
Definition store {A} (buf : list A) (off : Z) (bs : list A) : res (list A) :=
  if (0 <=? off) && (off + len bs <=? len buf)
  then Ok (take (Z.to_nat off) buf ++ bs ++ drop (Z.to_nat off + length bs) buf)
  else Panic.

Arguments idx : simpl never.
Arguments upd : simpl never.
Arguments slice : simpl never.
Arguments store : simpl never.
Arguments len : simpl never.
Arguments make : simpl never.

Section arrays.
Context {A : Type}.
Implicit Types (l : list A) (E : error -> Prop).

Lemma len_nonneg l : 0 <= len l.
Proof. unfold len; lia. Qed.

Lemma len_nil : len (@nil A) = 0.
Proof. done. Qed.

Lemma len_cons x l : len (x :: l) = 1 + len l.
Proof. unfold len; simpl; lia. Qed.

Lemma len_single (x : A) : len [x] = 1.
Proof. done. Qed.

Lemma len_app l k : len (l ++ k) = len l + len k.
Proof. unfold len; rewrite length_app; lia. Qed.

Lemma len_make d n : 0 <= n -> len (make d n : list A) = n.
Proof. intros; unfold len, make; rewrite length_replicate; lia. Qed.

Lemma idx_ok l i x : idx l i = Ok x <-> 0 <= i /\ l !! Z.to_nat i = Some x.
Proof.
  unfold idx. destruct (Z.ltb_spec i 0); [split; [done | lia] |].
  destruct (l !! Z.to_nat i) eqn:?; naive_solver.
Qed.

Lemma idx_no_err l i e : idx l i <> Err e.
Proof. unfold idx. by destruct (i <? 0), (l !! Z.to_nat i). Qed.

Lemma idx_in_range l i : 0 <= i < len l -> exists x, l !! Z.to_nat i = Some x /\ idx l i = Ok x.
Proof.
  intros Hi. destruct (lookup_lt_is_Some_2 l (Z.to_nat i)) as [x Hx]; [unfold len in *; lia |].
  exists x. split; [done |]. apply idx_ok. split; [lia | done].
Qed.

Lemma idx_nat l (n : nat) x : l !! n = Some x -> idx l (Z.of_nat n) = Ok x.
Proof. intros. apply idx_ok. rewrite Nat2Z.id. split; [lia | done]. Qed.

Lemma wp_idx l i (Q : A -> Prop) E :
  0 <= i < len l -> (forall x, l !! Z.to_nat i = Some x -> Q x) -> wp (idx l i) Q E.
Proof. intros Hi HQ. destruct (idx_in_range l i Hi) as (x & Hx & ->). by apply HQ. Qed.

Lemma upd_ok l i x l' : upd l i x = Ok l' <-> 0 <= i < len l /\ l' = <[Z.to_nat i := x]> l.
Proof.
  unfold upd, len. destruct (Z.leb_spec 0 i), (Z.ltb_spec i (Z.of_nat (length l))); simpl;
    split; try (intros [= <-]); try (intros [? ->]); try done; lia.
Qed.

Lemma upd_in_range l i x : 0 <= i < len l -> upd l i x = Ok (<[Z.to_nat i := x]> l).
Proof. intros. by apply upd_ok. Qed.

Lemma wp_upd l i x (Q : list A -> Prop) E :
  0 <= i < len l -> Q (<[Z.to_nat i := x]> l) -> wp (upd l i x) Q E.
Proof. intros Hi HQ. by rewrite upd_in_range. Qed.

Lemma len_insert l i x : len (<[i := x]> l) = len l.
Proof. unfold len. by rewrite length_insert. Qed.

Lemma slice_ok l i j l' :
  slice l i j = Ok l' <->
  0 <= i <= j /\ j <= len l /\ l' = take (Z.to_nat (j - i)) (drop (Z.to_nat i) l).
Proof.
  unfold slice, len.
  destruct (Z.leb_spec 0 i), (Z.leb_spec i j), (Z.leb_spec j (Z.of_nat (length l))); simpl;
    split; try (intros [= <-]); try (intros (? & ? & ->)); try done; lia.
Qed.

Lemma slice_in_range l i j :
  0 <= i <= j -> j <= len l -> slice l i j = Ok (take (Z.to_nat (j - i)) (drop (Z.to_nat i) l)).
Proof. intros. by apply slice_ok. Qed.

Lemma store_ok (buf bs : list A) off buf' :
  store buf off bs = Ok buf' <->
  0 <= off /\ off + len bs <= len buf /\
  buf' = take (Z.to_nat off) buf ++ bs ++ drop (Z.to_nat off + length bs) buf.
Proof.
  unfold store.
  destruct (Z.leb_spec 0 off), (Z.leb_spec (off + len bs) (len buf)); simpl;
    split; try (intros [= <-]); try (intros (? & ? & ->)); try done; lia.
Qed.

Lemma store_length (buf bs : list A) off buf' :
  store buf off bs = Ok buf' -> length buf' = length buf.
Proof.
  intros (? & H & ->)%store_ok. unfold len in H.
  rewrite !length_app, length_take, length_drop. lia.
Qed.

Lemma store_app_exact (pre old post bs : list A) off :
  off = len pre -> length old = length bs ->
  store (pre ++ old ++ post) off bs = Ok (pre ++ bs ++ post).
Proof.
  intros -> Hl. apply store_ok. unfold len. rewrite !length_app, Nat2Z.id. split_and!; [lia .. |].
  rewrite take_app_length, <- Hl, <- drop_drop, drop_app_length, drop_app_length. done.
Qed.
End arrays.

(** ** Loops *)

(** [for _, a := range l { s = f(s, a) }] where the body may fail. *)
Fixpoint foldM {S A} (f : S -> A -> res S) (s : S) (l : list A) : res S :=
  match l with
  | [] => Ok s
  | a :: l => s' ← f s a; foldM f s' l
  end.

(** The same loop with a body that may also [break] (or [return]) with a
    result: [inl s] goes round again, [inr r] leaves the loop. *)
Fixpoint foldB {S R A} (f : S -> A -> res (S + R)) (s : S) (l : list A) : res (S + R) :=
  match l with
  | [] => Ok (inl s)
  | a :: l =>
      c ← f s a;
      match c with inl s' => foldB f s' l | inr r => Ok (inr r) end
  end.

Section loops.
Context {S R A : Type}.

Lemma foldM_app (f : S -> A -> res S) s l k :
  foldM f s (l ++ k) = foldM f s l ≫= (fun s' => foldM f s' k).
Proof.
  revert s. induction l as [| a l IH]; intros s; [done |]. simpl.
  rewrite res_bind_assoc. destruct (f s a); simpl; [apply IH | done | done].
Qed.

Lemma foldM_snoc (f : S -> A -> res S) s l a :
  foldM f s (l ++ [a]) = foldM f s l ≫= (fun s' => f s' a).
Proof.
  rewrite foldM_app. destruct (foldM f s l) as [s' | |]; simpl; [| done | done].
  by destruct (f s' a).
Qed.

(** The loop rule: an invariant indexed by the elements already consumed. *)
Lemma wp_foldM_prefix (I : list A -> S -> Prop) E (f : S -> A -> res S) s l :
  I [] s ->
  (forall pre a post s, l = pre ++ a :: post -> I pre s -> wp (f s a) (I (pre ++ [a])) E) ->
  wp (foldM f s l) (I l) E.
Proof.
  intros H0 Hstep.
  enough (forall post pre s, l = pre ++ post -> I pre s -> wp (foldM f s post) (I l) E)
    as H by (by apply (H l [])).
  induction post as [| a post IH]; intros pre s' -> Hs; simpl.
  - by rewrite app_nil_r in *.
  - apply wp_bind. eapply wp_mono; [by eapply Hstep | | done].
    intros s'' Hs''. eapply IH; [| exact Hs'']. by rewrite <- app_assoc.
Qed.

Lemma wp_foldM (I : S -> Prop) E (f : S -> A -> res S) s l :
  I s -> (forall a s, a ∈ l -> I s -> wp (f s a) I E) -> wp (foldM f s l) I E.
Proof.
  intros H0 Hstep. apply (wp_foldM_prefix (fun _ => I)); [done |].
  intros pre a post s' -> Hs. apply Hstep; [set_solver | done].
Qed.

Lemma wp_foldB_prefix (I : list A -> S -> Prop) (Q : S + R -> Prop) E
    (f : S -> A -> res (S + R)) s l :
  I [] s ->
  (forall pre a post s, l = pre ++ a :: post -> I pre s ->
     wp (f s a) (fun c => match c with inl s' => I (pre ++ [a]) s' | inr r => Q (inr r) end) E) ->
  (forall s, I l s -> Q (inl s)) ->
  wp (foldB f s l) Q E.
Proof.
  intros H0 Hstep Hend.
  enough (forall post pre s, l = pre ++ post -> I pre s -> wp (foldB f s post) Q E)
    as H by (by apply (H l [])).
  induction post as [| a post IH]; intros pre s' -> Hs; simpl.
  - rewrite app_nil_r in *. by apply Hend.
  - apply wp_bind. eapply wp_mono; [by eapply Hstep | | done].
    intros [s'' | r] Hs''; simpl; [| done].
    eapply IH; [| exact Hs'']. by rewrite <- app_assoc.
Qed.

Lemma wp_foldB (I : S -> Prop) (Q : S + R -> Prop) E (f : S -> A -> res (S + R)) s l :
  I s ->
  (forall a s, a ∈ l -> I s ->
     wp (f s a) (fun c => match c with inl s' => I s' | inr r => Q (inr r) end) E) ->
  (forall s, I s -> Q (inl s)) ->
  wp (foldB f s l) Q E.
Proof.
  intros H0 Hstep Hend. apply (wp_foldB_prefix (fun _ => I)); [done | | done].
  intros pre a post s' -> Hs. apply Hstep; [set_solver | done].
Qed.
End loops.

Lemma foldM_ext_in {S A} (f g : S -> A -> res S) s l :
  (forall s a, a ∈ l -> f s a = g s a) -> foldM f s l = foldM g s l.
Proof.
  revert s. induction l as [| a l IH]; intros s Hfg; [done |]. simpl.
  rewrite Hfg by set_solver. destruct (g s a); simpl; [| done | done].
  apply IH. intros. apply Hfg. set_solver.
Qed.

(** A loop in a loop is one loop over the pairs. *)
Lemma foldM_nested {S A B} (f : A -> S -> B -> res S) (g : A -> list B) s l :
  foldM (fun s a => foldM (f a) s (g a)) s l =
  foldM (fun s p => f p.1 s p.2) s (concat (map (fun a => map (pair a) (g a)) l)).
Proof.
  revert s. induction l as [| a l IH]; intros s; [done |]. cbn [foldM map concat].
  rewrite foldM_app. assert (forall k s, foldM (f a) s k = foldM (fun s p => f p.1 s p.2) s (map (pair a) k)) as <-.
  { induction k as [| b k IHk]; intros s'; [done |]. cbn [foldM map fst snd].
    destruct (f a s' b); cbn [mbind res_bind]; [apply IHk | done | done]. }
  destruct (foldM (f a) s (g a)); cbn [mbind res_bind]; [apply IH | done | done].
Qed.

(** [for i := range n], as the list of indices it visits. *)
Definition range (n : Z) : list Z := seqZ 0 n.

Lemma elem_of_range n i : i ∈ range n <-> 0 <= i < n.
Proof. unfold range. rewrite elem_of_seqZ. lia. Qed.

Lemma length_range n : length (range n) = Z.to_nat n.
Proof. apply length_seqZ. Qed.

Lemma range_succ n : 0 <= n -> range (n + 1) = range n ++ [n].
Proof. intros. unfold range. by rewrite seqZ_app, Z.add_0_l by lia. Qed.

Lemma range_prefix n pre i post : range n = pre ++ i :: post -> i = len pre /\ 0 <= i < n.
Proof.
  unfold range. intros H.
  assert (seqZ 0 n !! length pre = Some i) as Hi.
  { rewrite H, lookup_app_r, Nat.sub_diag by lia. done. }
  apply lookup_seqZ in Hi. unfold len. lia.
Qed.

(** [for x := range n { if r, ok := f(x); ok { return r } }], from [lo]: the
    first success, searched without building the range (the seed searches go
    up to 2^21). *)
Fixpoint find_pos {R} (f : Z -> option R) (lo : Z) (p : positive) : option R :=
  match p with
  | xH => f lo
  | xO q =>
      match find_pos f lo q with
      | Some r => Some r
      | None => find_pos f (lo + Z.pos q) q
      end
  | xI q =>
      match f lo with
      | Some r => Some r
      | None =>
          match find_pos f (lo + 1) q with
          | Some r => Some r
          | None => find_pos f (lo + 1 + Z.pos q) q
          end
      end
  end.

Definition find_first {R} (n : Z) (f : Z -> option R) : option R :=
  match n with Z.pos p => find_pos f 0 p | _ => None end.

Section find.
Context {R : Type}.
Implicit Types (f : Z -> option R).

Definition first_at f lo n r : Prop :=
  exists x, lo <= x < lo + n /\ f x = Some r /\ forall y, lo <= y < x -> f y = None.

Lemma first_at_app f lo n m r :
  0 <= n -> (forall x, lo <= x < lo + n -> f x = None) ->
  first_at f (lo + n) m r -> first_at f lo (n + m) r.
Proof.
  intros Hn Hnone (x & Hx & Hr & Hlt). exists x. split; [lia |]. split; [done |].
  intros y Hy. destruct (decide (y < lo + n)); [apply Hnone | apply Hlt]; lia.
Qed.

Lemma first_at_weaken f lo n m r : n <= m -> first_at f lo n r -> first_at f lo m r.
Proof. intros ? (x & ? & ? & ?). exists x. split_and!; [lia .. | done | done]. Qed.

Lemma find_pos_spec f p : forall lo,
  match find_pos f lo p with
  | Some r => first_at f lo (Z.pos p) r
  | None => forall x, lo <= x < lo + Z.pos p -> f x = None
  end.
Proof.
  induction p as [q IH | q IH |]; intros lo; simpl.
  - destruct (f lo) as [r |] eqn:Hlo.
    { exists lo. split; [lia |]. split; [done | lia]. }
    specialize (IH (lo + 1)) as IH1. destruct (find_pos f (lo + 1) q) as [r |].
    { apply (first_at_weaken _ _ (1 + Z.pos q)); [lia |].
      apply first_at_app; [lia | | done]. intros x ?. by assert (x = lo) as -> by lia. }
    specialize (IH (lo + 1 + Z.pos q)) as IH2. destruct (find_pos f (lo + 1 + Z.pos q) q) as [r |].
    + replace (Z.pos q~1) with ((1 + Z.pos q) + Z.pos q) by lia.
      apply first_at_app; [lia | | by rewrite Z.add_assoc].
      intros x ?. destruct (decide (x = lo)) as [-> |]; [done |]. apply IH1; lia.
    + intros x ?. destruct (decide (x = lo)) as [-> |]; [done |].
      destruct (decide (x < lo + 1 + Z.pos q)); [apply IH1 | apply IH2]; lia.
  - specialize (IH lo) as IH1. destruct (find_pos f lo q) as [r |].
    { eapply first_at_weaken; [| exact IH1]. lia. }
    specialize (IH (lo + Z.pos q)) as IH2. destruct (find_pos f (lo + Z.pos q) q) as [r |].
    + replace (Z.pos q~0) with (Z.pos q + Z.pos q) by lia. by apply first_at_app.
    + intros x ?. destruct (decide (x < lo + Z.pos q)); [apply IH1 | apply IH2]; lia.
  - destruct (f lo) as [r |] eqn:Hlo.
    + exists lo. split; [lia |]. split; [done | lia].
    + intros x ?. by assert (x = lo) as -> by lia.
Qed.

Lemma find_first_Some f n r : find_first n f = Some r -> first_at f 0 n r.
Proof.
  destruct n as [| p |]; simpl; [done | | done].
  intros H. pose proof (find_pos_spec f p 0) as HS. by rewrite H in HS.
Qed.

Lemma find_first_None f n : find_first n f = None -> forall x, 0 <= x < n -> f x = None.
Proof.
  destruct n as [| p |]; simpl; [lia | | lia].
  intros H x Hx. pose proof (find_pos_spec f p 0) as HS. rewrite H in HS. apply HS. lia.
Qed.

Lemma find_first_ext f g n :
  (forall x, 0 <= x < n -> f x = g x) -> find_first n f = find_first n g.
Proof.
  intros Hfg. destruct (find_first n f) as [r |] eqn:Hf.
  - apply find_first_Some in Hf as (x & Hx & Hr & Hlt).
    destruct (find_first n g) as [r' |] eqn:Hg.
    + apply find_first_Some in Hg as (x' & Hx' & Hr' & Hlt').
      assert (x = x') as ->; [| rewrite Hfg in Hr by lia; congruence].
      destruct (Z.lt_total x x') as [H | [H | H]]; [| done |].
      * pose proof (Hlt' x ltac:(lia)) as HH. rewrite <- Hfg, Hr in HH by lia. done.
      * pose proof (Hlt x' ltac:(lia)) as HH. rewrite Hfg, Hr' in HH by lia. done.
    + rewrite Hfg in Hr by lia. pose proof (find_first_None _ _ Hg x ltac:(lia)). congruence.
  - destruct (find_first n g) as [r' |] eqn:Hg; [| done].
    apply find_first_Some in Hg as (x' & Hx' & Hr' & _).
    pose proof (find_first_None _ _ Hf x' ltac:(lia)) as HH. rewrite Hfg in HH by lia. congruence.
Qed.
End find.

(** ** Windows of a buffer *)
Section windows.
Context {A : Type}.
Implicit Types (buf bs : list A).

(** The [n] elements at offset [o]. *)
Definition window (buf : list A) (o n : nat) : list A := take n (drop o buf).

#[global] Arguments window : simpl never.

Lemma lookup_window buf o n i :
  window buf o n !! i = if decide (i < n)%nat then buf !! (o + i)%nat else None.
Proof.
  unfold window. case_decide.
  - by rewrite lookup_take_lt, lookup_drop.
  - by rewrite lookup_take_ge by lia.
Qed.

Lemma window_0 buf n : window buf 0 n = take n buf.
Proof. done. Qed.

Lemma length_window buf o n : (o + n <= length buf)%nat -> length (window buf o n) = n.
Proof. intros. unfold window. rewrite length_take, length_drop. lia. Qed.

Lemma store_lookup buf off bs buf' (i : nat) :
  store buf off bs = Ok buf' ->
  buf' !! i = if decide (Z.to_nat off <= i < Z.to_nat off + length bs)%nat
              then bs !! (i - Z.to_nat off)%nat else buf !! i.
Proof.
  intros (Hoff & Hlen & ->)%store_ok. unfold len in Hlen.
  assert (length (take (Z.to_nat off) buf) = Z.to_nat off) as Ht by (rewrite length_take; lia).
  case_decide as Hi.
  - rewrite lookup_app_r, Ht by (rewrite Ht; lia). by rewrite lookup_app_l by lia.
  - destruct (decide (i < Z.to_nat off)%nat).
    + rewrite lookup_app_l by (rewrite Ht; lia). by rewrite lookup_take_lt.
    + rewrite lookup_app_r, Ht by (rewrite Ht; lia). rewrite lookup_app_r by lia.
      rewrite lookup_drop. f_equal. lia.
Qed.

Lemma store_window_other buf off bs buf' o n :
  store buf off bs = Ok buf' ->
  (o + n <= Z.to_nat off \/ Z.to_nat off + length bs <= o)%nat ->
  window buf' o n = window buf o n.
Proof.
  intros Hs Hdisj. apply list_eq. intros i. rewrite !lookup_window.
  case_decide; [| done]. rewrite (store_lookup _ _ _ _ _ Hs). case_decide; [lia | done].
Qed.

Lemma store_window_same buf off bs buf' :
  store buf off bs = Ok buf' -> window buf' (Z.to_nat off) (length bs) = bs.
Proof.
  intros Hs. apply list_eq. intros i. rewrite lookup_window.
  case_decide.
  - rewrite (store_lookup _ _ _ _ _ Hs). case_decide; [| lia]. f_equal. lia.
  - symmetry. apply lookup_ge_None. lia.
Qed.

Lemma store_Forall (P : A -> Prop) buf off bs buf' :
  store buf off bs = Ok buf' -> Forall P buf -> Forall P bs -> Forall P buf'.
Proof.
  intros (_ & _ & ->)%store_ok Hbuf Hbs.
  apply Forall_app; split; [by apply Forall_take |].
  apply Forall_app; split; [done | by apply Forall_drop].
Qed.

Lemma window_window buf o n o' n' :
  (o' + n' <= n)%nat -> window (window buf o n) o' n' = window buf (o + o') n'.
Proof.
  intros. apply list_eq. intros i. rewrite !lookup_window.
  repeat case_decide; try done; try lia. f_equal. lia.
Qed.

Lemma window_app_l (a b : list A) o n : (o + n <= length a)%nat -> window (a ++ b) o n = window a o n.
Proof.
  intros. apply list_eq. intros i. rewrite !lookup_window. case_decide; [| done].
  apply lookup_app_l. lia.
Qed.

Lemma window_app_r (a b : list A) o n :
  (length a <= o)%nat -> window (a ++ b) o n = window b (o - length a) n.
Proof.
  intros. apply list_eq. intros i. rewrite !lookup_window. case_decide; [| done].
  rewrite lookup_app_r by lia. f_equal. lia.
Qed.

Lemma window_exact (pre mid post : list A) :
  window (pre ++ mid ++ post) (length pre) (length mid) = mid.
Proof. unfold window. by rewrite drop_app_length, take_app_length. Qed.
End windows.

(** A loop that returns at the first success is [find_first]. *)
Lemma foldB_find {R} (f : Z -> option R) (body : unit -> Z -> res (unit + R)) n :
  (forall p, 0 <= p < n -> body tt p = Ok (match f p with Some r => inr r | None => inl tt end)) ->
  foldB body tt (range n) = Ok (match find_first n f with Some r => inr r | None => inl tt end).
Proof.
  intros Hb.
  assert (forall l : list Z, (forall p, p ∈ l -> 0 <= p < n) -> (forall p, p ∈ l -> f p = None) ->
    foldB body tt l = Ok (inl tt)) as Hnone.
  { induction l as [| p l IH]; intros Hl Hf; [done |]. cbn [foldB].
    rewrite Hb, Hf by set_solver. cbn [mbind res_bind]. apply IH; set_solver. }
  assert (forall (l k : list Z) p r, (forall p, p ∈ l -> 0 <= p < n) -> (forall p, p ∈ l -> f p = None) ->
    0 <= p < n -> f p = Some r -> foldB body tt (l ++ p :: k) = Ok (inr r)) as Hsome.
  { induction l as [| q l IH]; intros k p r Hl Hf Hp Hr; cbn [foldB app].
    - rewrite Hb, Hr by done. done.
    - rewrite Hb, Hf by set_solver. cbn [mbind res_bind]. apply IH; set_solver. }
  destruct (find_first n f) as [r |] eqn:Hff.
  - apply find_first_Some in Hff as (p & Hp & Hr & Hlt). unfold range.
    replace n with (p + (1 + (n - p - 1))) by lia.
    rewrite seqZ_app, (seqZ_app (0 + p) 1) by lia. cbn [app]. apply Hsome.
    + intros q Hq%elem_of_seqZ. lia.
    + intros q Hq%elem_of_seqZ. apply Hlt. lia.
    + lia.
    + done.
  - apply Hnone; [by intros p ?%elem_of_range |].
    intros p Hp%elem_of_range. by apply (find_first_None _ _ Hff).
Qed.

(** ** Reading and writing next to a prefix *)
Lemma idx_app_l {A} (l k : list A) i : i < len l -> idx (l ++ k) i = idx l i.
Proof.
  intros Hi. unfold idx. destruct (Z.ltb_spec i 0); [done |].
  rewrite lookup_app_l by (unfold len in Hi; lia). done.
Qed.

Lemma upd_middle {A} (a : list A) x y b : upd (a ++ x :: b) (len a) y = Ok (a ++ y :: b).
Proof.
  rewrite upd_in_range by (rewrite len_app, len_cons; pose proof (len_nonneg b); pose proof (len_nonneg a); lia).
  unfold len. by rewrite Nat2Z.id, insert_app_r_alt, Nat.sub_diag by lia.
Qed.

Lemma upd_app_at {A} (a : list A) x y b i : len a = i -> upd (a ++ x :: b) i y = Ok (a ++ y :: b).
Proof. intros <-. apply upd_middle. Qed.

(** A slice out of a concatenation. *)
Lemma slice_app_mid {A} (pre mid post : list A) i j :
  i = len pre -> j = len pre + len mid -> slice (pre ++ mid ++ post) i j = Ok mid.
Proof.
  intros -> ->. pose proof (len_nonneg pre). pose proof (len_nonneg mid). pose proof (len_nonneg post).
  rewrite slice_in_range by (rewrite ?len_app; lia). f_equal.
  rewrite drop_app_length' by (unfold len; lia). apply take_app_length'. unfold len. lia.
Qed.

Lemma slice_app_tail {A} (pre post : list A) i j :
  i = len pre -> j = len (pre ++ post) -> slice (pre ++ post) i j = Ok post.
Proof.
  intros -> ->. rewrite <- (app_nil_r post) at 1. apply slice_app_mid; [done |].
  by rewrite len_app.
Qed.

Lemma store_app_tail {A} (pre post post' : list A) i :
  i = len pre -> len post' = len post -> store (pre ++ post) i post' = Ok (pre ++ post').
Proof.
  intros -> Hl. apply store_ok. pose proof (len_nonneg pre). split; [done |]. rewrite len_app. split; [lia |].
  unfold len in *. rewrite take_app_length' by lia. rewrite drop_ge by (rewrite length_app; lia). by rewrite app_nil_r.
Qed.

(** ** Concatenations and groups *)
Lemma NoDup_range n : NoDup (range n).
Proof. apply NoDup_seqZ. Qed.

Lemma filter_all_id {A} (P : A -> Prop) `{!forall x, Decision (P x)} (l : list A) :
  (forall x, x ∈ l -> P x) -> filter P l = l.
Proof.
  induction l as [| x l IH]; intros Hp; [done |].
  rewrite filter_cons_True by (apply Hp; set_solver). f_equal. apply IH. set_solver.
Qed.

(** Splitting a list by the value of a key is a permutation. *)
Lemma by_key_permutation {A} (sz : A -> Z) (l : list A) sizes :
  NoDup sizes -> (forall i, i ∈ l -> sz i ∈ sizes) ->
  concat (map (fun s => filter (fun i => sz i = s) l) sizes) ≡ₚ l.
Proof.
  intros Hnd. revert l. induction Hnd as [| s sizes Hs Hnd IH]; intros l Hin.
  - destruct l as [| x l]; [done |]. exfalso. specialize (Hin x). set_solver.
  - cbn [map concat].
    assert (map (fun t => filter (fun i => sz i = t) l) sizes =
            map (fun t => filter (fun i => sz i = t) (filter (fun i => ~ sz i = s) l)) sizes) as ->.
    { apply map_ext_in. intros t Ht%list_elem_of_In. symmetry. apply list_filter_filter_l.
      intros x ->. intros ->. by apply Hs. }
    rewrite IH by (intros i [? Hl]%list_elem_of_filter; specialize (Hin i Hl); set_solver).
    apply (filter_app_complement (fun i => sz i = s)).
Qed.

Lemma elem_of_concat_map {A} (f : Z -> list A) l (x : A) :
  x ∈ concat (map f l) <-> exists b, b ∈ l /\ x ∈ f b.
Proof.
  rewrite list_elem_of_In, in_concat. setoid_rewrite in_map_iff. split.
  - intros (g & (b & <- & Hb) & Hx). exists b. by rewrite !list_elem_of_In.
  - intros (b & Hb & Hx). exists (f b). apply list_elem_of_In in Hb, Hx. eauto.
Qed.

Lemma NoDup_concat_map {A} (f : Z -> list A) l :
  NoDup l -> (forall b, b ∈ l -> NoDup (f b)) ->
  (forall b c x, b ∈ l -> c ∈ l -> x ∈ f b -> x ∈ f c -> b = c) -> NoDup (concat (map f l)).
Proof.
  induction 1 as [| b l Hb Hl IH]; intros Hnd Hdis; [apply NoDup_nil_2 |]. cbn [map concat].
  apply NoDup_app. split_and!.
  - apply Hnd. set_solver.
  - intros x Hx (c & Hc & Hxc)%elem_of_concat_map. assert (b = c) as <-; [| done].
    eapply Hdis; [| | exact Hx | exact Hxc]; set_solver.
  - apply IH; [set_solver |]. intros c d x Hc Hd. apply Hdis; set_solver.
Qed.
