(* ===== verification/Words.v ===== *)
(** * Machine words and byte strings

    Go's fixed-width unsigned integers as [Z] with the wrap-around written out,
    bytes as [Z] in [0,256), and the little-endian conversions of
    [encoding/binary] that every on-disk structure of the program goes
    through. *)
From S2P Require Import Prelude.
#[local] Open Scope Z_scope.

(** ** Widths *)
Definition u8 (z : Z) : Z := z mod 2 ^ 8.
Definition u16 (z : Z) : Z := z mod 2 ^ 16.
Definition u32 (z : Z) : Z := z mod 2 ^ 32.
Definition u64 (z : Z) : Z := z mod 2 ^ 64.
(** [int(x)] of a [uint64]: two's complement. *)
Definition int64 (z : Z) : Z := if u64 z <? 2 ^ 63 then u64 z else u64 z - 2 ^ 64.

Definition is_u (w z : Z) : Prop := 0 <= z < 2 ^ w.
Definition is_byte (b : Z) : Prop := is_u 8 b.

(** [hi, lo := bits.Mul64(a, b)] *)
Definition mul64_hi (a b : Z) : Z := (a * b) / 2 ^ 64.
Definition mul64_lo (a b : Z) : Z := u64 (a * b).

Arguments u8 : simpl never.
Arguments u16 : simpl never.
Arguments u32 : simpl never.
Arguments u64 : simpl never.
Arguments int64 : simpl never.
Arguments mul64_hi : simpl never.
Arguments mul64_lo : simpl never.

Ltac unfold_words :=
  unfold is_byte, is_u, int64, u8, u16, u32, u64, mul64_hi, mul64_lo in *.
(** Arithmetic with [/] and [mod] by constants. *)
Ltac zlia := unfold_words; Z.div_mod_to_equations; lia.

Lemma u8_is x : is_u 8 (u8 x). Proof. zlia. Qed.
Lemma u16_is x : is_u 16 (u16 x). Proof. zlia. Qed.
Lemma u32_is x : is_u 32 (u32 x). Proof. zlia. Qed.
Lemma u64_is x : is_u 64 (u64 x). Proof. zlia. Qed.
Lemma u8_id x : is_u 8 x -> u8 x = x. Proof. apply Z.mod_small. Qed.
Lemma u16_id x : is_u 16 x -> u16 x = x. Proof. apply Z.mod_small. Qed.
Lemma u32_id x : is_u 32 x -> u32 x = x. Proof. apply Z.mod_small. Qed.
Lemma u64_id x : is_u 64 x -> u64 x = x. Proof. apply Z.mod_small. Qed.

Lemma is_u_mono w w' x : 0 <= w <= w' -> is_u w x -> is_u w' x.
Proof. intros Hw [? ?]. split; [done |]. pose proof (Z.pow_le_mono_r 2 w w'). lia. Qed.

(** ** Bit operations as arithmetic *)
Lemma land_shiftl_low a b k : 0 <= k -> 0 <= a < 2 ^ k -> Z.land a (Z.shiftl b k) = 0.
Proof.
  intros Hk Ha. apply Z.bits_inj'. intros i Hi.
  rewrite Z.land_spec, Z.bits_0, Z.shiftl_spec by done.
  destruct (decide (i < k)).
  - rewrite (Z.testbit_neg_r b) by lia. apply andb_false_r.
  - rewrite <- (Z.mod_small a (2 ^ k)) by done. by rewrite Z.mod_pow2_bits_high by lia.
Qed.

Lemma lor_shiftl_add a b k : 0 <= k -> 0 <= a < 2 ^ k -> Z.lor a (Z.shiftl b k) = a + b * 2 ^ k.
Proof.
  intros Hk Ha. rewrite <- Z.shiftl_mul_pow2 by done.
  rewrite Z.add_nocarry_lxor by (by apply land_shiftl_low).
  by rewrite Z.lxor_lor by (by apply land_shiftl_low).
Qed.

Lemma shiftr_div a k : 0 <= k -> Z.shiftr a k = a / 2 ^ k.
Proof. apply Z.shiftr_div_pow2. Qed.

Lemma land_mask a k : 0 <= k -> Z.land a (2 ^ k - 1) = a mod 2 ^ k.
Proof. intros. by rewrite <- Z.land_ones, Z.ones_equiv. Qed.

Lemma mul64_hi_bound a b n : 0 <= a < 2 ^ 64 -> 0 <= b <= n -> 0 <= mul64_hi a b <= n.
Proof.
  intros Ha Hb. unfold mul64_hi. split; [apply Z.div_pos; nia |].
  apply Z.div_le_upper_bound; [lia |]. nia.
Qed.

Lemma mul64_hi_lt a b : 0 <= a < 2 ^ 64 -> 0 < b -> 0 <= mul64_hi a b < b.
Proof.
  intros Ha Hb. unfold mul64_hi. split; [apply Z.div_pos; nia |].
  apply Z.div_lt_upper_bound; [lia |]. nia.
Qed.

Lemma mul64_hi_mono a a' b : 0 <= b -> a <= a' -> mul64_hi a b <= mul64_hi a' b.
Proof. intros. unfold mul64_hi. apply Z.div_le_mono; nia. Qed.

Lemma lxor_is_u w a b : 0 <= w -> is_u w a -> is_u w b -> is_u w (Z.lxor a b).
Proof.
  intros Hw Ha Hb. rewrite <- (Z.mod_small a (2 ^ w)), <- (Z.mod_small b (2 ^ w)) by done.
  rewrite <- !Z.land_ones by done.
  assert (Z.lxor (Z.land a (Z.ones w)) (Z.land b (Z.ones w)) = Z.land (Z.lxor a b) (Z.ones w)) as ->.
  { apply Z.bits_inj'. intros i Hi. rewrite !Z.lxor_spec, !Z.land_spec, Z.lxor_spec.
    by destruct (Z.testbit a i), (Z.testbit b i), (Z.testbit _ i). }
  rewrite Z.land_ones by done. apply Z.mod_pos_bound. lia.
Qed.

Lemma lor_is_u w a b : 0 <= w -> is_u w a -> is_u w b -> is_u w (Z.lor a b).
Proof.
  intros Hw Ha Hb. rewrite <- (Z.mod_small a (2 ^ w)), <- (Z.mod_small b (2 ^ w)) by done.
  rewrite <- !Z.land_ones by done. rewrite <- Z.land_lor_distr_l, Z.land_ones by done.
  apply Z.mod_pos_bound. lia.
Qed.

Lemma lxor_cancel_r a b c : Z.lxor a c = Z.lxor b c -> a = b.
Proof.
  intros H. apply (f_equal (fun x => Z.lxor x c)) in H.
  by rewrite !Z.lxor_assoc, !Z.lxor_nilpotent, !Z.lxor_0_r in H.
Qed.

(** ** Little-endian byte strings *)
Fixpoint le_bytes (n : nat) (z : Z) : list Z :=
  match n with O => [] | S n => z mod 2 ^ 8 :: le_bytes n (z / 2 ^ 8) end.

Fixpoint le_val (bs : list Z) : Z :=
  match bs with [] => 0 | b :: bs => b + 2 ^ 8 * le_val bs end.

(** [binary.LittleEndian.UintN(buf[off:])], [n] bytes: panics when the buffer
    is too short. *)
Definition get_le (n : nat) (buf : list Z) (off : Z) : res Z :=
  bs ← slice buf off (off + Z.of_nat n); Ok (le_val bs).

(** [binary.LittleEndian.PutUintN(buf[off:], v)]. *)
Definition put_le (n : nat) (buf : list Z) (off v : Z) : res (list Z) :=
  store buf off (le_bytes n v).

Arguments get_le : simpl never.
Arguments put_le : simpl never.

Lemma length_le_bytes n z : length (le_bytes n z) = n.
Proof. revert z. induction n; intros z; simpl; [done | by rewrite IHn]. Qed.

Lemma len_le_bytes n z : len (le_bytes n z) = Z.of_nat n.
Proof. unfold len. by rewrite length_le_bytes. Qed.

Lemma le_bytes_bytes n z : Forall is_byte (le_bytes n z).
Proof. revert z. induction n; intros z; simpl; constructor; [| done]. zlia. Qed.

Lemma pow256 n : 2 ^ (8 * Z.of_nat (S n)) = 2 ^ 8 * 2 ^ (8 * Z.of_nat n).
Proof. rewrite <- Z.pow_add_r by lia. f_equal. lia. Qed.

Lemma le_val_bytes n z : le_val (le_bytes n z) = z mod 2 ^ (8 * Z.of_nat n).
Proof.
  revert z. induction n as [| n IH]; intros z; [by rewrite Z.mod_1_r |].
  change (z mod 2 ^ 8 + 2 ^ 8 * le_val (le_bytes n (z / 2 ^ 8)) = z mod 2 ^ (8 * Z.of_nat (S n))).
  rewrite IH, pow256. symmetry. apply Z.rem_mul_r; lia.
Qed.

Lemma le_val_bound bs : Forall is_byte bs -> 0 <= le_val bs < 2 ^ (8 * Z.of_nat (length bs)).
Proof.
  induction 1 as [| b bs Hb Hbs IH]; [simpl; lia |].
  change (length (b :: bs)) with (S (length bs)). rewrite pow256.
  change (le_val (b :: bs)) with (b + 2 ^ 8 * le_val bs). unfold_words. nia.
Qed.

Lemma le_bytes_val bs : Forall is_byte bs -> le_bytes (length bs) (le_val bs) = bs.
Proof.
  induction 1 as [| b bs Hb Hbs IH]; [done |]. cbn [length le_bytes le_val].
  assert ((b + 2 ^ 8 * le_val bs) mod 2 ^ 8 = b) as ->.
  { rewrite Z.mul_comm, Z.mod_add by lia. apply Z.mod_small. apply Hb. }
  rewrite Z.mul_comm, Z.div_add, (Z.div_small b) by (try lia; apply Hb).
  by rewrite Z.add_0_l, IH.
Qed.

Lemma le_val_app a b : le_val (a ++ b) = le_val a + 2 ^ (8 * Z.of_nat (length a)) * le_val b.
Proof.
  induction a as [| x a IH]; [simpl; lia |].
  cbn [length app]. rewrite pow256. change (le_val (x :: a ++ b)) with (x + 2 ^ 8 * le_val (a ++ b)).
  change (le_val (x :: a)) with (x + 2 ^ 8 * le_val a). rewrite IH. ring.
Qed.

Lemma le_bytes_app n m z :
  le_bytes (n + m) z = le_bytes n z ++ le_bytes m (z / 2 ^ (8 * Z.of_nat n)).
Proof.
  revert z. induction n as [| n IH]; intros z; [by rewrite Z.div_1_r |].
  cbn [Nat.add le_bytes app]. rewrite IH, Z.div_div by lia. f_equal. f_equal. f_equal.
  rewrite <- pow256. done.
Qed.

Lemma le_bytes_mod n z : le_bytes n (z mod 2 ^ (8 * Z.of_nat n)) = le_bytes n z.
Proof.
  rewrite <- le_val_bytes. rewrite <- (length_le_bytes n z) at 1.
  apply le_bytes_val, le_bytes_bytes.
Qed.

Arguments le_bytes : simpl never.
Arguments le_val : simpl never.

Lemma le_bytes_cons n z : le_bytes (S n) z = z mod 2 ^ 8 :: le_bytes n (z / 2 ^ 8).
Proof. done. Qed.

Lemma le_val_cons b bs : le_val (b :: bs) = b + 2 ^ 8 * le_val bs.
Proof. done. Qed.

Lemma le_val_single b : le_val [b] = b.
Proof. unfold le_val. lia. Qed.

Lemma get_le_app n pre v post :
  get_le n (pre ++ le_bytes n v ++ post) (len pre) = Ok (v mod 2 ^ (8 * Z.of_nat n)).
Proof.
  unfold get_le. rewrite slice_in_range.
  - simpl. unfold len. rewrite Nat2Z.id, drop_app_length.
    replace (Z.to_nat _) with (length (le_bytes n v)) by (rewrite length_le_bytes; lia).
    by rewrite take_app_length, le_val_bytes.
  - unfold len; lia.
  - rewrite !len_app. unfold len at 3. rewrite length_le_bytes. unfold len; lia.
Qed.

Lemma get_le_range n buf off :
  0 <= off -> off + Z.of_nat n <= len buf -> exists v, get_le n buf off = Ok v.
Proof. intros. unfold get_le. rewrite slice_in_range by lia. simpl. eauto. Qed.

(** [bits.ReverseBytes64] *)
Definition reverse_bytes64 (x : Z) : Z := le_val (reverse (le_bytes 8 x)).

Lemma reverse_bytes64_is x : is_u 64 (reverse_bytes64 x).
Proof.
  unfold reverse_bytes64, is_u.
  pose proof (le_val_bound (reverse (le_bytes 8 x))) as H.
  rewrite length_reverse, length_le_bytes in H. apply H.
  apply Forall_reverse, le_bytes_bytes.
Qed.
