(* ===== verification/Bits.v ===== *)
(** * [internal/bits]: the fastrange reduction

    [FastRange32] is the only way the program turns a hash into an index: block
    routing, bucket assignment and the slots of a bucket all go through it. *)
From S2P Require Import Prelude Words.
#[local] Open Scope Z_scope.

Definition FastRange32 (hash n : Z) : Z :=
  if n =? 0 then 0
  else let hi := mul64_hi hash n in u32 hi.

(** The product's high word never needs the truncation to 32 bits. *)
Lemma FastRange32_eq hash n :
  is_u 64 hash -> is_u 32 n -> n <> 0 -> FastRange32 hash n = hash * n / 2 ^ 64.
Proof.
  intros Hh Hn Hn0. unfold FastRange32. destruct (Z.eqb_spec n 0); [done |].
  apply u32_id. unfold_words. pose proof (mul64_hi_lt hash n). unfold mul64_hi in *. lia.
Qed.

Lemma FastRange32_lt hash n :
  is_u 64 hash -> is_u 32 n -> 0 < n -> 0 <= FastRange32 hash n < n.
Proof.
  intros Hh Hn Hn0. rewrite FastRange32_eq by (done || lia).
  apply (mul64_hi_lt hash n); [apply Hh | done].
Qed.

Lemma FastRange32_is hash n : is_u 32 (FastRange32 hash n).
Proof. unfold FastRange32. destruct (_ =? _); [by unfold_words | apply u32_is]. Qed.

Lemma FastRange32_mono h h' n :
  is_u 64 h -> is_u 64 h' -> is_u 32 n -> h <= h' -> FastRange32 h n <= FastRange32 h' n.
Proof.
  intros Hh Hh' Hn Hle. destruct (decide (n = 0)) as [-> |]; [done |].
  rewrite !FastRange32_eq by done. apply Z.div_le_mono; unfold_words; nia.
Qed.

(** Every index is hit: fastrange onto [0, n) is surjective. *)
Lemma FastRange32_surj n i :
  is_u 32 n -> 0 <= i < n -> exists h, is_u 64 h /\ FastRange32 h n = i.
Proof.
  intros Hn Hi. set (h := (i * 2 ^ 64 + n - 1) / n).
  assert (i * 2 ^ 64 <= h * n < i * 2 ^ 64 + n) as Hh.
  { unfold h. pose proof (Z.div_mod (i * 2 ^ 64 + n - 1) n ltac:(lia)).
    pose proof (Z.mod_pos_bound (i * 2 ^ 64 + n - 1) n ltac:(lia)). lia. }
  assert (is_u 64 h) as Hu by (unfold_words; nia).
  exists h. split; [done |]. rewrite FastRange32_eq by (done || lia).
  symmetry. apply Z.div_unique with (h * n - i * 2 ^ 64); unfold_words; lia.
Qed.
