(* ===== verification/Encoding.v ===== *)
(** * [internal/encoding]: packed fingerprint/payload entries

    The payload region of an index is an array of fixed-size entries, each a
    fingerprint followed by a payload, little-endian. [WriteEntry] is the fast
    path for the entry sizes 1, 4, 5 and 8, [WriteEntryGeneric] serves every
    size; the [Read*] functions are the safe counterparts.

    The stores go through [unsafe.Pointer], so a store outside the buffer has no
    defined meaning in Go; here it is a [Panic], which the builders' theorems
    rule out. *)
From S2P Require Import Prelude Words.
#[local] Open Scope Z_scope.

Definition WriteEntry (buf : list Z) (pos entrySize fp payload fpShift : Z) : res (list Z) :=
  let val := Z.lor fp (u64 (Z.shiftl payload fpShift)) in
  if entrySize =? 1 then store buf pos [u8 val]
  else if entrySize =? 4 then store buf (pos * 4) (le_bytes 4 (u32 val))
  else if entrySize =? 5 then
    buf ← store buf (pos * 5) (le_bytes 4 (u32 val));
    store buf (pos * 5 + 4) [u8 (Z.shiftr val 32)]
  else if entrySize =? 8 then store buf (pos * 8) (le_bytes 8 val)
  else Panic.

(** The byte-at-a-time loop of the default branches. *)
Definition store_bytes (buf : list Z) (ptr size v : Z) : res (list Z) :=
  foldM (fun buf i => store buf (ptr + i) [u8 (Z.shiftr v (i * 8))]) buf (range size).

Definition WriteEntryGeneric (buf : list Z) (pos entrySize fp payload fpShift : Z)
    : res (list Z) :=
  let fpSize := fpShift / 8 in
  let ptr := pos * entrySize in
  buf ←
    (if fpSize =? 0 then Ok buf
     else if fpSize =? 1 then store buf ptr [u8 fp]
     else if fpSize =? 2 then store buf ptr (le_bytes 2 (u16 fp))
     else if fpSize =? 4 then store buf ptr (le_bytes 4 fp)
     else store_bytes buf ptr fpSize fp);
  let payloadSize := entrySize - fpSize in
  if payloadSize =? 0 then Ok buf
  else
    let payloadPtr := ptr + fpSize in
    if payloadSize =? 4 then store buf payloadPtr (le_bytes 4 (u32 payload))
    else if payloadSize =? 8 then store buf payloadPtr (le_bytes 8 payload)
    else store_bytes buf payloadPtr payloadSize payload.

Definition ReadFP (buf : list Z) (fpSize : Z) : res Z :=
  foldM (fun v i => b ← idx buf i; Ok (Z.lor v (u32 (Z.shiftl b (i * 8))))) 0 (range fpSize).

Definition ReadPayload (buf : list Z) (payloadSize : Z) : res Z :=
  foldM (fun v i => b ← idx buf i; Ok (Z.lor v (u64 (Z.shiftl b (i * 8))))) 0
    (range payloadSize).

Definition ReadEntry (buf : list Z) (slot entrySize fpSize payloadSize : Z) : res (Z * Z) :=
  let offset := slot * entrySize in
  fpBuf ← slice buf offset (len buf);
  fp ← ReadFP fpBuf fpSize;
  payloadBuf ← slice buf (offset + fpSize) (len buf);
  payload ← ReadPayload payloadBuf payloadSize;
  Ok (fp, payload).

(** ** The entry format, as a specification *)

(** The bytes of one entry. *)
Definition entry_bytes (fpSize payloadSize fp payload : Z) : list Z :=
  le_bytes (Z.to_nat fpSize) fp ++ le_bytes (Z.to_nat payloadSize) payload.

Lemma len_entry_bytes fpSize payloadSize fp payload :
  0 <= fpSize -> 0 <= payloadSize ->
  len (entry_bytes fpSize payloadSize fp payload) = fpSize + payloadSize.
Proof. intros. unfold entry_bytes, len. rewrite length_app, !length_le_bytes. lia. Qed.

Lemma store_range buf (bs : list Z) off :
  0 <= off -> off + len bs <= len buf ->
  store buf off bs = Ok (take (Z.to_nat off) buf ++ bs ++ drop (Z.to_nat off + length bs) buf).
Proof. intros. by apply store_ok. Qed.

(** Two adjacent stores are one. *)
Lemma store_store_adjacent buf (a b : list Z) off :
  0 <= off -> off + len a + len b <= len buf ->
  (buf' ← store buf off a; store buf' (off + len a) b) = store buf off (a ++ b).
Proof.
  intros Hoff Hlen. pose proof (len_nonneg a). pose proof (len_nonneg b).
  rewrite !store_range by (rewrite ?len_app; lia). simpl.
  assert (length (take (Z.to_nat off) buf) = Z.to_nat off) as Htake.
  { rewrite length_take. unfold len in *. lia. }
  rewrite store_range.
  2: unfold len; lia.
  2:{ rewrite !len_app. unfold len in *. rewrite Htake, length_drop. lia. }
  f_equal. replace (Z.to_nat (off + len a)) with (Z.to_nat off + length a)%nat by (unfold len; lia).
  rewrite <- !app_assoc. rewrite (app_assoc _ a), take_app_length'.
  2: by rewrite length_app, Htake.
  rewrite <- app_assoc. do 3 f_equal.
  rewrite <- drop_drop, drop_app_length' by (by rewrite length_app, Htake).
  rewrite drop_drop. f_equal. rewrite length_app. lia.
Qed.

Lemma store_nil buf off : 0 <= off <= len buf -> store (A := Z) buf off [] = Ok buf.
Proof.
  intros. rewrite store_range by (rewrite ?len_nil; lia). f_equal. simpl.
  by rewrite Nat.add_0_r, take_drop.
Qed.

Lemma store_bytes_eq buf ptr size v :
  0 <= ptr -> 0 <= size -> ptr + size <= len buf ->
  store_bytes buf ptr size v = store buf ptr (le_bytes (Z.to_nat size) v).
Proof.
  intros Hp Hs. rewrite <- (Z2Nat.id size) by done. generalize (Z.to_nat size) as n.
  clear size Hs. induction n as [| n IH]; intros Hlen.
  - rewrite Nat2Z.id. simpl. rewrite store_nil by lia. done.
  - unfold store_bytes in *. rewrite Nat2Z.inj_succ, <- Z.add_1_r, range_succ by lia.
    rewrite foldM_snoc, IH by lia. rewrite Nat2Z.id, Z.add_1_r, <- Nat2Z.inj_succ, Nat2Z.id.
    replace (S n) with (n + 1)%nat by lia. rewrite le_bytes_app.
    assert (len (le_bytes n v) = Z.of_nat n) as Hl by (unfold len; by rewrite length_le_bytes).
    rewrite <- store_store_adjacent.
    2: done. 2: rewrite !len_le_bytes; lia.
    rewrite Hl. destruct (store buf ptr (le_bytes n v)); simpl; [| done | done].
    by rewrite shiftr_div, (Z.mul_comm 8) by lia.
Qed.

(** ** What the writers store *)

Lemma le_bytes_trunc n m z : (n <= m)%nat -> le_bytes n (z mod 2 ^ (8 * Z.of_nat m)) = le_bytes n z.
Proof.
  intros Hnm. rewrite <- (le_bytes_mod n z), <- (le_bytes_mod n (z mod _)). f_equal.
  replace (8 * Z.of_nat m) with (8 * Z.of_nat n + 8 * Z.of_nat (m - n)) by lia.
  rewrite Z.pow_add_r by lia. pose proof (Z.pow_pos_nonneg 2 (8 * Z.of_nat n) ltac:(lia) ltac:(lia)).
  rewrite Z.rem_mul_r by (try lia; apply Z.pow_pos_nonneg; lia).
  rewrite (Z.mul_comm (2 ^ _) (_ mod _)), Z.mod_add, Z.mod_mod by lia. done.
Qed.

Lemma le_bytes_u64 n z : (n <= 8)%nat -> le_bytes n (u64 z) = le_bytes n z.
Proof. apply (le_bytes_trunc n 8). Qed.
Lemma le_bytes_u32 n z : (n <= 4)%nat -> le_bytes n (u32 z) = le_bytes n z.
Proof. apply (le_bytes_trunc n 4). Qed.

Lemma le_bytes_u16 n z : (n <= 2)%nat -> le_bytes n (u16 z) = le_bytes n z.
Proof. apply (le_bytes_trunc n 2). Qed.

(** The packed word of [WriteEntry] has the entry's bytes. *)
Lemma packed_entry_bytes fpSize payloadSize fp payload :
  0 <= fpSize -> 0 <= payloadSize -> fpSize + payloadSize <= 8 -> is_u (8 * fpSize) fp ->
  le_bytes (Z.to_nat (fpSize + payloadSize)) (Z.lor fp (u64 (Z.shiftl payload (8 * fpSize))))
  = entry_bytes fpSize payloadSize fp payload.
Proof.
  intros Hf Hp Hsum Hfp. unfold u64. rewrite Z.shiftl_mul_pow2 by lia.
  set (s := 8 * fpSize) in *. assert (0 < 2 ^ s) by (apply Z.pow_pos_nonneg; lia).
  replace (2 ^ 64) with (2 ^ s * 2 ^ (64 - s)) by (rewrite <- Z.pow_add_r by lia; f_equal; lia).
  rewrite Z.mul_comm, Z.mul_mod_distr_l by (try apply Z.pow_nonzero; lia).
  rewrite Z.mul_comm, <- Z.shiftl_mul_pow2, lor_shiftl_add by (done || lia).
  rewrite Z2Nat.inj_add, le_bytes_app by lia.
  assert (8 * Z.of_nat (Z.to_nat fpSize) = s) as Hs by lia.
  unfold entry_bytes. f_equal.
  - rewrite <- le_bytes_mod, Hs, Z.mod_add, Z.mod_small by (done || lia). done.
  - rewrite Hs, Z.div_add, Z.div_small, Z.add_0_l by (done || lia).
    replace (64 - s) with (8 * Z.of_nat (Z.to_nat (8 - fpSize))) by lia.
    apply le_bytes_trunc. lia.
Qed.

Lemma WriteEntry_store buf pos fpSize payloadSize fp payload :
  (fpSize + payloadSize) ∈ [1; 4; 5; 8] -> 0 <= fpSize -> 0 <= payloadSize ->
  is_u (8 * fpSize) fp -> 0 <= pos -> (pos + 1) * (fpSize + payloadSize) <= len buf ->
  WriteEntry buf pos (fpSize + payloadSize) fp payload (8 * fpSize) =
  store buf (pos * (fpSize + payloadSize)) (entry_bytes fpSize payloadSize fp payload).
Proof.
  intros Hes Hf Hp Hfp Hpos Hlen.
  rewrite !elem_of_cons, elem_of_nil in Hes.
  assert (fpSize + payloadSize <= 8) as Hle by lia.
  pose proof (packed_entry_bytes fpSize payloadSize fp payload Hf Hp Hle Hfp) as Hb.
  unfold WriteEntry. set (val := Z.lor _ _) in *.
  destruct Hes as [He | [He | [He | [He | []]]]];
    rewrite He in Hlen, Hb |- *; cbv [Z.eqb Pos.eqb]; rewrite <- Hb.
  - rewrite Z.mul_1_r. done.
  - by rewrite le_bytes_u32.
  - rewrite le_bytes_u32 by lia. change (Z.to_nat 5) with (4 + 1)%nat. rewrite le_bytes_app.
    rewrite <- store_store_adjacent; [| lia | rewrite !len_le_bytes; lia].
    change (len (le_bytes 4 val)) with 4. rewrite shiftr_div by lia. done.
  - done.
Qed.

Lemma store_le_bytes_loop buf ptr size v :
  0 <= ptr -> 0 <= size -> ptr + size <= len buf ->
  store_bytes buf ptr size v = store buf ptr (le_bytes (Z.to_nat size) v).
Proof. apply store_bytes_eq. Qed.

Lemma WriteEntryGeneric_store buf pos fpSize payloadSize fp payload :
  0 <= fpSize -> 0 <= payloadSize -> 0 <= pos -> (pos + 1) * (fpSize + payloadSize) <= len buf ->
  WriteEntryGeneric buf pos (fpSize + payloadSize) fp payload (8 * fpSize) =
  store buf (pos * (fpSize + payloadSize)) (entry_bytes fpSize payloadSize fp payload).
Proof.
  intros Hf Hp Hpos Hlen. unfold WriteEntryGeneric.
  rewrite Z.mul_comm, Z.div_mul by lia. set (ptr := pos * (fpSize + payloadSize)).
  assert (0 <= ptr /\ ptr + fpSize + payloadSize <= len buf) as [Hptr Hend] by (unfold ptr; nia).
  replace (fpSize + payloadSize - fpSize) with payloadSize by lia.
  match goal with |- (?m ≫= _) = _ => assert (m = store buf ptr (le_bytes (Z.to_nat fpSize) fp)) as -> end.
  { destruct (Z.eqb_spec fpSize 0) as [-> |]; [by rewrite store_nil by lia |].
    destruct (Z.eqb_spec fpSize 1) as [-> |]; [done |].
    destruct (Z.eqb_spec fpSize 2) as [-> |]; [by rewrite le_bytes_u16 |].
    destruct (Z.eqb_spec fpSize 4) as [-> |]; [done |].
    apply store_bytes_eq; lia. }
  unfold entry_bytes.
  assert (len (le_bytes (Z.to_nat fpSize) fp) = fpSize) as Hl1
    by (unfold len; rewrite length_le_bytes; lia).
  assert (len (le_bytes (Z.to_nat payloadSize) payload) = payloadSize) as Hl2
    by (unfold len; rewrite length_le_bytes; lia).
  rewrite <- store_store_adjacent by (rewrite ?Hl1, ?Hl2; lia). rewrite Hl1.
  rewrite store_range by (rewrite ?Hl1; lia). simpl.
  set (buf' := take _ _ ++ _).
  assert (len buf' = len buf) as Hb'.
  { unfold len. f_equal. eapply store_length. apply (store_range buf _ ptr); rewrite ?Hl1; lia. }
  destruct (Z.eqb_spec payloadSize 0) as [-> |]; [by rewrite store_nil by lia |].
  destruct (Z.eqb_spec payloadSize 4) as [-> |]; [by rewrite le_bytes_u32 |].
  destruct (Z.eqb_spec payloadSize 8) as [-> |]; [done |].
  apply store_bytes_eq; lia.
Qed.

(** ** What the readers return *)

Lemma read_loop_eq w buf size :
  0 <= size -> 8 * size <= w -> size <= len buf -> Forall is_byte (take (Z.to_nat size) buf) ->
  foldM (fun v i => b ← idx buf i; Ok (Z.lor v (Z.shiftl b (i * 8) mod 2 ^ w))) 0 (range size)
  = Ok (le_val (take (Z.to_nat size) buf)).
Proof.
  intros Hs. rewrite <- (Z2Nat.id size) by done. generalize (Z.to_nat size) as n.
  clear size Hs. induction n as [| n IH]; intros Hw Hlen Hb; [done |].
  rewrite Nat2Z.id in *. rewrite Nat2Z.inj_succ, <- Z.add_1_r, range_succ by lia.
  destruct (lookup_lt_is_Some_2 buf n) as [b Hbn]; [unfold len in *; lia |].
  erewrite take_S_r in Hb |- * by done. apply Forall_app in Hb as [Hb1 Hb2].
  rewrite Forall_singleton in Hb2.
  rewrite foldM_snoc, IH by (done || lia). simpl.
  rewrite (idx_nat _ _ _ Hbn). simpl. f_equal. rewrite le_val_app, le_val_single.
  assert (length (take n buf) = n) as Hl by (rewrite length_take; apply lookup_lt_Some in Hbn; lia).
  pose proof (le_val_bound _ Hb1) as Hv. rewrite Hl in Hv |- *.
  rewrite Z.mod_small, lor_shiftl_add; [| lia | | ].
  - replace (Z.of_nat n * 8) with (8 * Z.of_nat n) by lia. nia.
  - by replace (Z.of_nat n * 8) with (8 * Z.of_nat n) by lia.
  - rewrite Z.shiftl_mul_pow2 by lia. unfold_words.
    assert (2 ^ w = 2 ^ (Z.of_nat n * 8) * 2 ^ (w - Z.of_nat n * 8)) as ->
      by (rewrite <- Z.pow_add_r by lia; f_equal; lia).
    assert (2 ^ 8 <= 2 ^ (w - Z.of_nat n * 8)) by (apply Z.pow_le_mono_r; lia).
    pose proof (Z.pow_pos_nonneg 2 (Z.of_nat n * 8) ltac:(lia) ltac:(lia)) as HP.
    generalize dependent (2 ^ (Z.of_nat n * 8)). generalize dependent (2 ^ (w - Z.of_nat n * 8)).
    intros Q HQ P HP. split; [nia |]. rewrite (Z.mul_comm b). apply Z.mul_lt_mono_pos_l; lia.
Qed.

Lemma ReadFP_eq buf fpSize :
  0 <= fpSize <= 4 -> fpSize <= len buf -> Forall is_byte buf ->
  ReadFP buf fpSize = Ok (le_val (take (Z.to_nat fpSize) buf)).
Proof. intros. apply (read_loop_eq 32); [lia .. |]. by apply Forall_take. Qed.

Lemma ReadPayload_eq buf payloadSize :
  0 <= payloadSize <= 8 -> payloadSize <= len buf -> Forall is_byte buf ->
  ReadPayload buf payloadSize = Ok (le_val (take (Z.to_nat payloadSize) buf)).
Proof. intros. apply (read_loop_eq 64); [lia .. |]. by apply Forall_take. Qed.

Lemma ReadEntry_eq buf slot fpSize payloadSize :
  Forall is_byte buf -> 0 <= fpSize <= 4 -> 0 <= payloadSize <= 8 -> 0 <= slot ->
  (slot + 1) * (fpSize + payloadSize) <= len buf ->
  ReadEntry buf slot (fpSize + payloadSize) fpSize payloadSize =
  let e := window buf (Z.to_nat (slot * (fpSize + payloadSize))) (Z.to_nat (fpSize + payloadSize)) in
  Ok (le_val (window e 0 (Z.to_nat fpSize)),
      le_val (window e (Z.to_nat fpSize) (Z.to_nat payloadSize))).
Proof.
  intros Hb Hf Hp Hslot Hlen. cbv zeta. rewrite !window_window by lia.
  unfold ReadEntry. set (off := slot * (fpSize + payloadSize)).
  assert (0 <= off /\ off + fpSize + payloadSize <= len buf) as [Hoff Hend] by (unfold off; nia).
  assert (forall o n, 0 <= o -> 0 <= n -> o + n <= len buf ->
    take (Z.to_nat n) (take (Z.to_nat (len buf - o)) (drop (Z.to_nat o) buf)) =
    window buf (Z.to_nat o) (Z.to_nat n)) as Htake.
  { intros o n ???. rewrite take_take. unfold window. f_equal. lia. }
  rewrite !slice_in_range by lia. simpl.
  rewrite ReadFP_eq; [| lia | | by apply Forall_take, Forall_drop].
  2:{ unfold len in *. rewrite length_take, length_drop. lia. }
  rewrite Htake by lia. simpl.
  rewrite ReadPayload_eq; [| lia | | by apply Forall_take, Forall_drop].
  2:{ unfold len in *. rewrite length_take, length_drop. lia. }
  rewrite Htake by lia. simpl. rewrite Nat.add_0_r. do 4 f_equal. lia.
Qed.

(** The bytes [WriteEntryGeneric] and [WriteEntry] leave in the buffer. *)
Lemma entry_bytes_window fpSize payloadSize fp payload :
  0 <= fpSize -> 0 <= payloadSize -> is_u (8 * fpSize) fp ->
  le_val (window (entry_bytes fpSize payloadSize fp payload) 0 (Z.to_nat fpSize)) = fp /\
  le_val (window (entry_bytes fpSize payloadSize fp payload) (Z.to_nat fpSize) (Z.to_nat payloadSize))
  = payload mod 2 ^ (8 * payloadSize).
Proof.
  intros Hf Hp Hfp. unfold entry_bytes. split.
  - rewrite window_app_l by (rewrite length_le_bytes; lia). unfold window. rewrite drop_0.
    rewrite take_ge, le_val_bytes by (rewrite length_le_bytes; lia).
    rewrite Z2Nat.id by lia. apply Z.mod_small, Hfp.
  - rewrite window_app_r by (rewrite length_le_bytes; lia). rewrite length_le_bytes, Nat.sub_diag.
    unfold window. rewrite drop_0. rewrite take_ge, le_val_bytes by (rewrite length_le_bytes; lia).
    by rewrite Z2Nat.id by lia.
Qed.

(** C32: writing an entry with the generic writer succeeds whenever the slot is
    inside the buffer; for the entry sizes 1, 4, 5 and 8 the fast writer leaves
    exactly the same buffer; reading the slot back gives the fingerprint and
    the payload's low [payloadSize] bytes; and every other slot reads as
    before. *)
Theorem write_read_entry buf pos fpSize payloadSize fp payload :
  Forall is_byte buf -> 0 <= fpSize <= 4 -> 0 <= payloadSize <= 8 ->
  is_u (8 * fpSize) fp -> 0 <= pos -> (pos + 1) * (fpSize + payloadSize) <= len buf ->
  exists buf',
    WriteEntryGeneric buf pos (fpSize + payloadSize) fp payload (8 * fpSize) = Ok buf' /\
    ((fpSize + payloadSize) ∈ [1; 4; 5; 8] ->
     WriteEntry buf pos (fpSize + payloadSize) fp payload (8 * fpSize) = Ok buf') /\
    len buf' = len buf /\
    ReadEntry buf' pos (fpSize + payloadSize) fpSize payloadSize =
      Ok (fp, payload mod 2 ^ (8 * payloadSize)) /\
    forall slot, slot <> pos -> 0 <= slot -> (slot + 1) * (fpSize + payloadSize) <= len buf ->
      ReadEntry buf' slot (fpSize + payloadSize) fpSize payloadSize =
      ReadEntry buf slot (fpSize + payloadSize) fpSize payloadSize.
Proof.
  intros Hb Hf Hp Hfp Hpos Hlen. set (es := fpSize + payloadSize) in *.
  pose proof (len_entry_bytes fpSize payloadSize fp payload ltac:(lia) ltac:(lia)) as Hl.
  fold es in Hl.
  pose proof (store_range buf (entry_bytes fpSize payloadSize fp payload) (pos * es)
                ltac:(nia) ltac:(nia)) as Hst.
  set (buf' := take _ _ ++ _) in Hst.
  assert (len buf' = len buf) as Hl' by (unfold len; f_equal; by eapply store_length).
  assert (Forall is_byte buf') as Hb'.
  { eapply store_Forall; [done .. |]. apply Forall_app; split; apply le_bytes_bytes. }
  assert (length (entry_bytes fpSize payloadSize fp payload) = Z.to_nat es) as Hl2
    by (unfold len in Hl; lia).
  exists buf'. split_and!.
  - unfold es. rewrite WriteEntryGeneric_store by (done || lia). exact Hst.
  - intros. unfold es. rewrite WriteEntry_store by (done || lia). exact Hst.
  - done.
  - unfold es. rewrite ReadEntry_eq by (fold es; done || lia). cbv zeta. fold es. rewrite <- Hl2.
    rewrite (store_window_same _ _ _ _ Hst).
    by destruct (entry_bytes_window fpSize payloadSize fp payload) as [-> ->]; [lia | lia | done |].
  - intros slot Hne Hslot Hin. unfold es. rewrite !ReadEntry_eq by (fold es; done || lia).
    cbv zeta. fold es. rewrite (store_window_other _ _ _ _ _ _ Hst); [done |].
    rewrite Hl2. destruct (Z.lt_total slot pos) as [? | [? | ?]]; [left | done | right]; nia.
Qed.

Lemma write_read_entry_witness :
  exists buf', WriteEntryGeneric (make 0 15) 1 5 0xab 0x11223344 8 = Ok buf' /\
    ReadEntry buf' 1 5 1 4 = Ok (0xab, 0x11223344).
Proof.
  destruct (write_read_entry (make 0 15) 1 1 4 0xab 0x11223344) as (buf' & H1 & _ & _ & H2 & _);
    [| lia | lia | unfold_words; lia | lia | unfold len; simpl; lia |].
  - repeat constructor; unfold_words; lia.
  - exists buf'. exact (conj H1 H2).
Defined.

(** ** Arrays of 16-bit numbers *)
Lemma len_concat_le2 table : len (concat (map (le_bytes 2) table)) = 2 * len table.
Proof.
  induction table as [| v table IH]; [done |]. cbn [map concat].
  rewrite len_app, len_cons, IH, len_le_bytes. lia.
Qed.

Lemma put_u16_loop off table dst :
  0 <= off -> off + 2 * len table <= len dst ->
  foldM (fun dst i => v ← idx table i; put_le 2 dst (off + i * 2) v) dst (range (len table))
  = store dst off (concat (map (le_bytes 2) table)).
Proof.
  intros Hoff. induction table as [| v table IH] using rev_ind; intros Hl.
  - change (range (len [])) with ([] : list Z). simpl in *. by rewrite store_nil by (unfold len in *; simpl in *; lia).
  - rewrite len_app, len_single in Hl |- *. rewrite range_succ, foldM_snoc by apply len_nonneg.
    rewrite (foldM_ext_in _ (fun dst i => v ← idx table i; put_le 2 dst (off + i * 2) v)).
    2:{ intros s i Hi%elem_of_range. rewrite idx_app_l by lia. done. }
    rewrite IH by lia. rewrite map_app, concat_app. cbn [map concat]. rewrite app_nil_r.
    rewrite <- store_store_adjacent by (rewrite ?len_concat_le2, ?len_le_bytes; lia).
    rewrite len_concat_le2, (Z.mul_comm 2).
    unfold len at 1. rewrite (idx_nat _ (length table) v).
    2:{ rewrite lookup_app_r, Nat.sub_diag by lia. done. }
    done.
Qed.

Lemma get_u16_at (pre post : list Z) vs i v :
  vs !! i = Some v -> is_u 16 v ->
  get_le 2 (pre ++ concat (map (le_bytes 2) vs) ++ post) (len pre + Z.of_nat i * 2) = Ok v.
Proof.
  intros Hv H16. pose proof (take_drop_middle vs i v Hv) as Hm.
  set (l := take i vs) in *. set (r := drop (S i) vs) in *.
  assert (length l = i) as Hl by (unfold l; rewrite length_take; apply lookup_lt_Some in Hv; lia).
  rewrite <- Hm, map_app, concat_app. cbn [map concat]. rewrite <- !app_assoc, (app_assoc pre).
  replace (len pre + Z.of_nat i * 2) with (len (pre ++ concat (map (le_bytes 2) l)))
    by (rewrite len_app, len_concat_le2; unfold len; lia).
  rewrite get_le_app. f_equal. change (v mod 2 ^ (8 * Z.of_nat 2)) with (u16 v). by apply u16_id.
Qed.
