(* ===== verification/Key.v ===== *)
(** * [key.go] and [prehash.go]: keys, fingerprints and packed payloads

    A key is a byte string of at least 16 bytes; [k0] and [k1] are its first two
    little-endian words. The fingerprint mixes both words; the helpers here are
    the ones the query path uses to read what [Encoding] wrote. *)
From S2P Require Import Prelude Words Encoding.
#[local] Open Scope Z_scope.

Definition MinKeySize : Z := 16.
Definition maxFingerprintSize : Z := 4.
Definition maxPayloadSize : Z := 8.

Definition unpackFingerprintFromBytes (src : list Z) (size : Z) : res Z :=
  if size =? 0 then Ok 0
  else if size =? 1 then b ← idx src 0; Ok (u32 b)
  else if size =? 2 then v ← get_le 2 src 0; Ok (u32 v)
  else if size =? 4 then get_le 4 src 0
  else
    foldM (fun v i => b ← idx src i; Ok (Z.lor v (u32 (Z.shiftl (u32 b) (i * 8)))))
      0 (range (Z.min size 4)).

Definition packPayloadToBytes (dst : list Z) (payload size : Z) : res (list Z) :=
  if size =? 4 then put_le 4 dst 0 (u32 payload)
  else if size =? 8 then put_le 8 dst 0 payload
  else foldM (fun dst i => upd dst i (u8 (Z.shiftr payload (i * 8)))) dst (range size).

Definition unpackPayloadFromBytes (src : list Z) (size : Z) : res Z :=
  if size =? 4 then v ← get_le 4 src 0; Ok (u64 v)
  else if size =? 8 then get_le 8 src 0
  else
    foldM (fun payload i => b ← idx src i; Ok (Z.lor payload (u64 (Z.shiftl (u64 b) (i * 8)))))
      0 (range size).

Definition fingerprintMixer : Z := 0x517cc1b727220a95.

Definition extractFingerprint (k0 k1 fpSize : Z) : Z :=
  if fpSize =? 0 then 0
  else
    let h := Z.lxor k0 (u64 (k1 * fingerprintMixer)) in
    let fp := u32 (Z.shiftr h 32) in
    let mask := u32 (u64 (u64 (Z.shiftl 1 (fpSize * 8)) - 1)) in
    Z.land fp mask.

Definition Fingerprint (key : list Z) : res Z :=
  if len key <? MinKeySize then Err ErrKeyTooShort
  else
    k0b ← slice key 0 8;
    k1b ← slice key 8 16;
    Ok (extractFingerprint (le_val k0b) (le_val k1b) maxFingerprintSize).

Section prehash.
(** [xxh3.Hash128], the two words [Lo] and [Hi] of its result. *)
Context (Hash128 : list Z -> Z * Z).

Definition PreHashInPlace (dst key : list Z) : res (list Z) :=
  let h := Hash128 key in
  dst ← put_le 8 dst 0 h.1;
  put_le 8 dst 8 h.2.

Definition PreHash (key : list Z) : res (list Z) := PreHashInPlace (make 0 16) key.
End prehash.

(** ** The unpackers read what the writers wrote *)

Lemma get_le_window n buf off :
  0 <= off -> off + Z.of_nat n <= len buf ->
  get_le n buf off = Ok (le_val (window buf (Z.to_nat off) n)).
Proof.
  intros. unfold get_le. rewrite slice_in_range by lia. simpl. unfold window.
  do 3 f_equal. lia.
Qed.

Lemma get_le_0 n buf : Z.of_nat n <= len buf -> get_le n buf 0 = Ok (le_val (take n buf)).
Proof. intros. by rewrite get_le_window. Qed.

Lemma le_val_take_is n src :
  Forall is_byte src -> Z.of_nat n <= len src -> is_u (8 * Z.of_nat n) (le_val (take n src)).
Proof.
  intros Hb Hl. pose proof (le_val_bound (take n src) ltac:(by apply Forall_take)) as Hv.
  by rewrite length_take, Nat.min_l in Hv by (unfold len in Hl; lia).
Qed.

Lemma unpackFingerprintFromBytes_eq src size :
  Forall is_byte src -> 0 <= size <= 4 -> size <= len src ->
  unpackFingerprintFromBytes src size = Ok (le_val (take (Z.to_nat size) src)).
Proof.
  intros Hb Hs Hl. unfold unpackFingerprintFromBytes.
  assert (forall i b, src !! i = Some b -> u32 b = b) as Hid.
  { intros i b Hi. apply u32_id. eapply (is_u_mono 8 32); [lia |].
    by eapply (Forall_lookup_1 _ _ _ _ Hb). }
  destruct (Z.eqb_spec size 0) as [-> |]; [done |].
  destruct (Z.eqb_spec size 1) as [-> |].
  { destruct src as [| b src]; [done |]. rewrite (idx_nat _ 0 b) by done. simpl.
    rewrite (Hid O b) by done. by rewrite le_val_single. }
  destruct (Z.eqb_spec size 2) as [-> |].
  { rewrite get_le_0 by lia. simpl. f_equal. apply u32_id.
    eapply (is_u_mono 16 32); [lia |]. by apply (le_val_take_is 2). }
  destruct (Z.eqb_spec size 4) as [-> |].
  { by rewrite get_le_0 by lia. }
  rewrite Z.min_l by lia. rewrite <- (read_loop_eq 32) by (try lia; by apply Forall_take).
  apply foldM_ext_in. intros v i _. unfold idx. destruct (i <? 0); [done |].
  destruct (src !! Z.to_nat i) eqn:Hi; simpl; [| done]. by rewrite (Hid _ _ Hi).
Qed.

Lemma unpackPayloadFromBytes_eq src size :
  Forall is_byte src -> 0 <= size <= 8 -> size <= len src ->
  unpackPayloadFromBytes src size = Ok (le_val (take (Z.to_nat size) src)).
Proof.
  intros Hb Hs Hl. unfold unpackPayloadFromBytes.
  destruct (Z.eqb_spec size 4) as [-> |].
  { rewrite get_le_0 by lia. simpl. f_equal. apply u64_id.
    eapply (is_u_mono 32 64); [lia |]. by apply (le_val_take_is 4). }
  destruct (Z.eqb_spec size 8) as [-> |].
  { by rewrite get_le_0 by lia. }
  rewrite <- (read_loop_eq 64) by (try lia; by apply Forall_take).
  apply foldM_ext_in. intros v i _. unfold idx. destruct (i <? 0); [done |].
  destruct (src !! Z.to_nat i) eqn:Hi; simpl; [| done].
  rewrite (u64_id z); [done |]. eapply (is_u_mono 8 64); [lia |].
  by eapply (Forall_lookup_1 _ _ _ _ Hb).
Qed.

Lemma packPayloadToBytes_eq dst payload size :
  0 <= size <= len dst ->
  packPayloadToBytes dst payload size = store dst 0 (le_bytes (Z.to_nat size) payload).
Proof.
  intros Hs. unfold packPayloadToBytes, put_le.
  destruct (Z.eqb_spec size 4) as [-> |]; [by rewrite le_bytes_u32 by lia |].
  destruct (Z.eqb_spec size 8) as [-> |]; [done |].
  rewrite <- store_bytes_eq by lia. unfold store_bytes.
  apply foldM_ext_in. intros s i [Hi _]%elem_of_range. rewrite Z.add_0_l.
  unfold upd, store, len. destruct (Z.leb_spec 0 i); [| done].
  change (Z.of_nat (length [u8 (Z.shiftr payload (i * 8))])) with 1.
  destruct (Z.ltb_spec i (Z.of_nat (length s))), (Z.leb_spec (i + 1) (Z.of_nat (length s)));
    try lia; simpl; [| done].
  f_equal. rewrite insert_take_drop by lia. do 2 f_equal. f_equal. lia.
Qed.

(** C34: the query path reads back what the block builders wrote: after the
    entry writer stored an entry at slot [pos], the two production unpackers,
    applied to the rest of the region at the entry's fingerprint and payload
    offsets, return the fingerprint and the payload's low [payloadSize] bytes. *)
Theorem unpack_written_entry buf pos fpSize payloadSize fp payload buf' :
  Forall is_byte buf -> 0 <= fpSize <= maxFingerprintSize -> 0 <= payloadSize <= maxPayloadSize ->
  is_u (8 * fpSize) fp -> 0 <= pos -> (pos + 1) * (fpSize + payloadSize) <= len buf ->
  WriteEntryGeneric buf pos (fpSize + payloadSize) fp payload (8 * fpSize) = Ok buf' ->
  let off := Z.to_nat (pos * (fpSize + payloadSize)) in
  unpackFingerprintFromBytes (drop off buf') fpSize = Ok fp /\
  unpackPayloadFromBytes (drop (off + Z.to_nat fpSize) buf') payloadSize
    = Ok (payload mod 2 ^ (8 * payloadSize)).
Proof.
  unfold maxFingerprintSize, maxPayloadSize. intros Hb Hf Hp Hfp Hpos Hlen Hw.
  rewrite WriteEntryGeneric_store in Hw by (done || lia).
  pose proof (store_length _ _ _ _ Hw) as Hl'.
  assert (Forall is_byte buf') as Hb'.
  { eapply store_Forall; [done .. |]. apply Forall_app; split; apply le_bytes_bytes. }
  pose proof (store_window_same _ _ _ _ Hw) as Hwin.
  pose proof (len_entry_bytes fpSize payloadSize fp payload ltac:(lia) ltac:(lia)) as Hel.
  destruct (entry_bytes_window fpSize payloadSize fp payload) as [H1 H2]; [lia | lia | done |].
  rewrite <- Hwin in H1, H2. rewrite window_window in H1 by (unfold len in Hel; lia).
  rewrite window_window in H2 by (unfold len in Hel; lia). rewrite Nat.add_0_r in H1.
  assert (0 <= pos * (fpSize + payloadSize)) by nia. cbv zeta. split.
  - rewrite unpackFingerprintFromBytes_eq, <- H1 by (done || (by apply Forall_drop) || (unfold len in *; rewrite ?length_drop; nia)).
    done.
  - rewrite unpackPayloadFromBytes_eq, <- H2 by (done || (by apply Forall_drop) || (unfold len in *; rewrite ?length_drop; nia)).
    done.
Qed.

Lemma unpack_written_entry_witness :
  exists buf', WriteEntryGeneric (make 0 18) 1 9 0xabcd 0x01020304050607 16 = Ok buf' /\
    unpackFingerprintFromBytes (drop 9 buf') 2 = Ok 0xabcd /\
    unpackPayloadFromBytes (drop 11 buf') 7 = Ok 0x01020304050607.
Proof.
  eexists. split; [vm_compute; reflexivity |].
  apply (unpack_written_entry (make 0 18) 1 2 7 0xabcd 0x01020304050607);
    [repeat constructor; unfold_words; lia | unfold maxFingerprintSize, maxPayloadSize; lia ..
    | unfold_words; lia | lia | unfold len; simpl; lia | vm_compute; reflexivity].
Defined.

(** C35: packing a payload into a record and unpacking it is the identity on
    payloads of the configured width (and truncates wider ones), and leaves the
    bytes behind the record alone. *)
Theorem pack_unpack_payload dst payload size dst' :
  Forall is_byte dst -> 0 <= size <= maxPayloadSize -> size <= len dst ->
  packPayloadToBytes dst payload size = Ok dst' ->
  unpackPayloadFromBytes dst' size = Ok (payload mod 2 ^ (8 * size)) /\
  drop (Z.to_nat size) dst' = drop (Z.to_nat size) dst.
Proof.
  unfold maxPayloadSize. intros Hb Hs Hl Hp. rewrite packPayloadToBytes_eq in Hp by lia.
  pose proof (store_length _ _ _ _ Hp) as Hl'.
  pose proof (store_window_same _ _ _ _ Hp) as Hwin. rewrite length_le_bytes in Hwin.
  change (Z.to_nat 0) with 0%nat in Hwin. rewrite window_0 in Hwin. split.
  - rewrite unpackPayloadFromBytes_eq; [| | lia | unfold len in *; lia].
    + by rewrite Hwin, le_val_bytes, Z2Nat.id by lia.
    + eapply store_Forall; [done .. |]. apply le_bytes_bytes.
  - apply store_ok in Hp as (_ & _ & ->). simpl. rewrite length_le_bytes.
    rewrite drop_app_length' by (by rewrite length_le_bytes). done.
Qed.

Lemma pack_unpack_payload_witness :
  exists dst', packPayloadToBytes [1; 2; 3; 4; 5] 0x332211 3 = Ok dst' /\
    unpackPayloadFromBytes dst' 3 = Ok 0x332211 /\ drop 3 dst' = [4; 5].
Proof.
  eexists. split; [vm_compute; reflexivity |].
  apply (pack_unpack_payload [1; 2; 3; 4; 5] 0x332211 3);
    [repeat constructor; unfold_words; lia | unfold maxPayloadSize; lia | unfold len; simpl; lia |
     vm_compute; reflexivity].
Defined.

(** ** Fingerprints *)

Lemma extractFingerprint_eq k0 k1 n :
  is_u 64 k0 -> 0 <= n <= 4 ->
  extractFingerprint k0 k1 n
  = (Z.lxor k0 (u64 (k1 * fingerprintMixer)) / 2 ^ 32) mod 2 ^ (8 * n).
Proof.
  intros Hk Hn. unfold extractFingerprint.
  assert (n = 0 \/ n = 1 \/ n = 2 \/ n = 3 \/ n = 4) as Hc by lia.
  pose proof (lxor_is_u 64 k0 (u64 (k1 * fingerprintMixer)) ltac:(lia) Hk (u64_is _)) as Hx.
  set (h := Z.lxor _ _) in *. clearbody h.
  assert (u32 (Z.shiftr h 32) = h / 2 ^ 32) as ->.
  { rewrite shiftr_div by lia. apply u32_id. zlia. }
  assert (0 <= h / 2 ^ 32 < 2 ^ 32) as Hb by zlia.
  destruct Hc as [-> | [-> | [-> | [-> | ->]]]]; [by rewrite Z.mod_1_r | ..]; cbv [Z.eqb].
  - exact (land_mask _ 8 ltac:(lia)).
  - exact (land_mask _ 16 ltac:(lia)).
  - exact (land_mask _ 24 ltac:(lia)).
  - exact (land_mask _ 32 ltac:(lia)).
Qed.

Lemma extractFingerprint_is k0 k1 n :
  is_u 64 k0 -> 0 <= n <= 4 -> is_u (8 * n) (extractFingerprint k0 k1 n).
Proof.
  intros. rewrite extractFingerprint_eq by done. apply Z.mod_pos_bound, Z.pow_pos_nonneg; lia.
Qed.

(** C36: an index built with [n]-byte fingerprints stores the low [n] bytes of
    the public [Fingerprint] of the key, and [Fingerprint] fails on exactly the
    keys shorter than [MinKeySize]. *)
Theorem Fingerprint_low_bytes key n :
  Forall is_byte key -> 0 <= n <= maxFingerprintSize ->
  (len key < MinKeySize -> Fingerprint key = Err ErrKeyTooShort) /\
  (MinKeySize <= len key ->
   exists fp, Fingerprint key = Ok fp /\
     extractFingerprint (le_val (window key 0 8)) (le_val (window key 8 8)) n
     = fp mod 2 ^ (8 * n)).
Proof.
  unfold MinKeySize, maxFingerprintSize. intros Hb Hn. unfold Fingerprint, MinKeySize.
  destruct (Z.ltb_spec (len key) 16) as [Hs | Hs]; (split; [done || lia |]); [lia |].
  intros _. rewrite !slice_in_range by lia. simpl. eexists. split; [done |].
  assert (is_u 64 (le_val (window key 0 8))) as Hk.
  { rewrite window_0. apply (le_val_take_is 8); [done | lia]. }
  unfold window in *. rewrite !extractFingerprint_eq by (done || (unfold maxFingerprintSize; lia)).
  unfold maxFingerprintSize.
  replace (2 ^ (8 * 4)) with (2 ^ (8 * n) * 2 ^ (32 - 8 * n))
    by (rewrite <- Z.pow_add_r by lia; f_equal; lia).
  symmetry. rewrite Z.rem_mul_r by (try apply Z.pow_nonzero; lia || apply Z.pow_pos_nonneg; lia).
  rewrite (Z.mul_comm (2 ^ (8 * n))), Z.mod_add, Z.mod_mod by (apply Z.pow_nonzero; lia). done.
Qed.

Lemma Fingerprint_low_bytes_witness :
  exists fp, Fingerprint (range 16) = Ok fp /\
    extractFingerprint 0x0706050403020100 0x0f0e0d0c0b0a0908 2 = fp mod 2 ^ 16.
Proof.
  apply (Fingerprint_low_bytes (range 16) 2);
    [repeat constructor; unfold_words; lia | unfold maxFingerprintSize; lia |
     unfold MinKeySize, len; simpl; lia].
Defined.

(** [f] takes every value of [n] bytes on equally many 64-bit words. *)
Definition uniform (n : Z) (f : Z -> Z) : Prop :=
  forall v, 0 <= v < 2 ^ (8 * n) ->
    exists ks, NoDup ks /\ len ks = 2 ^ (64 - 8 * n) /\ forall k, k ∈ ks <-> is_u 64 k /\ f k = v.

(** The words whose bits from 32 on begin with the [n] bytes of [v], by number:
    [M] choices of the bits above them, [2 ^ 32] of those below. *)
Lemma middle_bits B M v : 0 < B -> 0 < M -> B * M = 2 ^ 32 -> 0 <= v < B ->
  exists place back : Z -> Z,
  (forall i, 0 <= i < M * 2 ^ 32 -> is_u 64 (place i) /\ (place i / 2 ^ 32) mod B = v /\ back (place i) = i) /\
  (forall h, is_u 64 h -> (h / 2 ^ 32) mod B = v -> 0 <= back h < M * 2 ^ 32 /\ place (back h) = h).
Proof.
  intros HB HM Hp Hv. set (place := fun i => (i / 2 ^ 32 * B + v) * 2 ^ 32 + i mod 2 ^ 32).
  set (back := fun h => h / 2 ^ 32 / B * 2 ^ 32 + h mod 2 ^ 32). exists place, back.
  assert (forall a b, 0 <= b < 2 ^ 32 -> (a * 2 ^ 32 + b) / 2 ^ 32 = a /\ (a * 2 ^ 32 + b) mod 2 ^ 32 = b) as Hsplit.
  { intros a b Hb. rewrite Z.add_comm, Z.div_add, Z.mod_add, Z.div_small, Z.mod_small by lia. lia. }
  split.
  - intros i Hi. pose proof (Z.mod_pos_bound i (2 ^ 32) ltac:(lia)) as Hm. pose proof (Z.div_mod i (2 ^ 32) ltac:(lia)) as Hd.
    unfold place, back. destruct (Hsplit (i / 2 ^ 32 * B + v) (i mod 2 ^ 32) Hm) as [-> ->].
    assert (0 <= i / 2 ^ 32 < M) by (split; [apply Z.div_pos; lia | apply Z.div_lt_upper_bound; lia]).
    split; [unfold is_u; change (2 ^ 64) with (2 ^ 32 * 2 ^ 32); nia |].
    rewrite Z.add_comm, Z.mod_add, Z.div_add, Z.mod_small, Z.div_small by lia. lia.
  - intros h Hh Hmid. pose proof (Z.mod_pos_bound h (2 ^ 32) ltac:(lia)) as Hm. pose proof (Z.div_mod h (2 ^ 32) ltac:(lia)) as Hd.
    pose proof (Z.div_mod (h / 2 ^ 32) B ltac:(lia)) as Hd2. unfold is_u in Hh.
    assert (0 <= h / 2 ^ 32 < 2 ^ 32) by (split; [apply Z.div_pos; lia | apply Z.div_lt_upper_bound; lia]).
    assert (0 <= h / 2 ^ 32 / B < M) by (split; [apply Z.div_pos; lia | apply Z.div_lt_upper_bound; lia]).
    split; [unfold back; nia |]. unfold place, back. destruct (Hsplit (h / 2 ^ 32 / B) (h mod 2 ^ 32) Hm) as [-> ->]. lia.
Qed.

(** A permutation of the words followed by the extraction of [n] bytes is uniform. *)
Lemma uniform_mix n f (mix inv : Z -> Z) : 0 <= n <= 4 ->
  (forall k, is_u 64 k -> is_u 64 (mix k) /\ inv (mix k) = k) -> (forall h, is_u 64 h -> is_u 64 (inv h) /\ mix (inv h) = h) ->
  (forall k, is_u 64 k -> f k = (mix k / 2 ^ 32) mod 2 ^ (8 * n)) -> uniform n f.
Proof.
  intros Hn Hmix Hinv Hf v Hv.
  assert (2 ^ (64 - 8 * n) = 2 ^ (32 - 8 * n) * 2 ^ 32) as -> by (rewrite <- Z.pow_add_r by lia; f_equal; lia).
  assert (2 ^ (8 * n) * 2 ^ (32 - 8 * n) = 2 ^ 32) as Hp by (rewrite <- Z.pow_add_r by lia; f_equal; lia).
  pose proof (Z.pow_pos_nonneg 2 (8 * n) ltac:(lia) ltac:(lia)) as HB. pose proof (Z.pow_pos_nonneg 2 (32 - 8 * n) ltac:(lia) ltac:(lia)) as HM.
  destruct (middle_bits _ _ v HB HM Hp Hv) as (place & back & Hplace & Hback). revert Hplace Hback.
  assert (0 <= 2 ^ (32 - 8 * n) * 2 ^ 32) as HT by lia. revert HT.
  generalize (2 ^ (32 - 8 * n) * 2 ^ 32). intros T HT Hplace Hback.
  exists (map (fun i => inv (place i)) (range T)). split; [| split].
  - apply NoDup_fmap_2_strong; [| apply NoDup_range]. intros i j Hi%elem_of_range Hj%elem_of_range He.
    destruct (Hplace i Hi) as (Hi1 & _ & Hi2), (Hplace j Hj) as (Hj1 & _ & Hj2).
    apply (f_equal mix) in He. rewrite (proj2 (Hinv _ Hi1)), (proj2 (Hinv _ Hj1)) in He. congruence.
  - unfold len. rewrite length_map, length_range. lia.
  - intros k. rewrite list_elem_of_fmap. split.
    + intros (i & -> & Hi%elem_of_range). destruct (Hplace i Hi) as (Hi1 & Hi2 & _). destruct (Hinv _ Hi1) as [H1 H2].
      split; [done |]. by rewrite Hf, H2.
    + intros [Hk Hv']. rewrite Hf in Hv' by done. destruct (Hmix k Hk) as [H1 H2]. destruct (Hback _ H1 Hv') as [H3 H4].
      exists (back (mix k)). rewrite elem_of_range, H4, H2. done.
Qed.

(** C37: the fingerprint is uniform in each half of the key. With one half fixed,
    every fingerprint of [n] bytes is that of exactly 2^(64-8n) values of the
    other half, whatever the fixed half is (the mixer constant is odd, so that the
    mix is a permutation of either half). And the low 32 bits of [k0], which the
    block routing constrains, do not matter. *)
Theorem fingerprint_uniform k0 k1 n : is_u 64 k0 -> is_u 64 k1 -> 0 <= n <= maxFingerprintSize ->
  uniform n (fun k => extractFingerprint k k1 n) /\ uniform n (fun k => extractFingerprint k0 k n) /\
  (forall k, is_u 64 k -> k / 2 ^ 32 = k0 / 2 ^ 32 -> extractFingerprint k k1 n = extractFingerprint k0 k1 n).
Proof.
  unfold maxFingerprintSize. intros H0 H1 Hn. set (C := fingerprintMixer). split; [| split].
  - assert (forall k, is_u 64 k -> is_u 64 (Z.lxor k (u64 (k1 * C))) /\ Z.lxor (Z.lxor k (u64 (k1 * C))) (u64 (k1 * C)) = k) as Hm.
    { intros k Hk. split; [by apply lxor_is_u; [lia | | apply u64_is] |]. by rewrite Z.lxor_assoc, Z.lxor_nilpotent, Z.lxor_0_r. }
    apply (uniform_mix n _ (fun k => Z.lxor k (u64 (k1 * C))) (fun h => Z.lxor h (u64 (k1 * C)))); [done | done | done |].
    intros k Hk. by apply extractFingerprint_eq.
  - assert (forall x, Z.lxor k0 (Z.lxor k0 x) = x) as Hx by (intros x; by rewrite <- Z.lxor_assoc, Z.lxor_nilpotent, Z.lxor_0_l).
    assert (forall a b x, a * b mod 2 ^ 64 = 1 -> is_u 64 x -> u64 (u64 (x * a) * b) = x) as Hab.
    { intros a b x H Hu. unfold u64. rewrite Z.mul_mod_idemp_l, <- Z.mul_assoc, <- Z.mul_mod_idemp_r, H, Z.mul_1_r by lia. by apply Z.mod_small. }
    apply (uniform_mix n _ (fun k => Z.lxor k0 (u64 (k * C))) (fun h => u64 (Z.lxor k0 h * 0x2040003d780970bd))); [done | ..].
    + intros k Hk. split; [by apply lxor_is_u; [lia | | apply u64_is] |]. rewrite Hx. by apply Hab.
    + intros h Hh. split; [apply u64_is |]. rewrite Hab, Hx; [done | done | by apply lxor_is_u; [lia | |]].
    + intros k Hk. by apply extractFingerprint_eq.
  - intros k Hk He. rewrite !extractFingerprint_eq by done. f_equal.
    rewrite <- !(Z.shiftr_div_pow2 _ 32), !Z.shiftr_lxor, !Z.shiftr_div_pow2 by lia. by rewrite He.
Qed.

Lemma fingerprint_uniform_witness :
  uniform 2 (fun k => extractFingerprint k 9 2) /\ uniform 2 (fun k => extractFingerprint 7 k 2) /\
  (forall k, is_u 64 k -> k / 2 ^ 32 = 7 / 2 ^ 32 -> extractFingerprint k 9 2 = extractFingerprint 7 9 2).
Proof. apply (fingerprint_uniform 7 9 2); [unfold_words; lia .. | unfold maxFingerprintSize; lia]. Defined.
