(* ===== verification/Entries.v ===== *)
(** * Filling the payload region

    Both block builders end with the same loop: every key's entry is written at
    the slot the block's hash function gives it. The slots are pairwise distinct,
    so the writes do not disturb each other. *)
From S2P Require Import Prelude Words Encoding.
#[local] Open Scope Z_scope.

(** The call both builders make for a key. *)
Definition writeEntryAt (generic : bool) (dst : list Z) (slot entrySize fp payload fpShift : Z) : res (list Z) :=
  if generic then WriteEntryGeneric dst slot entrySize fp payload fpShift
  else WriteEntry dst slot entrySize fp payload fpShift.

(** The entry stored at a slot of a payload region. *)
Definition entry_at (buf : list Z) (fpSize payloadSize slot fp payload : Z) : Prop :=
  window buf (Z.to_nat (slot * (fpSize + payloadSize))) (Z.to_nat (fpSize + payloadSize)) =
  entry_bytes fpSize payloadSize fp payload.

Section entries.
Context (fpSize payloadSize : Z).
Context (Hfp : 0 <= fpSize) (Hp : 0 <= payloadSize).
#[local] Abbreviation es := (fpSize + payloadSize).

Lemma length_entry fp payload : length (entry_bytes fpSize payloadSize fp payload) = Z.to_nat es.
Proof using Hfp Hp. pose proof (len_entry_bytes fpSize payloadSize fp payload Hfp Hp). unfold len in *. lia. Qed.

Lemma writeEntryAt_store generic buf slot fp payload :
  (generic = false -> es ∈ [1; 4; 5; 8]) -> is_u (8 * fpSize) fp -> 0 <= slot ->
  (slot + 1) * es <= len buf ->
  writeEntryAt generic buf slot es fp payload (8 * fpSize) =
  store buf (slot * es) (entry_bytes fpSize payloadSize fp payload).
Proof using Hfp Hp.
  intros Hg Hf Hs Hl. destruct generic; simpl.
  - by apply WriteEntryGeneric_store.
  - apply WriteEntry_store; try done. by apply Hg.
Qed.

Lemma store_entry_same buf buf' slot fp payload :
  store buf (slot * es) (entry_bytes fpSize payloadSize fp payload) = Ok buf' ->
  entry_at buf' fpSize payloadSize slot fp payload.
Proof using Hfp Hp.
  intros Hs. unfold entry_at. rewrite <- (length_entry fp payload). by eapply store_window_same.
Qed.

Lemma store_entry_other buf buf' slot fp payload slot' fp' payload' :
  store buf (slot * es) (entry_bytes fpSize payloadSize fp payload) = Ok buf' ->
  slot' <> slot -> 0 <= slot -> 0 <= slot' ->
  entry_at buf fpSize payloadSize slot' fp' payload' -> entry_at buf' fpSize payloadSize slot' fp' payload'.
Proof using Hfp Hp.
  intros Hs Hne H0 H1 He. unfold entry_at in *. rewrite <- He.
  eapply store_window_other; [exact Hs |]. rewrite length_entry.
  destruct (Z.lt_total slot' slot) as [? | [? | ?]]; [left | done | right]; nia.
Qed.

(** The loop: one write per element, at the slot [slot x]. *)
Context {A : Type} (slot fp payload : A -> Z).

Lemma write_all generic (l : list A) buf :
  (generic = false -> es ∈ [1; 4; 5; 8]) ->
  Forall (fun x => is_u (8 * fpSize) (fp x) /\ 0 <= slot x /\ (slot x + 1) * es <= len buf) l ->
  NoDup (map slot l) ->
  exists buf', foldM (fun buf x => writeEntryAt generic buf (slot x) es (fp x) (payload x) (8 * fpSize)) buf l
    = Ok buf' /\ len buf' = len buf /\
    (Forall is_byte buf -> Forall is_byte buf') /\
    Forall (fun x => entry_at buf' fpSize payloadSize (slot x) (fp x) (payload x)) l.
Proof using Hfp Hp.
  intros Hg. induction l as [| x l IH] using rev_ind; intros Hl Hnd.
  { exists buf. split_and!; [done | done | done | constructor]. }
  apply Forall_app in Hl as [Hl [(Hx1 & Hx2 & Hx3) _]%Forall_cons].
  rewrite map_app in Hnd. apply NoDup_app in Hnd as (Hnd & Hdis & _).
  destruct (IH Hl Hnd) as (buf1 & H1 & Hl1 & Hb1 & Hall).
  rewrite foldM_snoc, H1. cbn [mbind res_bind].
  rewrite writeEntryAt_store by (done || lia).
  destruct (store buf1 (slot x * es) _) as [buf2 | |] eqn:Hst.
  2,3: rewrite store_range in Hst; rewrite ?len_entry_bytes; try done; nia.
  exists buf2. split; [done |]. split; [rewrite <- Hl1; unfold len; f_equal; by eapply store_length |]. split.
  - intros Hbuf. eapply store_Forall; [exact Hst | by apply Hb1 |].
    apply Forall_app; split; apply le_bytes_bytes.
  - apply Forall_app. split; [| apply Forall_singleton; by eapply store_entry_same].
    rewrite Forall_forall in Hall, Hl |- *. intros y Hy. eapply store_entry_other; [exact Hst | | done | apply Hl, Hy | by apply Hall].
    intros He. apply (Hdis (slot y)); [| rewrite He; set_solver].
    apply list_elem_of_In, in_map. by apply list_elem_of_In.
Qed.
End entries.
