(* ===== verification/Block.v ===== *)
(** * [algorithm.go]: what a block algorithm promises

    The framework (index writer, builders, index reader) knows the two block
    algorithms only through the interfaces [blockBuilder] and [blockDecoder].
    [BlockOps] has their methods, [BlockContract] the laws the framework relies
    on; [Algorithm] gives an instance for each algorithm and for the choice
    between them. *)
From S2P Require Import Prelude Words Encoding Key Entries.
#[local] Open Scope Z_scope.

(** A key as it reaches a block: the two halves of its hash, its payload and
    its fingerprint. *)
Record key := mk_key { k_0 : Z; k_1 : Z; k_payload : Z; k_fp : Z }.

#[export] Instance key_eq_dec : EqDecision key.
Proof. solve_decision. Defined.

Definition halves (k : key) : Z * Z := (k_0 k, k_1 k).

Definition bkey_ok (fps : Z) (k : key) : Prop := is_u 64 (k_0 k) /\ is_u 64 (k_1 k) /\ is_u (8 * fps) (k_fp k).

(** ** The interfaces

    [BuildSeparatedInto] returns the builder and the two buffers after the call,
    with the lengths or the error. *)
Class BlockOps (B D : Type) := {
  NumBlocks : B -> Z;
  GlobalConfigSize : B -> Z;
  EncodeGlobalConfigInto : B -> list Z -> list Z * Z;
  AddKey : B -> Z -> Z -> Z -> Z -> res B;
  KeysAdded : B -> Z;
  Reset : B -> B;
  MaxIndexMetadataSize : B -> Z;
  MaxMetadataSizeForCurrentBlock : B -> Z;
  BuildSeparatedInto : B -> list Z -> list Z -> res (B * list Z * list Z * (Z * Z * Z + error));
  QuerySlot : D -> Z -> Z -> list Z -> Z -> res Z
}.

(** What a builder is created with, and the limits it derives. *)
Record config := mk_config {
  c_algo : Z; c_seed : Z; c_ps : Z; c_fps : Z;
  c_numBlocks : Z; c_maxMeta : Z
}.

Definition c_entrySize (c : config) : Z := c_ps c + c_fps c.

Record config_ok (c : config) : Prop := {
  co_seed : is_u 64 (c_seed c);
  co_ps : 0 <= c_ps c <= maxPayloadSize;
  co_fps : 0 <= c_fps c <= maxFingerprintSize
}.

(** The smallest metadata of a block: enough for a file of two blocks to reach
    the size the reader insists on. *)
Definition minMetadata : Z := 128.

(** The most a block takes, whatever its algorithm. *)
Definition maxMetadata : Z := 2 ^ 18.

(** The errors a block may be refused with. *)
Definition block_errors : list error :=
  [ErrBlockOverflow; ErrDuplicateKey; ErrIndistinguishableHashes; ErrSplitBucketSeedSearchFailed;
   errEvictionLimitExceeded].

(** [n] keys with slots 0 to n-1, which every decoder for the seed recomputes
    from the metadata, and every key's entry at its slot. *)
Definition block_built {B D} `{!BlockOps B D} (decodes : Z -> Z -> D -> Prop) (c : config) (ks : list key)
    (meta payloads : list Z) : Prop :=
  forall d, decodes (c_algo c) (c_seed c) d -> exists slots, slots ≡ₚ range (len ks) /\
    Forall2 (fun k slot => QuerySlot d (k_0 k) (k_1 k) meta (len ks) = Ok slot /\
      entry_at payloads (c_fps c) (c_ps c) slot (k_fp k) (k_payload k)) ks slots.

(** ** The contract

    [builds c ks b]: the builder [b], created with [c], has got the keys [ks]
    since its last reset; [decodes algo seed d]: [d] is a decoder of the algorithm
    [algo] for the seed. *)
Class BlockContract (B D : Type) `{!BlockOps B D} := {
  builds : config -> list key -> B -> Prop;
  decodes : Z -> Z -> D -> Prop;
  builds_keys c ks b : builds c ks b -> KeysAdded b = len ks /\ Forall (bkey_ok (c_fps c)) ks;
  builds_config c ks b : builds c ks b ->
    config_ok c /\ NumBlocks b = c_numBlocks c /\ MaxIndexMetadataSize b = c_maxMeta c /\
    GlobalConfigSize b = 0 /\ (len ks < 2 ^ 32 -> 0 <= MaxMetadataSizeForCurrentBlock b);
  Reset_builds c ks b : builds c ks b -> builds c [] (Reset b);
  AddKey_builds c ks b k : builds c ks b -> bkey_ok (c_fps c) k ->
    exists b', AddKey b (k_0 k) (k_1 k) (k_payload k) (k_fp k) = Ok b' /\ builds c (ks ++ [k]) b';
  Build_builds c ks b md pd : builds c ks b ->
    MaxMetadataSizeForCurrentBlock b <= len md \/ c_maxMeta c <= len md -> len ks * c_entrySize c <= len pd ->
    Forall is_byte md -> Forall is_byte pd ->
    wp (BuildSeparatedInto b md pd) (fun '(b', md', pd', r) =>
      builds c ks b' /\ len md' = len md /\ len pd' = len pd /\
      Forall is_byte md' /\ Forall is_byte pd' /\
      match r with
      | inl (metaLen, payloadsLen, n) =>
          n = len ks /\ payloadsLen = len ks * c_entrySize c /\
          minMetadata <= metaLen <= Z.min maxMetadata (len md) /\
          block_built decodes c ks (take (Z.to_nat metaLen) md') pd'
      | inr e => e ∈ block_errors /\ ks <> []
      end) no_err;
  QuerySlot_wp algo seed d k0 k1 metadata n :
    decodes algo seed d -> is_u 64 seed -> Forall is_byte metadata -> is_u 64 k0 -> is_u 64 k1 -> 0 <= n < 2 ^ 40 ->
    wp (QuerySlot d k0 k1 metadata n) (is_u 40) (fun e => e = ErrNotFound \/ e = ErrCorruptedIndex)
}.
