(* ===== verification/Header.v ===== *)
(** * [header.go]: the fixed-size records of the index file

    The 64-byte header, the 32-byte footer and the 10-byte entries of the RAM
    index, with their encoders and decoders. *)
From S2P Require Import Prelude Words Encoding Key.
#[local] Open Scope Z_scope.

Definition magic : Z := 0x53544D48.
Definition version : Z := 0x0001.
Definition headerSize : Z := 64.
Definition footerSize : Z := 32.
Definition ramIndexEntrySize : Z := 10.

(** Consecutive stores are one store. *)
Lemma store_chain {B} (buf a b : list Z) off off' (k : list Z -> res B) :
  0 <= off -> off' = off + len a -> off + len a + len b <= len buf ->
  (buf' ← store buf off a; buf'' ← store buf' off' b; k buf'') =
  (buf'' ← store buf off (a ++ b); k buf'').
Proof. intros ? -> ?. by rewrite <- store_store_adjacent, res_bind_assoc. Qed.

Lemma upd_store (buf : list Z) i b : upd buf i b = store buf i [b].
Proof.
  unfold upd, store. change (len [b]) with 1. unfold len.
  destruct (Z.leb_spec 0 i); [| done].
  destruct (Z.ltb_spec i (Z.of_nat (length buf))), (Z.leb_spec (i + 1) (Z.of_nat (length buf)));
    try lia; simpl; [| done].
  f_equal. rewrite insert_take_drop by lia. do 2 f_equal. f_equal. lia.
Qed.

Lemma store_chain_upd {B} (buf a : list Z) x off off' (k : list Z -> res B) :
  0 <= off -> off' = off + len a -> off + len a + 1 <= len buf ->
  (buf' ← store buf off a; buf'' ← upd buf' off' x; k buf'') =
  (buf'' ← store buf off (a ++ [x]); k buf'').
Proof.
  intros ? -> ?. rewrite <- store_store_adjacent, res_bind_assoc by done.
  destruct (store buf off a); simpl; [| done | done]. by rewrite upd_store.
Qed.

Lemma store_store_adjacent' (buf a b : list Z) off off' :
  0 <= off -> off' = off + len a -> off + len a + len b <= len buf ->
  (buf' ← store buf off a; store buf' off' b) = store buf off (a ++ b).
Proof. intros ? -> ?. by rewrite <- store_store_adjacent. Qed.

(** Side conditions about lengths of concatenated fields. *)
Ltac len_tac := rewrite ?len_app, ?len_le_bytes, ?len_single; lia.

(** Reading a little-endian field out of a concatenation of fields. *)
Lemma get_le_at n (pre post : list Z) v buf off :
  buf = pre ++ le_bytes n v ++ post -> off = len pre ->
  get_le n buf off = Ok (v mod 2 ^ (8 * Z.of_nat n)).
Proof. intros -> ->. apply get_le_app. Qed.

Module Header.
Record header := mk_header {
  Magic : Z;            (* uint32 *)
  Version : Z;          (* uint16 *)
  TotalKeys : Z;        (* uint64 *)
  NumBlocks : Z;        (* uint32 *)
  PayloadSize : Z;      (* uint32 *)
  FingerprintSize : Z;  (* uint8 *)
  Seed : Z;             (* uint64 *)
  BlockAlgorithm : Z;   (* uint16 *)
  Reserved : list Z     (* [31]byte *)
}.

(** The values the Go struct can hold. *)
Definition header_wf (h : header) : Prop :=
  is_u 32 (Magic h) /\ is_u 16 (Version h) /\ is_u 64 (TotalKeys h) /\ is_u 32 (NumBlocks h) /\
  is_u 32 (PayloadSize h) /\ is_u 8 (FingerprintSize h) /\ is_u 64 (Seed h) /\
  is_u 16 (BlockAlgorithm h) /\ length (Reserved h) = 31%nat /\ Forall is_byte (Reserved h).

Definition header_encodeTo (h : header) (buf : list Z) : res (list Z) :=
  buf ← put_le 4 buf 0 (Magic h);
  buf ← put_le 2 buf 4 (Version h);
  buf ← put_le 8 buf 6 (TotalKeys h);
  buf ← put_le 4 buf 14 (NumBlocks h);
  buf ← put_le 4 buf 18 (PayloadSize h);
  buf ← upd buf 22 (FingerprintSize h);
  buf ← put_le 8 buf 23 (Seed h);
  buf ← put_le 2 buf 31 (u16 (BlockAlgorithm h));
  store buf 33 (Reserved h).

Definition decodeHeader (buf : list Z) : res header :=
  if len buf <? headerSize then Err ErrTruncatedFile
  else
    Magic ← get_le 4 buf 0;
    Version ← get_le 2 buf 4;
    TotalKeys ← get_le 8 buf 6;
    NumBlocks ← get_le 4 buf 14;
    PayloadSize ← get_le 4 buf 18;
    FingerprintSize ← idx buf 22;
    Seed ← get_le 8 buf 23;
    BlockAlgorithm ← get_le 2 buf 31;
    Reserved ← slice buf 33 64;
    if negb (Magic =? magic) then Err ErrInvalidMagic
    else if negb (Version =? version) then Err ErrInvalidVersion
    else if u32 maxPayloadSize <? PayloadSize then Err ErrCorruptedIndex
    else if u8 maxFingerprintSize <? FingerprintSize then Err ErrCorruptedIndex
    else if (NumBlocks =? 0) && (0 <? TotalKeys) then Err ErrCorruptedIndex
    else if NumBlocks =? 2 ^ 32 - 1 then Err ErrCorruptedIndex
    else Ok (mk_header Magic Version TotalKeys NumBlocks PayloadSize FingerprintSize Seed
               BlockAlgorithm Reserved).

Definition payloadSizeInt (h : header) : Z := PayloadSize h.
Definition hasFingerprint (h : header) : bool := 0 <? FingerprintSize h.
Definition fingerprintSizeInt (h : header) : Z := FingerprintSize h.
Definition entrySize (h : header) : Z := PayloadSize h + FingerprintSize h.

(** The 64 bytes of a header. *)
Definition header_bytes (h : header) : list Z :=
  le_bytes 4 (Magic h) ++ le_bytes 2 (Version h) ++ le_bytes 8 (TotalKeys h) ++
  le_bytes 4 (NumBlocks h) ++ le_bytes 4 (PayloadSize h) ++ [FingerprintSize h] ++
  le_bytes 8 (Seed h) ++ le_bytes 2 (BlockAlgorithm h) ++ Reserved h.

(** What a reader accepts beyond the field widths. *)
Definition header_valid (h : header) : Prop :=
  header_wf h /\ Magic h = magic /\ Version h = version /\
  PayloadSize h <= maxPayloadSize /\ FingerprintSize h <= maxFingerprintSize /\
  (NumBlocks h = 0 -> TotalKeys h = 0) /\ NumBlocks h <> 2 ^ 32 - 1.

Lemma len_header_bytes h : header_wf h -> len (header_bytes h) = 64.
Proof.
  intros (_ & _ & _ & _ & _ & _ & _ & _ & Hr & _). unfold header_bytes.
  rewrite !len_app, !len_le_bytes. unfold len. rewrite Hr. simpl. lia.
Qed.

Lemma header_bytes_ok h : header_wf h -> Forall is_byte (header_bytes h).
Proof.
  intros (_ & _ & _ & _ & _ & Hf & _ & _ & _ & Hr). unfold header_bytes.
  repeat (apply Forall_app; split); try apply le_bytes_bytes; [by apply Forall_singleton | exact Hr].
Qed.

Lemma header_encodeTo_eq h buf :
  header_wf h -> headerSize <= len buf -> header_encodeTo h buf = store buf 0 (header_bytes h).
Proof.
  intros Hwf Hl. unfold headerSize in Hl. unfold header_encodeTo, put_le.
  rewrite le_bytes_u16 by lia.
  pose proof (len_header_bytes h Hwf) as Hlen. unfold header_bytes in Hlen |- *.
  rewrite !len_app, !len_le_bytes, len_single in Hlen.
  do 4 (rewrite store_chain; [| lia | len_tac | len_tac]).
  rewrite store_chain_upd; [| lia | len_tac | len_tac].
  do 2 (rewrite store_chain; [| lia | len_tac | len_tac]).
  rewrite <- !app_assoc. rewrite store_store_adjacent'; [| lia | len_tac | len_tac].
  by rewrite <- !app_assoc.
Qed.

(** Each field, read back at its offset. *)
Lemma decodeHeader_bytes h tail :
  header_wf h ->
  decodeHeader (header_bytes h ++ tail) =
  if negb (Magic h =? magic) then Err ErrInvalidMagic
  else if negb (Version h =? version) then Err ErrInvalidVersion
  else if maxPayloadSize <? PayloadSize h then Err ErrCorruptedIndex
  else if maxFingerprintSize <? FingerprintSize h then Err ErrCorruptedIndex
  else if (NumBlocks h =? 0) && (0 <? TotalKeys h) then Err ErrCorruptedIndex
  else if NumBlocks h =? 2 ^ 32 - 1 then Err ErrCorruptedIndex
  else Ok h.
Proof.
  intros Hwf. pose proof (len_header_bytes h Hwf) as Hlen.
  assert (Hl : (len (header_bytes h ++ tail) <? headerSize) = false).
  { apply Z.ltb_ge. rewrite len_app, Hlen. pose proof (len_nonneg tail). unfold headerSize. lia. }
  unfold decodeHeader. rewrite Hl.
  destruct Hwf as (H1 & H2 & H3 & H4 & H5 & H6 & H7 & H8 & H9 & H10).
  unfold header_bytes. rewrite <- !app_assoc.
  set (B1 := le_bytes 4 (Magic h)). set (B2 := le_bytes 2 (Version h)).
  set (B3 := le_bytes 8 (TotalKeys h)). set (B4 := le_bytes 4 (NumBlocks h)).
  set (B5 := le_bytes 4 (PayloadSize h)). set (B7 := le_bytes 8 (Seed h)).
  set (B8 := le_bytes 2 (BlockAlgorithm h)).
  rewrite (get_le_at 4 [] (B2 ++ B3 ++ B4 ++ B5 ++ [FingerprintSize h] ++ B7 ++ B8 ++ Reserved h ++ tail) (Magic h) _ 0) by done.
  rewrite (get_le_at 2 B1 (B3 ++ B4 ++ B5 ++ [FingerprintSize h] ++ B7 ++ B8 ++ Reserved h ++ tail) (Version h) _ 4) by done.
  rewrite (get_le_at 8 (B1 ++ B2) (B4 ++ B5 ++ [FingerprintSize h] ++ B7 ++ B8 ++ Reserved h ++ tail) (TotalKeys h) _ 6)
    by (rewrite <- ?app_assoc; done).
  rewrite (get_le_at 4 (B1 ++ B2 ++ B3) (B5 ++ [FingerprintSize h] ++ B7 ++ B8 ++ Reserved h ++ tail) (NumBlocks h) _ 14)
    by (rewrite <- ?app_assoc; done).
  rewrite (get_le_at 4 (B1 ++ B2 ++ B3 ++ B4) ([FingerprintSize h] ++ B7 ++ B8 ++ Reserved h ++ tail) (PayloadSize h) _ 18)
    by (rewrite <- ?app_assoc; done).
  rewrite (get_le_at 8 (B1 ++ B2 ++ B3 ++ B4 ++ B5 ++ [FingerprintSize h]) (B8 ++ Reserved h ++ tail) (Seed h) _ 23)
    by (rewrite <- ?app_assoc; done).
  rewrite (get_le_at 2 (B1 ++ B2 ++ B3 ++ B4 ++ B5 ++ [FingerprintSize h] ++ B7) (Reserved h ++ tail) (BlockAlgorithm h) _ 31)
    by (rewrite <- ?app_assoc; done).
  rewrite (idx_nat _ 22 (FingerprintSize h)) by done.
  rewrite (proj2 (slice_ok _ 33 64 (Reserved h))).
  2:{ split_and!; [lia | lia | |].
      - rewrite !app_assoc, !len_app. unfold len at 9. rewrite H9. pose proof (len_nonneg tail).
        unfold B1, B2, B3, B4, B5, B7, B8. rewrite !len_le_bytes. change (len [FingerprintSize h]) with 1. lia.
      - change (Z.to_nat (64 - 33)) with 31%nat. rewrite <- H9.
        change (drop (Z.to_nat 33) _) with (Reserved h ++ tail). by rewrite take_app_length. }
  simpl.
  assert (forall w x, is_u w x -> x mod 2 ^ w = x) as Hmod by (intros; by apply Z.mod_small).
  change (8 * Z.of_nat 4) with 32. change (8 * Z.of_nat 2) with 16. change (8 * Z.of_nat 8) with 64.
  rewrite !Hmod by done. change (u32 maxPayloadSize) with maxPayloadSize.
  change (u8 maxFingerprintSize) with maxFingerprintSize. by destruct h.
Qed.

(** Any 64 bytes are the bytes of some record. *)
Lemma header_of_bytes bs :
  Forall is_byte bs -> length bs = 64%nat -> exists h, header_wf h /\ header_bytes h = bs.
Proof.
  intros Hb Hl. set (f o n := le_val (window bs o n)).
  assert (forall o n, (o + n <= 64)%nat -> le_bytes n (f o n) = window bs o n) as Hw.
  { intros o n Hon. unfold f. rewrite <- (length_window bs o n) at 1 by lia.
    apply le_bytes_val. by apply Forall_take, Forall_drop. }
  assert (forall o n, (o + n <= 64)%nat -> is_u (8 * Z.of_nat n) (f o n)) as Hu.
  { intros o n Hon. unfold f. pose proof (le_val_bound (window bs o n)) as H.
    rewrite length_window in H by lia. apply H. by apply Forall_take, Forall_drop. }
  destruct (lookup_lt_is_Some_2 bs 22) as [fs Hfs]; [lia |].
  exists (mk_header (f 0 4)%nat (f 4 2)%nat (f 6 8)%nat (f 14 4)%nat (f 18 4)%nat fs
            (f 23 8)%nat (f 31 2)%nat (window bs 33 31)). split.
  - unfold header_wf; cbn [Magic Version TotalKeys NumBlocks PayloadSize FingerprintSize
      Seed BlockAlgorithm Reserved]. split_and!;
      try exact (Hu 0 4 ltac:(lia))%nat; try exact (Hu 4 2 ltac:(lia))%nat;
      try exact (Hu 6 8 ltac:(lia))%nat; try exact (Hu 14 4 ltac:(lia))%nat;
      try exact (Hu 18 4 ltac:(lia))%nat; try exact (Hu 23 8 ltac:(lia))%nat;
      try exact (Hu 31 2 ltac:(lia))%nat.
    + by eapply (Forall_lookup_1 _ _ _ _ Hb).
    + apply length_window. lia.
    + by apply Forall_take, Forall_drop.
  - unfold header_bytes; cbn [Magic Version TotalKeys NumBlocks PayloadSize FingerprintSize
      Seed BlockAlgorithm Reserved]. rewrite !Hw by lia. clear -Hl Hfs.
    assert ([fs] = window bs 22 1) as ->.
    { unfold window. erewrite drop_S by done. done. }
    do 64 (destruct bs as [| ? bs]; [done |]). destruct bs; done.
Qed.

Lemma decodeHeader_valid h tail : header_valid h -> decodeHeader (header_bytes h ++ tail) = Ok h.
Proof.
  intros (Hwf & Hm & Hv & Hp & Hf & Hn & Hn').
  rewrite decodeHeader_bytes, Hm, Hv, !Z.eqb_refl by done. cbn [negb].
  destruct (Z.ltb_spec maxPayloadSize (PayloadSize h)); [lia |].
  destruct (Z.ltb_spec maxFingerprintSize (FingerprintSize h)); [lia |].
  destruct (Z.eqb_spec (NumBlocks h) 0) as [He |]; cbn [andb];
    [rewrite (Hn He) |]; change (0 <? 0) with false; cbn iota;
    by destruct (Z.eqb_spec (NumBlocks h) (2 ^ 32 - 1)).
Qed.

(** C39: encoding a header into a buffer of at least 64 bytes and decoding it
    gives the header back, and nothing beyond the 64 bytes is touched. *)
Theorem header_roundtrip h buf :
  header_valid h -> headerSize <= len buf ->
  exists buf', header_encodeTo h buf = Ok buf' /\ decodeHeader buf' = Ok h /\
    drop 64 buf' = drop 64 buf.
Proof.
  intros Hval Hl. pose proof Hval as [Hwf _].
  pose proof (len_header_bytes h Hwf) as Hlen. unfold headerSize in Hl.
  rewrite header_encodeTo_eq, store_range by (done || (rewrite ?Hlen; unfold headerSize; lia)).
  eexists. split; [done |].
  assert (length (header_bytes h) = 64%nat) as Hlen' by (unfold len in Hlen; lia).
  change (Z.to_nat 0) with 0%nat. rewrite take_0, app_nil_l, Nat.add_0_l. split.
  - by apply decodeHeader_valid.
  - rewrite <- Hlen' at 1. by rewrite drop_app_length, Hlen'.
Qed.

Lemma header_roundtrip_witness :
  let h := mk_header magic version 5 2 4 1 0x1234567890abcdef 1 (make 0 31) in
  exists buf', header_encodeTo h (make 7 70) = Ok buf' /\ decodeHeader buf' = Ok h /\
    drop 64 buf' = [7; 7; 7; 7; 7; 7].
Proof.
  apply (header_roundtrip (mk_header magic version 5 2 4 1 0x1234567890abcdef 1 (make 0 31))).
  - unfold header_valid, header_wf; cbn. unfold_words.
    split_and!; try lia; try done. repeat constructor; lia.
  - vm_compute. discriminate.
Defined.

Lemma decodeHeader_iff buf :
  Forall is_byte buf ->
  decodeHeader buf <> Panic /\
  forall h, decodeHeader buf = Ok h <->
    headerSize <= len buf /\ header_valid h /\ take 64 buf = header_bytes h.
Proof.
  intros Hb. destruct (Z.ltb_spec (len buf) headerSize) as [Hs | Hs].
  { unfold decodeHeader. rewrite (proj2 (Z.ltb_lt _ _) Hs). split; [done |].
    intros h. split; [done |]. lia. }
  unfold headerSize in *.
  destruct (header_of_bytes (take 64 buf)) as (h & Hwf & Hbytes).
  { by apply Forall_take. } { rewrite length_take. unfold len in Hs. lia. }
  pose proof (decodeHeader_bytes h (drop 64 buf) Hwf) as Hd.
  rewrite Hbytes, take_drop in Hd. split; [rewrite Hd; by repeat case_match |].
  intros h'. split.
  - intros Hok. rewrite Hd in Hok.
    destruct (Z.eqb_spec (Magic h) magic); [cbn in Hok | done].
    destruct (Z.eqb_spec (Version h) version); [cbn in Hok | done].
    destruct (Z.ltb_spec maxPayloadSize (PayloadSize h)); [done |].
    destruct (Z.ltb_spec maxFingerprintSize (FingerprintSize h)); [done |].
    destruct ((NumBlocks h =? 0) && (0 <? TotalKeys h)) eqn:Hnb; [done |].
    destruct (Z.eqb_spec (NumBlocks h) (2 ^ 32 - 1)); [done |]. injection Hok as <-.
    split; [done |]. split; [| done]. split; [done |].
    split_and!; try done. intros Hz. rewrite Hz in Hnb. cbn in Hnb. apply Z.ltb_ge in Hnb.
    destruct Hwf as (_ & _ & H3 & _). unfold_words. lia.
  - intros (_ & Hval & Htake). rewrite <- (take_drop 64 buf), Htake.
    by apply decodeHeader_valid.
Qed.

(** C38: decoding never panics, and it accepts exactly the byte strings that
    start with the 64-byte image of a valid header: right magic and version,
    payload and fingerprint sizes within their maxima, no keys without blocks,
    and a block count whose successor does not wrap. *)
Theorem decodeHeader_spec buf :
  Forall is_byte buf ->
  decodeHeader buf <> Panic /\
  forall h, decodeHeader buf = Ok h <->
    headerSize <= len buf /\ header_valid h /\ take 64 buf = header_bytes h.
Proof. apply decodeHeader_iff. Qed.

Lemma decodeHeader_spec_witness :
  decodeHeader (make 0 64) <> Panic /\
  forall h, decodeHeader (make 0 64) = Ok h <->
    headerSize <= len (make 0 64) /\ header_valid h /\ take 64 (make 0 64) = header_bytes h.
Proof. apply (decodeHeader_spec (make 0 64)). repeat constructor; unfold_words; lia. Defined.

(** The same, as a specification of a call. *)
Lemma decodeHeader_wp buf :
  Forall is_byte buf ->
  wp (decodeHeader buf) (fun h => headerSize <= len buf /\ header_valid h /\ take 64 buf = header_bytes h)
    (fun e => e ∈ [ErrTruncatedFile; ErrInvalidMagic; ErrInvalidVersion; ErrCorruptedIndex]).
Proof.
  intros Hb. destruct (decodeHeader_iff buf Hb) as [Hnp Hiff].
  destruct (decodeHeader buf) as [h | e |] eqn:Hd; cbn [wp]; [by apply Hiff | | done].
  clear Hnp Hiff. destruct (Z.ltb_spec (len buf) headerSize) as [Hs | Hs].
  { unfold decodeHeader in Hd. rewrite (proj2 (Z.ltb_lt _ _) Hs) in Hd. injection Hd as <-. set_solver. }
  unfold headerSize in Hs. destruct (header_of_bytes (take 64 buf)) as (h & Hwf & Hbytes).
  { by apply Forall_take. } { rewrite length_take. unfold len in Hs. lia. }
  pose proof (decodeHeader_bytes h (drop 64 buf) Hwf) as Hd'.
  rewrite Hbytes, take_drop, Hd in Hd'. repeat case_match; simplify_eq; set_solver.
Qed.
End Header.

Module Footer.
Record footer := mk_footer {
  PayloadRegionHash : Z;   (* uint64 *)
  MetadataRegionHash : Z;  (* uint64 *)
  Reserved : list Z        (* [16]byte *)
}.

Definition footer_wf (f : footer) : Prop :=
  is_u 64 (PayloadRegionHash f) /\ is_u 64 (MetadataRegionHash f) /\
  length (Reserved f) = 16%nat /\ Forall is_byte (Reserved f).

Definition footer_encodeTo (f : footer) (buf : list Z) : res (list Z) :=
  buf ← put_le 8 buf 0 (PayloadRegionHash f);
  buf ← put_le 8 buf 8 (MetadataRegionHash f);
  store buf 16 (Reserved f).

Definition decodeFooter (buf : list Z) : res footer :=
  if len buf <? footerSize then Err ErrTruncatedFile
  else
    PayloadRegionHash ← get_le 8 buf 0;
    MetadataRegionHash ← get_le 8 buf 8;
    Reserved ← slice buf 16 32;
    Ok (mk_footer PayloadRegionHash MetadataRegionHash Reserved).

Definition footer_bytes (f : footer) : list Z :=
  le_bytes 8 (PayloadRegionHash f) ++ le_bytes 8 (MetadataRegionHash f) ++ Reserved f.

Lemma len_footer_bytes f : footer_wf f -> len (footer_bytes f) = 32.
Proof.
  intros (_ & _ & Hr & _). unfold footer_bytes. rewrite !len_app, !len_le_bytes.
  unfold len. rewrite Hr. lia.
Qed.

Lemma footer_encodeTo_eq f buf :
  footer_wf f -> footerSize <= len buf -> footer_encodeTo f buf = store buf 0 (footer_bytes f).
Proof.
  intros Hwf Hl. unfold footerSize in Hl. unfold footer_encodeTo, put_le, footer_bytes.
  pose proof (len_footer_bytes f Hwf) as Hlen. unfold footer_bytes in Hlen.
  rewrite !len_app, !len_le_bytes in Hlen.
  rewrite store_chain; [| lia | len_tac | len_tac].
  rewrite store_store_adjacent'; [| lia | len_tac | len_tac].
  by rewrite <- app_assoc.
Qed.

Lemma decodeFooter_bytes f tail : footer_wf f -> decodeFooter (footer_bytes f ++ tail) = Ok f.
Proof.
  intros Hwf. pose proof (len_footer_bytes f Hwf) as Hlen. unfold decodeFooter.
  destruct (Z.ltb_spec (len (footer_bytes f ++ tail)) footerSize) as [Hs |].
  { rewrite len_app, Hlen in Hs. pose proof (len_nonneg tail). unfold footerSize in Hs. lia. }
  destruct Hwf as (H1 & H2 & H3 & H4). unfold footer_bytes. rewrite <- !app_assoc.
  rewrite (get_le_at 8 [] (le_bytes 8 (MetadataRegionHash f) ++ Reserved f ++ tail)
             (PayloadRegionHash f) _ 0) by done.
  rewrite (get_le_at 8 (le_bytes 8 (PayloadRegionHash f)) (Reserved f ++ tail)
             (MetadataRegionHash f) _ 8) by done.
  rewrite (proj2 (slice_ok _ 16 32 (Reserved f))).
  - simpl. change (8 * Z.of_nat 8) with 64. rewrite !Z.mod_small by done. by destruct f.
  - split_and!; [lia | lia | |].
    + rewrite !len_app, !len_le_bytes. unfold len at 1. rewrite H3.
      pose proof (len_nonneg tail). lia.
    + change (Z.to_nat (32 - 16)) with 16%nat. rewrite <- H3.
      change (drop (Z.to_nat 16) _) with (Reserved f ++ tail). by rewrite take_app_length.
Qed.
End Footer.

Module RamIndex.
Record ramIndexEntry := mk_entry { KeysBefore : Z; MetadataOffset : Z }.

Definition encodeRAMIndexEntryTo (e : ramIndexEntry) (buf : list Z) : res (list Z) :=
  buf ← upd buf 0 (u8 (KeysBefore e));
  buf ← upd buf 1 (u8 (Z.shiftr (KeysBefore e) 8));
  buf ← upd buf 2 (u8 (Z.shiftr (KeysBefore e) 16));
  buf ← upd buf 3 (u8 (Z.shiftr (KeysBefore e) 24));
  buf ← upd buf 4 (u8 (Z.shiftr (KeysBefore e) 32));
  buf ← upd buf 5 (u8 (MetadataOffset e));
  buf ← upd buf 6 (u8 (Z.shiftr (MetadataOffset e) 8));
  buf ← upd buf 7 (u8 (Z.shiftr (MetadataOffset e) 16));
  buf ← upd buf 8 (u8 (Z.shiftr (MetadataOffset e) 24));
  upd buf 9 (u8 (Z.shiftr (MetadataOffset e) 32)).

Definition decodeRAMIndexEntry (buf : list Z) : res ramIndexEntry :=
  b0 ← idx buf 0; b1 ← idx buf 1; b2 ← idx buf 2; b3 ← idx buf 3; b4 ← idx buf 4;
  b5 ← idx buf 5; b6 ← idx buf 6; b7 ← idx buf 7; b8 ← idx buf 8; b9 ← idx buf 9;
  let word c0 c1 c2 c3 c4 :=
    Z.lor (Z.lor (Z.lor (Z.lor c0 (u64 (Z.shiftl c1 8))) (u64 (Z.shiftl c2 16)))
      (u64 (Z.shiftl c3 24))) (u64 (Z.shiftl c4 32)) in
  Ok (mk_entry (word b0 b1 b2 b3 b4) (word b5 b6 b7 b8 b9)).

Definition entry_wf (e : ramIndexEntry) : Prop :=
  is_u 40 (KeysBefore e) /\ is_u 40 (MetadataOffset e).

Definition ram_entry_bytes (e : ramIndexEntry) : list Z :=
  le_bytes 5 (KeysBefore e) ++ le_bytes 5 (MetadataOffset e).

Lemma len_ram_entry_bytes e : len (ram_entry_bytes e) = 10.
Proof. unfold ram_entry_bytes. by rewrite len_app, !len_le_bytes. Qed.

Lemma le_bytes_5 z :
  le_bytes 5 z = [u8 z; u8 (Z.shiftr z 8); u8 (Z.shiftr z 16); u8 (Z.shiftr z 24);
                  u8 (Z.shiftr z 32)].
Proof.
  rewrite !shiftr_div by lia. rewrite !le_bytes_cons. unfold u8. rewrite !Z.div_div by lia. done.
Qed.

Lemma encodeRAMIndexEntryTo_eq e buf :
  ramIndexEntrySize <= len buf -> encodeRAMIndexEntryTo e buf = store buf 0 (ram_entry_bytes e).
Proof.
  unfold ramIndexEntrySize. intros Hl. unfold encodeRAMIndexEntryTo, ram_entry_bytes.
  rewrite !le_bytes_5. unfold len in Hl.
  do 10 (destruct buf as [| ? buf]; [done |]). cbn [app]. clear Hl.
  assert (forall (l : list Z) i x, 0 <= i < len l -> upd l i x = Ok (<[Z.to_nat i := x]> l)) as Hupd
    by (intros; by apply upd_in_range).
  repeat (rewrite Hupd by (rewrite ?len_insert; unfold len; cbn [length]; lia); cbn [mbind res_bind]).
  rewrite store_range by (unfold len; cbn [length]; lia). done.
Qed.

Lemma word_of_bytes c0 c1 c2 c3 c4 :
  Forall is_byte [c0; c1; c2; c3; c4] ->
  Z.lor (Z.lor (Z.lor (Z.lor c0 (u64 (Z.shiftl c1 8))) (u64 (Z.shiftl c2 16)))
    (u64 (Z.shiftl c3 24))) (u64 (Z.shiftl c4 32)) = le_val [c0; c1; c2; c3; c4].
Proof.
  rewrite !Forall_cons. intros (H0 & H1 & H2 & H3 & H4 & _). unfold_words.
  rewrite !(Z.mod_small (Z.shiftl _ _)) by (rewrite Z.shiftl_mul_pow2 by lia; lia).
  rewrite (lor_shiftl_add c0) by lia.
  rewrite (lor_shiftl_add (c0 + _)) by lia. rewrite (lor_shiftl_add (c0 + _ + _)) by lia.
  rewrite lor_shiftl_add by lia. rewrite !le_val_cons. change (le_val []) with 0. lia.
Qed.

Lemma decodeRAMIndexEntry_eq buf :
  Forall is_byte buf -> ramIndexEntrySize <= len buf ->
  decodeRAMIndexEntry buf = Ok (mk_entry (le_val (window buf 0 5)) (le_val (window buf 5 5))).
Proof.
  unfold ramIndexEntrySize. intros Hb Hl. unfold len in Hl.
  do 10 (destruct buf as [| ? buf]; [done |]). clear Hl.
  unfold decodeRAMIndexEntry.
  rewrite (idx_nat _ 0 z), (idx_nat _ 1 z0), (idx_nat _ 2 z1), (idx_nat _ 3 z2),
    (idx_nat _ 4 z3), (idx_nat _ 5 z4), (idx_nat _ 6 z5), (idx_nat _ 7 z6), (idx_nat _ 8 z7),
    (idx_nat _ 9 z8) by done.
  cbn [mbind res_bind]. unfold window. cbn [take drop].
  repeat (apply Forall_cons in Hb as [? Hb]).
  by rewrite !word_of_bytes by (repeat (apply Forall_cons; split; [done |]); constructor).
Qed.

(** C40: a RAM index entry survives the 10-byte encoding exactly when both
    fields fit in 40 bits; in general the decoder returns both fields modulo
    2^40, and the encoder writes nothing past the entry. *)
Theorem ram_entry_roundtrip e buf :
  Forall is_byte buf -> ramIndexEntrySize <= len buf ->
  exists buf', encodeRAMIndexEntryTo e buf = Ok buf' /\
    decodeRAMIndexEntry buf' =
      Ok (mk_entry (KeysBefore e mod 2 ^ 40) (MetadataOffset e mod 2 ^ 40)) /\
    (decodeRAMIndexEntry buf' = Ok e <-> entry_wf e) /\
    drop 10 buf' = drop 10 buf.
Proof.
  intros Hb Hl. rewrite encodeRAMIndexEntryTo_eq by done. unfold ramIndexEntrySize in Hl.
  pose proof (len_ram_entry_bytes e) as Hlen.
  pose proof (store_range buf (ram_entry_bytes e) 0 ltac:(lia) ltac:(lia)) as Hst.
  change (Z.to_nat 0) with 0%nat in Hst. rewrite take_0, app_nil_l, Nat.add_0_l in Hst.
  eexists. split; [exact Hst |].
  assert (length (ram_entry_bytes e) = 10%nat) as Hlen' by (unfold len in Hlen; lia).
  rewrite Hlen' in *. set (buf' := _ ++ _).
  assert (decodeRAMIndexEntry buf' =
    Ok (mk_entry (KeysBefore e mod 2 ^ 40) (MetadataOffset e mod 2 ^ 40))) as Hd.
  { unfold buf'. rewrite decodeRAMIndexEntry_eq.
    - unfold ram_entry_bytes. rewrite <- app_assoc.
      rewrite (window_app_l (le_bytes 5 (KeysBefore e))) by (rewrite length_le_bytes; lia).
      rewrite (window_app_r (le_bytes 5 (KeysBefore e))), length_le_bytes
        by (rewrite length_le_bytes; lia).
      rewrite window_app_l by (rewrite length_le_bytes; lia).
      rewrite !window_0, !take_ge by (rewrite length_le_bytes; lia).
      by rewrite !le_val_bytes.
    - apply Forall_app. split; [| by apply Forall_drop].
      apply Forall_app; split; apply le_bytes_bytes.
    - rewrite len_app, Hlen. pose proof (len_nonneg (drop 10 buf)). unfold ramIndexEntrySize. lia. }
  split; [done |]. split.
  - rewrite Hd. unfold entry_wf, is_u. destruct e as [kb mo]; cbn [KeysBefore MetadataOffset].
    split; [intros [= <- <-] | intros [? ?]]; [zlia |]. by rewrite !Z.mod_small.
  - unfold buf'. by rewrite <- Hlen', drop_app_length.
Qed.

Lemma ram_entry_roundtrip_witness :
  exists buf', encodeRAMIndexEntryTo (mk_entry (2 ^ 40 + 7) 0x0102030405) (make 0 12) = Ok buf' /\
    decodeRAMIndexEntry buf' = Ok (mk_entry 7 0x0102030405) /\ drop 10 buf' = [0; 0].
Proof.
  destruct (ram_entry_roundtrip (mk_entry (2 ^ 40 + 7) 0x0102030405) (make 0 12))
    as (buf' & H1 & H2 & _ & H3).
  - repeat constructor; unfold_words; lia.
  - vm_compute. discriminate.
  - exists buf'. exact (conj H1 (conj H2 H3)).
Defined.
End RamIndex.
