(* ===== verification/Floats.v ===== *)
(** * IEEE 754 double precision, as the sizing code uses it

    The block geometry ([computeNumSlots], [numBlocks], the per-block key
    limits) is computed in [float64]. The operations are those of the Standard
    Library's [SpecFloat] at precision 53 and maximal exponent 1024: round to
    nearest, ties to even. *)
From Stdlib Require Export Floats.SpecFloat.
From S2P Require Import Prelude.
#[local] Open Scope Z_scope.

(** [float64(n)] for an integer [n]. *)
Definition float64 (n : Z) : spec_float := binary_normalize 53 1024 n 0 false.

(** The double nearest to the constant [n / d]. *)
Definition fconst (n d : Z) : spec_float := SFdiv 53 1024 (float64 n) (float64 d).

Definition fmul : spec_float -> spec_float -> spec_float := SFmul 53 1024.
Definition fdiv : spec_float -> spec_float -> spec_float := SFdiv 53 1024.
Definition fsub : spec_float -> spec_float -> spec_float := SFsub 53 1024.
Definition fadd : spec_float -> spec_float -> spec_float := SFadd 53 1024.
Definition fsqrt : spec_float -> spec_float := SFsqrt 53 1024.

(** [int(math.Ceil(f))]; the conversions of infinities and NaN, which Go leaves
    to the implementation, are 0. *)
Definition ceil_int (f : spec_float) : Z :=
  match f with
  | S754_finite s m e =>
      let v := if s then Z.neg m else Z.pos m in
      if 0 <=? e then v * 2 ^ e else - ((- v) / 2 ^ (- e))
  | _ => 0
  end.

(** [int(f)]: truncation towards zero. *)
Definition trunc_int (f : spec_float) : Z :=
  match f with
  | S754_finite s m e =>
      let v := if 0 <=? e then Z.pos m * 2 ^ e else Z.pos m / 2 ^ (- e) in
      if s then - v else v
  | _ => 0
  end.

Arguments float64 : simpl never.
Arguments fconst : simpl never.
Arguments fmul : simpl never.
Arguments fdiv : simpl never.
Arguments fsub : simpl never.
Arguments fadd : simpl never.
Arguments fsqrt : simpl never.
Arguments ceil_int : simpl never.
Arguments trunc_int : simpl never.
