(* ===== verification/PtrPilot.v ===== *)
(** * [internal/ptrhash/config.go], [pilot.go]: pilots, buckets and the remap table

    The hash functions that take a key to a bucket and a (key, pilot) pair to a
    slot, the block geometry, the generator that seeds the evictions, and the
    on-disk remap table. *)
From S2P Require Import Prelude Words Bits Encoding Floats.
#[local] Open Scope Z_scope.

(** ** Geometry *)
Definition bucketsPerBlock : Z := 10000.
Definition numPilotValues : Z := 256.
Definition maxGlobalRetries : Z := 10.

(** The constants [alpha = 0.99] and [lambda = 3.16]. *)
Definition alpha : spec_float := fconst 99 100.
Definition lambda : spec_float := fconst 316 100.

Definition computeNumSlots (numKeys : Z) : Z :=
  Z.max (u32 (ceil_int (fdiv (float64 numKeys) alpha))) (u32 numKeys).

Definition numBlocks (totalKeys : Z) : Z :=
  let totalBuckets := u64 (ceil_int (fdiv (float64 totalKeys) lambda)) in
  let totalBuckets := if totalBuckets =? 0 then 1 else totalBuckets in
  Z.max (u32 (u64 (u64 (totalBuckets + bucketsPerBlock) - 1) / bucketsPerBlock)) 2.

(** ** Pilot hashes *)
Definition pilotHashC : Z := 0x517cc1b727220a95.
Definition remapTableHeaderSize : Z := 2.
Definition remapTableEntrySize : Z := 2.

Definition pilotHash (pilot globalSeed : Z) : Z :=
  let x := u64 (pilotHashC * Z.lxor pilot globalSeed) in
  let x := Z.lxor x (Z.shiftr x 30) in
  let x := u64 (x * 0xbf58476d1ce4e5b9) in
  let x := Z.lxor x (Z.shiftr x 27) in
  let x := u64 (x * 0x94d049bb133111eb) in
  let x := Z.lxor x (Z.shiftr x 31) in
  Z.lor x 1.

Definition foldSlotInput (k0 k1 : Z) : Z :=
  let h := Z.lxor k0 k1 in Z.lxor h (Z.shiftr h 32).

Definition pilotSlotFolded (hFolded hp numSlots : Z) : Z :=
  u32 (mul64_hi (u64 (hFolded * hp)) numSlots).

(** The table [dst] is overwritten entry by entry. *)
Definition initPilotHPs (dst : list Z) (globalSeed : Z) : res (list Z) :=
  foldM (fun dst i => upd dst i (pilotHash (u8 i) globalSeed)) dst (range (len dst)).

Definition cubicEpsBucket (x numBuckets : Z) : Z :=
  if numBuckets <=? 1 then 0
  else
    let x2 := mul64_hi x x in
    let xHalf := Z.lor (Z.shiftr x 1) (2 ^ 63) in
    let cubic := mul64_hi x2 xHalf in
    let scaled := u64 (u64 (cubic / 256 * 255) + x / 256) in
    FastRange32 scaled numBuckets.

(** ** The remap table *)
Definition encodeRemapTableInto (table dst : list Z) : res (list Z * Z) :=
  hd ← slice dst 0 remapTableHeaderSize;
  dst ← put_le 2 dst 0 (u16 (len table));
  dst ← foldM (fun dst i =>
          v ← idx table i;
          put_le 2 dst (remapTableHeaderSize + i * remapTableEntrySize) v)
        dst (range (len table));
  Ok (dst, remapTableHeaderSize + len table * remapTableEntrySize).

Definition lookupRemap (data : list Z) (slot numKeys : Z) : res Z :=
  if slot <? numKeys then Ok slot
  else
    let i := u32 (slot - numKeys) in
    let offset := remapTableHeaderSize + i * remapTableEntrySize in
    v ← get_le 2 data offset; Ok (u32 v).

(** ** The eviction generator

    [splitMix64] of solver.go, and [math/rand/v2]'s PCG (128-bit state, DXSM
    output) with [IntN] at a power of two. *)
Definition splitMix64 (x : Z) : Z :=
  let x := u64 (x + 0x9E3779B97F4A7C15) in
  let x := u64 (Z.lxor x (Z.shiftr x 30) * 0xBF58476D1CE4E5B9) in
  let x := u64 (Z.lxor x (Z.shiftr x 27) * 0x94D049BB133111EB) in
  Z.lxor x (Z.shiftr x 31).

Definition pcg : Type := Z * Z. (* hi, lo *)

Definition pcg_next (p : pcg) : pcg :=
  let s := (p.1 * 2 ^ 64 + p.2) * (2549297995355413924 * 2 ^ 64 + 4865540595714422341)
           + (6364136223846793005 * 2 ^ 64 + 1442695040888963407) in
  ((s / 2 ^ 64) mod 2 ^ 64, s mod 2 ^ 64).

Definition pcg_Uint64 (p : pcg) : Z * pcg :=
  let p := pcg_next p in
  let hi := Z.lxor p.1 (Z.shiftr p.1 32) in
  let hi := u64 (hi * 0xda942042e4dd58b5) in
  let hi := Z.lxor hi (Z.shiftr hi 48) in
  (u64 (hi * Z.lor p.2 1), p).

(** [rng.IntN(numPilotValues)]: 256 is a power of two, so the low byte. *)
Definition pcg_IntN256 (p : pcg) : Z * pcg :=
  let '(x, p) := pcg_Uint64 p in (Z.land (u32 x) (numPilotValues - 1), p).

Arguments computeNumSlots : simpl never.
Arguments numBlocks : simpl never.
Arguments pilotHash : simpl never.
Arguments foldSlotInput : simpl never.
Arguments pilotSlotFolded : simpl never.
Arguments cubicEpsBucket : simpl never.
Arguments splitMix64 : simpl never.
Arguments pcg_IntN256 : simpl never.

(** ** Geometry facts *)
Lemma computeNumSlots_ge n : is_u 32 n -> n <= computeNumSlots n.
Proof. intros H. unfold computeNumSlots. rewrite (u32_id n H). lia. Qed.

Lemma computeNumSlots_is n : is_u 32 (computeNumSlots n).
Proof.
  unfold computeNumSlots, is_u. pose proof (u32_is (ceil_int (fdiv (float64 n) alpha))).
  pose proof (u32_is n). unfold_words. lia.
Qed.

Lemma numBlocks_is n : 2 <= numBlocks n < 2 ^ 32.
Proof.
  unfold numBlocks. pose proof (u32_is (u64 (u64 ((if u64 (ceil_int (fdiv (float64 n) lambda)) =? 0
    then 1 else u64 (ceil_int (fdiv (float64 n) lambda))) + bucketsPerBlock) - 1) / bucketsPerBlock)).
  cbv zeta. unfold_words. lia.
Qed.

(** ** Slots *)
Lemma foldSlotInput_is k0 k1 : is_u 64 k0 -> is_u 64 k1 -> is_u 64 (foldSlotInput k0 k1).
Proof.
  intros H0 H1. unfold foldSlotInput. pose proof (lxor_is_u 64 k0 k1 ltac:(lia) H0 H1) as H.
  apply lxor_is_u; [lia | done |]. rewrite shiftr_div by lia. zlia.
Qed.

Lemma pilotSlotFolded_is h hp n : is_u 32 (pilotSlotFolded h hp n).
Proof. apply u32_is. Qed.

Lemma pilotSlotFolded_lt h hp n : is_u 32 n -> 0 < n -> 0 <= pilotSlotFolded h hp n < n.
Proof.
  intros Hn Hn0. unfold pilotSlotFolded. pose proof (u64_is (h * hp)) as Hu.
  pose proof (mul64_hi_lt (u64 (h * hp)) n Hu Hn0) as Hb.
  rewrite u32_id; [done |]. unfold is_u in *. lia.
Qed.

(** A xorshift loses nothing: its input is recovered from the top bits down. *)
Lemma xorshift_inj s x y :
  0 < s -> 0 <= x -> 0 <= y -> Z.lxor x (Z.shiftr x s) = Z.lxor y (Z.shiftr y s) -> x = y.
Proof.
  intros Hs Hx Hy He. apply Z.bits_inj'. intros n Hn.
  set (m := Z.max (Z.log2 x) (Z.log2 y) + 1).
  assert (forall d : nat, forall n, 0 <= n -> m - Z.of_nat d <= n -> Z.testbit x n = Z.testbit y n)
    as Hall.
  { induction d as [| d IH]; intros k Hk Hd.
    - rewrite !Z.bits_above_log2; [done | lia ..].
    - pose proof (f_equal (fun z => Z.testbit z k) He) as Hb. cbv beta in Hb.
      rewrite !Z.lxor_spec, !Z.shiftr_spec in Hb by done.
      rewrite (IH (k + s)) in Hb by lia. by destruct (Z.testbit y (k + s)), (Z.testbit x k), (Z.testbit y k). }
  apply (Hall (Z.to_nat m)); [done |]. lia.
Qed.

(** Multiplication by an odd word is injective modulo 2^64. *)
Lemma odd_coprime_pow2 c (k : nat) : Z.odd c = true -> Z.coprime c (2 ^ Z.of_nat k).
Proof.
  intros Hc. induction k as [| k IH]; [apply Z.gcd_1_r |].
  rewrite Nat2Z.inj_succ, Z.pow_succ_r by lia. apply Z.coprime_mul_r; [| done].
  unfold Z.coprime. rewrite Z.gcd_comm, <- Z.gcd_mod by lia. by rewrite Zmod_odd, Hc.
Qed.

Lemma mul_odd_inj c x y :
  Z.odd c = true -> is_u 64 x -> is_u 64 y -> u64 (x * c) = u64 (y * c) -> x = y.
Proof.
  intros Hc Hx Hy He. unfold u64 in He.
  assert ((x - y) mod 2 ^ 64 = 0) as Hd.
  { apply (Z.cong_mul_cancel_r_coprime (x - y) c); [lia | by apply (odd_coprime_pow2 c 64) |].
    rewrite Z.mul_sub_distr_r, Zminus_mod, He, Z.sub_diag. done. }
  clear He. zlia.
Qed.

Lemma pilotHash_odd p seed : Z.odd (pilotHash p seed) = true.
Proof.
  unfold pilotHash. rewrite <- Z.bit0_odd, Z.lor_spec. apply orb_true_r.
Qed.

Lemma foldSlotInput_inj k0 k1 k0' k1' :
  is_u 64 k0 -> is_u 64 k1 -> is_u 64 k0' -> is_u 64 k1' ->
  foldSlotInput k0 k1 = foldSlotInput k0' k1' -> Z.lxor k0 k1 = Z.lxor k0' k1'.
Proof.
  intros H0 H1 H0' H1'. apply xorshift_inj; [lia |..].
  - apply (lxor_is_u 64); done || lia.
  - apply (lxor_is_u 64); done || lia.
Qed.

(** C31: under every pilot and seed, two keys get the same 64-bit slot hash only
    if their slot inputs [k0 ^ k1] agree: folding is invertible and the pilot
    hash is odd, so distinct inputs can collide only in the final range
    reduction, and keys with equal inputs collide under all 256 pilots. *)
Theorem pilot_mix_faithful p seed k0 k1 k0' k1' :
  is_u 64 k0 -> is_u 64 k1 -> is_u 64 k0' -> is_u 64 k1' ->
  u64 (foldSlotInput k0 k1 * pilotHash p seed) = u64 (foldSlotInput k0' k1' * pilotHash p seed)
  <-> Z.lxor k0 k1 = Z.lxor k0' k1'.
Proof.
  intros H0 H1 H0' H1'. split.
  - intros He%mul_odd_inj; [by apply foldSlotInput_inj in He | apply pilotHash_odd | ..];
      by apply foldSlotInput_is.
  - intros He. unfold foldSlotInput. by rewrite He.
Qed.

Lemma pilot_mix_faithful_witness :
  u64 (foldSlotInput 5 9 * pilotHash 3 77) = u64 (foldSlotInput 12 0 * pilotHash 3 77)
  <-> Z.lxor 5 9 = Z.lxor 12 0.
Proof. apply (pilot_mix_faithful 3 77 5 9 12 0); unfold_words; lia. Defined.

(** ** Buckets *)
Lemma cubicEps_scaled x :
  is_u 64 x ->
  let cubic := mul64_hi (mul64_hi x x) (x / 2 + 2 ^ 63) in
  0 <= cubic < 2 ^ 64 /\ is_u 64 (cubic / 256 * 255 + x / 256).
Proof.
  intros Hx. cbv zeta. unfold is_u in *.
  pose proof (mul64_hi_bound x x (2 ^ 64 - 1) Hx ltac:(lia)) as Hb.
  assert (0 <= x / 2 + 2 ^ 63 <= 2 ^ 64 - 1) as Hh by zlia.
  pose proof (mul64_hi_bound (mul64_hi x x) (x / 2 + 2 ^ 63) (2 ^ 64 - 1) ltac:(lia) Hh) as Hc.
  set (c := mul64_hi (mul64_hi x x) _) in *. clearbody c. clear Hb Hh. split; [lia |]. zlia.
Qed.

Lemma cubicEpsBucket_eq x n :
  is_u 64 x -> 1 < n ->
  cubicEpsBucket x n =
  FastRange32 (mul64_hi (mul64_hi x x) (x / 2 + 2 ^ 63) / 256 * 255 + x / 256) n.
Proof.
  intros Hx Hn. destruct (cubicEps_scaled x Hx) as [Hc Hs]. unfold cubicEpsBucket.
  destruct (Z.leb_spec n 1); [lia |]. cbv zeta. rewrite shiftr_div by lia.
  assert (Z.lor (x / 2 ^ 1) (2 ^ 63) = x / 2 + 2 ^ 63) as ->.
  { change (2 ^ 63) with (Z.shiftl 1 63). rewrite lor_shiftl_add by zlia. done. }
  f_equal. rewrite (u64_id (_ / 256 * 255)).
  - by rewrite u64_id.
  - clear Hs. set (c := mul64_hi (mul64_hi x x) _) in *. clearbody c. zlia.
Qed.

Lemma cubicEpsBucket_lt x n : is_u 64 x -> is_u 32 n -> 0 < n -> 0 <= cubicEpsBucket x n < n.
Proof.
  intros Hx Hn Hn0. destruct (decide (1 < n)) as [H1 |].
  - rewrite cubicEpsBucket_eq by done. apply FastRange32_lt; [| done | done].
    by apply cubicEps_scaled.
  - unfold cubicEpsBucket. destruct (Z.leb_spec n 1); lia.
Qed.

(** C30: the bucket assignment stays in range, is monotone in the suffix, and
    its fixed-point arithmetic never wraps: the skewed distribution is computed
    exactly as cubic = (x^2 (1+x)/2), scaled by 255/256 plus x/256. *)
Theorem cubicEps_monotone x y n :
  is_u 64 x -> is_u 64 y -> is_u 32 n -> 0 < n -> x <= y ->
  0 <= cubicEpsBucket x n <= cubicEpsBucket y n /\ cubicEpsBucket y n < n /\
  (1 < n -> cubicEpsBucket x n =
     (x * x / 2 ^ 64 * (x / 2 + 2 ^ 63) / 2 ^ 64 / 256 * 255 + x / 256) * n / 2 ^ 64).
Proof.
  intros Hx Hy Hn Hn0 Hle.
  pose proof (cubicEpsBucket_lt x n Hx Hn Hn0). pose proof (cubicEpsBucket_lt y n Hy Hn Hn0).
  split_and!; [lia | | lia |].
  - destruct (decide (1 < n)) as [H1 |]; [| lia].
    rewrite !cubicEpsBucket_eq by done.
    apply FastRange32_mono; [by apply cubicEps_scaled .. | done |].
    assert (mul64_hi x x <= mul64_hi y y) as H2.
    { unfold mul64_hi. apply Z.div_le_mono; unfold_words; nia. }
    assert (mul64_hi (mul64_hi x x) (x / 2 + 2 ^ 63) <= mul64_hi (mul64_hi y y) (y / 2 + 2 ^ 63)).
    { unfold mul64_hi at 1 3. apply Z.div_le_mono; [lia |].
      apply Z.mul_le_mono_nonneg; [| done | | ].
      - unfold mul64_hi. apply Z.div_pos; unfold_words; nia.
      - zlia.
      - zlia. }
    apply Z.add_le_mono; [apply Z.mul_le_mono_nonneg_r; [lia |] |]; apply Z.div_le_mono; lia.
  - intros H1. rewrite cubicEpsBucket_eq by done.
    rewrite FastRange32_eq; [done | by apply cubicEps_scaled | done | lia].
Qed.

Lemma cubicEps_monotone_witness :
  0 <= cubicEpsBucket (2 ^ 62) 10000 <= cubicEpsBucket (2 ^ 63) 10000 /\
  cubicEpsBucket (2 ^ 63) 10000 < 10000.
Proof.
  destruct (cubicEps_monotone (2 ^ 62) (2 ^ 63) 10000) as (H1 & H2 & _);
    [unfold_words; lia .. | lia | lia | exact (conj H1 H2)].
Defined.

(** ** The remap table on disk *)
Definition remap_bytes (table : list Z) : list Z :=
  le_bytes 2 (len table) ++ concat (map (le_bytes 2) table).

Lemma len_remap_bytes table : len (remap_bytes table) = 2 + 2 * len table.
Proof. unfold remap_bytes. by rewrite len_app, len_concat_le2, len_le_bytes. Qed.

Lemma encodeRemapTableInto_eq table dst :
  len table < 2 ^ 16 -> 2 + 2 * len table <= len dst ->
  encodeRemapTableInto table dst =
  (dst' ← store dst 0 (remap_bytes table); Ok (dst', 2 + 2 * len table)).
Proof.
  intros Ht Hl. pose proof (len_nonneg table). unfold encodeRemapTableInto, remapTableHeaderSize, remapTableEntrySize.
  rewrite slice_in_range by lia. cbn [mbind res_bind]. unfold remap_bytes.
  rewrite u16_id by (unfold_words; lia).
  change (put_le 2 dst 0 (len table)) with (store dst 0 (le_bytes 2 (len table))).
  rewrite <- store_store_adjacent by (rewrite ?len_concat_le2, ?len_le_bytes; lia).
  rewrite res_bind_assoc. destruct (store dst 0 (le_bytes 2 (len table))) as [d | |] eqn:Hs; simpl; [| done | done].
  assert (len d = len dst) as Hd by (unfold len; by erewrite store_length).
  rewrite put_u16_loop by lia. rewrite len_le_bytes, Z.mul_comm. done.
Qed.

Lemma lookupRemap_bytes table tail slot numKeys :
  Forall (is_u 16) table -> is_u 32 numKeys ->
  0 <= slot < numKeys + len table -> len table < 2 ^ 16 ->
  lookupRemap (remap_bytes table ++ tail) slot numKeys =
  if slot <? numKeys then Ok slot else idx table (slot - numKeys).
Proof.
  intros Hf Hk Hs Ht. unfold lookupRemap. destruct (Z.ltb_spec slot numKeys); [done |].
  rewrite u32_id by (unfold_words; lia). unfold remapTableHeaderSize, remapTableEntrySize.
  set (i := slot - numKeys). assert (0 <= i < len table) as Hi by (unfold i; lia).
  destruct (idx_in_range table i Hi) as (v & Hv & ->). pose proof (Forall_lookup_1 _ _ _ _ Hf Hv) as Hv16.
  pose proof (get_u16_at (le_bytes 2 (len table)) tail table (Z.to_nat i) v Hv Hv16) as E.
  rewrite len_le_bytes, Z2Nat.id, app_assoc in E by lia. unfold remap_bytes. change (Z.of_nat 2) with 2 in E. rewrite E.
  cbn [mbind res_bind]. rewrite u32_id; [done |]. eapply (is_u_mono 16 32); [lia | done].
Qed.

(** C29: the remap table round trip: after the builder wrote the table behind the
    pilots, the decoder's lookup maps a slot below [numKeys] to itself and the
    [i]-th overflow slot to the [i]-th table entry; bytes behind the table are
    untouched. *)
Theorem remap_roundtrip table dst :
  Forall (is_u 16) table -> len table < 2 ^ 16 -> 2 + 2 * len table <= len dst ->
  exists dst', encodeRemapTableInto table dst = Ok (dst', 2 + 2 * len table) /\
    drop (Z.to_nat (2 + 2 * len table)) dst' = drop (Z.to_nat (2 + 2 * len table)) dst /\
    forall slot numKeys, is_u 32 numKeys -> 0 <= slot < numKeys + len table ->
      lookupRemap dst' slot numKeys = if slot <? numKeys then Ok slot else idx table (slot - numKeys).
Proof.
  intros Hf Ht Hl. pose proof (len_remap_bytes table) as Hlen. pose proof (len_nonneg table).
  rewrite encodeRemapTableInto_eq, store_range by lia. cbn [mbind res_bind].
  change (Z.to_nat 0) with 0%nat. rewrite take_0, app_nil_l, Nat.add_0_l.
  assert (length (remap_bytes table) = Z.to_nat (2 + 2 * len table)) as Hn by (unfold len in *; lia).
  rewrite <- Hn. eexists. split_and!; [done | by rewrite drop_app_length |].
  intros. by apply lookupRemap_bytes.
Qed.

Lemma remap_roundtrip_witness :
  exists dst', encodeRemapTableInto [7; 65535] (make 9 7) = Ok (dst', 6) /\
    drop 6 dst' = [9] /\ lookupRemap dst' 101 100 = Ok 65535.
Proof.
  destruct (remap_roundtrip [7; 65535] (make 9 7)) as (dst' & H1 & H2 & H3);
    [repeat constructor; unfold_words; lia | by vm_compute | by vm_compute |].
  exists dst'. split_and!; [exact H1 | exact H2 |].
  rewrite (H3 101 100); [done | unfold_words; lia | by vm_compute].
Defined.
