(* ===== verification/PtrSort.v ===== *)
(** * [internal/ptrhash/counting_sort.go]: the order in which buckets are solved

    A counting sort by bucket size, largest first. The sizes are differences of
    [uint16] prefix sums, so they are right even when the sums have wrapped. *)
From stdpp Require Import sorting.
From S2P Require Import Prelude Words.
#[local] Open Scope Z_scope.

(** [int(bucketStarts[i+1] - bucketStarts[i])] *)
Definition sizeAt (bucketStarts : list Z) (i : Z) : res Z :=
  b ← idx bucketStarts (i + 1); a ← idx bucketStarts i; Ok (u16 (b - a)).

(** The slices the function writes: result, counts, positions. *)
Definition countingSortBucketsInto (bucketStarts result counts positions : list Z)
    : res (list Z * list Z * list Z) :=
  let n := len bucketStarts - 1 in
  if n <=? 0 then Ok (result, counts, positions)
  else
    maxSize ← foldM (fun maxSize i =>
                size ← sizeAt bucketStarts i;
                Ok (if maxSize <? size then size else maxSize)) 0 (range n);
    if maxSize =? 0 then
      head ← slice result 0 n;
      result ← foldM (fun result i => upd result i (u16 i)) result (range n);
      Ok (result, counts, positions)
    else
      counts ← foldM (fun counts i => upd counts i 0) counts (range (maxSize + 1));
      counts ← foldM (fun counts i =>
                 size ← sizeAt bucketStarts i;
                 c ← idx counts size;
                 upd counts size (c + 1)) counts (range n);
      st ← foldM (fun '(positions, pos) size =>
             positions ← upd positions size pos;
             c ← idx counts size;
             Ok (positions, pos + c)) (positions, 0) (reverse (range (maxSize + 1)));
      let '(positions, _) := st in
      st ← foldM (fun '(result, positions) i =>
             size ← sizeAt bucketStarts i;
             p ← idx positions size;
             result ← upd result p (u16 i);
             positions ← upd positions size (p + 1);
             Ok (result, positions)) (result, positions) (range n);
      let '(result, positions) := st in
      Ok (result, counts, positions).

(** ** Specification: groups of equal size, largest first, each in index order *)
Definition group (sz : Z -> Z) (n s : Z) : list Z := filter (fun i => sz i = s) (range n).

Definition by_size (sz : Z -> Z) (n : Z) (sizes : list Z) : list Z :=
  concat (map (group sz n) sizes).

Lemma elem_of_group sz n s i : i ∈ group sz n s <-> sz i = s /\ 0 <= i < n.
Proof. unfold group. rewrite list_elem_of_filter, elem_of_range. done. Qed.

Lemma group_succ sz n s :
  0 <= n -> group sz (n + 1) s = if decide (sz n = s) then group sz n s ++ [n] else group sz n s.
Proof.
  intros. unfold group. rewrite range_succ, filter_app by done.
  case_decide; [by rewrite filter_cons_True | by rewrite filter_cons_False, app_nil_r].
Qed.

(** Cutting a list into blocks of given lengths. *)
Lemma cut_blocks {A} (f : Z -> nat) (l : list A) keys :
  NoDup keys -> length l = sum_list_with f keys ->
  exists J, l = concat (map J keys) /\ forall s, s ∈ keys -> length (J s) = f s.
Proof.
  intros Hnd. revert l. induction Hnd as [| s keys Hs Hnd IH]; intros l Hl.
  - exists (fun _ => []). destruct l; [| done]. split; [done | set_solver].
  - simpl in Hl. destruct (IH (drop (f s) l)) as (J & HJ & Hlen).
    { rewrite length_drop. lia. }
    exists (fun t => if decide (t = s) then take (f s) l else J t). split.
    + cbn [map concat]. rewrite decide_True by done.
      rewrite <- (take_drop (f s) l) at 1. f_equal. rewrite HJ. f_equal.
      apply map_ext_in. intros t Ht%list_elem_of_In. rewrite decide_False; [done | congruence].
    + intros t Ht. case_decide as Hd; [subst; rewrite length_take; lia |]. apply Hlen. set_solver.
Qed.

Lemma length_concat_map {A} (J : Z -> list A) keys :
  length (concat (map J keys)) = sum_list_with (fun s => length (J s)) keys.
Proof. induction keys; simpl; [done |]. by rewrite length_app, IHkeys. Qed.

Lemma NoDup_split_eq {A} (a b a' b' : list A) x :
  NoDup (a ++ x :: b) -> a ++ x :: b = a' ++ x :: b' -> a = a' /\ b = b'.
Proof.
  revert a'. induction a as [| y a IH]; intros [| y' a'] Hnd He; cbn [app] in *;
    [by injection He as -> | injection He as He1 He2 ..].
  - apply NoDup_cons in Hnd as [Hni _]. exfalso. subst. set_solver.
  - apply NoDup_cons in Hnd as [Hni _]. exfalso. subst. set_solver.
  - apply NoDup_cons in Hnd as [_ Hnd]. destruct (IH _ Hnd He2) as [-> ->]. by subst.
Qed.

Section sort.
Context (bucketStarts : list Z) (n : Z).
Hypothesis Hn : len bucketStarts = n + 1.
Hypothesis Hn0 : 0 <= n.

(** The size of bucket [i]. *)
Definition sz (i : Z) : Z :=
  u16 (default 0 (bucketStarts !! Z.to_nat (i + 1)) - default 0 (bucketStarts !! Z.to_nat i)).

Lemma sizeAt_sz i : 0 <= i < n -> sizeAt bucketStarts i = Ok (sz i).
Proof using All.
  intros Hi. unfold sizeAt, sz.
  destruct (idx_in_range bucketStarts (i + 1)) as (x & -> & ->); [lia |].
  destruct (idx_in_range bucketStarts i) as (y & -> & ->); [lia |]. done.
Qed.

Lemma sz_nonneg i : 0 <= sz i.
Proof. unfold sz. apply u16_is. Qed.

Definition max_size_loop : res Z :=
  foldM (fun maxSize i => size ← sizeAt bucketStarts i;
    Ok (if maxSize <? size then size else maxSize)) 0 (range n).

Lemma max_size_spec :
  wp max_size_loop (fun m => 0 <= m /\ (forall i, 0 <= i < n -> sz i <= m) /\
    (m = 0 \/ exists i, 0 <= i < n /\ m = sz i)) no_err.
Proof using All.
  unfold max_size_loop. eapply wp_mono.
  { apply (wp_foldM_prefix (fun pre m => 0 <= m /\ (forall i, i ∈ pre -> sz i <= m) /\
      (m = 0 \/ exists i, 0 <= i < n /\ m = sz i))).
    - split_and!; [lia | set_solver | by left].
    - intros pre i post m Hr (Hm & Hall & Hw). apply range_prefix in Hr as [_ Hi].
      rewrite sizeAt_sz by done. simpl. destruct (Z.ltb_spec m (sz i)).
      + split_and!; [lia | | right; eauto]. intros j Hj. rewrite elem_of_app, list_elem_of_singleton in Hj.
        destruct Hj as [Hj | ->]; [specialize (Hall j Hj) |]; lia.
      + split_and!; [lia | | done]. intros j Hj. rewrite elem_of_app, list_elem_of_singleton in Hj.
        destruct Hj as [Hj | ->]; [by apply Hall | lia]. }
  - intros m (Hm & Hall & Hw). split_and!; [done | | done]. intros i Hi. apply Hall.
    by apply elem_of_range.
  - done.
Qed.

(** The sizes in the order the positions are laid out. *)
Definition desc (m : Z) : list Z := reverse (range (m + 1)).

Lemma elem_of_desc m s : s ∈ desc m <-> 0 <= s <= m.
Proof. unfold desc. rewrite elem_of_reverse, elem_of_range. lia. Qed.

Lemma NoDup_desc m : NoDup (desc m).
Proof. unfold desc. rewrite reverse_Permutation. apply NoDup_range. Qed.

Definition counts_loop (counts : list Z) : res (list Z) :=
  foldM (fun counts i => size ← sizeAt bucketStarts i; c ← idx counts size; upd counts size (c + 1))
    counts (range n).

Definition positions_loop (counts positions : list Z) (m : Z) : res (list Z * Z) :=
  foldM (fun '(positions, pos) size =>
    positions ← upd positions size pos; c ← idx counts size; Ok (positions, pos + c))
    (positions, 0) (desc m).

Definition place_loop (result positions : list Z) : res (list Z * list Z) :=
  foldM (fun '(result, positions) i =>
    size ← sizeAt bucketStarts i; p ← idx positions size;
    result ← upd result p (u16 i); positions ← upd positions size (p + 1);
    Ok (result, positions)) (result, positions) (range n).

Lemma clear_spec (m : Z) counts :
  0 <= m < len counts ->
  wp (foldM (fun counts i => upd counts i 0) counts (range (m + 1)))
    (fun c => len c = len counts /\ forall s, 0 <= s <= m -> c !! Z.to_nat s = Some 0) no_err.
Proof.
  clear Hn Hn0. intros Hm. eapply wp_mono.
  { apply (wp_foldM_prefix (fun pre c => len c = len counts /\
      forall s, s ∈ pre -> c !! Z.to_nat s = Some 0)); [set_solver |].
    intros pre i post c Hr [Hl Hc]. apply range_prefix in Hr as [_ Hi].
    apply wp_upd; [lia |]. rewrite len_insert. split; [done |].
    intros s [Hs | ->%list_elem_of_singleton]%elem_of_app.
    - destruct (decide (Z.to_nat s = Z.to_nat i)) as [-> |].
      + apply list_lookup_insert_eq. unfold len in *. lia.
      + rewrite list_lookup_insert_ne by done. by apply Hc.
    - apply list_lookup_insert_eq. unfold len in *. lia. }
  - intros c [Hl Hc]. split; [done |]. intros s Hs. apply Hc, elem_of_range. lia.
  - done.
Qed.

Lemma counts_spec m counts :
  0 <= m < len counts -> (forall i, 0 <= i < n -> sz i <= m) ->
  (forall s, 0 <= s <= m -> counts !! Z.to_nat s = Some 0) ->
  wp (counts_loop counts) (fun c => len c = len counts /\
    forall s, 0 <= s <= m -> c !! Z.to_nat s = Some (len (group sz n s))) no_err.
Proof using All.
  intros Hm Hall H0. unfold counts_loop. eapply wp_mono.
  { apply (wp_foldM_prefix (fun pre c => len c = len counts /\
      forall s, 0 <= s <= m -> c !! Z.to_nat s = Some (len (group sz (len pre) s)))).
    - split; [done |]. intros s Hs. rewrite H0 by done. done.
    - intros pre i post c Hr [Hl Hc]. apply range_prefix in Hr as [Hpre Hi]. subst i.
      rewrite sizeAt_sz by done. cbn [mbind res_bind].
      pose proof (sz_nonneg (len pre)). specialize (Hall (len pre) Hi).
      unfold idx. destruct (Z.ltb_spec (sz (len pre)) 0); [lia |].
      rewrite Hc by lia. cbn [mbind res_bind]. apply wp_upd; [lia |].
      rewrite len_insert. split; [done |]. intros s Hs. rewrite len_app, len_single.
      rewrite group_succ by lia. case_decide as Hd.
      + rewrite Hd, list_lookup_insert_eq by (unfold len in *; lia). by rewrite len_app, len_single.
      + rewrite list_lookup_insert_ne by lia. by apply Hc. }
  - intros c [Hl Hc]. split; [done |]. intros s Hs. rewrite Hc by done.
    unfold len at 2. rewrite length_range, Z2Nat.id by lia. done.
  - done.
Qed.

Lemma positions_spec m counts positions :
  0 <= m < len counts -> m < len positions ->
  (forall s, 0 <= s <= m -> counts !! Z.to_nat s = Some (len (group sz n s))) ->
  wp (positions_loop counts positions m) (fun '(p, _) => len p = len positions /\
    forall a s b, desc m = a ++ s :: b -> p !! Z.to_nat s = Some (len (by_size sz n a))) no_err.
Proof.
  clear Hn Hn0. intros Hm Hp Hc. unfold positions_loop. eapply wp_mono.
  { apply (wp_foldM_prefix (fun pre '(p, pos) => len p = len positions /\
      pos = len (by_size sz n pre) /\
      forall a s b, pre = a ++ s :: b -> p !! Z.to_nat s = Some (len (by_size sz n a)))).
    - split_and!; [done | done |]. intros [] ? ?; done.
    - intros pre s post [p pos] Hr (Hl & Hpos & Hall).
      assert (0 <= s <= m) as Hs by (apply elem_of_desc; rewrite Hr; set_solver).
      pose proof (NoDup_desc m) as Hnd. rewrite Hr in Hnd.
      rewrite upd_in_range by lia. cbn [mbind res_bind].
      unfold idx. destruct (Z.ltb_spec s 0); [lia |]. rewrite Hc by done. cbn [mbind res_bind wp].
      rewrite len_insert. split_and!; [done | |].
      + unfold by_size. rewrite map_app, concat_app, len_app. cbn [map concat].
        rewrite app_nil_r. unfold by_size in Hpos. lia.
      + intros a t b Hab. destruct (decide (t = s)) as [-> |].
        * rewrite list_lookup_insert_eq by (unfold len in *; lia). rewrite Hpos. do 2 f_equal.
          destruct (NoDup_split_eq pre [] a b s) as [-> _]; [| done | done].
          apply NoDup_app in Hnd as (H1 & H2 & _). apply NoDup_app. split_and!; [done | |].
          -- intros x Hx. specialize (H2 x Hx). set_solver.
          -- apply NoDup_singleton.
        * destruct b as [| y b _] using rev_ind.
          { apply app_inj_tail in Hab as [_ ?]. congruence. }
          rewrite app_comm_cons, app_assoc in Hab. apply app_inj_tail in Hab as [Hab _].
          assert (t ∈ desc m) as Ht by (rewrite Hr, Hab; set_solver).
          apply elem_of_desc in Ht. rewrite list_lookup_insert_ne by lia. by eapply Hall. }
  - intros [p pos] (Hl & _ & Hall). done.
  - done.
Qed.

(** While placing, every block holds the members seen so far, then leftovers. *)
Definition blocks (k : Z) (J : Z -> list Z) (sizes : list Z) : list Z :=
  concat (map (fun s => group sz k s ++ J s) sizes).

Lemma len_blocks k J sizes :
  (forall s, s ∈ sizes -> len (group sz k s) + len (J s) = len (group sz n s)) ->
  len (blocks k J sizes) = len (by_size sz n sizes).
Proof.
  clear Hn Hn0. unfold blocks, by_size. induction sizes as [| s sizes IH]; intros Hl; [done |].
  cbn [map concat]. rewrite !len_app, IH by set_solver. rewrite <- Hl by set_solver. lia.
Qed.

Lemma blocks_ext k J k' J' sizes :
  (forall s, s ∈ sizes -> group sz k s ++ J s = group sz k' s ++ J' s) ->
  blocks k J sizes = blocks k' J' sizes.
Proof.
  clear Hn Hn0. intros He. unfold blocks. f_equal. apply map_ext_in.
  intros s Hs%list_elem_of_In. by apply He.
Qed.

Lemma by_size_permutation m :
  (forall i, 0 <= i < n -> sz i <= m) -> by_size sz n (desc m) ≡ₚ range n.
Proof.
  clear Hn Hn0. intros Hall. unfold by_size, group. apply by_key_permutation; [apply NoDup_desc |].
  intros i Hi%elem_of_range. apply elem_of_desc. pose proof (sz_nonneg i). split; [done | auto].
Qed.

Definition place_inv (m : Z) (result positions : list Z) (k : Z) (r p : list Z) : Prop :=
  len p = len positions /\
  exists J, r = blocks k J (desc m) ++ drop (Z.to_nat n) result /\
    (forall s, s ∈ desc m -> len (group sz k s) + len (J s) = len (group sz n s)) /\
    forall a s b, desc m = a ++ s :: b ->
      p !! Z.to_nat s = Some (len (by_size sz n a) + len (group sz k s)).

Lemma place_step m result positions k r p :
  0 <= k < n -> n <= 2 ^ 16 -> sz k <= m -> m < len positions ->
  place_inv m result positions k r p ->
  exists q r' p', idx p (sz k) = Ok q /\ upd r q (u16 k) = Ok r' /\ upd p (sz k) (q + 1) = Ok p' /\
    place_inv m result positions (k + 1) r' p'.
Proof.
  clear Hn Hn0. intros Hk Hn16 Hsz Hm (Hlp & J & -> & HJ & Hp). pose proof (sz_nonneg k) as Hsz0.
  assert (sz k ∈ desc m) as Hin by (apply elem_of_desc; lia).
  apply list_elem_of_split in Hin as (a & b & Hab). pose proof (NoDup_desc m) as Hnd.
  assert (forall s, s ∈ a \/ s ∈ b -> s <> sz k) as Hne.
  { rewrite Hab in Hnd. apply NoDup_app in Hnd as (_ & H2 & [H3 _]%NoDup_cons). set_solver. }
  assert (exists y ys, J (sz k) = y :: ys) as (y & ys & HJy).
  { specialize (HJ (sz k) ltac:(rewrite Hab; set_solver)).
    destruct (J (sz k)) eqn:HJs; [| eauto]. exfalso.
    assert (group sz (k + 1) (sz k) = group sz k (sz k) ++ [k]) as Hg
      by (rewrite group_succ by lia; by rewrite decide_True).
    assert (group sz (k + 1) (sz k) `prefix_of` group sz n (sz k)) as Hpre.
    { unfold group, range. replace n with ((k + 1) + (n - (k + 1))) by lia.
      rewrite (seqZ_app 0 (k + 1)) by lia. rewrite filter_app. by exists (filter (fun i => sz i = sz k) (seqZ (0 + (k + 1)) (n - (k + 1)))). }
    apply prefix_length in Hpre. rewrite Hg, length_app in Hpre. unfold len in HJ. simpl in *. lia. }
  set (q := len (by_size sz n a) + len (group sz k (sz k))).
  assert (idx p (sz k) = Ok q) as Hq by (apply idx_ok; split; [lia | by eapply Hp]).
  assert (len (blocks k J a) = len (by_size sz n a)) as Hla.
  { apply len_blocks. intros s Hs. apply HJ. rewrite Hab. set_solver. }
  set (J' := fun t => if decide (t = sz k) then ys else J t).
  exists q, (blocks (k + 1) J' (desc m) ++ drop (Z.to_nat n) result), (<[Z.to_nat (sz k) := q + 1]> p).
  split_and!; [done | | apply upd_in_range; lia |].
  - rewrite Hab. unfold blocks. rewrite !map_app, !concat_app. cbn [map concat].
    change (concat (map ?f a)) with (blocks k J a) at 1. rewrite HJy.
    change (concat (map (fun s => group sz k s ++ J s) b)) with (blocks k J b).
    change (concat (map (fun s => group sz (k + 1) s ++ J' s) a)) with (blocks (k + 1) J' a).
    change (concat (map (fun s => group sz (k + 1) s ++ J' s) b)) with (blocks (k + 1) J' b).
    assert (forall c, (forall s, s ∈ c -> s <> sz k) -> blocks (k + 1) J' c = blocks k J c) as Hsame.
    { intros c Hc. apply blocks_ext. intros s Hs. specialize (Hc s Hs). unfold J'.
      rewrite decide_False, group_succ, decide_False by (done || lia || congruence). done. }
    rewrite !Hsame by (intros; apply Hne; tauto). unfold J'. rewrite decide_True by done.
    rewrite group_succ, decide_True by (done || lia).
    rewrite u16_id by (unfold_words; lia).
    replace q with (len (blocks k J a ++ group sz k (sz k))) by (rewrite len_app, Hla; done).
    rewrite <- !app_assoc. cbn [app]. rewrite !(app_assoc (blocks k J a)). apply upd_middle.
  - split; [by rewrite len_insert |]. exists J'. split; [done |]. split.
    + intros s Hs. unfold J'. rewrite group_succ by lia. case_decide as Hd.
      * subst s. rewrite decide_True by done. specialize (HJ _ Hs). rewrite HJy, len_cons in HJ.
        rewrite len_app, len_single. lia.
      * rewrite decide_False by congruence. by apply HJ.
    + intros a' s b' Hs. rewrite group_succ by lia. case_decide as Hd.
      * subst s. rewrite list_lookup_insert_eq by (unfold len in *; lia).
        rewrite Hab in Hnd, Hs. destruct (NoDup_split_eq _ _ _ _ _ Hnd Hs) as [-> _].
        rewrite len_app, len_single. unfold q. f_equal. lia.
      * assert (s ∈ desc m) as [? ?]%elem_of_desc by (rewrite Hs; set_solver).
        rewrite list_lookup_insert_ne by lia. by eapply Hp.
Qed.

Lemma place_spec m result positions :
  n <= 2 ^ 16 -> n <= len result -> m < len positions -> (forall i, 0 <= i < n -> sz i <= m) ->
  (forall a s b, desc m = a ++ s :: b -> positions !! Z.to_nat s = Some (len (by_size sz n a))) ->
  wp (place_loop result positions) (fun '(r, p) => len p = len positions /\
    r = by_size sz n (desc m) ++ drop (Z.to_nat n) result) no_err.
Proof using All.
  intros Hn16 Hr Hm Hall Hp. unfold place_loop.
  assert (Hgn : forall s, group sz 0 s = []) by done.
  eapply wp_mono.
  { apply (wp_foldM_prefix (fun pre '(r, p) => place_inv m result positions (len pre) r p)).
    - split; [done |].
      destruct (cut_blocks (fun s => length (group sz n s)) (take (Z.to_nat n) result) (desc m))
        as (J & HJ & Hlen); [apply NoDup_desc | |].
      { rewrite length_take, <- length_concat_map.
        change (concat _) with (by_size sz n (desc m)).
        rewrite (Permutation_length (by_size_permutation m Hall)), length_range.
        unfold len in Hr. lia. }
      exists J. split_and!.
      + rewrite <- (take_drop (Z.to_nat n) result) at 1. f_equal. rewrite HJ. unfold blocks. f_equal.
      + intros s Hs. rewrite Hgn. unfold len at 2 3. rewrite Hlen by done. done.
      + intros a s b Hs. rewrite Hgn. erewrite Hp by done. f_equal. unfold len at 3. simpl. lia.
    - intros pre k post [r p] Hk Hinv. apply range_prefix in Hk as [-> Hk].
      rewrite sizeAt_sz by done. cbn [mbind res_bind].
      destruct (place_step m result positions (len pre) r p) as (q & r' & p' & Hq & Hr' & Hp' & Hinv');
        [done | done | by apply Hall | done | done |].
      rewrite Hq. cbn [mbind res_bind]. rewrite Hr'. cbn [mbind res_bind]. rewrite Hp'. simpl.
      by rewrite len_app, len_single. }
  - intros [r p] (Hl & J & -> & HJ & _). split; [done |]. f_equal.
    assert (len (range n) = n) as Hn' by (unfold len; rewrite length_range; lia).
    rewrite Hn' in *. unfold by_size, blocks. f_equal. apply map_ext_in.
    intros s Hs%list_elem_of_In. specialize (HJ s Hs). destruct (J s); [by rewrite app_nil_r |].
    rewrite len_cons in HJ. pose proof (len_nonneg l). lia.
  - done.
Qed.

(** Larger buckets come first; equal sizes keep their index order. *)
Definition before (i j : Z) : Prop := sz j < sz i \/ sz i = sz j /\ i < j.

Lemma by_size_sorted m : 0 <= m -> StronglySorted before (by_size sz n (desc m)).
Proof using All.
  intros Hm0.
  assert (forall s, StronglySorted before (group sz n s)) as Hg.
  { intros s. unfold group, before.
    enough (forall k : nat, StronglySorted (fun i j => sz j < sz i \/ sz i = sz j /\ i < j)
      (filter (fun i => sz i = s) (range (Z.of_nat k)))) as H
      by (specialize (H (Z.to_nat n)); by rewrite Z2Nat.id in H).
    induction k as [| k IH]; [constructor |].
    rewrite Nat2Z.inj_succ, <- Z.add_1_r, range_succ, filter_app by lia.
    apply StronglySorted_app. split_and!; [| done |].
    - intros x y [Hx Hxr%elem_of_range]%list_elem_of_filter [Hy Hyr%list_elem_of_singleton]%list_elem_of_filter.
      right. split; [congruence | lia].
    - destruct (decide (sz (Z.of_nat k) = s)).
      + rewrite filter_cons_True by done. repeat constructor.
      + rewrite filter_cons_False by done. constructor. }
  assert (forall k : nat, StronglySorted before (by_size sz n (desc (Z.of_nat k)))) as H.
  { assert (forall m, 0 <= m -> desc m = m :: desc (m - 1)) as Hd.
    { intros m' Hm'. unfold desc. rewrite range_succ, reverse_app by done.
      replace (m' - 1 + 1) with m' by lia. done. }
    induction k as [| k IH].
    - rewrite Hd by lia. change (desc (Z.of_nat 0 - 1)) with (@nil Z). unfold by_size. simpl.
      rewrite app_nil_r. apply Hg.
    - rewrite Hd by lia. replace (Z.of_nat (S k) - 1) with (Z.of_nat k) by lia.
      unfold by_size. cbn [map concat]. apply StronglySorted_app. split_and!; [| apply Hg | done].
      intros x y [Hx _]%elem_of_group Hy. left.
      apply list_elem_of_In, in_concat in Hy as (g & Hg' & Hy).
      apply in_map_iff in Hg' as (s & <- & Hs). apply list_elem_of_In, elem_of_desc in Hs.
      apply list_elem_of_In, elem_of_group in Hy as [Hy _]. lia. }
  specialize (H (Z.to_nat m)). by rewrite Z2Nat.id in H.
Qed.

Lemma countingSort_spec result counts positions :
  n <= 2 ^ 16 -> n <= len result ->
  (forall i, 0 <= i < n -> sz i < len counts) -> len counts = len positions ->
  exists result' counts' positions' m,
    countingSortBucketsInto bucketStarts result counts positions = Ok (result', counts', positions') /\
    len counts' = len counts /\ len positions' = len positions /\
    0 <= m /\ (forall i, 0 <= i < n -> sz i <= m) /\
    result' = by_size sz n (desc m) ++ drop (Z.to_nat n) result.
Proof using All.
  intros Hn16 Hr Hc Hcp. unfold countingSortBucketsInto. rewrite Hn.
  replace (n + 1 - 1) with n by lia.
  destruct (Z.leb_spec n 0) as [H0 |].
  { replace n with 0 by lia. exists result, counts, positions, 0.
    split_and!; [done | done | done | lia | lia | done]. }
  destruct (wp_total _ _ max_size_spec) as (m & Hmax & Hm0 & Hall & Hm).
  unfold max_size_loop in Hmax. rewrite Hmax. cbn [mbind res_bind].
  assert (0 <= m < len counts) as Hmc.
  { split; [done |]. destruct Hm as [-> | (i & Hi & ->)]; [| by apply Hc].
    specialize (Hc 0 ltac:(lia)). pose proof (sz_nonneg 0). lia. }
  destruct (Z.eqb_spec m 0) as [-> |].
  { rewrite slice_in_range by lia. cbn [mbind res_bind].
    assert (Hident : wp (foldM (fun result i => upd result i (u16 i)) result (range n))
      (fun r => r = range n ++ drop (Z.to_nat n) result) no_err).
    { eapply wp_mono.
      { apply (wp_foldM_prefix (fun pre r => r = pre ++ drop (length pre) result)); [done |].
        intros pre i post r Hpre ->. pose proof (range_prefix _ _ _ _ Hpre) as [-> Hi].
        rewrite (drop_S result (default 0 (result !! length pre)) (length pre)).
        2:{ destruct (lookup_lt_is_Some_2 result (length pre)) as [x ->]; [unfold len in *; lia | done]. }
        rewrite upd_middle, u16_id by (unfold_words; lia).
        simpl. rewrite <- app_assoc, length_app, Nat.add_1_r. done. }
      - intros r ->. by rewrite length_range.
      - done. }
    destruct (wp_total _ _ Hident) as (r & -> & ->). simpl.
    eexists _, _, _, 0. split_and!; [done .. |]. f_equal.
    unfold by_size. change (desc 0) with [0]. simpl. rewrite app_nil_r. unfold group.
    symmetry. apply filter_all_id. intros i Hi%elem_of_range.
    specialize (Hall i Hi). pose proof (sz_nonneg i). lia. }
  destruct (wp_total _ _ (clear_spec m counts Hmc)) as (c1 & Hc1 & Hl1 & Hz1).
  rewrite Hc1. cbn [mbind res_bind].
  destruct (wp_total _ _ (counts_spec m c1 ltac:(lia) Hall Hz1)) as (c2 & Hc2 & Hl2 & Hz2).
  unfold counts_loop in Hc2. rewrite Hc2. cbn [mbind res_bind].
  destruct (wp_total _ _ (positions_spec m c2 positions ltac:(lia) ltac:(lia) Hz2))
    as ([p1 pos] & Hp1 & Hlp1 & Hz3).
  unfold positions_loop in Hp1. fold (desc m). rewrite Hp1. cbn [mbind res_bind].
  destruct (wp_total _ _ (place_spec m result p1 ltac:(lia) Hr ltac:(lia) Hall Hz3))
    as ([r2 p2] & Hp2 & Hlp2 & ->).
  unfold place_loop in Hp2. rewrite Hp2. cbn [mbind res_bind].
  eexists _, _, _, m. split_and!; [done | congruence | congruence | done | done | done].
Qed.
End sort.

(** C24: the counting sort visits every bucket exactly once, largest first and
    in index order within a size, and touches nothing beyond the [n] results;
    it never indexes out of range, even when the [uint16] prefix sums wrapped. *)
Theorem countingSort_correct bucketStarts n result counts positions :
  len bucketStarts = n + 1 -> 0 <= n <= 2 ^ 16 -> n <= len result ->
  (forall i, 0 <= i < n -> sz bucketStarts i < len counts) -> len counts = len positions ->
  exists order counts' positions',
    countingSortBucketsInto bucketStarts result counts positions =
      Ok (order ++ drop (Z.to_nat n) result, counts', positions') /\
    order ≡ₚ range n /\ StronglySorted (before bucketStarts) order.
Proof.
  intros Hn Hn0 Hr Hc Hcp.
  destruct (countingSort_spec bucketStarts n Hn ltac:(lia) result counts positions)
    as (r & c & p & m & He & _ & _ & Hm & Hall & ->); [lia | done .. |].
  eexists _, _, _. split_and!; [exact He | by apply by_size_permutation |].
  apply by_size_sorted; lia || done.
Qed.

Lemma countingSort_correct_witness :
  exists order counts' positions',
    countingSortBucketsInto [65534; 0; 1; 1; 4] [9; 9; 9; 9; 9] [7; 7; 7; 7] [8; 8; 8; 8] =
      Ok (order ++ [9], counts', positions') /\
    order ≡ₚ range 4 /\ StronglySorted (before [65534; 0; 1; 1; 4]) order.
Proof.
  apply (countingSort_correct [65534; 0; 1; 1; 4] 4); [done | lia | by vm_compute | | done].
  intros i Hi. assert (i = 0 \/ i = 1 \/ i = 2 \/ i = 3) as [-> | [-> | [-> | ->]]] by lia;
    by vm_compute.
Defined.

Example countingSort_example :
  countingSortBucketsInto [65534; 0; 1; 1; 4] [9; 9; 9; 9; 9] [7; 7; 7; 7] [8; 8; 8; 8] =
    Ok ([3; 0; 1; 2; 9], [1; 1; 1; 1], [4; 3; 2; 1]).
Proof. by vm_compute. Qed.
