(* ===== verification/PtrHeap.v ===== *)
(** * [internal/ptrhash/heap.go]: the max-heap of evicted buckets

    An array heap in two parallel slices, ordered by size (largest first) and
    then by bucket index, which makes the eviction order deterministic. *)
From S2P Require Import Prelude Words.
#[local] Open Scope Z_scope.

Record bucketHeap := mk_heap { indices : list Z; sizes : list Z }.

Definition newBucketHeap : bucketHeap := mk_heap [] [].

Definition clear (h : bucketHeap) : bucketHeap := mk_heap [] [].

Definition heap_len (h : bucketHeap) : Z := len (indices h).

Definition swap_at (l : list Z) (i j : Z) : res (list Z) :=
  x ← idx l i; y ← idx l j; l ← upd l i y; upd l j x.

Definition swap (h : bucketHeap) (i j : Z) : res bucketHeap :=
  ix ← swap_at (indices h) i j; sx ← swap_at (sizes h) i j; Ok (mk_heap ix sx).

Definition less (h : bucketHeap) (i j : Z) : res bool :=
  si ← idx (sizes h) i; sj ← idx (sizes h) j;
  if negb (si =? sj) then Ok (sj <? si)
  else ii ← idx (indices h) i; ij ← idx (indices h) j; Ok (ii <? ij).

(** The loops of [up] and [down] with fuel; running out of fuel is [Panic], and
    [push_spec] and [pop_spec] show that the fuel given is enough. *)
Fixpoint up (fuel : nat) (h : bucketHeap) (j : Z) : res bucketHeap :=
  match fuel with
  | O => Panic
  | S fuel =>
      let i := Z.quot (j - 1) 2 in
      if i =? j then Ok h
      else
        b ← less h j i;
        if negb b then Ok h
        else h ← swap h i j; up fuel h i
  end.

Fixpoint down (fuel : nat) (h : bucketHeap) (i n : Z) : res bucketHeap :=
  match fuel with
  | O => Panic
  | S fuel =>
      let j1 := 2 * i + 1 in
      if (n <=? j1) || (j1 <? 0) then Ok h
      else
        let j2 := j1 + 1 in
        r ← (if j2 <? n then less h j2 j1 else Ok false);
        let j := if (r : bool) then j2 else j1 in
        b ← less h j i;
        if negb b then Ok h
        else h ← swap h i j; down fuel h j n
  end.

Definition push (h : bucketHeap) (i size : Z) : res bucketHeap :=
  let h := mk_heap (indices h ++ [u16 i]) (sizes h ++ [u16 size]) in
  up (length (indices h)) h (heap_len h - 1).

Definition pop (h : bucketHeap) : res (Z * Z * bucketHeap) :=
  let n := heap_len h - 1 in
  h ← swap h 0 n;
  h ← down (length (indices h)) h 0 n;
  i ← idx (indices h) n;
  size ← idx (sizes h) n;
  ix ← slice (indices h) 0 n;
  sx ← slice (sizes h) 0 n;
  Ok (i, size, mk_heap ix sx).

(** ** The heap as a list of (size, index) pairs *)
Definition elems (h : bucketHeap) : list (Z * Z) := zip (sizes h) (indices h).
Definition good (h : bucketHeap) : Prop := length (indices h) = length (sizes h).

(** [x] may stand above [y]. *)
Definition above (x y : Z * Z) : Prop := y.1 < x.1 \/ (x.1 = y.1 /\ x.2 <= y.2).

Lemma above_refl x : above x x.
Proof. unfold above. lia. Qed.
Lemma above_trans x y z : above x y -> above y z -> above x z.
Proof. unfold above. lia. Qed.
Lemma above_antisym x y : above x y -> above y x -> x = y.
Proof. destruct x, y. unfold above. simpl. intros. f_equal; lia. Qed.
#[local] Hint Resolve above_refl above_trans : core.

Definition par (k : nat) : nat := (k - 1) / 2.

Lemma par_lt k : (0 < k)%nat -> (par k < k)%nat.
Proof. intros. unfold par. apply Nat.Div0.div_lt_upper_bound. lia. Qed.

(** Heap order on the first [n] elements. *)
Definition heap_upto (n : nat) (l : list (Z * Z)) : Prop :=
  forall k x y, (0 < k < n)%nat -> l !! k = Some x -> l !! par k = Some y -> above y x.

Definition heap_ok (l : list (Z * Z)) : Prop := heap_upto (length l) l.

Lemma heap_top n l x : heap_upto n l -> l !! 0%nat = Some x ->
  forall k y, (k < n)%nat -> l !! k = Some y -> above x y.
Proof.
  intros Hh Hx k. induction (lt_wf k) as [k _ IH]. intros y Hk Hy.
  destruct (decide (k = 0%nat)) as [-> |]; [by simplify_eq |].
  pose proof (par_lt k ltac:(lia)).
  destruct (lookup_lt_is_Some_2 l (par k)) as [z Hz].
  { apply lookup_lt_Some in Hy. lia. }
  eapply above_trans; [eapply (IH (par k)); [lia | lia | done] | eapply Hh; [| done ..]; lia].
Qed.

Definition swapped {A} (l : list A) (i j : nat) (x y : A) : list A := <[j := x]> (<[i := y]> l).

Lemma swapped_perm {A} (l : list A) i j x y :
  l !! i = Some x -> l !! j = Some y -> swapped l i j x y ≡ₚ l.
Proof.
  intros Hi Hj. unfold swapped. pose proof (lookup_lt_Some _ _ _ Hi). pose proof (lookup_lt_Some _ _ _ Hj).
  destruct (decide (i = j)) as [-> |].
  { simplify_eq. by rewrite list_insert_insert_eq, list_insert_id. }
  apply Permutation_inj. split; [by rewrite !length_insert |].
  exists (fun k => if decide (k = i) then j else if decide (k = j) then i else k). split.
  - intros a b. repeat case_decide; congruence.
  - intros k. destruct (decide (k = j)) as [-> |]; [| destruct (decide (k = i)) as [-> |]].
    + rewrite list_lookup_insert_eq by (rewrite length_insert; lia).
      repeat case_decide; congruence.
    + rewrite list_lookup_insert_ne, list_lookup_insert_eq by (done || lia).
      repeat case_decide; congruence.
    + rewrite !list_lookup_insert_ne by done. repeat case_decide; congruence.
Qed.

Lemma swapped_lookup {A} (l : list A) i j x y k :
  l !! i = Some x -> l !! j = Some y ->
  swapped l i j x y !! k = if decide (k = j) then Some x else if decide (k = i) then Some y else l !! k.
Proof.
  intros Hi%lookup_lt_Some Hj%lookup_lt_Some. unfold swapped. repeat case_decide; subst.
  - by rewrite list_lookup_insert_eq by (rewrite length_insert; lia).
  - by rewrite list_lookup_insert_ne, list_lookup_insert_eq by (done || lia).
  - by rewrite !list_lookup_insert_ne by done.
Qed.

(** ** The operations on the pairs *)
Lemma elems_lookup h k x :
  elems h !! k = Some x <-> sizes h !! k = Some x.1 /\ indices h !! k = Some x.2.
Proof.
  unfold elems. rewrite lookup_zip_with. destruct (sizes h !! k), (indices h !! k); simpl;
    destruct x; split; naive_solver.
Qed.

Lemma elems_length h : good h -> length (elems h) = length (indices h).
Proof. unfold good, elems. intros Hg. rewrite length_zip_with. lia. Qed.

Lemma elems_lt h k : good h -> (k < length (indices h))%nat -> is_Some (elems h !! k).
Proof. intros Hg Hk. apply lookup_lt_is_Some_2. by rewrite elems_length. Qed.

Lemma swap_at_eq (l : list Z) (i j : nat) x y :
  l !! i = Some x -> l !! j = Some y ->
  swap_at l (Z.of_nat i) (Z.of_nat j) = Ok (swapped l i j x y).
Proof.
  intros Hi Hj. unfold swap_at. rewrite (idx_nat _ _ _ Hi), (idx_nat _ _ _ Hj).
  cbn [mbind res_bind]. apply lookup_lt_Some in Hi, Hj.
  rewrite upd_in_range by (unfold len; lia). cbn [mbind res_bind].
  rewrite upd_in_range by (unfold len; rewrite length_insert; lia). by rewrite !Nat2Z.id.
Qed.

Lemma swap_elems h (i j : nat) x y :
  good h -> elems h !! i = Some x -> elems h !! j = Some y ->
  exists h', swap h (Z.of_nat i) (Z.of_nat j) = Ok h' /\ good h' /\
    elems h' = swapped (elems h) i j x y.
Proof.
  intros Hg [Hi1 Hi2]%elems_lookup [Hj1 Hj2]%elems_lookup. unfold swap.
  rewrite (swap_at_eq _ _ _ _ _ Hi2 Hj2), (swap_at_eq _ _ _ _ _ Hi1 Hj1). cbn [mbind res_bind].
  eexists. split; [done |]. split.
  - unfold good, swapped in *. simpl. by rewrite !length_insert.
  - unfold elems, swapped. simpl. rewrite <- !insert_zip_with. by destruct x, y.
Qed.

Lemma less_elems h (i j : nat) x y :
  elems h !! i = Some x -> elems h !! j = Some y ->
  exists b, less h (Z.of_nat i) (Z.of_nat j) = Ok b /\
    (b = false -> above y x) /\ (b = true -> above x y).
Proof.
  intros [Hi1 Hi2]%elems_lookup [Hj1 Hj2]%elems_lookup. unfold less, above.
  rewrite (idx_nat _ _ _ Hi1), (idx_nat _ _ _ Hj1), (idx_nat _ _ _ Hi2), (idx_nat _ _ _ Hj2).
  cbn [mbind res_bind]. destruct (Z.eqb_spec x.1 y.1); simpl; eexists; (split; [done |]).
  - destruct (Z.ltb_spec x.2 y.2); (split; intros; [try done | try done]); lia.
  - destruct (Z.ltb_spec y.1 x.1); (split; intros; [try done | try done]); lia.
Qed.

(** ** Sifting up *)
Definition up_inv (j : nat) (l : list (Z * Z)) : Prop :=
  (forall k x y, (0 < k)%nat -> k <> j -> l !! k = Some x -> l !! par k = Some y -> above y x) /\
  (forall k x y, (0 < k)%nat -> (0 < j)%nat -> par k = j ->
     l !! k = Some x -> l !! par j = Some y -> above y x).

Lemma up_inv_step j l x y :
  (0 < j)%nat -> up_inv j l -> l !! par j = Some y -> l !! j = Some x -> above x y ->
  up_inv (par j) (swapped l (par j) j y x).
Proof.
  intros Hj [H1 H2] Hy Hx Hxy. pose proof (par_lt j Hj).
  split; intros k a b Hk; [intros Hne | intros Hp0 Hpk];
    rewrite !(swapped_lookup _ _ _ _ _ _ Hy Hx); intros Ha Hb.
  - pose proof (par_lt k Hk). repeat case_decide; simplify_eq; try lia; eauto.
    eapply above_trans; [exact Hxy |]. eapply (H1 k); [done | done | done | congruence].
  - pose proof (par_lt k Hk). pose proof (par_lt (par j) Hp0).
    repeat case_decide; simplify_eq; try lia; eauto.
    eapply above_trans; [eapply (H1 (par j)); [done | lia | done | done] |].
      eapply (H1 k); [done | done | done | congruence].
Qed.

Lemma up_inv_done j l : up_inv j l ->
  (forall x y, (0 < j)%nat -> l !! j = Some x -> l !! par j = Some y -> above y x) -> heap_ok l.
Proof.
  intros [H1 _] Hj k x y [Hk _] Hx Hy.
  destruct (decide (k = j)) as [-> |]; [by eapply Hj | by eapply H1].
Qed.

Lemma quot_par (j : nat) : Z.quot (Z.of_nat j - 1) 2 = Z.of_nat (par j).
Proof.
  unfold par. destruct j as [| j]; [done |].
  rewrite Z.quot_div_nonneg by lia. replace (S j - 1)%nat with j by lia.
  rewrite Nat2Z.inj_div. f_equal. lia.
Qed.

Lemma up_spec (fuel j : nat) h :
  good h -> (j < length (indices h))%nat -> (j < fuel)%nat -> up_inv j (elems h) ->
  wp (up fuel h (Z.of_nat j)) (fun h' => good h' /\ elems h' ≡ₚ elems h /\ heap_ok (elems h')) no_err.
Proof.
  revert j h. induction fuel as [| fuel IH]; intros j h Hg Hj Hf Hinv; [lia |].
  cbn [up]. rewrite quot_par. destruct (Z.eqb_spec (Z.of_nat (par j)) (Z.of_nat j)) as [He | Hne].
  - split_and!; [done | done |]. eapply up_inv_done; [done |]. intros x y Hj0.
    pose proof (par_lt j Hj0). lia.
  - assert (0 < j)%nat as Hj0 by (destruct j; [by vm_compute in Hne | lia]).
    pose proof (par_lt j Hj0).
    destruct (elems_lt h j Hg Hj) as [x Hx]. destruct (elems_lt h (par j) Hg ltac:(lia)) as [y Hy].
    destruct (less_elems h j (par j) x y Hx Hy) as (b & -> & Hb0 & Hb1). cbn [mbind res_bind].
    destruct b; simpl.
    + destruct (swap_elems h (par j) j y x Hg Hy Hx) as (h' & -> & Hg' & He'). cbn [mbind res_bind].
      eapply wp_mono; [apply (IH (par j)) | | done].
      * done.
      * rewrite <- elems_length, He', (Permutation_length (swapped_perm _ _ _ _ _ Hy Hx)), elems_length by done. lia.
      * lia.
      * rewrite He'. by apply up_inv_step; auto.
      * intros h'' (Hg'' & Hp & Hh). split_and!; [done | | done].
        rewrite Hp, He'. by apply swapped_perm.
    + split_and!; [done | done |]. eapply up_inv_done; [done |]. intros x' y' _ Hx' Hy'.
      simplify_eq. by apply Hb0.
Qed.

(** ** Sifting down *)
Definition down_inv (i n : nat) (l : list (Z * Z)) : Prop :=
  (forall k x y, (0 < k < n)%nat -> par k <> i -> l !! k = Some x -> l !! par k = Some y -> above y x) /\
  (forall k x y, (0 < k < n)%nat -> (0 < i)%nat -> par k = i ->
     l !! k = Some x -> l !! par i = Some y -> above y x).

Lemma par_children (i k : nat) : (0 < k)%nat -> par k = i <-> k = (2 * i + 1)%nat \/ k = (2 * i + 2)%nat.
Proof.
  intros Hk. unfold par. pose proof (Nat.div_mod_eq (k - 1) 2).
  pose proof (Nat.mod_upper_bound (k - 1) 2 ltac:(lia)). lia.
Qed.

(** [j] is the child of [i] to exchange with: it stands above its sibling. *)
Lemma down_inv_step i j n l x y :
  (0 < j < n)%nat -> par j = i -> down_inv i n l ->
  l !! i = Some x -> l !! j = Some y -> above y x ->
  (forall k z, (0 < k < n)%nat -> par k = i -> l !! k = Some z -> above y z) ->
  down_inv j n (swapped l i j x y).
Proof.
  intros Hj Hp [H1 H2] Hx Hy Hyx Hsib. pose proof (par_lt j ltac:(lia)).
  split; intros k a b Hk; [intros Hne | intros Hj0 Hpk];
    rewrite !(swapped_lookup _ _ _ _ _ _ Hx Hy); intros Ha Hb; pose proof (par_lt k ltac:(lia)).
  - repeat case_decide; simplify_eq; try lia; eauto.
    eapply (H2 j); [lia | lia | done | done | done].
  - repeat case_decide; simplify_eq; try lia; eauto.
Qed.

Lemma down_inv_done i n l x :
  down_inv i n l -> l !! i = Some x ->
  (forall k z, (0 < k < n)%nat -> par k = i -> l !! k = Some z -> above x z) -> heap_upto n l.
Proof.
  intros [H1 _] Hx Hc k a b Hk Ha Hb. destruct (decide (par k = i)) as [He |]; [| by eapply (H1 k)].
  rewrite He in Hb. simplify_eq. by eapply (Hc k).
Qed.

(** The child [down] compares with. *)
Lemma best_child h (i n : nat) :
  good h -> (n <= length (indices h))%nat -> (2 * i + 1 < n)%nat ->
  exists r (j : nat) y,
    (if 2 * Z.of_nat i + 1 + 1 <? Z.of_nat n
     then less h (2 * Z.of_nat i + 1 + 1) (2 * Z.of_nat i + 1) else Ok false) = Ok r /\
    (if (r : bool) then 2 * Z.of_nat i + 1 + 1 else 2 * Z.of_nat i + 1) = Z.of_nat j /\
    (i < j < n)%nat /\ par j = i /\ elems h !! j = Some y /\
    (forall k z, (0 < k < n)%nat -> par k = i -> elems h !! k = Some z -> above y z).
Proof.
  intros Hg Hn Hi.
  destruct (elems_lt h (2 * i + 1) Hg ltac:(lia)) as [y1 Hy1].
  destruct (Z.ltb_spec (2 * Z.of_nat i + 1 + 1) (Z.of_nat n)).
  - destruct (elems_lt h (2 * i + 2) Hg ltac:(lia)) as [y2 Hy2].
    destruct (less_elems h (2 * i + 2) (2 * i + 1) y2 y1 Hy2 Hy1) as (b & Hb & Hb0 & Hb1).
    replace (2 * Z.of_nat i + 1 + 1) with (Z.of_nat (2 * i + 2)) by lia.
    replace (2 * Z.of_nat i + 1) with (Z.of_nat (2 * i + 1)) by lia. rewrite Hb.
    destruct b; [exists true, (2 * i + 2)%nat, y2 | exists false, (2 * i + 1)%nat, y1];
      (split_and!; [done | done | lia | lia | apply par_children; lia | done |]);
      intros k z Hk Hpk Hz; apply par_children in Hpk as [-> | ->]; try lia; simplify_eq; eauto.
  - exists false, (2 * i + 1)%nat, y1. split_and!; [done | lia | lia | lia | apply par_children; lia | done |].
    intros k z Hk Hpk Hz. apply par_children in Hpk as [-> | ->]; try lia. by simplify_eq.
Qed.

Lemma down_spec (fuel i n : nat) h :
  good h -> (i < n <= length (indices h))%nat -> (n <= fuel + i)%nat -> down_inv i n (elems h) ->
  wp (down fuel h (Z.of_nat i) (Z.of_nat n)) (fun h' => good h' /\
    elems h' ≡ₚ elems h /\ heap_upto n (elems h') /\
    forall k, (n <= k)%nat -> elems h' !! k = elems h !! k) no_err.
Proof.
  revert i h. induction fuel as [| fuel IH]; intros i h Hg Hi Hf Hinv; [lia |]. cbn [down].
  destruct (elems_lt h i Hg ltac:(lia)) as [x Hx].
  destruct (Z.leb_spec (Z.of_nat n) (2 * Z.of_nat i + 1)) as [Hle | Hgt]; simpl.
  { split_and!; [done | done | | done]. eapply down_inv_done; [done | done |].
    intros k z Hk Hpk. apply par_children in Hpk; lia. }
  destruct (Z.ltb_spec (2 * Z.of_nat i + 1) 0); [lia |]. 
  destruct (best_child h i n Hg ltac:(lia) ltac:(lia)) as (r & j & y & Hr & Hj & Hij & Hp & Hy & Hsib).
  unfold mbind at 1. unfold res_bind at 1. rewrite Hr. cbn [mbind res_bind]. rewrite Hj.
  destruct (less_elems h j i y x Hy Hx) as (b & -> & Hb0 & Hb1). cbn [mbind res_bind].
  destruct b; cbn [negb].
  - destruct (swap_elems h i j x y Hg Hx Hy) as (h' & -> & Hg' & He'). cbn [mbind res_bind].
    pose proof (swapped_perm _ _ _ _ _ Hx Hy) as Hperm.
    eapply wp_mono; [apply (IH j) | | done].
    + done.
    + rewrite <- (elems_length h'), He', (Permutation_length Hperm), elems_length by done. lia.
    + lia.
    + rewrite He'. apply down_inv_step; auto; lia.
    + intros h'' (Hg'' & Hp'' & Hh & Hk). split_and!; [done | by rewrite Hp'', He' | done |].
      intros k Hkn. rewrite Hk, He' by done. rewrite (swapped_lookup _ _ _ _ _ _ Hx Hy).
      rewrite !decide_False by lia. done.
  - split_and!; [done | done | | done]. eapply down_inv_done; [done | done |].
    intros k z Hk Hpk Hz. eapply above_trans; [by apply Hb0 | by eapply Hsib].
Qed.

(** ** Push and pop *)
Definition is_heap (h : bucketHeap) : Prop := good h /\ heap_ok (elems h).

Lemma is_heap_nil : is_heap newBucketHeap.
Proof. split; [done |]. intros k x y Hk. simpl in Hk. lia. Qed.

Lemma push_spec h i size :
  is_heap h ->
  wp (push h i size) (fun h' => is_heap h' /\ elems h' ≡ₚ (u16 size, u16 i) :: elems h) no_err.
Proof.
  intros [Hg Hh]. unfold push. set (h1 := mk_heap _ _).
  assert (good h1) as Hg1 by (unfold good in *; simpl; rewrite !length_app; simpl; lia).
  assert (elems h1 = elems h ++ [(u16 size, u16 i)]) as He1.
  { unfold elems, h1. simpl. by rewrite zip_with_app by done. }
  assert (length (indices h1) = S (length (indices h))) as Hl1 by (simpl; rewrite length_app; simpl; lia).
  replace (heap_len h1 - 1) with (Z.of_nat (length (indices h))) by (unfold heap_len, len; lia).
  eapply wp_mono; [apply up_spec | | done].
  - done.
  - lia.
  - lia.
  - rewrite He1. split; intros k x y Hk.
    + intros Hne Hx Hy. pose proof (par_lt k Hk).
      assert (k < length (elems h))%nat as Hkl.
      { apply lookup_lt_Some in Hx. rewrite length_app, elems_length in Hx by done.
        rewrite elems_length by done. simpl in Hx. lia. }
      rewrite lookup_app_l in Hx, Hy by lia. by eapply (Hh k).
    + intros Hj Hp Hx _. apply lookup_lt_Some in Hx. apply par_children in Hp; [| done].
      rewrite length_app, elems_length in Hx by done. simpl in Hx. lia.
  - intros h' (Hg' & Hp & Hh'). split; [done |]. rewrite Hp, He1. by rewrite Permutation_app_comm.
Qed.

Lemma pop_spec h :
  is_heap h -> 0 < heap_len h ->
  wp (pop h) (fun '(i, size, h') => is_heap h' /\ elems h ≡ₚ (size, i) :: elems h' /\
    forall e, e ∈ elems h' -> above (size, i) e) no_err.
Proof.
  intros [Hg Hh] Hl. unfold pop, heap_len, len in *.
  set (n := (length (indices h) - 1)%nat).
  replace (Z.of_nat (length (indices h)) - 1) with (Z.of_nat n) by lia.
  destruct (elems_lt h 0 Hg ltac:(lia)) as [t Ht]. destruct (elems_lt h n Hg ltac:(lia)) as [z Hz].
  destruct (swap_elems h 0 n t z Hg Ht Hz) as (h1 & Hs & Hg1 & He1).
  change (Z.of_nat 0) with 0 in Hs. rewrite Hs. cbn [mbind res_bind].
  pose proof (swapped_perm _ _ _ _ _ Ht Hz) as Hperm1.
  assert (length (indices h1) = S n) as Hl1.
  { rewrite <- elems_length, He1, (Permutation_length Hperm1), elems_length by done. lia. }
  assert (wp (down (length (indices h1)) h1 0 (Z.of_nat n)) (fun h' => good h' /\
    elems h' ≡ₚ elems h1 /\ heap_upto n (elems h') /\
    forall k, (n <= k)%nat -> elems h' !! k = elems h1 !! k) no_err) as Hdown.
  { destruct (decide (n = 0%nat)) as [Hn0 |].
    - rewrite Hn0, Hl1. cbn [down]. simpl. split_and!; [done | done | | done]. intros k. lia.
    - apply (down_spec _ 0 n); [done | lia | lia |]. rewrite He1.
      split; intros k a b Hk; [intros Hp | lia]. pose proof (par_lt k ltac:(lia)).
      rewrite !(swapped_lookup _ _ _ _ _ _ Ht Hz). rewrite !decide_False by lia.
      intros Ha Hb. eapply (Hh k); [| done | done]. rewrite elems_length by done. lia. }
  destruct (wp_total _ _ Hdown) as (h2 & -> & Hg2 & Hp2 & Hh2 & Hk2). cbn [mbind res_bind].
  assert (length (indices h2) = S n) as Hl2.
  { rewrite <- elems_length, (Permutation_length Hp2), elems_length by done. lia. }
  assert (elems h2 !! n = Some t) as Htn.
  { rewrite Hk2, He1, (swapped_lookup _ _ _ _ _ _ Ht Hz), decide_True by lia. done. }
  pose proof (proj1 (elems_lookup _ _ _) Htn) as [Hts Hti].
  rewrite (idx_nat _ _ _ Hti), (idx_nat _ _ _ Hts). cbn [mbind res_bind].
  unfold good in *. rewrite !slice_in_range by (unfold len; lia). cbn [mbind res_bind wp].
  set (h3 := mk_heap _ _).
  assert (elems h3 = take n (elems h2)) as He3.
  { unfold elems, h3. simpl. rewrite !drop_0. replace (Z.to_nat (Z.of_nat n - 0)) with n by lia.
    symmetry. apply zip_with_take. }
  assert (length (elems h2) = S n) as Hle2 by (by rewrite elems_length).
  assert (elems h2 = take n (elems h2) ++ [t]) as Hsplit.
  { rewrite <- (take_drop_middle _ _ _ Htn) at 1. rewrite drop_ge by lia. done. }
  assert (elems h ≡ₚ t :: elems h3) as Hperm.
  { rewrite He3, Permutation_cons_append, <- Hsplit, Hp2, He1. by symmetry. }
  assert (t = (t.1, t.2)) as <- by (by destruct t).
  split_and!; [| done |].
  - split; [unfold good; simpl; rewrite !length_take, !length_drop; lia |].
    unfold heap_ok. rewrite He3, length_take, Hle2, Nat.min_l by lia.
    intros k x y Hk. pose proof (par_lt k ltac:(lia)). rewrite !lookup_take_lt by lia.
    apply Hh2. lia.
  - intros e He. assert (e ∈ elems h) as [k Hk]%list_elem_of_lookup by (rewrite Hperm; set_solver).
    eapply (heap_top (length (elems h)) (elems h)); [done | done | | exact Hk]. by eapply lookup_lt_Some.
Qed.

(** C23: the eviction heap is a max-priority queue: from a well-formed heap
    [push] never fails and adds exactly the (truncated) pair; [pop] on a
    non-empty heap never fails and removes an element that stands above all the
    others, the largest size with the smallest bucket index among equals; both
    keep the heap order, and their loops end within the fuel. *)
Theorem heap_priority_queue h i size :
  is_heap h ->
  (exists h', push h i size = Ok h' /\ is_heap h' /\ elems h' ≡ₚ (u16 size, u16 i) :: elems h) /\
  (0 < heap_len h -> exists i' size' h', pop h = Ok (i', size', h') /\ is_heap h' /\
     elems h ≡ₚ (size', i') :: elems h' /\
     forall s j, (s, j) ∈ elems h' -> s < size' \/ (s = size' /\ i' <= j)).
Proof.
  intros Hh. split.
  - destruct (wp_total _ _ (push_spec h i size Hh)) as (h' & Hp & H1 & H2). eauto.
  - intros Hl. destruct (wp_total _ _ (pop_spec h Hh Hl)) as ([[i' size'] h'] & Hp & H1 & H2 & H3).
    exists i', size', h'. split_and!; [done .. |]. intros s j [|]%H3; simpl in *; [by left | right; lia].
Qed.

Lemma heap_priority_queue_witness :
  let h := mk_heap [2; 9; 4] [7; 5; 7] in
  (exists h', push h 1 7 = Ok h' /\ is_heap h' /\ elems h' ≡ₚ (7, 1) :: elems h) /\
  pop h = Ok (2, 7, mk_heap [4; 9] [7; 5]).
Proof.
  destruct (heap_priority_queue (mk_heap [2; 9; 4] [7; 5; 7]) 1 7) as [H1 H2].
  - split; [done |]. intros k x y [Hk0 Hk] Hx Hy. unfold above.
    destruct k as [| [| [| k]]]; [lia | | | simpl in Hk; lia]; vm_compute in Hx, Hy;
      injection Hx as <-; injection Hy as <-; simpl; lia.
  - split; [exact H1 | by vm_compute].
Defined.
