(* ===== verification/PtrSearch.v ===== *)
(** * [internal/ptrhash/solver.go] (state) and [pilot_search.go]: the pilot search

    The solver's state, its slot accessors, and the search for the first pilot
    that sends a whole bucket to free, pairwise distinct slots. The source has
    eight unrolled copies of the search for small buckets and a chunked one for
    the others; [findFreePilot_spec] shows that all nine compute the same thing:
    the first free pilot, if any. *)
From S2P Require Import Prelude Words Floats PtrPilot PtrHeap.
#[local] Open Scope Z_scope.

(** A key during block building (builder.go). *)
Record bucketEntry := mk_bentry {
  suffix : Z;       (* uint64: k1 *)
  k0 : Z;           (* uint64 *)
  payload : Z;      (* uint64 *)
  fingerprint : Z   (* uint32 *)
}.

Record solver := mk_solver {
  numBuckets : Z;  (* uint32 *)
  numSlots : Z;  (* uint32 *)
  numKeys : Z;  (* int *)
  globalSeed : Z;  (* uint64 *)
  pilotHPs : list Z;  (* [256]uint64 *)
  buckets : list (list bucketEntry);
  bucketStarts : list Z;  (* []uint16 *)
  bucketOrder : list Z;  (* []uint16 *)
  pilots : list Z;  (* []uint8 *)
  slotOwner : list Z;  (* []uint16 *)
  slotGen : list Z;  (* []uint8 *)
  processedGen : list Z;  (* []uint8 *)
  generation : Z;  (* uint8 *)
  phase2SlotGen : list Z;  (* []uint32 *)
  phase2Gen : Z;  (* uint32 *)
  pinned : list Z;  (* [16]int16, -1 = empty *)
  pinnedBits : list Z;  (* []uint64 *)
  pinnedIdx : Z;  (* int *)
  evictions : Z;  (* int *)
  slotsBuffer : list Z;  (* []uint16 *)
  foldedBuffer : list Z;  (* []uint64 *)
  pendingHeap : bucketHeap;
  bestSlots : list Z;  (* []uint16 *)
  evictedOwners : list Z;  (* []uint16 *)
  remapBuffer : list Z;  (* []uint16 *)
  sortCounts : list Z;  (* []int *)
  sortPositions : list Z;  (* []int *)
  maxNumBuckets : Z;  (* uint32 *)
  maxNumSlots : Z  (* uint32 *)
}.

(** Field updates. *)
Definition set_pilots (v : list Z) (s : solver) : solver :=
  mk_solver (numBuckets s) (numSlots s) (numKeys s) (globalSeed s) (pilotHPs s) (buckets s)
  (bucketStarts s) (bucketOrder s) v (slotOwner s) (slotGen s) (processedGen s) (generation s)
  (phase2SlotGen s) (phase2Gen s) (pinned s) (pinnedBits s) (pinnedIdx s) (evictions s)
  (slotsBuffer s) (foldedBuffer s) (pendingHeap s) (bestSlots s) (evictedOwners s) (remapBuffer s)
  (sortCounts s) (sortPositions s) (maxNumBuckets s) (maxNumSlots s).
Definition set_slotOwner (v : list Z) (s : solver) : solver :=
  mk_solver (numBuckets s) (numSlots s) (numKeys s) (globalSeed s) (pilotHPs s) (buckets s)
  (bucketStarts s) (bucketOrder s) (pilots s) v (slotGen s) (processedGen s) (generation s)
  (phase2SlotGen s) (phase2Gen s) (pinned s) (pinnedBits s) (pinnedIdx s) (evictions s)
  (slotsBuffer s) (foldedBuffer s) (pendingHeap s) (bestSlots s) (evictedOwners s) (remapBuffer s)
  (sortCounts s) (sortPositions s) (maxNumBuckets s) (maxNumSlots s).
Definition set_slotGen (v : list Z) (s : solver) : solver :=
  mk_solver (numBuckets s) (numSlots s) (numKeys s) (globalSeed s) (pilotHPs s) (buckets s)
  (bucketStarts s) (bucketOrder s) (pilots s) (slotOwner s) v (processedGen s) (generation s)
  (phase2SlotGen s) (phase2Gen s) (pinned s) (pinnedBits s) (pinnedIdx s) (evictions s)
  (slotsBuffer s) (foldedBuffer s) (pendingHeap s) (bestSlots s) (evictedOwners s) (remapBuffer s)
  (sortCounts s) (sortPositions s) (maxNumBuckets s) (maxNumSlots s).
Definition set_processedGen (v : list Z) (s : solver) : solver :=
  mk_solver (numBuckets s) (numSlots s) (numKeys s) (globalSeed s) (pilotHPs s) (buckets s)
  (bucketStarts s) (bucketOrder s) (pilots s) (slotOwner s) (slotGen s) v (generation s)
  (phase2SlotGen s) (phase2Gen s) (pinned s) (pinnedBits s) (pinnedIdx s) (evictions s)
  (slotsBuffer s) (foldedBuffer s) (pendingHeap s) (bestSlots s) (evictedOwners s) (remapBuffer s)
  (sortCounts s) (sortPositions s) (maxNumBuckets s) (maxNumSlots s).
Definition set_phase2SlotGen (v : list Z) (s : solver) : solver :=
  mk_solver (numBuckets s) (numSlots s) (numKeys s) (globalSeed s) (pilotHPs s) (buckets s)
  (bucketStarts s) (bucketOrder s) (pilots s) (slotOwner s) (slotGen s) (processedGen s)
  (generation s) v (phase2Gen s) (pinned s) (pinnedBits s) (pinnedIdx s) (evictions s)
  (slotsBuffer s) (foldedBuffer s) (pendingHeap s) (bestSlots s) (evictedOwners s) (remapBuffer s)
  (sortCounts s) (sortPositions s) (maxNumBuckets s) (maxNumSlots s).
Definition set_phase2Gen (v : Z) (s : solver) : solver :=
  mk_solver (numBuckets s) (numSlots s) (numKeys s) (globalSeed s) (pilotHPs s) (buckets s)
  (bucketStarts s) (bucketOrder s) (pilots s) (slotOwner s) (slotGen s) (processedGen s)
  (generation s) (phase2SlotGen s) v (pinned s) (pinnedBits s) (pinnedIdx s) (evictions s)
  (slotsBuffer s) (foldedBuffer s) (pendingHeap s) (bestSlots s) (evictedOwners s) (remapBuffer s)
  (sortCounts s) (sortPositions s) (maxNumBuckets s) (maxNumSlots s).
Definition set_pinned (v : list Z) (s : solver) : solver :=
  mk_solver (numBuckets s) (numSlots s) (numKeys s) (globalSeed s) (pilotHPs s) (buckets s)
  (bucketStarts s) (bucketOrder s) (pilots s) (slotOwner s) (slotGen s) (processedGen s)
  (generation s) (phase2SlotGen s) (phase2Gen s) v (pinnedBits s) (pinnedIdx s) (evictions s)
  (slotsBuffer s) (foldedBuffer s) (pendingHeap s) (bestSlots s) (evictedOwners s) (remapBuffer s)
  (sortCounts s) (sortPositions s) (maxNumBuckets s) (maxNumSlots s).
Definition set_pinnedBits (v : list Z) (s : solver) : solver :=
  mk_solver (numBuckets s) (numSlots s) (numKeys s) (globalSeed s) (pilotHPs s) (buckets s)
  (bucketStarts s) (bucketOrder s) (pilots s) (slotOwner s) (slotGen s) (processedGen s)
  (generation s) (phase2SlotGen s) (phase2Gen s) (pinned s) v (pinnedIdx s) (evictions s)
  (slotsBuffer s) (foldedBuffer s) (pendingHeap s) (bestSlots s) (evictedOwners s) (remapBuffer s)
  (sortCounts s) (sortPositions s) (maxNumBuckets s) (maxNumSlots s).
Definition set_pinnedIdx (v : Z) (s : solver) : solver :=
  mk_solver (numBuckets s) (numSlots s) (numKeys s) (globalSeed s) (pilotHPs s) (buckets s)
  (bucketStarts s) (bucketOrder s) (pilots s) (slotOwner s) (slotGen s) (processedGen s)
  (generation s) (phase2SlotGen s) (phase2Gen s) (pinned s) (pinnedBits s) v (evictions s)
  (slotsBuffer s) (foldedBuffer s) (pendingHeap s) (bestSlots s) (evictedOwners s) (remapBuffer s)
  (sortCounts s) (sortPositions s) (maxNumBuckets s) (maxNumSlots s).
Definition set_evictions (v : Z) (s : solver) : solver :=
  mk_solver (numBuckets s) (numSlots s) (numKeys s) (globalSeed s) (pilotHPs s) (buckets s)
  (bucketStarts s) (bucketOrder s) (pilots s) (slotOwner s) (slotGen s) (processedGen s)
  (generation s) (phase2SlotGen s) (phase2Gen s) (pinned s) (pinnedBits s) (pinnedIdx s) v
  (slotsBuffer s) (foldedBuffer s) (pendingHeap s) (bestSlots s) (evictedOwners s) (remapBuffer s)
  (sortCounts s) (sortPositions s) (maxNumBuckets s) (maxNumSlots s).
Definition set_slotsBuffer (v : list Z) (s : solver) : solver :=
  mk_solver (numBuckets s) (numSlots s) (numKeys s) (globalSeed s) (pilotHPs s) (buckets s)
  (bucketStarts s) (bucketOrder s) (pilots s) (slotOwner s) (slotGen s) (processedGen s)
  (generation s) (phase2SlotGen s) (phase2Gen s) (pinned s) (pinnedBits s) (pinnedIdx s)
  (evictions s) v (foldedBuffer s) (pendingHeap s) (bestSlots s) (evictedOwners s) (remapBuffer s)
  (sortCounts s) (sortPositions s) (maxNumBuckets s) (maxNumSlots s).
Definition set_foldedBuffer (v : list Z) (s : solver) : solver :=
  mk_solver (numBuckets s) (numSlots s) (numKeys s) (globalSeed s) (pilotHPs s) (buckets s)
  (bucketStarts s) (bucketOrder s) (pilots s) (slotOwner s) (slotGen s) (processedGen s)
  (generation s) (phase2SlotGen s) (phase2Gen s) (pinned s) (pinnedBits s) (pinnedIdx s)
  (evictions s) (slotsBuffer s) v (pendingHeap s) (bestSlots s) (evictedOwners s) (remapBuffer s)
  (sortCounts s) (sortPositions s) (maxNumBuckets s) (maxNumSlots s).
Definition set_pendingHeap (v : bucketHeap) (s : solver) : solver :=
  mk_solver (numBuckets s) (numSlots s) (numKeys s) (globalSeed s) (pilotHPs s) (buckets s)
  (bucketStarts s) (bucketOrder s) (pilots s) (slotOwner s) (slotGen s) (processedGen s)
  (generation s) (phase2SlotGen s) (phase2Gen s) (pinned s) (pinnedBits s) (pinnedIdx s)
  (evictions s) (slotsBuffer s) (foldedBuffer s) v (bestSlots s) (evictedOwners s) (remapBuffer s)
  (sortCounts s) (sortPositions s) (maxNumBuckets s) (maxNumSlots s).
Definition set_bestSlots (v : list Z) (s : solver) : solver :=
  mk_solver (numBuckets s) (numSlots s) (numKeys s) (globalSeed s) (pilotHPs s) (buckets s)
  (bucketStarts s) (bucketOrder s) (pilots s) (slotOwner s) (slotGen s) (processedGen s)
  (generation s) (phase2SlotGen s) (phase2Gen s) (pinned s) (pinnedBits s) (pinnedIdx s)
  (evictions s) (slotsBuffer s) (foldedBuffer s) (pendingHeap s) v (evictedOwners s) (remapBuffer
  s) (sortCounts s) (sortPositions s) (maxNumBuckets s) (maxNumSlots s).
Definition set_evictedOwners (v : list Z) (s : solver) : solver :=
  mk_solver (numBuckets s) (numSlots s) (numKeys s) (globalSeed s) (pilotHPs s) (buckets s)
  (bucketStarts s) (bucketOrder s) (pilots s) (slotOwner s) (slotGen s) (processedGen s)
  (generation s) (phase2SlotGen s) (phase2Gen s) (pinned s) (pinnedBits s) (pinnedIdx s)
  (evictions s) (slotsBuffer s) (foldedBuffer s) (pendingHeap s) (bestSlots s) v (remapBuffer s)
  (sortCounts s) (sortPositions s) (maxNumBuckets s) (maxNumSlots s).
Definition set_remapBuffer (v : list Z) (s : solver) : solver :=
  mk_solver (numBuckets s) (numSlots s) (numKeys s) (globalSeed s) (pilotHPs s) (buckets s)
  (bucketStarts s) (bucketOrder s) (pilots s) (slotOwner s) (slotGen s) (processedGen s)
  (generation s) (phase2SlotGen s) (phase2Gen s) (pinned s) (pinnedBits s) (pinnedIdx s)
  (evictions s) (slotsBuffer s) (foldedBuffer s) (pendingHeap s) (bestSlots s) (evictedOwners s) v
  (sortCounts s) (sortPositions s) (maxNumBuckets s) (maxNumSlots s).

(** ** Accessors *)
Definition pinnedSize : Z := 16.
Definition maxEvictionMultiplier : Z := 10.
Definition bitsPerWord : Z := 64.
Definition minBufferAlloc : Z := 16.

Definition bucketKeys (s : solver) (i : Z) : res (list bucketEntry) := idx (buckets s) i.
Definition bucketSize (s : solver) (i : Z) : res Z := b ← bucketKeys s i; Ok (len b).

Definition isProcessed (s : solver) (i : Z) : res bool :=
  g ← idx (processedGen s) i; Ok (g =? generation s).
Definition setProcessed (s : solver) (i : Z) : res solver :=
  g ← upd (processedGen s) i (generation s); Ok (set_processedGen g s).
Definition clearProcessed (s : solver) (i : Z) : res solver :=
  g ← upd (processedGen s) i 0; Ok (set_processedGen g s).

Definition getOwner (s : solver) (slot : Z) : res Z :=
  g ← idx (slotGen s) slot;
  if negb (g =? generation s) then Ok (-1) else idx (slotOwner s) slot.

(** Read through an unsafe pointer in the source: out of range here is a panic,
    and [findFreePilot_spec] shows that it never is. *)
Definition slotGenIsTaken (s : solver) (slot : Z) : res bool :=
  g ← idx (slotGen s) slot; Ok (g =? generation s).

(** [foldSlotInput(e.k0, e.suffix)] *)
Definition fold_entry (e : bucketEntry) : Z := foldSlotInput (k0 e) (suffix e).

(** ** The unrolled searches *)
Definition search_result (s : solver) (r : unit + Z * list Z) : Z * bool * solver :=
  match r with inl _ => (0, false, s) | inr (p, b) => (p, true, set_slotsBuffer b s) end.

Definition findFreePilot1 (s : solver) (bucket : list bucketEntry) : res (Z * bool * solver) :=
  e0 ← idx bucket 0;
  let hf0 := fold_entry e0 in
  r ← foldB (fun (_ : unit) pilot =>
        hp ← idx (pilotHPs s) (u8 pilot);
        let s0 := pilotSlotFolded hf0 hp (numSlots s) in
        t0 ← slotGenIsTaken s s0;
        if negb t0 then b ← upd (slotsBuffer s) 0 (u16 s0); Ok (inr (u8 pilot, b))
        else Ok (inl tt)) tt (range numPilotValues);
  Ok (search_result s r).

Definition findFreePilot2 (s : solver) (bucket : list bucketEntry) : res (Z * bool * solver) :=
  e0 ← idx bucket 0; e1 ← idx bucket 1;
  let hf0 := fold_entry e0 in let hf1 := fold_entry e1 in
  r ← foldB (fun (_ : unit) pilot =>
        hp ← idx (pilotHPs s) (u8 pilot);
        let s0 := pilotSlotFolded hf0 hp (numSlots s) in
        t0 ← slotGenIsTaken s s0;
        if t0 : bool then Ok (inl tt)
        else
          let s1 := pilotSlotFolded hf1 hp (numSlots s) in
          if s0 =? s1 then Ok (inl tt)
          else
            t1 ← slotGenIsTaken s s1;
            if t1 : bool then Ok (inl tt)
            else b ← upd (slotsBuffer s) 0 (u16 s0); b ← upd b 1 (u16 s1); Ok (inr (u8 pilot, b)))
        tt (range numPilotValues);
  Ok (search_result s r).

(** [slotGenIsTaken(a) || slotGenIsTaken(b) || ...], left to right. *)
Fixpoint anyTaken (s : solver) (slots : list Z) : res bool :=
  match slots with
  | [] => Ok false
  | x :: slots => t ← slotGenIsTaken s x; if t : bool then Ok true else anyTaken s slots
  end.

Definition findFreePilot3 (s : solver) (bucket : list bucketEntry) : res (Z * bool * solver) :=
  e0 ← idx bucket 0; e1 ← idx bucket 1; e2 ← idx bucket 2;
  let hf0 := fold_entry e0 in let hf1 := fold_entry e1 in let hf2 := fold_entry e2 in
  r ← foldB (fun (_ : unit) pilot =>
        hp ← idx (pilotHPs s) (u8 pilot);
        let s0 := pilotSlotFolded hf0 hp (numSlots s) in
        let s1 := pilotSlotFolded hf1 hp (numSlots s) in
        let s2 := pilotSlotFolded hf2 hp (numSlots s) in
        t ← anyTaken s [s0; s1; s2];
        if t : bool then Ok (inl tt)
        else if (s0 =? s1) || (s0 =? s2) || (s1 =? s2)
        then Ok (inl tt)
        else b ← upd (slotsBuffer s) 0 (u16 s0); b ← upd b 1 (u16 s1); b ← upd b 2 (u16 s2); Ok (inr (u8 pilot, b)))
        tt (range numPilotValues);
  Ok (search_result s r).

Definition findFreePilot4 (s : solver) (bucket : list bucketEntry) : res (Z * bool * solver) :=
  e0 ← idx bucket 0; e1 ← idx bucket 1; e2 ← idx bucket 2; e3 ← idx bucket 3;
  let hf0 := fold_entry e0 in let hf1 := fold_entry e1 in let hf2 := fold_entry e2 in let hf3 :=
  fold_entry e3 in
  r ← foldB (fun (_ : unit) pilot =>
        hp ← idx (pilotHPs s) (u8 pilot);
        let s0 := pilotSlotFolded hf0 hp (numSlots s) in
        let s1 := pilotSlotFolded hf1 hp (numSlots s) in
        let s2 := pilotSlotFolded hf2 hp (numSlots s) in
        let s3 := pilotSlotFolded hf3 hp (numSlots s) in
        t ← anyTaken s [s0; s1; s2; s3];
        if t : bool then Ok (inl tt)
        else if (s0 =? s1) || (s0 =? s2) || (s0 =? s3) || (s1 =? s2) || (s1 =? s3) || (s2 =? s3)
        then Ok (inl tt)
        else b ← upd (slotsBuffer s) 0 (u16 s0); b ← upd b 1 (u16 s1); b ← upd b 2 (u16 s2); b ← upd b 3 (u16 s3); Ok (inr (u8 pilot, b)))
        tt (range numPilotValues);
  Ok (search_result s r).

Definition findFreePilot5 (s : solver) (bucket : list bucketEntry) : res (Z * bool * solver) :=
  e0 ← idx bucket 0; e1 ← idx bucket 1; e2 ← idx bucket 2; e3 ← idx bucket 3; e4 ← idx bucket 4;
  let hf0 := fold_entry e0 in let hf1 := fold_entry e1 in let hf2 := fold_entry e2 in let hf3 :=
  fold_entry e3 in let hf4 := fold_entry e4 in
  r ← foldB (fun (_ : unit) pilot =>
        hp ← idx (pilotHPs s) (u8 pilot);
        let s0 := pilotSlotFolded hf0 hp (numSlots s) in
        let s1 := pilotSlotFolded hf1 hp (numSlots s) in
        let s2 := pilotSlotFolded hf2 hp (numSlots s) in
        let s3 := pilotSlotFolded hf3 hp (numSlots s) in
        let s4 := pilotSlotFolded hf4 hp (numSlots s) in
        t0 ← slotGenIsTaken s s0; t1 ← slotGenIsTaken s s1; t2 ← slotGenIsTaken s s2; t3 ←
        slotGenIsTaken s s3; t4 ← slotGenIsTaken s s4;
        if t0 || t1 || t2 || t3 || t4 then Ok (inl tt)
        else
          let noDup :=
            negb (s0 =? s1) && negb (s0 =? s2) && negb (s0 =? s3) && negb (s0 =? s4) && negb (s1
            =? s2) && negb (s1 =? s3) && negb (s1 =? s4) && negb (s2 =? s3) && negb (s2 =? s4) &&
            negb (s3 =? s4) in
          if noDup
          then
            b ← upd (slotsBuffer s) 0 (u16 s0); b ← upd b 1 (u16 s1); b ← upd b 2 (u16 s2); b ←
            upd b 3 (u16 s3); b ← upd b 4 (u16 s4); Ok (inr (u8 pilot, b))
          else Ok (inl tt))
        tt (range numPilotValues);
  Ok (search_result s r).

Definition findFreePilot6 (s : solver) (bucket : list bucketEntry) : res (Z * bool * solver) :=
  e0 ← idx bucket 0; e1 ← idx bucket 1; e2 ← idx bucket 2; e3 ← idx bucket 3; e4 ← idx bucket 4;
  e5 ← idx bucket 5;
  let hf0 := fold_entry e0 in let hf1 := fold_entry e1 in let hf2 := fold_entry e2 in let hf3 :=
  fold_entry e3 in let hf4 := fold_entry e4 in let hf5 := fold_entry e5 in
  r ← foldB (fun (_ : unit) pilot =>
        hp ← idx (pilotHPs s) (u8 pilot);
        let s0 := pilotSlotFolded hf0 hp (numSlots s) in
        let s1 := pilotSlotFolded hf1 hp (numSlots s) in
        let s2 := pilotSlotFolded hf2 hp (numSlots s) in
        let s3 := pilotSlotFolded hf3 hp (numSlots s) in
        let s4 := pilotSlotFolded hf4 hp (numSlots s) in
        let s5 := pilotSlotFolded hf5 hp (numSlots s) in
        t0 ← slotGenIsTaken s s0; t1 ← slotGenIsTaken s s1; t2 ← slotGenIsTaken s s2; t3 ←
        slotGenIsTaken s s3; t4 ← slotGenIsTaken s s4; t5 ← slotGenIsTaken s s5;
        if t0 || t1 || t2 || t3 || t4 || t5 then Ok (inl tt)
        else
          let noDup :=
            negb (s0 =? s1) && negb (s0 =? s2) && negb (s0 =? s3) && negb (s0 =? s4) && negb (s0
            =? s5) && negb (s1 =? s2) && negb (s1 =? s3) && negb (s1 =? s4) && negb (s1 =? s5) &&
            negb (s2 =? s3) && negb (s2 =? s4) && negb (s2 =? s5) && negb (s3 =? s4) && negb (s3
            =? s5) && negb (s4 =? s5) in
          if noDup
          then
            b ← upd (slotsBuffer s) 0 (u16 s0); b ← upd b 1 (u16 s1); b ← upd b 2 (u16 s2); b ←
            upd b 3 (u16 s3); b ← upd b 4 (u16 s4); b ← upd b 5 (u16 s5); Ok (inr (u8 pilot, b))
          else Ok (inl tt))
        tt (range numPilotValues);
  Ok (search_result s r).

Definition findFreePilot7 (s : solver) (bucket : list bucketEntry) : res (Z * bool * solver) :=
  e0 ← idx bucket 0; e1 ← idx bucket 1; e2 ← idx bucket 2; e3 ← idx bucket 3; e4 ← idx bucket 4;
  e5 ← idx bucket 5; e6 ← idx bucket 6;
  let hf0 := fold_entry e0 in let hf1 := fold_entry e1 in let hf2 := fold_entry e2 in let hf3 :=
  fold_entry e3 in let hf4 := fold_entry e4 in let hf5 := fold_entry e5 in let hf6 := fold_entry
  e6 in
  r ← foldB (fun (_ : unit) pilot =>
        hp ← idx (pilotHPs s) (u8 pilot);
        let s0 := pilotSlotFolded hf0 hp (numSlots s) in
        let s1 := pilotSlotFolded hf1 hp (numSlots s) in
        let s2 := pilotSlotFolded hf2 hp (numSlots s) in
        let s3 := pilotSlotFolded hf3 hp (numSlots s) in
        let s4 := pilotSlotFolded hf4 hp (numSlots s) in
        let s5 := pilotSlotFolded hf5 hp (numSlots s) in
        let s6 := pilotSlotFolded hf6 hp (numSlots s) in
        t0 ← slotGenIsTaken s s0; t1 ← slotGenIsTaken s s1; t2 ← slotGenIsTaken s s2; t3 ←
        slotGenIsTaken s s3; t4 ← slotGenIsTaken s s4; t5 ← slotGenIsTaken s s5; t6 ←
        slotGenIsTaken s s6;
        if t0 || t1 || t2 || t3 || t4 || t5 || t6 then Ok (inl tt)
        else
          let noDup :=
            negb (s0 =? s1) && negb (s0 =? s2) && negb (s0 =? s3) && negb (s0 =? s4) && negb (s0
            =? s5) && negb (s0 =? s6) && negb (s1 =? s2) && negb (s1 =? s3) && negb (s1 =? s4) &&
            negb (s1 =? s5) && negb (s1 =? s6) && negb (s2 =? s3) && negb (s2 =? s4) && negb (s2
            =? s5) && negb (s2 =? s6) && negb (s3 =? s4) && negb (s3 =? s5) && negb (s3 =? s6) &&
            negb (s4 =? s5) && negb (s4 =? s6) && negb (s5 =? s6) in
          if noDup
          then
            b ← upd (slotsBuffer s) 0 (u16 s0); b ← upd b 1 (u16 s1); b ← upd b 2 (u16 s2); b ←
            upd b 3 (u16 s3); b ← upd b 4 (u16 s4); b ← upd b 5 (u16 s5); b ← upd b 6 (u16 s6); Ok
            (inr (u8 pilot, b))
          else Ok (inl tt))
        tt (range numPilotValues);
  Ok (search_result s r).

Definition findFreePilot8 (s : solver) (bucket : list bucketEntry) : res (Z * bool * solver) :=
  e0 ← idx bucket 0; e1 ← idx bucket 1; e2 ← idx bucket 2; e3 ← idx bucket 3; e4 ← idx bucket 4;
  e5 ← idx bucket 5; e6 ← idx bucket 6; e7 ← idx bucket 7;
  let hf0 := fold_entry e0 in let hf1 := fold_entry e1 in let hf2 := fold_entry e2 in let hf3 :=
  fold_entry e3 in let hf4 := fold_entry e4 in let hf5 := fold_entry e5 in let hf6 := fold_entry
  e6 in let hf7 := fold_entry e7 in
  r ← foldB (fun (_ : unit) pilot =>
        hp ← idx (pilotHPs s) (u8 pilot);
        let s0 := pilotSlotFolded hf0 hp (numSlots s) in
        let s1 := pilotSlotFolded hf1 hp (numSlots s) in
        let s2 := pilotSlotFolded hf2 hp (numSlots s) in
        let s3 := pilotSlotFolded hf3 hp (numSlots s) in
        let s4 := pilotSlotFolded hf4 hp (numSlots s) in
        let s5 := pilotSlotFolded hf5 hp (numSlots s) in
        let s6 := pilotSlotFolded hf6 hp (numSlots s) in
        let s7 := pilotSlotFolded hf7 hp (numSlots s) in
        t0 ← slotGenIsTaken s s0; t1 ← slotGenIsTaken s s1; t2 ← slotGenIsTaken s s2; t3 ←
        slotGenIsTaken s s3; t4 ← slotGenIsTaken s s4; t5 ← slotGenIsTaken s s5; t6 ←
        slotGenIsTaken s s6; t7 ← slotGenIsTaken s s7;
        if t0 || t1 || t2 || t3 || t4 || t5 || t6 || t7 then Ok (inl tt)
        else
          let noDup :=
            negb (s0 =? s1) && negb (s0 =? s2) && negb (s0 =? s3) && negb (s0 =? s4) && negb (s0
            =? s5) && negb (s0 =? s6) && negb (s0 =? s7) && negb (s1 =? s2) && negb (s1 =? s3) &&
            negb (s1 =? s4) && negb (s1 =? s5) && negb (s1 =? s6) && negb (s1 =? s7) && negb (s2
            =? s3) && negb (s2 =? s4) && negb (s2 =? s5) && negb (s2 =? s6) && negb (s2 =? s7) &&
            negb (s3 =? s4) && negb (s3 =? s5) && negb (s3 =? s6) && negb (s3 =? s7) && negb (s4
            =? s5) && negb (s4 =? s6) && negb (s4 =? s7) && negb (s5 =? s6) && negb (s5 =? s7) &&
            negb (s6 =? s7) in
          if noDup
          then
            b ← upd (slotsBuffer s) 0 (u16 s0); b ← upd b 1 (u16 s1); b ← upd b 2 (u16 s2); b ←
            upd b 3 (u16 s3); b ← upd b 4 (u16 s4); b ← upd b 5 (u16 s5); b ← upd b 6 (u16 s6); b
            ← upd b 7 (u16 s7); Ok (inr (u8 pilot, b))
          else Ok (inl tt))
        tt (range numPilotValues);
  Ok (search_result s r).

(** ** The chunked search *)

(** [hasNoDuplicateSlots]: marks the slots with [generation+1] and clears them
    again, in both outcomes. *)
Definition hasNoDuplicateSlots (s : solver) (slots : list Z) : res (bool * solver) :=
  let localGen := u8 (generation s + 1) in
  let n := len slots in
  r ← foldB (fun slotGen i =>
        slot ← idx slots i;
        g ← idx slotGen slot;
        if g =? localGen then
          slotGen ← foldM (fun slotGen j => x ← idx slots j; upd slotGen x 0) slotGen (range i);
          Ok (inr slotGen)
        else
          slotGen ← upd slotGen slot localGen;
          Ok (inl slotGen)) (slotGen s) (range n);
  match r with
  | inr slotGen => Ok (false, set_slotGen slotGen s)
  | inl slotGen =>
      slotGen ← foldM (fun slotGen i => x ← idx slots i; upd slotGen x 0) slotGen (range n);
      Ok (true, set_slotGen slotGen s)
  end.

Definition findFreePilotSlice (s : solver) (bucket : list bucketEntry) : res (Z * bool * solver) :=
  let n := len bucket in
  slots ← slice (slotsBuffer s) 0 n;
  hs ← slice (foldedBuffer s) 0 n;
  let r := n / 4 * 4 in
  folded ← foldM (fun folded i => e ← idx bucket i; upd folded i (fold_entry e))
             (foldedBuffer s) (range n);
  let s := set_foldedBuffer folded s in
  res ← foldB (fun s pilot =>
    hp ← idx (pilotHPs s) (u8 pilot);
    let put b i := h ← idx folded i; upd b i (u16 (pilotSlotFolded h hp (numSlots s))) in
    let test b i := x ← idx b i; slotGenIsTaken s x in
    (* chunks of four *)
    c ← foldB (fun b k =>
          let i := 4 * k in
          b ← put b i; b ← put b (i + 1); b ← put b (i + 2); b ← put b (i + 3);
          t0 ← test b i; t1 ← test b (i + 1); t2 ← test b (i + 2); t3 ← test b (i + 3);
          Ok (if t0 || t1 || t2 || t3 then inr b else inl b))
        (slotsBuffer s) (range (r / 4));
    c ← (match c with
        | inr b => Ok (inr b)
        | inl b =>
            (* the remaining n mod 4 *)
            foldB (fun b i =>
              b ← put b i; t ← test b i;
              Ok (if t : bool then inr b else inl b)) b (seqZ r (n - r))
        end : res (list Z + list Z));
    match c with
    | inr b => Ok (inl (set_slotsBuffer b s))
    | inl b =>
        let s := set_slotsBuffer b s in
        slots ← slice (slotsBuffer s) 0 n;
        '(ok, s) ← hasNoDuplicateSlots s slots;
        Ok (if ok : bool then inr (u8 pilot, s) else inl s)
    end) s (range numPilotValues);
  Ok (match res with inl s => (0, false, s) | inr (p, s) => (p, true, s) end).

Definition findFreePilot (s : solver) (bucket : list bucketEntry) (bucketSize : Z)
    : res (Z * bool * solver) :=
  if bucketSize =? 1 then findFreePilot1 s bucket
  else if bucketSize =? 2 then findFreePilot2 s bucket
  else if bucketSize =? 3 then findFreePilot3 s bucket
  else if bucketSize =? 4 then findFreePilot4 s bucket
  else if bucketSize =? 5 then findFreePilot5 s bucket
  else if bucketSize =? 6 then findFreePilot6 s bucket
  else if bucketSize =? 7 then findFreePilot7 s bucket
  else if bucketSize =? 8 then findFreePilot8 s bucket
  else findFreePilotSlice s bucket.

(** ** The specification: the first free pilot *)
Definition slot_of (seed nslots pilot : Z) (e : bucketEntry) : Z :=
  pilotSlotFolded (fold_entry e) (pilotHash pilot seed) nslots.

Definition slots_of (seed nslots pilot : Z) (bucket : list bucketEntry) : list Z :=
  map (slot_of seed nslots pilot) bucket.

Definition occupied (s : solver) (slot : Z) : Prop :=
  slotGen s !! Z.to_nat slot = Some (generation s).

#[export] Instance occupied_dec s slot : Decision (occupied s slot).
Proof. unfold occupied. apply _. Defined.

Definition free_pilot (s : solver) (bucket : list bucketEntry) (pilot : Z) : Prop :=
  let slots := slots_of (globalSeed s) (numSlots s) pilot bucket in
  NoDup slots /\ Forall (fun x => ~ occupied s x) slots.

#[export] Instance free_pilot_dec s bucket pilot : Decision (free_pilot s bucket pilot).
Proof. unfold free_pilot. apply _. Defined.

Definition first_free (s : solver) (bucket : list bucketEntry) : option Z :=
  find_first numPilotValues (fun p => if decide (free_pilot s bucket p) then Some p else None).

(** The bytes of the tables the search reads, and its scratch buffers. *)
Record search_wf (s : solver) (n : Z) : Prop := {
  wf_numSlots : 0 < numSlots s < 2 ^ 16;
  wf_pilotHPs : pilotHPs s = map (fun p => pilotHash p (globalSeed s)) (range numPilotValues);
  wf_slotGen : numSlots s <= len (slotGen s);
  wf_gen : 0 < generation s < 254;
  wf_slotGen_le : Forall (fun g => 0 <= g <= generation s) (slotGen s);
  wf_slotsBuffer : n <= len (slotsBuffer s);
  wf_foldedBuffer : n <= len (foldedBuffer s)
}.

Lemma slot_of_lt s n pilot e :
  search_wf s n -> 0 <= slot_of (globalSeed s) (numSlots s) pilot e < numSlots s.
Proof. intros H. apply pilotSlotFolded_lt; pose proof (wf_numSlots _ _ H); unfold_words; lia. Qed.

Lemma hp_read s n p :
  search_wf s n -> 0 <= p < 256 -> idx (pilotHPs s) (u8 p) = Ok (pilotHash p (globalSeed s)).
Proof.
  intros H Hp. rewrite (wf_pilotHPs _ _ H), u8_id by (unfold_words; lia).
  rewrite <- (Z2Nat.id p) at 1 by lia. apply idx_nat.
  rewrite list_lookup_fmap. unfold range. rewrite lookup_seqZ_lt by (unfold numPilotValues; lia).
  simpl. by rewrite Z2Nat.id by lia.
Qed.

Lemma taken_read s n slot :
  search_wf s n -> 0 <= slot < numSlots s -> slotGenIsTaken s slot = Ok (bool_decide (occupied s slot)).
Proof.
  intros H Hs. pose proof (wf_slotGen _ _ H). unfold slotGenIsTaken.
  destruct (idx_in_range (slotGen s) slot) as (g & Hg & ->); [lia |]. cbn [mbind res_bind].
  f_equal. symmetry. destruct (Z.eqb_spec g (generation s)) as [-> |].
  - by apply bool_decide_eq_true.
  - apply bool_decide_eq_false. unfold occupied. congruence.
Qed.

(** The result all the searches share. *)
Definition search_out (s : solver) (bucket : list bucketEntry) : Z * bool * solver :=
  match first_free s bucket with
  | Some p => (p, true, set_slotsBuffer
      (slots_of (globalSeed s) (numSlots s) p bucket ++ drop (length bucket) (slotsBuffer s)) s)
  | None => (0, false, s)
  end.

Lemma search_out_find s bucket :
  search_out s bucket =
  search_result s (match find_first numPilotValues (fun p =>
     if decide (free_pilot s bucket p)
     then Some (p, slots_of (globalSeed s) (numSlots s) p bucket ++ drop (length bucket) (slotsBuffer s))
     else None) with Some r => inr r | None => inl tt end).
Proof.
  unfold search_out, first_free.
  set (g := fun p => slots_of (globalSeed s) (numSlots s) p bucket ++ drop (length bucket) (slotsBuffer s)).
  destruct (find_first _ (fun p => if decide (free_pilot s bucket p) then Some p else None)) as [p |] eqn:H1;
    destruct (find_first _ (fun p => if decide _ then Some (p, _) else None)) as [[q b] |] eqn:H2.
  - apply find_first_Some in H1 as (x & Hx & Hr & Hlt). apply find_first_Some in H2 as (y & Hy & Hr' & Hlt').
    destruct (decide (free_pilot s bucket x)); [| done]. destruct (decide (free_pilot s bucket y)); [| done].
    simplify_eq. assert (p = q) as ->; [| done].
    destruct (Z.lt_total p q) as [H | [H | H]]; [| done |].
    + specialize (Hlt' p ltac:(lia)). by destruct (decide (free_pilot s bucket p)).
    + specialize (Hlt q ltac:(lia)). by destruct (decide (free_pilot s bucket q)).
  - apply find_first_Some in H1 as (x & Hx & Hr & _).
    pose proof (find_first_None _ _ H2 x ltac:(lia)) as Hn. cbv beta in Hn. by case_decide.
  - apply find_first_Some in H2 as (x & Hx & Hr & _).
    pose proof (find_first_None _ _ H1 x ltac:(lia)) as Hn. cbv beta in Hn. by case_decide.
  - done.
Qed.

(** ** The unrolled searches compute it *)
Lemma slots_of_cons seed n p e bucket :
  slots_of seed n p (e :: bucket) = slot_of seed n p e :: slots_of seed n p bucket.
Proof. done. Qed.

(** Reads of a list whose first elements are known. *)
Ltac known_idx :=
  repeat match goal with
  | |- context [idx (?x :: ?l) ?i] =>
      let r := eval lazy in (idx (x :: l) i) in change (idx (x :: l) i) with r
  end; cbn [mbind res_bind].

Ltac elem_tac := repeat (apply list_elem_of_here || apply list_elem_of_further).

(** A pilot that fails a test is not free. *)
Ltac not_free :=
  rewrite decide_False; [done |]; intros [Hnd Hfree]; cbn [slots_of map] in Hnd, Hfree;
  repeat match goal with H : NoDup (_ :: _) |- _ => apply NoDup_cons in H as [? H] end;
  match goal with
  | H : occupied _ ?x |- _ => apply (proj1 (Forall_forall _ _) Hfree x); [elem_tac | exact H]
  | H : ?x = ?y, H' : ?x ∉ _ |- _ => apply H'; rewrite H; elem_tac
  end.

Ltac all_free :=
  rewrite decide_True;
  [ | split; cbn [slots_of map];
      [ repeat (apply NoDup_cons; split; [repeat (apply not_elem_of_cons; split; [done |]); apply not_elem_of_nil |]);
        apply NoDup_nil_2
      | repeat (apply Forall_cons; split; [done |]); apply Forall_nil_2 ] ].

Ltac search_tests :=
  repeat match goal with
  | |- context [bool_decide (occupied ?s ?x)] =>
      destruct (bool_decide_reflect (occupied s x)); cbn [negb orb andb]; [try not_free |]
  end;
  repeat match goal with
  | |- context [?x =? ?y] => destruct (Z.eqb_spec x y); cbn [negb orb andb]; [try not_free |]
  end.

(** The writes of the slots found to the head of the buffer. *)
Ltac known_upd :=
  repeat (rewrite upd_in_range by (rewrite ?len_insert; unfold len; cbn [length]; lia);
          cbn [mbind res_bind]).

(** [search_tac Hwf bucket d]: [d] destructs a buffer as far as the bucket needs. *)
Ltac search_tac s bucket Hwf d :=
  rewrite search_out_find; known_idx;
  erewrite (foldB_find (fun p => if decide (free_pilot s bucket p) then
    Some (p, slots_of (globalSeed s) (numSlots s) p bucket ++ drop (length bucket) (slotsBuffer s))
    else None)); [done |];
  let p := fresh "p" in let Hp := fresh "Hp" in let L := fresh "L" in let N := fresh "N" in
  let Hb := fresh "Hb" in
  intros p Hp; rewrite (hp_read _ _ _ Hwf), u8_id by (done || unfold_words; lia);
  cbn [mbind res_bind anyTaken];
  change (pilotSlotFolded (fold_entry ?e) (pilotHash p (globalSeed s)) (numSlots s)) with
    (slot_of (globalSeed s) (numSlots s) p e);
  pose proof (fun e => slot_of_lt s _ p e Hwf) as L;
  rewrite ?(taken_read _ _ _ Hwf) by (apply L); cbn [mbind res_bind];
  pose proof (wf_numSlots _ _ Hwf) as N; pose proof (wf_slotsBuffer _ _ Hwf) as Hb;
  rewrite ?(fun e => u16_id (slot_of (globalSeed s) (numSlots s) p e))
    by (match goal with |- is_u _ (slot_of _ _ _ ?e) => specialize (L e) end; unfold_words; lia);
  search_tests; try not_free; all_free; clear L;
  repeat match goal with H : _ <> _ |- _ => clear H | H : ~ occupied _ _ |- _ => clear H end;
  cbn [slots_of map app length];
  set (buf := slotsBuffer s) in *; clearbody buf; unfold len in Hb; d buf;
  known_upd; done.

Ltac cut_head b := destruct b as [| ? b]; [cbn [length] in *; lia |].

Lemma findFreePilot1_eq s e0 :
  search_wf s 1 -> findFreePilot1 s [e0] = Ok (search_out s [e0]).
Proof.
  intros Hwf. unfold findFreePilot1. search_tac s [e0] Hwf ltac:(fun b => do 1 cut_head b).
Qed.

Lemma findFreePilot2_eq s e0 e1 :
  search_wf s 2 -> findFreePilot2 s [e0; e1] = Ok (search_out s [e0; e1]).
Proof.
  intros Hwf. unfold findFreePilot2. search_tac s [e0; e1] Hwf ltac:(fun b => do 2 cut_head b).
Qed.

Lemma findFreePilot3_eq s e0 e1 e2 :
  search_wf s 3 -> findFreePilot3 s [e0; e1; e2] = Ok (search_out s [e0; e1; e2]).
Proof.
  intros Hwf. unfold findFreePilot3. search_tac s [e0; e1; e2] Hwf ltac:(fun b => do 3 cut_head b).
Qed.

Lemma findFreePilot4_eq s e0 e1 e2 e3 :
  search_wf s 4 ->
  findFreePilot4 s [e0; e1; e2; e3] =
  Ok (search_out s [e0; e1; e2; e3]).
Proof.
  intros Hwf. unfold findFreePilot4.
  search_tac s [e0; e1; e2; e3] Hwf ltac:(fun b => do 4 cut_head b).
Qed.

Lemma findFreePilot5_eq s e0 e1 e2 e3 e4 :
  search_wf s 5 ->
  findFreePilot5 s [e0; e1; e2; e3; e4] =
  Ok (search_out s [e0; e1; e2; e3; e4]).
Proof.
  intros Hwf. unfold findFreePilot5.
  search_tac s [e0; e1; e2; e3; e4] Hwf ltac:(fun b => do 5 cut_head b).
Qed.

Lemma findFreePilot6_eq s e0 e1 e2 e3 e4 e5 :
  search_wf s 6 ->
  findFreePilot6 s [e0; e1; e2; e3; e4; e5] =
  Ok (search_out s [e0; e1; e2; e3; e4; e5]).
Proof.
  intros Hwf. unfold findFreePilot6.
  search_tac s [e0; e1; e2; e3; e4; e5] Hwf ltac:(fun b => do 6 cut_head b).
Qed.

Lemma findFreePilot7_eq s e0 e1 e2 e3 e4 e5 e6 :
  search_wf s 7 ->
  findFreePilot7 s [e0; e1; e2; e3; e4; e5; e6] =
  Ok (search_out s [e0; e1; e2; e3; e4; e5; e6]).
Proof.
  intros Hwf. unfold findFreePilot7.
  search_tac s [e0; e1; e2; e3; e4; e5; e6] Hwf ltac:(fun b => do 7 cut_head b).
Qed.

Lemma findFreePilot8_eq s e0 e1 e2 e3 e4 e5 e6 e7 :
  search_wf s 8 ->
  findFreePilot8 s [e0; e1; e2; e3; e4; e5; e6; e7] =
  Ok (search_out s [e0; e1; e2; e3; e4; e5; e6; e7]).
Proof.
  intros Hwf. unfold findFreePilot8.
  search_tac s [e0; e1; e2; e3; e4; e5; e6; e7] Hwf ltac:(fun b => do 8 cut_head b).
Qed.

(** ** Marking slots *)
Definition mark {A} (v : A) (xs : list Z) (g : list A) : list A :=
  fold_left (fun g x => <[Z.to_nat x := v]> g) xs g.

Lemma mark_length {A} (v : A) xs g : length (mark v xs g) = length g.
Proof.
  revert g. induction xs as [| x xs IH]; intros g; [done |]. cbn [mark fold_left].
  change (fold_left _ xs ?g) with (mark v xs g). by rewrite IH, length_insert.
Qed.

Lemma mark_len {A} (v : A) xs g : len (mark v xs g) = len g.
Proof. unfold len. by rewrite mark_length. Qed.

Lemma mark_snoc {A} (v : A) xs x g : mark v (xs ++ [x]) g = <[Z.to_nat x := v]> (mark v xs g).
Proof. unfold mark. by rewrite fold_left_app. Qed.

Lemma mark_lookup {A} (v : A) xs g (k : nat) :
  Forall (fun x => 0 <= x < len g) xs ->
  mark v xs g !! k = if decide (Z.of_nat k ∈ xs) then Some v else g !! k.
Proof.
  induction xs as [| x xs IH] using rev_ind; intros Hx; [done |].
  apply Forall_app in Hx as [Hxs [Hx _]%Forall_cons]. rewrite mark_snoc.
  destruct (decide (Z.of_nat k = x)) as [<- |].
  - rewrite Nat2Z.id, list_lookup_insert_eq by (rewrite mark_length; unfold len in Hx; lia).
    rewrite decide_True by set_solver. done.
  - rewrite list_lookup_insert_ne by lia. rewrite IH by done.
    destruct (decide (Z.of_nat k ∈ xs)); [rewrite decide_True by set_solver | rewrite decide_False by set_solver]; done.
Qed.

Lemma mark_loop {A} (v : A) (slots : list Z) (g : list A) (m : nat) :
  Forall (fun x => 0 <= x < len g) slots -> (m <= length slots)%nat ->
  foldM (fun g j => x ← idx slots j; upd g x v) g (range (Z.of_nat m)) = Ok (mark v (take m slots) g).
Proof.
  intros Hs. induction m as [| m IH]; intros Hm; [by rewrite take_0 |].
  rewrite Nat2Z.inj_succ, <- Z.add_1_r, range_succ, foldM_snoc, IH by lia. cbn [mbind res_bind].
  destruct (lookup_lt_is_Some_2 slots m) as [x Hx]; [lia |].
  rewrite (idx_nat _ _ _ Hx). cbn [mbind res_bind].
  rewrite upd_in_range by (rewrite mark_len; by eapply (Forall_lookup_1 _ _ _ _ Hs)).
  by rewrite (take_S_r _ _ _ Hx), mark_snoc.
Qed.

(** The occupancy recorded in two generation arrays is the same. *)
Definition same_occ (gen : Z) (g g' : list Z) : Prop :=
  length g' = length g /\ Forall (fun x => 0 <= x <= gen) g' /\
  forall k : nat, g' !! k = Some gen <-> g !! k = Some gen.

Lemma same_occ_refl gen g : Forall (fun x => 0 <= x <= gen) g -> same_occ gen g g.
Proof. done. Qed.

Lemma same_occ_trans gen g g' g'' : same_occ gen g g' -> same_occ gen g' g'' -> same_occ gen g g''.
Proof.
  intros (H1 & H2 & H3) (H1' & H2' & H3'). split_and!; [congruence | done |].
  intros k. by rewrite H3', H3.
Qed.

(** Clearing free slots, after they were marked, changes nothing that counts. *)
Lemma mark_clear_same_occ gen m slots g :
  0 < gen -> Forall (fun x => 0 <= x <= gen) g -> Forall (fun x => 0 <= x < len g) slots ->
  Forall (fun x => g !! Z.to_nat x <> Some gen) slots ->
  same_occ gen g (mark 0 slots (mark m slots g)).
Proof.
  intros Hgen Hg Hs Hfree.
  assert (Hs' : Forall (fun x => 0 <= x < len (mark m slots g)) slots) by (by rewrite mark_len).
  assert (forall k, mark 0 slots (mark m slots g) !! k = if decide (Z.of_nat k ∈ slots) then Some 0 else g !! k) as Hk.
  { intros k. rewrite mark_lookup by done. case_decide; [done |].
    rewrite mark_lookup by done. by rewrite decide_False. }
  split_and!.
  - by rewrite !mark_length.
  - apply Forall_lookup. intros k x. rewrite Hk. case_decide; [intros [= <-]; lia |].
    by apply (Forall_lookup_1 _ _ _ _ Hg).
  - intros k. rewrite Hk. case_decide as Hin; [| done]. split; [intros [= ?]; lia |].
    pose proof (proj1 (Forall_forall _ _) Hfree _ Hin) as Hf. cbv beta in Hf. by rewrite Nat2Z.id in Hf.
Qed.

(** ** Duplicate detection by generation *)
Lemma hasNoDuplicateSlots_spec s n slots :
  search_wf s n -> Forall (fun x => 0 <= x < numSlots s) slots ->
  Forall (fun x => ~ occupied s x) slots ->
  wp (hasNoDuplicateSlots s slots) (fun '(b, s') => b = bool_decide (NoDup slots) /\
    exists g, s' = set_slotGen g s /\ same_occ (generation s) (slotGen s) g) no_err.
Proof.
  intros Hwf Hs Hfree. pose proof (wf_gen _ _ Hwf) as Hgen.
  pose proof (wf_slotGen_le _ _ Hwf) as Hg. pose proof (wf_slotGen _ _ Hwf) as Hgl.
  assert (Hsl : Forall (fun x => 0 <= x < len (slotGen s)) slots).
  { eapply Forall_impl; [exact Hs |]. simpl. lia. }
  unfold hasNoDuplicateSlots. rewrite u8_id by (unfold_words; lia).
  set (lg := generation s + 1).
  assert (forall i, (i <= length slots)%nat ->
    same_occ (generation s) (slotGen s) (mark 0 (take i slots) (mark lg (take i slots) (slotGen s)))) as Hsame.
  { intros i Hi. apply mark_clear_same_occ; [lia | done | by apply Forall_take |].
    apply Forall_take. exact Hfree. }
  apply wp_bind.
  apply (wp_foldB_prefix (fun pre g => g = mark lg (take (length pre) slots) (slotGen s) /\
    NoDup (take (length pre) slots))).
  - split; [done | apply NoDup_nil_2].
  - intros pre i post g Hr [-> Hnd]. apply range_prefix in Hr as [-> Hi]. unfold len in Hi |- *.
    destruct (lookup_lt_is_Some_2 slots (length pre)) as [x Hx]; [lia |].
    rewrite (idx_nat _ _ _ Hx). cbn [mbind res_bind].
    pose proof (Forall_lookup_1 _ _ _ _ Hsl Hx) as Hxr. cbv beta in Hxr.
    assert (Hst : Forall (fun y => 0 <= y < len (slotGen s)) (take (length pre) slots)) by (by apply Forall_take).
    destruct (idx_in_range (mark lg (take (length pre) slots) (slotGen s)) x) as (gx & Hgx & ->);
      [by rewrite mark_len |]. cbn [mbind res_bind].
    rewrite mark_lookup, Z2Nat.id in Hgx by (done || lia).
    assert (gx = lg <-> x ∈ take (length pre) slots) as Hiff.
    { case_decide; [naive_solver |]. split; [| done]. intros ->.
      pose proof (Forall_lookup_1 _ _ _ _ Hg Hgx) as Hle. cbv beta in Hle. unfold lg in Hle. lia. }
    destruct (Z.eqb_spec gx lg) as [Heq | Hne].
    + rewrite (mark_loop 0) by (rewrite ?mark_len; done || lia). simpl.
      split.
      * symmetry. apply bool_decide_eq_false. intros Hnd'.
        apply Hiff, list_elem_of_lookup in Heq as [j Hj]. apply lookup_take_Some in Hj as [Hj Hjl].
        pose proof (NoDup_lookup _ _ _ _ Hnd' Hj Hx). lia.
      * eexists. split; [done |]. apply Hsame. lia.
    + rewrite upd_in_range by (by rewrite mark_len). simpl.
      rewrite length_app, Nat.add_1_r. rewrite (take_S_r _ _ _ Hx), mark_snoc. split; [done |].
      apply NoDup_app. split_and!; [done | | apply NoDup_singleton].
      intros y Hy ->%list_elem_of_singleton. by apply Hne, Hiff.
  - intros g [-> Hnd]. rewrite length_range in *. unfold len in *. rewrite Nat2Z.id in *.
    rewrite (mark_loop 0 slots _ (length slots)) by (rewrite ?mark_len; done || lia). simpl. split.
    + symmetry. apply bool_decide_eq_true. by rewrite take_ge in Hnd.
    + eexists. split; [done |]. by apply Hsame.
Qed.

(** ** The chunked search computes it *)
Lemma slots_of_length seed n p bucket : length (slots_of seed n p bucket) = length bucket.
Proof. apply length_map. Qed.

Lemma slots_of_lt s n p bucket :
  search_wf s n -> Forall (fun x => 0 <= x < numSlots s) (slots_of (globalSeed s) (numSlots s) p bucket).
Proof.
  intros Hwf. apply Forall_forall. intros x Hx.
  apply list_elem_of_In, in_map_iff in Hx as (e & <- & _). by apply (slot_of_lt s n).
Qed.

Section slice.
Context (s : solver) (n : Z) (bucket : list bucketEntry) (p : Z) (folded : list Z).
Hypothesis Hwf : search_wf s n.
Hypothesis Hn : len bucket = n.
Hypothesis Hfold : take (length bucket) folded = map fold_entry bucket.

Let sl : list Z := slots_of (globalSeed s) (numSlots s) p bucket.

(** The buffer holds the slots of the first [m] keys, all of them free. *)
Definition agree (b : list Z) (m : Z) : Prop :=
  length b = length (slotsBuffer s) /\ 0 <= m <= n /\
  take (Z.to_nat m) b = take (Z.to_nat m) sl.

Definition put (b : list Z) (i : Z) : res (list Z) :=
  h ← idx folded i; upd b i (u16 (pilotSlotFolded h (pilotHash p (globalSeed s)) (numSlots s))).

Definition test (b : list Z) (i : Z) : res bool := x ← idx b i; slotGenIsTaken s x.

Lemma put_agree b i : i < n -> agree b i -> exists b', put b i = Ok b' /\ agree b' (i + 1).
Proof using All.
  intros Hin (Hl & Hi & Ht). unfold put.
  pose proof (wf_slotsBuffer _ _ Hwf) as Hb. unfold len in Hn, Hb.
  destruct (lookup_lt_is_Some_2 bucket (Z.to_nat i)) as [e He]; [lia |].
  assert (folded !! Z.to_nat i = Some (fold_entry e)) as Hf.
  { rewrite <- (lookup_take_lt folded (length bucket)) by lia. rewrite Hfold.
    by rewrite list_lookup_fmap, He. }
  rewrite (proj2 (idx_ok _ _ _) (conj (proj1 Hi) Hf)). cbn [mbind res_bind].
  rewrite upd_in_range by (unfold len; lia). eexists. split; [done |]. unfold agree.
  rewrite length_insert. split_and!; [done | lia | lia |].
  pose proof (slot_of_lt s n p e Hwf) as He2. unfold slot_of in He2.
  pose proof (wf_numSlots _ _ Hwf). rewrite u16_id by (unfold_words; lia).
  rewrite Z2Nat.inj_add, Nat.add_1_r by lia.
  assert (sl !! Z.to_nat i = Some (slot_of (globalSeed s) (numSlots s) p e)) as Hsl.
  { unfold sl, slots_of. by rewrite list_lookup_fmap, He. }
  rewrite (take_S_r sl _ _ Hsl).
  erewrite take_S_r by (apply list_lookup_insert_eq; lia).
  rewrite take_insert_ge by lia. by rewrite Ht.
Qed.

Lemma test_agree b i m : 0 <= i < m -> agree b m ->
  exists x, sl !! Z.to_nat i = Some x /\ test b i = Ok (bool_decide (occupied s x)).
Proof using All.
  intros Hi (Hl & Hm & Ht). unfold test. unfold len in Hn.
  assert (length sl = length bucket) as Hsl by apply slots_of_length.
  destruct (lookup_lt_is_Some_2 sl (Z.to_nat i)) as [x Hx]; [lia |]. exists x. split; [done |].
  assert (b !! Z.to_nat i = Some x) as Hb.
  { rewrite <- (lookup_take_lt b (Z.to_nat m)) by lia. rewrite Ht. by rewrite lookup_take_lt by lia. }
  rewrite (proj2 (idx_ok _ _ _) (conj (proj1 Hi) Hb)). cbn [mbind res_bind].
  eapply taken_read; [done |]. pose proof (slots_of_lt s n p bucket Hwf) as Hf.
  exact (Forall_lookup_1 _ _ _ _ Hf Hx).
Qed.

(** The outcome of scanning the slots in order: all free, or one is taken. *)
Definition scan_post (m : Z) (c : list Z + list Z) : Prop :=
  match c with
  | inl b => agree b m /\ Forall (fun x => ~ occupied s x) (take (Z.to_nat m) sl)
  | inr b => length b = length (slotsBuffer s) /\ exists x, x ∈ sl /\ occupied s x
  end.

Definition chunk (b : list Z) (k : Z) : res (list Z + list Z) :=
  let i := 4 * k in
  b ← put b i; b ← put b (i + 1); b ← put b (i + 2); b ← put b (i + 3);
  t0 ← test b i; t1 ← test b (i + 1); t2 ← test b (i + 2); t3 ← test b (i + 3);
  Ok (if t0 || t1 || t2 || t3 then inr b else inl b).

Lemma chunk_spec b k :
  0 <= k -> 4 * k + 4 <= n -> scan_post (4 * k) (inl b) ->
  wp (chunk b k) (scan_post (4 * (k + 1))) no_err.
Proof using All.
  intros Hk Hkn [Hb Hfree]. unfold chunk. cbv zeta. set (i := 4 * k).
  destruct (put_agree b i ltac:(unfold i; lia) Hb) as (b1 & -> & H1). cbn [mbind res_bind].
  destruct (put_agree b1 (i + 1) ltac:(unfold i; lia) H1) as (b2 & -> & H2). cbn [mbind res_bind].
  replace (i + 1 + 1) with (i + 2) in H2 by lia.
  destruct (put_agree b2 (i + 2) ltac:(unfold i; lia) H2) as (b3 & -> & H3). cbn [mbind res_bind].
  replace (i + 2 + 1) with (i + 3) in H3 by lia.
  destruct (put_agree b3 (i + 3) ltac:(unfold i; lia) H3) as (b4 & -> & H4). cbn [mbind res_bind].
  replace (i + 3 + 1) with (4 * (k + 1)) in H4 by (unfold i; lia).
  destruct (test_agree b4 i (4 * (k + 1)) ltac:(unfold i; lia) H4) as (x0 & Hx0 & ->).
  destruct (test_agree b4 (i + 1) (4 * (k + 1)) ltac:(unfold i; lia) H4) as (x1 & Hx1 & ->).
  destruct (test_agree b4 (i + 2) (4 * (k + 1)) ltac:(unfold i; lia) H4) as (x2 & Hx2 & ->).
  destruct (test_agree b4 (i + 3) (4 * (k + 1)) ltac:(unfold i; lia) H4) as (x3 & Hx3 & ->).
  cbn [mbind res_bind wp].
  assert (forall x j, sl !! j = Some x -> occupied s x -> scan_post (4 * (k + 1)) (inr b4)) as Htaken.
  { intros x j Hx Ho. split; [apply H4 |]. exists x. split; [by eapply list_elem_of_lookup_2 | done]. }
  destruct (bool_decide_reflect (occupied s x0)); [by apply (Htaken x0 _ Hx0) |].
  destruct (bool_decide_reflect (occupied s x1)); [by apply (Htaken x1 _ Hx1) |].
  destruct (bool_decide_reflect (occupied s x2)); [by apply (Htaken x2 _ Hx2) |].
  destruct (bool_decide_reflect (occupied s x3)); [by apply (Htaken x3 _ Hx3) |].
  cbn [orb]. split; [done |]. unfold i in *.
  replace (Z.to_nat (4 * (k + 1))) with (S (S (S (S (Z.to_nat (4 * k)))))) by lia.
  rewrite (take_S_r sl _ x3), (take_S_r sl _ x2), (take_S_r sl _ x1), (take_S_r sl _ x0)
    by (first [exact Hx0 | rewrite <- Hx1; f_equal; lia | rewrite <- Hx2; f_equal; lia
              | rewrite <- Hx3; f_equal; lia]).
  rewrite !Forall_app, !Forall_singleton. done.
Qed.

Lemma rest_spec b i :
  i < n -> scan_post i (inl b) ->
  wp (b ← put b i; t ← test b i; Ok (if t : bool then inr b else inl b)) (scan_post (i + 1)) no_err.
Proof using All.
  intros Hin [Hb Hfree]. destruct (put_agree b i Hin Hb) as (b1 & -> & H1). cbn [mbind res_bind].
  destruct Hb as (_ & Hi & _).
  destruct (test_agree b1 i (i + 1) ltac:(lia) H1) as (x & Hx & ->). cbn [mbind res_bind wp].
  destruct (bool_decide_reflect (occupied s x)).
  - split; [apply H1 |]. exists x. split; [by eapply list_elem_of_lookup_2 | done].
  - split; [done |]. rewrite Z2Nat.inj_add, Nat.add_1_r by lia.
    rewrite (take_S_r sl _ x Hx). rewrite Forall_app, Forall_singleton. done.
Qed.

Lemma scan_spec b :
  length b = length (slotsBuffer s) ->
  wp (c ← foldB chunk b (range (n / 4 * 4 / 4));
      match c with
      | inr b => Ok (inr b)
      | inl b => foldB (fun b i => b ← put b i; t ← test b i; Ok (if t : bool then inr b else inl b))
                   b (seqZ (n / 4 * 4) (n - n / 4 * 4))
      end) (scan_post n) no_err.
Proof using All.
  intros Hb. pose proof (len_nonneg bucket) as Hn0. rewrite Hn in Hn0.
  rewrite Z.div_mul by lia. apply wp_bind.
  apply (wp_foldB_prefix (fun pre b => scan_post (4 * len pre) (inl b))
    (fun c => wp match c with inl b => _ | inr b => Ok (inr b) end (scan_post n) no_err)).
  - change (4 * len []) with 0. change (Z.to_nat 0) with 0%nat.
    split; [| rewrite take_0; apply Forall_nil_2]. split_and!; [done | lia | lia | by rewrite !take_0].
  - intros pre k post b' Hr Hinv. apply range_prefix in Hr as [-> Hk].
    eapply wp_mono; [apply chunk_spec; [lia | zlia | done] | | done].
    intros [b'' | b''] Hb''; rewrite ?len_app, ?len_single; [done |]. exact Hb''.
  - intros b' Hinv. unfold len in Hinv. rewrite length_range, Z2Nat.id in Hinv by zlia.
    replace (4 * (n / 4)) with (n / 4 * 4) in Hinv by lia.
    apply (wp_foldB_prefix (fun pre b => scan_post (n / 4 * 4 + len pre) (inl b))).
    + change (len []) with 0. by rewrite Z.add_0_r.
    + intros pre i post b'' Hr Hinv'.
      assert (i = n / 4 * 4 + len pre /\ i < n) as [-> Hi].
      { assert (seqZ (n / 4 * 4) (n - n / 4 * 4) !! length pre = Some i) as Hl.
        { rewrite Hr, lookup_app_r, Nat.sub_diag by lia. done. }
        apply lookup_seqZ in Hl. unfold len. lia. }
      rewrite len_app, len_single, Z.add_assoc. eapply wp_mono; [by apply rest_spec | | done].
      by intros [b3 | b3].
    + intros b'' Hinv'. unfold len in Hinv'. rewrite length_seqZ in Hinv'.
      replace (n / 4 * 4 + Z.of_nat (Z.to_nat (n - n / 4 * 4))) with n in Hinv' by zlia. done.
Qed.
End slice.

Lemma first_free_intro s bucket p :
  0 <= p < numPilotValues -> free_pilot s bucket p ->
  (forall q, 0 <= q < p -> ~ free_pilot s bucket q) -> first_free s bucket = Some p.
Proof.
  intros Hp Hf Hlt. unfold first_free. destruct (find_first _ _) as [r |] eqn:H.
  - apply find_first_Some in H as (x & Hx & Hr & Hltx). case_decide as Hfx; [| done].
    injection Hr as <-. destruct (Z.lt_total x p) as [H | [-> | H]]; [| done |].
    + by destruct (Hlt x ltac:(lia)).
    + specialize (Hltx p ltac:(lia)). cbv beta in Hltx. by rewrite decide_True in Hltx.
  - pose proof (find_first_None _ _ H p Hp) as Hn. cbv beta in Hn. by rewrite decide_True in Hn.
Qed.

Lemma first_free_none s bucket :
  (forall q, 0 <= q < numPilotValues -> ~ free_pilot s bucket q) -> first_free s bucket = None.
Proof.
  intros Hall. unfold first_free. destruct (find_first _ _) as [r |] eqn:H; [| done].
  apply find_first_Some in H as (x & Hx & Hr & _). case_decide; [| done]. by destruct (Hall x ltac:(lia)).
Qed.

Lemma first_free_Some s bucket p :
  first_free s bucket = Some p ->
  0 <= p < numPilotValues /\ free_pilot s bucket p /\ forall q, 0 <= q < p -> ~ free_pilot s bucket q.
Proof.
  intros H. apply find_first_Some in H as (x & Hx & Hr & Hlt). case_decide; [| done].
  injection Hr as <-. split_and!; [lia | lia | done |]. intros q Hq Hf.
  specialize (Hlt q ltac:(lia)). cbv beta in Hlt. by rewrite decide_True in Hlt.
Qed.

Lemma first_free_None s bucket q :
  first_free s bucket = None -> 0 <= q < numPilotValues -> ~ free_pilot s bucket q.
Proof.
  intros H Hq Hf. pose proof (find_first_None _ _ H q Hq) as Hn. cbv beta in Hn.
  by rewrite decide_True in Hn.
Qed.

(** The state a search leaves: scratch buffers changed, occupancy not. *)
Definition scratch_eq (s s' : solver) : Prop :=
  exists b f g, s' = set_slotsBuffer b (set_foldedBuffer f (set_slotGen g s)) /\
    length b = length (slotsBuffer s) /\ length f = length (foldedBuffer s) /\
    same_occ (generation s) (slotGen s) g.

Lemma scratch_eq_refl s : Forall (fun x => 0 <= x <= generation s) (slotGen s) -> scratch_eq s s.
Proof. intros H. exists (slotsBuffer s), (foldedBuffer s), (slotGen s). by destruct s. Qed.

Lemma scratch_eq_trans s s' s'' : scratch_eq s s' -> scratch_eq s' s'' -> scratch_eq s s''.
Proof.
  intros (b & f & g & -> & Hb & Hf & Hg) (b' & f' & g' & -> & Hb' & Hf' & Hg').
  cbn [slotsBuffer foldedBuffer slotGen generation set_slotsBuffer set_foldedBuffer set_slotGen] in *.
  exists b', f', g'. split_and!; [done | congruence | congruence |]. by eapply same_occ_trans.
Qed.

Lemma scratch_eq_occupied s s' x : scratch_eq s s' -> occupied s' x <-> occupied s x.
Proof. intros (b & f & g & -> & _ & _ & _ & _ & Hg). apply Hg. Qed.

Lemma scratch_eq_free s s' bucket p : scratch_eq s s' -> free_pilot s' bucket p <-> free_pilot s bucket p.
Proof.
  intros He. pose proof (scratch_eq_occupied s s') as Ho.
  destruct He as (b & f & g & -> & Hr). unfold free_pilot. cbn [globalSeed numSlots set_slotsBuffer set_foldedBuffer set_slotGen].
  split; (intros [H1 H2]; split; [done |]); eapply Forall_impl; [exact H2 | | exact H2 |];
    intros x Hx; cbv beta; [rewrite <- Ho | rewrite Ho]; try done; by exists b, f, g.
Qed.

Lemma scratch_eq_wf s s' n : scratch_eq s s' -> search_wf s n -> search_wf s' n.
Proof.
  intros (b & f & g & -> & Hb & Hf & Hgl & Hgle & Hg) []. split; try done; simpl.
  - unfold len in *. lia.
  - unfold len in *. lia.
  - unfold len in *. lia.
Qed.

(** What every search returns. *)
Definition search_post (s : solver) (bucket : list bucketEntry) (r : Z * bool * solver) : Prop :=
  let '(p, ok, s') := r in
  scratch_eq s s' /\
  match first_free s bucket with
  | Some q => ok = true /\ p = q /\
      take (length bucket) (slotsBuffer s') = slots_of (globalSeed s) (numSlots s) q bucket
  | None => ok = false
  end.

Lemma search_out_post s bucket :
  search_wf s (len bucket) -> search_post s bucket (search_out s bucket).
Proof.
  intros Hwf. pose proof (wf_slotGen_le _ _ Hwf) as Hg. unfold search_out, search_post.
  destruct (first_free s bucket) as [p |]; [| split; [by apply scratch_eq_refl | done]].
  set (b := slots_of _ _ _ _ ++ _). split_and!; [| done | done |].
  - exists b, (foldedBuffer s), (slotGen s). split_and!; [by destruct s | | done | by apply same_occ_refl].
    pose proof (wf_slotsBuffer _ _ Hwf) as Hb. unfold b, len in *.
    rewrite length_app, slots_of_length, length_drop. lia.
  - simpl. unfold b. rewrite <- (slots_of_length (globalSeed s) (numSlots s) p bucket) at 1.
    by rewrite take_app_length.
Qed.

Lemma fold_loop s bucket :
  search_wf s (len bucket) ->
  exists folded, foldM (fun folded i => e ← idx bucket i; upd folded i (fold_entry e))
      (foldedBuffer s) (range (len bucket)) = Ok folded /\
    length folded = length (foldedBuffer s) /\ take (length bucket) folded = map fold_entry bucket.
Proof.
  intros Hwf. pose proof (wf_foldedBuffer _ _ Hwf) as Hf. unfold len in Hf.
  apply wp_total. eapply wp_mono.
  - apply (wp_foldM_prefix (fun pre f => length f = length (foldedBuffer s) /\
      take (length pre) f = take (length pre) (map fold_entry bucket))); [done |].
    intros pre i post f Hr [Hl Ht]. apply range_prefix in Hr as [-> Hi]. unfold len in *.
    destruct (lookup_lt_is_Some_2 bucket (length pre)) as [e He]; [lia |].
    rewrite (idx_nat _ _ _ He). cbn [mbind res_bind]. apply wp_upd; [unfold len; lia |].
    rewrite length_insert, Nat2Z.id, length_app, Nat.add_1_r. split; [done |].
    erewrite take_S_r by (apply list_lookup_insert_eq; lia).
    rewrite take_insert_ge, Ht by lia. symmetry. apply take_S_r.
    by rewrite list_lookup_fmap, He.
  - intros f [Hl Ht]. rewrite length_range in Ht. unfold len in Ht. rewrite Nat2Z.id in Ht.
    split; [done |]. rewrite Ht. apply take_ge. by rewrite length_map.
  - done.
Qed.

Lemma findFreePilotSlice_spec s bucket :
  search_wf s (len bucket) -> wp (findFreePilotSlice s bucket) (search_post s bucket) no_err.
Proof.
  intros Hwf. pose proof (wf_slotsBuffer _ _ Hwf) as Hb. pose proof (wf_foldedBuffer _ _ Hwf) as Hf.
  pose proof (len_nonneg bucket). pose proof (wf_slotGen_le _ _ Hwf) as Hg.
  unfold findFreePilotSlice. rewrite !slice_in_range by lia. cbn [mbind res_bind].
  destruct (fold_loop s bucket Hwf) as (folded & -> & Hfl & Hft). cbn [mbind res_bind].
  set (s0 := set_foldedBuffer folded s).
  assert (scratch_eq s s0) as H0.
  { exists (slotsBuffer s), folded, (slotGen s). split_and!; [by destruct s | done | done | by apply same_occ_refl]. }
  apply wp_bind.
  apply (wp_foldB_prefix (fun pre s' => scratch_eq s s' /\
      forall q, 0 <= q < len pre -> ~ free_pilot s bucket q)).
  - split; [done |]. intros q. unfold len. simpl. lia.
  - intros pre p post s1 Hr [H1 Hnone]. apply range_prefix in Hr as [-> Hp].
    set (p := len pre) in *. pose proof (scratch_eq_wf _ _ _ H1 Hwf) as Hwf1.
    rewrite (hp_read _ _ _ Hwf1), (u8_id p) by (done || (unfold numPilotValues in Hp; unfold_words; lia)).
    cbn [mbind res_bind]. cbv zeta.
    rewrite <- res_bind_assoc. apply wp_bind.
    eapply wp_mono; [exact (scan_spec s1 (len bucket) bucket p folded Hwf1 eq_refl Hft (slotsBuffer s1) eq_refl)
      | | done].
    assert (globalSeed s1 = globalSeed s /\ numSlots s1 = numSlots s /\ generation s1 = generation s)
      as (Hsd & Hns & Hgn) by (destruct H1 as (? & ? & ? & -> & _); done).
    assert (forall b, length b = length (slotsBuffer s1) -> scratch_eq s (set_slotsBuffer b s1)) as Hsb.
    { intros b Hlb. eapply scratch_eq_trans; [exact H1 |].
      exists b, (foldedBuffer s1), (slotGen s1). split_and!; [by destruct s1 | done | done |].
      apply same_occ_refl, (wf_slotGen_le _ _ Hwf1). }
    rewrite len_app, len_single. fold p.
    assert (~ free_pilot s bucket p -> forall q, 0 <= q < p + 1 -> ~ free_pilot s bucket q) as Hnext.
    { intros Hnp q Hq. destruct (decide (q = p)) as [-> |]; [done |]. apply Hnone. lia. }
    intros [b | b].
    + intros [(Hlb & _ & Ht) Hfree]. unfold len in Ht, Hfree. rewrite Nat2Z.id in Ht, Hfree.
      rewrite (take_ge (slots_of _ _ _ _)) in Ht, Hfree by (by rewrite slots_of_length).
      rewrite slice_in_range by (cbn [slotsBuffer set_slotsBuffer]; unfold len in *; destruct H1 as (? & ? & ? & -> & ? & _); simpl in *; lia).
      cbn [mbind res_bind slotsBuffer set_slotsBuffer].
      change (Z.to_nat 0) with 0%nat. rewrite drop_0, Z.sub_0_r. unfold len. rewrite Nat2Z.id, Ht.
      pose proof (Hsb b Hlb) as H2. pose proof (scratch_eq_wf _ _ _ H2 Hwf) as Hwf2.
      apply wp_bind. eapply wp_mono; [eapply (hasNoDuplicateSlots_spec _ _ _ Hwf2) | | done].
      * apply (slots_of_lt s1 _ p bucket Hwf1).
      * exact Hfree.
      * intros [ok s3] [-> (g & -> & Hsame)]. 
        assert (scratch_eq s (set_slotGen g (set_slotsBuffer b s1))) as H3.
        { eapply scratch_eq_trans; [exact H2 |].
          exists b, (foldedBuffer s1), g. split_and!; [by destruct s1 | done | done | done]. }
        rewrite Hsd, Hns in *. cbn [wp].
        assert (Hfree' : Forall (fun x => ~ occupied s x) (slots_of (globalSeed s) (numSlots s) p bucket)).
        { eapply Forall_impl; [exact Hfree |]. intros x Hx. by rewrite <- (scratch_eq_occupied s s1). }
        destruct (bool_decide_reflect (NoDup (slots_of (globalSeed s) (numSlots s) p bucket))) as [Hnd | Hnd].
        -- cbn [wp mbind res_bind].
           split; [done |]. rewrite (first_free_intro s bucket p) by done. done.
        -- split; [done |]. apply Hnext. by intros [? _].
    + intros [Hlb (x & Hx & Ho)]. cbn [wp]. split; [by apply Hsb |]. apply Hnext.
      intros [_ Hfr]. rewrite Hsd, Hns in Hx. rewrite (scratch_eq_occupied s s1) in Ho by done.
      by apply (proj1 (Forall_forall _ _) Hfr x).
  - intros s1 [H1 Hnone]. cbn [wp mbind res_bind]. split; [done |].
    unfold len in Hnone. rewrite length_range, Z2Nat.id in Hnone by done. by rewrite first_free_none.
Qed.

(** A bucket of known size is a literal list. *)
Tactic Notation "exact_bucket" hyp(b) hyp(E) integer(k) :=
  do k (destruct b as [| ? b]; [exfalso; unfold len in E; cbn [length] in E; lia |]);
  destruct b; [clear E | exfalso; unfold len in E; cbn [length] in E; lia].

Lemma findFreePilot_post s bucket :
  search_wf s (len bucket) -> wp (findFreePilot s bucket (len bucket)) (search_post s bucket) no_err.
Proof.
  intros Hwf. unfold findFreePilot.
  destruct (Z.eqb_spec (len bucket) 1) as [E |].
  { exact_bucket bucket E 1. rewrite findFreePilot1_eq by done. by apply search_out_post. }
  destruct (Z.eqb_spec (len bucket) 2) as [E |].
  { exact_bucket bucket E 2. rewrite findFreePilot2_eq by done. by apply search_out_post. }
  destruct (Z.eqb_spec (len bucket) 3) as [E |].
  { exact_bucket bucket E 3. rewrite findFreePilot3_eq by done. by apply search_out_post. }
  destruct (Z.eqb_spec (len bucket) 4) as [E |].
  { exact_bucket bucket E 4. rewrite findFreePilot4_eq by done. by apply search_out_post. }
  destruct (Z.eqb_spec (len bucket) 5) as [E |].
  { exact_bucket bucket E 5. rewrite findFreePilot5_eq by done. by apply search_out_post. }
  destruct (Z.eqb_spec (len bucket) 6) as [E |].
  { exact_bucket bucket E 6. rewrite findFreePilot6_eq by done. by apply search_out_post. }
  destruct (Z.eqb_spec (len bucket) 7) as [E |].
  { exact_bucket bucket E 7. rewrite findFreePilot7_eq by done. by apply search_out_post. }
  destruct (Z.eqb_spec (len bucket) 8) as [E |].
  { exact_bucket bucket E 8. rewrite findFreePilot8_eq by done. by apply search_out_post. }
  by apply findFreePilotSlice_spec.
Qed.

(** C17: the dispatched pilot search, through any of its nine implementations,
    returns the smallest pilot whose slots for the bucket are pairwise distinct
    and all free, with those slots in the buffer; it fails exactly when none of
    the 256 pilots is free; it never reads or writes out of range (the unsafe
    reads included), and the occupancy of the slots is unchanged. *)
Theorem findFreePilot_first s bucket :
  search_wf s (len bucket) ->
  exists p ok s', findFreePilot s bucket (len bucket) = Ok (p, ok, s') /\
    (forall x, occupied s' x <-> occupied s x) /\
    if (ok : bool)
    then 0 <= p < 256 /\ free_pilot s bucket p /\ (forall q, 0 <= q < p -> ~ free_pilot s bucket q) /\
         take (length bucket) (slotsBuffer s') = slots_of (globalSeed s) (numSlots s) p bucket
    else forall q, 0 <= q < 256 -> ~ free_pilot s bucket q.
Proof.
  intros Hwf. destruct (wp_total _ _ (findFreePilot_post s bucket Hwf)) as ([[p ok] s'] & He & Hs & Hp).
  exists p, ok, s'. split; [done |]. split; [intros x; by apply scratch_eq_occupied |].
  destruct (first_free s bucket) as [q |] eqn:Hff.
  - destruct Hp as (-> & -> & Hb). by apply first_free_Some in Hff as (? & ? & ?).
  - subst ok. intros q Hq. by apply first_free_None.
Qed.

(** A solver with room for nine keys and two slots taken. *)
Definition example_solver : solver :=
  mk_solver 1 12 10 77 (map (fun p => pilotHash p 77) (range numPilotValues)) [] [] []
    [] (make 0 12) [0; 3; 0; 0; 3; 0; 0; 0; 2; 0; 0; 0] [] 3 (make 0 12) 0 [] [] 0 0
    (make 0 9) (make 0 9) newBucketHeap [] [] [] [] [] 1 12.

Lemma findFreePilot_first_witness :
  let bucket := [mk_bentry 5 6 0 0; mk_bentry 7 8 0 0; mk_bentry 9 10 0 0] in
  exists p ok s', findFreePilot example_solver bucket 3 = Ok (p, ok, s') /\
    (forall x, occupied s' x <-> occupied example_solver x) /\
    if (ok : bool)
    then 0 <= p < 256 /\ free_pilot example_solver bucket p /\
         (forall q, 0 <= q < p -> ~ free_pilot example_solver bucket q) /\
         take 3 (slotsBuffer s') = slots_of 77 12 p bucket
    else forall q, 0 <= q < 256 -> ~ free_pilot example_solver bucket q.
Proof.
  apply (findFreePilot_first example_solver [mk_bentry 5 6 0 0; mk_bentry 7 8 0 0; mk_bentry 9 10 0 0]).
  split; cbn [example_solver numSlots pilotHPs globalSeed slotGen generation slotsBuffer foldedBuffer];
    try done; try lia; try (by vm_compute).
  repeat constructor; lia.
Defined.
