(* ===== verification/PtrSolver.v ===== *)
(** * [internal/ptrhash/solver.go]: placing buckets with evictions

    The operations of the solver on its state. Results that Go returns as an
    [error] value next to a state that stays in use are values of a sum type
    here, because the builder retries with the state a failed attempt left. *)
From S2P Require Import Prelude Words Floats PtrPilot PtrHeap PtrSort PtrSearch.
#[local] Open Scope Z_scope.

Definition int16 (z : Z) : Z := if u16 z <? 2 ^ 15 then u16 z else u16 z - 2 ^ 16.
Arguments int16 : simpl never.

(** ** Pinning *)
Definition isPinned (s : solver) (b : Z) : res bool :=
  w ← idx (pinnedBits s) (Z.quot b bitsPerWord);
  Ok (negb (Z.land w (u64 (Z.shiftl 1 (Z.rem b bitsPerWord))) =? 0)).

Definition pin (s : solver) (b : Z) : res solver :=
  old ← idx (pinned s) (pinnedIdx s);
  bits ← (if 0 <=? old then
            w ← idx (pinnedBits s) (Z.quot old bitsPerWord);
            upd (pinnedBits s) (Z.quot old bitsPerWord)
              (Z.ldiff w (u64 (Z.shiftl 1 (Z.rem old bitsPerWord))))
          else Ok (pinnedBits s));
  pinned ← upd (pinned s) (pinnedIdx s) (int16 b);
  w ← idx bits (Z.quot b bitsPerWord);
  bits ← upd bits (Z.quot b bitsPerWord) (Z.lor w (u64 (Z.shiftl 1 (Z.rem b bitsPerWord))));
  Ok (set_pinnedIdx (Z.rem (pinnedIdx s + 1) pinnedSize) (set_pinned pinned (set_pinnedBits bits s))).

(** ** Placing and evicting *)
Definition placeBucket (s : solver) (b pilot : Z) (slots : list Z) : res solver :=
  pilots ← upd (pilots s) b pilot;
  st ← foldM (fun '(owner, gen) slot =>
         owner ← upd owner slot (u16 b);
         gen ← upd gen slot (generation s);
         Ok (owner, gen)) (slotOwner s, slotGen s) slots;
  let '(owner, gen) := st in
  Ok (set_slotGen gen (set_slotOwner owner (set_pilots pilots s))).

Definition evictBucket (s : solver) (b : Z) : res solver :=
  pilot ← idx (pilots s) b;
  bucket ← bucketKeys s b;
  hp ← idx (pilotHPs s) pilot;
  gen ← foldM (fun gen e =>
          let slot := pilotSlotFolded (fold_entry e) hp (numSlots s) in
          g ← idx gen slot;
          if g =? generation s then
            o ← idx (slotOwner s) slot;
            if o =? u16 b then upd gen slot 0 else Ok gen
          else Ok gen) (slotGen s) bucket;
  Ok (set_slotGen gen s).

(** ** Duplicates *)
Fixpoint hasDuplicateSlotInput (bucket : list bucketEntry) : bool :=
  match bucket with
  | [] => false
  | e :: bucket =>
      if existsb (fun e' => Z.lxor (k0 e) (suffix e) =? Z.lxor (k0 e') (suffix e')) bucket
      then true else hasDuplicateSlotInput bucket
  end.

Definition hasNoDuplicateSlotsPhase2 (s : solver) (slots : list Z) : res (bool * solver) :=
  let s := set_phase2Gen (u32 (phase2Gen s + 1)) s in
  let s := if phase2Gen s =? 0
           then set_phase2Gen 1 (set_phase2SlotGen (make 0 (len (phase2SlotGen s))) s) else s in
  let localGen := phase2Gen s in
  r ← foldB (fun g slot =>
        x ← idx g slot;
        if x =? localGen then Ok (inr g)
        else g ← upd g slot localGen; Ok (inl g)) (phase2SlotGen s) slots;
  Ok (match r with
      | inr g => (false, set_phase2SlotGen g s)
      | inl g => (true, set_phase2SlotGen g s)
      end).

(** ** One bucket *)
Definition MaxInt : Z := 2 ^ 63 - 1.

(** The collision score of a pilot, [None] when it is not viable. *)
Definition collisionScore (s : solver) (slots : list Z) (bestScore : Z) : res (option Z) :=
  r ← foldB (fun score slot =>
        owner ← getOwner s slot;
        if owner <? 0 then Ok (inl score)
        else
          p ← isPinned s owner;
          if p : bool then Ok (inr tt)
          else
            ownerSize ← bucketSize s owner;
            let score := score + ownerSize * ownerSize in
            if bestScore <=? score then Ok (inr tt) else Ok (inl score)) 0 slots;
  Ok (match r with inl score => Some score | inr _ => None end).

(** The Phase 2 loop body over [delta]: state, best pilot, best score. *)
Definition phase2_step (p0 bucketSize : Z) (folded : list Z) (st : solver * Z * Z) (delta : Z)
    : res (solver * Z * Z + solver * Z * Z) :=
  let '(s, bestPilot, bestScore) := st in
  let minPossibleScore := bucketSize * bucketSize in
  let pilot := u8 (Z.rem (p0 + delta) numPilotValues) in
  b ← foldM (fun b i =>
        h ← idx folded i;
        hp ← idx (pilotHPs s) pilot;
        upd b i (u16 (pilotSlotFolded h hp (numSlots s)))) (slotsBuffer s) (range bucketSize);
  let s := set_slotsBuffer b s in
  slots ← slice b 0 bucketSize;
  sc ← collisionScore s slots bestScore;
  match sc with
  | None => Ok (inl (s, bestPilot, bestScore))
  | Some score =>
      '(ok, s) ← hasNoDuplicateSlotsPhase2 s slots;
      if negb ok then Ok (inl (s, bestPilot, bestScore))
      else if score <? bestScore then
        let s := set_bestSlots slots s in
        if score <=? minPossibleScore then Ok (inr (s, pilot, score)) else Ok (inl (s, pilot, score))
      else Ok (inl (s, bestPilot, bestScore))
  end.

Definition processBucketWithHeap (s : solver) (rng : pcg) (b : Z)
    : res (pcg * solver * option error) :=
  n ← bucketSize s b;
  bucket ← bucketKeys s b;
  '(pilot, ok, s) ← findFreePilot s bucket n;
  if ok : bool then
    slots ← slice (slotsBuffer s) 0 n;
    s ← placeBucket s b pilot slots;
    s ← setProcessed s b;
    Ok (rng, s, None)
  else
    let '(x, rng) := pcg_IntN256 rng in
    let p0 := u8 x in
    let s := set_bestSlots [] s in
    slots ← slice (slotsBuffer s) 0 n;
    fl ← slice (foldedBuffer s) 0 n;
    folded ← foldM (fun folded i => e ← idx bucket i; upd folded i (fold_entry e))
               (foldedBuffer s) (range n);
    let s := set_foldedBuffer folded s in
    r ← foldB (phase2_step p0 n folded) (s, 0, MaxInt) (range numPilotValues);
    let '(s, bestPilot, bestScore) := match r with inl st => st | inr st => st end in
    if len (bestSlots s) =? 0 then
      Ok (rng, s, Some (if hasDuplicateSlotInput bucket then ErrDuplicateKey
                        else ErrIndistinguishableHashes))
    else
      owners ← foldM (fun owners slot =>
                 owner ← getOwner s slot;
                 if (0 <=? owner) && negb (owner =? b) then
                   Ok (if existsb (Z.eqb (u16 owner)) owners then owners else owners ++ [u16 owner])
                 else Ok owners) [] (bestSlots s);
      let s := set_evictedOwners owners s in
      s ← foldM (fun s owner =>
            s ← evictBucket s owner;
            s ← clearProcessed s owner;
            size ← bucketSize s owner;
            h ← push (pendingHeap s) owner size;
            Ok (set_evictions (evictions s + 1) (set_pendingHeap h s))) s owners;
      s ← placeBucket s b bestPilot (bestSlots s);
      s ← pin s b;
      s ← setProcessed s b;
      Ok (rng, s, None).

(** ** The remap table *)

(** The next slot from [c] that is not taken; the code's panic when it runs past
    the valid range is a panic here, and so is running out of fuel. *)
Fixpoint nextHole (fuel : nat) (s : solver) (numKeys c : Z) : res Z :=
  match fuel with
  | O => Panic
  | S fuel =>
      g ← idx (slotGen s) c;
      if g =? generation s then
        let c := u32 (c + 1) in
        if numKeys <=? c then Panic else nextHole fuel s numKeys c
      else Ok c
  end.

Definition buildRemap (s : solver) : res (list Z * solver) :=
  let numKeys := u32 (numKeys s) in
  let numSlots := numSlots s in
  let remapSize := u32 (numSlots - numKeys) in
  st ← foldM (fun '(table, holeCursor) overflowSlot =>
         g ← idx (slotGen s) overflowSlot;
         if negb (g =? generation s) then Ok (table, holeCursor)
         else
           hole ← nextHole (S (Z.to_nat numKeys)) s numKeys holeCursor;
           table ← upd table (overflowSlot - numKeys) (u16 hole);
           Ok (table, u32 (hole + 1)))
       (make 0 remapSize, 0) (seqZ numKeys (numSlots - numKeys));
  Ok (st.1, set_remapBuffer st.1 s).

(** ** The block *)

(** [for s.pendingHeap.len() > 0]: also left when the eviction limit is hit. *)
Fixpoint drain (fuel : nat) (maxEvictions : Z) (rng : pcg) (s : solver)
    : res (pcg * solver * option error) :=
  match fuel with
  | O => Panic
  | S fuel =>
      if heap_len (pendingHeap s) <=? 0 then Ok (rng, s, None)
      else
        '(b, size, h) ← pop (pendingHeap s);
        let s := set_pendingHeap h s in
        p ← isProcessed s b;
        if p : bool then drain fuel maxEvictions rng s
        else
          '(rng, s, err) ← processBucketWithHeap s rng b;
          match err with
          | Some e => Ok (rng, s, Some e)
          | None => if maxEvictions <? evictions s then Ok (rng, s, None)
                    else drain fuel maxEvictions rng s
          end
  end.

(** Every round pops one bucket, and buckets are only pushed by evictions. *)
Definition drain_fuel (maxEvictions : Z) (s : solver) : nat :=
  (Z.to_nat (Z.max maxEvictions (evictions s)) + 2)%nat.

Definition solve_bucket (maxEvictions : Z) (st : pcg * solver) (b : Z)
    : res (pcg * solver + solver * error) :=
  let '(rng, s) := st in
  n ← bucketSize s b;
  if n =? 0 then
    p ← upd (pilots s) b 0;
    s ← setProcessed (set_pilots p s) b;
    Ok (inl (rng, s))
  else
    p ← isProcessed s b;
    if p : bool then Ok (inl (rng, s))
    else
      '(rng, s, err) ← processBucketWithHeap s rng b;
      match err with
      | Some e => Ok (inr (s, e))
      | None =>
          '(rng, s, err) ← drain (drain_fuel maxEvictions s) maxEvictions rng s;
          match err with
          | Some e => Ok (inr (s, e))
          | None => if maxEvictions <? evictions s then Ok (inr (s, errEvictionLimitExceeded))
                    else Ok (inl (rng, s))
          end
      end.

Definition solve (s : solver) (attempt : Z) : res (solver * (list Z * list Z + error)) :=
  if numKeys s =? 0 then Ok (s, inl (pilots s, []))
  else if 65535 <? numSlots s then Ok (s, inr ErrBlockOverflow)
  else
    let seedBase := splitMix64 (Z.lxor (globalSeed s) (u64 ((u64 attempt + 1) * 0x9E3779B97F4A7C15))) in
    let rng := (seedBase, splitMix64 seedBase) in
    let maxEvictions := maxEvictionMultiplier * numSlots s in
    let s := set_evictedOwners [] (set_bestSlots [] (set_pendingHeap (clear (pendingHeap s)) s)) in
    order ← slice (bucketOrder s) 0 (numBuckets s);
    r ← foldB (solve_bucket maxEvictions) (rng, s) order;
    match r with
    | inr (s, e) => Ok (s, inr e)
    | inl (_, s) =>
        '(remap, s) ← buildRemap s;
        Ok (s, inl (pilots s, remap))
    end.

(** ** Construction and reset *)
Definition pinnedWords (numBuckets : Z) : Z := u32 (u32 (numBuckets + bitsPerWord) - 1) / bitsPerWord.

Definition newSolver (maxNumBuckets maxNumKeys : Z) : solver :=
  let maxNumSlots := computeNumSlots maxNumKeys in
  let maxBucketSize := Z.max (ceil_int (fconst 948 100)) minBufferAlloc in (* ceil(lambda * 3) *)
  let maxRemapSize := Z.max (maxNumSlots - maxNumKeys) 0 in
  mk_solver 0 0 0 0 (make 0 numPilotValues) [] (make 0 (maxNumBuckets + 1)) (make 0 maxNumBuckets)
    (make 0 maxNumBuckets) (make 0 maxNumSlots) (make 0 maxNumSlots) (make 0 maxNumBuckets) 1
    [] 0 (make (-1) pinnedSize) (make 0 (pinnedWords (u32 maxNumBuckets))) 0 0
    (make 0 maxBucketSize) (make 0 maxBucketSize) newBucketHeap [] [] (make 0 maxRemapSize)
    (make 0 (maxBucketSize + 1)) (make 0 (maxBucketSize + 1)) (u32 maxNumBuckets) maxNumSlots.

(** [bucketStarts] and the largest bucket size. *)
Definition fillStarts (starts : list Z) (bs : list (list bucketEntry)) (numBuckets : Z)
    : res (list Z * Z) :=
  st ← foldM (fun '(starts, total, maxSize, i) bucket =>
         starts ← upd starts i (u16 total);
         Ok (starts, total + len bucket,
             if maxSize <? len bucket then len bucket else maxSize, i + 1))
       (starts, 0, 0, 0) bs;
  let '(starts, total, maxSize, _) := st in
  starts ← upd starts numBuckets (u16 total);
  Ok (starts, maxSize).

(** [clear(l[:n])] *)
Definition clearPrefix (l : list Z) (n : Z) : res (list Z) :=
  pre ← slice l 0 n; store l 0 (make 0 n).

Definition reset (s : solver) (bs : list (list bucketEntry)) (nKeys seed : Z)
    (pilotsDst : option (list Z)) : res solver :=
  let nBuckets := u32 (len bs) in
  let nSlots := computeNumSlots nKeys in
  hps ← initPilotHPs (pilotHPs s) seed;
  let growS := maxNumSlots s <? nSlots in
  let slotOwner1 := if growS then make 0 nSlots else slotOwner s in
  let slotGen1 := if growS then make 0 nSlots else slotGen s in
  let growB := maxNumBuckets s <? nBuckets in
  let starts1 := if growB then make 0 (nBuckets + 1) else bucketStarts s in
  let order1 := if growB then make 0 nBuckets else bucketOrder s in
  let pilots1 := if growB && match pilotsDst with None => true | Some _ => false end
                 then make 0 nBuckets else pilots s in
  let processed1 := if growB then make 0 nBuckets else processedGen s in
  let bits1 := if growB then make 0 (pinnedWords nBuckets) else pinnedBits s in
  pilots2 ← match pilotsDst with
            | Some dst => slice dst 0 nBuckets
            | None => Ok (if len pilots1 <? nBuckets then make 0 nBuckets else pilots1)
            end;
  '(starts2, maxSize) ← fillStarts starts1 bs nBuckets;
  let growBuf := len (slotsBuffer s) <? maxSize in
  let slotsBuffer1 := if growBuf then make 0 maxSize else slotsBuffer s in
  let foldedBuffer1 := if growBuf then make 0 maxSize else foldedBuffer s in
  let p2 := if len (phase2SlotGen s) <? nSlots then make 0 nSlots else phase2SlotGen s in
  let growSort := len (sortCounts s) <? maxSize + 1 in
  let counts1 := if growSort then make 0 (maxSize + 1) else sortCounts s in
  let positions1 := if growSort then make 0 (maxSize + 1) else sortPositions s in
  starts ← slice starts2 0 (nBuckets + 1);
  ord ← slice order1 0 nBuckets;
  '(ord, counts2, positions2) ← countingSortBucketsInto starts ord counts1 positions1;
  order2 ← store order1 0 ord;
  let gen1 := u8 (generation s + 1) in
  let wrap := 254 <=? gen1 in
  let gen2 := if wrap then 1 else gen1 in
  let slotGen2 := if wrap then make 0 (len slotGen1) else slotGen1 in
  processed2 ← (if wrap then clearPrefix processed1 nBuckets else Ok processed1);
  bits2 ← clearPrefix bits1 (pinnedWords nBuckets);
  Ok (mk_solver nBuckets nSlots nKeys seed hps bs starts2 order2 pilots2 slotOwner1 slotGen2
        processed2 gen2 p2 (phase2Gen s) (make (-1) (len (pinned s))) bits2 0 0
        slotsBuffer1 foldedBuffer1 (pendingHeap s) (bestSlots s) (evictedOwners s) (remapBuffer s)
        counts2 positions2 (if growB then nBuckets else maxNumBuckets s)
        (if growS then nSlots else maxNumSlots s)).
