(* ===== verification/PtrPin.v ===== *)
(** * The pinning buffer of the eviction solver

    [pinned] is a ring of the last sixteen buckets placed by an eviction and
    [pinnedBits] a bit set for the same buckets; the two always agree. *)
From S2P Require Import Prelude Words PtrPilot PtrHeap PtrSearch PtrSolver.
#[local] Open Scope Z_scope.

Definition pin_bit (bits : list Z) (b : Z) : bool :=
  Z.testbit (default 0 (bits !! Z.to_nat (b / 64))) (b mod 64).

(** Ring and bit set describe the same buckets, each at most once. *)
Record pin_ok (s : solver) : Prop := {
  pin_len : len (pinned s) = pinnedSize;
  pin_idx : 0 <= pinnedIdx s < pinnedSize;
  pin_cap : numBuckets s <= 64 * len (pinnedBits s);
  pin_range : Forall (fun x => -1 <= x < numBuckets s) (pinned s);
  pin_agree : forall b, 0 <= b < numBuckets s -> pin_bit (pinnedBits s) b = bool_decide (b ∈ pinned s);
  pin_once : forall (j k : nat) x, 0 <= x -> pinned s !! j = Some x -> pinned s !! k = Some x -> j = k
}.

Lemma land_pow2_testbit w i : 0 <= i -> negb (Z.land w (2 ^ i) =? 0) = Z.testbit w i.
Proof.
  intros Hi. destruct (Z.testbit w i) eqn:Hb.
  - destruct (Z.eqb_spec (Z.land w (2 ^ i)) 0) as [He |]; [| done].
    apply (f_equal (fun z => Z.testbit z i)) in He.
    by rewrite Z.land_spec, Hb, Z.pow2_bits_true, Z.bits_0 in He.
  - destruct (Z.eqb_spec (Z.land w (2 ^ i)) 0) as [| Hne]; [done |]. exfalso. apply Hne.
    apply Z.bits_inj'. intros j Hj. rewrite Z.land_spec, Z.bits_0, Z.pow2_bits_eqb by done.
    destruct (Z.eqb_spec i j) as [-> |]; [by rewrite Hb | apply andb_false_r].
Qed.

Lemma bit_mask i : 0 <= i < 64 -> u64 (Z.shiftl 1 i) = 2 ^ i.
Proof.
  intros Hi. rewrite Z.shiftl_1_l. apply u64_id. split; [lia |].
  apply Z.pow_lt_mono_r; lia.
Qed.

Lemma isPinned_bit s b :
  0 <= b < 64 * len (pinnedBits s) -> isPinned s b = Ok (pin_bit (pinnedBits s) b).
Proof.
  intros Hb. unfold isPinned, bitsPerWord, pin_bit.
  rewrite Z.quot_div_nonneg, Z.rem_mod_nonneg by lia.
  destruct (idx_in_range (pinnedBits s) (b / 64)) as (w & -> & ->); [zlia |]. cbn [mbind res_bind default].
  rewrite bit_mask by zlia. f_equal. apply land_pow2_testbit. zlia.
Qed.

Lemma isPinned_ok s b :
  pin_ok s -> 0 <= b < numBuckets s -> isPinned s b = Ok (bool_decide (b ∈ pinned s)).
Proof.
  intros Hp Hb. pose proof (pin_cap _ Hp). rewrite isPinned_bit by lia. by rewrite (pin_agree _ Hp).
Qed.

(** Setting or clearing the bit of one bucket. *)
Lemma pin_bit_insert bits b c w :
  0 <= b < 64 * len bits -> 0 <= c ->
  pin_bit (<[Z.to_nat (b / 64) := w]> bits) c =
  if decide (c / 64 = b / 64) then Z.testbit w (c mod 64) else pin_bit bits c.
Proof.
  intros Hb Hc. unfold pin_bit. case_decide as Hd.
  - rewrite Hd, list_lookup_insert_eq by (unfold len in Hb; zlia). done.
  - rewrite list_lookup_insert_ne by zlia. done.
Qed.

Lemma pin_bit_set bits b c w :
  0 <= b < 64 * len bits -> 0 <= c -> bits !! Z.to_nat (b / 64) = Some w ->
  pin_bit (<[Z.to_nat (b / 64) := Z.lor w (2 ^ (b mod 64))]> bits) c =
  if decide (c = b) then true else pin_bit bits c.
Proof.
  intros Hb Hc Hw. rewrite pin_bit_insert by done. repeat case_decide; subst; try done.
  - rewrite Z.lor_spec, Z.pow2_bits_true by zlia. apply orb_true_r.
  - rewrite Z.lor_spec, Z.pow2_bits_false by zlia. rewrite orb_false_r.
    unfold pin_bit. by rewrite H, Hw.
Qed.

Lemma pin_bit_clear bits b c w :
  0 <= b < 64 * len bits -> 0 <= c -> bits !! Z.to_nat (b / 64) = Some w ->
  pin_bit (<[Z.to_nat (b / 64) := Z.ldiff w (2 ^ (b mod 64))]> bits) c =
  if decide (c = b) then false else pin_bit bits c.
Proof.
  intros Hb Hc Hw. rewrite pin_bit_insert by done. repeat case_decide; subst; try done.
  - rewrite Z.ldiff_spec, Z.pow2_bits_true by zlia. apply andb_false_r.
  - rewrite Z.ldiff_spec, Z.pow2_bits_false by zlia. rewrite andb_true_r.
    unfold pin_bit. by rewrite H, Hw.
Qed.

(** [pin]: the ring's oldest entry leaves both structures, the new one enters. *)
Lemma pin_spec s b :
  pin_ok s -> 0 <= b < numBuckets s -> numBuckets s < 2 ^ 15 -> b ∉ pinned s ->
  exists bits k, len bits = len (pinnedBits s) /\
    pin s b = Ok (set_pinnedIdx k (set_pinned (<[Z.to_nat (pinnedIdx s) := b]> (pinned s))
      (set_pinnedBits bits s))) /\
    pin_ok (set_pinnedIdx k (set_pinned (<[Z.to_nat (pinnedIdx s) := b]> (pinned s)) (set_pinnedBits bits s))).
Proof.
  intros [Hl Hi Hc Hr Ha Ho] Hb Hnb Hnin. unfold pin, bitsPerWord.
  destruct (idx_in_range (pinned s) (pinnedIdx s)) as (old & Hold & ->); [lia |]. cbn [mbind res_bind].
  pose proof (Forall_lookup_1 _ _ _ _ Hr Hold) as Hor. cbv beta in Hor.
  (* the word array with the oldest entry's bit cleared *)
  assert (exists bits1, (if 0 <=? old then
      w ← idx (pinnedBits s) (Z.quot old 64);
      upd (pinnedBits s) (Z.quot old 64) (Z.ldiff w (u64 (Z.shiftl 1 (Z.rem old 64))))
    else Ok (pinnedBits s)) = Ok bits1 /\ len bits1 = len (pinnedBits s) /\
    forall c, 0 <= c < numBuckets s ->
      pin_bit bits1 c = if decide (c = old) then false else pin_bit (pinnedBits s) c)
    as (bits1 & -> & Hl1 & Hb1).
  { destruct (Z.leb_spec 0 old).
    - rewrite Z.quot_div_nonneg, Z.rem_mod_nonneg by lia.
      destruct (idx_in_range (pinnedBits s) (old / 64)) as (w & Hw & ->); [zlia |]. cbn [mbind res_bind].
      rewrite upd_in_range by zlia. rewrite bit_mask by zlia. eexists. split; [done |].
      rewrite len_insert. split; [done |]. intros c Hcr. apply pin_bit_clear; [lia | lia | done].
    - exists (pinnedBits s). split_and!; [done | done |]. intros c Hcr. rewrite decide_False by lia. done. }
  cbn [mbind res_bind]. rewrite upd_in_range by lia. cbn [mbind res_bind].
  rewrite Z.quot_div_nonneg, (Z.rem_mod_nonneg b) by lia.
  destruct (idx_in_range bits1 (b / 64)) as (w & Hw & ->); [zlia |]. cbn [mbind res_bind].
  rewrite upd_in_range by zlia. cbn [mbind res_bind]. rewrite bit_mask by zlia.
  assert (int16 b = b) as -> by (unfold int16; rewrite u16_id by (unfold_words; lia); destruct (Z.ltb_spec b (2 ^ 15)); lia).
  eexists _, _. split; [by rewrite len_insert |]. split; [done |].
  assert (forall c, 0 <= c < numBuckets s ->
    c ∈ <[Z.to_nat (pinnedIdx s) := b]> (pinned s) <-> c = b \/ (c <> old /\ c ∈ pinned s)) as Hin.
  { intros c Hcr. rewrite !list_elem_of_lookup. split.
    - intros [j Hj]. destruct (decide (j = Z.to_nat (pinnedIdx s))) as [Hji |].
      + rewrite Hji in Hj. rewrite list_lookup_insert_eq in Hj by (unfold len, pinnedSize in *; lia). left. congruence.
      + rewrite list_lookup_insert_ne in Hj by done. right. split; [| eauto].
        intros ->. assert (j = Z.to_nat (pinnedIdx s)) by (eapply Ho; [| done | done]; lia). done.
    - intros [-> | [Hne [j Hj]]].
      + exists (Z.to_nat (pinnedIdx s)). apply list_lookup_insert_eq. unfold len, pinnedSize in *; lia.
      + exists j. rewrite list_lookup_insert_ne; [done |]. intros <-. congruence. }
  split; simpl.
  - by rewrite len_insert.
  - unfold pinnedSize in *. rewrite Z.rem_mod_nonneg by lia. apply Z.mod_pos_bound. lia.
  - rewrite len_insert. lia.
  - apply Forall_insert; [done | lia].
  - intros c Hcr. rewrite (pin_bit_set bits1 b c w), Hb1, Ha by (done || lia).
    apply eq_bool_prop_intro. rewrite bool_decide_spec, Hin by done.
    repeat case_decide; subst; try naive_solver; rewrite ?bool_decide_spec; naive_solver.
  - intros j k x Hx Hj Hk.
    assert (forall j', <[Z.to_nat (pinnedIdx s) := b]> (pinned s) !! j' = Some x ->
      (j' = Z.to_nat (pinnedIdx s) /\ x = b) \/ (x <> b /\ pinned s !! j' = Some x)) as Hcase.
    { intros j' Hj'. destruct (decide (j' = Z.to_nat (pinnedIdx s))) as [Hji |].
      - rewrite Hji in Hj' |- *. rewrite list_lookup_insert_eq in Hj' by (unfold len, pinnedSize in *; lia). left. split; congruence.
      - rewrite list_lookup_insert_ne in Hj' by done. right. split; [| done].
        intros ->. apply Hnin. by eapply list_elem_of_lookup_2. }
    destruct (Hcase j Hj) as [[-> ->] | [? ?]], (Hcase k Hk) as [[-> ?] | [? ?]]; try done. by eapply Ho.
Qed.
