(* ===== verification/PtrInv.v ===== *)
(** * The solver's invariant

    What the placement state means: a processed bucket owns exactly the slots its
    pilot gives its keys, these are pairwise distinct, and a slot is occupied only
    by a processed bucket. Every operation of the solver preserves it, none
    panics, and a solved block has every key in a slot of its own. *)
From S2P Require Import Prelude Words Floats PtrPilot PtrHeap PtrSort PtrSearch PtrSolver PtrPin.
#[local] Open Scope Z_scope.

Definition bk (s : solver) (b : Z) : list bucketEntry := default [] (buckets s !! Z.to_nat b).
Definition bslots (s : solver) (p b : Z) : list Z := slots_of (globalSeed s) (numSlots s) p (bk s b).
Definition processed (s : solver) (b : Z) : Prop := processedGen s !! Z.to_nat b = Some (generation s).
Definition pil (s : solver) (b : Z) : Z := default 0 (pilots s !! Z.to_nat b).
Definition owns (s : solver) (b x : Z) : Prop := occupied s x /\ slotOwner s !! Z.to_nat x = Some b.

#[export] Instance processed_dec s b : Decision (processed s b).
Proof. unfold processed. apply _. Defined.

(** The buffers cover the largest block seen, and no stale generation is ahead. *)
Definition caps (s : solver) : Prop :=
  numSlots s <= maxNumSlots s /\ numBuckets s <= maxNumBuckets s /\
  maxNumSlots s <= len (slotOwner s) /\ maxNumSlots s <= len (slotGen s) /\
  maxNumBuckets s <= len (processedGen s) /\ pinnedWords (maxNumBuckets s) <= len (pinnedBits s) /\
  len (slotsBuffer s) = len (foldedBuffer s) /\
  forall b x, 0 <= b < numBuckets s -> processedGen s !! Z.to_nat b = Some x -> 0 <= x <= generation s.

Record inv (s : solver) : Prop := {
  inv_caps : caps s;
  inv_nb : 0 < numBuckets s < 2 ^ 15;
  inv_bk : len (buckets s) = numBuckets s;
  inv_wf : forall b, 0 <= b < numBuckets s -> search_wf s (len (bk s b));
  inv_pil : len (pilots s) = numBuckets s;
  inv_byte : Forall is_byte (pilots s);
  inv_own : numSlots s <= len (slotOwner s);
  inv_proc : numBuckets s <= len (processedGen s);
  inv_p2 : numSlots s <= len (phase2SlotGen s);
  inv_p2g : is_u 32 (phase2Gen s);
  inv_p2le : Forall (fun x => 0 <= x <= phase2Gen s) (phase2SlotGen s);
  inv_pin : pin_ok s;
  inv_pinp : forall b, b ∈ pinned s -> 0 <= b -> processed s b;
  inv_heap : is_heap (pendingHeap s);
  inv_heapr : forall size b, (size, b) ∈ elems (pendingHeap s) -> 0 <= b < numBuckets s /\ bk s b <> [];
  inv_placed : forall b, 0 <= b < numBuckets s -> processed s b ->
    NoDup (bslots s (pil s b) b) /\ forall x, x ∈ bslots s (pil s b) b -> owns s b x;
  inv_occ : forall x, 0 <= x < numSlots s -> occupied s x ->
    exists b, 0 <= b < numBuckets s /\ processed s b /\ slotOwner s !! Z.to_nat x = Some b /\
      x ∈ bslots s (pil s b) b
}.

(** The part of the state no operation on a block changes. *)
Record frame (s s' : solver) : Prop := {
  fr_nb : numBuckets s' = numBuckets s;
  fr_ns : numSlots s' = numSlots s;
  fr_nk : numKeys s' = numKeys s;
  fr_seed : globalSeed s' = globalSeed s;
  fr_bk : buckets s' = buckets s;
  fr_order : bucketOrder s' = bucketOrder s;
  fr_hps : pilotHPs s' = pilotHPs s;
  fr_maxb : maxNumBuckets s' = maxNumBuckets s;
  fr_maxs : maxNumSlots s' = maxNumSlots s;
  fr_starts : bucketStarts s' = bucketStarts s;
  fr_counts : sortCounts s' = sortCounts s;
  fr_positions : sortPositions s' = sortPositions s;
  fr_gen : generation s' = generation s
}.

Lemma frame_refl s : frame s s.
Proof. by split. Qed.

Lemma frame_trans s s' s'' : frame s s' -> frame s' s'' -> frame s s''.
Proof. intros [] []. split; congruence. Qed.

#[export] Hint Resolve frame_refl : core.

Lemma frame_bk s s' b : frame s s' -> bk s' b = bk s b.
Proof. intros H. unfold bk. by rewrite (fr_bk _ _ H). Qed.

Lemma frame_bslots s s' p b : frame s s' -> bslots s' p b = bslots s p b.
Proof.
  intros H. unfold bslots. by rewrite (frame_bk s s'), (fr_seed _ _ H), (fr_ns _ _ H).
Qed.

Lemma scratch_frame s s' : scratch_eq s s' -> frame s s'.
Proof. intros (b & f & g & -> & _). by split. Qed.

(** Buckets read through their index. *)
Lemma bk_read s b : inv s -> 0 <= b < numBuckets s -> bucketKeys s b = Ok (bk s b).
Proof.
  intros Hi Hb. rewrite <- (inv_bk _ Hi) in Hb. unfold bucketKeys, bk.
  by destruct (idx_in_range (buckets s) b Hb) as (x & -> & ->).
Qed.

Lemma bsize_read s b : inv s -> 0 <= b < numBuckets s -> bucketSize s b = Ok (len (bk s b)).
Proof. intros Hi Hb. unfold bucketSize. by rewrite bk_read. Qed.

Lemma inv_slots_pos s : inv s -> 0 < numSlots s < 2 ^ 16.
Proof. intros Hi. exact (wf_numSlots _ _ (inv_wf _ Hi 0 ltac:(pose proof (inv_nb _ Hi); lia))). Qed.

Lemma inv_gen_pos s : inv s -> 0 < generation s < 254.
Proof. intros Hi. exact (wf_gen _ _ (inv_wf _ Hi 0 ltac:(pose proof (inv_nb _ Hi); lia))). Qed.

Lemma inv_slotGen_len s : inv s -> numSlots s <= len (slotGen s).
Proof. intros Hi. exact (wf_slotGen _ _ (inv_wf _ Hi 0 ltac:(pose proof (inv_nb _ Hi); lia))). Qed.

Lemma inv_slotGen_le s : inv s -> Forall (fun g => 0 <= g <= generation s) (slotGen s).
Proof. intros Hi. exact (wf_slotGen_le _ _ (inv_wf _ Hi 0 ltac:(pose proof (inv_nb _ Hi); lia))). Qed.

Lemma bslots_lt s p b : inv s -> Forall (fun x => 0 <= x < numSlots s) (bslots s p b).
Proof.
  intros Hi. apply Forall_forall. intros x Hx. unfold bslots, slots_of in Hx.
  apply list_elem_of_In, in_map_iff in Hx as (e & <- & _). pose proof (inv_slots_pos _ Hi).
  apply pilotSlotFolded_lt; unfold_words; lia.
Qed.

Lemma bslots_range s p b x : inv s -> x ∈ bslots s p b -> 0 <= x < numSlots s.
Proof. intros Hi Hx. exact (proj1 (Forall_forall _ _) (bslots_lt s p b Hi) x Hx). Qed.

Lemma is_processed_read s b :
  inv s -> 0 <= b < numBuckets s -> isProcessed s b = Ok (bool_decide (processed s b)).
Proof.
  intros Hi Hb. pose proof (inv_proc _ Hi). unfold isProcessed.
  destruct (idx_in_range (processedGen s) b) as (g & Hg & ->); [lia |]. cbn [mbind res_bind].
  f_equal. symmetry. destruct (Z.eqb_spec g (generation s)) as [-> |].
  - by apply bool_decide_eq_true.
  - apply bool_decide_eq_false. unfold processed. congruence.
Qed.

(** The search only touches scratch space and the marks of free slots. *)
Lemma scratch_inv s s' : scratch_eq s s' -> inv s -> inv s'.
Proof.
  intros He Hi. pose proof (scratch_eq_occupied s s') as Ho. pose proof (scratch_eq_wf s s') as Hw.
  assert (forall x, occupied s' x <-> occupied s x) as Ho' by (intros; by apply Ho).
  assert (forall n, search_wf s n -> search_wf s' n) as Hw' by (intros; by apply Hw).
  clear Ho Hw. destruct He as (b & f & g & -> & Hbl & Hfl & Hgl & _). destruct Hi. split; try done.
  - unfold caps, len in *. simpl. rewrite Hbl, Hfl, Hgl. done.
  - intros c Hc. apply Hw'. by apply inv_wf0.
  - destruct inv_pin0. by split.
  - intros c Hc Hp. destruct (inv_placed0 c Hc Hp) as [H1 H2]. split; [done |].
    intros x Hx. destruct (H2 x Hx). split; [by apply Ho' | done].
  - intros x Hx Hox%Ho'. by apply inv_occ0.
Qed.

(** Tactics for states that differ in fields the invariant does not read. *)
Ltac inv_same H :=
  let b := fresh in let Hb := fresh in let Hw := fresh in let Hp := fresh in
  pose proof (inv_wf _ H) as Hw; pose proof (inv_pin _ H) as Hp; destruct H; split; try done;
  [intros b Hb; destruct (Hw b Hb); by split | destruct Hp; by split].

Lemma inv_set_heap s h :
  inv s -> is_heap h -> (forall size b, (size, b) ∈ elems h -> 0 <= b < numBuckets s /\ bk s b <> []) ->
  inv (set_pendingHeap h s).
Proof.
  intros Hi Hh Hr. destruct Hi. split; try done.
  - intros c Hc. destruct (inv_wf0 c Hc). by split.
  - destruct inv_pin0. by split.
Qed.

(** ** Owners *)
Lemma getOwner_spec s x :
  inv s -> 0 <= x < numSlots s ->
  exists o, getOwner s x = Ok o /\
    ((o = -1 /\ ~ occupied s x) \/
     (0 <= o < numBuckets s /\ owns s o x /\ processed s o /\ x ∈ bslots s (pil s o) o)).
Proof.
  intros Hi Hx. pose proof (inv_slotGen_len _ Hi). unfold getOwner.
  destruct (idx_in_range (slotGen s) x) as (g & Hg & ->); [lia |]. cbn [mbind res_bind].
  destruct (Z.eqb_spec g (generation s)) as [-> | Hne]; cbn [negb].
  - destruct (inv_occ _ Hi x Hx Hg) as (b & Hb & Hp & Hown & Hin).
    exists b. split; [by apply idx_ok; split; [lia |] |]. right.
    exact (conj Hb (conj (conj Hg Hown) (conj Hp Hin))).
  - exists (-1). split; [done |]. left. split; [done |]. unfold occupied. congruence.
Qed.

(** ** Placing a bucket *)
Definition placed (s : solver) (b p : Z) (slots : list Z) : solver :=
  set_processedGen (<[Z.to_nat b := generation s]> (processedGen s))
    (set_slotGen (mark (generation s) slots (slotGen s))
      (set_slotOwner (mark b slots (slotOwner s)) (set_pilots (<[Z.to_nat b := p]> (pilots s)) s))).

Lemma place_loop_eq {A} (u v : A) (slots : list Z) (own gen : list A) :
  Forall (fun x => 0 <= x < len own) slots -> Forall (fun x => 0 <= x < len gen) slots ->
  foldM (fun '(own, gen) slot => own ← upd own slot u; gen ← upd gen slot v; Ok (own, gen))
    (own, gen) slots = Ok (mark u slots own, mark v slots gen).
Proof.
  revert own gen. induction slots as [| x slots IH]; intros own gen Ho Hg; [done |].
  apply Forall_cons in Ho as [Hx Ho]. apply Forall_cons in Hg as [Hx' Hg]. cbn [foldM].
  rewrite upd_in_range by done. cbn [mbind res_bind]. rewrite upd_in_range by done.
  cbn [mbind res_bind]. rewrite IH by (rewrite len_insert; done). done.
Qed.

Lemma placeBucket_eq s b p slots :
  inv s -> 0 <= b < numBuckets s -> Forall (fun x => 0 <= x < numSlots s) slots ->
  placeBucket s b p slots =
  Ok (set_slotGen (mark (generation s) slots (slotGen s))
       (set_slotOwner (mark b slots (slotOwner s)) (set_pilots (<[Z.to_nat b := p]> (pilots s)) s))).
Proof.
  intros Hi Hb Hs. unfold placeBucket. rewrite upd_in_range by (rewrite (inv_pil _ Hi); lia).
  cbn [mbind res_bind]. pose proof (inv_nb _ Hi). pose proof (inv_own _ Hi). pose proof (inv_slotGen_len _ Hi).
  rewrite u16_id by (unfold_words; lia).
  rewrite place_loop_eq by (eapply Forall_impl; [exact Hs |]; simpl; lia). done.
Qed.

Lemma setProcessed_eq s b :
  inv s -> 0 <= b < numBuckets s ->
  setProcessed s b = Ok (set_processedGen (<[Z.to_nat b := generation s]> (processedGen s)) s).
Proof.
  intros Hi Hb. pose proof (inv_proc _ Hi). unfold setProcessed. by rewrite upd_in_range by lia.
Qed.

Lemma insert_lookup_Z {A} (l : list A) (b c : Z) (v : A) :
  0 <= b < len l -> 0 <= c ->
  <[Z.to_nat b := v]> l !! Z.to_nat c = if decide (c = b) then Some v else l !! Z.to_nat c.
Proof.
  intros Hb Hc. case_decide as Hd.
  - subst. apply list_lookup_insert_eq. unfold len in Hb. lia.
  - apply list_lookup_insert_ne. lia.
Qed.

Lemma placed_occupied s b p slots x :
  inv s -> Forall (fun x => 0 <= x < numSlots s) slots -> 0 <= x ->
  occupied (placed s b p slots) x <-> x ∈ slots \/ occupied s x.
Proof.
  intros Hi Hs Hx. pose proof (inv_slotGen_len _ Hi). unfold occupied, placed. simpl.
  rewrite mark_lookup, Z2Nat.id by (done || (eapply Forall_impl; [exact Hs |]; simpl; lia)).
  case_decide; naive_solver.
Qed.

Lemma placed_owner s b p slots x :
  inv s -> Forall (fun x => 0 <= x < numSlots s) slots -> 0 <= x ->
  slotOwner (placed s b p slots) !! Z.to_nat x =
  if decide (x ∈ slots) then Some b else slotOwner s !! Z.to_nat x.
Proof.
  intros Hi Hs Hx. pose proof (inv_own _ Hi). unfold placed. simpl.
  by rewrite mark_lookup, Z2Nat.id by (done || (eapply Forall_impl; [exact Hs |]; simpl; lia)).
Qed.

Lemma placed_processed s b p slots c :
  inv s -> 0 <= b < numBuckets s -> 0 <= c ->
  processed (placed s b p slots) c <-> c = b \/ processed s c.
Proof.
  intros Hi Hb Hc. pose proof (inv_proc _ Hi). unfold processed, placed. simpl.
  rewrite insert_lookup_Z by lia. case_decide; naive_solver.
Qed.

Lemma placed_pil s b p slots c :
  inv s -> 0 <= b < numBuckets s -> 0 <= c ->
  pil (placed s b p slots) c = if decide (c = b) then p else pil s c.
Proof.
  intros Hi Hb Hc. pose proof (inv_pil _ Hi). unfold pil, placed. simpl.
  rewrite insert_lookup_Z by lia. by case_decide.
Qed.

Lemma placed_frame s b p slots : frame s (placed s b p slots).
Proof. by split. Qed.

Lemma mark_Forall {A} (P : A -> Prop) v xs g : P v -> Forall P g -> Forall P (mark v xs g).
Proof.
  intros Hv. revert g. induction xs as [| x xs IH]; intros g Hg; [done |]. apply IH.
  by apply Forall_insert.
Qed.

Lemma placed_inv s b p :
  inv s -> 0 <= b < numBuckets s -> is_byte p -> ~ processed s b \/ bk s b = [] ->
  NoDup (bslots s p b) -> (forall x, x ∈ bslots s p b -> ~ occupied s x) ->
  inv (placed s b p (bslots s p b)).
Proof.
  intros Hi Hb Hp Hnp Hnd Hfree. pose proof (bslots_lt s p b Hi) as Hs.
  pose proof (placed_frame s b p (bslots s p b)) as Hfr.
  set (s' := placed s b p (bslots s p b)) in *.
  assert (forall c, 0 <= c -> pil s' c = if decide (c = b) then p else pil s c) as Hpil
    by (intros; by apply placed_pil).
  assert (forall c, 0 <= c -> processed s' c <-> c = b \/ processed s c) as Hproc
    by (intros; by apply placed_processed).
  assert (forall x, 0 <= x -> occupied s' x <-> x ∈ bslots s p b \/ occupied s x) as Hocc
    by (intros; by apply placed_occupied).
  assert (forall x, 0 <= x -> slotOwner s' !! Z.to_nat x =
    if decide (x ∈ bslots s p b) then Some b else slotOwner s !! Z.to_nat x) as Hown
    by (intros; by apply placed_owner).
  assert (Hwf : forall c, 0 <= c < numBuckets s -> search_wf s' (len (bk s c))).
  { intros c Hc. destruct (inv_wf _ Hi c Hc). split; try done; unfold s', placed; simpl.
    - by rewrite mark_len.
    - apply mark_Forall; [lia | done]. }
  assert (Hlens : len (pilots s') = numBuckets s /\ Forall is_byte (pilots s') /\
    numSlots s <= len (slotOwner s') /\ numBuckets s <= len (processedGen s')).
  { unfold s', placed; simpl. rewrite !len_insert, mark_len.
    split_and!; [apply (inv_pil _ Hi) | | apply (inv_own _ Hi) | apply (inv_proc _ Hi)].
    apply Forall_insert; [apply (inv_byte _ Hi) | done]. }
  destruct Hlens as (Hl1 & Hl2 & Hl3 & Hl4).
  assert (pin_ok s') as Hpin by (destruct (inv_pin _ Hi); by split).
  assert (caps s') as Hcaps.
  { pose proof (inv_caps _ Hi) as (? & ? & ? & ? & ? & ? & ? & Hle). unfold s', placed, caps; simpl.
    rewrite !mark_len, !len_insert. split_and!; try done.
    intros c x Hc. rewrite insert_lookup_Z by lia. pose proof (inv_gen_pos _ Hi).
    case_decide; [intros [= <-]; lia | by apply Hle]. }
  split; try done; try (apply Hi); try (rewrite ?(fr_nb _ _ Hfr); done).
  - intros c Hc Hc0. apply Hproc; [done |]. right. by apply (inv_pinp _ Hi).
  - intros c Hc Hpc. rewrite (frame_bslots s s' _ _ Hfr), Hpil by lia.
    apply Hproc in Hpc; [| lia]. case_decide as Hd.
    + subst c. split; [done |]. intros x Hx. pose proof (bslots_range _ _ _ _ Hi Hx).
      split; [apply Hocc; [lia | by left] |]. rewrite Hown by lia. by rewrite decide_True.
    + destruct Hpc as [| Hpc]; [done |]. destruct (inv_placed _ Hi c Hc Hpc) as [Hndc Hoc].
      split; [done |]. intros x Hx. pose proof (bslots_range _ _ _ _ Hi Hx). destruct (Hoc x Hx) as [Ho Hw].
      split; [apply Hocc; [lia | by right] |]. rewrite Hown by lia.
      rewrite decide_False; [done |]. intros Hin. by apply (Hfree x).
  - intros x Hx Hox. apply Hocc in Hox; [| lia]. rewrite Hown by lia.
    destruct (decide (x ∈ bslots s p b)) as [Hin | Hnin].
    + exists b. split_and!; [apply Hb | apply Hb | apply Hproc; [lia | by left] | done |].
      rewrite (frame_bslots s s' _ _ Hfr), Hpil, decide_True by (done || lia). done.
    + destruct Hox as [| Hox]; [done |]. destruct (inv_occ _ Hi x Hx Hox) as (c & Hc & Hpc & Hoc & Hin).
      exists c. split_and!; [apply Hc | apply Hc | apply Hproc; [lia | by right] | done |].
      rewrite (frame_bslots s s' _ _ Hfr), Hpil by lia. rewrite decide_False; [done |].
      intros ->. destruct Hnp as [| Hnil]; [done |]. unfold bslots in Hin. rewrite Hnil in Hin.
      by apply not_elem_of_nil in Hin.
Qed.

(** ** Phase 2: scoring pilots *)

(** Two states that agree on everything the placement means. *)
Record same_place (s s' : solver) : Prop := {
  sp_frame : frame s s';
  sp_gen : slotGen s' = slotGen s;
  sp_owner : slotOwner s' = slotOwner s;
  sp_pil : pilots s' = pilots s;
  sp_proc : processedGen s' = processedGen s;
  sp_heap : pendingHeap s' = pendingHeap s;
  sp_ev : evictions s' = evictions s;
  sp_pinned : pinned s' = pinned s;
  sp_bits : pinnedBits s' = pinnedBits s;
  sp_pidx : pinnedIdx s' = pinnedIdx s
}.

Lemma same_place_refl s : same_place s s.
Proof. by split. Qed.

Lemma same_place_trans s s' s'' : same_place s s' -> same_place s' s'' -> same_place s s''.
Proof. intros [] []. split; try congruence. by eapply frame_trans. Qed.

Lemma sp_occupied s s' x : same_place s s' -> occupied s' x <-> occupied s x.
Proof. intros [[]]. unfold occupied. by rewrite sp_gen0, fr_gen0. Qed.

Lemma sp_owns s s' b x : same_place s s' -> owns s' b x <-> owns s b x.
Proof. intros H. unfold owns. by rewrite (sp_occupied s s'), (sp_owner _ _ H). Qed.

Lemma sp_processed s s' b : same_place s s' -> processed s' b <-> processed s b.
Proof. intros [[]]. unfold processed. by rewrite sp_proc0, fr_gen0. Qed.

Lemma sp_pilot s s' b : same_place s s' -> pil s' b = pil s b.
Proof. intros H. unfold pil. by rewrite (sp_pil _ _ H). Qed.

Lemma isPinned_total s b : inv s -> 0 <= b < numBuckets s -> exists v, isPinned s b = Ok v.
Proof. intros Hi Hb. rewrite isPinned_ok; [eauto | by apply inv_pin | done]. Qed.

(** No slot of the list belongs to a pinned bucket. *)
Definition unpinned (s : solver) (slots : list Z) : Prop :=
  forall x o, x ∈ slots -> owns s o x -> isPinned s o = Ok false.

Lemma collisionScore_spec s slots best :
  inv s -> Forall (fun x => 0 <= x < numSlots s) slots ->
  wp (collisionScore s slots best)
    (fun r => match r with Some _ => unpinned s slots | None => True end) no_err.
Proof.
  intros Hi Hs. unfold collisionScore. apply wp_bind.
  apply (wp_foldB_prefix (fun pre _ => unpinned s pre)).
  - intros x o Hx. set_solver.
  - intros pre x post score Hsplit Hpre.
    assert (0 <= x < numSlots s) as Hx.
    { rewrite Hsplit in Hs. by apply Forall_app in Hs as [_ [? _]%Forall_cons]. }
    destruct (getOwner_spec s x Hi Hx) as (o & -> & Ho). cbn [mbind res_bind].
    assert ((forall o, owns s o x -> isPinned s o = Ok false) -> unpinned s (pre ++ [x])) as Hext.
    { intros Hox y o' [Hy | ->%list_elem_of_singleton]%elem_of_app Hown;
        [by eapply Hpre | by apply Hox]. }
    destruct Ho as [[-> Hno] | (Hb & Hown & _)].
    + simpl. apply Hext. by intros o' [? _].
    + destruct (Z.ltb_spec o 0); [lia |].
      destruct (isPinned_total s o Hi Hb) as [v Hv]. rewrite Hv. cbn [mbind res_bind].
      destruct v; [done |]. rewrite bsize_read by done. cbn [mbind res_bind].
      destruct (best <=? _); [done |]. simpl. apply Hext. intros o' [_ Hw']. destruct Hown as [_ Hw]. congruence.
  - done.
Qed.

Lemma hasNoDuplicateSlotsPhase2_spec s slots :
  inv s -> Forall (fun x => 0 <= x < numSlots s) slots ->
  wp (hasNoDuplicateSlotsPhase2 s slots) (fun '(ok, s') => ok = bool_decide (NoDup slots) /\
    exists g k, s' = set_phase2SlotGen g (set_phase2Gen k s) /\ inv s') no_err.
Proof.
  intros Hi Hs. pose proof (inv_p2 _ Hi) as Hl. pose proof (inv_p2g _ Hi) as Hg.
  pose proof (inv_p2le _ Hi) as Hle. unfold hasNoDuplicateSlotsPhase2.
  set (s1 := set_phase2Gen (u32 (phase2Gen s + 1)) s). set (s2 := if phase2Gen s1 =? 0 then _ else s1).
  (* after the increment no entry holds the new generation *)
  assert (exists g k, s2 = set_phase2SlotGen g (set_phase2Gen k s) /\ 0 < k < 2 ^ 32 /\
    len g = len (phase2SlotGen s) /\ Forall (fun x => 0 <= x < k) g) as (g & k & -> & Hk & Hgl & Hgk).
  { unfold s2, s1. cbn [phase2Gen set_phase2Gen]. destruct (Z.eqb_spec (u32 (phase2Gen s + 1)) 0).
    - exists (make 0 (len (phase2SlotGen s))), 1. split_and!; [done | lia | lia | |].
      + apply len_make, len_nonneg.
      + apply Forall_replicate. lia.
    - exists (phase2SlotGen s), (u32 (phase2Gen s + 1)). pose proof (u32_is (phase2Gen s + 1)).
      split_and!; [done | unfold_words; lia | unfold_words; lia | done |].
      eapply Forall_impl; [exact Hle |]. simpl. intros x Hx.
      destruct (decide (phase2Gen s + 1 = 2 ^ 32)) as [He |]; [by rewrite He in n |].
      rewrite u32_id by (unfold_words; lia). lia. }
  cbn [phase2Gen phase2SlotGen set_phase2SlotGen set_phase2Gen]. apply wp_bind.
  assert (Hsl : Forall (fun x => 0 <= x < len g) slots).
  { eapply Forall_impl; [exact Hs |]. simpl. lia. }
  assert (Hinv : forall xs, Forall (fun x => 0 <= x < len g) xs ->
    inv (set_phase2SlotGen (mark k xs g) (set_phase2SlotGen g (set_phase2Gen k s)))).
  { intros xs Hxs. destruct Hi. split; try done; simpl.
    - intros b Hb. destruct (inv_wf0 b Hb). by split.
    - rewrite mark_len. lia.
    - unfold_words. lia.
    - apply mark_Forall; [lia |]. eapply Forall_impl; [exact Hgk |]. simpl. lia.
    - destruct inv_pin0. by split. }
  apply (wp_foldB_prefix (fun pre g' => g' = mark k pre g /\ NoDup pre)).
  - split; [done | apply NoDup_nil_2].
  - intros pre x post g' Hsplit [-> Hnd].
    assert (Hx : 0 <= x < len g) by (rewrite Hsplit in Hsl; by apply Forall_app in Hsl as [_ [? _]%Forall_cons]).
    assert (Hpre : Forall (fun x => 0 <= x < len g) pre) by (rewrite Hsplit in Hsl; by apply Forall_app in Hsl as [? _]).
    destruct (idx_in_range (mark k pre g) x) as (y & Hy & ->); [by rewrite mark_len |]. cbn [mbind res_bind].
    rewrite mark_lookup, Z2Nat.id in Hy by (done || lia).
    assert (y = k <-> x ∈ pre) as Hiff.
    { case_decide; [naive_solver |]. split; [| done]. intros ->.
      pose proof (Forall_lookup_1 _ _ _ _ Hgk Hy) as Hlt. simpl in Hlt. lia. }
    destruct (Z.eqb_spec y k) as [Heq | Hne].
    + simpl. split.
      * symmetry. apply bool_decide_eq_false. rewrite Hsplit. intros Hnd'.
        apply Hiff in Heq. apply NoDup_app in Hnd' as (_ & Hd & _). specialize (Hd x Heq). set_solver.
      * exists (mark k pre g), k. split; [done | by apply Hinv].
    + rewrite upd_in_range by (by rewrite mark_len). simpl. split; [by rewrite mark_snoc |].
      apply NoDup_app. split_and!; [done | | apply NoDup_singleton].
      intros z Hz ->%list_elem_of_singleton. by apply Hne, Hiff.
  - intros g' [-> Hnd]. simpl. split; [symmetry; by apply bool_decide_eq_true |].
    exists (mark k slots g), k. split; [done | by apply Hinv].
Qed.

(** The slots of the bucket under one pilot, written to the buffer. *)
Lemma phase2_slots_loop s n bucket p folded :
  search_wf s n -> len bucket = n -> 0 <= p < 256 ->
  take (length bucket) folded = map fold_entry bucket ->
  exists b, foldM (fun b i =>
      h ← idx folded i; hp ← idx (pilotHPs s) p;
      upd b i (u16 (pilotSlotFolded h hp (numSlots s)))) (slotsBuffer s) (range n) = Ok b /\
    agree s n bucket p b n.
Proof.
  intros Hwf Hn Hp Hf. apply wp_total.
  rewrite (foldM_ext_in _ (put s p folded)).
  2:{ intros b i _. unfold put. pose proof (hp_read _ _ _ Hwf Hp) as Hhp.
      rewrite u8_id in Hhp by (unfold_words; lia). by rewrite Hhp. }
  pose proof (len_nonneg bucket).
  eapply wp_mono; [apply (wp_foldM_prefix (fun pre b => agree s n bucket p b (len pre))) | | done].
  - split_and!; [done | unfold len; simpl; lia | unfold len in *; simpl; lia | done].
  - intros pre i post b Hr Hb. apply range_prefix in Hr as [-> Hi].
    destruct (put_agree s n bucket p folded Hwf Hn Hf b (len pre) ltac:(lia) Hb) as (b' & -> & Hb').
    simpl. by rewrite len_app, len_single.
  - intros b Hb. unfold len in Hb. rewrite length_range, Z2Nat.id in Hb by lia. done.
Qed.

(** The candidate kept so far. *)
Definition best_ok (s : solver) (b : Z) (bestPilot : Z) : Prop :=
  bestSlots s = [] \/
  (bestSlots s = bslots s bestPilot b /\ is_byte bestPilot /\ NoDup (bestSlots s) /\
   unpinned s (bestSlots s)).

Lemma unpinned_same s s' slots : same_place s s' -> unpinned s slots -> unpinned s' slots.
Proof.
  intros H Hu x o Hx Ho. apply (sp_owns s s' o x H) in Ho. specialize (Hu x o Hx Ho).
  unfold isPinned in *. by rewrite (sp_bits _ _ H).
Qed.

Lemma phase2_step_spec s0 b p0 folded s bestPilot bestScore delta :
  inv s0 -> 0 <= b < numBuckets s0 -> 0 <= p0 < 256 -> 0 <= delta ->
  take (length (bk s0 b)) folded = map fold_entry (bk s0 b) ->
  inv s -> same_place s0 s -> best_ok s b bestPilot ->
  wp (phase2_step p0 (len (bk s0 b)) folded (s, bestPilot, bestScore) delta)
    (fun c => match c with inl (s', p', _) | inr (s', p', _) =>
       inv s' /\ same_place s0 s' /\ best_ok s' b p' end) no_err.
Proof.
  intros Hi0 Hb Hp0 Hd Hf Hi Hsp Hbest. unfold phase2_step. cbv zeta.
  pose proof (sp_frame _ _ Hsp) as Hfr. pose proof (frame_bk _ _ b Hfr) as Hbk.
  rewrite <- Hbk in Hf |- *. assert (Hb' : 0 <= b < numBuckets s) by (by rewrite (fr_nb _ _ Hfr)).
  pose proof (inv_wf _ Hi b Hb') as Hwf.
  set (p := u8 _). assert (is_byte p) as Hp by apply u8_is.
  destruct (phase2_slots_loop s _ (bk s b) p folded Hwf eq_refl Hp Hf) as (buf & -> & Hl & _ & Hbuf).
  cbn [mbind res_bind]. unfold len in Hbuf. rewrite Nat2Z.id in Hbuf.
  rewrite (take_ge (slots_of _ _ _ _)) in Hbuf by (by rewrite slots_of_length).
  pose proof (wf_slotsBuffer _ _ Hwf) as Hsb. pose proof (len_nonneg (bk s b)).
  rewrite slice_in_range by (unfold len in *; lia). cbn [mbind res_bind].
  change (Z.to_nat 0) with 0%nat. rewrite drop_0, Z.sub_0_r.
  replace (Z.to_nat (len (bk s b))) with (length (bk s b)) by (unfold len; lia).
  change (slots_of _ _ _ _) with (bslots s p b) in Hbuf. rewrite Hbuf.
  set (s1 := set_slotsBuffer buf s).
  assert (inv s1) as Hi1.
  { destruct Hi. split; try done.
    - unfold caps, len in *. simpl. rewrite Hl. done.
    - intros c Hc. destruct (inv_wf0 c Hc). split; try done.
      change (len (bk s c) <= len buf). unfold len in *. lia.
    - destruct inv_pin0. by split. }
  assert (same_place s s1) as Hsp1 by done.
  pose proof (bslots_lt s p b Hi) as Hslt.
  apply wp_bind. eapply wp_mono; [apply (collisionScore_spec s1); done | | done].
  intros [score |] Hsc.
  2:{ simpl. split_and!; [done | by eapply same_place_trans |].
      destruct Hbest as [| (H1 & H2 & H3 & H4)]; [by left | right]. split_and!; done. }
  apply wp_bind. eapply wp_mono; [apply (hasNoDuplicateSlotsPhase2_spec s1); done | | done].
  intros [ok s2] [-> (g & k & -> & Hi2)].
  set (s2 := set_phase2SlotGen g (set_phase2Gen k s1)) in *.
  assert (same_place s s2) as Hsp2 by done.
  assert (best_ok s2 b bestPilot) as Hbest2.
  { destruct Hbest as [| (H1 & H2 & H3 & H4)]; [by left | right]. split_and!; done. }
  pose proof (same_place_trans _ _ _ Hsp Hsp2) as Hsp3.
  destruct (bool_decide_reflect (NoDup (bslots s p b))) as [Hnd |]; cbn [negb]; [| done].
  destruct (score <? bestScore); [| done].
  assert (inv (set_bestSlots (bslots s p b) s2)) as Hi3 by (inv_same Hi2).
  assert (best_ok (set_bestSlots (bslots s p b) s2) b p) as Hbest3.
  { right. split_and!; [done | exact Hp | done |].
    eapply unpinned_same; [| exact Hsc]. done. }
  assert (same_place s0 (set_bestSlots (bslots s p b) s2)) as Hsp4.
  { eapply same_place_trans; [exact Hsp3 |]. done. }
  destruct (score <=? _); done.
Qed.

(** ** Evicting a bucket *)
Definition evicted (s : solver) (o : Z) : solver :=
  set_processedGen (<[Z.to_nat o := 0]> (processedGen s))
    (set_slotGen (mark 0 (bslots s (pil s o) o) (slotGen s)) s).

Lemma evict_loop s o hp bucket gen :
  inv s -> 0 <= o < numBuckets s -> len gen = len (slotGen s) ->
  let slots := map (fun e => pilotSlotFolded (fold_entry e) hp (numSlots s)) bucket in
  NoDup slots ->
  (forall x, x ∈ slots -> 0 <= x < numSlots s /\ gen !! Z.to_nat x = Some (generation s) /\
    slotOwner s !! Z.to_nat x = Some o) ->
  foldM (fun gen e =>
    let slot := pilotSlotFolded (fold_entry e) hp (numSlots s) in
    g ← idx gen slot;
    if g =? generation s then
      w ← idx (slotOwner s) slot;
      if w =? u16 o then upd gen slot 0 else Ok gen
    else Ok gen) gen bucket = Ok (mark 0 slots gen).
Proof.
  intros Hi Ho. pose proof (inv_nb _ Hi). pose proof (inv_slotGen_len _ Hi).
  rewrite (u16_id o) by (unfold_words; lia). revert gen. induction bucket as [| e bucket IH]; intros gen Hl slots Hnd Hall; [done |].
  cbn [foldM]. unfold slots in *. cbn [map] in *. set (x := pilotSlotFolded _ _ _) in *.
  destruct (Hall x) as (Hx & Hg & Hw); [set_solver |]. cbv zeta.
  rewrite (proj2 (idx_ok gen x _) (conj (proj1 Hx) Hg)). cbn [mbind res_bind]. rewrite Z.eqb_refl.
  rewrite (proj2 (idx_ok (slotOwner s) x _) (conj (proj1 Hx) Hw)). cbn [mbind res_bind].
  rewrite Z.eqb_refl, upd_in_range by lia. cbn [mbind res_bind].
  apply NoDup_cons in Hnd as [Hnin Hnd]. apply IH; [by rewrite len_insert | done |].
  intros y Hy. destruct (Hall y) as (Hyr & Hyg & Hyw); [set_solver |]. split_and!; [lia | lia | | done].
  rewrite list_lookup_insert_ne; [done |]. intros He. assert (x = y) by lia. subst y. done.
Qed.

Lemma pil_read s b : inv s -> 0 <= b < numBuckets s -> idx (pilots s) b = Ok (pil s b) /\ is_byte (pil s b).
Proof.
  intros Hi Hb. rewrite <- (inv_pil _ Hi) in Hb. unfold pil.
  destruct (idx_in_range (pilots s) b Hb) as (p & Hp & ->). rewrite Hp. split; [done |].
  exact (Forall_lookup_1 _ _ _ _ (inv_byte _ Hi) Hp).
Qed.

Lemma evict_clear_eq s o :
  inv s -> 0 <= o < numBuckets s -> processed s o ->
  (s' ← evictBucket s o; clearProcessed s' o) = Ok (evicted s o).
Proof.
  intros Hi Ho Hp. unfold evictBucket. destruct (pil_read s o Hi Ho) as [-> Hpb].
  cbn [mbind res_bind]. rewrite bk_read by done. cbn [mbind res_bind].
  pose proof (hp_read s _ _ (inv_wf _ Hi o Ho) Hpb) as Hhp. rewrite u8_id in Hhp by done.
  rewrite Hhp. cbn [mbind res_bind].
  destruct (inv_placed _ Hi o Ho Hp) as [Hnd Hown].
  rewrite evict_loop; [| done | done | done | exact Hnd |].
  2:{ intros x Hx. pose proof (bslots_range s (pil s o) o x Hi Hx). destruct (Hown x Hx). done. }
  cbn [mbind res_bind]. unfold clearProcessed. pose proof (inv_proc _ Hi).
  rewrite upd_in_range by (simpl; lia). done.
Qed.

Lemma evicted_processed s o c :
  inv s -> 0 <= o < numBuckets s -> 0 <= c -> processed (evicted s o) c <-> processed s c /\ c <> o.
Proof.
  intros Hi Ho Hc. pose proof (inv_proc _ Hi). pose proof (inv_gen_pos _ Hi).
  unfold processed, evicted. simpl. rewrite insert_lookup_Z by lia.
  case_decide; [| naive_solver]. split; [intros [= ?]; lia | naive_solver].
Qed.

Lemma evicted_occupied s o x :
  inv s -> 0 <= x -> occupied (evicted s o) x <-> occupied s x /\ x ∉ bslots s (pil s o) o.
Proof.
  intros Hi Hx. pose proof (inv_slotGen_len _ Hi). pose proof (inv_gen_pos _ Hi).
  unfold occupied, evicted. simpl. rewrite mark_lookup, Z2Nat.id.
  - case_decide; [| naive_solver]. split; [intros [= ?]; lia | naive_solver].
  - lia.
  - eapply Forall_impl; [by apply bslots_lt |]. simpl. lia.
Qed.

Lemma evicted_inv s o :
  inv s -> 0 <= o < numBuckets s -> processed s o -> o ∉ pinned s -> inv (evicted s o).
Proof.
  intros Hi Ho Hp Hpin.
  assert (forall c, 0 <= c -> processed (evicted s o) c <-> processed s c /\ c <> o) as Hproc
    by (intros; by apply evicted_processed).
  assert (forall x, 0 <= x -> occupied (evicted s o) x <-> occupied s x /\ x ∉ bslots s (pil s o) o) as Hocc
    by (intros; by apply evicted_occupied).
  assert (frame s (evicted s o)) as Hfr by done.
  assert (Hl : numBuckets s <= len (processedGen (evicted s o))).
  { unfold evicted. simpl. rewrite len_insert. apply (inv_proc _ Hi). }
  assert (Hwf : forall c, 0 <= c < numBuckets s -> search_wf (evicted s o) (len (bk s c))).
  { intros c Hc. destruct (inv_wf _ Hi c Hc). split; try done; unfold evicted; simpl.
    - by rewrite mark_len.
    - apply mark_Forall; [lia | done]. }
  assert (Hpo : pin_ok (evicted s o)) by (destruct (inv_pin _ Hi); by split).
  assert (Hcaps : caps (evicted s o)).
  { pose proof (inv_caps _ Hi) as (? & ? & ? & ? & ? & ? & ? & Hle). unfold evicted, caps; simpl.
    rewrite !mark_len, !len_insert. split_and!; try done.
    intros c x Hc. rewrite insert_lookup_Z by lia. pose proof (inv_gen_pos _ Hi).
    case_decide; [intros [= <-]; lia | by apply Hle]. }
  split; try done; try (apply Hi).
  - intros c Hc Hc0. apply Hproc; [done |]. split; [by apply (inv_pinp _ Hi) | intros ->; exact (Hpin Hc)].
  - intros c Hc Hpc. apply Hproc in Hpc as [Hpc Hne]; [| lia].
    destruct (inv_placed _ Hi c Hc Hpc) as [Hnd Hown]. split; [exact Hnd |].
    intros x Hx. destruct (Hown x Hx) as [Hox Hwx]. pose proof (bslots_range _ _ _ _ Hi Hx).
    split; [| exact Hwx]. apply Hocc; [lia |]. split; [done |]. intros Hin.
    destruct (inv_placed _ Hi o Ho Hp) as [_ Hoo]. destruct (Hoo x Hin) as [_ Hw]. congruence.
  - intros x Hx Hox. apply Hocc in Hox as [Hox Hnin]; [| lia].
    destruct (inv_occ _ Hi x Hx Hox) as (c & Hc & Hpc & Hw & Hin).
    exists c. split; [done |]. split; [| done]. apply Hproc; [lia |]. split; [done |]. congruence.
Qed.

(** ** Evicting the owners of a set of slots *)
Definition evict_step (s : solver) (owner : Z) : res solver :=
  s ← evictBucket s owner;
  s ← clearProcessed s owner;
  size ← bucketSize s owner;
  h ← push (pendingHeap s) owner size;
  Ok (set_evictions (evictions s + 1) (set_pendingHeap h s)).

(** Everything the evictions leave alone. *)
Record evict_frame (s s' : solver) : Prop := {
  ef_frame : frame s s';
  ef_pil : pilots s' = pilots s;
  ef_owner : slotOwner s' = slotOwner s;
  ef_best : bestSlots s' = bestSlots s;
  ef_pinned : pinned s' = pinned s;
  ef_ev : evictions s' - heap_len (pendingHeap s') = evictions s - heap_len (pendingHeap s)
}.

Definition in_heap (s : solver) (b : Z) : Prop := exists size, (size, b) ∈ elems (pendingHeap s).

Lemma heap_len_elems h : good h -> heap_len h = len (elems h).
Proof. intros Hg. unfold heap_len, len. by rewrite elems_length. Qed.

Lemma evict_step_spec s o :
  inv s -> 0 <= o < numBuckets s -> processed s o -> o ∉ pinned s -> bk s o <> [] ->
  wp (evict_step s o) (fun s' => inv s' /\ evict_frame s s' /\ evictions s' = evictions s + 1 /\
    (forall c, 0 <= c -> processed s' c <-> processed s c /\ c <> o) /\
    (forall x, 0 <= x -> occupied s' x <-> occupied s x /\ x ∉ bslots s (pil s o) o) /\
    (forall c, in_heap s' c <-> c = o \/ in_heap s c)) no_err.
Proof.
  intros Hi Ho Hp Hpin Hne. unfold evict_step.
  rewrite <- res_bind_assoc, evict_clear_eq by done. cbn [mbind res_bind].
  pose proof (evicted_inv s o Hi Ho Hp Hpin) as Hi'. set (s1 := evicted s o) in *.
  rewrite bsize_read by done. cbn [mbind res_bind].
  apply wp_bind. eapply wp_mono; [apply push_spec, (inv_heap _ Hi') | | done].
  intros h [Hh Hperm]. cbn [wp]. set (s2 := set_evictions _ _).
  pose proof (inv_nb _ Hi).
  assert (Hheap : forall c, in_heap s2 c <-> c = o \/ in_heap s c).
  { intros c. unfold in_heap. simpl. split.
    - intros [sz Hc]. rewrite Hperm in Hc. apply elem_of_cons in Hc as [Hc | Hc]; [| by right; exists sz].
      left. injection Hc as _ ->. rewrite u16_id by (unfold_words; lia). done.
    - intros [-> | [sz Hc]].
      + exists (u16 (len (bk s1 o))). rewrite Hperm, (u16_id o) by (unfold_words; lia). set_solver.
      + exists sz. rewrite Hperm. set_solver. }
  assert (inv s2) as Hi2.
  { pose proof (inv_heapr _ Hi') as Hr. destruct Hi'. split; try done.
    - intros c Hc. destruct (inv_wf0 c Hc). by split.
    - destruct inv_pin0. by split.
    - intros sz c Hc. destruct (proj1 (Hheap c) (ex_intro _ sz Hc)) as [-> | [sz' Hc']]; [done |].
      by apply (Hr sz'). }
  split_and!; [done | | done | | | done].
  - split; try done. cbn [evictions pendingHeap set_evictions set_pendingHeap s2].
    rewrite !heap_len_elems by (apply Hh || apply (inv_heap _ Hi)). unfold len.
    rewrite (Permutation_length Hperm). simpl. lia.
  - intros c Hc. by apply evicted_processed.
  - intros x Hx. by apply evicted_occupied.
Qed.

Lemma evict_all_spec s owners :
  inv s -> NoDup owners ->
  Forall (fun o => 0 <= o < numBuckets s /\ processed s o /\ (o ∉ pinned s) /\ bk s o <> []) owners ->
  wp (foldM evict_step s owners) (fun s' => inv s' /\ evict_frame s s' /\
    evictions s' = evictions s + len owners /\
    (forall c, 0 <= c -> processed s' c <-> processed s c /\ c ∉ owners) /\
    (forall x, 0 <= x -> occupied s' x <->
       occupied s x /\ forall o, o ∈ owners -> x ∉ bslots s (pil s o) o) /\
    (forall c, in_heap s' c <-> c ∈ owners \/ in_heap s c)) no_err.
Proof.
  intros Hi Hnd Ho.
  apply (wp_foldM_prefix (fun pre s' => inv s' /\ evict_frame s s' /\
    evictions s' = evictions s + len pre /\
    (forall c, 0 <= c -> processed s' c <-> processed s c /\ c ∉ pre) /\
    (forall x, 0 <= x -> occupied s' x <->
       occupied s x /\ forall o, o ∈ pre -> x ∉ bslots s (pil s o) o) /\
    (forall c, in_heap s' c <-> c ∈ pre \/ in_heap s c))).
  { split_and!; [done | by split | rewrite len_nil; lia | | |]; set_solver. }
  intros pre o post s1 Hsplit (Hi1 & Hef & Hev & Hproc & Hocc & Hheap).
  pose proof (ef_frame _ _ Hef) as Hfr.
  rewrite Hsplit in Hnd, Ho. apply Forall_app in Ho as [_ [(Hor & Hop & Hopin & Hone) _]%Forall_cons].
  assert (o ∉ pre) as Hnin by (apply NoDup_app in Hnd as (_ & Hd & _); intros Hin; apply (Hd o Hin); set_solver).
  eapply wp_mono; [apply evict_step_spec | | done].
  - done.
  - by rewrite (fr_nb _ _ Hfr).
  - apply Hproc; [lia | done].
  - by rewrite (ef_pinned _ _ Hef).
  - by rewrite (frame_bk _ _ _ Hfr).
  - intros s2 (Hi2 & Hef2 & Hev2 & Hproc2 & Hocc2 & Hheap2).
    assert (evict_frame s s2) as Hef3.
    { split; [eapply frame_trans; [exact Hfr | apply Hef2] | ..];
        destruct Hef as [_ ? ? ? ? ?], Hef2 as [_ ? ? ? ? ?]; congruence || lia. }
    assert (bslots s1 (pil s1 o) o = bslots s (pil s o) o) as Hb.
    { rewrite (frame_bslots s s1) by done. unfold pil. by rewrite (ef_pil _ _ Hef). }
    split_and!; [done | done | | | |].
    + rewrite len_app, len_single. lia.
    + intros c Hc. rewrite Hproc2, Hproc by done. set_solver.
    + intros x Hx. rewrite Hocc2, Hocc, Hb by done. split.
      * intros [[H1 H2] H3]. split; [done |]. intros o' [Ho' | ->%list_elem_of_singleton]%elem_of_app; auto.
      * intros [H1 H2]. split_and!; [done | |]; intros; apply H2; set_solver.
    + intros c. rewrite Hheap2, Hheap. set_solver.
Qed.

(** The owners of the chosen slots, each once. *)
Lemma owners_spec s b slots :
  inv s -> ~ processed s b -> Forall (fun x => 0 <= x < numSlots s) slots -> unpinned s slots ->
  wp (foldM (fun owners slot =>
        owner ← getOwner s slot;
        if (0 <=? owner) && negb (owner =? b) then
          Ok (if existsb (Z.eqb (u16 owner)) owners then owners else owners ++ [u16 owner])
        else Ok owners) [] slots)
    (fun owners => NoDup owners /\
      Forall (fun o => 0 <= o < numBuckets s /\ processed s o /\ (o ∉ pinned s) /\ bk s o <> []) owners /\
      forall x o, x ∈ slots -> owns s o x -> o ∈ owners) no_err.
Proof.
  intros Hi Hnp Hs Hun. pose proof (inv_nb _ Hi).
  apply (wp_foldM_prefix (fun pre owners => NoDup owners /\
    Forall (fun o => 0 <= o < numBuckets s /\ processed s o /\ (o ∉ pinned s) /\ bk s o <> []) owners /\
    forall x o, x ∈ pre -> owns s o x -> o ∈ owners)).
  { split_and!; [apply NoDup_nil_2 | apply Forall_nil_2 | set_solver]. }
  intros pre x post owners Hsplit (Hnd & Hall & Hcov).
  assert (0 <= x < numSlots s) as Hx by (rewrite Hsplit in Hs; by apply Forall_app in Hs as [_ [? _]%Forall_cons]).
  assert (x ∈ slots) as Hxin by (rewrite Hsplit; set_solver).
  destruct (getOwner_spec s x Hi Hx) as (o & -> & [[-> Hno] | (Ho & Hown & Hp & Hin)]); cbn [mbind res_bind].
  - cbn [Z.leb Z.compare andb wp]. split_and!; [done | done |].
    intros y o [Hy | ->%list_elem_of_singleton]%elem_of_app Hw; [by eapply Hcov | by destruct Hw].
  - rewrite (proj2 (Z.leb_le 0 o)) by lia.
    destruct (Z.eqb_spec o b) as [-> |]; [done |]. cbn [andb negb wp].
    rewrite u16_id by (unfold_words; lia).
    assert (Hcov' : forall l : list Z, (forall o', o' ∈ owners -> o' ∈ l) -> o ∈ l ->
      forall y o', y ∈ pre ++ [x] -> owns s o' y -> o' ∈ l).
    { intros l Hl Hol y o' [Hy | ->%list_elem_of_singleton]%elem_of_app Hw; [by eapply Hl, Hcov |].
      destruct Hw as [_ Hw], Hown as [_ Hw']. congruence. }
    destruct (existsb (Z.eqb o) owners) eqn:Hex.
    + apply existsb_exists in Hex as (o' & Ho' & He%Z.eqb_eq). subst o'. apply list_elem_of_In in Ho'.
      split_and!; [done | done |]. by apply Hcov'.
    + assert (o ∉ owners) as Hnin.
      { intros Hin'. apply list_elem_of_In in Hin'. rewrite <- not_true_iff_false in Hex. apply Hex.
        apply existsb_exists. exists o. by rewrite Z.eqb_refl. }
      split_and!.
      * apply NoDup_app. split_and!; [done | set_solver | apply NoDup_singleton].
      * apply Forall_app. split; [done |]. apply Forall_singleton. split_and!; [lia | lia | done | |].
        -- specialize (Hun x o Hxin Hown). rewrite (isPinned_ok s o (inv_pin _ Hi) Ho) in Hun.
           injection Hun as Hun. by apply bool_decide_eq_false in Hun.
        -- intros He. unfold bslots in Hin. rewrite He in Hin. by apply not_elem_of_nil in Hin.
      * apply Hcov'; set_solver.
Qed.

(** ** One bucket *)

(** What one successful or failed call leaves. *)
Record process_post (s : solver) (b : Z) (s' : solver) (err : option error) : Prop := {
  pp_inv : inv s';
  pp_frame : frame s s';
  pp_ev : evictions s' - heap_len (pendingHeap s') = evictions s - heap_len (pendingHeap s);
  pp_mono : evictions s <= evictions s';
  pp_heap : forall c, in_heap s c -> in_heap s' c;
  pp_keep : forall c, 0 <= c < numBuckets s -> processed s c -> processed s' c \/ in_heap s' c;
  pp_done : err = None -> processed s' b;
  pp_err : forall e, err = Some e ->
    (e = ErrDuplicateKey /\ hasDuplicateSlotInput (bk s b) = true) \/
    (e = ErrIndistinguishableHashes /\ hasDuplicateSlotInput (bk s b) = false)
}.

Lemma place_phase1 s s1 b p :
  inv s -> scratch_eq s s1 -> 0 <= b < numBuckets s -> ~ processed s b -> 0 <= p < 256 ->
  free_pilot s (bk s b) p ->
  inv (placed s1 b p (bslots s p b)) /\
  process_post s b (placed s1 b p (bslots s p b)) None.
Proof.
  intros Hi Hsc Hb Hnp Hp [Hnd Hfree]. pose proof (scratch_inv _ _ Hsc Hi) as Hi1.
  pose proof (scratch_frame _ _ Hsc) as Hfr.
  rewrite <- (frame_bslots s s1 p b Hfr).
  assert (processed s1 b <-> processed s b) as Hpb by (by destruct Hsc as (? & ? & ? & -> & _)).
  assert (inv (placed s1 b p (bslots s1 p b))) as Hi2.
  { apply placed_inv; [done | by rewrite (fr_nb _ _ Hfr) | done | left; by rewrite Hpb | |].
    - by rewrite (frame_bslots s s1).
    - rewrite (frame_bslots s s1) by done. intros x Hx. rewrite (scratch_eq_occupied s s1) by done.
      by apply (proj1 (Forall_forall _ _) Hfree). }
  split; [done |].
  assert (pendingHeap s1 = pendingHeap s /\ evictions s1 = evictions s) as [Hh He]
    by (by destruct Hsc as (? & ? & ? & -> & _)).
  split; try done.
  - eapply frame_trans; [exact Hfr |]. done.
  - simpl. by rewrite Hh, He.
  - simpl. by rewrite He.
  - unfold in_heap. simpl. by rewrite Hh.
  - intros c Hc Hpc. left. apply placed_processed; [done | by rewrite (fr_nb _ _ Hfr) | lia |].
    right. by destruct Hsc as (? & ? & ? & -> & _).
  - intros _. apply placed_processed; [done | by rewrite (fr_nb _ _ Hfr) | lia | by left].
Qed.

Lemma inv_repin s l bits k :
  inv s -> len bits = len (pinnedBits s) ->
  pin_ok (set_pinnedIdx k (set_pinned l (set_pinnedBits bits s))) ->
  (forall c, c ∈ l -> 0 <= c -> processed s c) ->
  inv (set_pinnedIdx k (set_pinned l (set_pinnedBits bits s))).
Proof.
  intros Hi Hbl Hp Hl. destruct Hi. split; try done.
  - unfold caps in *. simpl. by rewrite Hbl.
  - intros c Hc. destruct (inv_wf0 c Hc). by split.
Qed.

(** The Phase 2 tail: evict the owners, take the slots, pin. *)
Definition phase2_commit (s : solver) (b bestPilot : Z) : res solver :=
  owners ← foldM (fun owners slot =>
             owner ← getOwner s slot;
             if (0 <=? owner) && negb (owner =? b) then
               Ok (if existsb (Z.eqb (u16 owner)) owners then owners else owners ++ [u16 owner])
             else Ok owners) [] (bestSlots s);
  s ← foldM evict_step (set_evictedOwners owners s) owners;
  s ← placeBucket s b bestPilot (bestSlots s);
  s ← pin s b;
  setProcessed s b.

Lemma place_pin_spec s b p slots :
  inv s -> 0 <= b < numBuckets s -> is_byte p -> ~ processed s b ->
  slots = bslots s p b -> NoDup slots -> (forall x, x ∈ slots -> ~ occupied s x) ->
  wp (s ← placeBucket s b p slots; s ← pin s b; setProcessed s b)
    (fun s' => inv s' /\ exists l bits k,
       s' = set_pinnedIdx k (set_pinned l (set_pinnedBits bits (placed s b p slots)))) no_err.
Proof.
  intros Hi Hb Hp Hnp -> Hnd Hfree. rewrite placeBucket_eq by (done || by apply bslots_lt).
  cbn [mbind res_bind]. set (s6 := set_slotGen _ _).
  assert (pin_ok s6) as Hpo by (destruct (inv_pin _ Hi); by split).
  assert (b ∉ pinned s6) as Hnin.
  { intros Hin. apply Hnp. apply (inv_pinp _ Hi); [exact Hin | lia]. }
  pose proof (inv_nb _ Hi).
  destruct (pin_spec s6 b Hpo Hb ltac:(simpl; lia) Hnin) as (bits & k & Hbl & -> & Hpo'). cbn [mbind res_bind].
  unfold setProcessed. pose proof (inv_proc _ Hi). rewrite upd_in_range by (simpl; lia).
  cbn [mbind res_bind wp]. pose proof (placed_inv s b p Hi Hb Hp (or_introl Hnp) Hnd Hfree) as Hi2. split.
  - change (inv (set_pinnedIdx k (set_pinned (<[Z.to_nat (pinnedIdx s6) := b]> (pinned s6))
      (set_pinnedBits bits (placed s b p (bslots s p b)))))).
    apply inv_repin; [done | exact Hbl | destruct Hpo'; by split |].
    intros c Hc Hc0. apply placed_processed; [done | done | done |].
    apply list_elem_of_lookup in Hc as [j Hj]. destruct (decide (j = Z.to_nat (pinnedIdx s6))) as [Hji |].
    + rewrite Hji in Hj. pose proof (pin_len _ Hpo). pose proof (pin_idx _ Hpo).
      rewrite list_lookup_insert_eq in Hj by (unfold len in *; lia). left. congruence.
    + rewrite list_lookup_insert_ne in Hj by done. right. apply (inv_pinp _ Hi); [| done].
      by eapply list_elem_of_lookup_2.
  - exists (<[Z.to_nat (pinnedIdx s6) := b]> (pinned s6)), bits, k. reflexivity.
Qed.

Lemma phase2_commit_spec s b p :
  inv s -> 0 <= b < numBuckets s -> ~ processed s b ->
  best_ok s b p -> bestSlots s <> [] ->
  wp (phase2_commit s b p) (fun s' => process_post s b s' None) no_err.
Proof.
  intros Hi Hb Hnp [| (Hbs & Hp & Hnd & Hun)] Hne; [done |]. unfold phase2_commit.
  assert (Forall (fun x => 0 <= x < numSlots s) (bestSlots s)) as Hlt by (rewrite Hbs; by apply bslots_lt).
  apply wp_bind. eapply wp_mono; [by apply owners_spec | | done].
  intros owners (Hond & Hoall & Hocov).
  set (s4 := set_evictedOwners owners s). assert (inv s4) as Hi4 by (inv_same Hi).
  apply wp_bind. eapply wp_mono; [apply (evict_all_spec s4 owners); done | | done].
  intros s5 (Hi5 & Hef & Hev & Hproc & Hocc & Hheap).
  assert (frame s s5) as Hfr by (destruct (ef_frame _ _ Hef); by split).
  assert (bestSlots s5 = bslots s5 p b) as Hbs5.
  { rewrite (ef_best _ _ Hef), (frame_bslots s s5) by done. exact Hbs. }
  eapply wp_mono; [apply place_pin_spec | | done].
  - done.
  - by rewrite (fr_nb _ _ Hfr).
  - done.
  - intros Hpb. apply Hproc in Hpb as [Hpb _]; [done | lia].
  - done.
  - by rewrite (ef_best _ _ Hef).
  - rewrite (ef_best _ _ Hef). intros x Hx Hox.
    pose proof (proj1 (Forall_forall _ _) Hlt x Hx) as Hxr. cbv beta in Hxr.
    apply Hocc in Hox as [Hox Hno]; [| lia].
    destruct (inv_occ _ Hi x Hxr Hox) as (o & Ho & Hpo & Hw & Hin).
    apply (Hno o); [eapply Hocov; [exact Hx | done] | exact Hin].
  - intros s' [Hi' (l & bits & k & ->)].
    assert (forall c, 0 <= c < numBuckets s -> processed s5 c ->
      processed (set_pinnedIdx k (set_pinned l (set_pinnedBits bits (placed s5 b p (bestSlots s5))))) c) as Hmon.
    { intros c Hc Hpc. apply (placed_processed s5 b p (bestSlots s5) c); [done | by rewrite (fr_nb _ _ Hfr) | lia | by right]. }
    split; try done.
    + eapply frame_trans; [exact Hfr |]. done.
    + simpl. rewrite (ef_ev _ _ Hef). done.
    + simpl. rewrite Hev. simpl. pose proof (len_nonneg owners). lia.
    + intros c Hc. apply (Hheap c). by right.
    + intros c Hc Hpc. destruct (decide (c ∈ owners)); [right; apply (Hheap c); by left |].
      left. apply Hmon; [done |]. apply Hproc; [lia | done].
    + intros _. apply (placed_processed s5 b p (bestSlots s5) b); [done | by rewrite (fr_nb _ _ Hfr) | lia | by left].
Qed.

Lemma processBucketWithHeap_spec s rng b :
  inv s -> 0 <= b < numBuckets s -> ~ processed s b ->
  wp (processBucketWithHeap s rng b) (fun '(_, s', err) => process_post s b s' err) no_err.
Proof.
  intros Hi Hb Hnp. unfold processBucketWithHeap. rewrite bsize_read, bk_read by done.
  cbn [mbind res_bind]. pose proof (inv_wf _ Hi b Hb) as Hwf.
  apply wp_bind. eapply wp_mono; [by apply findFreePilot_post | | done].
  intros [[p ok] s1] [Hsc Hres]. pose proof (scratch_inv _ _ Hsc Hi) as Hi1.
  pose proof (scratch_frame _ _ Hsc) as Hfr1. pose proof (len_nonneg (bk s b)) as Hn0.
  assert (Hb1 : 0 <= b < numBuckets s1) by (by rewrite (fr_nb _ _ Hfr1)).
  assert (Hwf1 : search_wf s1 (len (bk s b))) by (by eapply scratch_eq_wf).
  pose proof (wf_slotsBuffer _ _ Hwf1) as Hsb1. pose proof (wf_foldedBuffer _ _ Hwf1) as Hfb1.
  destruct (first_free s (bk s b)) as [q |] eqn:Hff.
  - destruct Hres as (-> & -> & Hbuf). rewrite slice_in_range by lia. cbn [mbind res_bind].
    change (Z.to_nat 0) with 0%nat. rewrite drop_0, Z.sub_0_r. unfold len. rewrite Nat2Z.id, Hbuf.
    apply first_free_Some in Hff as (Hq & Hfree & _).
    change (slots_of _ _ _ _) with (bslots s q b).
    rewrite placeBucket_eq by (done || (eapply Forall_impl; [by apply (bslots_lt s q b) |]; simpl; by rewrite (fr_ns _ _ Hfr1))).
    cbn [mbind res_bind]. unfold setProcessed. pose proof (inv_proc _ Hi1).
    rewrite upd_in_range by (simpl; lia). cbn [mbind res_bind wp].
    by apply (place_phase1 s s1 b q).
  - subst ok. destruct (pcg_IntN256 rng) as [x rng']. cbv zeta.
    rewrite !slice_in_range by (simpl; lia). cbn [mbind res_bind].
    destruct (fold_loop (set_bestSlots [] s1) (bk s b)) as (folded & -> & Hfl & Hft).
    { destruct Hwf1. by split. }
    cbn [mbind res_bind]. set (s2 := set_foldedBuffer folded (set_bestSlots [] s1)).
    assert (inv s2) as Hi2.
    { destruct Hi1. split; try done.
      - unfold caps, len in *. simpl in *. rewrite Hfl. done.
      - intros c Hc. destruct (inv_wf0 c Hc). split; try done.
        change (len (bk s1 c) <= len folded). unfold len in *. simpl in Hfl. lia.
      - destruct inv_pin0. by split. }
    assert (frame s s2) as Hfr2 by (destruct Hfr1; by split).
    apply wp_bind.
    assert (Hloop : wp (foldB (phase2_step (u8 x) (len (bk s b)) folded) (s2, 0, MaxInt) (range numPilotValues))
      (fun c => match c with inl (s', p', _) | inr (s', p', _) =>
         inv s' /\ same_place s2 s' /\ best_ok s' b p' end) no_err).
    { apply (wp_foldB (fun '(s', p', _) => inv s' /\ same_place s2 s' /\ best_ok s' b p')).
      - split_and!; [done | apply same_place_refl | by left].
      - intros delta [[s' p'] sc] Hd%elem_of_range (Hi' & Hsp' & Hbo').
        assert (bk s2 b = bk s b) as Hbk2 by (by apply frame_bk).
        rewrite <- Hbk2. eapply wp_mono; [apply (phase2_step_spec s2 b (u8 x) folded s' p' sc delta) | | done].
        + done.
        + done.
        + apply u8_is.
        + lia.
        + by rewrite Hbk2.
        + done.
        + done.
        + done.
        + intros [[[s3 p3] sc3] | [[s3 p3] sc3]]; done.
      - intros [[s' p'] sc]. done. }
    eapply wp_mono; [exact Hloop | | done]. clear Hloop.
    intros c Hc. destruct (match c with inl st => st | inr st => st end) as [[s3 p3] sc3] eqn:Hcst.
    assert (inv s3 /\ same_place s2 s3 /\ best_ok s3 b p3) as (Hi3 & Hsp3 & Hbo3).
    { destruct c as [[[? ?] ?] | [[? ?] ?]]; by simplify_eq. }
    clear Hc Hcst. pose proof (sp_frame _ _ Hsp3) as Hfr3.
    assert (frame s s3) as Hfr by (by eapply frame_trans).
    assert (forall c, processed s3 c <-> processed s c) as Hpr.
    { intros c'. rewrite (sp_processed s2 s3) by done. by destruct Hsc as (? & ? & ? & -> & _). }
    assert (pendingHeap s3 = pendingHeap s /\ evictions s3 = evictions s) as [Hh He].
    { rewrite (sp_heap _ _ Hsp3), (sp_ev _ _ Hsp3). by destruct Hsc as (? & ? & ? & -> & _). }
    destruct (Z.eqb_spec (len (bestSlots s3)) 0) as [Hlen | Hlen].
    + cbn [wp]. split; try done.
      * by rewrite Hh, He.
      * by rewrite He.
      * unfold in_heap. by rewrite Hh.
      * intros c' _ Hc'. left. by apply Hpr.
      * intros e [= <-]. destruct (hasDuplicateSlotInput (bk s b)) eqn:?; [by left | by right].
    + assert (Hb3 : 0 <= b < numBuckets s3) by (by rewrite (fr_nb _ _ Hfr)).
      assert (Hne : bestSlots s3 <> []) by (intros Hnil; by rewrite Hnil in Hlen).
      pose proof (phase2_commit_spec s3 b p3 Hi3 Hb3 ltac:(by rewrite Hpr) Hbo3 Hne) as Hcommit.
      unfold phase2_commit, evict_step in Hcommit.
      apply wp_bind_inv in Hcommit. apply wp_bind. eapply wp_mono; [exact Hcommit | | done].
      intros owners Hc1. apply wp_bind_inv in Hc1. apply wp_bind. eapply wp_mono; [exact Hc1 | | done].
      intros s5 Hc2. apply wp_bind_inv in Hc2. apply wp_bind. eapply wp_mono; [exact Hc2 | | done].
      intros s6 Hc3. apply wp_bind_inv in Hc3. apply wp_bind. eapply wp_mono; [exact Hc3 | | done].
      intros s7 Hc4. apply wp_bind. eapply wp_mono; [exact Hc4 | | done].
      intros s8 []. cbn [wp]. split; try done.
      * by eapply frame_trans.
      * by rewrite pp_ev0, Hh, He.
      * by rewrite <- He.
      * intros c' Hc'. apply pp_heap0. unfold in_heap in *. by rewrite Hh.
      * intros c' Hc' Hpc. apply pp_keep0; [by rewrite (fr_nb _ _ Hfr) | by apply Hpr].
Qed.
