(* ===== verification/PtrSolve.v ===== *)
(** * Solving a block: termination, and every key in a slot of its own

    The eviction loop ends (each round pops a bucket that an eviction pushed, and
    evictions are limited), no operation panics, and when [solve] returns pilots
    every key has its own slot and the remap table sends the overflow slots
    injectively to the holes. *)
From S2P Require Import Prelude Words Floats PtrPilot PtrHeap PtrSort PtrSearch PtrSolver PtrPin PtrInv.
#[local] Open Scope Z_scope.

(** ** The eviction loop *)
Definition covered (s : solver) (c : Z) : Prop := processed s c \/ in_heap s c.

Definition pops (s : solver) : Z := evictions s - heap_len (pendingHeap s).

(** The reasons a bucket cannot be placed. *)
Definition bucket_error (s : solver) (e : error) : Prop :=
  exists b, 0 <= b < numBuckets s /\
    ((e = ErrDuplicateKey /\ hasDuplicateSlotInput (bk s b) = true) \/
     (e = ErrIndistinguishableHashes /\ hasDuplicateSlotInput (bk s b) = false)).

Lemma bucket_error_frame s s' e : frame s s' -> bucket_error s' e -> bucket_error s e.
Proof.
  intros Hf (b & Hb & He). exists b. rewrite (fr_nb _ _ Hf) in Hb. rewrite (frame_bk s s') in He by done. done.
Qed.

Record step_post (s s' : solver) : Prop := {
  st_inv : inv s';
  st_frame : frame s s';
  st_pops : pops s <= pops s';
  st_mono : evictions s <= evictions s';
  st_cov : forall c, 0 <= c < numBuckets s -> covered s c -> covered s' c
}.

Lemma step_post_refl s : inv s -> step_post s s.
Proof. intros. split; [done | done | lia | lia | done]. Qed.

Lemma step_post_trans s s' s'' : step_post s s' -> step_post s' s'' -> step_post s s''.
Proof.
  intros [H1 H2 H3 H4 H5] [H1' H2' H3' H4' H5'].
  split; [done | by eapply frame_trans | lia | lia |].
  intros c Hc Hcov. apply H5'; [by rewrite (fr_nb _ _ H2) | by apply H5].
Qed.

Lemma process_step s b s' err : process_post s b s' err -> step_post s s'.
Proof.
  intros Hpp. split; [apply Hpp | apply Hpp | | apply Hpp |].
  - unfold pops. pose proof (pp_ev _ _ _ _ Hpp). lia.
  - intros c Hc [Hp | Hh]; [by apply (pp_keep _ _ _ _ Hpp) | right; by apply (pp_heap _ _ _ _ Hpp)].
Qed.

(** Popping: the popped bucket is the only one that may lose its cover. *)
Lemma pop_step s :
  inv s -> 0 < heap_len (pendingHeap s) ->
  exists b size h, pop (pendingHeap s) = Ok (b, size, h) /\
    let s1 := set_pendingHeap h s in
    inv s1 /\ 0 <= b < numBuckets s /\ frame s s1 /\ pops s1 = pops s + 1 /\ evictions s1 = evictions s /\
    (forall c, covered s c -> c = b \/ covered s1 c).
Proof.
  intros Hi Hl. destruct (wp_total _ _ (pop_spec _ (inv_heap _ Hi) Hl)) as ([[b size] h] & Hp & Hh & Hperm & _).
  exists b, size, h. split; [done |]. cbv zeta.
  assert (Hin : (size, b) ∈ elems (pendingHeap s)) by (rewrite Hperm; set_solver).
  destruct (inv_heapr _ Hi _ _ Hin) as [Hb _].
  assert (Hsub : forall e, e ∈ elems h -> e ∈ elems (pendingHeap s)) by (intros; rewrite Hperm; set_solver).
  split_and!; try done; try lia.
  - apply inv_set_heap; [done | done |]. intros sz c Hc. by apply (inv_heapr _ Hi sz), Hsub.
  - unfold pops. simpl. rewrite !heap_len_elems by (apply Hh || apply (inv_heap _ Hi)).
    unfold len. rewrite (Permutation_length Hperm). simpl. lia.
  - intros c [Hc | [sz Hc]]; [right; by left |]. rewrite Hperm in Hc.
    apply elem_of_cons in Hc as [[= _ ->] | Hc]; [by left | right; right; by exists sz].
Qed.

Definition drain_post (maxEv : Z) (s s' : solver) (err : option error) : Prop :=
  match err with
  | None => step_post s s' /\ (heap_len (pendingHeap s') = 0 \/ maxEv < evictions s')
  | Some e => inv s' /\ frame s s' /\ bucket_error s e
  end.

Lemma drain_spec (fuel : nat) maxEv rng s :
  inv s -> 0 <= pops s -> Z.max maxEv (evictions s) + 1 - pops s < Z.of_nat fuel ->
  wp (drain fuel maxEv rng s) (fun '(_, s', err) => drain_post maxEv s s' err) no_err.
Proof.
  revert rng s. induction fuel as [| fuel IH]; intros rng s Hi Hp Hf.
  { unfold pops, heap_len in *. pose proof (len_nonneg (indices (pendingHeap s))). lia. }
  cbn [drain]. destruct (Z.leb_spec (heap_len (pendingHeap s)) 0) as [Hle | Hgt].
  { cbn [wp]. split; [by apply step_post_refl |]. left. unfold heap_len in *.
    pose proof (len_nonneg (indices (pendingHeap s))). lia. }
  destruct (pop_step s Hi Hgt) as (b & size & h & -> & Hi1 & Hb & Hfr1 & Hpops & Hev & Hcov).
  cbn [mbind res_bind]. set (s1 := set_pendingHeap h s) in *.
  assert (Hb1 : 0 <= b < numBuckets s1) by (by rewrite (fr_nb _ _ Hfr1)).
  rewrite is_processed_read by done. cbn [mbind res_bind].
  assert (Hstep : forall s', step_post s1 s' -> covered s' b -> step_post s s').
  { intros s' [H1 H2 H3 H4 H5] Hcb. split; [done | by eapply frame_trans | lia | lia |].
    intros c Hc [-> | Hcov1]%Hcov; [done |]. apply H5; [by rewrite (fr_nb _ _ Hfr1) | done]. }
  assert (Hrec : forall s2, step_post s s2 -> covered s2 b -> forall s' err,
    drain_post maxEv s2 s' err -> drain_post maxEv s s' err).
  { intros s2 Hst Hcb s' [e |]; cbn [drain_post].
    - intros (H1 & H2 & H3). pose proof (st_frame _ _ Hst). split; [done |].
      split; [by eapply frame_trans | by eapply bucket_error_frame].
    - intros [H1 H2]. split; [by eapply step_post_trans | done]. }
  destruct (bool_decide_reflect (processed s1 b)) as [Hpb | Hnpb].
  - eapply wp_mono; [apply IH; [done | lia | lia] | | done].
    intros [[rng' s'] err]. apply Hrec; [| by left]. apply Hstep; [by apply step_post_refl | by left].
  - apply wp_bind. eapply wp_mono; [by apply processBucketWithHeap_spec | | done].
    intros [[rng' s2] err] Hpp. pose proof (process_step _ _ _ _ Hpp) as Hst2.
    destruct err as [e |].
    + cbn [wp drain_post]. split; [apply Hst2 |]. split; [eapply frame_trans; [exact Hfr1 | apply Hst2] |].
      exists b. split; [done |]. pose proof (pp_err _ _ _ _ Hpp e eq_refl) as He.
      by rewrite (frame_bk s s1) in He.
    + pose proof (pp_done _ _ _ _ Hpp eq_refl) as Hpd.
      assert (step_post s s2) as Hst by (apply Hstep; [done | by left]).
      destruct (Z.ltb_spec maxEv (evictions s2)).
      * split; [done |]. by right.
      * pose proof (st_pops _ _ Hst2).
        eapply wp_mono; [apply IH; [apply Hst2 | lia | lia] | | done].
        intros [[rng'' s'] err]. apply Hrec; [done | by left].
Qed.

(** ** The main loop *)
Lemma placed_empty s b :
  set_processedGen (<[Z.to_nat b := generation s]> (processedGen s))
    (set_pilots (<[Z.to_nat b := 0]> (pilots s)) s) = placed s b 0 [].
Proof. reflexivity. Qed.

Definition bucket_post (s : solver) (b : Z) (r : pcg * solver + solver * error) : Prop :=
  match r with
  | inl (_, s') => step_post s s' /\ heap_len (pendingHeap s') = 0 /\ processed s' b
  | inr (s', e) => inv s' /\ frame s s' /\ (e = errEvictionLimitExceeded \/ bucket_error s e)
  end.

Lemma covered_no_heap s c : inv s -> heap_len (pendingHeap s) = 0 -> covered s c -> processed s c.
Proof.
  intros Hi Hl [Hp | [sz Hin]]; [done |]. exfalso.
  rewrite heap_len_elems in Hl by apply (inv_heap _ Hi).
  destruct (elems (pendingHeap s)); [by apply not_elem_of_nil in Hin | unfold len in Hl; simpl in Hl; lia].
Qed.

Lemma solve_bucket_spec maxEv rng s b :
  inv s -> 0 <= pops s -> heap_len (pendingHeap s) = 0 -> 0 <= b < numBuckets s ->
  wp (solve_bucket maxEv (rng, s) b) (bucket_post s b) no_err.
Proof.
  intros Hi Hp Hh Hb. unfold solve_bucket. rewrite bsize_read by done. cbn [mbind res_bind].
  destruct (Z.eqb_spec (len (bk s b)) 0) as [Hz | Hnz].
  - assert (bk s b = []) as Hnil by (destruct (bk s b); [done | unfold len in Hz; simpl in Hz; lia]).
    rewrite upd_in_range by (rewrite (inv_pil _ Hi); lia). cbn [mbind res_bind].
    unfold setProcessed. pose proof (inv_proc _ Hi). rewrite upd_in_range by (simpl; lia).
    cbn [mbind res_bind wp bucket_post].
    change (set_processedGen _ _) with (placed s b 0 []).
    assert (bslots s 0 b = []) as Hsl by (unfold bslots; by rewrite Hnil).
    assert (inv (placed s b 0 [])) as Hi'.
    { rewrite <- Hsl. apply placed_inv; [done | done | done | by right | |]; rewrite Hsl;
        [apply NoDup_nil_2 | set_solver]. }
    split_and!; [split; [done | done | done | done |] | done |].
    + intros c Hc [Hpc | Hhc]; [left | by right]. apply placed_processed; [done | done | lia | by right].
    + apply placed_processed; [done | done | lia | by left].
  - rewrite is_processed_read by done. cbn [mbind res_bind].
    destruct (bool_decide_reflect (processed s b)) as [Hpb | Hnp].
    { split_and!; [by apply step_post_refl | done | done]. }
    apply wp_bind. eapply wp_mono; [by apply processBucketWithHeap_spec | | done].
    intros [[rng' s2] err] Hpp. pose proof (process_step _ _ _ _ Hpp) as Hst.
    destruct err as [e |].
    { cbn [wp bucket_post]. split_and!; [apply Hst | apply Hst |]. right. exists b. split; [done |].
      by apply (pp_err _ _ _ _ Hpp). }
    apply wp_bind. pose proof (st_pops _ _ Hst). unfold drain_fuel.
    eapply wp_mono; [apply drain_spec; [apply Hst | lia | lia] | | done].
    intros [[rng'' s3] [e |]]; cbn [drain_post].
    + intros (H1 & H2 & H3). cbn [wp bucket_post]. pose proof (st_frame _ _ Hst).
      split_and!; [done | by eapply frame_trans |]. right. by eapply bucket_error_frame.
    + intros [Hst3 Hor]. pose proof (step_post_trans _ _ _ Hst Hst3) as Hst'.
      destruct (Z.ltb_spec maxEv (evictions s3)).
      * cbn [wp bucket_post]. split_and!; [apply Hst' | apply Hst' | by left].
      * destruct Hor as [Hh3 |]; [| lia]. cbn [wp bucket_post]. split_and!; [done | done |].
        apply covered_no_heap; [apply Hst' | done |].
        apply (st_cov _ _ Hst3); [by rewrite (fr_nb _ _ (st_frame _ _ Hst)) |].
        left. by apply (pp_done _ _ _ _ Hpp).
Qed.

Lemma solve_loop_spec maxEv rng s order :
  inv s -> 0 <= pops s -> heap_len (pendingHeap s) = 0 ->
  Forall (fun b => 0 <= b < numBuckets s) order ->
  wp (foldB (solve_bucket maxEv) (rng, s) order)
    (fun r => match r with
      | inl (_, s') => inv s' /\ frame s s' /\ forall b, b ∈ order -> processed s' b
      | inr (s', e) => inv s' /\ frame s s' /\ (e = errEvictionLimitExceeded \/ bucket_error s e)
      end) no_err.
Proof.
  intros Hi Hp Hh Hr.
  apply (wp_foldB_prefix (fun pre '(_, s') => step_post s s' /\ heap_len (pendingHeap s') = 0 /\
    forall b, b ∈ pre -> processed s' b)).
  - split_and!; [by apply step_post_refl | done | set_solver].
  - intros pre b post [rng' s'] Hsplit (Hst & Hh' & Hproc).
    rewrite Hsplit in Hr. apply Forall_app in Hr as [Hpre [Hb _]%Forall_cons].
    pose proof (st_frame _ _ Hst) as Hfr. pose proof (st_pops _ _ Hst).
    eapply wp_mono; [apply solve_bucket_spec; [apply Hst | lia | done | by rewrite (fr_nb _ _ Hfr)] | | done].
    intros [[rng2 s2] | [s2 e]]; cbn [bucket_post].
    + intros (Hst2 & Hh2 & Hpb). split_and!; [by eapply step_post_trans | done |].
      intros c [Hc | ->%list_elem_of_singleton]%elem_of_app; [| done].
      apply covered_no_heap; [apply Hst2 | done |]. apply (st_cov _ _ Hst2).
      * rewrite (fr_nb _ _ Hfr). by apply (proj1 (Forall_forall _ _) Hpre).
      * left. by apply Hproc.
    + intros (H1 & H2 & H3). split_and!; [done | by eapply frame_trans |].
      destruct H3; [by left | right; by eapply bucket_error_frame].
  - intros [rng' s'] (Hst & _ & Hproc). split_and!; [apply Hst | apply Hst | done].
Qed.

(** ** The slots of a solved block *)
Definition solved (s : solver) : Prop :=
  inv s /\ (forall b, 0 <= b < numBuckets s -> processed s b) /\
  numKeys s = len (concat (buckets s)) /\ 0 < numKeys s <= numSlots s.

(** Every key's slot, bucket by bucket. *)
Definition all_slots (s : solver) : list Z :=
  concat (map (fun b => bslots s (pil s b) b) (range (numBuckets s))).

Lemma all_slots_NoDup s : solved s -> NoDup (all_slots s).
Proof.
  intros (Hi & Hall & _). apply NoDup_concat_map; [apply NoDup_range | |].
  - intros b Hb%elem_of_range. by destruct (inv_placed _ Hi b Hb (Hall b Hb)).
  - intros b c x Hb%elem_of_range Hc%elem_of_range Hxb Hxc.
    destruct (inv_placed _ Hi b Hb (Hall b Hb)) as [_ H1].
    destruct (inv_placed _ Hi c Hc (Hall c Hc)) as [_ H2].
    destruct (H1 x Hxb) as [_ Hw1], (H2 x Hxc) as [_ Hw2]. congruence.
Qed.

Lemma elem_of_all_slots s x : solved s -> 0 <= x < numSlots s -> x ∈ all_slots s <-> occupied s x.
Proof.
  intros (Hi & Hall & _) Hx. unfold all_slots. rewrite elem_of_concat_map. split.
  - intros (b & Hb%elem_of_range & Hxb). destruct (inv_placed _ Hi b Hb (Hall b Hb)) as [_ H1].
    by destruct (H1 x Hxb).
  - intros Ho. destruct (inv_occ _ Hi x Hx Ho) as (b & Hb & _ & _ & Hin).
    exists b. split; [by apply elem_of_range | done].
Qed.

Lemma map_bk s : inv s -> map (bk s) (range (numBuckets s)) = buckets s.
Proof.
  intros Hi. pose proof (inv_nb _ Hi). pose proof (inv_bk _ Hi) as Hl. apply list_eq. intros k.
  rewrite list_lookup_fmap. unfold len in Hl. destruct (decide (k < length (buckets s))%nat).
  - unfold range. rewrite lookup_seqZ_lt by lia. rewrite Z.add_0_l. cbn [fmap option_fmap option_map]. unfold bk. rewrite Nat2Z.id.
    destruct (lookup_lt_is_Some_2 (buckets s) k) as [x ->]; [done | done].
  - rewrite (lookup_ge_None_2 (buckets s)) by lia. unfold range. rewrite lookup_seqZ_ge by lia. done.
Qed.

Lemma length_all_slots s : solved s -> len (all_slots s) = numKeys s.
Proof.
  intros (Hi & _ & -> & _). unfold len, all_slots. rewrite <- (map_bk s Hi) at 1.
  induction (range (numBuckets s)) as [| b l IH]; [done |]. cbn [map concat].
  rewrite !length_app, !Nat2Z.inj_add, IH. unfold bslots. by rewrite slots_of_length.
Qed.

(** Occupied and free slots of a range, counted. *)
Definition occ_in (s : solver) (a n : Z) : list Z := filter (fun x => occupied s x) (seqZ a n).
Definition holes_in (s : solver) (a n : Z) : list Z := filter (fun x => ~ occupied s x) (seqZ a n).

Lemma occ_in_app s a n m : 0 <= n -> 0 <= m -> occ_in s a (n + m) = occ_in s a n ++ occ_in s (a + n) m.
Proof. intros. unfold occ_in. by rewrite seqZ_app, filter_app by done. Qed.

Lemma holes_in_app s a n m : 0 <= n -> 0 <= m -> holes_in s a (n + m) = holes_in s a n ++ holes_in s (a + n) m.
Proof. intros. unfold holes_in. by rewrite seqZ_app, filter_app by done. Qed.

Lemma occ_holes_length s a n : 0 <= n -> len (occ_in s a n) + len (holes_in s a n) = n.
Proof.
  intros. unfold occ_in, holes_in, len.
  pose proof (Permutation_length (filter_app_complement (fun x => occupied s x) (seqZ a n))) as H0.
  rewrite length_app, length_seqZ in H0. lia.
Qed.

Lemma solved_count s : solved s -> len (occ_in s 0 (numSlots s)) = numKeys s.
Proof.
  intros Hs. rewrite <- length_all_slots by done. unfold len. f_equal. apply Permutation_length.
  apply NoDup_Permutation; [apply NoDup_filter, NoDup_range | by apply all_slots_NoDup |].
  intros x. unfold occ_in. rewrite list_elem_of_filter, elem_of_range. split.
  - intros [Ho Hx]. by apply elem_of_all_slots.
  - intros Hin. assert (0 <= x < numSlots s) as Hx.
    { apply elem_of_concat_map in Hin as (b & _ & Hin). destruct Hs as [Hi _]. by eapply bslots_range. }
    split; [by apply elem_of_all_slots | done].
Qed.

(** As many holes below [numKeys] as keys above it. *)
Lemma holes_eq_overflow s :
  solved s ->
  len (holes_in s 0 (numKeys s)) = len (occ_in s (numKeys s) (numSlots s - numKeys s)).
Proof.
  intros Hs. pose proof (solved_count s Hs) as Hc. destruct Hs as (Hi & _ & _ & Hk).
  replace (numSlots s) with (numKeys s + (numSlots s - numKeys s)) in Hc at 1 by lia.
  rewrite occ_in_app, len_app in Hc by lia. pose proof (occ_holes_length s 0 (numKeys s) ltac:(lia)).
  rewrite Z.add_0_l in Hc. lia.
Qed.

(** [nextHole] returns the first hole from its cursor. *)
Lemma nextHole_spec (fuel : nat) s nk c h :
  inv s -> nk <= numSlots s -> 0 <= c <= h -> h < nk -> h - c < Z.of_nat fuel ->
  ~ occupied s h -> (forall x, c <= x < h -> occupied s x) ->
  nextHole fuel s nk c = Ok h.
Proof.
  intros Hi Hnk. revert c. induction fuel as [| fuel IH]; intros c Hc Hh Hf Hfree Hocc; [lia |].
  cbn [nextHole]. pose proof (inv_slotGen_len _ Hi). pose proof (inv_slots_pos _ Hi).
  destruct (idx_in_range (slotGen s) c) as (g & Hg & ->); [lia |]. cbn [mbind res_bind].
  destruct (decide (c = h)) as [-> |].
  - destruct (Z.eqb_spec g (generation s)) as [-> |]; [done | done].
  - assert (g = generation s) as -> by (specialize (Hocc c ltac:(lia)); unfold occupied in Hocc; congruence).
    rewrite Z.eqb_refl, u32_id by (unfold_words; lia).
    destruct (Z.leb_spec nk (c + 1)); [lia |]. apply IH; [lia | lia | lia | done |].
    intros x Hx. apply Hocc. lia.
Qed.

(** The first hole in a range that has one. *)
Lemma first_hole s a n :
  0 <= n -> holes_in s a n <> [] ->
  exists h, a <= h < a + n /\ ~ occupied s h /\ (forall x, a <= x < h -> occupied s x) /\
    holes_in s a (h - a) = [].
Proof.
  intros Hn. assert (exists k : nat, n = Z.of_nat k) as [k ->] by (exists (Z.to_nat n); lia). clear Hn.
  revert a. induction k as [| k IH]; intros a Hne; [done |].
  destruct (decide (occupied s a)) as [Ho | Hfree].
  - destruct (IH (a + 1)) as (h & Hh & Hf & Hall & Hnil).
    { intros Hnil. apply Hne. replace (Z.of_nat (S k)) with (1 + Z.of_nat k) by lia.
      rewrite holes_in_app, Hnil by lia. unfold holes_in.
      change (seqZ a 1) with [a]. rewrite filter_cons_False by tauto. done. }
    exists h. split_and!; [lia | lia | done | |].
    + intros x Hx. destruct (decide (x = a)) as [-> |]; [done | apply Hall; lia].
    + replace (h - a) with (1 + (h - (a + 1))) by lia. rewrite holes_in_app, Hnil by lia.
      unfold holes_in. change (seqZ a 1) with [a]. rewrite filter_cons_False by tauto. done.
  - exists a. split_and!; [lia | lia | done | intros; lia |]. by rewrite Z.sub_diag.
Qed.

(** ** The remap table *)
Record remap_ok (s : solver) (table : list Z) : Prop := {
  ro_len : len table = numSlots s - numKeys s;
  ro_u16 : Forall (is_u 16) table;
  ro_hole : forall x, numKeys s <= x < numSlots s -> occupied s x ->
    exists h, table !! Z.to_nat (x - numKeys s) = Some h /\ 0 <= h < numKeys s /\ ~ occupied s h;
  ro_inj : forall x y h, numKeys s <= x < numSlots s -> numKeys s <= y < numSlots s ->
    occupied s x -> occupied s y ->
    table !! Z.to_nat (x - numKeys s) = Some h -> table !! Z.to_nat (y - numKeys s) = Some h -> x = y
}.

(** The loop invariant: overflow slots below [o] are mapped, in order, to the
    holes below the cursor [c], and none of those holes is left over. *)
Record remap_inv (s : solver) (o : Z) (table : list Z) (c : Z) : Prop := {
  ri_len : len table = numSlots s - numKeys s;
  ri_u16 : Forall (is_u 16) table;
  ri_c : 0 <= c <= numKeys s;
  ri_hole : forall x, numKeys s <= x < o -> occupied s x ->
    exists h, table !! Z.to_nat (x - numKeys s) = Some h /\ 0 <= h < c /\ ~ occupied s h;
  ri_mono : forall x y h k, numKeys s <= x -> x < y < o -> occupied s x -> occupied s y ->
    table !! Z.to_nat (x - numKeys s) = Some h -> table !! Z.to_nat (y - numKeys s) = Some k -> h < k;
  ri_count : len (holes_in s 0 c) = len (occ_in s (numKeys s) (o - numKeys s))
}.

Lemma remap_skip s o table c :
  numKeys s <= o -> ~ occupied s o -> remap_inv s o table c -> remap_inv s (o + 1) table c.
Proof.
  intros Ho Hfree [H1 H2 H3 H4 H5 H6]. split; try done.
  - intros x Hx Hox. destruct (decide (x = o)) as [-> |]; [done |]. apply H4; [lia | done].
  - intros x y h k Hx Hy Hox Hoy. destruct (decide (y = o)) as [-> |]; [done |]. apply H5; [done | lia | done | done].
  - rewrite H6. replace (o + 1 - numKeys s) with (o - numKeys s + 1) by lia.
    rewrite occ_in_app by lia. unfold occ_in at 3. replace (numKeys s + (o - numKeys s)) with o by lia.
    change (seqZ o 1) with [o]. rewrite filter_cons_False by done. by rewrite app_nil_r.
Qed.

Lemma remap_take s o table c :
  solved s -> numKeys s <= o < numSlots s -> occupied s o -> remap_inv s o table c ->
  exists h, nextHole (S (Z.to_nat (numKeys s))) s (numKeys s) c = Ok h /\
    remap_inv s (o + 1) (<[Z.to_nat (o - numKeys s) := h]> table) (h + 1) /\ 0 <= h < numKeys s.
Proof.
  intros Hs Ho Hocc [H1 H2 H3 H4 H5 H6]. pose proof (holes_eq_overflow s Hs) as Heq.
  assert (Hone : occ_in s o 1 = [o]).
  { unfold occ_in. change (seqZ o 1) with [o]. by rewrite filter_cons_True. }
  assert (Hsplit : occ_in s (numKeys s) (o + 1 - numKeys s) = occ_in s (numKeys s) (o - numKeys s) ++ [o]).
  { replace (o + 1 - numKeys s) with (o - numKeys s + 1) by lia. rewrite occ_in_app by lia.
    replace (numKeys s + (o - numKeys s)) with o by lia. by rewrite Hone. }
  (* some hole is left *)
  assert (holes_in s c (numKeys s - c) <> []) as Hleft.
  { intros Hnil. replace (numKeys s) with (c + (numKeys s - c)) in Heq at 1 by lia.
    rewrite holes_in_app, Z.add_0_l, Hnil, app_nil_r, H6 in Heq by lia.
    replace (numSlots s - numKeys s) with ((o + 1 - numKeys s) + (numSlots s - o - 1)) in Heq by lia.
    rewrite occ_in_app, Hsplit, !len_app, len_single in Heq by lia.
    pose proof (len_nonneg (occ_in s (numKeys s + (o + 1 - numKeys s)) (numSlots s - o - 1))). lia. }
  destruct (first_hole s c (numKeys s - c) ltac:(lia) Hleft) as (h & Hh & Hfree & Hall & Hnil).
  destruct Hs as (Hi & _ & _ & Hk). pose proof (inv_slots_pos _ Hi).
  exists h. split; [apply nextHole_spec; try done; lia |]. split; [| lia].
  assert (Hlk : forall x, numKeys s <= x ->
    <[Z.to_nat (o - numKeys s) := h]> table !! Z.to_nat (x - numKeys s) =
    if decide (x = o) then Some h else table !! Z.to_nat (x - numKeys s)).
  { intros x Hx. rewrite insert_lookup_Z by lia. repeat case_decide; try lia; done. }
  split.
  - by rewrite len_insert.
  - apply Forall_insert; [done | unfold_words; lia].
  - lia.
  - intros x Hx Hox. rewrite Hlk by lia. case_decide.
    + exists h. split_and!; [done | lia | lia | done].
    + destruct (H4 x ltac:(lia) Hox) as (h' & ? & ? & ?). exists h'. split_and!; [done | lia | lia | done].
  - intros x y h1 h2 Hx Hy Hox Hoy. rewrite !Hlk by lia.
    repeat case_decide; try lia; intros Hx1 Hy1.
    + injection Hy1 as <-. destruct (H4 x ltac:(lia) Hox) as (h' & Hh' & ? & _).
      rewrite Hx1 in Hh'. injection Hh' as <-. lia.
    + eapply (H5 x y); [lia | lia | done | done | done | done].
  - rewrite Hsplit, len_app, len_single, <- H6.
    replace (h + 1) with (c + ((h - c) + 1)) by lia. rewrite !holes_in_app, !len_app by lia.
    rewrite !Z.add_0_l, Hnil. change (len (@nil Z)) with 0. replace (c + (h - c)) with h by lia.
    unfold holes_in at 2. change (seqZ h 1) with [h]. rewrite filter_cons_True by done.
    change (len (h :: filter (fun x => ~ occupied s x) [])) with 1. lia.
Qed.

Lemma buildRemap_spec s :
  solved s -> numKeys s < 2 ^ 16 ->
  exists table, buildRemap s = Ok (table, set_remapBuffer table s) /\ remap_ok s table.
Proof.
  intros Hs Hk16. pose proof Hs as (Hi & _ & _ & Hk). pose proof (inv_slots_pos _ Hi).
  pose proof (inv_slotGen_len _ Hi). unfold buildRemap.
  rewrite (u32_id (numKeys s)) by (unfold_words; lia).
  rewrite (u32_id (numSlots s - numKeys s)) by (unfold_words; lia).
  match goal with |- context [foldM ?f ?z ?l] => assert (Hloop : wp (foldM f z l)
    (fun '(table, c) => remap_inv s (numSlots s) table c) no_err) end.
  { eapply wp_mono; [apply (wp_foldM_prefix (fun pre '(table, c) =>
      remap_inv s (numKeys s + len pre) table c)) | | done].
    - rewrite len_nil, Z.add_0_r. split.
      + apply len_make. lia.
      + apply Forall_replicate. unfold_words; lia.
      + lia.
      + intros; lia.
      + intros; lia.
      + by rewrite Z.sub_diag.
    - intros pre o post [table c] Hsplit Hinv.
      assert (o = numKeys s + len pre /\ o < numSlots s) as [-> Ho].
      { assert (seqZ (numKeys s) (numSlots s - numKeys s) !! length pre = Some o) as Hl.
        { rewrite Hsplit, lookup_app_r, Nat.sub_diag by lia. done. }
        apply lookup_seqZ in Hl. unfold len. lia. }
      pose proof (len_nonneg pre). set (o := numKeys s + len pre) in *.
      destruct (idx_in_range (slotGen s) o) as (g & Hg & ->); [lia |]. cbn [mbind res_bind].
      rewrite len_app, len_single, Z.add_assoc. fold o.
      destruct (Z.eqb_spec g (generation s)) as [-> |]; cbn [negb].
      + destruct (remap_take s o table c Hs ltac:(lia) Hg Hinv) as (h & -> & Hinv' & Hh). cbn [mbind res_bind].
        pose proof (ri_len _ _ _ _ Hinv) as Hl. pose proof (ri_c _ _ _ _ Hinv) as Hc'.
        pose proof (ri_c _ _ _ _ Hinv') as Hc''.
        rewrite u16_id by (unfold_words; lia). rewrite upd_in_range by lia. cbn [mbind res_bind wp].
        rewrite u32_id by (unfold_words; lia). done.
      + cbn [wp]. apply remap_skip; [lia | unfold occupied; congruence | done].
    - intros [table c]. unfold len. rewrite length_seqZ, Z2Nat.id by lia.
      by replace (numKeys s + (numSlots s - numKeys s)) with (numSlots s) by lia. }
  destruct (wp_total _ _ Hloop) as ([table c] & -> & Hinv). cbn [mbind res_bind fst].
  exists table. split; [done |]. destruct Hinv as [H1 H2 H3 H4 H5 _]. split; [done | done | |].
  - intros x Hx Hox. destruct (H4 x Hx Hox) as (h & ? & ? & ?). exists h. split_and!; [done | lia | lia | done].
  - intros x y h Hx Hy Hox Hoy Hxh Hyh. destruct (Z.lt_total x y) as [Hlt | [| Hlt]]; [| done |].
    + pose proof (H5 x y h h ltac:(lia) ltac:(lia) Hox Hoy Hxh Hyh). lia.
    + pose proof (H5 y x h h ltac:(lia) ltac:(lia) Hoy Hox Hyh Hxh). lia.
Qed.

(** ** The solved block *)

(** The index of a key within the block: its slot, or what the table maps it to. *)
Definition final_slot (s : solver) (table : list Z) (x : Z) : Z :=
  if x <? numKeys s then x else default 0 (table !! Z.to_nat (x - numKeys s)).

Lemma final_slot_range s table x :
  solved s -> remap_ok s table -> occupied s x -> 0 <= x < numSlots s ->
  0 <= final_slot s table x < numKeys s.
Proof.
  intros Hs Hr Ho Hx. unfold final_slot. destruct (Z.ltb_spec x (numKeys s)); [lia |].
  by destruct (ro_hole _ _ Hr x ltac:(lia) Ho) as (h & -> & Hh & _).
Qed.

Lemma final_slot_inj s table x y :
  solved s -> remap_ok s table -> 0 <= x < numSlots s -> 0 <= y < numSlots s ->
  occupied s x -> occupied s y -> final_slot s table x = final_slot s table y -> x = y.
Proof.
  intros Hs Hr Hx Hy Hox Hoy. unfold final_slot.
  destruct (Z.ltb_spec x (numKeys s)), (Z.ltb_spec y (numKeys s)); [done | ..].
  - destruct (ro_hole _ _ Hr y ltac:(lia) Hoy) as (h & -> & Hh & Hf). simpl. intros ->. done.
  - destruct (ro_hole _ _ Hr x ltac:(lia) Hox) as (h & -> & Hh & Hf). simpl. intros <-. done.
  - destruct (ro_hole _ _ Hr y ltac:(lia) Hoy) as (h & Hyh & _).
    destruct (ro_hole _ _ Hr x ltac:(lia) Hox) as (k & Hxk & _).
    rewrite Hxk, Hyh. simpl. intros ->. by eapply (ro_inj _ _ Hr x y h); try lia.
Qed.

(** The final slots of the keys, bucket by bucket, are exactly [0, numKeys). *)
Lemma final_slots_permutation s table :
  solved s -> remap_ok s table ->
  map (final_slot s table) (all_slots s) ≡ₚ range (numKeys s).
Proof.
  intros Hs Hr.
  assert (Hin : forall x, x ∈ all_slots s -> 0 <= x < numSlots s /\ occupied s x).
  { intros x Hx. assert (0 <= x < numSlots s) as Hxr.
    { apply elem_of_concat_map in Hx as (b & _ & Hx). destruct Hs as [Hi _]. by eapply bslots_range. }
    split; [done | by apply elem_of_all_slots]. }
  assert (NoDup (map (final_slot s table) (all_slots s))) as Hnd.
  { pose proof (all_slots_NoDup s Hs) as Hnd. revert Hin. induction Hnd as [| x l Hx Hnd IH]; intros Hin; [apply NoDup_nil_2 |].
    cbn [map]. apply NoDup_cons. split; [| apply IH; set_solver].
    intros Hm. apply list_elem_of_In, in_map_iff in Hm as (y & Hy & Hyl). apply list_elem_of_In in Hyl.
    destruct (Hin x ltac:(set_solver)), (Hin y ltac:(set_solver)).
    assert (x = y) as -> by (by eapply final_slot_inj). done. }
  apply submseteq_length_Permutation.
  - apply NoDup_submseteq; [done |]. intros z Hz.
    apply list_elem_of_In, in_map_iff in Hz as (x & <- & Hx). apply list_elem_of_In in Hx.
    apply elem_of_range. destruct (Hin x Hx). by apply final_slot_range.
  - pose proof (length_all_slots s Hs) as Hl. rewrite length_range, length_map. unfold len in Hl. lia.
Qed.
