(* ===== verification/PtrReset.v ===== *)
(** * [reset]: a solver ready for the next block

    The solver's buffers are reused from block to block; [reset] makes every
    slot free and every bucket unprocessed by moving to the next generation, and
    clears the arrays when the 8-bit generation would run out. *)
From stdpp Require Import sorting.
From S2P Require Import Prelude Words Encoding Floats PtrPilot PtrHeap PtrSort PtrSearch PtrSolver.
From S2P Require Import PtrPin PtrInv PtrSolve.
#[local] Open Scope Z_scope.

(** ** The parts of [reset] *)

Lemma initPilotHPs_eq dst seed :
  len dst = numPilotValues ->
  initPilotHPs dst seed = Ok (map (fun p => pilotHash p seed) (range numPilotValues)).
Proof.
  intros Hl. unfold initPilotHPs. rewrite Hl.
  assert (wp (foldM (fun dst i => upd dst i (pilotHash (u8 i) seed)) dst (range numPilotValues))
    (fun d => d = map (fun p => pilotHash p seed) (range numPilotValues)) no_err) as H.
  { eapply wp_mono.
    - apply (wp_foldM_prefix (fun pre d => d = map (fun p => pilotHash p seed) pre ++ drop (length pre) dst)); [done |].
      intros pre i post d Hr ->. apply range_prefix in Hr as [-> Hi].
      destruct (lookup_lt_is_Some_2 dst (length pre)) as [x Hx]; [unfold len, numPilotValues in *; lia |].
      rewrite (drop_S _ _ _ Hx).
      rewrite (upd_app_at _ _ _ _ (len pre)) by (unfold len; by rewrite length_map).
      cbn [wp]. rewrite map_app, <- app_assoc, length_app, Nat.add_1_r. cbn [map app].
      rewrite u8_id by (unfold numPilotValues in Hi; unfold_words; lia). done.
    - intros d ->. rewrite length_range, drop_ge, app_nil_r; [done |].
      unfold len, numPilotValues in *. lia.
    - done. }
  by destruct (wp_total _ _ H) as (d & -> & ->).
Qed.

Lemma len_hps seed : len (map (fun p => pilotHash p seed) (range numPilotValues)) = numPilotValues.
Proof. unfold len. by rewrite length_map, length_range. Qed.

Lemma clearPrefix_eq l n :
  0 <= n <= len l -> clearPrefix l n = Ok (make 0 n ++ drop (Z.to_nat n) l).
Proof.
  intros Hn. unfold clearPrefix. rewrite slice_in_range by lia. cbn [mbind res_bind].
  rewrite store_range by (rewrite ?len_make; lia). change (Z.to_nat 0) with 0%nat.
  rewrite take_0, app_nil_l, Nat.add_0_l. unfold make at 2. by rewrite length_replicate.
Qed.

(** Prefix sums of the bucket sizes, modulo 2^16. *)
Definition total (bs : list (list bucketEntry)) : Z := len (concat bs).

Lemma total_snoc bs b : total (bs ++ [b]) = total bs + len b.
Proof. unfold total. by rewrite concat_app, len_app, concat_cons, app_nil_r. Qed.

Lemma fillStarts_spec starts bs n :
  len bs = n -> n + 1 <= len starts ->
  exists starts' m, fillStarts starts bs n = Ok (starts', m) /\ len starts' = len starts /\ 0 <= m /\
    (forall b, b ∈ bs -> len b <= m) /\
    forall j : nat, (j <= length bs)%nat -> starts' !! j = Some (u16 (total (take j bs))).
Proof.
  intros Hn Hl. pose proof (len_nonneg bs). unfold fillStarts.
  match goal with |- context [foldM ?f ?z ?l] => assert (Hloop : wp (foldM f z l)
    (fun '(st, tot, m, i) => len st = len starts /\ tot = total bs /\ 0 <= m /\ i = n /\
       (forall b, b ∈ bs -> len b <= m) /\
       forall j : nat, (j < length bs)%nat -> st !! j = Some (u16 (total (take j bs)))) no_err) end.
  { eapply wp_mono; [apply (wp_foldM_prefix (fun pre '(st, tot, m, i) =>
      len st = len starts /\ tot = total pre /\ 0 <= m /\ i = len pre /\
      (forall b, b ∈ pre -> len b <= m) /\
      forall j : nat, (j < length pre)%nat -> st !! j = Some (u16 (total (take j bs))))) | | done].
    - split_and!; [done | done | lia | done | set_solver | simpl; lia].
    - intros pre b post [[[st tot] m] i] Hsplit (Hst & -> & Hm & -> & Hmax & Hj).
      assert (len pre < len bs) as Hpre.
      { rewrite Hsplit, len_app, len_cons. pose proof (len_nonneg post). lia. }
      pose proof (len_nonneg pre). rewrite upd_in_range by lia. cbn [mbind res_bind wp].
      rewrite len_insert. split_and!; [done | by rewrite total_snoc | | by rewrite len_app, len_single | |].
      + destruct (Z.ltb_spec m (len b)); lia.
      + intros c [Hc | ->%list_elem_of_singleton]%elem_of_app; destruct (Z.ltb_spec m (len b));
          try (specialize (Hmax c Hc)); lia.
      + intros j. rewrite length_app. simpl. intros Hjl. unfold len. rewrite Nat2Z.id.
        destruct (decide (j = length pre)) as [-> |].
        * rewrite list_lookup_insert_eq by (unfold len in *; lia).
          by rewrite Hsplit, take_app_length.
        * rewrite list_lookup_insert_ne by done. apply Hj. lia.
    - intros [[[st tot] m] i] (H1 & H2 & H3 & H4 & H5 & H6). split_and!; try done. congruence. }
  destruct (wp_total _ _ Hloop) as ([[[st tot] m] i] & -> & Hst & -> & Hm & -> & Hmax & Hj).
  cbn [mbind res_bind]. rewrite upd_in_range by lia. cbn [mbind res_bind].
  eexists _, m. split_and!; [done | by rewrite len_insert | done | done |].
  intros j Hjl. unfold len in Hn. destruct (decide (j = Z.to_nat n)) as [-> |].
  - rewrite list_lookup_insert_eq by (unfold len in *; lia). by rewrite take_ge by lia.
  - rewrite list_lookup_insert_ne by done. apply Hj. lia.
Qed.

(** The sizes the counting sort sees. *)
Lemma starts_sz starts bs (i : nat) b :
  (forall j : nat, (j <= length bs)%nat -> starts !! j = Some (u16 (total (take j bs)))) ->
  bs !! i = Some b -> sz starts (Z.of_nat i) = u16 (len b).
Proof.
  intros Hj Hb. pose proof (lookup_lt_Some _ _ _ Hb). unfold sz.
  replace (Z.to_nat (Z.of_nat i + 1)) with (S i) by lia. rewrite Nat2Z.id, !Hj by lia. unfold default, id.
  rewrite (take_S_r _ _ _ Hb), total_snoc. unfold u16. rewrite <- Zminus_mod. f_equal. lia.
Qed.

(** ** Solvers between blocks *)
Record buf_ok (nb : Z) (s : solver) : Prop := {
  bo_gen : 0 < generation s < 254;
  bo_max : maxNumBuckets s = nb;
  bo_owner : maxNumSlots s <= len (slotOwner s);
  bo_slotGen : maxNumSlots s <= len (slotGen s);
  bo_sgle : Forall (fun x => 0 <= x <= generation s) (slotGen s);
  bo_proc : nb <= len (processedGen s);
  bo_pgle : forall b x, 0 <= b < nb -> processedGen s !! Z.to_nat b = Some x -> 0 <= x <= generation s;
  bo_bits : pinnedWords nb <= len (pinnedBits s);
  bo_order : nb <= len (bucketOrder s);
  bo_starts : nb + 1 <= len (bucketStarts s);
  bo_buf : len (slotsBuffer s) = len (foldedBuffer s);
  bo_sort : len (sortCounts s) = len (sortPositions s);
  bo_p2g : is_u 32 (phase2Gen s);
  bo_p2le : Forall (fun x => 0 <= x <= phase2Gen s) (phase2SlotGen s);
  bo_pinned : len (pinned s) = pinnedSize;
  bo_hps : len (pilotHPs s) = numPilotValues
}.

(** A freshly allocated solver. *)
Lemma newSolver_ok nb maxKeys : 0 < nb < 2 ^ 15 -> buf_ok nb (newSolver nb maxKeys).
Proof.
  intros Hnb. pose proof (computeNumSlots_is maxKeys) as Hs. unfold newSolver.
  assert (0 <= pinnedWords nb) as Hw.
  { unfold pinnedWords, bitsPerWord. apply Z.div_pos; [apply u32_is | lia]. }
  split; simpl; rewrite ?len_make by (unfold_words; lia); try done; try lia.
  - by rewrite u32_id by (unfold_words; lia).
  - apply Forall_replicate. lia.
  - intros b x Hb Hx. apply lookup_replicate in Hx as [-> _]. lia.
  - rewrite u32_id by (unfold_words; lia). rewrite len_make; lia.
Qed.

(** The state after solving is again between blocks. *)
Lemma inv_buf_ok s :
  inv (set_pendingHeap newBucketHeap s) -> maxNumBuckets s = numBuckets s ->
  numBuckets s <= len (bucketOrder s) -> numBuckets s + 1 <= len (bucketStarts s) ->
  len (sortCounts s) = len (sortPositions s) -> buf_ok (numBuckets s) s.
Proof.
  intros Hi Hmax Ho Hst Hso. destruct (inv_caps _ Hi) as (? & ? & ? & ? & ? & Hw & ? & Hpg).
  simpl in *. split; try done.
  - apply (inv_gen_pos _ Hi).
  - apply (inv_slotGen_le _ Hi).
  - lia.
  - by rewrite <- Hmax.
  - apply (inv_p2g _ Hi).
  - apply (inv_p2le _ Hi).
  - apply (pin_len _ (inv_pin _ Hi)).
  - pose proof (wf_pilotHPs _ _ (inv_wf _ Hi 0 (conj (Z.le_refl 0) (proj1 (inv_nb _ Hi))))) as Hhp.
    cbn [pilotHPs globalSeed set_pendingHeap] in Hhp. by rewrite Hhp, len_hps.
Qed.

(** ** [reset] *)
Record reset_post (nb : Z) (bs : list (list bucketEntry)) (seed : Z) (dst : list Z) (s' : solver) : Prop := {
  rs_nb : numBuckets s' = nb;
  rs_ns : numSlots s' = computeNumSlots (total bs);
  rs_nk : numKeys s' = total bs;
  rs_seed : globalSeed s' = seed;
  rs_bk : buckets s' = bs;
  rs_pilots : pilots s' = take (Z.to_nat nb) dst;
  rs_ev : evictions s' = 0;
  rs_order : take (Z.to_nat nb) (bucketOrder s') ≡ₚ range nb;
  rs_buf : buf_ok nb s';
  rs_fresh : computeNumSlots (total bs) < 2 ^ 16 -> inv (set_pendingHeap newBucketHeap s')
}.

Lemma order_spec starts bs order counts positions m :
  0 < len bs < 2 ^ 15 -> len bs <= len order -> len bs + 1 <= len starts ->
  (forall j : nat, (j <= length bs)%nat -> starts !! j = Some (u16 (total (take j bs)))) ->
  (forall b, b ∈ bs -> len b <= m) -> m + 1 <= len counts -> len counts = len positions ->
  exists ord counts' positions',
    countingSortBucketsInto (take (Z.to_nat (len bs + 1)) starts) (take (Z.to_nat (len bs)) order)
      counts positions = Ok (ord, counts', positions') /\
    ord ≡ₚ range (len bs) /\ len counts' = len counts /\ len positions' = len positions.
Proof.
  intros Hnb Ho Hs Hj Hm Hc Hcp. set (st := take _ starts).
  assert (len st = len bs + 1) as Hst by (unfold st, len in *; rewrite length_take; lia).
  assert (Hj' : forall j : nat, (j <= length bs)%nat -> st !! j = Some (u16 (total (take j bs)))).
  { intros j Hjl. unfold st. rewrite lookup_take_lt by (unfold len; lia). by apply Hj. }
  destruct (countingSort_spec st (len bs) Hst ltac:(lia) (take (Z.to_nat (len bs)) order) counts positions)
    as (r & c & p & k & He & Hlc & Hlp & Hk & Hall & ->).
  - lia.
  - unfold len in *. rewrite length_take. lia.
  - intros i Hi. destruct (lookup_lt_is_Some_2 bs (Z.to_nat i)) as [b Hb]; [unfold len in *; lia |].
    replace i with (Z.of_nat (Z.to_nat i)) by lia. rewrite (starts_sz st bs (Z.to_nat i) b Hj' Hb).
    pose proof (Hm b ltac:(by eapply list_elem_of_lookup_2)). pose proof (len_nonneg b).
    pose proof (Z.mod_le (len b) (2 ^ 16)). unfold u16. lia.
  - done.
  - exists (by_size (sz st) (len bs) (desc k)), c, p. split_and!; [| | done | done].
    + rewrite He. rewrite drop_ge, app_nil_r; [done |]. rewrite length_take. lia.
    + by apply by_size_permutation.
Qed.

(** No slot is occupied and no bucket processed in a new generation. *)
Record fresh (s : solver) : Prop := {
  fs_gen : 0 < generation s < 254;
  fs_slotGen : Forall (fun x => 0 <= x < generation s) (slotGen s);
  fs_processed : forall b x, 0 <= b < numBuckets s ->
    processedGen s !! Z.to_nat b = Some x -> 0 <= x < generation s;
  fs_pinned : pinned s = make (-1) pinnedSize;
  fs_pinnedIdx : pinnedIdx s = 0;
  fs_bits : take (Z.to_nat (pinnedWords (numBuckets s))) (pinnedBits s) = make 0 (pinnedWords (numBuckets s))
}.

Lemma pinnedWords_cap nb : 0 <= nb < 2 ^ 31 -> nb <= 64 * pinnedWords nb.
Proof. intros. unfold pinnedWords, bitsPerWord. rewrite !u32_id by zlia. zlia. Qed.

Lemma fresh_pin_ok s :
  fresh s -> 0 < numBuckets s < 2 ^ 15 -> pinnedWords (numBuckets s) <= len (pinnedBits s) -> pin_ok s.
Proof.
  intros [_ _ _ Hp Hpi Hb] Hnb Hl. pose proof (pinnedWords_cap (numBuckets s) ltac:(lia)) as Hcap.
  assert (forall x, x ∈ pinned s -> x = -1) as Hall.
  { intros x. rewrite Hp. intros [-> _]%elem_of_replicate. done. }
  split.
  - by rewrite Hp.
  - rewrite Hpi. unfold pinnedSize. lia.
  - lia.
  - apply Forall_forall. intros x ->%Hall. lia.
  - intros b Hbr. unfold pin_bit.
    assert (pinnedBits s !! Z.to_nat (b / 64) = Some 0) as ->.
    { rewrite <- (lookup_take_lt _ (Z.to_nat (pinnedWords (numBuckets s)))) by zlia.
      rewrite Hb. apply lookup_replicate. split; [done | zlia]. }
    cbn [default]. unfold id. rewrite Z.bits_0. symmetry. apply bool_decide_eq_false.
    intros ?%Hall. lia.
  - intros j k x Hx Hj _. apply list_elem_of_lookup_2, Hall in Hj. lia.
Qed.

Lemma bk_len s b m : (forall c, c ∈ buckets s -> len c <= m) -> 0 <= m -> len (bk s b) <= m.
Proof.
  intros Hm H0. unfold bk. destruct (buckets s !! Z.to_nat b) as [l |] eqn:Hl; [| done].
  apply Hm. by eapply list_elem_of_lookup_2.
Qed.

Lemma fresh_inv s :
  fresh s -> caps s -> pinnedWords (numBuckets s) <= len (pinnedBits s) ->
  0 < numBuckets s < 2 ^ 15 -> len (buckets s) = numBuckets s -> 0 < numSlots s < 2 ^ 16 ->
  pilotHPs s = map (fun p => pilotHash p (globalSeed s)) (range numPilotValues) ->
  (forall b, b ∈ buckets s -> len b <= len (slotsBuffer s)) ->
  len (pilots s) = numBuckets s -> Forall is_byte (pilots s) ->
  numSlots s <= len (phase2SlotGen s) -> is_u 32 (phase2Gen s) ->
  Forall (fun x => 0 <= x <= phase2Gen s) (phase2SlotGen s) ->
  inv (set_pendingHeap newBucketHeap s).
Proof.
  intros Hf Hc Hpw Hnb Hbl Hns Hhp Hbuf Hpl Hpb Hp2 Hp2g Hp2l.
  pose proof Hf as [Hg Hsg Hpg Hpin _ _]. pose proof Hc as (Hc1 & Hc2 & Hc3 & Hc4 & Hc5 & Hc6 & Hc7 & Hc8).
  assert (forall x, ~ occupied s x) as Hno.
  { intros x Ho. pose proof (Forall_lookup_1 _ _ _ _ Hsg Ho). simpl in *. lia. }
  assert (forall b, 0 <= b < numBuckets s -> ~ processed s b) as Hnp.
  { intros b Hb Hp. pose proof (Hpg b _ Hb Hp). lia. }
  split; try done.
  - intros b Hb. split; try done; cbn -[range]; try lia.
    + eapply Forall_impl; [exact Hsg |]. simpl. lia.
    + apply (bk_len s); [done | apply len_nonneg].
    + rewrite <- Hc7. apply (bk_len s); [done | apply len_nonneg].
  - cbn. lia.
  - cbn. lia.
  - pose proof (pinnedWords_cap (numBuckets s) ltac:(lia)).
    by destruct (fresh_pin_ok s Hf Hnb Hpw).
  - intros b. cbn -[make]. rewrite Hpin. intros [-> _]%elem_of_replicate. lia.
  - intros size b Hb. by apply not_elem_of_nil in Hb.
  - intros b Hb Hp. by destruct (Hnp b Hb).
  - intros x _ Ho. by destruct (Hno x).
Qed.

Lemma next_generation g sg pg nb :
  0 < g < 254 -> Forall (fun x => 0 <= x <= g) sg -> 0 <= nb <= len pg ->
  (forall b x, 0 <= b < nb -> pg !! Z.to_nat b = Some x -> 0 <= x <= g) ->
  let wrap := 254 <=? u8 (g + 1) in
  let gen2 := if wrap then 1 else u8 (g + 1) in
  let sg2 := if wrap then make 0 (len sg) else sg in
  exists pg2, (if wrap then clearPrefix pg nb else Ok pg) = Ok pg2 /\ len pg2 = len pg /\
    len sg2 = len sg /\ 0 < gen2 < 254 /\ Forall (fun x => 0 <= x < gen2) sg2 /\
    forall b x, 0 <= b < nb -> pg2 !! Z.to_nat b = Some x -> 0 <= x < gen2.
Proof.
  intros Hg Hsg Hnb Hpg. cbv zeta. rewrite u8_id by (unfold_words; lia).
  destruct (Z.leb_spec 254 (g + 1)).
  - rewrite clearPrefix_eq by done. eexists. split; [done |]. split_and!.
    + rewrite len_app, len_make by lia. unfold len in *. rewrite length_drop. lia.
    + apply len_make, len_nonneg.
    + lia.
    + lia.
    + apply Forall_replicate. lia.
    + intros b x Hb. unfold make. rewrite lookup_app_l by (rewrite length_replicate; lia).
      intros [-> _]%lookup_replicate. lia.
  - exists pg. split_and!; try done; try lia.
    + eapply Forall_impl; [exact Hsg |]. simpl. lia.
    + intros b x Hb Hx. specialize (Hpg b x Hb Hx). lia.
Qed.

(** Growing a buffer to a larger length keeps what is required of its entries. *)
Lemma grown_ok (P : Z -> Prop) (l : list Z) n (c : bool) :
  P 0 -> 0 <= n -> Forall P l -> Forall P (if c then make 0 n else l).
Proof. intros. destruct c; [by apply Forall_replicate | done]. Qed.

Lemma reset_spec nb s bs seed dst :
  buf_ok nb s -> 0 < nb < 2 ^ 15 -> len bs = nb -> 0 < total bs < 2 ^ 32 ->
  nb <= len dst -> Forall is_byte dst ->
  exists s', reset s bs (total bs) seed (Some dst) = Ok s' /\ reset_post nb bs seed dst s'.
Proof.
  intros [] Hnb Hbs Ht Hd Hdb. unfold reset.
  assert (u32 (len bs) = nb) as -> by (rewrite Hbs; apply u32_id; unfold_words; lia).
  rewrite initPilotHPs_eq by done. cbn [mbind res_bind]. rewrite bo_max0.
  destruct (Z.ltb_spec nb nb) as [|_]; [lia |]. cbn [andb].
  rewrite slice_in_range by lia. cbn [mbind res_bind].
  destruct (fillStarts_spec (bucketStarts s) bs nb Hbs bo_starts0) as (st & m & -> & Hst & Hm & Hmax & Hj).
  cbn [mbind res_bind]. rewrite !slice_in_range by lia. cbn [mbind res_bind].
  rewrite !Z.sub_0_r. change (Z.to_nat 0) with 0%nat. rewrite !drop_0.
  set (ns := computeNumSlots (total bs)).
  pose proof (computeNumSlots_is (total bs)) as Hns. pose proof (computeNumSlots_ge (total bs) ltac:(unfold_words; lia)) as Hnsg.
  fold ns in Hns, Hnsg.
  set (counts1 := if len (sortCounts s) <? m + 1 then make 0 (m + 1) else sortCounts s).
  set (positions1 := if len (sortCounts s) <? m + 1 then make 0 (m + 1) else sortPositions s).
  assert (m + 1 <= len counts1 /\ len counts1 = len positions1) as [Hc Hcp].
  { unfold counts1, positions1. destruct (Z.ltb_spec (len (sortCounts s)) (m + 1)); rewrite ?len_make by lia; lia. }
  rewrite <- Hbs.
  destruct (order_spec st bs (bucketOrder s) counts1 positions1 m) as (ord & c2 & p2 & He & Hord & Hlc & Hlp);
    [lia | lia | lia | done | done | done | done |].
  rewrite He. cbn [mbind res_bind]. rewrite Hbs in Hord |- *.
  assert (len ord = nb) as Hol.
  { unfold len. rewrite (Permutation_length Hord), length_range. lia. }
  rewrite store_range by lia. cbn [mbind res_bind].
  set (sg1 := if maxNumSlots s <? ns then make 0 ns else slotGen s).
  assert (Forall (fun x => 0 <= x <= generation s) sg1) as Hsg1.
  { apply (grown_ok _ (slotGen s)); [lia | unfold_words; lia | done]. }
  set (ms := if maxNumSlots s <? ns then ns else maxNumSlots s).
  assert (ns <= ms /\ ms <= len sg1 /\ ms <= len (if maxNumSlots s <? ns then make 0 ns else slotOwner s))
    as (Hms & Hms1 & Hms2).
  { unfold ms, sg1. destruct (Z.ltb_spec (maxNumSlots s) ns); rewrite ?len_make by (unfold_words; lia); lia. }
  destruct (next_generation (generation s) sg1 (processedGen s) nb)
    as (pg2 & Hpg2 & Hpl & Hsl & Hg2 & Hsg2 & Hpg2l); [done | done | lia | done |].
  cbv zeta in *. rewrite Hpg2. cbn [mbind res_bind].
  assert (0 <= pinnedWords nb) as Hpw0 by (unfold pinnedWords, bitsPerWord; zlia).
  rewrite clearPrefix_eq by lia. cbn [mbind res_bind].
  set (bits2 := make 0 (pinnedWords nb) ++ _).
  assert (take (Z.to_nat (pinnedWords nb)) bits2 = make 0 (pinnedWords nb) /\ pinnedWords nb <= len bits2) as [Hb2 Hbl2].
  { unfold bits2. split; [| rewrite len_app, len_make by done; pose proof (len_nonneg (drop (Z.to_nat (pinnedWords nb)) (pinnedBits s))); lia].
    unfold make. rewrite take_app_length'; [done |]. by rewrite length_replicate. }
  set (order2 := take _ _ ++ _).
  assert (order2 = ord ++ drop (Z.to_nat nb) (bucketOrder s)) as Ho2.
  { unfold order2. change (Z.to_nat 0) with 0%nat. rewrite take_0, app_nil_l, Nat.add_0_l.
    f_equal. f_equal. unfold len in Hol. lia. }
  clearbody sg1 ms bits2 order2 counts1 positions1.
  set (p2g := if len (phase2SlotGen s) <? ns then make 0 ns else phase2SlotGen s).
  assert (Forall (fun x => 0 <= x <= phase2Gen s) p2g /\ ns <= len p2g) as [Hp2a Hp2b].
  { unfold p2g. split; [apply (grown_ok _ (phase2SlotGen s)); [unfold_words; lia | unfold_words; lia | done] |].
    destruct (Z.ltb_spec (len (phase2SlotGen s)) ns); rewrite ?len_make by (unfold_words; lia); lia. }
  set (sb := if len (slotsBuffer s) <? m then make 0 m else slotsBuffer s).
  set (fb := if len (slotsBuffer s) <? m then make 0 m else foldedBuffer s).
  assert (m <= len sb /\ len sb = len fb) as [Hsb Hfb].
  { unfold sb, fb. destruct (Z.ltb_spec (len (slotsBuffer s)) m); rewrite ?len_make by lia; lia. }
  clearbody p2g sb fb.
  set (gen2 := if 254 <=? u8 (generation s + 1) then 1 else u8 (generation s + 1)) in *.
  set (sg2 := if 254 <=? u8 (generation s + 1) then make 0 (len sg1) else sg1) in *.
  set (so := if maxNumSlots s <? ns then make 0 ns else slotOwner s) in *.
  clearbody gen2 sg2 so. assert (Hweak : Forall (fun x => 0 <= x <= gen2) sg2).
  { eapply Forall_impl; [exact Hsg2 |]. simpl. lia. }
  assert (Hweakp : forall b x, 0 <= b < nb -> pg2 !! Z.to_nat b = Some x -> 0 <= x <= gen2).
  { intros b x Hb Hx. specialize (Hpg2l b x Hb Hx). lia. }
  eexists. split; [done |]. split; try done.
  - cbn [bucketOrder]. rewrite Ho2, take_app_length'; [done |]. unfold len in Hol. lia.
  - split; cbn -[range]; try done; try lia.
    + subst order2. rewrite len_app. pose proof (len_nonneg (drop (Z.to_nat nb) (bucketOrder s))). lia.
    + by rewrite bo_pinned0.
  - intros H16. apply fresh_inv; cbn -[range make]; try done; try lia.
    + split; try done. cbn. by rewrite bo_pinned0.
    + split_and!; cbn -[make]; try done; lia.
    + intros b Hb. specialize (Hmax b Hb). lia.
    + unfold len in *. rewrite length_take. lia.
    + by apply Forall_take.
Qed.

(** ** [solve] *)

(** The slot [key_index] gives a key from what the block's metadata records. *)
Definition key_index (seed nslots nkeys : Z) (pilots table : list Z) (b : Z) (e : bucketEntry) : Z :=
  let x := slot_of seed nslots (default 0 (pilots !! Z.to_nat b)) e in
  if x <? nkeys then x else default 0 (table !! Z.to_nat (x - nkeys)).

(** The indices of all keys of a block, bucket by bucket. *)
Definition block_indices (seed nslots nkeys : Z) (pilots table : list Z)
    (bs : list (list bucketEntry)) : list Z :=
  concat (map (fun b => map (key_index seed nslots nkeys pilots table b) (default [] (bs !! Z.to_nat b)))
            (range (len bs))).

Lemma block_indices_final s table :
  inv s ->
  block_indices (globalSeed s) (numSlots s) (numKeys s) (pilots s) table (buckets s) =
  map (final_slot s table) (all_slots s).
Proof.
  intros Hi. unfold block_indices, all_slots. rewrite (inv_bk _ Hi), concat_map, map_map.
  f_equal. apply map_ext. intros b. unfold bslots, slots_of. rewrite map_map. done.
Qed.

(** What [solve] returns. *)
Definition solve_result (bs : list (list bucketEntry)) (seed : Z) (r : list Z * list Z + error) : Prop :=
  let nk := total bs in
  let ns := computeNumSlots nk in
  match r with
  | inl (pilots, table) =>
      len pilots = len bs /\ Forall is_byte pilots /\ len table = ns - nk /\ Forall (is_u 16) table /\
      ns < 2 ^ 16 /\
      (forall b e, 0 <= b < len bs -> e ∈ default [] (bs !! Z.to_nat b) ->
         slot_of seed ns (default 0 (pilots !! Z.to_nat b)) e < ns) /\
      block_indices seed ns nk pilots table bs ≡ₚ range nk
  | inr e =>
      (e = ErrBlockOverflow /\ 65535 < ns) \/
      (ns <= 65535 /\ (e = errEvictionLimitExceeded \/
        exists b, b ∈ bs /\
          ((e = ErrDuplicateKey /\ hasDuplicateSlotInput b = true) \/
           (e = ErrIndistinguishableHashes /\ hasDuplicateSlotInput b = false))))
  end.

Lemma bucket_error_elem s e :
  inv s -> bucket_error s e ->
  exists b, b ∈ buckets s /\
    ((e = ErrDuplicateKey /\ hasDuplicateSlotInput b = true) \/
     (e = ErrIndistinguishableHashes /\ hasDuplicateSlotInput b = false)).
Proof.
  intros Hi (b & Hb & He). exists (bk s b). split; [| done]. unfold bk.
  rewrite <- (inv_bk _ Hi) in Hb. destruct (idx_in_range (buckets s) b Hb) as (l & Hl & _).
  rewrite Hl. by eapply list_elem_of_lookup_2.
Qed.

Lemma buf_ok_after nb s s' :
  buf_ok nb s -> numBuckets s = nb -> inv s' -> frame s s' -> buf_ok nb s'.
Proof.
  intros Hb Hnb Hi Hf. rewrite <- Hnb, <- (fr_nb _ _ Hf). apply inv_buf_ok.
  - apply inv_set_heap; [done | apply is_heap_nil |]. intros size b Hin. by apply not_elem_of_nil in Hin.
  - rewrite (fr_maxb _ _ Hf), (fr_nb _ _ Hf), Hnb. by apply bo_max.
  - rewrite (fr_order _ _ Hf), (fr_nb _ _ Hf), Hnb. apply (bo_order _ _ Hb).
  - rewrite (fr_starts _ _ Hf), (fr_nb _ _ Hf), Hnb. apply (bo_starts _ _ Hb).
  - rewrite (fr_counts _ _ Hf), (fr_positions _ _ Hf). apply (bo_sort _ _ Hb).
Qed.

Lemma solved_result s table :
  solved s -> remap_ok s table -> numSlots s = computeNumSlots (total (buckets s)) ->
  solve_result (buckets s) (globalSeed s) (inl (pilots s, table)).
Proof.
  intros Hs Hr Hns. pose proof Hs as (Hi & _ & Hnk & _). unfold solve_result, total. cbv zeta.
  fold (total (buckets s)). change (total (buckets s)) with (len (concat (buckets s))) in *.
  rewrite <- Hnk in *. rewrite <- Hns. pose proof (inv_slots_pos _ Hi). split_and!.
  - by rewrite (inv_pil _ Hi), (inv_bk _ Hi).
  - apply (inv_byte _ Hi).
  - apply (ro_len _ _ Hr).
  - apply (ro_u16 _ _ Hr).
  - lia.
  - intros b e _ _. apply pilotSlotFolded_lt; unfold_words; lia.
  - rewrite block_indices_final by done. by apply final_slots_permutation.
Qed.

Record solve_post (nb : Z) (bs : list (list bucketEntry)) (seed : Z) (s' : solver)
    (r : list Z * list Z + error) : Prop := {
  so_buf : buf_ok nb s';
  so_ns : numSlots s' = computeNumSlots (total bs);
  so_len : len (pilots s') = nb;
  so_byte : Forall is_byte (pilots s');
  so_ret : forall p t, r = inl (p, t) -> p = pilots s';
  so_result : solve_result bs seed r
}.

Lemma solve_spec nb bs seed dst s attempt :
  reset_post nb bs seed dst s -> 0 < nb < 2 ^ 15 -> len bs = nb -> 0 < total bs < 2 ^ 32 ->
  nb <= len dst -> Forall is_byte dst ->
  wp (solve s attempt) (fun '(s', r) => solve_post nb bs seed s' r) no_err.
Proof.
  intros [Hnb Hns Hnk Hseed Hbk Hpil Hev Hord Hbuf Hfresh] Hnb0 Hbs Ht Hd Hdb.
  pose proof (computeNumSlots_ge (total bs) ltac:(unfold_words; lia)) as Hge.
  unfold solve. rewrite Hnk, Hns. destruct (Z.eqb_spec (total bs) 0); [lia |].
  destruct (Z.ltb_spec 65535 (computeNumSlots (total bs))) as [Hbig | Hsmall].
  { cbn [wp]. split; try done.
    - rewrite Hpil. unfold len in *. rewrite length_take. lia.
    - rewrite Hpil. by apply Forall_take.
    - by left. }
  specialize (Hfresh ltac:(lia)).
  set (s1 := set_evictedOwners [] _).
  assert (inv s1) as Hi1 by (unfold s1; inv_same Hfresh).
  assert (frame s s1) as Hf1 by done.
  assert (evictions s1 = 0 /\ heap_len (pendingHeap s1) = 0) as [Hev1 Hh1] by done. clearbody s1.
  rewrite (fr_order _ _ Hf1), (fr_nb _ _ Hf1), Hnb.
  rewrite slice_in_range by (pose proof (bo_order _ _ Hbuf); lia). cbn [mbind res_bind].
  rewrite Z.sub_0_r. change (Z.to_nat 0) with 0%nat. rewrite drop_0.
  set (order := take _ _) in *. apply wp_bind.
  eapply wp_mono; [apply solve_loop_spec; [done | unfold pops; lia | done |] | | done].
  { apply Forall_forall. intros b Hb. rewrite Hord in Hb. apply elem_of_range in Hb.
    by rewrite (fr_nb _ _ Hf1), Hnb. }
  intros [[rng s2] | [s2 e]].
  - intros (Hi2 & Hf2 & Hall). pose proof (frame_trans _ _ _ Hf1 Hf2) as Hf.
    assert (solved s2) as Hs2.
    { split; [done |]. rewrite (fr_nk _ _ Hf), (fr_ns _ _ Hf), (fr_bk _ _ Hf), (fr_nb _ _ Hf), Hnb, Hnk, Hns, Hbk.
      split_and!; [| done | lia | lia]. intros b Hb. apply Hall. rewrite Hord. by apply elem_of_range. }
    destruct (buildRemap_spec s2 Hs2) as (table & -> & Hr); [rewrite (fr_nk _ _ Hf); lia |].
    cbn [mbind res_bind wp]. cbn [pilots set_remapBuffer]. split; cbn [numSlots pilots set_remapBuffer].
    + eapply buf_ok_after; [exact Hbuf | exact Hnb | inv_same Hi2 | by eapply frame_trans].
    + by rewrite (fr_ns _ _ Hf).
    + by rewrite (inv_pil _ Hi2), (fr_nb _ _ Hf).
    + apply (inv_byte _ Hi2).
    + by intros p t [= <- _].
    + rewrite <- Hbk, <- (fr_bk _ _ Hf), <- Hseed, <- (fr_seed _ _ Hf).
      apply solved_result; [done | done |]. by rewrite (fr_ns _ _ Hf), (fr_bk _ _ Hf), Hbk.
  - intros (Hi2 & Hf2 & He). pose proof (frame_trans _ _ _ Hf1 Hf2) as Hf. cbn [wp]. split.
    + by eapply buf_ok_after.
    + by rewrite (fr_ns _ _ Hf).
    + by rewrite (inv_pil _ Hi2), (fr_nb _ _ Hf).
    + apply (inv_byte _ Hi2).
    + done.
    + right. split; [done |]. destruct He as [-> | He]; [by left | right].
      rewrite <- Hbk, <- (fr_bk _ _ Hf1). by apply bucket_error_elem.
Qed.

(** C16: the solver is correct on every block. After [reset], [solve] terminates
    without a panic and leaves buffers that can be reset again. When it returns
    pilots and a remap table, the slots the pilots give, sent through the table,
    number the keys of the block 0 to n-1, each once (a minimal perfect hash of
    the block). Otherwise the block has more than 65535 slots, the eviction limit
    was hit, or some bucket could not be placed and is reported as holding a
    duplicate (equal [k0^suffix]) or indistinguishable hashes. *)
Theorem solve_correct nb s bs seed dst attempt :
  buf_ok nb s -> 0 < nb < 2 ^ 15 -> len bs = nb -> 0 < total bs < 2 ^ 32 ->
  nb <= len dst -> Forall is_byte dst ->
  wp (s1 ← reset s bs (total bs) seed (Some dst); solve s1 attempt)
    (fun '(s2, r) => buf_ok nb s2 /\ solve_result bs seed r) no_err.
Proof.
  intros Hs Hnb Hbs Ht Hd Hdb.
  destruct (reset_spec nb s bs seed dst) as (s1 & -> & H1); try done. cbn [mbind res_bind].
  eapply wp_mono; [by eapply solve_spec | | done]. intros [s2 r] Hp. split; apply Hp.
Qed.

Definition example_buckets : list (list bucketEntry) :=
  [[mk_bentry 5 77 0 0; mk_bentry 9 1234567 0 0]; []; [mk_bentry 2 3 0 0]].

Lemma solve_correct_witness :
  wp (s1 ← reset (newSolver 3 10) example_buckets (total example_buckets) 42 (Some (make 7 4)); solve s1 0)
    (fun '(s2, r) => buf_ok 3 s2 /\ solve_result example_buckets 42 r) no_err.
Proof.
  apply (solve_correct 3); [apply newSolver_ok; lia | lia | done | | by vm_compute |].
  - change (0 < 3 < 2 ^ 32). lia.
  - repeat constructor; unfold_words; lia.
Defined.

Example solve_example :
  (s1 ← reset (newSolver 3 10) example_buckets (total example_buckets) 42 (Some (make 7 4));
   '(_, r) ← solve s1 0; Ok r) = Ok (inl ([0; 0; 0], [1])).
Proof. vm_compute. reflexivity. Qed.

(** ** Equal slot inputs *)
Lemma duplicate_not_NoDup seed nslots nkeys pilots table b bucket :
  hasDuplicateSlotInput bucket = true ->
  ~ NoDup (map (key_index seed nslots nkeys pilots table b) bucket).
Proof.
  induction bucket as [| e bucket IH]; [done |]. cbn [hasDuplicateSlotInput map].
  destruct (existsb _ bucket) eqn:He; intros Hd Hnd; apply NoDup_cons in Hnd as [Hn Hnd]; [| by apply IH].
  apply Hn. apply existsb_exists in He as (e' & Hin & He%Z.eqb_eq).
  apply list_elem_of_In, in_map_iff. exists e'. split; [| done].
  unfold key_index, slot_of, fold_entry, foldSlotInput. by rewrite He.
Qed.

Lemma NoDup_concat_part {A B} (f : A -> list B) l a : NoDup (concat (map f l)) -> a ∈ l -> NoDup (f a).
Proof.
  induction l as [| x l IH]; [by intros _ ?%not_elem_of_nil |]. cbn [map concat].
  rewrite NoDup_app. intros (H1 & _ & H2) [-> | Hin]%elem_of_cons; auto.
Qed.

Lemma solved_no_duplicates bs seed pilots table b :
  solve_result bs seed (inl (pilots, table)) -> b ∈ bs -> hasDuplicateSlotInput b = false.
Proof.
  intros (_ & _ & _ & _ & _ & _ & Hperm) Hb. destruct (hasDuplicateSlotInput b) eqn:Hd; [| done].
  exfalso. apply list_elem_of_lookup in Hb as [i Hi].
  assert (NoDup (block_indices seed (computeNumSlots (total bs)) (total bs) pilots table bs)) as Hnd
    by (rewrite Hperm; apply NoDup_range).
  unfold block_indices in Hnd. pose proof (lookup_lt_Some _ _ _ Hi).
  apply (NoDup_concat_part _ _ (Z.of_nat i)) in Hnd; [| apply elem_of_range; unfold len; lia].
  cbv beta in Hnd. rewrite Nat2Z.id, Hi in Hnd. by eapply duplicate_not_NoDup.
Qed.

(** C25: a bucket with two keys of equal [k0^suffix] (in particular a repeated
    key) is never placed: whatever the attempt, [solve] returns an error. *)
Theorem duplicates_rejected nb s bs seed dst attempt b :
  buf_ok nb s -> 0 < nb < 2 ^ 15 -> len bs = nb -> 0 < total bs < 2 ^ 32 ->
  nb <= len dst -> Forall is_byte dst -> b ∈ bs -> hasDuplicateSlotInput b = true ->
  exists s2 e, (s1 ← reset s bs (total bs) seed (Some dst); solve s1 attempt) = Ok (s2, inr e).
Proof.
  intros Hs Hnb Hbs Ht Hd Hdb Hb Hdup.
  destruct (reset_spec nb s bs seed dst) as (s1 & -> & H1); try done. cbn [mbind res_bind].
  destruct (wp_total _ _ (solve_spec nb bs seed dst s1 attempt H1 Hnb Hbs Ht Hd Hdb)) as ([s2 [[p t] | e]] & -> & Hp).
  - exfalso. pose proof (solved_no_duplicates _ _ _ _ b (so_result _ _ _ _ _ Hp) Hb). congruence.
  - by exists s2, e.
Qed.

Definition duplicate_buckets : list (list bucketEntry) := [[mk_bentry 5 9 0 0; mk_bentry 9 5 1 2]; []].

Lemma duplicates_rejected_witness :
  exists s2 e, (s1 ← reset (newSolver 2 10) duplicate_buckets (total duplicate_buckets) 42 (Some (make 7 2));
    solve s1 0) = Ok (s2, inr e).
Proof.
  apply (duplicates_rejected 2 _ _ _ _ _ [mk_bentry 5 9 0 0; mk_bentry 9 5 1 2]);
    [apply newSolver_ok; lia | lia | done | | by vm_compute | | | by vm_compute].
  - change (0 < 2 < 2 ^ 32). lia.
  - repeat constructor; unfold_words; lia.
  - apply list_elem_of_here.
Defined.

(** Two different keys can be reported as duplicates: the test compares only
    [k0^suffix]. *)
Example distinct_keys_reported_duplicate :
  (s1 ← reset (newSolver 2 10) duplicate_buckets (total duplicate_buckets) 42 (Some (make 7 2));
   '(_, r) ← solve s1 0; Ok r) = Ok (inr ErrDuplicateKey).
Proof. vm_compute. reflexivity. Qed.
