(* ===== verification/PtrBuilder.v ===== *)
(** * [internal/ptrhash/builder.go] and [decoder.go]: a PTRHash block

    The block builder collects keys in buckets, solves the block (retrying with
    other evictions when the limit is hit) and writes pilots, remap table and
    payload entries; the decoder recomputes a key's slot from the bytes. *)
From S2P Require Import Prelude Words Bits Encoding Key Entries Floats PtrPilot PtrHeap PtrSort.
From S2P Require Import PtrSearch PtrSolver.
#[local] Open Scope Z_scope.

Definition blockOverflowSigmas : Z := 7.
Definition metadataEstimateMargin : Z := 100.

(** [int(float64(bucketsPerBlock) * lambda * solverMaxKeysMultiplier)], a
    constant expression: 10000 * 3.16 * 1.2. *)
Definition solverMaxKeys : Z := 37920.

(** ** The builder *)
Record Builder := mk_Builder {
  b_numBlocks : Z;        (* uint32 *)
  b_globalSeed : Z;       (* uint64 *)
  payloadSize : Z;
  fingerprintSize : Z;
  b_buckets : list (list bucketEntry);
  maxKeysPerBlock : Z;
  keysInBlock : Z;
  b_solver : solver;
  b_numSlots : Z;
  b_pilots : list Z;      (* []uint8, a window of the metadata buffer *)
  b_remap : list Z        (* []uint16 *)
}.

Definition set_solution (s : solver) (numSlots : Z) (pilots remap : list Z) (b : Builder) : Builder :=
  mk_Builder (b_numBlocks b) (b_globalSeed b) (payloadSize b) (fingerprintSize b) (b_buckets b)
    (maxKeysPerBlock b) (keysInBlock b) s numSlots pilots remap.

Definition NewBuilder (totalKeys globalSeed payloadSize fingerprintSize : Z) : Builder :=
  let nb := numBlocks totalKeys in
  let expectedAvg := fdiv (float64 totalKeys) (float64 nb) in
  let sigma := fsqrt expectedAvg in
  let maxKeys := trunc_int (fadd expectedAvg (fmul (float64 blockOverflowSigmas) sigma)) in
  mk_Builder nb globalSeed payloadSize fingerprintSize (replicate (Z.to_nat bucketsPerBlock) [])
    maxKeys 0 (newSolver bucketsPerBlock solverMaxKeys) 0 [] [].

Definition AddKey (b : Builder) (k0 k1 payload fingerprint : Z) : res Builder :=
  let localBucketIdx := cubicEpsBucket k1 bucketsPerBlock in
  bucket ← idx (b_buckets b) localBucketIdx;
  bs ← upd (b_buckets b) localBucketIdx (bucket ++ [mk_bentry k1 k0 payload fingerprint]);
  Ok (mk_Builder (b_numBlocks b) (b_globalSeed b) (payloadSize b) (fingerprintSize b) bs
        (maxKeysPerBlock b) (keysInBlock b + 1) (b_solver b) (b_numSlots b) (b_pilots b) (b_remap b)).

Definition KeysAdded (b : Builder) : Z := keysInBlock b.

Definition Reset (b : Builder) : Builder :=
  mk_Builder (b_numBlocks b) (b_globalSeed b) (payloadSize b) (fingerprintSize b)
    (map (fun _ => []) (b_buckets b)) (maxKeysPerBlock b) 0 (b_solver b) 0 [] [].

Definition NumBlocks (b : Builder) : Z := b_numBlocks b.
Definition GlobalConfigSize (b : Builder) : Z := 0.
Definition EncodeGlobalConfigInto (b : Builder) (dst : list Z) : Z := 0.

Definition MaxIndexMetadataSize (b : Builder) : Z :=
  let maxKeys := solverMaxKeys in
  let maxOverflow := ceil_int (fmul (float64 maxKeys) (fconst 1 99)) + 1 in
  bucketsPerBlock + remapTableHeaderSize + maxOverflow * remapTableEntrySize + metadataEstimateMargin.

Definition estimateMetadataSize (numKeys : Z) : Z :=
  if numKeys =? 0 then bucketsPerBlock + remapTableHeaderSize
  else
    let pilotBytes := bucketsPerBlock in
    let numSlots := computeNumSlots numKeys in
    let numOverflowSlots := numSlots - numKeys + 1 in
    let remapBytes := remapTableHeaderSize + numOverflowSlots * remapTableEntrySize in
    pilotBytes + remapBytes.

Definition MaxMetadataSizeForCurrentBlock (b : Builder) : Z := estimateMetadataSize (keysInBlock b).

Definition buildEmptyMetadataInto (dst : list Z) : res (list Z * Z) :=
  pre ← slice dst 0 bucketsPerBlock;
  dst ← store dst 0 (make 0 bucketsPerBlock);
  dst ← upd dst bucketsPerBlock 0;
  dst ← upd dst (bucketsPerBlock + 1) 0;
  Ok (dst, bucketsPerBlock + remapTableHeaderSize).

(** [solve]: the pilots the solver writes are the head of [metadataDst], also on
    a failed attempt. *)
Definition solve_block (b : Builder) (metadataDst : list Z) : res (Builder * list Z * option error) :=
  r ← foldB (fun '(b, dst, _) attempt =>
        s ← reset (b_solver b) (b_buckets b) (keysInBlock b) (b_globalSeed b) (Some dst);
        '(s, r) ← solve s attempt;
        dst ← store dst 0 (pilots s);
        match r with
        | inl (p, t) => Ok (inr (set_solution s (numSlots s) p t b, dst, None))
        | inr e =>
            let b := set_solution s (b_numSlots b) [] [] b in
            if decide (e = errEvictionLimitExceeded) then Ok (inl (b, dst, Some e))
            else Ok (inr (b, dst, Some e))
        end) (b, metadataDst, None) (range maxGlobalRetries);
  Ok (match r with inl st => st | inr st => st end).

Definition encodeMetadataInto (b : Builder) (dst : list Z) : res (list Z * Z) :=
  let offset := len (b_pilots b) in
  sub ← slice dst offset (len dst);
  '(sub, remapLen) ← encodeRemapTableInto (b_remap b) sub;
  dst ← store dst offset sub;
  Ok (dst, offset + remapLen).

Definition entrySize (b : Builder) : Z := fingerprintSize b + payloadSize b.

Definition encodePayloadsWithWriter (b : Builder) (dst : list Z) (entrySize : Z) (generic : bool)
    : res (list Z) :=
  d0 ← idx dst 0;
  let fpShift := fingerprintSize b * 8 in
  let numKeys := u32 (keysInBlock b) in
  let numSlots := u32 (b_numSlots b) in
  foldM (fun dst bucketIdx =>
      bucket ← idx (b_buckets b) bucketIdx;
      pilot ← idx (b_pilots b) bucketIdx;
      let hp := pilotHash pilot (b_globalSeed b) in
      foldM (fun dst entry =>
          let hFolded := foldSlotInput (k0 entry) (suffix entry) in
          let slot := pilotSlotFolded hFolded hp numSlots in
          slot ← (if numKeys <=? slot then v ← idx (b_remap b) (u32 (slot - numKeys)); Ok (u32 v)
                  else Ok slot);
          writeEntryAt generic dst slot entrySize (fingerprint entry) (payload entry) fpShift)
        dst bucket)
    dst (range (len (b_buckets b))).

Definition encodePayloadsInto (b : Builder) (dst : list Z) : res (list Z * Z) :=
  let es := entrySize b in
  if (es =? 0) || (keysInBlock b =? 0) then Ok (dst, 0)
  else
    let requiredLen := keysInBlock b * es in
    if len dst <? requiredLen then Panic
    else
      dst ← (if (es =? 1) || (es =? 4) || (es =? 5) || (es =? 8)
             then encodePayloadsWithWriter b dst es false
             else encodePayloadsWithWriter b dst es true);
      Ok (dst, keysInBlock b * es).

(** The buffers after the call, and the lengths or the error it returns. *)
Definition BuildSeparatedInto (b : Builder) (metadataDst payloadsDst : list Z)
    : res (Builder * list Z * list Z * (Z * Z * Z + error)) :=
  if keysInBlock b =? 0 then
    '(metadataDst, metaLen) ← buildEmptyMetadataInto metadataDst;
    Ok (b, metadataDst, payloadsDst, inl (metaLen, 0, 0))
  else if maxKeysPerBlock b <? keysInBlock b then
    Ok (b, metadataDst, payloadsDst, inr ErrBlockOverflow)
  else
    '(b, metadataDst, err) ← solve_block b metadataDst;
    match err with
    | Some e => Ok (b, metadataDst, payloadsDst, inr e)
    | None =>
        '(metadataDst, metadataLen) ← encodeMetadataInto b metadataDst;
        '(payloadsDst, payloadsLen) ← encodePayloadsInto b payloadsDst;
        Ok (b, metadataDst, payloadsDst, inl (metadataLen, payloadsLen, keysInBlock b))
    end.

(** ** The decoder *)
Record Decoder := mk_Decoder { d_pilotHPs : list Z }.

Definition NewDecoder (globalConfig : list Z) (globalSeed : Z) : res Decoder :=
  if negb (len globalConfig =? 0) then Err ErrCorruptedIndex
  else hps ← initPilotHPs (make 0 numPilotValues) globalSeed; Ok (mk_Decoder hps).

Definition QuerySlot (d : Decoder) (k0 k1 : Z) (metadata : list Z) (keysInBlock : Z) : res Z :=
  if keysInBlock =? 0 then Err ErrNotFound
  else
    let numBuckets := bucketsPerBlock in
    let numSlots := computeNumSlots keysInBlock in
    if len metadata <? numBuckets then Err ErrCorruptedIndex
    else
      let localBucket := cubicEpsBucket k1 bucketsPerBlock in
      pilot ← idx metadata localBucket;
      hp ← idx (d_pilotHPs d) pilot;
      let hFolded := foldSlotInput k0 k1 in
      let slot := pilotSlotFolded hFolded hp (u32 numSlots) in
      if keysInBlock <=? slot then
        remapData ← slice metadata numBuckets (len metadata);
        let requiredRemap := remapTableHeaderSize + (numSlots - keysInBlock) * remapTableEntrySize in
        if len remapData <? requiredRemap then Err ErrCorruptedIndex
        else lookupRemap remapData slot (u32 keysInBlock)
      else Ok slot.

Arguments estimateMetadataSize : simpl never.
Arguments NewBuilder : simpl never.
Arguments AddKey : simpl never.
Arguments QuerySlot : simpl never.
