(* ===== verification/PtrBlock.v ===== *)
(** * A PTRHash block is a minimal perfect hash of its keys

    What the block builder writes, the decoder reads back as a bijection from the
    keys added to the slots 0 to n-1, with every key's entry at its slot. *)
From stdpp Require Import sorting.
From S2P Require Import Prelude Words Bits Encoding Key Entries Floats PtrPilot PtrHeap PtrSort.
From S2P Require Import PtrSearch PtrSolver PtrInv PtrSolve PtrReset PtrBuilder.
#[local] Open Scope Z_scope.

Lemma bucketsPerBlock_eq : bucketsPerBlock = 10000.
Proof. reflexivity. Qed.
Lemma estimate_0 : estimateMetadataSize 0 = bucketsPerBlock + remapTableHeaderSize.
Proof. reflexivity. Qed.
Lemma estimate_2 : estimateMetadataSize 2 = 10006.
Proof. vm_compute. reflexivity. Qed.
Lemma estimate_pos n :
  n <> 0 -> estimateMetadataSize n = bucketsPerBlock + (2 + (computeNumSlots n - n + 1) * 2).
Proof. intros Hn. unfold estimateMetadataSize. by destruct (Z.eqb_spec n 0). Qed.
#[local] Opaque bucketsPerBlock computeNumSlots estimateMetadataSize.

(** ** Keys grouped by bucket *)
Definition bucket_of (e : bucketEntry) : Z := cubicEpsBucket (suffix e) bucketsPerBlock.

Definition grouped (ks : list bucketEntry) : list (list bucketEntry) :=
  map (fun i => filter (fun e => bucket_of e = i) ks) (range bucketsPerBlock).

Definition key_ok (fps : Z) (e : bucketEntry) : Prop :=
  is_u 64 (k0 e) /\ is_u 64 (suffix e) /\ is_u (8 * fps) (fingerprint e).

Lemma bucket_of_lt e : is_u 64 (suffix e) -> 0 <= bucket_of e < bucketsPerBlock.
Proof. intros. apply cubicEpsBucket_lt; [done | rewrite bucketsPerBlock_eq; unfold_words; lia | rewrite bucketsPerBlock_eq; lia]. Qed.

Lemma len_grouped ks : len (grouped ks) = bucketsPerBlock.
Proof. unfold grouped, len. by rewrite length_map, length_range, Z2Nat.id. Qed.

Lemma grouped_lookup ks i :
  0 <= i < bucketsPerBlock -> grouped ks !! Z.to_nat i = Some (filter (fun e => bucket_of e = i) ks).
Proof.
  intros Hi. unfold grouped. rewrite list_lookup_fmap. unfold range.
  rewrite lookup_seqZ_lt by lia. cbn [fmap option_fmap option_map]. by replace (0 + Z.of_nat (Z.to_nat i)) with i by lia.
Qed.

Lemma grouped_permutation ks : Forall (fun e => is_u 64 (suffix e)) ks -> concat (grouped ks) ≡ₚ ks.
Proof.
  intros H. apply (by_key_permutation bucket_of); [apply NoDup_range |].
  intros e He. apply elem_of_range, bucket_of_lt. by apply (proj1 (Forall_forall _ _) H).
Qed.

Lemma total_grouped ks : Forall (fun e => is_u 64 (suffix e)) ks -> total (grouped ks) = len ks.
Proof. intros H. unfold total, len. by rewrite (Permutation_length (grouped_permutation ks H)). Qed.

(** ** The builder between calls: the keys added so far, grouped by bucket *)
Record builder_ok (fps : Z) (ks : list bucketEntry) (b : Builder) : Prop := {
  bb_buckets : b_buckets b = grouped ks;
  bb_keys : keysInBlock b = len ks;
  bb_ok : Forall (key_ok fps) ks;
  bb_fps : fingerprintSize b = fps;
  bb_solver : buf_ok bucketsPerBlock (b_solver b)
}.

Lemma grouped_nil : grouped [] = replicate (Z.to_nat bucketsPerBlock) [].
Proof.
  unfold grouped. rewrite <- (length_range bucketsPerBlock). induction (range bucketsPerBlock); [done |].
  cbn [map length replicate]. by f_equal.
Qed.

Lemma NewBuilder_ok totalKeys seed ps fps : builder_ok fps [] (NewBuilder totalKeys seed ps fps).
Proof.
  split; [by rewrite grouped_nil | done | constructor | done |].
  apply newSolver_ok. rewrite bucketsPerBlock_eq. lia.
Qed.

Lemma Reset_ok fps ks b : builder_ok fps ks b -> builder_ok fps [] (Reset b).
Proof.
  intros []. split; [| done | constructor | done | done]. cbn [b_buckets Reset]. rewrite bb_buckets0.
  unfold grouped. by rewrite map_map.
Qed.

Lemma grouped_snoc ks e i bucket :
  i = bucket_of e -> 0 <= i < bucketsPerBlock -> grouped ks !! Z.to_nat i = Some bucket ->
  <[Z.to_nat i := bucket ++ [e]]> (grouped ks) = grouped (ks ++ [e]).
Proof.
  intros Hie Hi Hb. pose proof (len_grouped ks) as Hl1. pose proof (len_grouped (ks ++ [e])) as Hl2.
  unfold len in Hl1, Hl2. rewrite grouped_lookup in Hb by done. injection Hb as <-.
  apply list_eq. intros k. destruct (decide (k < length (grouped ks))%nat) as [Hk |].
  - replace k with (Z.to_nat (Z.of_nat k)) at 2 by lia. rewrite grouped_lookup by lia.
    rewrite filter_app. destruct (decide (k = Z.to_nat i)) as [-> |].
    + rewrite list_lookup_insert_eq by done. rewrite Z2Nat.id by lia.
      f_equal. f_equal. by rewrite filter_cons_True.
    + rewrite list_lookup_insert_ne by done.
      replace k with (Z.to_nat (Z.of_nat k)) at 1 by lia. rewrite grouped_lookup by lia.
      rewrite filter_cons_False by (rewrite <- Hie; lia). by rewrite app_nil_r.
  - rewrite !lookup_ge_None_2; [done | lia | rewrite length_insert; lia].
Qed.

(** One key more. *)
Lemma AddKey_step fps ks b e :
  builder_ok fps ks b -> key_ok fps e ->
  exists b', AddKey b (k0 e) (suffix e) (payload e) (fingerprint e) = Ok b' /\
    builder_ok fps (ks ++ [e]) b' /\ KeysAdded b' = KeysAdded b + 1 /\
    maxKeysPerBlock b' = maxKeysPerBlock b /\ b_globalSeed b' = b_globalSeed b /\
    payloadSize b' = payloadSize b.
Proof.
  intros [Hb Hk Hok Hf Hs] He. pose proof (bucket_of_lt e (proj1 (proj2 He))) as Hi.
  unfold AddKey. change (cubicEpsBucket (suffix e) bucketsPerBlock) with (bucket_of e).
  pose proof (len_grouped ks) as Hl. rewrite <- Hl, <- Hb in Hi.
  destruct (idx_in_range (b_buckets b) (bucket_of e) Hi) as (bucket & Hl2 & ->). cbn [mbind res_bind].
  rewrite upd_in_range by done. cbn [mbind res_bind]. eexists. split; [done |].
  split; [| split_and!; reflexivity].
  split; cbn [b_buckets keysInBlock fingerprintSize b_solver]; [| | | exact Hf | exact Hs].
  - rewrite Hb in Hl2 |- *. replace (mk_bentry _ _ _ _) with e by (by destruct e).
    apply grouped_snoc; [reflexivity | by rewrite Hb, Hl in Hi | exact Hl2].
  - rewrite len_app, len_single. lia.
  - apply Forall_app. split; [exact Hok | by apply Forall_singleton].
Qed.

(** C26: adding keys to a block. [AddKey] never panics: the bucket index is in
    range for every 64-bit suffix; the key is appended to its bucket and counted,
    and the rest of the builder is unchanged. *)
Theorem AddKey_correct fps ks b e :
  builder_ok fps ks b -> key_ok fps e ->
  exists b', AddKey b (k0 e) (suffix e) (payload e) (fingerprint e) = Ok b' /\
    builder_ok fps (ks ++ [e]) b' /\ KeysAdded b' = KeysAdded b + 1 /\
    maxKeysPerBlock b' = maxKeysPerBlock b /\ b_globalSeed b' = b_globalSeed b /\
    payloadSize b' = payloadSize b.
Proof. apply AddKey_step. Qed.

Lemma AddKey_correct_witness :
  exists b', AddKey (NewBuilder 1000 1 4 1) 7 5 1 2 = Ok b' /\ builder_ok 1 [mk_bentry 5 7 1 2] b'.
Proof.
  destruct (AddKey_correct 1 [] (NewBuilder 1000 1 4 1) (mk_bentry 5 7 1 2) (NewBuilder_ok _ _ _ _)
    ltac:(split_and!; unfold_words; cbn; lia)) as (b' & H1 & H2 & _).
  exists b'. exact (conj H1 H2).
Defined.

Definition add_all (b : Builder) (ks : list bucketEntry) : res Builder :=
  foldM (fun b e => AddKey b (k0 e) (suffix e) (payload e) (fingerprint e)) b ks.

(** ** The decoder on the bytes of a block *)
Lemma NewDecoder_ok seed :
  NewDecoder [] seed = Ok (mk_Decoder (map (fun p => pilotHash p seed) (range numPilotValues))).
Proof. unfold NewDecoder. cbn [len length]. by rewrite initPilotHPs_eq. Qed.

Definition decoder_for (seed : Z) (d : Decoder) : Prop := NewDecoder [] seed = Ok d.

Lemma decoder_hp seed d p :
  decoder_for seed d -> is_byte p -> idx (d_pilotHPs d) p = Ok (pilotHash p seed).
Proof.
  unfold decoder_for. rewrite NewDecoder_ok. intros Hd Hp.
  assert (d = mk_Decoder (map (fun p => pilotHash p seed) (range numPilotValues))) as -> by congruence.
  cbn [d_pilotHPs]. clear Hd. replace p with (Z.of_nat (Z.to_nat p)) at 1 by (unfold_words; lia). apply idx_nat.
  rewrite list_lookup_fmap. unfold range. rewrite lookup_seqZ_lt by (unfold numPilotValues; unfold_words; lia).
  cbn [fmap option_fmap option_map]. do 2 f_equal. unfold_words; lia.
Qed.

(** The metadata of a solved block. *)
Record meta_ok (n : Z) (pilots table : list Z) : Prop := {
  mo_n : 0 < n;
  mo_ns : computeNumSlots n < 2 ^ 16;
  mo_pilots : len pilots = bucketsPerBlock;
  mo_bytes : Forall is_byte pilots;
  mo_table : len table = computeNumSlots n - n;
  mo_u16 : Forall (is_u 16) table
}.

Lemma QuerySlot_eq seed d e n pilots table tail :
  decoder_for seed d -> meta_ok n pilots table -> is_u 32 n -> is_u 64 (suffix e) ->
  QuerySlot d (k0 e) (suffix e) (pilots ++ remap_bytes table ++ tail) n =
  Ok (key_index seed (computeNumSlots n) n pilots table (bucket_of e) e).
Proof.
  intros Hd [Hn Hns Hp Hb Ht Hu] Hn32 Hs. unfold QuerySlot.
  destruct (Z.eqb_spec n 0); [lia |]. pose proof (len_nonneg tail). pose proof (len_remap_bytes table) as Hr.
  pose proof (len_nonneg table).
  rewrite !len_app, Hp, Hr. destruct (Z.ltb_spec (bucketsPerBlock + (2 + 2 * len table + len tail)) bucketsPerBlock); [lia |].
  pose proof (bucket_of_lt e Hs) as Hbk. fold (bucket_of e). rewrite idx_app_l by lia.
  destruct (idx_in_range pilots (bucket_of e)) as (p & Hlp & ->); [lia |]. cbn [mbind res_bind].
  rewrite (decoder_hp seed d p Hd) by (by eapply (Forall_lookup_1 _ _ _ _ Hb)). cbn [mbind res_bind].
  pose proof (computeNumSlots_is n) as His. rewrite u32_id by done.
  pose proof (computeNumSlots_ge n Hn32) as Hge.
  unfold key_index. rewrite Hlp. cbn [default]. unfold id.
  change (pilotSlotFolded (foldSlotInput (k0 e) (suffix e)) (pilotHash p seed) (computeNumSlots n))
    with (slot_of seed (computeNumSlots n) p e).
  assert (0 <= slot_of seed (computeNumSlots n) p e < computeNumSlots n) as Hx by (apply pilotSlotFolded_lt; [done | lia]).
  set (x := slot_of _ _ _ _) in *.
  destruct (Z.leb_spec n x), (Z.ltb_spec x n); try lia; [| done].
  rewrite slice_in_range by (rewrite ?len_app; lia). cbn [mbind res_bind].
  rewrite take_ge by (rewrite length_drop, !length_app; unfold len in *; lia).
  rewrite drop_app_length' by (unfold len in Hp; lia). rewrite len_app, Hr.
  unfold remapTableHeaderSize, remapTableEntrySize.
  destruct (Z.ltb_spec (2 + 2 * len table + len tail) (2 + (computeNumSlots n - n) * 2)); [lia |].
  rewrite (u32_id n) by exact Hn32. clearbody x.
  rewrite lookupRemap_bytes by (exact Hu || exact Hn32 || lia).
  destruct (Z.ltb_spec x n); [lia |].
  destruct (idx_in_range table (x - n)) as (v & -> & ->); [lia | done].
Qed.

Lemma ptr_QuerySlot_total seed d k0 k1 metadata n :
  decoder_for seed d -> Forall is_byte metadata -> is_u 64 k1 -> 0 <= n ->
  wp (QuerySlot d k0 k1 metadata n)
    (fun slot => 0 <= slot /\ (slot < n \/ slot < 2 ^ 16))
    (fun e => (e = ErrNotFound /\ n = 0) \/ (e = ErrCorruptedIndex /\
       (len metadata < bucketsPerBlock \/ len metadata < bucketsPerBlock + remapTableHeaderSize + (computeNumSlots n - n) * remapTableEntrySize))).
Proof.
  intros Hd Hm Hk Hn. unfold QuerySlot. destruct (Z.eqb_spec n 0) as [-> |]; [cbn; tauto |].
  pose proof (computeNumSlots_is n) as His. unfold remapTableHeaderSize, remapTableEntrySize.
  destruct (Z.ltb_spec (len metadata) bucketsPerBlock); [cbn; right; split; [done | lia] |].
  pose proof (cubicEpsBucket_lt k1 bucketsPerBlock Hk ltac:(rewrite bucketsPerBlock_eq; unfold_words; lia)
    ltac:(rewrite bucketsPerBlock_eq; lia)) as Hb.
  destruct (idx_in_range metadata (cubicEpsBucket k1 bucketsPerBlock)) as (p & Hlp & ->); [lia |].
  cbn [mbind res_bind]. rewrite (decoder_hp seed d p Hd) by (by eapply (Forall_lookup_1 _ _ _ _ Hm)).
  cbn [mbind res_bind]. rewrite u32_id by done.
  destruct (Z.le_gt_cases (2 ^ 32) n) as [Hbig | Hsmall].
  { pose proof (pilotSlotFolded_is (foldSlotInput k0 k1) (pilotHash p seed) (computeNumSlots n)) as Hx.
    unfold is_u in Hx. destruct (Z.leb_spec n (pilotSlotFolded (foldSlotInput k0 k1) (pilotHash p seed) (computeNumSlots n))); [lia |].
    cbn [wp]. lia. }
  assert (is_u 32 n) as Hn32 by (unfold is_u; lia). pose proof (computeNumSlots_ge n Hn32) as Hge.
  pose proof (pilotSlotFolded_lt (foldSlotInput k0 k1) (pilotHash p seed) _ His ltac:(unfold_words; lia)) as Hx.
  set (x := pilotSlotFolded _ _ _) in *. destruct (Z.leb_spec n x); [| cbn; lia].
  rewrite slice_in_range by lia. cbn [mbind res_bind].
  set (rd := take _ _). assert (len rd = len metadata - bucketsPerBlock) as Hrd.
  { unfold rd, len in *. rewrite length_take, length_drop. rewrite bucketsPerBlock_eq in *. lia. }
  rewrite Hrd. destruct (Z.ltb_spec (len metadata - bucketsPerBlock) (2 + (computeNumSlots n - n) * 2));
    [cbn; right; split; [done | lia] |].
  unfold lookupRemap. rewrite u32_id by done. destruct (Z.ltb_spec x n); [lia |].
  unfold remapTableHeaderSize, remapTableEntrySize. rewrite u32_id by (unfold_words; lia).
  rewrite get_le_window by lia. cbn [mbind res_bind wp].
  assert (Forall is_byte (window rd (Z.to_nat (2 + (x - n) * 2)) 2)) as Hw.
  { unfold window. apply Forall_take, Forall_drop. unfold rd. by apply Forall_take, Forall_drop. }
  pose proof (le_val_bound _ Hw) as Hv. rewrite length_window in Hv by (unfold len in *; lia).
  change (8 * Z.of_nat 2) with 16 in Hv. rewrite u32_id by (unfold_words; lia). lia.
Qed.

(** C22: the decoder is safe on untrusted metadata: whatever the bytes, the key
    and the key count, a query returns a slot or [ErrNotFound]/[ErrCorruptedIndex]
    and never reads out of bounds; a slot is below the key count unless it came
    from the remap table (where it is any 16-bit value). *)
Theorem QuerySlot_safe seed d k0 k1 metadata n :
  decoder_for seed d -> Forall is_byte metadata -> is_u 64 k1 -> 0 <= n ->
  wp (QuerySlot d k0 k1 metadata n)
    (fun slot => 0 <= slot /\ (slot < n \/ slot < 2 ^ 16))
    (fun e => (e = ErrNotFound /\ n = 0) \/ (e = ErrCorruptedIndex /\
       (len metadata < bucketsPerBlock \/ len metadata < bucketsPerBlock + remapTableHeaderSize + (computeNumSlots n - n) * remapTableEntrySize))).
Proof. apply ptr_QuerySlot_total. Qed.

Lemma QuerySlot_safe_witness :
  exists d, decoder_for 7 d /\
    wp (QuerySlot d 1 2 [1; 2; 3] 5) (fun slot => 0 <= slot /\ (slot < 5 \/ slot < 2 ^ 16))
      (fun e => (e = ErrNotFound /\ 5 = 0) \/ (e = ErrCorruptedIndex /\
         (len [1; 2; 3] < bucketsPerBlock \/ len [1; 2; 3] < bucketsPerBlock + remapTableHeaderSize + (computeNumSlots 5 - 5) * remapTableEntrySize))).
Proof.
  eexists. split; [apply NewDecoder_ok |].
  apply (QuerySlot_safe 7); [apply NewDecoder_ok | repeat constructor; unfold_words; lia | unfold_words; lia ..].
Defined.

(** ** The slots of all keys *)
Definition slot_fn (seed n : Z) (pilots table : list Z) (e : bucketEntry) : Z :=
  key_index seed (computeNumSlots n) n pilots table (bucket_of e) e.

Lemma grouped_indices seed ns n pilots table ks :
  Forall (fun e => is_u 64 (suffix e)) ks ->
  block_indices seed ns n pilots table (grouped ks) =
  map (fun e => key_index seed ns n pilots table (bucket_of e) e) (concat (grouped ks)).
Proof.
  intros Hs. unfold block_indices. rewrite len_grouped. unfold grouped at 2. rewrite concat_map, map_map.
  apply (f_equal (@concat _)), map_ext_in. intros i Hi%list_elem_of_In%elem_of_range.
  rewrite grouped_lookup by done. cbn [default]. apply map_ext_in.
  intros e [<- _]%list_elem_of_In%list_elem_of_filter. done.
Qed.

Lemma slot_fn_permutation seed pilots table ks :
  Forall (fun e => is_u 64 (suffix e)) ks ->
  block_indices seed (computeNumSlots (len ks)) (len ks) pilots table (grouped ks) ≡ₚ range (len ks) ->
  map (slot_fn seed (len ks) pilots table) ks ≡ₚ range (len ks).
Proof.
  intros Hs <-. rewrite grouped_indices by done. symmetry. apply Permutation_map, grouped_permutation, Hs.
Qed.

(** The (bucket, key) pairs in the order the payload writer visits them. *)
Definition visits (ks : list bucketEntry) : list (Z * bucketEntry) :=
  concat (map (fun i => map (pair i) (filter (fun e => bucket_of e = i) ks)) (range bucketsPerBlock)).

Lemma elem_of_visits ks i e :
  (i, e) ∈ visits ks <-> i = bucket_of e /\ e ∈ ks /\ 0 <= i < bucketsPerBlock.
Proof.
  unfold visits. rewrite elem_of_concat_map. setoid_rewrite elem_of_range. split.
  - intros (j & Hj & Hp). apply list_elem_of_In, in_map_iff in Hp as (e' & [= -> ->] & He).
    apply list_elem_of_In, list_elem_of_filter in He as [-> He]. done.
  - intros (-> & He & Hi). exists (bucket_of e). split; [done |].
    apply list_elem_of_In, in_map, list_elem_of_In, list_elem_of_filter. done.
Qed.

Lemma visits_snd ks : map snd (visits ks) = concat (grouped ks).
Proof.
  unfold visits, grouped. rewrite concat_map, map_map. apply (f_equal (@concat _)), map_ext. intros i.
  rewrite map_map. apply map_id.
Qed.

Lemma visits_slots seed n pilots table ks :
  map (fun p => slot_fn seed n pilots table p.2) (visits ks) = map (slot_fn seed n pilots table) (concat (grouped ks)).
Proof. rewrite <- visits_snd, map_map. done. Qed.

(** ** Writing the metadata *)
Lemma encodeMetadataInto_spec b dst :
  len (b_pilots b) + 2 + 2 * len (b_remap b) <= len dst -> len (b_remap b) < 2 ^ 16 ->
  Forall is_byte dst -> take (length (b_pilots b)) dst = b_pilots b ->
  exists dst', encodeMetadataInto b dst = Ok (dst', len (b_pilots b) + (2 + 2 * len (b_remap b))) /\
    take (Z.to_nat (len (b_pilots b) + (2 + 2 * len (b_remap b)))) dst' = b_pilots b ++ remap_bytes (b_remap b) /\
    len dst' = len dst /\ Forall is_byte dst'.
Proof.
  intros Hl Ht Hb Htk. pose proof (len_nonneg (b_pilots b)). pose proof (len_nonneg (b_remap b)).
  pose proof (len_remap_bytes (b_remap b)) as Hr. unfold encodeMetadataInto.
  rewrite slice_in_range by lia. cbn [mbind res_bind].
  set (sub := take _ _). assert (len sub = len dst - len (b_pilots b)) as Hs.
  { unfold sub, len in *. rewrite length_take, length_drop. lia. }
  rewrite encodeRemapTableInto_eq by lia. rewrite store_range by lia. cbn [mbind res_bind].
  change (Z.to_nat 0) with 0%nat. rewrite take_0, app_nil_l, Nat.add_0_l.
  set (sub' := remap_bytes _ ++ _). assert (len sub' = len sub) as Hs'.
  { unfold sub'. rewrite len_app. unfold len in *. rewrite length_drop. lia. }
  rewrite store_range by lia. cbn [mbind res_bind].
  assert (take (Z.to_nat (len (b_pilots b))) dst = b_pilots b) as Htk' by (by unfold len; rewrite Nat2Z.id).
  rewrite Htk'. eexists. split; [done |].
  rewrite (drop_ge dst), app_nil_r by (unfold len in *; lia). split_and!.
  - unfold sub'. rewrite app_assoc. apply take_app_length'. rewrite length_app. unfold len in *. lia.
  - rewrite len_app. lia.
  - apply Forall_app. split; [rewrite <- Htk; by apply Forall_take |]. unfold sub'. apply Forall_app. split.
    + unfold remap_bytes. apply Forall_app. split; [apply le_bytes_bytes |].
      apply Forall_concat, Forall_map, Forall_forall. intros v _. apply le_bytes_bytes.
    + unfold sub. by apply Forall_drop, Forall_take, Forall_drop.
Qed.

(** ** Writing the payloads *)
Lemma writer_slot seed n pilots table i e {B} (k : Z -> res B) :
  meta_ok n pilots table -> is_u 32 n ->
  slot_of seed (computeNumSlots n) (default 0 (pilots !! Z.to_nat i)) e < computeNumSlots n ->
  (slot ← (if n <=? slot_of seed (computeNumSlots n) (default 0 (pilots !! Z.to_nat i)) e
           then v ← idx table (u32 (slot_of seed (computeNumSlots n) (default 0 (pilots !! Z.to_nat i)) e - n)); Ok (u32 v)
           else Ok (slot_of seed (computeNumSlots n) (default 0 (pilots !! Z.to_nat i)) e)); k slot) =
  k (key_index seed (computeNumSlots n) n pilots table i e).
Proof.
  intros [Hn Hns _ _ Ht Hu] Hn32 Hx. unfold key_index. set (x := slot_of _ _ _ _) in *. clearbody x.
  destruct (Z.leb_spec n x), (Z.ltb_spec x n); try lia; [| done].
  rewrite u32_id by (unfold_words; lia).
  destruct (idx_in_range table (x - n)) as (v & Hv & ->); [lia |]. cbn [mbind res_bind].
  rewrite Hv. cbn [default]. unfold id. rewrite u32_id; [done |].
  eapply (is_u_mono 16 32); [lia |]. by eapply (Forall_lookup_1 _ _ _ _ Hu).
Qed.

Lemma writer_loops b ks dst generic :
  b_buckets b = grouped ks -> keysInBlock b = len ks -> b_numSlots b = computeNumSlots (len ks) ->
  is_u 32 (len ks) -> meta_ok (len ks) (b_pilots b) (b_remap b) -> 0 < len dst ->
  encodePayloadsWithWriter b dst (entrySize b) generic =
  foldM (fun dst p => writeEntryAt generic dst (slot_fn (b_globalSeed b) (len ks) (b_pilots b) (b_remap b) p.2)
           (fingerprintSize b + payloadSize b) (fingerprint p.2) (payload p.2) (8 * fingerprintSize b)) dst (visits ks).
Proof.
  intros Hb Hk Hns Hn Hm Hd. unfold encodePayloadsWithWriter, entrySize.
  destruct (idx_in_range dst 0) as (d0 & _ & ->); [lia |]. cbn [mbind res_bind].
  rewrite Hb, Hk, Hns, len_grouped, !u32_id by (exact Hn || apply computeNumSlots_is).
  rewrite (Z.mul_comm (fingerprintSize b) 8).
  unfold visits. rewrite <- foldM_nested with (f := fun _ dst e => writeEntryAt generic dst
    (slot_fn (b_globalSeed b) (len ks) (b_pilots b) (b_remap b) e) (fingerprintSize b + payloadSize b)
    (fingerprint e) (payload e) (8 * fingerprintSize b)).
  apply foldM_ext_in. intros dst' i Hi%elem_of_range.
  pose proof (grouped_lookup ks i Hi) as Hg. pose proof (len_grouped ks) as Hgl.
  destruct (idx_in_range (grouped ks) i) as (bucket & Hbk & ->); [lia |]. rewrite Hg in Hbk. injection Hbk as <-.
  cbn [mbind res_bind]. pose proof (mo_pilots _ _ _ Hm) as Hpl.
  destruct (idx_in_range (b_pilots b) i) as (p & Hp & ->); [lia |]. cbn [mbind res_bind].
  apply foldM_ext_in. intros dst2 e [<- He]%list_elem_of_filter.
  pose proof (writer_slot (b_globalSeed b) (len ks) (b_pilots b) (b_remap b) (bucket_of e) e
    (fun slot => writeEntryAt generic dst2 slot (fingerprintSize b + payloadSize b) (fingerprint e) (payload e)
      (8 * fingerprintSize b)) Hm Hn) as Hw.
  rewrite Hp in Hw. apply Hw. apply pilotSlotFolded_lt; [apply computeNumSlots_is |].
  pose proof (computeNumSlots_ge _ Hn). pose proof (mo_n _ _ _ Hm). lia.
Qed.

Lemma encodePayloadsInto_spec fps ps b ks dst :
  b_buckets b = grouped ks -> keysInBlock b = len ks -> b_numSlots b = computeNumSlots (len ks) ->
  fingerprintSize b = fps -> payloadSize b = ps -> 0 <= fps -> 0 <= ps ->
  is_u 32 (len ks) -> Forall (key_ok fps) ks -> meta_ok (len ks) (b_pilots b) (b_remap b) ->
  let slot := slot_fn (b_globalSeed b) (len ks) (b_pilots b) (b_remap b) in
  map slot ks ≡ₚ range (len ks) -> len ks * (fps + ps) <= len dst -> Forall is_byte dst ->
  exists dst', encodePayloadsInto b dst = Ok (dst', len ks * (fps + ps)) /\
    len dst' = len dst /\ Forall is_byte dst' /\
    Forall (fun e => entry_at dst' fps ps (slot e) (fingerprint e) (payload e)) ks.
Proof.
  intros Hb Hk Hns <- <- Hf Hp Hn Hok Hm slot Hperm Hl Hbd. unfold encodePayloadsInto.
  rewrite Hk. pose proof (mo_n _ _ _ Hm) as Hn0. unfold entrySize.
  destruct (Z.eqb_spec (fingerprintSize b + payloadSize b) 0) as [He |Hne].
  { rewrite He, Z.mul_0_r. cbn [orb]. exists dst. split_and!; [done | done | done |].
    apply Forall_forall. intros e _. unfold entry_at. rewrite He, Z.mul_0_r. unfold window. rewrite take_0.
    replace (fingerprintSize b) with 0 by lia. by replace (payloadSize b) with 0 by lia. }
  cbn [orb]. destruct (Z.eqb_spec (len ks) 0); [lia |].
  destruct (Z.ltb_spec (len dst) (len ks * (fingerprintSize b + payloadSize b))); [lia |].
  set (es := fingerprintSize b + payloadSize b) in *.
  assert (Forall (fun e => is_u 64 (suffix e)) ks) as Hsuf.
  { eapply Forall_impl; [exact Hok |]. intros e (_ & ? & _). done. }
  assert (forall p, p ∈ visits ks -> p.2 ∈ ks /\ 0 <= slot p.2 < len ks) as Hv.
  { intros [i e] (_ & He & _)%elem_of_visits. split; [done |].
    apply elem_of_range. rewrite <- Hperm. cbn [snd]. by apply list_elem_of_In, in_map, list_elem_of_In. }
  assert (forall generic, (generic = false -> es ∈ [1; 4; 5; 8]) -> exists dst',
    encodePayloadsWithWriter b dst es generic = Ok dst' /\ len dst' = len dst /\ Forall is_byte dst' /\
    Forall (fun e => entry_at dst' (fingerprintSize b) (payloadSize b) (slot e) (fingerprint e) (payload e)) ks)
    as Hw.
  { intros generic Hg. unfold es. fold (entrySize b). rewrite writer_loops with (ks := ks) by (done || nia).
    change (slot_fn (b_globalSeed b) (len ks) (b_pilots b) (b_remap b)) with slot.
    destruct (write_all (fingerprintSize b) (payloadSize b) Hf Hp (fun p => slot p.2) (fun p => fingerprint p.2)
      (fun p => payload p.2) generic (visits ks) dst Hg) as (dst' & -> & Hl' & Hb' & Hall).
    - apply Forall_forall. intros p Hin. destruct (Hv p Hin) as [He Hs].
      rewrite Forall_forall in Hok. destruct (Hok _ He) as (_ & _ & Hfp). split_and!; [done | lia | fold es; nia].
    - unfold slot. rewrite visits_slots. rewrite (Permutation_map _ (grouped_permutation ks Hsuf)).
      fold slot. rewrite Hperm. apply NoDup_range.
    - exists dst'. split_and!; [done | done | by apply Hb' |].
      apply Forall_forall. intros e He. apply (proj1 (Forall_forall _ _) Hall (bucket_of e, e)).
      apply elem_of_visits. split; [done |]. split; [done |]. apply bucket_of_lt.
      by apply (proj1 (Forall_forall _ _) Hsuf). }
  assert (forall generic, (generic = false -> es ∈ [1; 4; 5; 8]) -> exists dst',
    (dst ← encodePayloadsWithWriter b dst es generic; Ok (dst, len ks * es)) = Ok (dst', len ks * es) /\
    len dst' = len dst /\ Forall is_byte dst' /\
    Forall (fun e => entry_at dst' (fingerprintSize b) (payloadSize b) (slot e) (fingerprint e) (payload e)) ks) as Hw'.
  { intros generic Hg. destruct (Hw generic Hg) as (dst' & -> & H1). by exists dst'. }
  destruct ((es =? 1) || (es =? 4) || (es =? 5) || (es =? 8)) eqn:Hsz; apply Hw'; [| done].
  intros _. rewrite !orb_true_iff, !Z.eqb_eq in Hsz. set_solver.
Qed.

(** ** Building a block *)

(** The reasons a block of these keys may be refused. *)
Definition block_error (maxKeys : Z) (ks : list bucketEntry) (e : error) : Prop :=
  (e = ErrBlockOverflow /\ (maxKeys < len ks \/ 65535 < computeNumSlots (len ks))) \/
  e = errEvictionLimitExceeded \/
  exists bucket, bucket ∈ grouped ks /\
    ((e = ErrDuplicateKey /\ hasDuplicateSlotInput bucket = true) \/
     (e = ErrIndistinguishableHashes /\ hasDuplicateSlotInput bucket = false)).

(** The builder's fields that solving does not touch. *)
Record same_config (b b' : Builder) : Prop := {
  sc_numBlocks : b_numBlocks b' = b_numBlocks b;
  sc_seed : b_globalSeed b' = b_globalSeed b;
  sc_ps : payloadSize b' = payloadSize b;
  sc_fps : fingerprintSize b' = fingerprintSize b;
  sc_max : maxKeysPerBlock b' = maxKeysPerBlock b
}.

Lemma same_config_set s n p t b : same_config b (set_solution s n p t b).
Proof. by split. Qed.

Lemma same_config_trans b b' b'' : same_config b b' -> same_config b' b'' -> same_config b b''.
Proof. intros [] []. split; congruence. Qed.

Lemma builder_ok_set fps ks b s n p t :
  builder_ok fps ks b -> buf_ok bucketsPerBlock s -> builder_ok fps ks (set_solution s n p t b).
Proof. intros [] Hs. split; [exact bb_buckets0 | exact bb_keys0 | exact bb_ok0 | exact bb_fps0 | exact Hs]. Qed.

(** The block is solved: pilots at the head of the metadata, indices a bijection. *)
Record block_solved (ks : list bucketEntry) (b : Builder) (md : list Z) : Prop := {
  bs_pilots : take (length (b_pilots b)) md = b_pilots b;
  bs_meta : meta_ok (len ks) (b_pilots b) (b_remap b);
  bs_slots : b_numSlots b = computeNumSlots (len ks);
  bs_perm : map (slot_fn (b_globalSeed b) (len ks) (b_pilots b) (b_remap b)) ks ≡ₚ range (len ks)
}.

Definition solve_block_post (fps : Z) (ks : list bucketEntry) (b : Builder) (md : list Z)
    (r : Builder * list Z * option error) : Prop :=
  let '(b', md', err) := r in
  builder_ok fps ks b' /\ same_config b b' /\ len md' = len md /\ Forall is_byte md' /\
  match err with
  | None => block_solved ks b' md'
  | Some e => block_error (maxKeysPerBlock b) ks e
  end.

Lemma key_ok_suffix fps ks : Forall (key_ok fps) ks -> Forall (fun e => is_u 64 (suffix e)) ks.
Proof. intros H. eapply Forall_impl; [exact H |]. intros e (_ & ? & _). done. Qed.

Lemma store_prefix (l bs : list Z) :
  len bs <= len l -> Forall is_byte l -> Forall is_byte bs ->
  exists l', store l 0 bs = Ok l' /\ len l' = len l /\ Forall is_byte l' /\ take (length bs) l' = bs.
Proof.
  intros Hl Hb Hbs. rewrite store_range by lia. change (Z.to_nat 0) with 0%nat.
  rewrite take_0, app_nil_l, Nat.add_0_l. eexists. split; [done |]. split_and!.
  - rewrite len_app. unfold len in *. rewrite length_drop. lia.
  - apply Forall_app. split; [done | by apply Forall_drop].
  - apply take_app_length.
Qed.

Lemma solve_block_spec fps ks b md :
  builder_ok fps ks b -> 0 < len ks < 2 ^ 32 -> bucketsPerBlock <= len md -> Forall is_byte md ->
  wp (solve_block b md) (solve_block_post fps ks b md) no_err.
Proof.
  intros Hb Hn Hl Hmd. unfold solve_block. apply wp_bind.
  set (Q := fun st : Builder * list Z * option error => solve_block_post fps ks b md st).
  apply (wp_foldB_prefix (fun pre st => let '(b', md', err) := st in
    builder_ok fps ks b' /\ same_config b b' /\ len md' = len md /\ Forall is_byte md' /\
    match err with None => pre = [] | Some e => e = errEvictionLimitExceeded end)
    (fun st => wp (Ok match st with inl st => st | inr st => st end) Q no_err)).
  - split_and!; [done | by split | done | done | done].
  - intros pre a post [[b1 md1] err1] _ (Hb1 & Hc1 & Hl1 & Hmd1 & _).
    pose proof (key_ok_suffix _ _ (bb_ok _ _ _ Hb1)) as Hsuf.
    rewrite (bb_keys _ _ _ Hb1), (bb_buckets _ _ _ Hb1), <- (total_grouped ks Hsuf).
    destruct (reset_spec bucketsPerBlock (b_solver b1) (grouped ks) (b_globalSeed b1) md1) as (s1 & -> & Hs1).
    { apply (bb_solver _ _ _ Hb1). }
    { rewrite bucketsPerBlock_eq. lia. }
    { apply len_grouped. }
    { by rewrite total_grouped. }
    { lia. }
    { done. }
    cbn [mbind res_bind]. apply wp_bind.
    eapply wp_mono; [eapply solve_spec; [exact Hs1 | rewrite bucketsPerBlock_eq; lia | apply len_grouped |
      by rewrite total_grouped | lia | done] | | done].
    intros [s2 r] [Hbuf Hns Hpl Hpb Hret Hres].
    destruct (store_prefix md1 (pilots s2)) as (md2 & -> & Hl2 & Hmd2 & Htk); [lia | done | done |].
    cbn [mbind res_bind]. destruct r as [[p t] | e].
    + rewrite (Hret p t eq_refl) in *. cbn [wp]. unfold Q, solve_block_post.
      destruct Hres as (_ & _ & Hlt & Hut & H16 & _ & Hperm). rewrite total_grouped in * by done.
      split_and!; [by apply builder_ok_set | eapply same_config_trans; [exact Hc1 | apply same_config_set] | lia | done |].
      split; cbn [b_pilots b_remap b_numSlots b_globalSeed set_solution]; [done | | done | by apply slot_fn_permutation].
      by split; [lia | lia | | | |].
    + case_decide as He; cbn [wp].
      * split_and!; [by apply builder_ok_set | eapply same_config_trans; [exact Hc1 | apply same_config_set] | lia | done | done].
      * unfold Q, solve_block_post. split_and!;
          [by apply builder_ok_set | eapply same_config_trans; [exact Hc1 | apply same_config_set] | lia | done |].
        cbn [solve_result] in Hres. cbv zeta in Hres. rewrite total_grouped in Hres by done.
        destruct Hres as [[-> Hbig] | [_ [-> | (bucket & Hin & Hcase)]]].
        -- left. split; [done | by right].
        -- by right; left.
        -- right; right. by exists bucket.
  - intros [[b1 md1] err1] (Hb1 & Hc1 & Hl1 & Hmd1 & Herr). cbn [wp]. unfold Q, solve_block_post.
    split_and!; try done. destruct err1 as [e |]; [| by apply (f_equal length) in Herr; rewrite length_range in Herr].
    right; left. done.
Qed.

Lemma buildEmpty_spec dst :
  bucketsPerBlock + remapTableHeaderSize <= len dst -> Forall is_byte dst ->
  exists dst', buildEmptyMetadataInto dst = Ok (dst', bucketsPerBlock + remapTableHeaderSize) /\
    len dst' = len dst /\ Forall is_byte dst'.
Proof.
  intros Hl Hb. unfold buildEmptyMetadataInto, remapTableHeaderSize in *. pose proof bucketsPerBlock_eq.
  rewrite slice_in_range by lia. cbn [mbind res_bind].
  destruct (store_prefix dst (make 0 bucketsPerBlock)) as (d1 & -> & Hl1 & Hb1 & _);
    [rewrite len_make; lia | done | apply Forall_replicate; unfold_words; lia |].
  cbn [mbind res_bind]. rewrite upd_in_range by lia. cbn [mbind res_bind].
  rewrite upd_in_range by (rewrite len_insert; lia). cbn [mbind res_bind].
  eexists. split; [done |]. rewrite !len_insert. split; [done |].
  apply Forall_insert; [apply Forall_insert; [done |] |]; unfold_words; lia.
Qed.

(** What a successful build promises: [n] keys with indices 0 to n-1, which the
    decoder recomputes from the metadata, and every key's entry at its index. *)
Definition built (fps ps seed : Z) (ks : list bucketEntry) (meta payloads : list Z) : Prop :=
  forall d, decoder_for seed d -> exists slots, slots ≡ₚ range (len ks) /\
    Forall2 (fun e slot => QuerySlot d (k0 e) (suffix e) meta (len ks) = Ok slot /\
      entry_at payloads fps ps slot (fingerprint e) (payload e)) ks slots.

Lemma built_of_solved fps ps seed ks pilots table payloads :
  meta_ok (len ks) pilots table -> is_u 32 (len ks) -> Forall (fun e => is_u 64 (suffix e)) ks ->
  map (slot_fn seed (len ks) pilots table) ks ≡ₚ range (len ks) ->
  Forall (fun e => entry_at payloads fps ps (slot_fn seed (len ks) pilots table e) (fingerprint e) (payload e)) ks ->
  built fps ps seed ks (pilots ++ remap_bytes table) payloads.
Proof.
  intros Hm Hn Hs Hperm He d Hd. exists (map (slot_fn seed (len ks) pilots table) ks). split; [done |].
  apply Forall2_fmap_r, Forall_Forall2_diag, Forall_forall. intros e Hin.
  split; [| by apply (proj1 (Forall_forall _ _) He)].
  rewrite <- (app_nil_r (remap_bytes table)). unfold slot_fn.
  apply QuerySlot_eq; [done | done | done | by apply (proj1 (Forall_forall _ _) Hs)].
Qed.

Lemma ptr_build_spec fps ps ks b md pd :
  builder_ok fps ks b -> payloadSize b = ps -> 0 <= fps -> 0 <= ps -> maxKeysPerBlock b < 2 ^ 32 ->
  MaxMetadataSizeForCurrentBlock b <= len md -> len ks * (fps + ps) <= len pd ->
  Forall is_byte md -> Forall is_byte pd ->
  wp (BuildSeparatedInto b md pd) (fun '(b', md', pd', r) =>
    builder_ok fps ks b' /\ same_config b b' /\ len md' = len md /\ len pd' = len pd /\
    Forall is_byte md' /\ Forall is_byte pd' /\
    match r with
    | inl (metaLen, payloadsLen, n) =>
        n = len ks /\ payloadsLen = len ks * (fps + ps) /\ 128 <= metaLen <= Z.min (2 ^ 18) (estimateMetadataSize (len ks)) /\
        built fps ps (b_globalSeed b) ks (take (Z.to_nat metaLen) md') pd'
    | inr e => block_error (maxKeysPerBlock b) ks e
    end) no_err.
Proof.
  intros Hb Hps Hf Hp Hn Hml Hpl Hmd Hpd. unfold BuildSeparatedInto, MaxMetadataSizeForCurrentBlock in *.
  pose proof bucketsPerBlock_eq as Hbpb. pose proof (len_nonneg ks) as Hn0.
  rewrite (bb_keys _ _ _ Hb) in *. destruct (Z.eqb_spec (len ks) 0) as [H0 | Hnz].
  { assert (ks = []) as -> by (destruct ks; [done | unfold len in H0; simpl in H0; lia]).
    change (len (@nil bucketEntry)) with 0 in *. rewrite estimate_0 in *.
    destruct (buildEmpty_spec md) as (md' & -> & Hl' & Hbm'); [exact Hml | done |].
    cbn [mbind res_bind wp]. split; [exact Hb |]. split; [by split |]. split; [exact Hl' |]. split; [reflexivity |]. split; [exact Hbm' |]. split; [exact Hpd |].
    split; [reflexivity |]. split; [reflexivity |]. split; [unfold remapTableHeaderSize; lia |].
    intros d _. exists []. split; [reflexivity | constructor]. }
  destruct (Z.ltb_spec (maxKeysPerBlock b) (len ks)) as [Hbig |].
  { cbn [wp]. split; [exact Hb |]. split; [by split |]. split; [done |]. split; [done |]. split; [done |]. split; [done |].
    left. split; [done | by left]. }
  rewrite estimate_pos in * by done. pose proof (computeNumSlots_ge (len ks) ltac:(unfold_words; lia)) as Hge.
  apply wp_bind. eapply wp_mono; [apply (solve_block_spec fps ks b md Hb); [lia | lia | done] | | done].
  intros [[b1 md1] [e |]] (Hb1 & Hc1 & Hl1 & Hmd1 & Hr).
  { cbn [wp]. split_and!; done. }
  destruct Hr as [Htk Hm Hslots Hperm]. pose proof Hm as [_ H16 Hpil Hpb Htab Hu].
  destruct (encodeMetadataInto_spec b1 md1) as (md2 & -> & Htk2 & Hl2 & Hmd2); [lia | lia | done | done |].
  cbn [mbind res_bind].
  destruct (encodePayloadsInto_spec fps ps b1 ks pd) as (pd2 & -> & Hl3 & Hbp2 & Hent);
    [apply Hb1 | apply Hb1 | done | apply Hb1 | by rewrite (sc_ps _ _ Hc1) | done | done |
     unfold_words; lia | apply Hb1 | done | done | done | done |].
  cbn [mbind res_bind wp]. split; [exact Hb1 |]. split; [exact Hc1 |].
  split; [congruence |]. split; [exact Hl3 |]. split; [done |]. split; [exact Hbp2 |]. split; [apply Hb1 |]. split; [reflexivity |].
  split; [pose proof (len_nonneg (b_remap b1)); unfold remapTableHeaderSize in *; lia |].
  - rewrite Htk2, <- (sc_seed _ _ Hc1).
    apply built_of_solved; [done | unfold_words; lia | apply (key_ok_suffix fps), Hb1 | done | done].
Qed.

(** C14: a PTRHash block is correct, from the keys added to the bytes queried.
    [BuildSeparatedInto], on buffers of the estimated sizes, never panics; when it
    succeeds it reports the number of keys, the metadata fits the estimate (and
    2^18 bytes), and
    the decoder maps the keys bijectively onto the slots 0 to n-1 with each key's
    fingerprint and payload stored at its slot. When it fails the block was too
    large, the eviction limit was hit in every attempt, or a bucket is reported
    as holding duplicate or indistinguishable keys. Either way the builder keeps
    its keys and can be reset and used again. *)
Theorem ptr_block_correct fps ps ks b md pd :
  builder_ok fps ks b -> payloadSize b = ps -> 0 <= fps -> 0 <= ps -> maxKeysPerBlock b < 2 ^ 32 ->
  MaxMetadataSizeForCurrentBlock b <= len md -> len ks * (fps + ps) <= len pd ->
  Forall is_byte md -> Forall is_byte pd ->
  wp (BuildSeparatedInto b md pd) (fun '(b', md', pd', r) =>
    builder_ok fps ks b' /\ same_config b b' /\ len md' = len md /\ len pd' = len pd /\
    Forall is_byte md' /\ Forall is_byte pd' /\
    match r with
    | inl (metaLen, payloadsLen, n) =>
        n = len ks /\ payloadsLen = len ks * (fps + ps) /\ 128 <= metaLen <= Z.min (2 ^ 18) (estimateMetadataSize (len ks)) /\
        built fps ps (b_globalSeed b) ks (take (Z.to_nat metaLen) md') pd'
    | inr e => block_error (maxKeysPerBlock b) ks e
    end) no_err.
Proof. apply ptr_build_spec. Qed.

Lemma add_all_ok fps ks0 ks b :
  builder_ok fps ks0 b -> Forall (key_ok fps) ks ->
  exists b', add_all b ks = Ok b' /\ builder_ok fps (ks0 ++ ks) b' /\ payloadSize b' = payloadSize b /\
    maxKeysPerBlock b' = maxKeysPerBlock b.
Proof.
  intros Hb Hk. revert ks0 b Hb. induction Hk as [| e ks He Hk IH]; intros ks0 b Hb.
  { exists b. rewrite app_nil_r. done. }
  unfold add_all. cbn [foldM]. pose proof (AddKey_step fps ks0 b e Hb He) as (b1 & -> & Hb1 & _ & Hm1 & _ & Hp1).
  cbn [mbind res_bind]. destruct (IH _ _ Hb1) as (b2 & H2 & Hb2 & Hp2 & Hm2).
  exists b2. rewrite <- app_assoc in Hb2. split_and!; [exact H2 | exact Hb2 | congruence | congruence].
Qed.

Lemma ptr_block_correct_witness :
  exists b, add_all (NewBuilder 100000 42 4 1) [mk_bentry 5 7 1 2; mk_bentry 9 11 3 4] = Ok b /\
    wp (BuildSeparatedInto b (make 0 10010) (make 0 10)) (fun '(b', md', pd', r) =>
      match r with
      | inl (metaLen, payloadsLen, n) => n = 2 /\ payloadsLen = 10 /\
          built 1 4 (b_globalSeed b) [mk_bentry 5 7 1 2; mk_bentry 9 11 3 4] (take (Z.to_nat metaLen) md') pd'
      | inr e => block_error (maxKeysPerBlock b) [mk_bentry 5 7 1 2; mk_bentry 9 11 3 4] e
      end) no_err.
Proof.
  set (ks := [mk_bentry 5 7 1 2; mk_bentry 9 11 3 4]).
  assert (Forall (key_ok 1) ks) as Hk by (repeat constructor; unfold_words; cbn; lia).
  destruct (add_all_ok 1 [] ks (NewBuilder 100000 42 4 1) (NewBuilder_ok _ _ _ _) Hk) as (b & Hb & Hok & Hp & Hmax).
  exists b. split; [exact Hb |].
  eapply wp_mono; [apply (ptr_block_correct 1 4 ks b) | | done].
  - exact Hok.
  - exact Hp.
  - lia.
  - lia.
  - rewrite Hmax. vm_compute. reflexivity.
  - unfold MaxMetadataSizeForCurrentBlock. rewrite (bb_keys _ _ _ Hok). change (len ([] ++ ks)) with 2.
    rewrite estimate_2, len_make; lia.
  - change (len ks) with 2. rewrite len_make; lia.
  - apply Forall_replicate. unfold_words. lia.
  - apply Forall_replicate. unfold_words. lia.
  - intros [[[b' md'] pd'] [[[metaLen payloadsLen] n] | e]] (_ & _ & _ & _ & _ & _ & Hr); [| exact Hr].
    destruct Hr as (-> & -> & _ & Hbuilt). exact (conj eq_refl (conj eq_refl Hbuilt)).
Defined.
