(* ===== verification/BijMix.v ===== *)
(** * [internal/bijection/config.go], [mix.go]: geometry and the seeded slot hash *)
From S2P Require Import Prelude Words Bits Floats.
#[local] Open Scope Z_scope.

(** ** Geometry *)
Definition bucketsPerBlock : Z := 1024.
Definition blockBits : Z := 10.
Definition checkpointInterval : Z := 128.
Definition numCheckpoints : Z := bucketsPerBlock / checkpointInterval - 1.
Definition checkpointsSize : Z := numCheckpoints * 2 * 2.
Definition splitThreshold : Z := 8.
Definition fallbackMarker : Z := 0xFFFFFFFF.
Definition blockOverflowSigmas : Z := 7.
Definition lambda : spec_float := float64 3.

Definition numBlocks (totalKeys : Z) : Z :=
  let totalBuckets := u64 (ceil_int (fdiv (float64 totalKeys) lambda)) in
  let totalBuckets := if totalBuckets =? 0 then 1 else totalBuckets in
  Z.max (u32 (u64 (u64 (totalBuckets + bucketsPerBlock) - 1) / bucketsPerBlock)) 2.

Definition estimateMetadataSize (numKeys : Z) : Z :=
  if numKeys =? 0 then
    let efHighBits := (bucketsPerBlock + 7) / 8 in
    checkpointsSize + efHighBits + 1
  else
    let efUpperBound := 1024 in
    let seedsUpperBound := 6144 in
    let fallbackUpperBound := 1024 in
    checkpointsSize + efUpperBound + seedsUpperBound + fallbackUpperBound.

(** ** Mixing *)
Record mixParts := mk_mix { xoredK0 : Z; xoredK1 : Z }. (* uint64 *)

#[export] Instance mixParts_eq_dec : EqDecision mixParts.
Proof. solve_decision. Defined.

Definition wymix (a b : Z) : Z := Z.lxor (mul64_hi a b) (mul64_lo a b).

Definition mixFromParts (parts : mixParts) (seed bucketSize : Z) : Z :=
  if bucketSize <=? 1 then 0
  else
    let mixed := wymix (Z.lxor (xoredK0 parts) (u64 seed)) (xoredK1 parts) in
    FastRange32 mixed bucketSize.

Arguments mixFromParts : simpl never.
Arguments wymix : simpl never.

Definition mix_ok (p : mixParts) : Prop := is_u 64 (xoredK0 p) /\ is_u 64 (xoredK1 p).

Lemma wymix_is a b : is_u 64 a -> is_u 64 b -> is_u 64 (wymix a b).
Proof.
  intros Ha Hb. apply lxor_is_u; [lia | | apply u64_is].
  unfold mul64_hi. split; [apply Z.div_pos; unfold_words; nia |].
  apply Z.div_lt_upper_bound; unfold_words; nia.
Qed.

Lemma mixFromParts_lt p seed n : mix_ok p -> 0 < n < 2 ^ 32 -> 0 <= mixFromParts p seed n < n.
Proof.
  intros [H0 H1] Hn. unfold mixFromParts. destruct (Z.leb_spec n 1); [lia |].
  apply FastRange32_lt; [| unfold_words; lia | lia].
  apply wymix_is; [apply lxor_is_u; [lia | done | apply u64_is] | done].
Qed.

(** The slots a seed gives the keys of a bucket. *)
Definition seed_slots (ps : list mixParts) (seed n : Z) : list Z := map (fun p => mixFromParts p seed n) ps.

Lemma seed_slots_lt ps seed n :
  Forall mix_ok ps -> 0 < n < 2 ^ 32 -> Forall (fun x => 0 <= x < n) (seed_slots ps seed n).
Proof.
  intros Hp Hn. apply Forall_map. eapply Forall_impl; [exact Hp |]. intros p H. by apply mixFromParts_lt.
Qed.
