(* ===== verification/BijBits.v ===== *)
(** * [internal/bijection/bitio.go]: the bit writer and reader

    The writer packs bit strings, least significant bit first, into 64-bit words;
    the reader takes them apart again. The specification of both is a number: the
    little-endian value of the bytes, whose bit [i] is the [i]-th bit written. *)
From S2P Require Import Prelude Words.
#[local] Open Scope Z_scope.

(** ** The writer *)
Record bitWriter := mk_bw { bw_buf : list Z; bw_current : Z; bw_bitPos : Z }.

Definition newBitWriterBuffer : bitWriter := mk_bw [] 0 0.

Definition flushWord (bw : bitWriter) : bitWriter :=
  mk_bw (bw_buf bw ++ le_bytes 8 (bw_current bw)) 0 0.

(** The tail all the writes share: [if bw.bitPos == 64 { bw.flushWord() }]. *)
Definition flushIfFull (bw : bitWriter) : bitWriter :=
  if bw_bitPos bw =? 64 then flushWord bw else bw.

Definition writeBit (bw : bitWriter) (bit : Z) : bitWriter :=
  let cur := if negb (bit =? 0) then Z.lor (bw_current bw) (u64 (Z.shiftl 1 (bw_bitPos bw)))
             else bw_current bw in
  flushIfFull (mk_bw (bw_buf bw) cur (bw_bitPos bw + 1)).

Definition writeBits (bw : bitWriter) (v n : Z) : bitWriter :=
  if n =? 0 then bw
  else
    let mask := u64 (u64 (Z.shiftl 1 n) - 1) in
    let v := Z.land v mask in
    if bw_bitPos bw + n <=? 64 then
      flushIfFull (mk_bw (bw_buf bw) (Z.lor (bw_current bw) (u64 (Z.shiftl v (bw_bitPos bw))))
                     (bw_bitPos bw + n))
    else
      let bitsInCurrent := 64 - bw_bitPos bw in
      let low := Z.land v (u64 (u64 (Z.shiftl 1 bitsInCurrent) - 1)) in
      let bw := flushWord (mk_bw (bw_buf bw)
                  (Z.lor (bw_current bw) (u64 (Z.shiftl low (bw_bitPos bw)))) (bw_bitPos bw)) in
      mk_bw (bw_buf bw) (Z.shiftr v bitsInCurrent) (n - bitsInCurrent).

(** [for n >= 64 { bw.current = ^uint64(0); bw.flushWord(); n -= 64 }] *)
Fixpoint onesLoop (fuel : nat) (bw : bitWriter) (n : Z) : bitWriter * Z :=
  match fuel with
  | O => (bw, n)
  | S fuel =>
      if 64 <=? n then onesLoop fuel (flushWord (mk_bw (bw_buf bw) (2 ^ 64 - 1) (bw_bitPos bw))) (n - 64)
      else (bw, n)
  end.

Definition writeOnes (bw : bitWriter) (n : Z) : bitWriter :=
  if n =? 0 then bw
  else if bw_bitPos bw + n <=? 64 then
    let mask := u64 (u64 (Z.shiftl 1 n) - 1) in
    flushIfFull (mk_bw (bw_buf bw) (Z.lor (bw_current bw) (u64 (Z.shiftl mask (bw_bitPos bw))))
                   (bw_bitPos bw + n))
  else
    let remaining := 64 - bw_bitPos bw in
    let bw := flushWord (mk_bw (bw_buf bw)
                (Z.lor (bw_current bw) (u64 (Z.shiftl (2 ^ 64 - 1) (bw_bitPos bw)))) (bw_bitPos bw)) in
    let '(bw, n) := onesLoop (Z.to_nat n) bw (n - remaining) in
    if 0 <? n then mk_bw (bw_buf bw) (u64 (u64 (Z.shiftl 1 n) - 1)) n else bw.

(** The bytes, and the writer left behind. *)
Definition flush (bw : bitWriter) : list Z * bitWriter :=
  if 0 <? bw_bitPos bw then
    let numBytes := (bw_bitPos bw + 7) / 8 in
    let buf := bw_buf bw ++ take (Z.to_nat numBytes) (le_bytes 8 (bw_current bw)) in
    (buf, mk_bw buf 0 0)
  else (bw_buf bw, bw).

Definition bw_reset (bw : bitWriter) : bitWriter := mk_bw [] 0 0.
Definition bitsWritten (bw : bitWriter) : Z := len (bw_buf bw) * 8 + bw_bitPos bw.

(** ** The reader *)
Record bitReader := mk_br { br_data : list Z; br_current : Z; br_bitPos : Z; br_bytePos : Z }.

Definition refill (br : bitReader) : res bitReader :=
  let remaining := len (br_data br) - br_bytePos br in
  if 8 <=? remaining then
    w ← get_le 8 (br_data br) (br_bytePos br);
    Ok (mk_br (br_data br) w 0 (br_bytePos br + 8))
  else if 0 <? remaining then
    cur ← foldM (fun cur i =>
            b ← idx (br_data br) (br_bytePos br + i);
            Ok (Z.lor cur (u64 (Z.shiftl b (i * 8))))) 0 (range remaining);
    Ok (mk_br (br_data br) cur 0 (br_bytePos br + remaining))
  else Ok (mk_br (br_data br) 0 0 (br_bytePos br)).

Definition newBitReaderFast (data : list Z) : res bitReader := refill (mk_br data 0 0 0).

Definition readBits (br : bitReader) (n : Z) : res (Z * bitReader) :=
  if n =? 0 then Ok (0, br)
  else if 64 <? br_bitPos br + n then
    let bitsFromCurrent := 64 - br_bitPos br in
    let lowBits := Z.shiftr (br_current br) (br_bitPos br) in
    br ← refill br;
    let bitsFromNext := n - bitsFromCurrent in
    let mask := u64 (u64 (Z.shiftl 1 bitsFromNext) - 1) in
    let highBits := Z.land (br_current br) mask in
    Ok (Z.lor lowBits (u64 (Z.shiftl highBits bitsFromCurrent)),
        mk_br (br_data br) (br_current br) bitsFromNext (br_bytePos br))
  else
    let mask := u64 (u64 (Z.shiftl 1 n) - 1) in
    Ok (Z.land (Z.shiftr (br_current br) (br_bitPos br)) mask,
        mk_br (br_data br) (br_current br) (br_bitPos br + n) (br_bytePos br)).

(** The loop over words, with fuel (each round but the first takes 64 bits). *)
Fixpoint skipLoop (fuel : nat) (br : bitReader) (n : Z) : res bitReader :=
  match fuel with
  | O => Panic
  | S fuel =>
      if n <=? 0 then Ok br
      else
        let available := 64 - br_bitPos br in
        if n <=? available then
          Ok (mk_br (br_data br) (br_current br) (br_bitPos br + n) (br_bytePos br))
        else br ← refill br; skipLoop fuel br (n - available)
  end.

Definition skipBits (br : bitReader) (n : Z) : res bitReader := skipLoop (Z.to_nat n + 2) br n.

(** [bits.TrailingZeros64] *)
Fixpoint pos_trailing_zeros (p : positive) : Z :=
  match p with xO p => 1 + pos_trailing_zeros p | _ => 0 end.

Definition TrailingZeros64 (x : Z) : Z :=
  match x with Z.pos p => pos_trailing_zeros p | _ => 64 end.

Definition grMaxQuotient : Z := 16.

Fixpoint readUnaryLoop (fuel : nat) (br : bitReader) (count : Z) : res (Z * bitReader) :=
  match fuel with
  | O => Panic
  | S fuel =>
      br ← (if 64 <=? br_bitPos br then refill br else Ok br);
      let remaining := Z.shiftr (br_current br) (br_bitPos br) in
      let inverted := Z.lxor remaining (2 ^ 64 - 1) in
      let zeros := TrailingZeros64 inverted in
      let availableBits := 64 - br_bitPos br in
      let moved d := mk_br (br_data br) (br_current br) (br_bitPos br + d) (br_bytePos br) in
      if zeros <? availableBits then
        let newCount := u32 (count + u32 zeros) in
        if grMaxQuotient <=? newCount then Ok (grMaxQuotient, moved (grMaxQuotient - count))
        else Ok (newCount, moved (zeros + 1))
      else
        let oldCount := count in
        let count := u32 (count + u32 availableBits) in
        if grMaxQuotient <=? count then Ok (grMaxQuotient, moved (grMaxQuotient - oldCount))
        else readUnaryLoop fuel (mk_br (br_data br) (br_current br) 64 (br_bytePos br)) count
  end.

Definition readUnaryMax16 (br : bitReader) : res (Z * bitReader) := readUnaryLoop 18 br 0.
