(* ===== verification/BijStream.v ===== *)
(** * What the bit writer and reader do, as arithmetic

    A code is a number and its length in bits. The writer appends codes to the
    number its bytes spell; the reader, at bit [p] of a byte string, returns the
    bits of the number from [p] on. *)
From S2P Require Import Prelude Words BijBits.
#[local] Open Scope Z_scope.

(** ** Bit arithmetic *)
Lemma shiftl_pow a k : 0 <= k -> Z.shiftl a k = a * 2 ^ k.
Proof. apply Z.shiftl_mul_pow2. Qed.

Lemma pow2_le n m : 0 <= n <= m -> 2 ^ n <= 2 ^ m.
Proof. intros. apply Z.pow_le_mono_r; lia. Qed.

Lemma pow2_pos n : 0 <= n -> 0 < 2 ^ n.
Proof. intros. apply Z.pow_pos_nonneg; lia. Qed.

Lemma pow2_add n m : 0 <= n -> 0 <= m -> 2 ^ (n + m) = 2 ^ n * 2 ^ m.
Proof. apply Z.pow_add_r. Qed.

(** The masks of the source: [1<<n - 1] in 64-bit arithmetic. *)
Lemma mask64 n : 0 <= n <= 64 -> u64 (u64 (Z.shiftl 1 n) - 1) = 2 ^ n - 1.
Proof.
  intros Hn. rewrite shiftl_pow, Z.mul_1_l by lia. unfold u64.
  destruct (decide (n = 64)) as [-> | Hne]; [done |].
  assert (2 ^ n < 2 ^ 64) by (apply Z.pow_lt_mono_r; lia). pose proof (pow2_pos n ltac:(lia)).
  rewrite (Z.mod_small (2 ^ n)) by lia. apply Z.mod_small. lia.
Qed.

Lemma land_mask64 v n : 0 <= n <= 64 -> Z.land v (u64 (u64 (Z.shiftl 1 n) - 1)) = v mod 2 ^ n.
Proof. intros. rewrite mask64 by lia. apply land_mask. lia. Qed.

Lemma mod_pow2_bound v n : 0 <= n -> 0 <= v mod 2 ^ n < 2 ^ n.
Proof. intros. apply Z.mod_pos_bound, pow2_pos. done. Qed.

(** Appending [n] bits above [p] bits in a word. *)
Lemma word_append cur v p n :
  0 <= p -> 0 <= n -> p + n <= 64 -> 0 <= cur < 2 ^ p -> 0 <= v < 2 ^ n ->
  Z.lor cur (u64 (Z.shiftl v p)) = cur + v * 2 ^ p /\ 0 <= cur + v * 2 ^ p < 2 ^ (p + n).
Proof.
  intros Hp Hn Hpn Hc Hv. assert (0 <= cur + v * 2 ^ p < 2 ^ (p + n)) as Hb.
  { rewrite pow2_add by lia. pose proof (pow2_pos p Hp). nia. }
  split; [| done]. rewrite u64_id; [by apply lor_shiftl_add |].
  rewrite shiftl_pow by done. pose proof (pow2_le (p + n) 64 ltac:(lia)). unfold is_u. nia.
Qed.

(** ** Codes *)
Definition code : Type := Z * Z.
Definition code_ok (c : code) : Prop := 0 <= c.2 /\ 0 <= c.1 < 2 ^ c.2.
Definition code_cat (c d : code) : code := (c.1 + d.1 * 2 ^ c.2, c.2 + d.2).
Definition code_nil : code := (0, 0).
Definition code_concat (cs : list code) : code := fold_right code_cat code_nil cs.

Lemma code_nil_ok : code_ok code_nil.
Proof. split; simpl; lia. Qed.

Lemma code_cat_ok c d : code_ok c -> code_ok d -> code_ok (code_cat c d).
Proof.
  intros [Hc Hcv] [Hd Hdv]. split; simpl; [lia |]. rewrite pow2_add by lia.
  pose proof (pow2_pos _ Hc). nia.
Qed.

Lemma code_cat_assoc c d e :
  0 <= c.2 -> 0 <= d.2 -> code_cat (code_cat c d) e = code_cat c (code_cat d e).
Proof.
  intros Hc Hd. unfold code_cat. simpl. rewrite pow2_add by lia. f_equal; ring.
Qed.

Lemma code_nil_l c : code_cat code_nil c = c.
Proof. destruct c as [v n]. unfold code_cat. simpl. f_equal; lia. Qed.

Lemma code_nil_r c : code_cat c code_nil = c.
Proof. destruct c as [v n]. unfold code_cat. simpl. f_equal; lia. Qed.

Lemma code_concat_ok cs : Forall code_ok cs -> code_ok (code_concat cs).
Proof. induction 1; simpl; [apply code_nil_ok | by apply code_cat_ok]. Qed.

Lemma code_concat_app cs ds :
  Forall code_ok cs -> Forall code_ok ds -> code_concat (cs ++ ds) = code_cat (code_concat cs) (code_concat ds).
Proof.
  intros Hc Hd. induction Hc as [| c cs H Hcs IH]; simpl; [by rewrite code_nil_l |].
  rewrite IH. symmetry. apply code_cat_assoc; [apply H | by apply code_concat_ok].
Qed.

(** ** The writer *)
Record bw_ok (bw : bitWriter) : Prop := {
  bwo_bytes : Forall is_byte (bw_buf bw);
  bwo_pos : 0 <= bw_bitPos bw < 64;
  bwo_cur : 0 <= bw_current bw < 2 ^ bw_bitPos bw
}.

Definition bw_val (bw : bitWriter) : Z := le_val (bw_buf bw) + bw_current bw * 2 ^ (8 * len (bw_buf bw)).

(** The writer [bw'] is [bw] with the code [c] appended. *)
Definition written (bw : bitWriter) (c : code) (bw' : bitWriter) : Prop :=
  bw_ok bw' /\ (bw_val bw', bitsWritten bw') = code_cat (bw_val bw, bitsWritten bw) c.

Lemma bitsWritten_nonneg bw : bw_ok bw -> 0 <= bitsWritten bw.
Proof. intros [_ ? _]. unfold bitsWritten. pose proof (len_nonneg (bw_buf bw)). lia. Qed.

Lemma bw_val_ok bw : bw_ok bw -> code_ok (bw_val bw, bitsWritten bw).
Proof.
  intros [Hb Hp Hc]. pose proof (len_nonneg (bw_buf bw)) as Hl. split; cbn [fst snd]; unfold bitsWritten, bw_val; [lia |].
  pose proof (le_val_bound _ Hb) as Hv. change (Z.of_nat (length (bw_buf bw))) with (len (bw_buf bw)) in Hv.
  replace (len (bw_buf bw) * 8 + bw_bitPos bw) with (8 * len (bw_buf bw) + bw_bitPos bw) by lia.
  rewrite pow2_add by lia. nia.
Qed.

Lemma written_nil bw : bw_ok bw -> written bw code_nil bw.
Proof. intros. split; [done | by rewrite code_nil_r]. Qed.

Lemma written_trans bw1 c bw2 d bw3 :
  bw_ok bw1 -> code_ok c -> written bw1 c bw2 -> written bw2 d bw3 -> written bw1 (code_cat c d) bw3.
Proof.
  intros H1 Hc [_ H12] [H3 H23]. split; [done |]. rewrite H23, H12.
  apply code_cat_assoc; [by apply bitsWritten_nonneg | apply Hc].
Qed.

Lemma written_ok bw c bw' : written bw c bw' -> bw_ok bw'.
Proof. by intros [? _]. Qed.

Lemma bw_reset_ok bw : bw_ok (bw_reset bw).
Proof. split; simpl; [constructor | lia | lia]. Qed.

(** A word flushed when it is full. *)
Lemma flushWord_ok buf cur :
  Forall is_byte buf -> 0 <= cur < 2 ^ 64 ->
  let bw := flushWord (mk_bw buf cur 64) in
  bw_ok bw /\ bw_val bw = le_val buf + cur * 2 ^ (8 * len buf) /\ bitsWritten bw = len buf * 8 + 64 /\
  bw_current bw = 0 /\ bw_bitPos bw = 0.
Proof.
  intros Hb Hc. cbn. split_and!; [| | | done | done].
  - split; simpl; [| lia | lia]. apply Forall_app. split; [done | apply le_bytes_bytes].
  - unfold bw_val, flushWord. cbn [bw_buf bw_current]. rewrite le_val_app, le_val_bytes.
    change (Z.of_nat (length buf)) with (len buf). rewrite Z.mod_small by exact Hc. lia.
  - unfold bitsWritten. cbn [bw_buf bw_bitPos flushWord]. rewrite len_app, len_le_bytes. lia.
Qed.

Lemma flushIfFull_ok buf cur p :
  Forall is_byte buf -> 0 <= p <= 64 -> 0 <= cur < 2 ^ p ->
  let bw := flushIfFull (mk_bw buf cur p) in
  bw_ok bw /\ bw_val bw = le_val buf + cur * 2 ^ (8 * len buf) /\ bitsWritten bw = len buf * 8 + p.
Proof.
  intros Hb Hp Hc. unfold flushIfFull. cbn [bw_bitPos]. destruct (Z.eqb_spec p 64) as [-> |].
  - destruct (flushWord_ok buf cur Hb Hc) as (? & ? & ? & _). done.
  - split_and!; [| done | done]. split; simpl; [done | lia | done].
Qed.

(** The bits that fit into the current word. *)
Lemma append_in_word bw v n :
  bw_ok bw -> 0 <= n -> bw_bitPos bw + n <= 64 -> 0 <= v < 2 ^ n ->
  written bw (v, n) (flushIfFull (mk_bw (bw_buf bw)
    (Z.lor (bw_current bw) (u64 (Z.shiftl v (bw_bitPos bw)))) (bw_bitPos bw + n))).
Proof.
  intros [Hb Hp Hc] Hn Hpn Hv.
  destruct (word_append (bw_current bw) v (bw_bitPos bw) n) as [-> Hb']; [lia .. | done | done |].
  destruct (flushIfFull_ok (bw_buf bw) (bw_current bw + v * 2 ^ bw_bitPos bw) (bw_bitPos bw + n) Hb) as (H1 & H2 & H3);
    [lia | done |].
  split; [done |]. rewrite H2, H3. unfold code_cat, bw_val, bitsWritten. cbn [fst snd].
  pose proof (len_nonneg (bw_buf bw)).
  replace (len (bw_buf bw) * 8 + bw_bitPos bw) with (8 * len (bw_buf bw) + bw_bitPos bw) by lia.
  rewrite pow2_add by lia. f_equal; [ring | lia].
Qed.

(** Filling the current word and flushing it. *)
Lemma append_full_word bw v :
  bw_ok bw -> 0 <= v < 2 ^ (64 - bw_bitPos bw) ->
  let bw' := flushWord (mk_bw (bw_buf bw) (Z.lor (bw_current bw) (u64 (Z.shiftl v (bw_bitPos bw)))) (bw_bitPos bw)) in
  written bw (v, 64 - bw_bitPos bw) bw' /\ bw_current bw' = 0 /\ bw_bitPos bw' = 0.
Proof.
  intros Hok Hv. pose proof (append_in_word bw v (64 - bw_bitPos bw) Hok) as H.
  destruct Hok as [_ Hp _]. specialize (H ltac:(lia) ltac:(lia) Hv).
  replace (bw_bitPos bw + (64 - bw_bitPos bw)) with 64 in H by lia.
  split; [exact H | done].
Qed.

Lemma fresh_word bw v n :
  bw_ok bw -> bw_current bw = 0 -> bw_bitPos bw = 0 -> 0 <= n < 64 -> 0 <= v < 2 ^ n ->
  written bw (v, n) (mk_bw (bw_buf bw) v n).
Proof.
  intros [Hb Hp Hc] H0 Hp0 Hn Hv. split; [by split |].
  unfold code_cat, bw_val, bitsWritten. cbn [fst snd bw_buf bw_current bw_bitPos]. rewrite H0, Hp0.
  replace (len (bw_buf bw) * 8 + 0) with (8 * len (bw_buf bw)) by lia. f_equal; lia.
Qed.

Lemma writeBit_spec bw bit :
  bw_ok bw -> written bw (if negb (bit =? 0) then 1 else 0, 1) (writeBit bw bit).
Proof.
  intros Hok. unfold writeBit. destruct Hok as [Hb Hp Hc] eqn:?.
  destruct (negb (bit =? 0)).
  - apply append_in_word; [done | lia ..].
  - pose proof (append_in_word bw 0 1 Hok ltac:(lia) ltac:(lia) ltac:(lia)) as H.
    by rewrite Z.shiftl_0_l, Z.lor_0_r in H.
Qed.

Lemma writeBits_spec bw v n :
  bw_ok bw -> 0 <= n <= 64 -> written bw (v mod 2 ^ n, n) (writeBits bw v n).
Proof.
  intros Hok Hn. unfold writeBits. destruct (Z.eqb_spec n 0) as [-> | Hn0].
  { rewrite Z.mod_1_r. by apply written_nil. }
  rewrite land_mask64 by lia. pose proof (mod_pow2_bound v n ltac:(lia)) as Hv. set (x := v mod 2 ^ n) in *.
  destruct (Z.leb_spec (bw_bitPos bw + n) 64); [apply append_in_word; [done | lia | lia | done] |].
  pose proof (bwo_pos _ Hok) as Hp. rewrite land_mask64 by lia. set (k := 64 - bw_bitPos bw).
  destruct (append_full_word bw (x mod 2 ^ k) Hok (mod_pow2_bound x k ltac:(lia))) as (Hw & Hc0 & Hp0).
  replace (x, n) with (code_cat (x mod 2 ^ k, k) (x / 2 ^ k, n - k)).
  2:{ unfold code_cat. cbn [fst snd]. pose proof (Z.div_mod x (2 ^ k) ltac:(pose proof (pow2_pos k); lia)). f_equal; lia. }
  eapply written_trans; [done | | exact Hw |]; [split; cbn [fst snd]; [lia | apply mod_pow2_bound; lia] |].
  rewrite shiftr_div by lia. apply fresh_word; [by eapply written_ok | done | done | lia |].
  split; [apply Z.div_pos; [lia | apply pow2_pos; lia] |].
  apply Z.div_lt_upper_bound; [apply pow2_pos; lia |]. rewrite <- pow2_add by lia.
  replace (k + (n - k)) with n by lia. lia.
Qed.

(** [n] one bits. *)
Lemma onesLoop_spec fuel bw n :
  bw_ok bw -> bw_current bw = 0 -> bw_bitPos bw = 0 -> 0 <= n -> (Z.to_nat n <= fuel)%nat ->
  let '(bw', m) := onesLoop fuel bw n in
  written bw (2 ^ (n - m) - 1, n - m) bw' /\ bw_current bw' = 0 /\ bw_bitPos bw' = 0 /\ 0 <= m < 64 /\ m <= n.
Proof.
  revert bw n. induction fuel as [| fuel IH]; intros bw n Hok Hc Hp Hn Hf; cbn [onesLoop].
  { replace (n - n) with 0 by lia. split_and!; try lia. by apply written_nil. }
  destruct (Z.leb_spec 64 n); [| replace (n - n) with 0 by lia; split_and!; try lia; by apply written_nil].
  rewrite Hp. destruct (append_full_word bw (2 ^ 64 - 1) Hok) as (Hw & Hc' & Hp'); [rewrite Hp; lia |].
  rewrite Hp, Hc, Z.lor_0_l, Z.shiftl_0_r, u64_id in Hw, Hc', Hp' by (unfold_words; lia).
  change (64 - 0) with 64 in Hw.
  specialize (IH _ (n - 64) (written_ok _ _ _ Hw) Hc' Hp' ltac:(lia) ltac:(lia)).
  destruct (onesLoop _ _ _) as [bw' m]. destruct IH as (Hw2 & ? & ? & ? & ?). split_and!; try done; try lia.
  replace (2 ^ (n - m) - 1, n - m) with (code_cat (2 ^ 64 - 1, 64) (2 ^ (n - 64 - m) - 1, n - 64 - m)).
  { eapply written_trans; [done | split; cbn [fst snd]; lia | exact Hw | exact Hw2]. }
  unfold code_cat. cbn [fst snd]. replace (n - m) with (64 + (n - 64 - m)) by lia. rewrite pow2_add by lia. f_equal; lia.
Qed.

Lemma writeOnes_spec bw n : bw_ok bw -> 0 <= n -> written bw (2 ^ n - 1, n) (writeOnes bw n).
Proof.
  intros Hok Hn. unfold writeOnes. destruct (Z.eqb_spec n 0) as [-> |]; [by apply written_nil |].
  pose proof (bwo_pos _ Hok) as Hp.
  destruct (Z.leb_spec (bw_bitPos bw + n) 64).
  { rewrite mask64 by lia. apply append_in_word; [done | lia | lia | pose proof (pow2_pos n); lia]. }
  set (k := 64 - bw_bitPos bw).
  destruct (append_full_word bw (2 ^ k - 1) Hok) as (Hw & Hc & Hb0); [fold k; pose proof (pow2_pos k); lia |].
  assert (u64 (Z.shiftl (2 ^ 64 - 1) (bw_bitPos bw)) = u64 (Z.shiftl (2 ^ k - 1) (bw_bitPos bw))) as He.
  { rewrite !shiftl_pow by lia.
    assert (2 ^ k * 2 ^ bw_bitPos bw = 2 ^ 64) as Hk by (rewrite <- pow2_add by lia; f_equal; lia).
    replace ((2 ^ 64 - 1) * 2 ^ bw_bitPos bw)
      with ((2 ^ k - 1) * 2 ^ bw_bitPos bw + (2 ^ bw_bitPos bw - 1) * 2 ^ 64) by (rewrite <- Hk; ring).
    unfold u64.
    by rewrite Z.mod_add by lia. }
  rewrite He. set (bw1 := flushWord _) in *.
  pose proof (onesLoop_spec (Z.to_nat n) bw1 (n - k) (written_ok _ _ _ Hw) Hc Hb0 ltac:(lia) ltac:(lia)) as HL.
  destruct (onesLoop _ _ _) as [bw2 m]. destruct HL as (Hw2 & Hc2 & Hp2 & Hm & Hmn).
  assert (written bw (2 ^ (n - m) - 1, n - m) bw2) as Hw12.
  { replace (2 ^ (n - m) - 1, n - m) with (code_cat (2 ^ k - 1, k) (2 ^ (n - k - m) - 1, n - k - m)).
    { eapply written_trans; [done | split; cbn [fst snd]; [lia | pose proof (pow2_pos k); lia] | exact Hw | exact Hw2]. }
    unfold code_cat. cbn [fst snd]. replace (n - m) with (k + (n - k - m)) by lia. rewrite (pow2_add k) by lia. f_equal; lia. }
  destruct (Z.ltb_spec 0 m).
  - rewrite mask64 by lia.
    replace (2 ^ n - 1, n) with (code_cat (2 ^ (n - m) - 1, n - m) (2 ^ m - 1, m)).
    { eapply written_trans; [done | split; cbn [fst snd]; [lia | pose proof (pow2_pos (n - m)); lia] | exact Hw12 |].
      apply fresh_word; [by eapply written_ok | done | done | lia | pose proof (pow2_pos m); lia]. }
    unfold code_cat. cbn [fst snd]. replace (2 ^ n) with (2 ^ (n - m + m)) by (f_equal; lia).
    rewrite (pow2_add (n - m)) by lia. f_equal; lia.
  - replace (n - m) with n in Hw12 by lia. done.
Qed.

(** The bytes of a stream: its number, padded with zero bits to full bytes. *)
Lemma flush_spec bw :
  bw_ok bw ->
  let bs := (flush bw).1 in
  Forall is_byte bs /\ le_val bs = bw_val bw /\ len bs = (bitsWritten bw + 7) / 8.
Proof.
  intros [Hb Hp Hc]. unfold flush, bw_val, bitsWritten. destruct (Z.ltb_spec 0 (bw_bitPos bw)); cbn [fst].
  - set (nb := (bw_bitPos bw + 7) / 8). assert (0 <= nb <= 8) as Hnb by (subst nb; Z.div_mod_to_equations; lia).
    assert (take (Z.to_nat nb) (le_bytes 8 (bw_current bw)) = le_bytes (Z.to_nat nb) (bw_current bw)) as ->.
    { replace 8%nat with (Z.to_nat nb + (8 - Z.to_nat nb))%nat by lia. rewrite le_bytes_app.
      rewrite take_app_length'; [done | by rewrite length_le_bytes]. }
    split_and!.
    + apply Forall_app. split; [done | apply le_bytes_bytes].
    + rewrite le_val_app, le_val_bytes, Z.mod_small; [change (Z.of_nat (length (bw_buf bw))) with (len (bw_buf bw)); ring |].
      split; [lia |]. eapply Z.lt_le_trans; [apply Hc |]. apply pow2_le. subst nb. Z.div_mod_to_equations; lia.
    + rewrite len_app, len_le_bytes. pose proof (len_nonneg (bw_buf bw)). subst nb. Z.div_mod_to_equations; lia.
  - assert (bw_bitPos bw = 0) as Hp0 by lia. rewrite Hp0 in *. split_and!; [done | lia |].
    pose proof (len_nonneg (bw_buf bw)). Z.div_mod_to_equations; lia.
Qed.

(** ** The bits of a number *)
Definition bits_at (D p n : Z) : Z := (D / 2 ^ p) mod 2 ^ n.

(** The code [c] is what the number [D] holds from bit [p] on. *)
Definition has_code (D p : Z) (c : code) : Prop := bits_at D p c.2 = c.1.

Lemma bits_at_bound D p n : 0 <= n -> 0 <= bits_at D p n < 2 ^ n.
Proof. intros. by apply mod_pow2_bound. Qed.

Lemma div_pow2_add D p n : 0 <= p -> 0 <= n -> D / 2 ^ (p + n) = D / 2 ^ p / 2 ^ n.
Proof. intros. rewrite pow2_add by lia. rewrite Z.div_div; [done | |]; pose proof (pow2_pos p); pose proof (pow2_pos n); lia. Qed.

Lemma bits_at_add D p n m :
  0 <= p -> 0 <= n -> 0 <= m -> bits_at D p (n + m) = bits_at D p n + 2 ^ n * bits_at D (p + n) m.
Proof.
  intros. unfold bits_at. rewrite div_pow2_add, pow2_add by lia.
  pose proof (pow2_pos n). pose proof (pow2_pos m). apply Z.rem_mul_r; lia.
Qed.

Lemma bits_at_prefix D p n m : 0 <= p -> 0 <= n <= m -> bits_at D p m mod 2 ^ n = bits_at D p n.
Proof.
  intros. replace m with (n + (m - n)) by lia. rewrite bits_at_add by lia.
  rewrite Z.mul_comm, Z.mod_add by (pose proof (pow2_pos n); lia).
  apply Z.mod_small, bits_at_bound. lia.
Qed.

(** Bits of a number that holds [n] bits of another one at bit [w]. *)
Lemma bits_at_shift D w b n m :
  0 <= w -> 0 <= b -> 0 <= m -> b + m <= n -> bits_at (bits_at D w n) b m = bits_at D (w + b) m.
Proof.
  intros. unfold bits_at at 1. replace n with (b + (n - b)) by lia. rewrite bits_at_add by lia.
  rewrite (Z.add_comm (bits_at D w b)), Z.mul_comm, Z.div_add_l by (pose proof (pow2_pos b); lia).
  rewrite (Z.div_small (bits_at D w b)) by (apply bits_at_bound; lia). rewrite Z.add_0_r.
  apply bits_at_prefix; lia.
Qed.

Lemma has_code_cat D p c d :
  0 <= p -> code_ok c -> code_ok d -> has_code D p (code_cat c d) <-> has_code D p c /\ has_code D (p + c.2) d.
Proof.
  intros Hp [Hc Hcv] [Hd Hdv]. unfold has_code, code_cat. cbn [fst snd]. rewrite bits_at_add by lia.
  pose proof (bits_at_bound D p c.2 Hc) as H1. pose proof (bits_at_bound D (p + c.2) d.2 Hd) as H2.
  split; [| intros [-> ->]; lia]. intros H.
  assert (bits_at D (p + c.2) d.2 = d.1) as He; [| split; [rewrite He in H; lia | done]]. nia.
Qed.

(** A number with [c] in its low bits, and anything above. *)
Lemma has_code_prefix c r : code_ok c -> has_code (c.1 + r * 2 ^ c.2) 0 c.
Proof.
  intros [Hc Hv]. unfold has_code, bits_at. rewrite Z.div_1_r, Z.mod_add by (pose proof (pow2_pos c.2); lia).
  by apply Z.mod_small.
Qed.

Lemma bits_at_ones_split D p n m :
  0 <= p -> 0 <= n -> 0 <= m -> bits_at D p n = 2 ^ n - 1 -> bits_at D (p + n) m = 2 ^ m - 1 ->
  bits_at D p (n + m) = 2 ^ (n + m) - 1.
Proof. intros ? ? ? H1 H2. rewrite bits_at_add, H1, H2, pow2_add by lia. ring. Qed.

Lemma ones_mod n m : 0 <= n <= m -> (2 ^ m - 1) mod 2 ^ n = 2 ^ n - 1.
Proof.
  intros. replace m with (n + (m - n)) by lia. rewrite pow2_add by lia. pose proof (pow2_pos n). symmetry.
  apply Z.mod_unique with (2 ^ (m - n) - 1); nia.
Qed.

(** ** Loads *)
Lemma le_val_drop (bs : list Z) (k : nat) :
  Forall is_byte bs -> (k <= length bs)%nat -> le_val (drop k bs) = le_val bs / 2 ^ (8 * Z.of_nat k).
Proof.
  intros Hb Hk. rewrite <- (take_drop k bs) at 2. rewrite le_val_app, length_take_le by done.
  pose proof (le_val_bound (take k bs) ltac:(by apply Forall_take)) as Hv. rewrite length_take_le in Hv by done.
  rewrite (Z.mul_comm (2 ^ _)), Z.div_add by lia. rewrite (Z.div_small (le_val (take k bs))) by done. lia.
Qed.

Lemma le_val_take (bs : list Z) (k : nat) :
  Forall is_byte bs -> (k <= length bs)%nat -> le_val (take k bs) = le_val bs mod 2 ^ (8 * Z.of_nat k).
Proof.
  intros Hb Hk. rewrite <- (take_drop k bs) at 2. rewrite le_val_app, length_take_le by done.
  pose proof (le_val_bound (take k bs) ltac:(by apply Forall_take)) as Hv. rewrite length_take_le in Hv by done.
  rewrite (Z.mul_comm (2 ^ _)), Z.mod_add by lia. by rewrite Z.mod_small.
Qed.

(** [k] bytes at byte [off]. *)
Lemma le_val_window (bs : list Z) (off k : nat) :
  Forall is_byte bs -> (off + k <= length bs)%nat ->
  le_val (take k (drop off bs)) = bits_at (le_val bs) (8 * Z.of_nat off) (8 * Z.of_nat k).
Proof.
  intros Hb Hk. rewrite le_val_take by (try apply Forall_drop; rewrite ?length_drop; done || lia).
  rewrite le_val_drop by (done || lia). done.
Qed.

Lemma get_le_bits n (bs : list Z) off :
  Forall is_byte bs -> 0 <= off -> off + Z.of_nat n <= len bs ->
  get_le n bs off = Ok (bits_at (le_val bs) (8 * off) (8 * Z.of_nat n)).
Proof.
  intros Hb Ho Hl. unfold get_le. rewrite slice_in_range by lia. cbn [mbind res_bind].
  replace (Z.to_nat (off + Z.of_nat n - off)) with n by lia. unfold len in Hl.
  rewrite le_val_window by (done || lia). do 2 f_equal. lia.
Qed.

(** Past the end of the bytes there are zero bits. *)
Lemma bits_at_beyond (bs : list Z) p n :
  Forall is_byte bs -> 8 * len bs <= p -> bits_at (le_val bs) p n = 0.
Proof.
  intros Hb Hp. unfold bits_at. pose proof (le_val_bound bs Hb) as Hv.
  rewrite Z.div_small; [apply Zmod_0_l |]. split; [lia |].
  eapply Z.lt_le_trans; [apply Hv |]. apply pow2_le. unfold len in Hp. lia.
Qed.

(** The tail of the bytes, fewer than eight: a full word of the padded number. *)
Lemma bits_at_tail (bs : list Z) off n :
  Forall is_byte bs -> 0 <= off <= len bs -> 8 * (len bs - off) <= n ->
  bits_at (le_val bs) (8 * off) n = bits_at (le_val bs) (8 * off) (8 * (len bs - off)).
Proof.
  intros Hb Ho Hn. replace n with (8 * (len bs - off) + (n - 8 * (len bs - off))) at 1 by lia.
  rewrite bits_at_add by lia. rewrite (bits_at_beyond _ (8 * off + _)) by (done || lia). lia.
Qed.

(** The byte-wise loads of the source. *)
Lemma byte_loop (bs : list Z) off r :
  Forall is_byte bs -> 0 <= off -> 0 <= r <= 8 -> off + r <= len bs ->
  foldM (fun cur i => b ← idx bs (off + i); Ok (Z.lor cur (u64 (Z.shiftl b (i * 8))))) 0 (range r) =
  Ok (bits_at (le_val bs) (8 * off) (8 * r)).
Proof.
  intros Hb Ho Hr Hl.
  assert (forall k : nat, (Z.of_nat k <= r) ->
    foldM (fun cur i => b ← idx bs (off + i); Ok (Z.lor cur (u64 (Z.shiftl b (i * 8))))) 0 (range (Z.of_nat k)) =
    Ok (bits_at (le_val bs) (8 * off) (8 * Z.of_nat k))) as H; [| specialize (H (Z.to_nat r)); rewrite Z2Nat.id in H by lia; apply H; lia].
  induction k as [| k IH]; intros Hk.
  { unfold bits_at. change (2 ^ (8 * Z.of_nat 0)) with 1. by rewrite Z.mod_1_r. }
  rewrite Nat2Z.inj_succ, <- Z.add_1_r, range_succ, foldM_snoc, IH by lia. cbn [mbind res_bind].
  destruct (idx_in_range bs (off + Z.of_nat k)) as (b & Hlb & ->); [lia |]. cbn [mbind res_bind].
  pose proof (Forall_lookup_1 _ _ _ _ Hb Hlb) as Hbb.
  assert (bits_at (le_val bs) (8 * off + 8 * Z.of_nat k) 8 = b) as Hbit.
  { pose proof (le_val_window bs (Z.to_nat (off + Z.of_nat k)) 1 Hb ltac:(unfold len in *; lia)) as Hw.
    rewrite (drop_S _ b) in Hw by done. cbn [take] in Hw. rewrite le_val_single in Hw. rewrite Hw.
    f_equal. lia. }
  destruct (word_append (bits_at (le_val bs) (8 * off) (8 * Z.of_nat k)) b (8 * Z.of_nat k) 8) as [Ha _];
    [lia | lia | lia | apply bits_at_bound; lia | exact Hbb |].
  rewrite (Z.mul_comm (Z.of_nat k) 8), Ha. f_equal.
  replace (8 * (Z.of_nat k + 1)) with (8 * Z.of_nat k + 8) by lia. rewrite bits_at_add, Hbit by lia. ring.
Qed.

(** ** The reader *)

(** The reader [br] of the bytes [data] stands at bit [p]. *)
Record reads (data : list Z) (p : Z) (br : bitReader) : Prop := {
  rd_data : br_data br = data;
  rd_pos : 0 <= br_bitPos br <= 64;
  rd_word : exists w, 0 <= w /\ p = 64 * w + br_bitPos br /\
    br_bytePos br = Z.min (8 * (w + 1)) (len data) /\ br_current br = bits_at (le_val data) (64 * w) 64
}.

Section reader.
Context (data : list Z) (Hdata : Forall is_byte data).
#[local] Abbreviation D := (le_val data).

Lemma refill_spec br w :
  br_data br = data -> 0 <= w -> br_bytePos br = Z.min (8 * w) (len data) ->
  exists br', refill br = Ok br' /\ reads data (64 * w) br' /\ br_bitPos br' = 0.
Proof using Hdata.
  intros Hd Hw Hb.
  assert (refill br = Ok (mk_br data (bits_at D (64 * w) 64) 0 (Z.min (8 * (w + 1)) (len data)))) as ->.
  2:{ eexists. split; [done |]. split; [| done]. split; [done | simpl; lia |].
      exists w. cbn. split_and!; lia || done. }
  unfold refill. rewrite Hd, Hb. pose proof (len_nonneg data). replace (64 * w) with (8 * (8 * w)) by lia. cbv zeta.
  destruct (Z.leb_spec 8 (len data - Z.min (8 * w) (len data))).
  { replace (Z.min (8 * w) (len data)) with (8 * w) in * by lia.
    rewrite get_le_bits by (done || lia). cbn [mbind res_bind]. do 2 f_equal. lia. }
  destruct (Z.ltb_spec 0 (len data - Z.min (8 * w) (len data))).
  - replace (Z.min (8 * w) (len data)) with (8 * w) in * by lia.
    rewrite byte_loop by (done || lia). cbn [mbind res_bind].
    rewrite <- (bits_at_tail data (8 * w) 64) by (done || lia). do 2 f_equal. lia.
  - rewrite (bits_at_beyond data (8 * (8 * w))) by (done || lia). do 2 f_equal. lia.
Qed.

Lemma newBitReaderFast_spec : exists br, newBitReaderFast data = Ok br /\ reads data 0 br.
Proof using Hdata.
  destruct (refill_spec (mk_br data 0 0 0) 0) as (br & H & Hr & _); [done | lia | cbn; pose proof (len_nonneg data); lia |].
  by exists br.
Qed.

(** Moving on inside the current word. *)
Lemma reads_move p br n :
  reads data p br -> 0 <= n -> br_bitPos br + n <= 64 ->
  reads data (p + n) (mk_br (br_data br) (br_current br) (br_bitPos br + n) (br_bytePos br)).
Proof.
  intros [Hd Hp (w & Hw & -> & Hb & Hc)] Hn Hle. split; cbn; [done | lia |].
  exists w. split_and!; done || lia.
Qed.

(** The next word. *)
Lemma reads_refill p br :
  reads data p br ->
  exists br', refill br = Ok br' /\ reads data (p + (64 - br_bitPos br)) br' /\ br_bitPos br' = 0.
Proof using Hdata.
  intros [Hd Hp (w & Hw & -> & Hb & Hc)]. replace (64 * w + br_bitPos br + (64 - br_bitPos br)) with (64 * (w + 1)) by lia.
  apply refill_spec; [done | lia | done].
Qed.

Lemma reads_bits p br n :
  reads data p br -> 0 <= n -> br_bitPos br + n <= 64 ->
  Z.shiftr (br_current br) (br_bitPos br) mod 2 ^ n = bits_at D p n.
Proof.
  intros [Hd Hp (w & Hw & -> & Hb & Hc)] Hn Hle. rewrite shiftr_div, Hc by lia.
  apply (bits_at_shift D (64 * w) (br_bitPos br) 64 n); lia.
Qed.

(** All the bits left in the current word. *)
Lemma reads_rest p br :
  reads data p br -> Z.shiftr (br_current br) (br_bitPos br) = bits_at D p (64 - br_bitPos br).
Proof.
  intros H. rewrite <- (reads_bits p br) by (done || destruct H; lia).
  destruct H as [Hd Hp (w & Hw & -> & Hb & Hc)]. symmetry. rewrite shiftr_div by lia. apply Z.mod_small.
  pose proof (bits_at_bound D (64 * w) 64 ltac:(lia)) as Hbd. rewrite <- Hc in Hbd.
  split; [apply Z.div_pos; [lia | apply pow2_pos; lia] |].
  apply Z.div_lt_upper_bound; [apply pow2_pos; lia |]. rewrite <- pow2_add by lia.
  replace (br_bitPos br + (64 - br_bitPos br)) with 64 by lia. lia.
Qed.

Lemma readBits_spec p br n :
  reads data p br -> 0 <= p -> 0 <= n <= 64 ->
  exists br', readBits br n = Ok (bits_at D p n, br') /\ reads data (p + n) br'.
Proof using Hdata.
  intros Hr Hp0 Hn. unfold readBits. destruct (Z.eqb_spec n 0) as [-> | Hn0].
  { exists br. split; [| by rewrite Z.add_0_r]. unfold bits_at. by rewrite Z.mod_1_r. }
  pose proof (rd_pos _ _ _ Hr) as Hp.
  destruct (Z.ltb_spec 64 (br_bitPos br + n)).
  - rewrite (reads_rest p br Hr). set (a := 64 - br_bitPos br).
    destruct (reads_refill p br Hr) as (br1 & -> & Hr1 & Hb1). cbn [mbind res_bind]. fold a in Hr1.
    rewrite land_mask64 by lia.
    assert (br_current br1 mod 2 ^ (n - a) = bits_at D (p + a) (n - a)) as Hhi.
    { rewrite <- (reads_bits (p + a) br1) by (done || lia). rewrite Hb1. by rewrite Z.shiftr_0_r. }
    rewrite Hhi.
    destruct (word_append (bits_at D p a) (bits_at D (p + a) (n - a)) a (n - a)) as [-> _];
      [lia .. | apply bits_at_bound; lia | apply bits_at_bound; lia |].
    eexists. split.
    + pose proof (bits_at_add D p a (n - a)) as E. replace (a + (n - a)) with n in E by lia.
      rewrite E by lia. do 2 f_equal. ring.
    + pose proof (reads_move (p + a) br1 (n - a) Hr1 ltac:(lia) ltac:(lia)) as Hm. rewrite Hb1 in Hm.
      replace (p + a + (n - a)) with (p + n) in Hm by lia. by replace (0 + (n - a)) with (n - a) in Hm by lia.
  - rewrite land_mask64 by lia. rewrite (reads_bits p br n Hr) by lia.
    eexists. split; [done |]. apply reads_move; done || lia.
Qed.

Lemma skipLoop_spec fuel p br n :
  reads data p br -> 0 <= n -> (Z.to_nat n + (if decide (br_bitPos br = 64%Z) then 2 else 1) <= fuel)%nat ->
  exists br', skipLoop fuel br n = Ok br' /\ reads data (p + n) br'.
Proof using Hdata.
  revert p br n. induction fuel as [| fuel IH]; intros p br n Hr Hn Hf; [case_decide; lia |].
  cbn [skipLoop]. destruct (Z.leb_spec n 0).
  { exists br. split; [done |]. by replace (p + n) with p by lia. }
  pose proof (rd_pos _ _ _ Hr) as Hp. destruct (Z.leb_spec n (64 - br_bitPos br)).
  { eexists. split; [done |]. apply reads_move; done || lia. }
  destruct (reads_refill p br Hr) as (br1 & -> & Hr1 & Hb1). cbn [mbind res_bind].
  destruct (IH _ br1 (n - (64 - br_bitPos br)) Hr1) as (br2 & -> & Hr2); [lia | |].
  - rewrite decide_False by lia. case_decide; lia.
  - exists br2. split; [done |]. by replace (p + n) with (p + (64 - br_bitPos br) + (n - (64 - br_bitPos br))) by lia.
Qed.

Lemma skipBits_spec p br n :
  reads data p br -> 0 <= n -> exists br', skipBits br n = Ok br' /\ reads data (p + n) br'.
Proof using Hdata. intros. apply skipLoop_spec; [done | done |]. case_decide; lia. Qed.
End reader.

(** ** Unary codes *)
Lemma pos_trailing_zeros_spec q :
  0 <= pos_trailing_zeros q /\ exists m, Z.pos q = 2 ^ pos_trailing_zeros q * (2 * m + 1).
Proof.
  induction q as [q IH | q IH |]; cbn [pos_trailing_zeros].
  - split; [lia |]. exists (Z.pos q). lia.
  - destruct IH as [H (m & Hm)]. split; [lia |]. exists m. rewrite pow2_add by lia. lia.
  - split; [lia |]. by exists 0.
Qed.

(** The trailing zeros of the complement are the trailing ones. *)
Lemma trailing_ones R a :
  0 <= a <= 64 -> 0 <= R < 2 ^ a ->
  let t := TrailingZeros64 (Z.lxor R (2 ^ 64 - 1)) in
  0 <= t /\ ((t < a /\ R mod 2 ^ (t + 1) = 2 ^ t - 1) \/ (a <= t /\ R = 2 ^ a - 1)).
Proof.
  intros Ha HR. assert (R < 2 ^ 64) as HR64 by (pose proof (pow2_le a 64 ltac:(lia)); lia).
  assert (Z.lxor R (2 ^ 64 - 1) = 2 ^ 64 - 1 - R) as ->.
  { rewrite (Z.sub_nocarry_ldiff (2 ^ 64 - 1) R).
    - apply Z.bits_inj'. intros i Hi. rewrite Z.lxor_spec, Z.ldiff_spec.
      replace (2 ^ 64 - 1) with (Z.ones 64) by done. rewrite Z.testbit_ones_nonneg by lia.
      destruct (Z.ltb_spec i 64); [by destruct (Z.testbit R i) |].
      assert (Z.testbit R i = false) as -> by (rewrite <- (Z.mod_small R (2 ^ 64)) by lia; by apply Z.mod_pow2_bits_high; lia).
      done.
    - apply Z.bits_inj'. intros i Hi. rewrite Z.ldiff_spec, Z.bits_0.
      replace (2 ^ 64 - 1) with (Z.ones 64) by done. rewrite Z.testbit_ones_nonneg by lia.
      destruct (Z.ltb_spec i 64); [by rewrite andb_false_r |].
      assert (Z.testbit R i = false) as -> by (rewrite <- (Z.mod_small R (2 ^ 64)) by lia; by apply Z.mod_pow2_bits_high; lia).
      done. }
  cbv zeta. destruct (2 ^ 64 - 1 - R) as [| q | q] eqn:Hq; [| | lia].
  { cbn [TrailingZeros64]. split; [lia |]. right. assert (R = 2 ^ 64 - 1) as -> by lia.
    assert (a = 64) as -> by (assert (~ a < 64); [| lia]; intros H; pose proof (pow2_le a 63 ltac:(lia)); lia). lia. }
  cbn [TrailingZeros64]. destruct (pos_trailing_zeros_spec q) as [Ht (m & Hm)]. set (t := pos_trailing_zeros q) in *.
  split; [done |]. assert (R = 2 ^ 64 - 1 - 2 ^ t * (2 * m + 1)) as HRe by lia.
  destruct (Z.lt_ge_cases t a) as [Hlt | Hge]; [left | right]; split; try done.
  - assert (2 ^ 64 = 2 ^ (t + 1) * 2 ^ (63 - t)) as E by (rewrite <- pow2_add by lia; f_equal; lia).
    rewrite HRe, E, (pow2_add t 1) by lia. symmetry. pose proof (pow2_pos t Ht).
    apply Z.mod_unique with (2 ^ (63 - t) - m - 1); [left; lia | ring].
  - assert (2 ^ 64 = 2 ^ a * 2 ^ (64 - a)) as E by (rewrite <- pow2_add by lia; f_equal; lia).
    assert (2 ^ t = 2 ^ a * 2 ^ (t - a)) as E2 by (rewrite <- pow2_add by lia; f_equal; lia).
    rewrite E, E2 in HRe. pose proof (pow2_pos a ltac:(lia)).
    assert (R = 2 ^ a * (2 ^ (64 - a) - 2 ^ (t - a) * (2 * m + 1)) - 1) as HR2 by (rewrite HRe; ring).
    assert (0 < 2 ^ (64 - a) - 2 ^ (t - a) * (2 * m + 1) <= 1) by nia. nia.
Qed.

(** What a capped unary number at bit [p] is. *)
Definition unary_at (D p q : Z) : Prop :=
  (0 <= q < grMaxQuotient /\ bits_at D p (q + 1) = 2 ^ q - 1) \/
  (q = grMaxQuotient /\ bits_at D p grMaxQuotient = 2 ^ grMaxQuotient - 1).

Definition unary_len (q : Z) : Z := if q <? grMaxQuotient then q + 1 else grMaxQuotient.

Lemma unary_at_unique D p q q' : 0 <= p -> unary_at D p q -> unary_at D p q' -> q = q'.
Proof.
  intros Hp H H'. unfold unary_at, grMaxQuotient in *.
  assert (forall x y, 0 <= x -> x < y -> x + 1 <= y -> bits_at D p (x + 1) = 2 ^ x - 1 -> bits_at D p y = 2 ^ y - 1 -> False) as Hx.
  { intros x y Hx0 Hxy Hle H1 H2. rewrite <- (bits_at_prefix D p (x + 1) y), H2, ones_mod in H1 by lia.
    rewrite pow2_add in H1 by lia. pose proof (pow2_pos x). lia. }
  assert (forall x y, 0 <= x < y -> bits_at D p (x + 1) = 2 ^ x - 1 -> bits_at D p (y + 1) = 2 ^ y - 1 -> False) as Hy.
  { intros x y Hxy H1 H2. apply (Hx x y); try lia; try done.
    rewrite <- (bits_at_prefix D p y (y + 1)), H2 by lia. apply Z.mod_small. pose proof (pow2_pos y). lia. }
  destruct H as [[Hq Hb] | [-> Hb]], H' as [[Hq' Hb'] | [-> Hb']]; [| | | done].
  - destruct (Z.lt_total q q') as [? | [? | ?]]; [| done |]; exfalso; [apply (Hy q q') | apply (Hy q' q)]; done || lia.
  - exfalso. apply (Hx q 16); done || lia.
  - exfalso. apply (Hx q' 16); done || lia.
Qed.

Section unary.
Context (data : list Z) (Hdata : Forall is_byte data).
#[local] Abbreviation D := (le_val data).

Lemma readUnaryLoop_spec fuel p br count :
  reads data (p + count) br -> 0 <= p -> 0 <= count < grMaxQuotient -> bits_at D p count = 2 ^ count - 1 ->
  (Z.to_nat (grMaxQuotient - count) + 1 <= fuel)%nat ->
  exists q br', readUnaryLoop fuel br count = Ok (q, br') /\ unary_at D p q /\ reads data (p + unary_len q) br'.
Proof using Hdata.
  revert br count. induction fuel as [| fuel IH]; intros br count Hr Hp Hc Hones Hf; [lia |].
  cbn [readUnaryLoop].
  assert (exists br1, (if 64 <=? br_bitPos br then refill br else Ok br) = Ok br1 /\
    reads data (p + count) br1 /\ br_bitPos br1 < 64) as (br1 & -> & Hr1 & Hb1).
  { pose proof (rd_pos _ _ _ Hr). destruct (Z.leb_spec 64 (br_bitPos br)); [| by exists br].
    destruct (reads_refill data Hdata _ _ Hr) as (br1 & -> & Hr1 & Hb1). exists br1. split; [done |].
    replace (p + count + (64 - br_bitPos br)) with (p + count) in Hr1 by lia. split; [done | lia]. }
  cbn [mbind res_bind]. rewrite (reads_rest data _ _ Hr1). pose proof (rd_pos _ _ _ Hr1) as Hp1.
  set (a := 64 - br_bitPos br1). set (R := bits_at D (p + count) a).
  destruct (trailing_ones R a ltac:(lia) (bits_at_bound D (p + count) a ltac:(lia))) as [Ht Hcase].
  set (t := TrailingZeros64 _) in *. unfold grMaxQuotient in *.
  assert (forall n, 0 <= n <= t -> n <= a -> bits_at D (p + count) n = 2 ^ n - 1) as Hn.
  { intros n Hn Hna. rewrite <- (bits_at_prefix D (p + count) n a) by lia. fold R.
    destruct Hcase as [[Hta HR] | [Hta ->]]; [| apply ones_mod; lia].
    rewrite <- (Z.mod_mod_divide R (2 ^ (t + 1)) (2 ^ n)); [rewrite HR; apply ones_mod; lia |].
    exists (2 ^ (t + 1 - n)). rewrite <- pow2_add by lia. f_equal. lia. }
  assert (forall n, 0 <= n <= t -> n <= a -> bits_at D p (count + n) = 2 ^ (count + n) - 1) as Hn2.
  { intros n Hn0 Hna. apply bits_at_ones_split; [lia .. | done | by apply Hn]. }
  assert (forall n, 0 <= n <= a -> n = 16 - count -> n <= t ->
    exists q br', Ok (16, mk_br (br_data br1) (br_current br1) (br_bitPos br1 + (16 - count)) (br_bytePos br1)) = Ok (q, br') /\
      unary_at D p q /\ reads data (p + unary_len q) br') as Hfull.
  { intros n Hn0 He Hnt. eexists _, _. split; [done |]. split.
    - right. split; [done |]. unfold grMaxQuotient. replace 16 with (count + n) by lia. apply Hn2; lia.
    - unfold unary_len, grMaxQuotient. cbn. replace (p + 16) with (p + count + (16 - count)) by lia.
      apply reads_move; [done | lia | lia]. }
  destruct (Z.ltb_spec t a).
  - rewrite (u32_id t), u32_id by (unfold_words; lia). destruct (Z.leb_spec 16 (count + t)).
    + apply (Hfull (16 - count)); lia.
    + destruct Hcase as [[_ HR] | [? _]]; [| lia]. eexists _, _. split; [done |]. split.
      * left. split; [unfold grMaxQuotient; lia |]. replace (count + t + 1) with (count + (t + 1)) by lia.
        rewrite bits_at_add, Hones by lia. rewrite <- (bits_at_prefix D (p + count) (t + 1) a) by lia.
        fold R. rewrite HR, (pow2_add count t) by lia. ring.
      * unfold unary_len, grMaxQuotient. destruct (Z.ltb_spec (count + t) 16); [| lia].
        replace (p + (count + t + 1)) with (p + count + (t + 1)) by lia. apply reads_move; [done | lia | lia].
  - rewrite (u32_id a), u32_id by (unfold_words; lia). destruct (Z.leb_spec 16 (count + a)).
    + apply (Hfull (16 - count)); lia.
    + apply IH; [| done | lia | apply Hn2; lia | lia].
      pose proof (reads_move data _ _ a Hr1 ltac:(lia) ltac:(lia)) as Hm.
      replace (br_bitPos br1 + a) with 64 in Hm by lia. by replace (p + (count + a)) with (p + count + a) by lia.
Qed.

Lemma readUnaryMax16_spec p br :
  reads data p br -> 0 <= p ->
  exists q br', readUnaryMax16 br = Ok (q, br') /\ unary_at D p q /\ reads data (p + unary_len q) br'.
Proof using Hdata.
  intros Hr Hp. apply readUnaryLoop_spec; [by rewrite Z.add_0_r | done | unfold grMaxQuotient; lia | | unfold grMaxQuotient; lia].
  unfold bits_at. by rewrite Z.mod_1_r.
Qed.
End unary.
