(* ===== verification/BijEnc.v ===== *)
(** * [internal/bijection/encoding.go]: Elias-Fano counts, Golomb-Rice seeds,
    the fallback list

    The three encoders a block's metadata is made of. Each writes into a buffer
    that is reused from block to block: the model passes the backing array (its
    length is the capacity) and returns the slice the Go function returns
    together with the array it leaves behind. *)
From S2P Require Import Prelude Words BijMix BijBits.
#[local] Open Scope Z_scope.

(** [bits.Len(x)] *)
Definition bits_Len (x : Z) : Z := if x =? 0 then 0 else Z.log2 x + 1.

Definition golombParameterTable : list Z := [0; 0; 1; 2; 3; 4; 5; 7; 8].
Definition compactFallbackEntrySize : Z := 4.
Definition fallbackValidationXOR : Z := 0x55.
Definition maxFallbackEntries : Z := 255.

Record fallbackEntry := mk_fb {
  bucketIndex : Z;  (* uint16 *)
  subBucket : Z;    (* uint8 *)
  fb_seed : Z       (* uint32 *)
}.

#[export] Instance fallbackEntry_eq_dec : EqDecision fallbackEntry.
Proof. solve_decision. Defined.

(** ** Reusing a buffer *)

(** [if cap( *buf) < n { *buf = make([]byte, n) } else { *buf = ( *buf)[:n] }]:
    the slice, and the rest of the backing array. *)
Definition regrow (buf : list Z) (n : Z) : list Z * list Z :=
  if len buf <? n then (make 0 n, []) else (take (Z.to_nat n) buf, drop (Z.to_nat n) buf).

(** ** Elias-Fano *)
Definition computeEFLowBits (n U : Z) : Z :=
  if (U <=? n) || (n =? 0) then 0 else bits_Len (U / n) - 1.

(** The low parts, packed into 64-bit words: one round of the loop. *)
Definition lowStep (lowBits lowMask : Z) '(b, word, wordBitPos, bytePos) (v : Z) : res (list Z * Z * Z * Z) :=
  let lowVal := Z.land v lowMask in
  if wordBitPos + lowBits <=? 64 then
    Ok (b, Z.lor word (u64 (Z.shiftl lowVal wordBitPos)), wordBitPos + lowBits, bytePos)
  else
    let bitsInCurrent := 64 - wordBitPos in
    let word := Z.lor word (u64 (Z.shiftl lowVal wordBitPos)) in
    b ← put_le 8 b bytePos word;
    Ok (b, Z.shiftr lowVal bitsInCurrent, lowBits - bitsInCurrent, bytePos + 8).

Definition writeLowBits (b : list Z) (cumulative : list Z) (lowBits : Z) : res (list Z) :=
  let lowMask := u16 (u16 (Z.shiftl 1 lowBits) - 1) in
  '(b, word, wordBitPos, bytePos) ← foldM (lowStep lowBits lowMask) (b, 0, 0, 0) cumulative;
  if 0 <? wordBitPos then
    let numBytes := (wordBitPos + 7) / 8 in
    store b bytePos (take (Z.to_nat numBytes) (le_bytes 8 word))
  else Ok b.

(** The high parts, a one bit per element after as many zeros as the gap. *)
Definition highStep (lowBits : Z) '(b, bitPos, prevHigh) (v : Z) : res (list Z * Z * Z) :=
  let high := Z.shiftr v lowBits in
  let gap := high - prevHigh in
  let bitPos := bitPos + gap in
  x ← idx b (bitPos / 8);
  b ← upd b (bitPos / 8) (Z.lor x (Z.shiftl 1 (bitPos mod 8)));
  Ok (b, bitPos + 1, high).

Definition writeHighBits (b : list Z) (cumulative : list Z) (lowBits : Z) : res (list Z) :=
  '(b, _, _) ← foldM (highStep lowBits) (b, len cumulative * lowBits, 0) cumulative;
  Ok b.

Definition encodeEliasFanoInto (cumulative : list Z) (U : Z) (buf : list Z) : res (list Z * list Z) :=
  let n := len cumulative in
  if n =? 0 then Ok ([], buf)
  else
    let lowBits := computeEFLowBits n U in
    let highBound := if lowBits <? 16 then Z.shiftr U lowBits else 0 in
    let highBitsSize := n + highBound in
    let lowBitsSize := n * lowBits in
    let totalBits := highBitsSize + lowBitsSize in
    let totalBytes := (totalBits + 7) / 8 in
    let '(b, rest) := regrow buf totalBytes in
    let b := make 0 totalBytes in
    b ← (if 0 <? lowBits then writeLowBits b cumulative lowBits else Ok b);
    b ← writeHighBits b cumulative lowBits;
    Ok (b, b ++ rest).

Definition eliasFanoSize (n U : Z) : Z :=
  if n =? 0 then 0
  else
    let lowBits := computeEFLowBits n U in
    let highBound := if lowBits <? 16 then Z.shiftr U lowBits else 0 in
    let highBitsSize := n + highBound in
    let lowBitsSize := n * lowBits in
    let totalBits := highBitsSize + lowBitsSize in
    (totalBits + 7) / 8.

(** ** Golomb-Rice *)
Definition golombParameter (bucketSize : Z) : res Z :=
  if bucketSize <? len golombParameterTable then idx golombParameterTable bucketSize else Ok 8.

Definition maxEncodableSeed (bucketSize : Z) : res Z :=
  k ← golombParameter bucketSize;
  if k =? 0 then Ok 0 else Ok (u32 (Z.shiftl grMaxQuotient k)).

(** The seed stream encoder is its bit writer. *)
Definition encodeSeed (bw : bitWriter) (seed bucketSize : Z) : res bitWriter :=
  if bucketSize <=? 1 then Ok bw
  else
    k ← golombParameter bucketSize;
    let q := Z.shiftr seed k in
    let r := Z.land seed (u32 (u32 (Z.shiftl 1 k) - 1)) in
    if (grMaxQuotient <=? q) || (8 <? bucketSize) then Ok (writeOnes bw grMaxQuotient)
    else
      let bw := if 0 <? q then writeOnes bw q else bw in
      let bw := writeBit bw 0 in
      Ok (if 0 <? k then writeBits bw r k else bw).

Definition encodeFallbackMarker (bw : bitWriter) : bitWriter := writeOnes bw grMaxQuotient.
Definition encoder_bytes (bw : bitWriter) : list Z * bitWriter := flush bw.
Definition resetEncoder (bw : bitWriter) : bitWriter := bw_reset bw.

(** ** The fallback list *)
Definition packed_entry (blockBits : Z) (e : fallbackEntry) : Z :=
  let seedBits := u32 (31 - blockBits) in
  Z.lor (Z.lor (u32 (Z.shiftl (bucketIndex e) (1 + seedBits)))
               (u32 (Z.shiftl (Z.land (subBucket e) 1) seedBits)))
        (Z.land (fb_seed e) (u32 (u32 (Z.shiftl 1 seedBits) - 1))).

Definition fallbackStep (blockBits : Z) '(b, i) (e : fallbackEntry) : res (list Z * Z) :=
  let packed := packed_entry blockBits e in
  let offset := 1 + i * compactFallbackEntrySize in
  b ← upd b offset (u8 packed);
  b ← upd b (offset + 1) (u8 (Z.shiftr packed 8));
  b ← upd b (offset + 2) (u8 (Z.shiftr packed 16));
  b ← upd b (offset + 3) (u8 (Z.shiftr packed 24));
  Ok (b, i + 1).

Definition encodeFallbackListIntoWithB (entries : list fallbackEntry) (blockBits : Z) (buf : list Z)
    : res (list Z * list Z) :=
  if maxFallbackEntries <? len entries then Panic
  else
    let needed := 2 + len entries * compactFallbackEntrySize in
    let '(b, rest) := regrow buf needed in
    let count := u8 (len entries) in
    b ← upd b 0 count;
    '(b, _) ← foldM (fallbackStep blockBits) (b, 0) entries;
    b ← upd b (len b - 1) (Z.lxor count fallbackValidationXOR);
    Ok (b, b ++ rest).

Definition maxExtendedSeedForB (blockBits : Z) : Z :=
  let seedBits := u32 (31 - blockBits) in u32 (Z.shiftl 1 seedBits).

(** ** Widths *)
Lemma lowBits_nonneg n U : 0 < n -> 0 <= computeEFLowBits n U.
Proof.
  intros Hn. unfold computeEFLowBits. destruct (Z.leb_spec U n); [done |]. destruct (Z.eqb_spec n 0); [lia |]. cbn [orb].
  unfold bits_Len. assert (1 <= U / n) by (apply Z.div_le_lower_bound; lia). destruct (Z.eqb_spec (U / n) 0); [lia |].
  pose proof (Z.log2_nonneg (U / n)). lia.
Qed.
