(* ===== verification/BijSolver.v ===== *)
(** * [internal/bijection/solver.go], [solver_build.go]: seeds for every bucket

    A bucket's seed is the first one that sends its keys to distinct slots; a
    bucket of eight keys or more is split in two halves with a seed each. The
    scratch arrays of the source ([slots], [subBucket0], [subBucket1]) are
    cleared before every trial, so that they are local here. *)
From S2P Require Import Prelude Words BijMix BijBits BijEnc.
#[local] Open Scope Z_scope.

(** [bucketEntry] of builder.go *)
Record bucketEntry := mk_entry {
  e_mix : mixParts;
  payload : Z;     (* uint64 *)
  fingerprint : Z  (* uint32 *)
}.

(** [for seed := range maxSeed { if trial(seed) { return seed } }], where the
    trial may panic. *)
Definition seed_search {R} (maxSeed : Z) (trial : Z -> res (option R)) : res (option R) :=
  match find_first maxSeed (fun seed =>
          match trial seed with
          | Ok None => None
          | Ok (Some r) => Some (Ok r)
          | Err e => Some (Err e)
          | Panic => Some Panic
          end) with
  | None => Ok None
  | Some r => r ≫= (fun r => Ok (Some r))
  end.

(** The pair the solvers return: the seed, and whether none was found. *)
Definition direct_result (r : option Z) : Z * bool :=
  match r with Some seed => (seed, false) | None => (0, true) end.

Definition parts_at (bucket : list bucketEntry) (i : Z) : res mixParts :=
  e ← idx bucket i; Ok (e_mix e).

#[local] Abbreviation same a b := (bool_decide (a = b :> mixParts)).

(** ** The unrolled solvers *)
Definition solveBucket2 (bucket : list bucketEntry) (maxSeed : Z) : res (Z * bool) :=
  p0 ← parts_at bucket 0; p1 ← parts_at bucket 1;
  if same p0 p1 then Ok (0, true)
  else Ok (direct_result (find_first maxSeed (fun seed =>
    let s0 := mixFromParts p0 seed 2 in
    let s1 := mixFromParts p1 seed 2 in
    if negb (s0 =? s1) then Some seed else None))).

Definition solveBucket3 (bucket : list bucketEntry) (maxSeed : Z) : res (Z * bool) :=
  p0 ← parts_at bucket 0; p1 ← parts_at bucket 1; p2 ← parts_at bucket 2;
  if same p0 p1 || same p0 p2 || same p1 p2 then Ok (0, true)
  else Ok (direct_result (find_first maxSeed (fun seed =>
    let s0 := mixFromParts p0 seed 3 in
    let s1 := mixFromParts p1 seed 3 in
    if s0 =? s1 then None
    else
    let s2 := mixFromParts p2 seed 3 in
    if negb (s2 =? s0) && negb (s2 =? s1) then Some seed else None))).

Definition solveBucket4 (bucket : list bucketEntry) (maxSeed : Z) : res (Z * bool) :=
  p0 ← parts_at bucket 0; p1 ← parts_at bucket 1; p2 ← parts_at bucket 2; p3 ← parts_at bucket 3;
  if same p0 p1 || same p0 p2 || same p0 p3 || same p1 p2 || same p1 p3 || same p2 p3
  then Ok (0, true)
  else Ok (direct_result (find_first maxSeed (fun seed =>
    let s0 := mixFromParts p0 seed 4 in
    let s1 := mixFromParts p1 seed 4 in
    if s0 =? s1 then None
    else
    let s2 := mixFromParts p2 seed 4 in
    if (s2 =? s0) || (s2 =? s1) then None
    else
    let s3 := mixFromParts p3 seed 4 in
    if negb (s3 =? s0) && negb (s3 =? s1) && negb (s3 =? s2) then Some seed else None))).

Definition solveBucket5 (bucket : list bucketEntry) (maxSeed : Z) : res (Z * bool) :=
  p0 ← parts_at bucket 0; p1 ← parts_at bucket 1; p2 ← parts_at bucket 2; p3 ← parts_at bucket 3;
  p4 ← parts_at bucket 4;
  if same p0 p1 || same p0 p2 || same p0 p3 || same p0 p4 ||
     same p1 p2 || same p1 p3 || same p1 p4 ||
     same p2 p3 || same p2 p4 ||
     same p3 p4
  then Ok (0, true)
  else Ok (direct_result (find_first maxSeed (fun seed =>
    let s0 := mixFromParts p0 seed 5 in
    let s1 := mixFromParts p1 seed 5 in
    if s0 =? s1 then None
    else
    let s2 := mixFromParts p2 seed 5 in
    if (s2 =? s0) || (s2 =? s1) then None
    else
    let s3 := mixFromParts p3 seed 5 in
    if (s3 =? s0) || (s3 =? s1) || (s3 =? s2) then None
    else
    let s4 := mixFromParts p4 seed 5 in
    if negb (s4 =? s0) && negb (s4 =? s1) && negb (s4 =? s2) && negb (s4 =? s3)
    then Some seed else None))).

Definition solveBucket6 (bucket : list bucketEntry) (maxSeed : Z) : res (Z * bool) :=
  p0 ← parts_at bucket 0; p1 ← parts_at bucket 1; p2 ← parts_at bucket 2; p3 ← parts_at bucket 3;
  p4 ← parts_at bucket 4; p5 ← parts_at bucket 5;
  if same p0 p1 || same p0 p2 || same p0 p3 || same p0 p4 || same p0 p5 ||
     same p1 p2 || same p1 p3 || same p1 p4 || same p1 p5 ||
     same p2 p3 || same p2 p4 || same p2 p5 ||
     same p3 p4 || same p3 p5 ||
     same p4 p5
  then Ok (0, true)
  else Ok (direct_result (find_first maxSeed (fun seed =>
    let s0 := mixFromParts p0 seed 6 in
    let s1 := mixFromParts p1 seed 6 in
    if s0 =? s1 then None
    else
    let s2 := mixFromParts p2 seed 6 in
    if (s2 =? s0) || (s2 =? s1) then None
    else
    let s3 := mixFromParts p3 seed 6 in
    if (s3 =? s0) || (s3 =? s1) || (s3 =? s2) then None
    else
    let s4 := mixFromParts p4 seed 6 in
    if (s4 =? s0) || (s4 =? s1) || (s4 =? s2) || (s4 =? s3) then None
    else
    let s5 := mixFromParts p5 seed 6 in
    if negb (s5 =? s0) && negb (s5 =? s1) && negb (s5 =? s2) && negb (s5 =? s3) && negb (s5 =? s4)
    then Some seed else None))).

(** [occupied&(1<<s) != 0] and [occupied |= 1 << s] on a [w]-bit mask. *)
Definition mask_has (w occupied s : Z) : bool :=
  negb (Z.land occupied ((Z.shiftl 1 s) mod 2 ^ w) =? 0).
Definition mask_add (w occupied s : Z) : Z := Z.lor occupied ((Z.shiftl 1 s) mod 2 ^ w).

Definition solveBucket7 (bucket : list bucketEntry) (maxSeed : Z) : res (Z * bool) :=
  p0 ← parts_at bucket 0; p1 ← parts_at bucket 1; p2 ← parts_at bucket 2; p3 ← parts_at bucket 3;
  p4 ← parts_at bucket 4; p5 ← parts_at bucket 5; p6 ← parts_at bucket 6;
  Ok (direct_result (find_first maxSeed (fun seed =>
    let occupied := 0 in
    let s0 := mixFromParts p0 seed 7 in
    let occupied := mask_add 8 occupied s0 in
    let s1 := mixFromParts p1 seed 7 in
    if mask_has 8 occupied s1 then None
    else
    let occupied := mask_add 8 occupied s1 in
    let s2 := mixFromParts p2 seed 7 in
    if mask_has 8 occupied s2 then None
    else
    let occupied := mask_add 8 occupied s2 in
    let s3 := mixFromParts p3 seed 7 in
    if mask_has 8 occupied s3 then None
    else
    let occupied := mask_add 8 occupied s3 in
    let s4 := mixFromParts p4 seed 7 in
    if mask_has 8 occupied s4 then None
    else
    let occupied := mask_add 8 occupied s4 in
    let s5 := mixFromParts p5 seed 7 in
    if mask_has 8 occupied s5 then None
    else
    let occupied := mask_add 8 occupied s5 in
    let s6 := mixFromParts p6 seed 7 in
    if negb (mask_has 8 occupied s6) then Some seed else None))).

Definition solveBucket8 (bucket : list bucketEntry) (maxSeed : Z) : res (Z * bool) :=
  p0 ← parts_at bucket 0; p1 ← parts_at bucket 1; p2 ← parts_at bucket 2; p3 ← parts_at bucket 3;
  p4 ← parts_at bucket 4; p5 ← parts_at bucket 5; p6 ← parts_at bucket 6; p7 ← parts_at bucket 7;
  Ok (direct_result (find_first maxSeed (fun seed =>
    let occupied := 0 in
    let s0 := mixFromParts p0 seed 8 in
    let occupied := mask_add 8 occupied s0 in
    let s1 := mixFromParts p1 seed 8 in
    if mask_has 8 occupied s1 then None
    else
    let occupied := mask_add 8 occupied s1 in
    let s2 := mixFromParts p2 seed 8 in
    if mask_has 8 occupied s2 then None
    else
    let occupied := mask_add 8 occupied s2 in
    let s3 := mixFromParts p3 seed 8 in
    if mask_has 8 occupied s3 then None
    else
    let occupied := mask_add 8 occupied s3 in
    let s4 := mixFromParts p4 seed 8 in
    if mask_has 8 occupied s4 then None
    else
    let occupied := mask_add 8 occupied s4 in
    let s5 := mixFromParts p5 seed 8 in
    if mask_has 8 occupied s5 then None
    else
    let occupied := mask_add 8 occupied s5 in
    let s6 := mixFromParts p6 seed 8 in
    if mask_has 8 occupied s6 then None
    else
    let occupied := mask_add 8 occupied s6 in
    let s7 := mixFromParts p7 seed 8 in
    if negb (mask_has 8 occupied s7) then Some seed else None))).

(** ** The general solvers *)

(** One trial with a 64-bit mask of the slots taken so far. *)
Definition maskStep (bucketSize seed occupied : Z) (entry : bucketEntry) : res (Z + unit) :=
  let slot := mixFromParts (e_mix entry) seed bucketSize in
  if mask_has 64 occupied slot then Ok (inr tt) else Ok (inl (mask_add 64 occupied slot)).

Definition mask_trial (bucket : list bucketEntry) (bucketSize seed : Z) : res (option Z) :=
  r ← foldB (maskStep bucketSize seed) 0 bucket;
  Ok (match r with inl _ => Some seed | inr _ => None end).

(** One trial with a cleared array of [size] booleans. *)
Definition arrayStep (bucketSize seed : Z) (slots : list bool) (entry : bucketEntry) : res (list bool + unit) :=
  let slot := mixFromParts (e_mix entry) seed bucketSize in
  taken ← idx slots slot;
  if taken : bool then Ok (inr tt) else slots ← upd slots slot true; Ok (inl slots).

Definition array_trial (bucket : list bucketEntry) (size bucketSize seed : Z) : res (option Z) :=
  r ← foldB (arrayStep bucketSize seed) (make false size) bucket;
  Ok (match r with inl _ => Some seed | inr _ => None end).

Definition solveBucketBitmask (bucket : list bucketEntry) (size maxSeed : Z) : res (Z * bool) :=
  r ← seed_search maxSeed (mask_trial bucket (u32 size)); Ok (direct_result r).

Definition solveDirectBucketArray (bucket : list bucketEntry) (size maxSeed : Z) : res (Z * bool) :=
  r ← seed_search maxSeed (array_trial bucket size (u32 size)); Ok (direct_result r).

Definition solveDirectBucket (bucket : list bucketEntry) (size : Z) : res (Z * bool) :=
  if size <=? 1 then Ok (0, false)
  else
    maxSeed ← maxEncodableSeed size;
    if size =? 2 then solveBucket2 bucket maxSeed
    else if size =? 3 then solveBucket3 bucket maxSeed
    else if size =? 4 then solveBucket4 bucket maxSeed
    else if size =? 5 then solveBucket5 bucket maxSeed
    else if size =? 6 then solveBucket6 bucket maxSeed
    else if size =? 7 then solveBucket7 bucket maxSeed
    else if size =? 8 then solveBucket8 bucket maxSeed
    else if size <=? 64 then solveBucketBitmask bucket size maxSeed
    else solveDirectBucketArray bucket size maxSeed.

(** ** The extended search *)
Definition hasDuplicateMixParts (bucket : list bucketEntry) : res bool :=
  r ← foldB (fun (_ : unit) i =>
        r ← foldB (fun (_ : unit) j =>
              a ← parts_at bucket i; b ← parts_at bucket j;
              if same a b then Ok (inr tt) else Ok (inl tt))
            tt (seqZ (i + 1) (len bucket - (i + 1)));
        Ok r) tt (range (len bucket - 1));
  Ok (match r with inl _ => false | inr _ => true end).

Definition solveExtendedBitmask (bucket : list bucketEntry) (size : Z) : res Z :=
  let maxExtendedSeed := maxExtendedSeedForB blockBits in
  r ← seed_search maxExtendedSeed (mask_trial bucket (u32 size));
  match r with Some seed => Ok seed | None => Err ErrIndistinguishableHashes end.

Definition solveExtendedArray (bucket : list bucketEntry) (size : Z) : res Z :=
  let maxExtendedSeed := maxExtendedSeedForB blockBits in
  r ← seed_search maxExtendedSeed (array_trial bucket size (u32 size));
  match r with Some seed => Ok seed | None => Err ErrIndistinguishableHashes end.

Definition solveExtended (bucket : list bucketEntry) (size : Z) : res Z :=
  if size <=? 1 then Ok 0
  else
    prefix ← slice bucket 0 size;
    dup ← hasDuplicateMixParts prefix;
    if dup : bool then Err ErrDuplicateKey
    else if size <=? 64 then solveExtendedBitmask bucket size
    else solveExtendedArray bucket size.

(** ** Split buckets *)
Definition splitBucketMaxSeed : Z := Z.shiftl 1 20.

(** One trial: the seed must send exactly [splitPoint] keys below [splitPoint],
    to distinct values; the keys of the second half are returned. *)
Definition splitStep (bucketSize splitPoint seed : Z) '(slots, sub0, sub1) (entry : bucketEntry)
    : res (list bool * list bucketEntry * list bucketEntry + unit) :=
  let h := mixFromParts (e_mix entry) seed (u32 bucketSize) in
  if h <? u32 splitPoint then
    taken ← idx slots h;
    if taken : bool then Ok (inr tt)
    else slots ← upd slots h true; Ok (inl (slots, sub0 ++ [entry], sub1))
  else Ok (inl (slots, sub0, sub1 ++ [entry])).

Definition split_trial (bucket : list bucketEntry) (bucketSize splitPoint seed : Z)
    : res (option (Z * list bucketEntry)) :=
  r ← foldB (splitStep bucketSize splitPoint seed) (make false splitPoint, [], []) bucket;
  Ok (match r with
      | inl (_, sub0, sub1) => if len sub0 =? splitPoint then Some (seed, sub1) else None
      | inr _ => None
      end).

(** The fallback list so far comes back with the seeds or the error. *)
Definition solveSplitBucket (fallbackList : list fallbackEntry) (bucketIdx : Z) (bucket : list bucketEntry)
    : res (list fallbackEntry * (Z * Z + error)) :=
  let bucketSize := len bucket in
  let splitPoint := bucketSize / 2 in
  found ← seed_search splitBucketMaxSeed (split_trial bucket bucketSize splitPoint);
  match found with
  | None =>
      dup ← hasDuplicateMixParts bucket;
      Ok (fallbackList, inr (if dup : bool then ErrDuplicateKey else ErrSplitBucketSeedSearchFailed))
  | Some (seed0, subBucket1) =>
      m ← maxEncodableSeed splitPoint;
      let '(fallbackList, seed0) :=
        if (8 <? splitPoint) || (m <=? seed0)
        then (fallbackList ++ [mk_fb (u16 bucketIdx) 0 seed0], fallbackMarker)
        else (fallbackList, seed0) in
      let size1 := len subBucket1 in
      if 2 <=? size1 then
        '(seed1, needsFallback) ← (if 8 <? size1 then Ok (0, true) else solveDirectBucket subBucket1 size1);
        if needsFallback : bool then
          match solveExtended subBucket1 size1 with
          | Ok seed1 =>
              Ok (fallbackList ++ [mk_fb (u16 bucketIdx) 1 seed1], inl (seed0, fallbackMarker))
          | Err e => Ok (fallbackList, inr e)
          | Panic => Panic
          end
        else Ok (fallbackList, inl (seed0, seed1))
      else Ok (fallbackList, inl (seed0, 0))
  end.

(** ** All buckets

    The fields of the builder that [solveBijections] fills. *)
Record solution := mk_sol {
  seeds : list Z;          (* []uint32 *)
  splitSeeds : list Z;     (* []uint32, in pairs *)
  splitSeedIdx : list Z;   (* []int *)
  fallbackList : list fallbackEntry
}.

Definition solve_step (buckets : list (list bucketEntry)) (s : solution) (bucketIdx : Z)
    : res (solution + solution * error) :=
  bucket ← idx buckets bucketIdx;
  let size := len bucket in
  if size <=? 1 then
    sd ← upd (seeds s) bucketIdx 0;
    Ok (inl (mk_sol sd (splitSeeds s) (splitSeedIdx s) (fallbackList s)))
  else if splitThreshold <=? size then
    '(fl, r) ← solveSplitBucket (fallbackList s) bucketIdx bucket;
    match r with
    | inr e => Ok (inr (mk_sol (seeds s) (splitSeeds s) (splitSeedIdx s) fl, e))
    | inl (seed0, seed1) =>
        ix ← upd (splitSeedIdx s) bucketIdx (len (splitSeeds s));
        Ok (inl (mk_sol (seeds s) (splitSeeds s ++ [seed0; seed1]) ix fl))
    end
  else
    '(seed, needsFallback) ← solveDirectBucket bucket size;
    if needsFallback : bool then
      match solveExtended bucket size with
      | Err e => Ok (inr (s, e))
      | Panic => Panic
      | Ok seed =>
          let fl := fallbackList s ++ [mk_fb (u16 bucketIdx) 0 seed] in
          sd ← upd (seeds s) bucketIdx fallbackMarker;
          Ok (inl (mk_sol sd (splitSeeds s) (splitSeedIdx s) fl))
      end
    else
      sd ← upd (seeds s) bucketIdx seed;
      Ok (inl (mk_sol sd (splitSeeds s) (splitSeedIdx s) (fallbackList s))).

Definition solveBijections (buckets : list (list bucketEntry)) (s : solution)
    : res (solution * option error) :=
  let s := mk_sol (seeds s) [] (map (fun _ => -1) (splitSeedIdx s)) [] in
  r ← foldB (solve_step buckets) s (range (len buckets));
  Ok (match r with inl s => (s, None) | inr (s, e) => (s, Some e) end).
