(* ===== verification/BijBuilder.v ===== *)
(** * [internal/bijection/builder.go]: building a block

    The builder groups the keys of a block by bucket, solves the buckets and
    writes checkpoints, Elias-Fano counts, seed stream and fallback list into
    the metadata buffer and the entries into the payload buffer. *)
From S2P Require Import Prelude Words Bits Floats Encoding Entries BijMix BijBits BijEnc BijSolver.
#[local] Open Scope Z_scope.

(** ** Checkpoints *)
Record checkpoints := mk_cp {
  efBitPos : list Z;   (* [numCheckpoints]uint16 *)
  seedBitPos : list Z  (* [numCheckpoints]uint16 *)
}.

Definition zero_checkpoints : checkpoints := mk_cp (make 0 numCheckpoints) (make 0 numCheckpoints).

(** [for i := range numCheckpoints { PutUint16(buf[off+i*2:], vs[i]) }] *)
Definition put_u16s (buf : list Z) (off : Z) (vs : list Z) : res (list Z) :=
  foldM (fun buf i => v ← idx vs i; put_le 2 buf (off + i * 2) v) buf (range numCheckpoints).

Definition checkpoints_encode (cp : checkpoints) (buf : list Z) : res (list Z) :=
  buf ← put_u16s buf 0 (efBitPos cp);
  put_u16s buf (numCheckpoints * 2) (seedBitPos cp).

(** ** The builder *)
Record Builder := mk_Builder {
  b_numBlocks : Z;        (* uint32 *)
  b_globalSeed : Z;       (* uint64 *)
  payloadSize : Z;
  fingerprintSize : Z;
  b_buckets : list (list bucketEntry);
  maxKeysPerBlock : Z;
  bucketSizes : list Z;
  cumulative : list Z;    (* []uint16 *)
  b_solution : solution;  (* seeds, splitSeeds, splitSeedIdx, fallbackList *)
  keysInBlock : Z;
  seedEncoder : bitWriter;
  efBuffer : list Z;      (* backing array *)
  fallbackBuffer : list Z (* backing array *)
}.

Definition set_counts (sizes cumul : list Z) (b : Builder) : Builder :=
  mk_Builder (b_numBlocks b) (b_globalSeed b) (payloadSize b) (fingerprintSize b) (b_buckets b)
    (maxKeysPerBlock b) sizes cumul (b_solution b) (keysInBlock b) (seedEncoder b) (efBuffer b) (fallbackBuffer b).
Definition set_solution (s : solution) (b : Builder) : Builder :=
  mk_Builder (b_numBlocks b) (b_globalSeed b) (payloadSize b) (fingerprintSize b) (b_buckets b)
    (maxKeysPerBlock b) (bucketSizes b) (cumulative b) s (keysInBlock b) (seedEncoder b) (efBuffer b) (fallbackBuffer b).
Definition set_seedEncoder (e : bitWriter) (b : Builder) : Builder :=
  mk_Builder (b_numBlocks b) (b_globalSeed b) (payloadSize b) (fingerprintSize b) (b_buckets b)
    (maxKeysPerBlock b) (bucketSizes b) (cumulative b) (b_solution b) (keysInBlock b) e (efBuffer b) (fallbackBuffer b).
Definition set_efBuffer (v : list Z) (b : Builder) : Builder :=
  mk_Builder (b_numBlocks b) (b_globalSeed b) (payloadSize b) (fingerprintSize b) (b_buckets b)
    (maxKeysPerBlock b) (bucketSizes b) (cumulative b) (b_solution b) (keysInBlock b) (seedEncoder b) v (fallbackBuffer b).
Definition set_fallbackBuffer (v : list Z) (b : Builder) : Builder :=
  mk_Builder (b_numBlocks b) (b_globalSeed b) (payloadSize b) (fingerprintSize b) (b_buckets b)
    (maxKeysPerBlock b) (bucketSizes b) (cumulative b) (b_solution b) (keysInBlock b) (seedEncoder b) (efBuffer b) v.

Definition NewBuilder (totalKeys globalSeed payloadSize fingerprintSize : Z) : Builder :=
  let nb := numBlocks totalKeys in
  let expectedAvg := fdiv (float64 totalKeys) (float64 nb) in
  let sigma := fsqrt expectedAvg in
  let maxKeys := trunc_int (fadd expectedAvg (fmul (float64 blockOverflowSigmas) sigma)) in
  mk_Builder nb globalSeed payloadSize fingerprintSize (replicate (Z.to_nat bucketsPerBlock) [])
    maxKeys (make 0 bucketsPerBlock) (make 0 bucketsPerBlock)
    (mk_sol (make 0 bucketsPerBlock) [] (make 0 bucketsPerBlock) []) 0 newBitWriterBuffer [] [].

Definition entrySize (b : Builder) : Z := payloadSize b + fingerprintSize b.

Definition AddKey (b : Builder) (k0 k1 payload fingerprint : Z) : res Builder :=
  let mp := mk_mix (Z.lxor k0 (b_globalSeed b)) (Z.lxor k1 (b_globalSeed b)) in
  let localBucketIdx := FastRange32 k0 bucketsPerBlock in
  bucket ← idx (b_buckets b) localBucketIdx;
  bs ← upd (b_buckets b) localBucketIdx (bucket ++ [mk_entry mp payload fingerprint]);
  Ok (mk_Builder (b_numBlocks b) (b_globalSeed b) (BijBuilder.payloadSize b) (fingerprintSize b) bs
        (maxKeysPerBlock b) (bucketSizes b) (cumulative b) (b_solution b) (keysInBlock b + 1)
        (seedEncoder b) (efBuffer b) (fallbackBuffer b)).

Definition KeysAdded (b : Builder) : Z := keysInBlock b.

Definition Reset (b : Builder) : Builder :=
  mk_Builder (b_numBlocks b) (b_globalSeed b) (payloadSize b) (fingerprintSize b)
    (map (fun _ => []) (b_buckets b)) (maxKeysPerBlock b)
    (map (fun _ => 0) (bucketSizes b)) (map (fun _ => 0) (cumulative b))
    (mk_sol (map (fun _ => 0) (seeds (b_solution b))) [] (map (fun _ => -1) (splitSeedIdx (b_solution b))) [])
    0 (seedEncoder b) (efBuffer b) (fallbackBuffer b).

Definition NumBlocks (b : Builder) : Z := b_numBlocks b.
Definition GlobalConfigSize (b : Builder) : Z := 0.
Definition EncodeGlobalConfigInto (b : Builder) (dst : list Z) : Z := 0.
Definition MaxIndexMetadataSize (b : Builder) : Z := estimateMetadataSize (maxKeysPerBlock b).
Definition MaxMetadataSizeForCurrentBlock (b : Builder) : Z := estimateMetadataSize (keysInBlock b).

(** ** Counting *)
Definition countStep (buckets : list (list bucketEntry)) '(sizes, cumul, c) (i : Z) : res (list Z * list Z * Z) :=
  bucket ← idx buckets i;
  sizes ← upd sizes i (len bucket);
  let c := u16 (c + u16 (len bucket)) in
  cumul ← upd cumul i c;
  Ok (sizes, cumul, c).

Definition computeCumulativeCounts (b : Builder) : res Builder :=
  '(sizes, cumul, _) ← foldM (countStep (b_buckets b)) (bucketSizes b, cumulative b, 0) (range (len (b_buckets b)));
  Ok (set_counts sizes cumul b).

(** ** Checkpointed encoders *)
Definition efStep (b : Builder) (numBuckets lowBits : Z) (ef : list Z) (checkpointIdx : Z) : res (list Z + list Z) :=
  let bucketIdx := (checkpointIdx + 1) * checkpointInterval in
  if numBuckets <? bucketIdx then Ok (inr ef)
  else
    prevCumulative ← idx (cumulative b) (bucketIdx - 1);
    let highPart := if lowBits <? 16 then Z.shiftr prevCumulative lowBits else 0 in
    let bitPos := bucketIdx + highPart in
    if 0xFFFF <? bitPos then Err ErrOther
    else ef ← upd ef checkpointIdx (u16 bitPos); Ok (inl ef).

Definition encodeEFWithCheckpoints (b : Builder) (cp : checkpoints) (numBuckets : Z)
    : res (list Z * checkpoints * Builder) :=
  '(efData, buf) ← encodeEliasFanoInto (cumulative b) (u32 (keysInBlock b)) (efBuffer b);
  let b := set_efBuffer buf b in
  let lowBits := computeEFLowBits numBuckets (keysInBlock b) in
  r ← foldB (efStep b numBuckets lowBits) (efBitPos cp) (range numCheckpoints);
  Ok (efData, mk_cp (match r with inl ef => ef | inr ef => ef end) (seedBitPos cp), b).

(** A seed or its marker, as both kinds of buckets write it. *)
Definition encode_or_mark (bw : bitWriter) (seed size : Z) : res bitWriter :=
  if seed =? fallbackMarker then Ok (encodeFallbackMarker bw) else encodeSeed bw seed size.

(** The checkpoint at the start of every segment but the first. *)
Definition seedCheckpoint (bw : bitWriter) (sp : list Z) (bucketIdx : Z) : res (list Z) :=
  if (0 <? bucketIdx) && (bucketIdx mod checkpointInterval =? 0) then
    let checkpointIdx := bucketIdx / checkpointInterval - 1 in
    if checkpointIdx <? numCheckpoints then
      let pos := bitsWritten bw in
      if 0xFFFF <? pos then Err ErrOther else upd sp checkpointIdx (u16 pos)
    else Ok sp
  else Ok sp.

Definition seedStep (b : Builder) '(bw, sp) (bucketIdx : Z) : res (bitWriter * list Z) :=
  sp ← seedCheckpoint bw sp bucketIdx;
  bucketSize ← idx (bucketSizes b) bucketIdx;
  if bucketSize <=? 1 then Ok (bw, sp)
  else if splitThreshold <=? bucketSize then
    let splitPoint := bucketSize / 2 in
    let secondHalfSize := bucketSize - splitPoint in
    seedIdx ← idx (splitSeedIdx (b_solution b)) bucketIdx;
    seed0 ← idx (splitSeeds (b_solution b)) seedIdx;
    seed1 ← idx (splitSeeds (b_solution b)) (seedIdx + 1);
    bw ← encode_or_mark bw seed0 splitPoint;
    bw ← encode_or_mark bw seed1 secondHalfSize;
    Ok (bw, sp)
  else
    seed ← idx (seeds (b_solution b)) bucketIdx;
    bw ← encode_or_mark bw seed bucketSize;
    Ok (bw, sp).

Definition encodeSeedsWithCheckpoints (b : Builder) (cp : checkpoints) (numBuckets : Z)
    : res (checkpoints * Builder) :=
  '(bw, sp) ← foldM (seedStep b) (seedEncoder b, seedBitPos cp) (range numBuckets);
  Ok (mk_cp (efBitPos cp) sp, set_seedEncoder bw b).

(** [copy(dst[off:], src)] *)
Definition copy_at (dst : list Z) (off : Z) (src : list Z) : res (list Z) :=
  tail ← slice dst off (len dst);
  store dst off (take (Z.to_nat (Z.min (len tail) (len src))) src).

Definition encodeSeparatedMetadataInto (b : Builder) (dst : list Z)
    : res (Builder * list Z * (Z + error)) :=
  match encodeEFWithCheckpoints b zero_checkpoints bucketsPerBlock with
  | Panic => Panic
  | Err e => Ok (b, dst, inr e)
  | Ok (efData, cp, b) =>
      let b := set_seedEncoder (resetEncoder (seedEncoder b)) b in
      match encodeSeedsWithCheckpoints b cp bucketsPerBlock with
      | Panic => Panic
      | Err e => Ok (b, dst, inr e)
      | Ok (cp, b) =>
          let '(seedStreamData, bw) := encoder_bytes (seedEncoder b) in
          let b := set_seedEncoder bw b in
          if maxFallbackEntries <? len (fallbackList (b_solution b)) then Ok (b, dst, inr ErrBlockOverflow)
          else
            '(fallbackData, buf) ← encodeFallbackListIntoWithB (fallbackList (b_solution b)) blockBits (fallbackBuffer b);
            let b := set_fallbackBuffer buf b in
            let totalSize := checkpointsSize + len efData + len seedStreamData + len fallbackData in
            if len dst <? totalSize then Ok (b, dst, inr ErrOther)
            else
              dst ← checkpoints_encode cp dst;
              let offset := checkpointsSize in
              dst ← copy_at dst offset efData;
              let offset := offset + len efData in
              dst ← copy_at dst offset seedStreamData;
              let offset := offset + len seedStreamData in
              dst ← copy_at dst offset fallbackData;
              let offset := offset + len fallbackData in
              Ok (b, dst, inl offset)
      end
  end.

(** ** Payloads *)
Definition resolveFallbackSeed (b : Builder) (bucketIdx subB : Z) : res Z :=
  match list_find (fun fe => (bucketIndex fe =? u16 bucketIdx) && (subBucket fe =? subB) = true)
          (fallbackList (b_solution b)) with
  | Some (_, fe) => Ok (fb_seed fe)
  | None => Panic
  end.

Definition resolved (b : Builder) (seed bucketIdx subB : Z) : res Z :=
  if seed =? fallbackMarker then resolveFallbackSeed b bucketIdx subB else Ok seed.

Definition payloadStep (b : Builder) (entrySize : Z) (generic : bool) '(dst, localIdx) (bucketIdx : Z)
    : res (list Z * Z) :=
  let fpShift := fingerprintSize b * 8 in
  bucket ← idx (b_buckets b) bucketIdx;
  let bucketStart := localIdx in
  bucketSize ← idx (bucketSizes b) bucketIdx;
  if bucketSize =? 0 then Ok (dst, localIdx)
  else if splitThreshold <=? bucketSize then
    let splitPoint := bucketSize / 2 in
    let secondHalfSize := bucketSize - splitPoint in
    seedIdx ← idx (splitSeedIdx (b_solution b)) bucketIdx;
    seed0 ← idx (splitSeeds (b_solution b)) seedIdx;
    seed1 ← idx (splitSeeds (b_solution b)) (seedIdx + 1);
    seed0 ← resolved b seed0 bucketIdx 0;
    seed1 ← resolved b seed1 bucketIdx 1;
    dst ← foldM (fun dst entry =>
        let h := mixFromParts (e_mix entry) seed0 (u32 bucketSize) in
        let slot := if h <? u32 splitPoint then h
                    else splitPoint + mixFromParts (e_mix entry) seed1 (u32 secondHalfSize) in
        writeEntryAt generic dst (bucketStart + slot) entrySize (fingerprint entry) (payload entry) fpShift)
      dst bucket;
    Ok (dst, localIdx + bucketSize)
  else
    seed ← idx (seeds (b_solution b)) bucketIdx;
    seed ← resolved b seed bucketIdx 0;
    dst ← foldM (fun dst entry =>
        let slot := if 1 <? bucketSize then mixFromParts (e_mix entry) seed (u32 bucketSize) else 0 in
        writeEntryAt generic dst (bucketStart + slot) entrySize (fingerprint entry) (payload entry) fpShift)
      dst bucket;
    Ok (dst, localIdx + bucketSize).

Definition encodePayloadsWithWriter (b : Builder) (dst : list Z) (entrySize : Z) (generic : bool)
    : res (list Z) :=
  d0 ← idx dst 0;
  '(dst, _) ← foldM (payloadStep b entrySize generic) (dst, 0) (range (len (b_buckets b)));
  Ok dst.

Definition encodePayloadsInto (b : Builder) (dst : list Z) : res (list Z * Z) :=
  let es := entrySize b in
  if (es =? 0) || (keysInBlock b =? 0) then Ok (dst, 0)
  else
    let requiredLen := keysInBlock b * es in
    if len dst <? requiredLen then Panic
    else
      dst ← (if (es =? 1) || (es =? 4) || (es =? 5) || (es =? 8)
             then encodePayloadsWithWriter b dst es false
             else encodePayloadsWithWriter b dst es true);
      Ok (dst, keysInBlock b * es).

(** ** The block *)
Definition buildEmptyMetadataInto (dst : list Z) : res (list Z * Z) :=
  let efBytes := eliasFanoSize bucketsPerBlock 0 in
  dst ← checkpoints_encode zero_checkpoints dst;
  let offset := checkpointsSize in
  let efEnd := offset + efBytes in
  cleared ← slice dst offset efEnd;
  dst ← store dst offset (make 0 (len cleared));
  dst ← foldM (fun dst i =>
      let byteIdx := i / 8 in
      let bitIdx := i mod 8 in
      if offset + byteIdx <? efEnd then
        x ← idx dst (offset + byteIdx); upd dst (offset + byteIdx) (Z.lor x (Z.shiftl 1 bitIdx))
      else Ok dst) dst (range bucketsPerBlock);
  let offset := offset + efBytes in
  dst ← upd dst offset 0;
  Ok (dst, offset + 1).

(** The buffers after the call, and the lengths or the error it returns. *)
Definition BuildSeparatedInto (b : Builder) (metadataDst payloadsDst : list Z)
    : res (Builder * list Z * list Z * (Z * Z * Z + error)) :=
  if keysInBlock b =? 0 then
    '(metadataDst, metaLen) ← buildEmptyMetadataInto metadataDst;
    Ok (b, metadataDst, payloadsDst, inl (metaLen, 0, 0))
  else if maxKeysPerBlock b <? keysInBlock b then
    Ok (b, metadataDst, payloadsDst, inr ErrBlockOverflow)
  else
    b ← computeCumulativeCounts b;
    '(s, err) ← solveBijections (b_buckets b) (b_solution b);
    let b := set_solution s b in
    match err with
    | Some e => Ok (b, metadataDst, payloadsDst, inr e)
    | None =>
        '(b, metadataDst, r) ← encodeSeparatedMetadataInto b metadataDst;
        match r with
        | inr e => Ok (b, metadataDst, payloadsDst, inr e)
        | inl metadataLen =>
            '(payloadsDst, payloadsLen) ← encodePayloadsInto b payloadsDst;
            Ok (b, metadataDst, payloadsDst, inl (metadataLen, payloadsLen, keysInBlock b))
        end
    end.
