(* ===== verification/BijDecode.v ===== *)
(** * [internal/bijection/decode.go]: a query against the bytes of a block *)
From S2P Require Import Prelude Words Bits BijMix BijBits BijEnc BijSolver BijBuilder.
#[local] Open Scope Z_scope.

(** ** Elias-Fano *)
Definition get_u16s (buf : list Z) (off : Z) : res (list Z) :=
  foldM (fun vs i => v ← get_le 2 buf (off + i * 2); upd vs i v) (make 0 numCheckpoints) (range numCheckpoints).

Definition decodeCheckpoints (buf : list Z) : res checkpoints :=
  ef ← get_u16s buf 0;
  sp ← get_u16s buf (numCheckpoints * 2);
  Ok (mk_cp ef sp).

(** The byte-wise tail both low-bit readers share: up to three bytes. *)
Definition low_tail (efData : list Z) (byteIdx lowBits bitIdx : Z) : res Z :=
  v ← idx efData byteIdx;
  v ← (if byteIdx + 1 <? len efData then b ← idx efData (byteIdx + 1); Ok (Z.lor v (u64 (Z.shiftl b 8))) else Ok v);
  if (byteIdx + 2 <? len efData) && (8 <? lowBits + bitIdx)
  then b ← idx efData (byteIdx + 2); Ok (Z.lor v (u64 (Z.shiftl b 16))) else Ok v.

Definition readEFLowBits (efData : list Z) (element lowBits : Z) : res Z :=
  if (lowBits =? 0) || (element <? 0) then Ok 0
  else
    let bitPos := element * lowBits in
    let byteIdx := bitPos / 8 in
    let bitIdx := bitPos mod 8 in
    if len efData <=? byteIdx then Ok 0
    else
      let lowMask := u64 (u64 (Z.shiftl 1 lowBits) - 1) in
      if byteIdx + 8 <=? len efData then
        v ← get_le 8 efData byteIdx; Ok (u16 (Z.land (Z.shiftr v bitIdx) lowMask))
      else
        v ← low_tail efData byteIdx lowBits bitIdx; Ok (u16 (Z.land (Z.shiftr v bitIdx) lowMask)).

Definition loadWindow64Safe (data : list Z) (byteIdx : Z) : res Z :=
  let remaining := len data - byteIdx in
  if 8 <=? remaining then get_le 8 data byteIdx
  else
    w ← foldM (fun w i => b ← idx data (byteIdx + i); Ok (Z.lor w (u64 (Z.shiftl b (i * 8))))) 0 (range remaining);
    Ok (fold_left (fun w i => Z.lor w (u64 (Z.shiftl 0xFF (i * 8)))) (seqZ remaining (8 - remaining)) w).

(** The scan for the next one bit, with fuel (every round moves on by seven
    bytes at least): the new [currentHigh] and [bitPos]. *)
Fixpoint scanHigh (fuel : nat) (efData : list Z) (lowBitsTotal currentHigh bitPos : Z) : res (Z * Z) :=
  match fuel with
  | O => Panic
  | S fuel =>
      let absBitPos := lowBitsTotal + bitPos in
      let byteIdx := absBitPos / 8 in
      let bitInByte := absBitPos mod 8 in
      if len efData <=? byteIdx then Ok (currentHigh, bitPos)
      else
        w ← (if byteIdx + 8 <=? len efData then get_le 8 efData byteIdx else loadWindow64Safe efData byteIdx);
        let window := Z.shiftr w bitInByte in
        if window =? 0 then
          let bitsAvailable := 64 - bitInByte in
          scanHigh fuel efData lowBitsTotal (u16 (currentHigh + u16 bitsAvailable)) (bitPos + bitsAvailable)
        else
          let zeros := TrailingZeros64 window in
          Ok (u16 (currentHigh + u16 zeros), bitPos + (zeros + 1))
  end.

(** The low bits of one element, as the loop below reads them. *)
Definition rangeLow (efData : list Z) (lowBits lowMask elem : Z) : res Z :=
  if 0 <? lowBits then
    let lowBitPos := elem * lowBits in
    let lowByteIdx := lowBitPos / 8 in
    let lowBitIdx := lowBitPos mod 8 in
    if lowByteIdx + 8 <=? len efData then
      v ← get_le 8 efData lowByteIdx; Ok (u16 (Z.land (Z.shiftr v lowBitIdx) lowMask))
    else if lowByteIdx <? len efData then
      v ← low_tail efData lowByteIdx lowBits lowBitIdx; Ok (u16 (Z.land (Z.shiftr v lowBitIdx) lowMask))
    else Ok 0
  else Ok 0.

(** One round of the loop over the elements. *)
Definition rangeStep (efData : list Z) (lowBits lowBitsTotal lowMask : Z) '(out, count, currentHigh, bitPos)
    (elem : Z) : res (list Z * Z * Z * Z) :=
  lowVal ← rangeLow efData lowBits lowMask elem;
  '(currentHigh, bitPos) ← scanHigh (length efData + 1) efData lowBitsTotal currentHigh bitPos;
  out ← upd out count (Z.lor (u16 (Z.shiftl currentHigh lowBits)) lowVal);
  Ok (out, count + 1, currentHigh, bitPos).

(** [out] is the window [cumulative[segmentStart:]]: the values are written from
    its start, and the count returned. *)
Definition decodeEFRangeInline (efData : list Z) (numBuckets keysInBlock startElement endElement
    startBitInHighBits : Z) (out : list Z) : res (list Z * Z) :=
  if (endElement <? startElement) || (numBuckets <=? startElement) then Ok (out, 0)
  else
    let endElement := if numBuckets <=? endElement then numBuckets - 1 else endElement in
    if len efData <? 8 then Ok (out, 0)
    else
      let lowBits := computeEFLowBits numBuckets keysInBlock in
      let lowBitsTotal := numBuckets * lowBits in
      let lowMask := if 0 <? lowBits then u64 (u64 (Z.shiftl 1 lowBits) - 1) else 0 in
      let bitPos := startBitInHighBits in
      let currentHigh := if (0 <? startElement) && (startElement <=? bitPos) then u16 (bitPos - startElement) else 0 in
      '(out, count, _, _) ← foldM (rangeStep efData lowBits lowBitsTotal lowMask) (out, 0, currentHigh, bitPos)
                              (seqZ startElement (endElement - startElement + 1));
      Ok (out, count).

(** ** The full decoder, for data the range decoder rejects *)

(** [current], [bitPos] and [bytePos] of the word reader. *)
Record efReader := mk_efr { ef_current : Z; ef_bitPos : Z; ef_bytePos : Z }.

(** The refill of the word reader, as the four copies in the source do it. *)
Definition ef_load (data : list Z) (bytePos : Z) : res (Z * Z) :=
  if bytePos + 8 <=? len data then v ← get_le 8 data bytePos; Ok (v, bytePos + 8)
  else
    v ← foldM (fun v k => b ← idx data (bytePos + k); Ok (Z.lor v (u64 (Z.shiftl b (k * 8))))) 0
          (range (len data - bytePos));
    Ok (v, len data).

Definition decodeEliasFanoCrossBoundary (r : efReader) (data : list Z) (lowBits : Z) : res (Z * efReader) :=
  let bitsFromCurrent := 64 - ef_bitPos r in
  let lowPart := Z.shiftr (ef_current r) (ef_bitPos r) in
  '(current, bytePos) ← ef_load data (ef_bytePos r);
  let bitsFromNext := lowBits - bitsFromCurrent in
  let highPart := Z.land current (u64 (u64 (Z.shiftl 1 bitsFromNext) - 1)) in
  Ok (u16 (Z.lor lowPart (u64 (Z.shiftl highPart bitsFromCurrent))), mk_efr current bitsFromNext bytePos).

(** One low value, refilling first when the word is used up. *)
Definition read_low (data : list Z) (lowBits lowMask : Z) (r : efReader) : res (Z * efReader) :=
  r ← (if 64 <=? ef_bitPos r
       then '(c, p) ← ef_load data (ef_bytePos r); Ok (mk_efr c 0 p) else Ok r);
  if ef_bitPos r + lowBits <=? 64 then
    Ok (u16 (Z.land (Z.shiftr (ef_current r) (ef_bitPos r)) lowMask),
        mk_efr (ef_current r) (ef_bitPos r + lowBits) (ef_bytePos r))
  else decodeEliasFanoCrossBoundary r data lowBits.

(** The eight-fold unrolled body. *)
Definition read_low8 (data : list Z) (lowBits lowMask : Z) (out : list Z) (r : efReader) (i : Z)
    : res (list Z * efReader) :=
  if lowBits =? 0 then
    out ← foldM (fun out j => upd out (i + j) 0) out (range 8); Ok (out, r)
  else if ef_bitPos r + 8 * lowBits <=? 64 then
    out ← foldM (fun out j =>
        upd out (i + j) (u16 (Z.land (Z.shiftr (ef_current r) (ef_bitPos r + j * lowBits)) lowMask)))
      out (range 8);
    Ok (out, mk_efr (ef_current r) (ef_bitPos r + 8 * lowBits) (ef_bytePos r))
  else
    foldM (fun '(out, r) j =>
        '(v, r) ← read_low data lowBits lowMask r; out ← upd out (i + j) v; Ok (out, r))
      (out, r) (range 8).

(** The gap before the next one bit, with fuel (each round refills). *)
Fixpoint readGap (fuel : nat) (data : list Z) (r : efReader) (gap : Z) : res (Z * efReader) :=
  match fuel with
  | O => Panic
  | S fuel =>
      '(r, stop) ← (if 64 <=? ef_bitPos r then
          '(c, p) ← ef_load data (ef_bytePos r);
          if (len data <? ef_bytePos r + 8) && (c =? 0)
          then Ok (mk_efr c (ef_bitPos r) p, true) else Ok (mk_efr c 0 p, false)
        else Ok (r, false));
      if stop : bool then Ok (gap, r)
      else
        let remaining := Z.shiftr (ef_current r) (ef_bitPos r) in
        let zeros := TrailingZeros64 remaining in
        let available := 64 - ef_bitPos r in
        if zeros <? available then
          Ok (u32 (gap + u32 zeros), mk_efr (ef_current r) (ef_bitPos r + (zeros + 1)) (ef_bytePos r))
        else readGap fuel data (mk_efr (ef_current r) 64 (ef_bytePos r)) (u32 (gap + u32 available))
  end.

Definition decodeEliasFanoUnrolled (data : list Z) (n U : Z) (out : list Z) : res (list Z) :=
  if (n =? 0) || (bucketsPerBlock <? n) then Ok out
  else if len data <? 8 then Ok out
  else
    let lowBits := if n <? U then bits_Len (U / n) - 1 else 0 in
    current ← get_le 8 data 0;
    let lowMask := if 0 <? lowBits then u64 (u64 (Z.shiftl 1 lowBits) - 1) else 0 in
    let r := mk_efr current 0 8 in
    '(out, r) ← foldM (fun '(out, r) i => read_low8 data lowBits lowMask out r (8 * i)) (out, r) (range (n / 8));
    '(out, r) ← foldM (fun '(out, r) i =>
        r ← (if 64 <=? ef_bitPos r
             then '(c, p) ← ef_load data (ef_bytePos r); Ok (mk_efr c 0 p) else Ok r);
        if lowBits =? 0 then out ← upd out i 0; Ok (out, r)
        else '(v, r) ← read_low data lowBits lowMask r; out ← upd out i v; Ok (out, r))
      (out, r) (seqZ (8 * (n / 8)) (n mod 8));
    '(out, _, _) ← foldM (fun '(out, r, currentHigh) i =>
        '(gap, r) ← readGap (length data + 2) data r 0;
        let currentHigh := u16 (currentHigh + u16 gap) in
        x ← idx out i;
        out ← upd out i (Z.lor x (u16 (Z.shiftl currentHigh lowBits)));
        Ok (out, r, currentHigh)) (out, r, 0) (range n);
    Ok out.

(** ** Golomb-Rice *)
Definition decodeGRSeedFast (br : bitReader) (bucketSize : Z) : res (Z * bitReader) :=
  if bucketSize <=? 1 then Ok (0, br)
  else
    '(q, br) ← readUnaryMax16 br;
    if grMaxQuotient <=? q then Ok (fallbackMarker, br)
    else
      k ← golombParameter bucketSize;
      '(r, br) ← (if 0 <? k then '(v, br) ← readBits br k; Ok (u32 v, br) else Ok (0, br));
      Ok (Z.lor (u32 (Z.shiftl q k)) r, br).

(** Skipping a seed, as the three copies in [QuerySlot] do it. *)
Definition skip_seed (br : bitReader) (size : Z) : res bitReader :=
  '(q, br) ← readUnaryMax16 br;
  if q <? 16 then
    k ← golombParameter size;
    if 0 <? k then skipBits br k else Ok br
  else Ok br.

(** ** The fallback list *)
Definition decode_entry (blockBits packed : Z) : fallbackEntry :=
  let seedBits := u32 (31 - blockBits) in
  let seedMask := u32 (u32 (Z.shiftl 1 seedBits) - 1) in
  let bucketMask := u32 (u32 (Z.shiftl 1 blockBits) - 1) in
  mk_fb (u16 (Z.land (Z.shiftr packed (1 + seedBits)) bucketMask))
        (u8 (Z.land (Z.shiftr packed seedBits) 1))
        (Z.land packed seedMask).

Definition decodeFallbackListWithB (data : list Z) (blockBits : Z) : res (list fallbackEntry) :=
  if len data <? 2 then Ok []
  else
    count ← idx data 0;
    if (count =? 0) || (len data <? 2 + count * compactFallbackEntrySize) then Ok []
    else
      foldM (fun entries i =>
          let offset := 1 + i * compactFallbackEntrySize in
          b0 ← idx data offset; b1 ← idx data (offset + 1);
          b2 ← idx data (offset + 2); b3 ← idx data (offset + 3);
          let packed := Z.lor (Z.lor (Z.lor b0 (u32 (Z.shiftl b1 8))) (u32 (Z.shiftl b2 16))) (u32 (Z.shiftl b3 24)) in
          Ok (entries ++ [decode_entry blockBits packed])) [] (range count).

(** The offsets tried, from the end of the metadata backwards. *)
Definition findFallback (metadata : list Z) (seedStreamOffset : Z) : res Z :=
  let maxFallbackSize := 2 + maxFallbackEntries * compactFallbackEntrySize in
  if seedStreamOffset <? len metadata then
    let lo := Z.max seedStreamOffset (len metadata - maxFallbackSize) in
    r ← foldB (fun (_ : unit) i =>
          let tryOffset := len metadata - 2 - i in
          count ← idx metadata tryOffset;
          let expectedSize := 2 + count * compactFallbackEntrySize in
          let remaining := len metadata - tryOffset in
          if expectedSize =? remaining then
            validationByte ← idx metadata (len metadata - 1);
            if validationByte =? Z.lxor (u8 count) fallbackValidationXOR
            then Ok (inr tryOffset) else Ok (inl tt)
          else Ok (inl tt)) tt (range (len metadata - 2 - lo + 1));
    Ok (match r with inl _ => -1 | inr o => o end)
  else Ok (-1).

Definition resolveFallbackSeeds (metadata : list Z) (seedStreamOffset bucketIdx seed0 seed1 : Z)
    : res (Z * Z) :=
  fallbackOffset ← findFallback metadata seedStreamOffset;
  if 0 <=? fallbackOffset then
    data ← slice metadata fallbackOffset (len metadata);
    fallbackList ← decodeFallbackListWithB data blockBits;
    Ok (fold_left (fun '(seed0, seed1) fe =>
          if bucketIndex fe =? u16 bucketIdx then
            if (subBucket fe =? 0) && (seed0 =? fallbackMarker) then (fb_seed fe, seed1)
            else if (subBucket fe =? 1) && (seed1 =? fallbackMarker) then (seed0, fb_seed fe)
            else (seed0, seed1)
          else (seed0, seed1)) fallbackList (seed0, seed1))
  else Ok (seed0, seed1).

(** ** The decoder *)
Record Decoder := mk_Decoder { d_globalSeed : Z }.

Definition NewDecoder (globalConfig : list Z) (globalSeed : Z) : res Decoder :=
  if negb (len globalConfig =? 0) then Err ErrCorruptedIndex else Ok (mk_Decoder globalSeed).

(** Where a bucket of the segment starts: the cumulative count before it. *)
Definition start_of (cumulative : list Z) (cumulativeAtSegmentStart segmentStart i : Z) : res Z :=
  if 0 <? i then
    if segmentStart <? i then idx cumulative (i - 1) else Ok cumulativeAtSegmentStart
  else Ok 0.

(** The seeds of one bucket, skipped. *)
Definition skip_bucket (br : bitReader) (bSize : Z) : res bitReader :=
  if splitThreshold <=? bSize then
    let splitPoint := bSize / 2 in
    let secondHalfSize := bSize - splitPoint in
    br ← (if 1 <? splitPoint then skip_seed br splitPoint else Ok br);
    if 1 <? secondHalfSize then skip_seed br secondHalfSize else Ok br
  else if 2 <=? bSize then skip_seed br bSize
  else Ok br.

(** Step 13: the seed or seeds of the target bucket and the slot they give. *)
Definition local_slot (mp : mixParts) (br : bitReader) (metadata : list Z)
    (seedStreamOffset bucketIdx bucketSize : Z) : res Z :=
  if splitThreshold <=? bucketSize then
    let splitPoint := bucketSize / 2 in
    let secondHalfSize := bucketSize - splitPoint in
    '(seed0, br) ← decodeGRSeedFast br splitPoint;
    '(seed1, br) ← decodeGRSeedFast br secondHalfSize;
    '(seed0, seed1) ← (if (seed0 =? fallbackMarker) || (seed1 =? fallbackMarker)
        then resolveFallbackSeeds metadata seedStreamOffset bucketIdx seed0 seed1 else Ok (seed0, seed1));
    let h := mixFromParts mp seed0 (u32 bucketSize) in
    if h <? u32 splitPoint then Ok h
    else Ok (u32 (u32 splitPoint + mixFromParts mp seed1 (u32 secondHalfSize)))
  else if 2 <=? bucketSize then
    '(seed, br) ← decodeGRSeedFast br bucketSize;
    '(seed, _) ← (if seed =? fallbackMarker
        then resolveFallbackSeeds metadata seedStreamOffset bucketIdx seed 0 else Ok (seed, 0));
    Ok (mixFromParts mp seed (u32 bucketSize))
  else Ok 0.

Definition QuerySlot (d : Decoder) (k0 k1 : Z) (metadata : list Z) (keysInBlock : Z) : res Z :=
  if keysInBlock =? 0 then Err ErrNotFound
  else if len metadata <? checkpointsSize then Err ErrCorruptedIndex
  else
    head ← slice metadata 0 checkpointsSize;
    cp ← decodeCheckpoints head;
    let bucketIdx := FastRange32 k0 bucketsPerBlock in
    let segment := bucketIdx / checkpointInterval in
    let segmentStart := segment * checkpointInterval in
    if len metadata <=? checkpointsSize then Err ErrCorruptedIndex
    else
      efData ← slice metadata checkpointsSize (len metadata);
      let lowBits := computeEFLowBits bucketsPerBlock keysInBlock in
      efBitPosInHigh ← (if 0 <? segment then idx (efBitPos cp) (segment - 1) else Ok 0);
      let cumulative := make 0 bucketsPerBlock in
      out ← slice cumulative segmentStart bucketsPerBlock;
      '(out, decodeCount) ← decodeEFRangeInline efData bucketsPerBlock keysInBlock segmentStart bucketIdx
                              efBitPosInHigh out;
      cumulative ← store cumulative segmentStart out;
      cumulative ← (if decodeCount =? 0 then decodeEliasFanoUnrolled efData bucketsPerBlock keysInBlock cumulative
                    else Ok cumulative);
      cumulativeAtSegmentStart ← (if 0 <? segment then
          let highVal := Z.max (efBitPosInHigh - segmentStart) 0 in
          lowVal ← readEFLowBits efData (segmentStart - 1) lowBits;
          Ok (Z.lor (u16 (Z.shiftl highVal lowBits)) lowVal)
        else Ok 0);
      bucketStart ← start_of cumulative cumulativeAtSegmentStart segmentStart bucketIdx;
      bucketEnd ← idx cumulative bucketIdx;
      let bucketSize := u16 (bucketEnd - bucketStart) in
      if bucketSize =? 0 then Err ErrNotFound
      else
        seedBitPos ← (if 0 <? segment then idx (seedBitPos cp) (segment - 1) else Ok 0);
        let efSize := eliasFanoSize bucketsPerBlock keysInBlock in
        let seedStreamOffset := checkpointsSize + efSize in
        if len metadata <=? seedStreamOffset then Err ErrCorruptedIndex
        else
          seedData ← slice metadata seedStreamOffset (len metadata);
          br ← newBitReaderFast seedData;
          br ← (if 0 <? seedBitPos then skipBits br seedBitPos else Ok br);
          br ← foldM (fun br i =>
              bStart ← start_of cumulative cumulativeAtSegmentStart segmentStart i;
              bEnd ← idx cumulative i;
              skip_bucket br (u16 (bEnd - bStart))) br (seqZ segmentStart (bucketIdx - segmentStart));
          let mp := mk_mix (Z.lxor k0 (d_globalSeed d)) (Z.lxor k1 (d_globalSeed d)) in
          localSlot ← local_slot mp br metadata seedStreamOffset bucketIdx bucketSize;
          Ok (bucketStart + localSlot).

Arguments QuerySlot : simpl never.
