(* ===== verification/BijGolomb.v ===== *)
(** * The seed stream: Golomb-Rice codes written and read back

    A seed is its quotient in unary, a zero bit and its low [k] bits; a seed that
    does not fit, or that sits in the fallback list, is sixteen one bits. *)
From S2P Require Import Prelude Words BijMix BijBits BijStream BijEnc BijSolver BijBuilder BijDecode.
#[local] Open Scope Z_scope.

(** ** The codes *)
Definition gr_k (size : Z) : Z := default 8 (golombParameterTable !! Z.to_nat size).

Lemma golombParameter_eq size : 0 <= size -> golombParameter size = Ok (gr_k size).
Proof.
  intros Hs. unfold golombParameter, gr_k. destruct (Z.ltb_spec size (len golombParameterTable)) as [H | H].
  - destruct (idx_in_range golombParameterTable size) as (x & Hx & ->); [lia |]. by rewrite Hx.
  - rewrite lookup_ge_None_2; [done |]. unfold len in H. lia.
Qed.

Lemma gr_k_bound size : 2 <= size -> 1 <= gr_k size <= 8.
Proof.
  intros Hs. unfold gr_k. destruct (golombParameterTable !! Z.to_nat size) as [x |] eqn:H; [| simpl; lia].
  cbn [default]. unfold id. destruct (Z.to_nat size) as [| [| m]] eqn:Hn; [lia | lia |].
  do 7 (destruct m as [| m]; [cbn in H; injection H; lia |]). done.
Qed.

Definition marker_code : code := (2 ^ 16 - 1, 16).

Definition gr_code (k seed : Z) : code :=
  code_cat (2 ^ (seed / 2 ^ k) - 1, seed / 2 ^ k) (code_cat (0, 1) (seed mod 2 ^ k, k)).

Definition seed_code (size seed : Z) : code :=
  if seed =? fallbackMarker then marker_code else gr_code (gr_k size) seed.

(** What the builder writes for a (sub-)bucket of [size] keys: the marker, or a
    seed that has a code. *)
Definition seed_ok (size seed : Z) : Prop :=
  2 <= size /\ (seed = fallbackMarker \/ (size <= 8 /\ 0 <= seed < grMaxQuotient * 2 ^ gr_k size)).

Lemma seed_ok_marker size : 2 <= size -> seed_ok size fallbackMarker.
Proof. intros. split; [done | by left]. Qed.

Lemma maxEncodableSeed_eq size : 2 <= size -> maxEncodableSeed size = Ok (grMaxQuotient * 2 ^ gr_k size).
Proof.
  intros Hs. unfold maxEncodableSeed. rewrite golombParameter_eq by lia. cbn [mbind res_bind].
  pose proof (gr_k_bound size Hs) as Hk. destruct (Z.eqb_spec (gr_k size) 0); [lia |].
  rewrite shiftl_pow by lia. f_equal. apply u32_id.
  pose proof (pow2_le (gr_k size) 8 ltac:(lia)). pose proof (pow2_pos (gr_k size)).
  unfold grMaxQuotient, is_u. change (2 ^ 8) with 256 in *. lia.
Qed.

Lemma quotient_bound k seed : 0 <= k -> 0 <= seed < grMaxQuotient * 2 ^ k -> 0 <= seed / 2 ^ k < grMaxQuotient.
Proof.
  intros Hk Hs. pose proof (pow2_pos k Hk). split; [apply Z.div_pos; lia |]. apply Z.div_lt_upper_bound; lia.
Qed.

Lemma unary_ok q : 0 <= q -> code_ok (2 ^ q - 1, q).
Proof. intros. split; cbn [fst snd]; [done | pose proof (pow2_pos q); lia]. Qed.

Lemma zero_rest_ok k r : 0 <= k -> code_ok (code_cat (0, 1) (r mod 2 ^ k, k)).
Proof. intros. apply code_cat_ok; (split; cbn [fst snd]; [lia |]); [lia | by apply mod_pow2_bound]. Qed.

Lemma seed_code_ok size seed : seed_ok size seed -> code_ok (seed_code size seed).
Proof.
  intros [Hs Hseed]. unfold seed_code. destruct (Z.eqb_spec seed fallbackMarker); [split; cbn; lia |].
  destruct Hseed as [| [Hle Hlt]]; [done |]. pose proof (gr_k_bound size Hs).
  apply code_cat_ok; [apply unary_ok; apply quotient_bound; lia | apply zero_rest_ok; lia].
Qed.

(** A seed takes at most 24 bits. *)
Lemma seed_code_len size seed : seed_ok size seed -> 0 <= (seed_code size seed).2 <= 24.
Proof.
  intros [Hs Hseed]. unfold seed_code. destruct (Z.eqb_spec seed fallbackMarker); [cbn; lia |].
  destruct Hseed as [| [Hle Hlt]]; [done |]. pose proof (gr_k_bound size Hs).
  pose proof (quotient_bound (gr_k size) seed ltac:(lia) Hlt) as Hq. unfold gr_code, code_cat. cbn [fst snd].
  unfold grMaxQuotient in Hq. lia.
Qed.

Lemma seed_ok_u32 size seed : seed_ok size seed -> is_u 32 seed.
Proof.
  intros [Hs [-> | [Hle Hlt]]]; [unfold_words; unfold fallbackMarker; lia |].
  pose proof (gr_k_bound size Hs). pose proof (pow2_le (gr_k size) 8 ltac:(lia)).
  unfold grMaxQuotient in Hlt. unfold_words. change (2 ^ 8) with 256 in *. lia.
Qed.

(** ** Writing *)
Lemma encode_or_mark_spec bw size seed :
  bw_ok bw -> seed_ok size seed ->
  exists bw', encode_or_mark bw seed size = Ok bw' /\ written bw (seed_code size seed) bw'.
Proof.
  intros Hok [Hs Hseed]. unfold encode_or_mark, seed_code.
  destruct (Z.eqb_spec seed fallbackMarker); [eexists; split; [done |]; by apply writeOnes_spec |].
  destruct Hseed as [| [Hle Hlt]]; [done |]. unfold encodeSeed. destruct (Z.leb_spec size 1); [lia |].
  rewrite golombParameter_eq by lia. cbn [mbind res_bind]. pose proof (gr_k_bound size Hs) as Hk.
  set (k := gr_k size) in *. pose proof (quotient_bound k seed ltac:(lia) Hlt) as Hq.
  rewrite shiftr_div by lia. destruct (Z.leb_spec grMaxQuotient (seed / 2 ^ k)); [lia |].
  destruct (Z.ltb_spec 8 size); [lia |]. cbn [orb].
  assert (Z.land seed (u32 (u32 (Z.shiftl 1 k) - 1)) = seed mod 2 ^ k) as ->.
  { rewrite shiftl_pow, Z.mul_1_l by lia. pose proof (pow2_le k 8 ltac:(lia)). pose proof (pow2_pos k).
    change (2 ^ 8) with 256 in *. rewrite (u32_id (2 ^ k)), u32_id by (unfold_words; lia). apply land_mask. lia. }
  destruct (Z.ltb_spec 0 k); [| lia]. set (q := seed / 2 ^ k) in *.
  eexists. split; [done |]. set (bw1 := if 0 <? q then _ else bw).
  assert (written bw (2 ^ q - 1, q) bw1) as Hw1.
  { subst bw1. destruct (Z.ltb_spec 0 q); [apply writeOnes_spec; done || lia |].
    assert (q = 0) as -> by lia. by apply written_nil. }
  eapply written_trans; [done | apply unary_ok; lia | exact Hw1 |].
  pose proof (writeBit_spec bw1 0 (written_ok _ _ _ Hw1)) as Hw2.
  eapply written_trans; [by eapply written_ok | split; cbn; lia | exact Hw2 |].
  pose proof (writeBits_spec (writeBit bw1 0) (seed mod 2 ^ k) k (written_ok _ _ _ Hw2) ltac:(lia)) as Hw3.
  rewrite Z.mod_mod in Hw3 by (pose proof (pow2_pos k); lia). exact Hw3.
Qed.

(** ** Reading *)
Section reading.
Context (data : list Z) (Hdata : Forall is_byte data).
#[local] Abbreviation D := (le_val data).

Lemma marker_unary p : has_code D p marker_code -> unary_at D p grMaxQuotient.
Proof. intros H. right. split; [done | exact H]. Qed.

Lemma gr_unary p k seed :
  0 <= p -> 0 <= k -> 0 <= seed < grMaxQuotient * 2 ^ k -> has_code D p (gr_code k seed) ->
  unary_at D p (seed / 2 ^ k) /\ bits_at D (p + (seed / 2 ^ k + 1)) k = seed mod 2 ^ k.
Proof.
  intros Hp Hk Hs H. pose proof (quotient_bound k seed Hk Hs) as Hq. unfold gr_code in H.
  set (q := seed / 2 ^ k) in *.
  apply has_code_cat in H as [H1 H2]; [| done | apply unary_ok; lia | by apply zero_rest_ok].
  apply has_code_cat in H2 as [H2 H3]; [| cbn; lia | split; cbn; lia | split; cbn; [done | by apply mod_pow2_bound]].
  cbn [fst snd] in *. unfold has_code in *. cbn [fst snd] in *. split.
  - left. split; [done |]. rewrite bits_at_add, H1, H2 by lia. lia.
  - by rewrite Z.add_assoc.
Qed.

Lemma readUnary_at p br q :
  reads data p br -> 0 <= p -> unary_at D p q ->
  exists br', readUnaryMax16 br = Ok (q, br') /\ reads data (p + unary_len q) br'.
Proof using Hdata.
  intros Hr Hp Hu. destruct (readUnaryMax16_spec data Hdata p br Hr Hp) as (q' & br' & H & Hu' & Hr').
  assert (q' = q) as -> by (by eapply unary_at_unique). by exists br'.
Qed.

Lemma decodeGRSeedFast_spec p br size seed :
  reads data p br -> 0 <= p -> seed_ok size seed -> has_code D p (seed_code size seed) ->
  exists br', decodeGRSeedFast br size = Ok (seed, br') /\ reads data (p + (seed_code size seed).2) br'.
Proof using Hdata.
  intros Hr Hp [Hs Hseed] Hc. unfold decodeGRSeedFast. destruct (Z.leb_spec size 1); [lia |].
  unfold seed_code in *. destruct (Z.eqb_spec seed fallbackMarker) as [-> | Hne].
  { destruct (readUnary_at p br grMaxQuotient Hr Hp (marker_unary p Hc)) as (br' & -> & Hr'). cbn [mbind res_bind].
    by exists br'. }
  destruct Hseed as [| [Hle Hlt]]; [done |]. pose proof (gr_k_bound size Hs) as Hk.
  destruct (gr_unary p (gr_k size) seed Hp ltac:(lia) Hlt Hc) as [Hu Hb].
  pose proof (quotient_bound (gr_k size) seed ltac:(lia) Hlt) as Hq.
  destruct (readUnary_at p br _ Hr Hp Hu) as (br1 & -> & Hr1). cbn [mbind res_bind].
  set (k := gr_k size) in *. set (q := seed / 2 ^ k) in *. unfold unary_len in Hr1.
  destruct (Z.leb_spec grMaxQuotient q); [lia |]. destruct (Z.ltb_spec q grMaxQuotient); [| lia].
  rewrite golombParameter_eq by lia. fold k. cbn [mbind res_bind]. destruct (Z.ltb_spec 0 k); [| lia].
  destruct (readBits_spec data Hdata _ br1 k Hr1) as (br2 & -> & Hr2); [lia | lia |]. cbn [mbind res_bind].
  rewrite Hb. pose proof (mod_pow2_bound seed k ltac:(lia)) as Hm. pose proof (pow2_le k 8 ltac:(lia)) as H8.
  pose proof (pow2_pos k ltac:(lia)). change (2 ^ 8) with 256 in H8. unfold grMaxQuotient in *.
  exists br2. split.
  - do 2 f_equal. rewrite (u32_id (seed mod 2 ^ k)) by (unfold_words; lia).
    rewrite u32_id by (rewrite shiftl_pow by lia; unfold_words; nia).
    rewrite Z.lor_comm, lor_shiftl_add by lia. pose proof (Z.div_mod seed (2 ^ k)). lia.
  - unfold gr_code, code_cat. cbn [fst snd]. fold q. by replace (p + (q + (1 + k))) with (p + (q + 1) + k) by lia.
Qed.

Lemma skip_seed_spec p br size seed :
  reads data p br -> 0 <= p -> seed_ok size seed -> has_code D p (seed_code size seed) ->
  exists br', skip_seed br size = Ok br' /\ reads data (p + (seed_code size seed).2) br'.
Proof using Hdata.
  intros Hr Hp [Hs Hseed] Hc. unfold skip_seed, seed_code in *. destruct (Z.eqb_spec seed fallbackMarker) as [-> | Hne].
  { destruct (readUnary_at p br grMaxQuotient Hr Hp (marker_unary p Hc)) as (br' & -> & Hr'). cbn [mbind res_bind].
    by exists br'. }
  destruct Hseed as [| [Hle Hlt]]; [done |]. pose proof (gr_k_bound size Hs) as Hk.
  destruct (gr_unary p (gr_k size) seed Hp ltac:(lia) Hlt Hc) as [Hu Hb].
  pose proof (quotient_bound (gr_k size) seed ltac:(lia) Hlt) as Hq.
  destruct (readUnary_at p br _ Hr Hp Hu) as (br1 & -> & Hr1). cbn [mbind res_bind].
  set (k := gr_k size) in *. set (q := seed / 2 ^ k) in *. unfold unary_len in Hr1. unfold grMaxQuotient in *.
  destruct (Z.ltb_spec q 16); [| lia]. rewrite golombParameter_eq by lia. fold k. cbn [mbind res_bind].
  destruct (Z.ltb_spec 0 k); [| lia].
  destruct (skipBits_spec data Hdata _ br1 k Hr1) as (br2 & -> & Hr2); [lia |]. exists br2. split; [done |].
  unfold gr_code, code_cat. cbn [fst snd]. fold q. by replace (p + (q + (1 + k))) with (p + (q + 1) + k) by lia.
Qed.

(** On any bytes at all: no panic, a 32-bit seed, and the reader moves on. *)
Lemma decodeGRSeedFast_total p br size :
  reads data p br -> 0 <= p -> 0 <= size ->
  exists seed br' p', decodeGRSeedFast br size = Ok (seed, br') /\ is_u 32 seed /\ reads data p' br' /\ p <= p'.
Proof using Hdata.
  intros Hr Hp Hs. unfold decodeGRSeedFast. destruct (Z.leb_spec size 1).
  { exists 0, br, p. split_and!; [done | unfold_words; lia | done | lia]. }
  destruct (readUnaryMax16_spec data Hdata p br Hr Hp) as (q & br1 & -> & Hu & Hr1). cbn [mbind res_bind].
  assert (0 <= q <= 16) as Hq by (unfold unary_at, grMaxQuotient in Hu; lia).
  assert (0 <= unary_len q) by (unfold unary_len; case_match; unfold grMaxQuotient; lia).
  destruct (Z.leb_spec grMaxQuotient q).
  { exists fallbackMarker, br1, (p + unary_len q). split_and!; [done | unfold fallbackMarker; unfold_words; lia | done | lia]. }
  rewrite golombParameter_eq by lia. cbn [mbind res_bind]. pose proof (gr_k_bound size ltac:(lia)) as Hk.
  destruct (Z.ltb_spec 0 (gr_k size)); [| lia].
  destruct (readBits_spec data Hdata _ br1 (gr_k size) Hr1) as (br2 & -> & Hr2); [lia | lia |]. cbn [mbind res_bind].
  eexists _, br2, _. split; [done |]. split_and!; [apply lor_is_u; [lia | apply u32_is | apply u32_is] | exact Hr2 | lia].
Qed.

Lemma skip_seed_total p br size :
  reads data p br -> 0 <= p -> 2 <= size ->
  exists br' p', skip_seed br size = Ok br' /\ reads data p' br' /\ p <= p'.
Proof using Hdata.
  intros Hr Hp Hs. unfold skip_seed.
  destruct (readUnaryMax16_spec data Hdata p br Hr Hp) as (q & br1 & -> & Hu & Hr1). cbn [mbind res_bind].
  assert (0 <= q <= 16) as Hq by (unfold unary_at, grMaxQuotient in Hu; lia).
  assert (0 <= unary_len q) by (unfold unary_len; case_match; unfold grMaxQuotient; lia).
  destruct (Z.ltb_spec q 16); [| exists br1, (p + unary_len q); split_and!; [done | done | lia]].
  rewrite golombParameter_eq by lia. cbn [mbind res_bind]. pose proof (gr_k_bound size ltac:(lia)) as Hk.
  destruct (Z.ltb_spec 0 (gr_k size)); [| lia].
  destruct (skipBits_spec data Hdata _ br1 (gr_k size) Hr1) as (br2 & -> & Hr2); [lia |].
  eexists br2, _. split; [done |]. split; [exact Hr2 | lia].
Qed.
End reading.

(** ** Whole streams *)

(** The flushed bytes, whatever follows them, start with what was written. *)
Lemma flush_has_code bw c tail :
  written (bw_reset bw) c bw -> has_code (le_val ((flush bw).1 ++ tail)) 0 c.
Proof.
  intros [Hok Hc]. destruct (flush_spec bw Hok) as (Hb & Hv & Hl).
  assert (c = (bw_val bw, bitsWritten bw)) as ->.
  { rewrite Hc. change (bw_val (bw_reset bw), bitsWritten (bw_reset bw)) with code_nil. by rewrite code_nil_l. }
  rewrite le_val_app, Hv. change (Z.of_nat (length (flush bw).1)) with (len (flush bw).1). rewrite Hl.
  pose proof (bitsWritten_nonneg bw Hok) as Hn. set (n := bitsWritten bw) in *.
  assert (n <= 8 * ((n + 7) / 8)) as Hle by (Z.div_mod_to_equations; lia).
  replace (2 ^ (8 * ((n + 7) / 8))) with (2 ^ (8 * ((n + 7) / 8) - n) * 2 ^ n) by (rewrite <- pow2_add by lia; f_equal; lia).
  rewrite Z.mul_comm, Z.mul_assoc. apply (has_code_prefix (bw_val bw, n)). by apply bw_val_ok.
Qed.

Definition encode_all (bw : bitWriter) (l : list (Z * Z)) : res bitWriter :=
  foldM (fun bw x => encode_or_mark bw x.2 x.1) bw l.

Definition decode_all (br : bitReader) (sizes : list Z) : res (list Z * bitReader) :=
  foldM (fun '(vs, br) size => '(v, br) ← decodeGRSeedFast br size; Ok (vs ++ [v], br)) ([], br) sizes.

Definition skip_all (br : bitReader) (sizes : list Z) : res bitReader := foldM skip_seed br sizes.

Definition stream_code (l : list (Z * Z)) : code := code_concat (map (fun x => seed_code x.1 x.2) l).

Lemma stream_ok l : Forall (fun x => seed_ok x.1 x.2) l -> Forall code_ok (map (fun x => seed_code x.1 x.2) l).
Proof. intros H. apply Forall_map. eapply Forall_impl; [exact H |]. intros x. apply seed_code_ok. Qed.

Lemma stream_code_app l k :
  Forall (fun x => seed_ok x.1 x.2) l -> Forall (fun x => seed_ok x.1 x.2) k ->
  stream_code (l ++ k) = code_cat (stream_code l) (stream_code k).
Proof. intros Hl Hk. unfold stream_code. rewrite map_app. apply code_concat_app; by apply stream_ok. Qed.

Lemma stream_code_single x : stream_code [x] = seed_code x.1 x.2.
Proof. apply code_nil_r. Qed.

Lemma stream_code_ok l : Forall (fun x => seed_ok x.1 x.2) l -> code_ok (stream_code l).
Proof. intros. by apply code_concat_ok, stream_ok. Qed.

Lemma stream_code_len l : Forall (fun x => seed_ok x.1 x.2) l -> 0 <= (stream_code l).2 <= 24 * len l.
Proof.
  induction 1 as [| x l Hx Hl IH]; [unfold len; cbn; lia |]. pose proof (seed_code_len x.1 x.2 Hx). rewrite len_cons.
  unfold stream_code in *. cbn [map code_concat fold_right code_cat snd]. fold (code_concat (map (fun x => seed_code x.1 x.2) l)). lia.
Qed.

Lemma encode_all_spec bw l :
  bw_ok bw -> Forall (fun x => seed_ok x.1 x.2) l ->
  exists bw', encode_all bw l = Ok bw' /\ written bw (stream_code l) bw'.
Proof.
  intros Hok. induction l as [| x l IH] using rev_ind; intros Hl.
  { exists bw. split; [done | by apply written_nil]. }
  apply Forall_app in Hl as [Hl Hx]. destruct (IH Hl) as (bw1 & H1 & Hw1).
  unfold encode_all in *. rewrite foldM_snoc, H1. cbn [mbind res_bind].
  destruct (encode_or_mark_spec bw1 x.1 x.2 (written_ok _ _ _ Hw1)) as (bw2 & -> & Hw2).
  { exact (proj1 (Forall_singleton _ _) Hx). }
  exists bw2. split; [done |]. rewrite stream_code_app by done. rewrite stream_code_single.
  eapply written_trans; [done | by apply stream_code_ok | done | done].
Qed.

Section streams.
Context (data : list Z) (Hdata : Forall is_byte data).
#[local] Abbreviation D := (le_val data).

Lemma decode_all_spec p br l :
  reads data p br -> 0 <= p -> Forall (fun x => seed_ok x.1 x.2) l -> has_code D p (stream_code l) ->
  exists br', decode_all br (map fst l) = Ok (map snd l, br') /\ reads data (p + (stream_code l).2) br'.
Proof using Hdata.
  intros Hr Hp. induction l as [| x l IH] using rev_ind; intros Hl Hc.
  { exists br. split; [done |]. cbn. by rewrite Z.add_0_r. }
  apply Forall_app in Hl as [Hl Hx]. pose proof (proj1 (Forall_singleton _ _) Hx) as Hx1. cbv beta in Hx1.
  rewrite stream_code_app in * by done. rewrite stream_code_single in *.
  pose proof (stream_code_ok l Hl) as Hlo.
  apply has_code_cat in Hc as [Hc1 Hc2]; [| done | done | by apply seed_code_ok].
  destruct (IH Hl Hc1) as (br1 & H1 & Hr1). unfold decode_all in *.
  rewrite !map_app. cbn [map]. rewrite foldM_snoc, H1. cbn [mbind res_bind].
  destruct (decodeGRSeedFast_spec data Hdata _ br1 x.1 x.2 Hr1) as (br2 & -> & Hr2); [destruct Hlo; lia | done | done |].
  exists br2. split; [done |]. cbn [code_cat snd]. by rewrite Z.add_assoc.
Qed.

Lemma skip_all_spec p br l :
  reads data p br -> 0 <= p -> Forall (fun x => seed_ok x.1 x.2) l -> has_code D p (stream_code l) ->
  exists br', skip_all br (map fst l) = Ok br' /\ reads data (p + (stream_code l).2) br'.
Proof using Hdata.
  intros Hr Hp. induction l as [| x l IH] using rev_ind; intros Hl Hc.
  { exists br. split; [done |]. cbn. by rewrite Z.add_0_r. }
  apply Forall_app in Hl as [Hl Hx]. pose proof (proj1 (Forall_singleton _ _) Hx) as Hx1. cbv beta in Hx1.
  rewrite stream_code_app in * by done. rewrite stream_code_single in *.
  pose proof (stream_code_ok l Hl) as Hlo.
  apply has_code_cat in Hc as [Hc1 Hc2]; [| done | done | by apply seed_code_ok].
  destruct (IH Hl Hc1) as (br1 & H1 & Hr1). unfold skip_all in *.
  rewrite map_app. cbn [map]. rewrite foldM_snoc, H1. cbn [mbind res_bind].
  destruct (skip_seed_spec data Hdata _ br1 x.1 x.2 Hr1) as (br2 & -> & Hr2); [destruct Hlo; lia | done | done |].
  exists br2. split; [done |]. cbn [code_cat snd]. by rewrite Z.add_assoc.
Qed.
End streams.

(** C33: the seed stream round trip. Seeds written one after another and
    flushed are read back one by one, whatever bytes follow the stream (the
    fallback list does), and a reader that skips any prefix of them reads the
    rest; a seed never takes more than 24 bits. *)
Theorem seed_stream_roundtrip (skipped l : list (Z * Z)) (tail : list Z) :
  Forall (fun x => seed_ok x.1 x.2) (skipped ++ l) -> Forall is_byte tail ->
  exists bw, encode_all newBitWriterBuffer (skipped ++ l) = Ok bw /\
    bitsWritten bw <= 24 * len (skipped ++ l) /\
    wp (br ← newBitReaderFast ((flush bw).1 ++ tail);
        br ← skip_all br (map fst skipped);
        decode_all br (map fst l)) (fun '(vs, _) => vs = map snd l) no_err.
Proof.
  intros Hl Ht. destruct (encode_all_spec newBitWriterBuffer (skipped ++ l) (bw_reset_ok newBitWriterBuffer) Hl)
    as (bw & -> & Hw).
  exists bw. split; [done |]. pose proof (flush_has_code bw _ tail Hw) as Hc.
  destruct Hw as [Hok Hv]. split.
  { assert (bitsWritten bw = (stream_code (skipped ++ l)).2) as -> by (injection Hv as _ ->; done).
    apply stream_code_len, Hl. }
  destruct (flush_spec bw Hok) as (Hb & _ & _). set (data := _ ++ tail) in *.
  assert (Forall is_byte data) as Hd by (by apply Forall_app).
  apply Forall_app in Hl as [Hs Hl]. rewrite stream_code_app in Hc by done.
  apply has_code_cat in Hc as [Hc1 Hc2]; [| lia | by apply stream_code_ok ..].
  destruct (newBitReaderFast_spec data Hd) as (br & -> & Hr). cbn [mbind res_bind].
  destruct (skip_all_spec data Hd 0 br skipped Hr ltac:(lia) Hs Hc1) as (br1 & -> & Hr1). cbn [mbind res_bind].
  destruct (decode_all_spec data Hd _ br1 l Hr1) as (br2 & -> & _); [| done | done | done].
  destruct (stream_code_ok skipped Hs). lia.
Qed.

Lemma seed_stream_roundtrip_witness :
  exists bw, encode_all newBitWriterBuffer ([(2, 5); (3, fallbackMarker)] ++ [(8, 1000); (12, fallbackMarker)]) = Ok bw /\
    bitsWritten bw <= 24 * len ([(2, 5); (3, fallbackMarker)] ++ [(8, 1000); (12, fallbackMarker)]) /\
    wp (br ← newBitReaderFast ((flush bw).1 ++ [255; 7]);
        br ← skip_all br (map fst [(2, 5); (3, fallbackMarker)]);
        decode_all br (map fst [(8, 1000); (12, fallbackMarker)]))
      (fun '(vs, _) => vs = map snd [(8, 1000); (12, fallbackMarker)]) no_err.
Proof.
  apply seed_stream_roundtrip; [| repeat constructor; unfold_words; lia].
  repeat constructor; cbn [fst snd]; try lia; try (by left); right; unfold gr_k, grMaxQuotient; cbn; lia.
Defined.
