(* ===== verification/BijElias.v ===== *)
(** * Elias-Fano counts, written and read back

    The cumulative bucket counts are stored as their low [L] bits, one after the
    other, followed by the gaps between their high parts in unary. Both parts are
    streams of codes. *)
From S2P Require Import Prelude Words BijMix BijBits BijStream BijEnc BijSolver BijBuilder BijDecode.
#[local] Open Scope Z_scope.

(** ** The code of a nondecreasing sequence *)
Definition ef_lows (L : Z) (c : list Z) : list code := map (fun v => (v mod 2 ^ L, L)) c.

Definition gap_code (gap : Z) : code := (2 ^ gap, gap + 1).

Fixpoint ef_highs (prev L : Z) (c : list Z) : list code :=
  match c with
  | [] => []
  | v :: c => gap_code (v / 2 ^ L - prev) :: ef_highs (v / 2 ^ L) L c
  end.

Definition ef_code (L : Z) (c : list Z) : code :=
  code_cat (code_concat (ef_lows L c)) (code_concat (ef_highs 0 L c)).

(** [prev <= c0 <= c1 <= ... <= U] *)
Fixpoint nondec (prev : Z) (c : list Z) (U : Z) : Prop :=
  match c with [] => prev <= U | v :: c => prev <= v /\ nondec v c U end.

Lemma nondec_le prev c U : nondec prev c U -> prev <= U.
Proof. revert prev. induction c as [| v c IH]; intros prev; simpl; [done |]. intros [? ?%IH]. lia. Qed.

Lemma nondec_Forall prev c U : nondec prev c U -> Forall (fun v => prev <= v <= U) c.
Proof.
  revert prev. induction c as [| v c IH]; intros prev; [constructor |]. intros [Hv Hc].
  constructor; [apply nondec_le in Hc; lia |]. eapply Forall_impl; [by apply IH |]. intros; cbn in *; lia.
Qed.

Lemma nondec_app prev a b U : nondec prev (a ++ b) U -> nondec prev a U /\ nondec (default prev (last a)) b U.
Proof.
  revert prev. induction a as [| v a IH]; intros prev; cbn [app nondec].
  - intros H. split; [by eapply nondec_le | done].
  - intros [Hv H]. apply IH in H as [H1 H2]. split; [done |]. destruct a; [done |].
    cbn [last] in *. by destruct (last (z :: a)) eqn:E; [| apply last_None in E].
Qed.

Lemma div_mono a b L : 0 <= L -> a <= b -> a / 2 ^ L <= b / 2 ^ L.
Proof. intros. apply Z.div_le_mono; [apply pow2_pos |]; done. Qed.

Lemma gap_code_ok g : 0 <= g -> code_ok (gap_code g).
Proof.
  intros. split; cbn [gap_code fst snd]; [lia |]. rewrite pow2_add by lia. pose proof (pow2_pos g). lia.
Qed.

Lemma ef_lows_ok L c : 0 <= L -> Forall code_ok (ef_lows L c).
Proof. intros. apply Forall_map, Forall_forall. intros v _. split; [done | by apply mod_pow2_bound]. Qed.

Lemma ef_highs_ok prev L c U : 0 <= L -> nondec prev c U -> Forall code_ok (ef_highs (prev / 2 ^ L) L c).
Proof.
  intros HL. revert prev. induction c as [| v c IH]; intros prev; [constructor |]. intros [Hv Hc].
  constructor; [apply gap_code_ok | by apply IH]. pose proof (div_mono prev v L HL Hv). lia.
Qed.

Lemma ef_lows_len L c : (code_concat (ef_lows L c)).2 = L * len c.
Proof.
  induction c as [| v c IH]; [unfold len; cbn; lia |].
  change ((code_concat (ef_lows L (v :: c))).2) with (L + (code_concat (ef_lows L c)).2). rewrite IH, len_cons. lia.
Qed.

Lemma ef_highs_len prev L c : (code_concat (ef_highs prev L c)).2 = len c + default prev (last (map (fun v => v / 2 ^ L) c)) - prev.
Proof.
  revert prev. induction c as [| v c IH]; intros prev; [unfold len; cbn; lia |].
  cbn [ef_highs code_concat fold_right code_cat snd gap_code]. fold (code_concat (ef_highs (v / 2 ^ L) L c)).
  rewrite IH, len_cons. cbn [map last]. destruct c as [| w c]; [cbn; lia |].
  cbn [map]. destruct (last _) eqn:E; [cbn [default]; unfold id; lia | by apply last_None in E].
Qed.

(** ** Writing *)

(** The bits that do not fit are cut off. *)
Lemma u64_shiftl_mod v p : 0 <= p <= 64 -> u64 (Z.shiftl v p) = Z.shiftl (v mod 2 ^ (64 - p)) p.
Proof.
  intros Hp. rewrite !shiftl_pow by lia. unfold u64.
  replace (2 ^ 64) with (2 ^ (64 - p) * 2 ^ p) by (rewrite <- pow2_add by lia; f_equal; lia).
  apply Z.mul_mod_distr_r; pose proof (pow2_pos (64 - p)); pose proof (pow2_pos p); lia.
Qed.

Lemma make_split {A} (d : A) n m : 0 <= n <= m -> make d m = make d n ++ make d (m - n).
Proof. intros. unfold make. rewrite <- replicate_add. f_equal. lia. Qed.

Lemma le_val_zeros n : le_val (make 0 n) = 0.
Proof. unfold make. induction (Z.to_nat n) as [| k IH]; [done |]. cbn [replicate]. rewrite le_val_cons, IH. lia. Qed.

Lemma zeros_bytes n : Forall is_byte (make 0 n).
Proof. apply Forall_replicate. unfold_words. lia. Qed.

(** Storing bytes after a prefix [A] of a zeroed buffer. *)
Lemma store_zeros (A bs : list Z) T :
  len A + len bs <= T ->
  store (A ++ make 0 (T - len A)) (len A) bs = Ok ((A ++ bs) ++ make 0 (T - len (A ++ bs))).
Proof.
  intros Hl. pose proof (len_nonneg bs). rewrite (make_split 0 (len bs) (T - len A)) by lia.
  rewrite store_app_exact; [| done | unfold make, len; rewrite length_replicate; lia].
  rewrite len_app, <- app_assoc. do 4 f_equal. lia.
Qed.

Lemma lowStep_eq L m b word wp bytePos v :
  lowStep L m (b, word, wp, bytePos) v =
  if wp + L <=? 64 then Ok (b, Z.lor word (u64 (Z.shiftl (Z.land v m) wp)), wp + L, bytePos)
  else
    b ← put_le 8 b bytePos (Z.lor word (u64 (Z.shiftl (Z.land v m) wp)));
    Ok (b, Z.shiftr (Z.land v m) (64 - wp), L - (64 - wp), bytePos + 8).
Proof. reflexivity. Qed.

(** The state of the low-bit loop after some values: [A] is stored, [word] is
    not yet. *)
Lemma low_loop L T c : forall A word wp cur,
  0 <= L < 16 -> Forall is_byte A -> 0 <= wp <= 64 -> 0 <= word < 2 ^ wp ->
  cur = (le_val A + word * 2 ^ (8 * len A), 8 * len A + wp) ->
  8 * len A + wp + L * len c <= 8 * T ->
  Forall (fun v => 0 <= v) c ->
  exists A' word' wp',
    foldM (lowStep L (u16 (u16 (Z.shiftl 1 L) - 1)))
    (A ++ make 0 (T - len A), word, wp, len A) c = Ok (A' ++ make 0 (T - len A'), word', wp', len A') /\
    Forall is_byte A' /\ 0 <= wp' <= 64 /\ 0 <= word' < 2 ^ wp' /\
    code_cat cur (code_concat (ef_lows L c)) = (le_val A' + word' * 2 ^ (8 * len A'), 8 * len A' + wp').
Proof.
  induction c as [| v c IH]; intros A word wp cur HL HA Hwp Hword Hcur HT Hc.
  { exists A, word, wp. split; [done |]. split_and!; try done; try lia. cbn. by rewrite code_nil_r. }
  apply Forall_cons in Hc as [Hv Hc]. rewrite len_cons in HT. pose proof (len_nonneg c). pose proof (len_nonneg A).
  cbn [foldM]. rewrite lowStep_eq. cbv zeta.
  assert (Z.land v (u16 (u16 (Z.shiftl 1 L) - 1)) = v mod 2 ^ L) as ->.
  { rewrite shiftl_pow, Z.mul_1_l by lia. pose proof (pow2_le L 15 ltac:(lia)). pose proof (pow2_pos L).
    change (2 ^ 15) with 32768 in *. rewrite (u16_id (2 ^ L)), u16_id by (unfold_words; lia). apply land_mask. lia. }
  pose proof (mod_pow2_bound v L ltac:(lia)) as Hlv. set (lv := v mod 2 ^ L) in *.
  assert (forall A' w' wp', le_val A' + w' * 2 ^ (8 * len A') = cur.1 + lv * 2 ^ cur.2 -> 8 * len A' + wp' = cur.2 + L ->
    code_cat cur (code_concat (ef_lows L (v :: c))) =
    code_cat (le_val A' + w' * 2 ^ (8 * len A'), 8 * len A' + wp') (code_concat (ef_lows L c))) as Hstep.
  { intros A' w' wp' E1 E2. cbn [ef_lows map code_concat fold_right]. fold lv. fold (ef_lows L c). fold (code_concat (ef_lows L c)).
    rewrite <- code_cat_assoc by (rewrite ?Hcur; cbn [snd]; lia). f_equal. unfold code_cat. cbn [fst snd]. by rewrite E1, E2. }
  destruct (Z.leb_spec (wp + L) 64); cbn [mbind res_bind].
  - destruct (word_append word lv wp L) as [-> Hb]; [lia | lia | lia | done | done |].
    destruct (IH A (word + lv * 2 ^ wp) (wp + L) _ HL HA ltac:(lia) Hb eq_refl ltac:(lia) Hc) as (A' & w' & wp' & -> & HA1 & HA2 & HA3 & HA4).
    exists A', w', wp'. split; [done |]. split_and!; try done; try lia. rewrite <- HA4. apply Hstep; rewrite Hcur; cbn [fst snd]; [| lia].
    rewrite Z.pow_add_r by lia. ring.
  - rewrite u64_shiftl_mod by lia. set (k := 64 - wp). set (lo := lv mod 2 ^ k).
    pose proof (mod_pow2_bound lv k ltac:(lia)) as Hlo. fold lo in Hlo.
    rewrite lor_shiftl_add by lia. unfold put_le. rewrite store_zeros by (rewrite len_le_bytes; lia). cbn [mbind res_bind].
    assert (0 <= word + lo * 2 ^ wp < 2 ^ 64) as Hw.
    { replace 64 with (k + wp) by lia. rewrite pow2_add by lia. nia. }
    replace (len A + 8) with (len (A ++ le_bytes 8 (word + lo * 2 ^ wp))) by (rewrite len_app, len_le_bytes; lia).
    rewrite shiftr_div by lia.
    assert (0 <= lv / 2 ^ k < 2 ^ (L - k)) as Hhi.
    { split; [apply Z.div_pos; [lia | apply pow2_pos; lia] |]. apply Z.div_lt_upper_bound; [apply pow2_pos; lia |].
      rewrite <- pow2_add by lia. replace (k + (L - k)) with L by lia. lia. }
    set (A2 := A ++ le_bytes 8 (word + lo * 2 ^ wp)) in *.
    assert (Forall is_byte A2) as HA2 by (apply Forall_app; split; [done | apply le_bytes_bytes]).
    assert (len A2 = len A + 8) as HlA2 by (unfold A2; rewrite len_app, len_le_bytes; lia).
    destruct (IH A2 (lv / 2 ^ k) (L - k) _ HL HA2 ltac:(lia) Hhi eq_refl ltac:(lia) Hc) as (A' & w' & wp' & -> & HA1 & HA3 & HA5 & HA4).
    exists A', w', wp'. split; [done |]. split_and!; try done; try lia. rewrite <- HA4. apply Hstep; rewrite Hcur; cbn [fst snd].
    + unfold A2. rewrite le_val_app, le_val_bytes, len_app, len_le_bytes. change (Z.of_nat (length A)) with (len A).
      rewrite (Z.mod_small (word + _)) by done. pose proof (Z.div_mod lv (2 ^ k) ltac:(pose proof (pow2_pos k); lia)) as E. fold lo in E.
      rewrite (pow2_add (8 * len A) wp) by lia.
      change (Z.of_nat 8) with 8. replace (8 * (len A + 8)) with (8 * len A + (k + wp)) by lia. rewrite (pow2_add (8 * len A) (k + wp)), (pow2_add k wp) by lia.
      change (Z.of_nat 8) with 8. rewrite E at 2. ring.
    + lia.
Qed.

Lemma writeLowBits_spec T L c :
  0 < L < 16 -> Forall (fun v => 0 <= v) c -> L * len c <= 8 * T ->
  exists b, writeLowBits (make 0 T) c L = Ok b /\ Forall is_byte b /\ len b = len (make 0 T) /\
    le_val b = (code_concat (ef_lows L c)).1.
Proof.
  intros HL Hc HT. unfold writeLowBits. pose proof (len_nonneg c).
  destruct (low_loop L T c [] 0 0 code_nil ltac:(lia) ltac:(constructor)) as (A & word & wp & Hf & HA & Hwp & Hword & Hcode);
    [lia | cbn; lia | reflexivity | unfold len in *; cbn; lia | done |].
  rewrite code_nil_l in Hcode. change (len (@nil Z)) with 0 in Hf. rewrite Z.sub_0_r in Hf. cbn [app] in Hf. rewrite Hf. cbn [mbind res_bind].
  assert ((code_concat (ef_lows L c)).2 = 8 * len A + wp) as Hlen by (by rewrite Hcode). rewrite ef_lows_len in Hlen.
  pose proof (len_nonneg A) as HAl. assert (0 <= T) by lia.
  destruct (Z.ltb_spec 0 wp).
  - set (nb := (wp + 7) / 8). assert (0 <= nb <= 8 /\ wp <= 8 * nb < wp + 8) as [Hnb Hnb2] by (subst nb; Z.div_mod_to_equations; lia).
    assert (take (Z.to_nat nb) (le_bytes 8 word) = le_bytes (Z.to_nat nb) word) as ->.
    { replace 8%nat with (Z.to_nat nb + (8 - Z.to_nat nb))%nat by lia. rewrite le_bytes_app.
      rewrite take_app_length'; [done | by rewrite length_le_bytes]. }
    rewrite store_zeros by (rewrite len_le_bytes; lia).
    eexists. split; [done |]. split_and!.
    + apply Forall_app. split; [apply Forall_app; split; [done | apply le_bytes_bytes] | apply zeros_bytes].
    + rewrite !len_app, len_le_bytes, !len_make by lia. lia.
    + rewrite le_val_app, le_val_zeros, le_val_app, le_val_bytes, Z.mod_small, Hcode; cbn [fst].
      * change (Z.of_nat (length A)) with (len A). ring.
      * split; [lia |]. eapply Z.lt_le_trans; [apply Hword |]. apply pow2_le. lia.
  - assert (wp = 0) as -> by lia. eexists. split; [done |]. split_and!.
    + apply Forall_app. split; [done | apply zeros_bytes].
    + rewrite len_app, !len_make by lia. lia.
    + rewrite le_val_app, le_val_zeros, Hcode. cbn [fst]. change (2 ^ 0) with 1 in Hword. assert (word = 0) as -> by lia. ring.
Qed.

(** Setting a bit above all the bits set so far. *)
Lemma set_bit_spec b pos :
  Forall is_byte b -> 0 <= pos < 8 * len b -> le_val b < 2 ^ pos ->
  exists x b', idx b (pos / 8) = Ok x /\ upd b (pos / 8) (Z.lor x (Z.shiftl 1 (pos mod 8))) = Ok b' /\
    Forall is_byte b' /\ len b' = len b /\ le_val b' = le_val b + 2 ^ pos.
Proof.
  intros Hb Hp Hv. pose proof (Z.div_mod pos 8 ltac:(lia)) as Hd. pose proof (Z.mod_pos_bound pos 8 ltac:(lia)) as Hm.
  set (k := pos / 8) in *. set (t := pos mod 8) in *. destruct (idx_in_range b k) as (x & Hx & Hi); [lia |].
  exists x. rewrite Hi. rewrite upd_in_range by lia. eexists. split; [done |]. split; [done |].
  pose proof (Forall_lookup_1 _ _ _ _ Hb Hx) as Hxb.
  pose proof (take_drop_middle b (Z.to_nat k) x Hx) as Hs. set (A := take (Z.to_nat k) b) in *. set (R := drop (S (Z.to_nat k)) b) in *.
  assert (len A = k) as HlA. { unfold len, A. rewrite length_take. apply lookup_lt_Some in Hx. lia. }
  assert (Forall is_byte A /\ Forall is_byte R) as [HA HR] by (split; [by apply Forall_take | by apply Forall_drop]).
  rewrite <- Hs in Hv. rewrite le_val_app, le_val_cons in Hv. change (Z.of_nat (length A)) with (len A) in Hv. rewrite HlA in Hv.
  pose proof (le_val_bound A HA) as HbA. pose proof (le_val_bound R HR) as HbR. unfold is_byte, is_u in Hxb.
  rewrite Hd in Hv. rewrite (pow2_add (8 * k) t) in Hv by lia. pose proof (pow2_pos (8 * k) ltac:(lia)).
  pose proof (pow2_pos t ltac:(lia)). pose proof (pow2_le t 8 ltac:(lia)). change (2 ^ 8) with 256 in *.
  assert (x + 256 * le_val R < 2 ^ t) as Hxt by nia.
  assert (Z.lor x (Z.shiftl 1 t) = x + 2 ^ t) as -> by (rewrite lor_shiftl_add by lia; lia).
  assert (<[Z.to_nat k := x + 2 ^ t]> b = A ++ (x + 2 ^ t) :: R) as ->.
  { rewrite <- Hs at 1. rewrite insert_app_r_alt by (unfold len in HlA; lia).
    by replace (Z.to_nat k - length A)%nat with 0%nat by (unfold len in HlA; lia). }
  assert (len b = len (A ++ x :: R) /\ le_val b = le_val (A ++ x :: R)) as [-> ->] by (by rewrite Hs).
  split_and!.
  - apply Forall_app. split; [done |]. constructor; [| done].
    destruct (decide (t = 7)) as [-> |]; [change (2 ^ 7) with 128 in *; unfold_words; lia |].
    pose proof (pow2_le (t + 1) 7 ltac:(lia)). rewrite pow2_add in * by lia. change (2 ^ 7) with 128 in *. unfold_words; lia.
  - unfold len. rewrite !length_app. done.
  - rewrite !le_val_app, !le_val_cons. change (Z.of_nat (length A)) with (len A). rewrite HlA, Hd, pow2_add by lia. ring.
Qed.

Lemma highStep_eq L b bitPos prev v :
  highStep L (b, bitPos, prev) v =
  (x ← idx b ((bitPos + (Z.shiftr v L - prev)) / 8);
   b ← upd b ((bitPos + (Z.shiftr v L - prev)) / 8) (Z.lor x (Z.shiftl 1 ((bitPos + (Z.shiftr v L - prev)) mod 8)));
   Ok (b, bitPos + (Z.shiftr v L - prev) + 1, Z.shiftr v L)).
Proof. reflexivity. Qed.

Lemma high_loop L U c : forall b prev bitPos,
  0 <= L -> Forall is_byte b -> 0 <= bitPos -> 0 <= le_val b < 2 ^ bitPos -> nondec prev c U ->
  bitPos + (code_concat (ef_highs (prev / 2 ^ L) L c)).2 <= 8 * len b ->
  exists b' p h, foldM (highStep L) (b, bitPos, prev / 2 ^ L) c = Ok (b', p, h) /\
    Forall is_byte b' /\ len b' = len b /\
    le_val b' = le_val b + (code_concat (ef_highs (prev / 2 ^ L) L c)).1 * 2 ^ bitPos.
Proof.
  induction c as [| v c IH]; intros b prev bitPos HL Hb Hp Hv Hc Hl.
  { eexists b, _, _. split; [done |]. split_and!; [done | done | cbn; lia]. }
  destruct Hc as [Hpv Hc]. pose proof (div_mono prev v L HL Hpv) as Hg.
  pose proof (code_concat_ok _ (ef_highs_ok v L c U HL Hc)) as [Hlen _].
  change ((code_concat (ef_highs (prev / 2 ^ L) L (v :: c)))) with
    (code_cat (gap_code (v / 2 ^ L - prev / 2 ^ L)) (code_concat (ef_highs (v / 2 ^ L) L c))) in *.
  set (rest := code_concat _) in *. cbn [code_cat gap_code fst snd] in *.
  cbn [foldM]. rewrite highStep_eq, shiftr_div by done. set (g := v / 2 ^ L - prev / 2 ^ L) in *.
  assert (2 ^ bitPos <= 2 ^ (bitPos + g)) as Hpg by (apply pow2_le; lia).
  destruct (set_bit_spec b (bitPos + g) Hb ltac:(lia) ltac:(lia)) as (x & b1 & -> & H1 & Hb1 & Hl1 & Hv1).
  cbn [mbind res_bind]. rewrite H1. cbn [mbind res_bind].
  destruct (IH b1 v (bitPos + g + 1) HL Hb1 ltac:(lia)) as (b' & p & h & -> & Hb' & Hl' & Hv'); [| done | fold rest; lia |].
  - rewrite (pow2_add _ 1) by lia. lia.
  - exists b', p, h. split; [done |]. split_and!; [done | lia |]. rewrite Hv', Hv1. fold rest.
    rewrite !pow2_add by lia. ring.
Qed.

Lemma low_bits_bound n U : 0 < n -> 0 <= U < 2 ^ 16 -> 0 <= computeEFLowBits n U < 16.
Proof.
  intros Hn HU. unfold computeEFLowBits. destruct ((U <=? n) || (n =? 0)) eqn:E; [lia |].
  apply orb_false_iff in E as [E1%Z.leb_gt E2%Z.eqb_neq]. unfold bits_Len.
  assert (1 <= U / n) as H1 by (apply Z.div_le_lower_bound; lia). destruct (Z.eqb_spec (U / n) 0); [lia |].
  assert (U / n < 2 ^ 16) as H2 by (apply Z.div_lt_upper_bound; nia).
  pose proof (Z.log2_nonneg (U / n)). assert (Z.log2 (U / n) < 16) by (apply Z.log2_lt_pow2; lia). lia.
Qed.

Lemma ef_code_len prev L c U :
  0 <= L -> 0 <= prev -> nondec prev c U ->
  (code_concat (ef_highs (prev / 2 ^ L) L c)).2 <= len c + U / 2 ^ L.
Proof.
  intros HL Hp Hc. rewrite ef_highs_len. assert (0 <= prev / 2 ^ L) by (apply Z.div_pos; [lia | by apply pow2_pos]).
  assert (default (prev / 2 ^ L) (last (map (fun v => v / 2 ^ L) c)) <= U / 2 ^ L) as H0; [| lia].
  revert prev Hc Hp H. induction c as [| v c IH]; intros prev Hc Hp H.
  - cbn. apply div_mono; [done |]. by apply nondec_le in Hc.
  - destruct Hc as [Hv Hc]. specialize (IH v Hc ltac:(lia) ltac:(apply Z.div_pos; [lia | by apply pow2_pos])).
    cbn [map last]. destruct c as [| w c]; [exact IH |]. cbn [map] in *.
    destruct (last _) eqn:E; [exact IH | by apply last_None in E].
Qed.

Lemma eliasFanoSize_eq n U :
  0 < n -> 0 <= U < 2 ^ 16 ->
  let L := computeEFLowBits n U in eliasFanoSize n U = (n + U / 2 ^ L + n * L + 7) / 8.
Proof.
  intros Hn HU L. unfold eliasFanoSize. destruct (Z.eqb_spec n 0); [lia |]. cbv zeta. fold L.
  pose proof (low_bits_bound n U Hn HU) as HL. fold L in HL. destruct (Z.ltb_spec L 16); [| lia].
  by rewrite shiftr_div by lia.
Qed.

Lemma encodeEliasFanoInto_spec c U buf :
  c <> [] -> 0 <= U < 2 ^ 16 -> nondec 0 c U ->
  let L := computeEFLowBits (len c) U in
  exists b buf', encodeEliasFanoInto c U buf = Ok (b, buf') /\ Forall is_byte b /\
    len b = eliasFanoSize (len c) U /\ le_val b = (ef_code L c).1 /\ (ef_code L c).2 <= 8 * len b.
Proof.
  intros Hne HU Hc L. assert (0 < len c) as Hn by (destruct c; [done | rewrite len_cons; pose proof (len_nonneg c); lia]).
  pose proof (low_bits_bound (len c) U Hn HU) as HL. fold L in HL. pose proof (eliasFanoSize_eq (len c) U Hn HU) as HT.
  cbv zeta in HT. fold L in HT. unfold encodeEliasFanoInto, eliasFanoSize in *. destruct (Z.eqb_spec (len c) 0); [lia |].
  cbv zeta in *. fold L in HT |- *. rewrite HT. rewrite shiftr_div in * by lia. set (T := (len c + U / 2 ^ L + len c * L + 7) / 8) in *.
  assert (0 <= U / 2 ^ L) as HUL by (apply Z.div_pos; [lia | apply pow2_pos; lia]).
  destruct (Z.ltb_spec L 16); [| lia]. destruct (regrow buf _) as [b0 rest].
  assert (len c + U / 2 ^ L + len c * L <= 8 * T) as HT8 by (subst T; Z.div_mod_to_equations; lia). clear HT.
  assert (len (make 0 T) = T) as HlT by (apply len_make; lia).
  assert (exists b1, (if 0 <? L then writeLowBits (make 0 T) c L else Ok (make 0 T)) = Ok b1 /\ Forall is_byte b1 /\
    len b1 = T /\ le_val b1 = (code_concat (ef_lows L c)).1) as (b1 & -> & Hb1 & Hl1 & Hv1).
  { destruct (Z.ltb_spec 0 L).
    - destruct (writeLowBits_spec T L c) as (b1 & H1 & H2 & H3 & H4); [lia | | lia | exists b1; by rewrite H3 in *].
      eapply Forall_impl; [by eapply nondec_Forall |]. intros; cbn in *; lia.
    - exists (make 0 T). split; [done |]. split; [apply zeros_bytes |]. split; [done |]. rewrite le_val_zeros.
      assert (L = 0) as -> by lia. symmetry. clear. induction c as [| v c IH]; [done |].
      cbn [ef_lows map code_concat fold_right code_cat fst snd]. rewrite Z.mod_1_r, Z.mul_1_r. exact IH. }
  cbn [mbind res_bind]. unfold writeHighBits.
  pose proof (code_concat_ok _ (ef_lows_ok L c ltac:(lia))) as [Hlo1 Hlo2]. rewrite ef_lows_len in *.
  pose proof (ef_code_len 0 L c U ltac:(lia) ltac:(lia) Hc) as Hhl. rewrite Z.div_0_l in Hhl by (pose proof (pow2_pos L); lia).
  pose proof (high_loop L U c b1 0 (len c * L) ltac:(lia) Hb1 ltac:(nia)) as Hh.
  rewrite Z.div_0_l in Hh by (pose proof (pow2_pos L); lia). rewrite Hv1, (Z.mul_comm (len c) L) in *.
  destruct Hh as (b & p & h & -> & Hb & Hl & Hv); [done | done | lia |]. cbn [mbind res_bind].
  eexists b, _. split; [done |]. split_and!; [done | lia | |].
  - rewrite Hv. unfold ef_code, code_cat. cbn [fst snd]. by rewrite ef_lows_len.
  - unfold ef_code, code_cat. cbn [fst snd]. rewrite ef_lows_len. lia.
Qed.
