(* ===== verification/BijRange.v ===== *)
(** * Reading Elias-Fano counts back: the decoder of a segment

    The range decoder starts at a checkpoint in the high bits and reads the
    counts of a segment up to the bucket of the key. *)
From S2P Require Import Prelude Words BijMix BijBits BijStream BijEnc BijSolver BijBuilder BijDecode BijElias.
#[local] Open Scope Z_scope.

(** ** Windows of 64 bits *)
Lemma pos_trailing_zeros_unique x g :
  0 < x -> 0 <= g -> x mod 2 ^ (g + 1) = 2 ^ g -> TrailingZeros64 x = g.
Proof.
  intros Hx Hg Hm. destruct x as [| q |]; try lia. cbn [TrailingZeros64].
  destruct (pos_trailing_zeros_spec q) as [Ht (m & Hq)]. set (t := pos_trailing_zeros q) in *. rewrite Hq in Hm.
  pose proof (pow2_pos t Ht). destruct (Z.lt_total t g) as [Hlt | [? | Hgt]]; [| done |]; exfalso.
  - assert ((2 ^ t * (2 * m + 1)) mod 2 ^ (t + 1) = 2 ^ t) as H1.
    { rewrite (pow2_add t 1) by lia. rewrite Z.mul_mod_distr_l by lia. change (2 ^ 1) with 2.
      rewrite (Z.add_comm (2 * m)), (Z.mul_comm 2), Z.mod_add by lia. change (1 mod 2) with 1. lia. }
    rewrite <- (Z.mod_mod_divide _ (2 ^ (g + 1)) (2 ^ (t + 1))), Hm in H1.
    2:{ exists (2 ^ (g - t)). rewrite <- pow2_add by lia. f_equal. lia. }
    replace (2 ^ g) with (2 ^ (g - t - 1) * 2 ^ (t + 1)) in H1 by (rewrite <- pow2_add by lia; f_equal; lia).
    rewrite Z.mod_mul in H1 by (pose proof (pow2_pos (t + 1)); lia). lia.
  - replace (2 ^ t) with (2 ^ (t - g - 1) * 2 ^ (g + 1)) in Hm by (rewrite <- pow2_add by lia; f_equal; lia).
    replace (2 ^ (t - g - 1) * 2 ^ (g + 1) * (2 * m + 1)) with (2 ^ (t - g - 1) * (2 * m + 1) * 2 ^ (g + 1)) in Hm by ring.
    rewrite Z.mod_mul in Hm by (pose proof (pow2_pos (g + 1)); lia). pose proof (pow2_pos g). lia.
Qed.

Lemma one_bit_shift D p a g :
  0 <= p -> 0 <= a <= g -> bits_at D p (g + 1) = 2 ^ g ->
  bits_at D p a = 0 /\ bits_at D (p + a) (g - a + 1) = 2 ^ (g - a).
Proof.
  intros Hp Ha H. pose proof (bits_at_add D p a (g - a + 1) Hp ltac:(lia) ltac:(lia)) as E.
  replace (a + (g - a + 1)) with (g + 1) in E by lia. rewrite H in E.
  pose proof (bits_at_bound D p a ltac:(lia)). pose proof (pow2_pos a ltac:(lia)).
  replace (2 ^ g) with (2 ^ a * 2 ^ (g - a)) in E by (rewrite <- pow2_add by lia; f_equal; lia).
  set (A := bits_at D p a) in *. set (Y := bits_at D (p + a) _) in *. set (G := 2 ^ (g - a)) in *.
  assert (A = 2 ^ a * (G - Y)) as HA by lia. assert (G - Y = 0) by nia. split; nia.
Qed.

Lemma TrailingZeros64_bound x : 0 < x -> 0 <= TrailingZeros64 x.
Proof. destruct x as [| q |]; try lia. intros _. cbn. apply pos_trailing_zeros_spec. Qed.

(** The shape both kinds of windows have: the bits of the data that are there,
    and a one bit right after them when the data ends. *)
Definition window_of (data : list Z) (byteIdx w : Z) : Prop :=
  is_u 64 w /\ w mod 2 ^ (8 * Z.min 8 (len data - byteIdx)) = bits_at (le_val data) (8 * byteIdx) (8 * Z.min 8 (len data - byteIdx)).

Section window.
Context (data : list Z) (Hdata : Forall is_byte data).
#[local] Abbreviation D := (le_val data).

Lemma pad_loop (l : list Z) w r :
  0 <= r -> is_u 64 w -> Forall (fun i => r <= i < 8) l ->
  let w' := fold_left (fun w i => Z.lor w (u64 (Z.shiftl 0xFF (i * 8)))) l w in
  is_u 64 w' /\ w' mod 2 ^ (8 * r) = w mod 2 ^ (8 * r).
Proof.
  intros Hr. revert w. induction l as [| i l IH]; intros w Hw Hl; cbn [fold_left]; [done |].
  apply Forall_cons in Hl as [Hi Hl].
  destruct (IH (Z.lor w (u64 (Z.shiftl 0xFF (i * 8))))) as [H1 H2]; [apply lor_is_u; [lia | done | apply u64_is] | done |].
  split; [done |]. rewrite H2. apply Z.bits_inj'. intros j Hj.
  destruct (Z.lt_ge_cases j (8 * r)); [| by rewrite !Z.mod_pow2_bits_high by lia].
  rewrite !Z.mod_pow2_bits_low, Z.lor_spec by lia. unfold u64. rewrite Z.mod_pow2_bits_low by lia.
  rewrite Z.shiftl_spec_low by lia. apply orb_false_r.
Qed.

Lemma loadWindow64Safe_spec byteIdx :
  0 <= byteIdx < len data -> exists w, loadWindow64Safe data byteIdx = Ok w /\ window_of data byteIdx w.
Proof using Hdata.
  intros Hi. unfold loadWindow64Safe, window_of. destruct (Z.leb_spec 8 (len data - byteIdx)).
  - rewrite get_le_bits by (done || lia). eexists. split; [done |]. change (8 * Z.of_nat 8) with 64.
    split; [by apply bits_at_bound |]. replace (Z.min 8 (len data - byteIdx)) with 8 by lia.
    apply Z.mod_small. apply bits_at_bound. lia.
  - rewrite byte_loop by (done || lia). cbn [mbind res_bind]. eexists. split; [done |].
    replace (Z.min 8 (len data - byteIdx)) with (len data - byteIdx) by lia. set (r := len data - byteIdx) in *.
    pose proof (bits_at_bound D (8 * byteIdx) (8 * r) ltac:(lia)) as Hb.
    destruct (pad_loop (seqZ r (8 - r)) (bits_at D (8 * byteIdx) (8 * r)) r) as [H1 H2]; [lia | | |].
    + split; [lia |]. eapply Z.lt_le_trans; [apply Hb |]. apply pow2_le. lia.
    + apply Forall_forall. intros i Hin%elem_of_seqZ. lia.
    + split; [done |]. rewrite H2. by apply Z.mod_small.
Qed.

(** The load of the scan, and the window shifted to the current bit. *)
Lemma load_spec byteIdx :
  0 <= byteIdx < len data ->
  exists w, (if byteIdx + 8 <=? len data then get_le 8 data byteIdx else loadWindow64Safe data byteIdx) = Ok w /\
    window_of data byteIdx w.
Proof using Hdata.
  intros Hi. destruct (loadWindow64Safe_spec byteIdx Hi) as (w & Hw & Hwin). exists w. split; [| done].
  destruct (Z.leb_spec (byteIdx + 8) (len data)); [| done]. unfold loadWindow64Safe in Hw.
  destruct (Z.leb_spec 8 (len data - byteIdx)); [done | lia].
Qed.

Lemma window_bits byteIdx bit w n :
  window_of data byteIdx w -> 0 <= byteIdx < len data -> 0 <= bit < 8 -> 0 <= n ->
  bit + n <= 8 * Z.min 8 (len data - byteIdx) ->
  Z.shiftr w bit mod 2 ^ n = bits_at D (8 * byteIdx + bit) n.
Proof.
  intros [Hw Hm] Hi Hb Hn Hle. set (r := 8 * Z.min 8 (len data - byteIdx)) in *.
  rewrite shiftr_div by lia. rewrite <- (bits_at_shift D (8 * byteIdx) bit r n), <- Hm by lia.
  pose proof (bits_at_shift w 0 bit r n ltac:(lia) ltac:(lia) ltac:(lia) ltac:(lia)) as H1.
  unfold bits_at in H1 at 2 3. rewrite Z.div_1_r in H1. rewrite H1. done.
Qed.

(** ** The scan *)
Lemma scanHigh_spec fuel T ch bp g :
  0 <= T -> 0 <= bp -> 0 <= g -> bits_at D (T + bp) (g + 1) = 2 ^ g -> T + bp + g < 8 * len data ->
  (Z.to_nat (len data - (T + bp) / 8) < fuel)%nat ->
  scanHigh fuel data T (u16 ch) bp = Ok (u16 (ch + g), bp + (g + 1)).
Proof using Hdata.
  revert ch bp g. induction fuel as [| fuel IH]; intros ch bp g HT Hbp Hg Hbits Hin Hf; [lia |].
  cbn [scanHigh]. set (p := T + bp) in *. pose proof (Z.div_mod p 8 ltac:(lia)) as Hd.
  pose proof (Z.mod_pos_bound p 8 ltac:(lia)) as Hm. set (B := p / 8) in *. set (b := p mod 8) in *.
  destruct (Z.leb_spec (len data) B); [lia |].
  destruct (load_spec B ltac:(lia)) as (w & -> & Hw). cbn [mbind res_bind].
  assert (0 <= Z.shiftr w b < 2 ^ (64 - b)) as Hwin.
  { destruct Hw as [Hw _]. unfold is_u in Hw. rewrite shiftr_div by lia. split; [apply Z.div_pos; [lia | apply pow2_pos; lia] |].
    apply Z.div_lt_upper_bound; [apply pow2_pos; lia |]. rewrite <- pow2_add by lia.
    replace (b + (64 - b)) with 64 by lia. lia. }
  destruct (Z.le_gt_cases (b + (g + 1)) (8 * Z.min 8 (len data - B))) as [Hfit | Hnofit].
  - pose proof (window_bits B b w (g + 1) Hw ltac:(lia) Hm ltac:(lia) Hfit) as Hwb.
    rewrite <- Hd, Hbits in Hwb. pose proof (pow2_pos g Hg).
    destruct (Z.eqb_spec (Z.shiftr w b) 0) as [E | E]; [rewrite E, Z.mod_0_l in Hwb by (pose proof (pow2_pos (g + 1)); lia); lia |].
    rewrite (pos_trailing_zeros_unique _ g) by (done || lia). do 2 f_equal. zlia.
  - assert (8 <= len data - B) as Hr by lia. replace (Z.min 8 (len data - B)) with 8 in Hnofit by lia.
    pose proof (window_bits B b w (64 - b) Hw ltac:(lia) Hm ltac:(lia) ltac:(lia)) as Hwb.
    rewrite Z.mod_small in Hwb by done. rewrite <- Hd in Hwb.
    destruct (one_bit_shift D p (64 - b) g ltac:(lia) ltac:(lia) Hbits) as [H0 H1].
    rewrite H0 in Hwb. rewrite Hwb. cbn [Z.eqb].
    rewrite (u16_id (64 - b)) by (unfold_words; lia).
    assert (u16 (u16 ch + (64 - b)) = u16 (ch + (64 - b))) as -> by zlia.
    assert (B + 1 <= (p + (64 - b)) / 8) by (apply Z.div_le_lower_bound; lia).
    rewrite (IH (ch + (64 - b)) (bp + (64 - b)) (g - (64 - b))); rewrite ?Z.add_assoc; fold p; try lia; try done.
    do 2 f_equal; [f_equal; lia | lia].
Qed.

(** On any data: no panic; the position never goes back. *)
Lemma scanHigh_total fuel T ch bp :
  0 <= T -> 0 <= bp -> is_u 16 ch -> (Z.to_nat (len data - (T + bp) / 8) < fuel)%nat ->
  exists ch' bp', scanHigh fuel data T ch bp = Ok (ch', bp') /\ is_u 16 ch' /\ bp <= bp'.
Proof using Hdata.
  revert ch bp. induction fuel as [| fuel IH]; intros ch bp HT Hbp Hch Hf; [lia |].
  cbn [scanHigh]. set (p := T + bp) in *. pose proof (Z.div_mod p 8 ltac:(lia)) as Hd.
  pose proof (Z.mod_pos_bound p 8 ltac:(lia)) as Hm. set (B := p / 8) in *. set (b := p mod 8) in *.
  destruct (Z.leb_spec (len data) B); [by exists ch, bp |].
  destruct (load_spec B ltac:(lia)) as (w & -> & [Hw _]). cbn [mbind res_bind].
  destruct (Z.eqb_spec (Z.shiftr w b) 0) as [E | E].
  - assert (B + 1 <= (p + (64 - b)) / 8) by (apply Z.div_le_lower_bound; lia).
    destruct (IH (u16 (ch + u16 (64 - b))) (bp + (64 - b))) as (ch' & bp' & -> & H1 & H2); rewrite ?Z.add_assoc; fold p; try lia; [apply u16_is |].
    exists ch', bp'. split_and!; [done | exact H1 | lia].
  - eexists _, _. split; [done |]. split; [apply u16_is |].
    assert (0 < Z.shiftr w b) as Hpos by (assert (0 <= Z.shiftr w b) by (apply Z.shiftr_nonneg; apply Hw); lia).
    pose proof (TrailingZeros64_bound _ Hpos). lia.
Qed.

(** ** Low bits *)
Lemma idx_bits i : 0 <= i < len data -> exists v, idx data i = Ok v /\ v = bits_at D (8 * i) 8 /\ is_byte v.
Proof using Hdata.
  intros Hi. destruct (idx_in_range data i Hi) as (v & Hl & ->). exists v. split; [done |].
  pose proof (Forall_lookup_1 _ _ _ _ Hdata Hl). split; [| done].
  pose proof (le_val_window data (Z.to_nat i) 1 Hdata ltac:(unfold len in *; lia)) as Hw.
  rewrite (drop_S _ v) in Hw by done. cbn [take] in Hw. rewrite le_val_single in Hw. rewrite Hw. f_equal. lia.
Qed.

(** The tail holds the bytes that are there, three at most. *)
Lemma low_tail_spec B L b :
  0 <= B < len data -> 0 <= b < 8 -> 0 <= L ->
  exists m, 1 <= m <= 3 /\ B + m <= len data /\ low_tail data B L b = Ok (bits_at D (8 * B) (8 * m)) /\
    (m < 3 -> B + m = len data \/ L + b <= 8).
Proof using Hdata.
  intros HB Hb HL. unfold low_tail.
  destruct (idx_bits B HB) as (v0 & -> & E0 & Hv0). cbn [mbind res_bind].
  assert (forall v m, 1 <= m <= 2 -> B + m < len data -> v = bits_at D (8 * B) (8 * m) ->
    exists x, idx data (B + m) = Ok x /\ Z.lor v (u64 (Z.shiftl x (8 * m))) = bits_at D (8 * B) (8 * (m + 1))) as Hstep.
  { intros v m Hm Hl ->. destruct (idx_bits (B + m) ltac:(lia)) as (x & -> & Ex & Hx). exists x. split; [done |].
    destruct (word_append (bits_at D (8 * B) (8 * m)) x (8 * m) 8) as [-> _]; [lia .. | apply bits_at_bound; lia | exact Hx |].
    replace (8 * (m + 1)) with (8 * m + 8) by lia. rewrite bits_at_add by lia. rewrite Ex.
    replace (8 * (B + m)) with (8 * B + 8 * m) by lia. ring. }
  destruct (Z.ltb_spec (B + 1) (len data)) as [H1 | H1].
  - destruct (Hstep v0 1 ltac:(lia) H1 E0) as (v1 & -> & E1). cbn [mbind res_bind]. change (8 * 1) with 8 in E1. rewrite E1.
    destruct (Z.ltb_spec (B + 2) (len data)) as [H2 | H2]; [destruct (Z.ltb_spec 8 (L + b)) as [H3 | H3] |]; cbn [andb].
    + destruct (Hstep _ 2 ltac:(lia) H2 eq_refl) as (v2 & -> & E2). cbn [mbind res_bind]. exists 3. change (8 * 2) with 16 in E2.
      change (8 * (1 + 1)) with 16. rewrite E2. split_and!; [lia .. | done | lia].
    + exists 2. split_and!; [lia .. | done | lia].
    + exists 2. split_and!; [lia .. | done | lia].
  - destruct (Z.ltb_spec (B + 2) (len data)); [lia |]. exists 1. cbn [mbind res_bind andb]. rewrite E0. split_and!; [lia .. | done | lia].
Qed.

(** Both ways of reading [L] bits at bit [p]. *)
Lemma low_value p L :
  0 <= p -> 0 <= L < 16 -> p / 8 < len data ->
  (if p / 8 + 8 <=? len data then v ← get_le 8 data (p / 8); Ok (u16 (Z.land (Z.shiftr v (p mod 8)) (u64 (u64 (Z.shiftl 1 L) - 1))))
   else v ← low_tail data (p / 8) L (p mod 8); Ok (u16 (Z.land (Z.shiftr v (p mod 8)) (u64 (u64 (Z.shiftl 1 L) - 1))))) =
  Ok (bits_at D p L).
Proof using Hdata.
  intros Hp HL Hin. pose proof (Z.div_mod p 8 ltac:(lia)) as Hd. pose proof (Z.mod_pos_bound p 8 ltac:(lia)) as Hm.
  pose proof (Z.div_pos p 8 Hp ltac:(lia)) as HB. set (B := p / 8) in *. set (b := p mod 8) in *.
  pose proof (bits_at_bound D p L ltac:(lia)) as Hbd. pose proof (pow2_le L 16 ltac:(lia)) as H16.
  assert (forall n, b + L <= n -> u16 (bits_at D (8 * B) n / 2 ^ b mod 2 ^ L) = bits_at D p L) as Hread.
  { intros n Hn. pose proof (bits_at_shift D (8 * B) b n L ltac:(lia) ltac:(lia) ltac:(lia) Hn) as E.
    unfold bits_at in E at 1. rewrite E, <- Hd. apply u16_id. unfold is_u. lia. }
  destruct (Z.leb_spec (B + 8) (len data)).
  - rewrite get_le_bits by (done || lia). cbn [mbind res_bind]. rewrite land_mask64, shiftr_div by lia. f_equal. apply Hread. lia.
  - destruct (low_tail_spec B L b ltac:(lia) Hm ltac:(lia)) as (m & Hm3 & Hl & -> & Hcase). cbn [mbind res_bind].
    rewrite land_mask64, shiftr_div by lia. f_equal.
    destruct (Z.le_gt_cases (b + L) (8 * m)); [by apply Hread |].
    assert (B + m = len data) as Hend by lia. replace m with (len data - B) by lia.
    rewrite <- (bits_at_tail data B 64) by (done || lia). apply Hread. lia.
Qed.

Lemma rangeLow_spec L e :
  0 <= e -> 0 <= L < 16 -> e * L + L <= 8 * len data -> rangeLow data L (if 0 <? L then u64 (u64 (Z.shiftl 1 L) - 1) else 0) e = Ok (bits_at D (e * L) L).
Proof using Hdata.
  intros He HL Hin. unfold rangeLow. destruct (Z.ltb_spec 0 L).
  - assert (0 <= e * L) by nia. assert (e * L / 8 < len data) by (apply Z.div_lt_upper_bound; lia).
    rewrite <- (low_value (e * L) L) by (lia || done).
    destruct (Z.leb_spec (e * L / 8 + 8) (len data)); [done |]. destruct (Z.ltb_spec (e * L / 8) (len data)); [done | lia].
  - assert (L = 0) as -> by lia. unfold bits_at. by rewrite Z.mod_1_r.
Qed.

Lemma readEFLowBits_spec L e :
  0 <= e -> 0 <= L < 16 -> e * L + L <= 8 * len data -> readEFLowBits data e L = Ok (bits_at D (e * L) L).
Proof using Hdata.
  intros He HL Hin. unfold readEFLowBits. destruct (Z.eqb_spec L 0) as [-> |].
  { unfold bits_at. by rewrite Z.mod_1_r. }
  destruct (Z.ltb_spec e 0); [lia |]. cbn [orb]. assert (0 <= e * L) by nia.
  assert (e * L / 8 < len data) by (apply Z.div_lt_upper_bound; lia).
  rewrite <- (low_value (e * L) L) by (lia || done). destruct (Z.leb_spec (len data) (e * L / 8)); [lia | done].
Qed.

Lemma low_tail_total B L b : 0 <= B < len data -> 0 <= b < 8 -> 0 <= L -> exists v, low_tail data B L b = Ok v.
Proof using Hdata. intros. destruct (low_tail_spec B L b) as (m & _ & _ & -> & _); eauto. Qed.

Lemma rangeLow_total L mask e : 0 <= e -> 0 <= L -> exists v, rangeLow data L mask e = Ok v /\ is_u 16 v.
Proof using Hdata.
  intros He HL. unfold rangeLow. assert (is_u 16 0) as H0 by (unfold_words; lia).
  destruct (Z.ltb_spec 0 L); [| by exists 0]. assert (0 <= e * L / 8) by (apply Z.div_pos; nia).
  destruct (Z.leb_spec (e * L / 8 + 8) (len data)).
  { rewrite get_le_bits by (done || lia). eexists. split; [done |]. apply u16_is. }
  destruct (Z.ltb_spec (e * L / 8) (len data)); [| by exists 0].
  destruct (low_tail_total (e * L / 8) L (e * L mod 8)) as (v & ->); [lia | apply Z.mod_pos_bound; lia | lia |].
  eexists. split; [done |]. apply u16_is.
Qed.

Lemma readEFLowBits_total L e : 0 <= L -> exists v, readEFLowBits data e L = Ok v /\ is_u 16 v.
Proof using Hdata.
  intros HL. unfold readEFLowBits. assert (is_u 16 0) as H0 by (unfold_words; lia).
  destruct (Z.eqb_spec L 0); [by exists 0 |]. destruct (Z.ltb_spec e 0); [by exists 0 |]. cbn [orb].
  assert (0 <= e * L / 8) by (apply Z.div_pos; nia). destruct (Z.leb_spec (len data) (e * L / 8)); [by exists 0 |].
  destruct (Z.leb_spec (e * L / 8 + 8) (len data)).
  { rewrite get_le_bits by (done || lia). eexists. split; [done |]. apply u16_is. }
  destruct (low_tail_total (e * L / 8) L (e * L mod 8)) as (v & ->); [lia | apply Z.mod_pos_bound; lia | lia |].
  eexists. split; [done |]. apply u16_is.
Qed.
End window.

(** ** The segment *)

(** The value of the element at a list position, and the one before it. *)
Definition elt (c : list Z) (i : Z) : Z := if i <? 0 then 0 else default 0 (c !! Z.to_nat i).

(** The bytes [data] hold the counts [c] of [n] buckets with [U] keys. *)
Record holds_counts (data : list Z) (U : Z) (c : list Z) : Prop := {
  hc_bytes : Forall is_byte data;
  hc_pos : 0 < len c;
  hc_U : 0 <= U < 2 ^ 16;
  hc_nondec : nondec 0 c U;
  hc_code : has_code (le_val data) 0 (ef_code (computeEFLowBits (len c) U) c);
  hc_len : (ef_code (computeEFLowBits (len c) U) c).2 <= 8 * len data
}.

Lemma last_drop_elt (a b : list Z) : default 0 (last a) = elt (a ++ b) (len a - 1).
Proof.
  unfold elt, len. destruct a as [| x a _] using rev_ind; [done |]. rewrite last_snoc, length_app. cbn [default length].
  destruct (Z.ltb_spec (Z.of_nat (length a + 1) - 1) 0); [lia |].
  replace (Z.to_nat (Z.of_nat (length a + 1) - 1)) with (length a) by lia.
  rewrite <- app_assoc. cbn [app]. by rewrite list_lookup_middle by done.
Qed.

Lemma low_at D L (c : list Z) i v :
  0 <= L -> has_code D 0 (code_concat (ef_lows L c)) -> c !! i = Some v ->
  bits_at D (Z.of_nat i * L) L = v mod 2 ^ L.
Proof.
  intros HL H Hi. assert (code_ok (v mod 2 ^ L, L)) as Hv by (split; [done | by apply mod_pow2_bound]).
  rewrite <- (take_drop_middle c i v Hi) in H. unfold ef_lows in H. rewrite map_app in H. cbn [map] in H.
  fold (ef_lows L (take i c)) in H. fold (ef_lows L (drop (S i) c)) in H.
  pose proof (ef_lows_ok L (take i c) HL) as H1. pose proof (ef_lows_ok L (drop (S i) c) HL) as H2.
  rewrite code_concat_app in H; [| done | by constructor].
  apply has_code_cat in H as [_ H]; [| lia | by apply code_concat_ok | apply code_concat_ok; by constructor].
  rewrite ef_lows_len in H. unfold len in H. rewrite length_take_le in H by (apply lookup_lt_Some in Hi; lia).
  apply has_code_cat in H as [H _]; [| nia | done | by apply code_concat_ok].
  unfold has_code in H. cbn [fst snd] in H. rewrite <- H. f_equal. lia.
Qed.

Lemma ef_highs_app prev L a b :
  ef_highs prev L (a ++ b) = ef_highs prev L a ++ ef_highs (default prev (last (map (fun v => v / 2 ^ L) a))) L b.
Proof.
  revert prev. induction a as [| v a IH]; intros prev; [done |]. cbn [app ef_highs]. rewrite IH. do 3 f_equal.
  cbn [map last]. destruct a as [| w a]; [done |]. cbn [map].
  destruct (last _) eqn:E; [done | by apply last_None in E].
Qed.

Lemma default_last_map {A B} (f : A -> B) (d : A) (l : list A) : default (f d) (last (map f l)) = f (default d (last l)).
Proof. induction l as [| x l _] using rev_ind; [done |]. rewrite map_app. cbn [map]. by rewrite !last_snoc. Qed.

Section segment.
Context (data : list Z) (U : Z) (c : list Z) (Hc : holds_counts data U c).
#[local] Abbreviation D := (le_val data).
#[local] Abbreviation L := (computeEFLowBits (len c) U).
#[local] Abbreviation lowMask := (if 0 <? L then u64 (u64 (Z.shiftl 1 L) - 1) else 0).

Lemma counts_L : 0 <= L < 16.
Proof using Hc. destruct Hc. by apply low_bits_bound. Qed.

Lemma counts_u16 i : is_u 16 (elt c i).
Proof using Hc.
  destruct Hc as [_ _ HU Hn _ _]. unfold elt. destruct (i <? 0); [unfold_words; lia |].
  destruct (c !! Z.to_nat i) as [v |] eqn:Hv; cbn [default]; [| unfold_words; lia]. unfold id.
  pose proof (Forall_lookup_1 _ _ _ _ (nondec_Forall _ _ _ Hn) Hv) as Hb. cbn in Hb. unfold_words; lia.
Qed.

(** The two halves of the code. *)
Lemma counts_split :
  has_code D 0 (code_concat (ef_lows L c)) /\ has_code D (len c * L) (code_concat (ef_highs 0 L c)).
Proof using Hc.
  pose proof counts_L as HL. destruct Hc as [_ _ _ Hn Hcode _]. unfold ef_code in Hcode.
  apply has_code_cat in Hcode as [H1 H2]; [| lia | apply code_concat_ok, ef_lows_ok; lia |].
  - rewrite ef_lows_len in H2. split; [done |]. by rewrite Z.mul_comm in H2.
  - apply code_concat_ok. rewrite <- (Z.div_0_l (2 ^ L)) by (pose proof (pow2_pos L); lia).
    eapply ef_highs_ok; [lia | done].
Qed.

Lemma counts_len : len c * L + (code_concat (ef_highs 0 L c)).2 <= 8 * len data /\ len c * L + len c <= 8 * len data.
Proof using Hc.
  pose proof counts_L as HL. destruct Hc as [_ _ _ Hn _ Hlen]. unfold ef_code, code_cat in Hlen. cbn [snd] in Hlen.
  rewrite ef_lows_len in Hlen. split; [lia |]. rewrite ef_highs_len in Hlen.
  assert (0 <= default 0 (last (map (fun v => v / 2 ^ L) c))); [| lia].
  destruct (last _) as [v |] eqn:E; [| done]. cbn [default]. unfold id. apply last_Some in E as (l' & E).
  assert (v ∈ map (fun v => v / 2 ^ L) c) as Hin by (rewrite E; set_solver).
  apply list_elem_of_In, in_map_iff in Hin as (x & <- & Hx%list_elem_of_In).
  pose proof (nondec_Forall _ _ _ Hn) as Hall. rewrite Forall_forall in Hall. specialize (Hall x Hx). cbn in Hall.
  apply Z.div_pos; [lia | apply pow2_pos; lia].
Qed.

Lemma counts_low i v : c !! i = Some v -> bits_at D (Z.of_nat i * L) L = v mod 2 ^ L.
Proof using Hc. intros Hi. pose proof counts_L as HL. destruct counts_split as [H _]. apply (low_at _ _ c); [lia | done | done]. Qed.

Lemma rangeStep_eq lowBits T mask out count ch bp elem :
  rangeStep data lowBits T mask (out, count, ch, bp) elem =
  (lowVal ← rangeLow data lowBits mask elem;
   '(ch, bp) ← scanHigh (length data + 1) data T ch bp;
   out ← upd out count (Z.lor (u16 (Z.shiftl ch lowBits)) lowVal);
   Ok (out, count + 1, ch, bp)).
Proof. reflexivity. Qed.

Lemma join_high_low v : is_u 16 v -> Z.lor (u16 (Z.shiftl (v / 2 ^ L) L)) (v mod 2 ^ L) = v.
Proof using Hc.
  intros Hv. pose proof counts_L as HL. pose proof (mod_pow2_bound v L ltac:(lia)) as Hm.
  pose proof (Z.div_mod v (2 ^ L) ltac:(pose proof (pow2_pos L); lia)) as Hd.
  rewrite u16_id.
  - rewrite Z.lor_comm, lor_shiftl_add by lia. lia.
  - rewrite shiftl_pow by lia. unfold is_u in *. assert (0 <= v / 2 ^ L) by (apply Z.div_pos; lia). nia.
Qed.

(** The loop, from the element after [prev]. *)
Lemma range_loop vs : forall tail e prev bp pre old,
  0 <= e -> (forall i v, vs !! i = Some v -> c !! (Z.to_nat e + i)%nat = Some v) -> e + len vs <= len c ->
  0 <= prev -> nondec prev (vs ++ tail) U -> 0 <= bp ->
  has_code D (len c * L + bp) (code_concat (ef_highs (prev / 2 ^ L) L (vs ++ tail))) ->
  len c * L + bp + (code_concat (ef_highs (prev / 2 ^ L) L (vs ++ tail))).2 <= 8 * len data ->
  len vs <= len old ->
  exists ch bp', foldM (rangeStep data L (len c * L) lowMask) (pre ++ old, len pre, u16 (prev / 2 ^ L), bp) (seqZ e (len vs)) =
    Ok (pre ++ vs ++ drop (length vs) old, len pre + len vs, ch, bp').
Proof using Hc.
  pose proof counts_L as HL. pose proof counts_len as [_ Hlen]. pose proof (hc_U _ _ _ Hc) as HU.
  induction vs as [| v vs IH]; intros tail e prev bp pre old He Hlook Hle Hp Hn Hbp Hcode Hin Hold.
  { eexists _, _. unfold len at 3. cbn [length seqZ]. cbn. rewrite drop_0, Z.add_0_r. done. }
  destruct old as [| o old]; [rewrite len_cons in Hold; pose proof (len_nonneg vs); unfold len in Hold at 2; cbn in Hold; lia |].
  rewrite !len_cons in *. pose proof (len_nonneg vs) as Hvs.
  rewrite seqZ_cons by lia. cbn [foldM]. rewrite rangeStep_eq.
  assert (c !! Z.to_nat e = Some v) as Hv by (rewrite <- (Nat.add_0_r (Z.to_nat e)); by apply Hlook).
  rewrite (rangeLow_spec data (hc_bytes _ _ _ Hc)) by nia. cbn [mbind res_bind].
  pose proof (counts_low _ v Hv) as Hlow. rewrite Z2Nat.id in Hlow by lia. rewrite Hlow.
  destruct Hn as [Hpv Hn]. pose proof (div_mono prev v L ltac:(lia) Hpv) as Hg.
  cbn [app ef_highs] in Hcode, Hin.
  change (code_concat (gap_code (v / 2 ^ L - prev / 2 ^ L) :: ef_highs (v / 2 ^ L) L (vs ++ tail)))
    with (code_cat (gap_code (v / 2 ^ L - prev / 2 ^ L)) (code_concat (ef_highs (v / 2 ^ L) L (vs ++ tail)))) in *.
  pose proof (code_concat_ok _ (ef_highs_ok v L (vs ++ tail) U ltac:(lia) Hn)) as Hrest. set (rest := code_concat _) in *.
  apply has_code_cat in Hcode as [Hc1 Hc2]; [| nia | apply gap_code_ok; lia | done].
  unfold has_code in Hc1. cbn [gap_code fst snd code_cat] in *. set (g := v / 2 ^ L - prev / 2 ^ L) in *.
  rewrite (scanHigh_spec data (hc_bytes _ _ _ Hc) _ (len c * L) (prev / 2 ^ L) bp g).
  2: nia. 2: lia. 2: lia. 2: exact Hc1. 2: destruct Hrest; lia.
  2:{ assert (0 <= (len c * L + bp) / 8) by (apply Z.div_pos; nia). unfold len in *. lia. }
  cbn [mbind res_bind]. assert (0 <= prev / 2 ^ L) as Hp0 by (apply Z.div_pos; [lia | apply pow2_pos; lia]).
  replace (prev / 2 ^ L + g) with (v / 2 ^ L) by lia.
  assert (is_u 16 v) as Hvu by (apply nondec_le in Hn; unfold is_u; lia).
  assert (0 <= v / 2 ^ L) as Hvd by lia.
  assert (v / 2 ^ L <= v) as Hvle by (apply Z.div_le_upper_bound; [apply pow2_pos; lia | pose proof (pow2_pos L); nia]).
  rewrite (u16_id (v / 2 ^ L)) by (unfold_words; lia). rewrite join_high_low by done.
  rewrite upd_in_range by (rewrite len_app, len_cons; pose proof (len_nonneg pre); pose proof (len_nonneg old); lia). cbn [mbind res_bind].
  replace (Z.to_nat (len pre)) with (length pre + 0)%nat by (unfold len; lia). rewrite insert_app_r. cbn [insert list_insert].
  replace (pre ++ v :: old) with ((pre ++ [v]) ++ old) by (by rewrite <- app_assoc).
  replace (len pre + 1) with (len (pre ++ [v])) by (rewrite len_app, len_single; done).
  replace (Z.pred (1 + len vs)) with (len vs) by lia.
  destruct (IH tail (Z.succ e) v (bp + (g + 1)) (pre ++ [v]) old) as (ch & bp' & E); try lia; try done.
  - intros i x Hx. replace (Z.to_nat (Z.succ e) + i)%nat with (Z.to_nat e + S i)%nat by lia. by apply Hlook.
  - by rewrite Z.add_assoc.
  - fold rest. lia.
  - rewrite (u16_id (v / 2 ^ L)) in E by (unfold_words; lia). rewrite E.
    eexists _, _. f_equal. rewrite len_app, len_single, <- app_assoc. cbn [app drop length]. do 3 f_equal. lia.
Qed.

(** The high bits from element [k] on. *)
Lemma counts_high k :
  (k <= length c)%nat ->
  let prev := elt c (Z.of_nat k - 1) in
  0 <= prev /\ nondec prev (drop k c) U /\
  has_code D (len c * L + (Z.of_nat k + prev / 2 ^ L)) (code_concat (ef_highs (prev / 2 ^ L) L (drop k c))) /\
  len c * L + (Z.of_nat k + prev / 2 ^ L) + (code_concat (ef_highs (prev / 2 ^ L) L (drop k c))).2 <= 8 * len data.
Proof using Hc.
  intros Hk prev. pose proof counts_L as HL. pose proof (pow2_pos L ltac:(lia)) as HL0.
  pose proof (counts_u16 (Z.of_nat k - 1)) as Hp16. fold prev in Hp16.
  pose proof (hc_nondec _ _ _ Hc) as Hn. destruct counts_split as [_ Hh]. destruct counts_len as [Hlen _].
  assert (default 0 (last (take k c)) = prev) as Hlast.
  { rewrite (last_drop_elt _ (drop k c)), take_drop. unfold len. by rewrite length_take_le by done. }
  assert (default (0 / 2 ^ L) (last (map (fun v => v / 2 ^ L) (take k c))) = prev / 2 ^ L) as Hlast2.
  { by rewrite (default_last_map (fun v => v / 2 ^ L)), Hlast. }
  rewrite Z.div_0_l in Hlast2 by lia.
  assert (ef_highs 0 L c = ef_highs 0 L (take k c) ++ ef_highs (prev / 2 ^ L) L (drop k c)) as Hsplit.
  { pose proof (ef_highs_app 0 L (take k c) (drop k c)) as E. by rewrite take_drop, Hlast2 in E. }
  assert (nondec 0 (take k c) U /\ nondec prev (drop k c) U) as [Hn1 Hn2].
  { rewrite <- Hlast. apply nondec_app. by rewrite take_drop. }
  pose proof (ef_highs_ok 0 L (take k c) U ltac:(lia) Hn1) as Ho1. rewrite Z.div_0_l in Ho1 by lia.
  pose proof (ef_highs_ok prev L (drop k c) U ltac:(lia) Hn2) as Ho2.
  rewrite Hsplit in Hh, Hlen. rewrite code_concat_app in Hh, Hlen by done. cbn [code_cat snd] in Hlen.
  assert ((code_concat (ef_highs 0 L (take k c))).2 = Z.of_nat k + prev / 2 ^ L) as Hl1.
  { rewrite ef_highs_len, Hlast2. unfold len. rewrite length_take_le by done. lia. }
  rewrite Hl1 in Hlen. split; [unfold_words; lia |]. split; [done |]. split; [| lia].
  apply has_code_cat in Hh as [_ Hh]; [| pose proof (len_nonneg c); nia | by apply code_concat_ok ..].
  by rewrite Hl1 in Hh.
Qed.

(** Where a segment starts in the high bits: what the checkpoint stores. *)
Definition high_start (k : Z) : Z := if 0 <? k then k + elt c (k - 1) / 2 ^ L else 0.

Lemma decodeEFRangeInline_spec first last out :
  0 <= first <= last -> last < len c -> 8 <= len data -> last - first + 1 <= len out ->
  decodeEFRangeInline data (len c) U first last (high_start first) out =
  Ok (take (Z.to_nat (last - first + 1)) (drop (Z.to_nat first) c) ++ drop (Z.to_nat (last - first + 1)) out, last - first + 1).
Proof using Hc.
  intros Hf Hl H8 Hout. unfold decodeEFRangeInline.
  destruct (Z.ltb_spec last first); [lia |]. destruct (Z.leb_spec (len c) first); [lia |]. cbn [orb].
  destruct (Z.leb_spec (len c) last); [lia |]. destruct (Z.ltb_spec (len data) 8); [lia |]. cbv zeta.
  pose proof counts_L as HL. pose proof (pow2_pos L ltac:(lia)) as HL0.
  destruct (counts_high (Z.to_nat first)) as (Hp & Hn & Hcode & Hlen); [unfold len in *; lia |].
  rewrite Z2Nat.id in * by lia. set (prev := elt c (first - 1)) in *.
  assert (high_start first = first + prev / 2 ^ L) as Hbp.
  { unfold high_start. fold prev. destruct (Z.ltb_spec 0 first); [done |]. assert (first = 0) as -> by lia.
    unfold prev, elt. cbn. by rewrite Z.div_0_l by lia. }
  assert (0 <= prev / 2 ^ L) as Hd by (apply Z.div_pos; lia).
  assert ((if (0 <? first) && (first <=? high_start first) then u16 (high_start first - first) else 0) = u16 (prev / 2 ^ L)) as ->.
  { rewrite Hbp. destruct (Z.ltb_spec 0 first); cbn [andb].
    - destruct (Z.leb_spec first (first + prev / 2 ^ L)); [| lia]. f_equal. lia.
    - assert (first = 0) as -> by lia. unfold prev, elt. cbn. by rewrite Z.div_0_l by lia. }
  rewrite Hbp. set (vs := take (Z.to_nat (last - first + 1)) (drop (Z.to_nat first) c)).
  assert (len vs = last - first + 1) as Hvs.
  { unfold vs, len. rewrite length_take, length_drop. unfold len in *. lia. }
  assert (vs ++ drop (Z.to_nat (last - first + 1)) (drop (Z.to_nat first) c) = drop (Z.to_nat first) c) as Hcat by apply take_drop.
  rewrite <- Hvs. rewrite <- Hcat in Hn, Hcode, Hlen.
  set (tl := drop (Z.to_nat (last - first + 1)) (drop (Z.to_nat first) c)) in *.
  destruct (range_loop vs tl first prev (first + prev / 2 ^ L) [] out ltac:(lia)) as (ch & bp & E);
    [| | | exact Hn | | | exact Hlen | |].
  - intros i v Hv. unfold vs in Hv. apply lookup_take_Some in Hv as [Hv _]. by rewrite lookup_drop in Hv.
  - lia.
  - lia.
  - lia.
  - rewrite Z.add_assoc in Hcode. by rewrite Z.add_assoc.
  - lia.
  - cbn [app] in E. change (len (@nil Z)) with 0 in E. rewrite E. cbn [mbind res_bind]. rewrite Z.add_0_l. do 4 f_equal. unfold len. lia.
Qed.
End segment.

(** On any data: as many counts as elements, each 16 bits wide. *)
Lemma range_total data L T mask l : forall out count ch bp,
  Forall is_byte data -> 0 <= L -> 0 <= T -> 0 <= bp -> is_u 16 ch -> Forall (is_u 16) out ->
  Forall (fun e => 0 <= e) l -> 0 <= count -> count + len l <= len out ->
  exists out' ch' bp', foldM (rangeStep data L T mask) (out, count, ch, bp) l = Ok (out', count + len l, ch', bp') /\
    len out' = len out /\ Forall (is_u 16) out'.
Proof.
  induction l as [| e l IH]; intros out count ch bp Hd HL HT Hbp Hch Hout Hl Hc Hle.
  { eexists _, _, _. unfold len at 1. cbn. by rewrite Z.add_0_r. }
  apply Forall_cons in Hl as [He Hl]. rewrite len_cons in *. pose proof (len_nonneg l). cbn [foldM]. rewrite rangeStep_eq.
  destruct (rangeLow_total data Hd L mask e He HL) as (lo & -> & Hlo). cbn [mbind res_bind].
  destruct (scanHigh_total data Hd (length data + 1) T ch bp HT Hbp Hch) as (ch' & bp' & -> & Hch' & Hle').
  { assert (0 <= (T + bp) / 8) by (apply Z.div_pos; lia). unfold len. lia. }
  cbn [mbind res_bind]. rewrite upd_in_range by lia. cbn [mbind res_bind].
  destruct (IH (<[Z.to_nat count:=Z.lor (u16 (Z.shiftl ch' L)) lo]> out) (count + 1) ch' bp') as (out' & ch2 & bp2 & -> & Hl2 & Ho2); try done; try lia.
  - apply Forall_insert; [done |]. apply lor_is_u; [lia | apply u16_is | done].
  - rewrite len_insert. lia.
  - rewrite len_insert in Hl2. eexists _, _, _. split; [| done]. do 4 f_equal. lia.
Qed.

Lemma decodeEFRangeInline_total data n U first last bp out :
  Forall is_byte data -> 0 <= first <= last -> last < n -> 0 <= bp -> Forall (is_u 16) out -> last - first + 1 <= len out ->
  0 <= computeEFLowBits n U ->
  exists out' k, decodeEFRangeInline data n U first last bp out = Ok (out', k) /\ len out' = len out /\ Forall (is_u 16) out' /\
    (k = 0 -> out' = out /\ len data < 8).
Proof.
  intros Hd Hf Hl Hbp Ho Hlen HL. unfold decodeEFRangeInline.
  destruct (Z.ltb_spec last first); [lia |]. destruct (Z.leb_spec n first); [lia |]. cbn [orb].
  destruct (Z.leb_spec n last); [lia |]. destruct (Z.ltb_spec (len data) 8); [by exists out, 0 |]. cbv zeta.
  set (ch := if (0 <? first) && (first <=? bp) then _ else 0).
  assert (is_u 16 ch) as Hch by (subst ch; case_match; [apply u16_is | unfold_words; lia]).
  assert (len (seqZ first (last - first + 1)) = last - first + 1) as Hs by (unfold len; rewrite length_seqZ; lia).
  destruct (range_total data (computeEFLowBits n U) (n * computeEFLowBits n U)
    (if 0 <? computeEFLowBits n U then u64 (u64 (Z.shiftl 1 (computeEFLowBits n U)) - 1) else 0)
    (seqZ first (last - first + 1)) out 0 ch bp) as (out' & ch' & bp' & -> & Hl' & Ho'); try done; try lia; [nia | |].
  - apply Forall_forall. intros e Hin%elem_of_seqZ. lia.
  - cbn [mbind res_bind]. eexists _, _. split; [done |]. split_and!; [done | done | lia].
Qed.

(** ** Encoding and decoding *)
(** A byte string followed by anything still holds its code. *)
Lemma code_with_tail (bs tail : list Z) (c : code) :
  code_ok c -> le_val bs = c.1 -> c.2 <= 8 * len bs -> has_code (le_val (bs ++ tail)) 0 c.
Proof.
  intros Hc Hv Hl. rewrite le_val_app, Hv. destruct Hc as [Hc2 Hc1] eqn:E.
  replace (8 * Z.of_nat (length bs)) with ((8 * len bs - c.2) + c.2) by (unfold len; lia).
  rewrite pow2_add by lia. rewrite <- Z.mul_assoc, (Z.mul_comm (2 ^ c.2)), Z.mul_assoc. by apply has_code_prefix.
Qed.

Lemma ef_code_ok L c U : 0 <= L -> nondec 0 c U -> code_ok (ef_code L c).
Proof.
  intros HL Hc. unfold ef_code. apply code_cat_ok; [by apply code_concat_ok, ef_lows_ok |].
  apply code_concat_ok. rewrite <- (Z.div_0_l (2 ^ L)) by (pose proof (pow2_pos L); lia). by eapply ef_highs_ok.
Qed.

Lemma encoded_counts c U b tail :
  c <> [] -> 0 <= U < 2 ^ 16 -> nondec 0 c U -> Forall is_byte b -> Forall is_byte tail ->
  le_val b = (ef_code (computeEFLowBits (len c) U) c).1 -> (ef_code (computeEFLowBits (len c) U) c).2 <= 8 * len b ->
  holds_counts (b ++ tail) U c.
Proof.
  intros Hne HU Hc Hb Ht Hv Hl. assert (0 < len c) as Hn by (destruct c; [done | rewrite len_cons; pose proof (len_nonneg c); lia]).
  pose proof (low_bits_bound (len c) U Hn HU) as HL. pose proof (len_nonneg tail).
  split; [by apply Forall_app | done | done | done | apply code_with_tail; [eapply ef_code_ok; [lia | done] | done | done] | rewrite len_app; lia].
Qed.

(** C19: the Elias-Fano round trip. Any non-decreasing list of 16-bit counts is
    encoded into exactly [eliasFanoSize] bytes without running out of its
    buffer, and the range decoder, started anywhere from the position in the high
    bits that a checkpoint stores, reads back any window of it, whatever bytes
    follow the encoding. *)
Theorem ef_roundtrip c U buf tail first last out :
  c <> [] -> 0 <= U < 2 ^ 16 -> nondec 0 c U -> Forall is_byte tail ->
  0 <= first <= last -> last < len c -> 8 <= eliasFanoSize (len c) U + len tail -> last - first + 1 <= len out ->
  exists b buf', encodeEliasFanoInto c U buf = Ok (b, buf') /\ len b = eliasFanoSize (len c) U /\
    decodeEFRangeInline (b ++ tail) (len c) U first last (high_start U c first) out =
    Ok (take (Z.to_nat (last - first + 1)) (drop (Z.to_nat first) c) ++ drop (Z.to_nat (last - first + 1)) out, last - first + 1).
Proof.
  intros Hne HU Hc Ht Hf Hl H8 Ho. destruct (encodeEliasFanoInto_spec c U buf Hne HU Hc) as (b & buf' & He & Hb & Hlb & Hv & Hlen).
  exists b, buf'. split; [done |]. split; [done |].
  apply decodeEFRangeInline_spec; [by apply encoded_counts | done | done | rewrite len_app; lia | done].
Qed.

Lemma ef_roundtrip_witness :
  exists b buf', encodeEliasFanoInto [3; 3; 7; 20] 20 [] = Ok (b, buf') /\ len b = eliasFanoSize 4 20 /\
    decodeEFRangeInline (b ++ make 0 8) 4 20 1 3 (high_start 20 [3; 3; 7; 20] 1) [0; 0; 0; 0] = Ok ([3; 7; 20; 0], 3).
Proof.
  apply (ef_roundtrip [3; 3; 7; 20] 20 [] (make 0 8) 1 3 [0; 0; 0; 0]);
    [done | lia | cbn; lia | apply Forall_replicate; unfold_words; lia | lia | change (len [3; 3; 7; 20]) with 4; lia | | ].
  - change (len [3; 3; 7; 20]) with 4. change (eliasFanoSize 4 20) with 3. change (len (make 0 8)) with 8. lia.
  - change (len [0; 0; 0; 0]) with 4. lia.
Defined.
