(* ===== verification/BijFallback.v ===== *)
(** * The fallback list: written at the end of the metadata, found from there

    The list is [count, 4-byte entries, count xor 0x55]. The decoder does not
    know where it starts: it looks for an offset whose count gives exactly the
    bytes left and whose complement is the last byte. The last byte alone decides
    the count, so the offset it finds is the only possible one. *)
From S2P Require Import Prelude Words BijMix BijBits BijStream BijEnc BijSolver BijBuilder BijDecode BijRange.
#[local] Open Scope Z_scope.

(** ** Entries *)
Definition seedBits : Z := 21.

(** An entry whose fields fit their bits. *)
Definition fb_ok (e : fallbackEntry) : Prop :=
  is_u blockBits (bucketIndex e) /\ is_u 1 (subBucket e) /\ is_u seedBits (fb_seed e).

Definition fb_val (e : fallbackEntry) : Z := fb_seed e + subBucket e * 2 ^ 21 + bucketIndex e * 2 ^ 22.

Lemma fb_val_is e : fb_ok e -> is_u 32 (fb_val e).
Proof. intros (H1 & H2 & H3). unfold fb_val, is_u, blockBits, seedBits in *. lia. Qed.

Lemma land_1 x : Z.land x 1 = x mod 2.
Proof. apply (land_mask x 1). lia. Qed.

Lemma packed_entry_eq e : fb_ok e -> packed_entry blockBits e = fb_val e.
Proof.
  intros (H1 & H2 & H3). unfold packed_entry, fb_val, is_u, blockBits, seedBits in *.
  change (u32 (31 - 10)) with 21. change (1 + 21) with 22. change (u32 (u32 (Z.shiftl 1 21) - 1)) with (2 ^ 21 - 1).
  rewrite land_1, !land_mask by lia. rewrite (Z.mod_small (subBucket e)), (Z.mod_small (fb_seed e)) by lia.
  rewrite !u32_id by (rewrite ?shiftl_pow by lia; unfold_words; lia).
  rewrite (Z.lor_comm _ (fb_seed e)), (Z.lor_comm (Z.shiftl (bucketIndex e) 22)), Z.lor_assoc.
  rewrite (lor_shiftl_add (fb_seed e)) by lia. apply lor_shiftl_add; lia.
Qed.

Lemma decode_entry_val e : fb_ok e -> decode_entry blockBits (fb_val e) = e.
Proof.
  intros (H1 & H2 & H3). unfold decode_entry, fb_val, is_u, blockBits, seedBits in *.
  change (u32 (31 - 10)) with 21. change (1 + 21) with 22. change (u32 (u32 (Z.shiftl 1 21) - 1)) with (2 ^ 21 - 1).
  change (u32 (u32 (Z.shiftl 1 10) - 1)) with (2 ^ 10 - 1).
  rewrite land_1, !land_mask, !shiftr_div by lia.
  destruct e as [bi sb sd]. cbn [bucketIndex subBucket fb_seed] in *. f_equal; zlia.
Qed.

Definition fb_bytes (es : list fallbackEntry) : list Z :=
  len es :: concat (map (fun e => le_bytes 4 (fb_val e)) es) ++ [Z.lxor (len es) fallbackValidationXOR].

Lemma len_entries (es : list fallbackEntry) : len (concat (map (fun e => le_bytes 4 (fb_val e)) es)) = 4 * len es.
Proof. induction es as [| e es IH]; [done |]. cbn [map concat]. rewrite len_app, IH, len_le_bytes, len_cons. lia. Qed.

Lemma len_fb_bytes es : len (fb_bytes es) = 2 + 4 * len es.
Proof. unfold fb_bytes. rewrite len_cons, len_app, len_entries, len_single. lia. Qed.

Lemma fb_bytes_ok es : len es <= maxFallbackEntries -> Forall is_byte (fb_bytes es).
Proof.
  intros Hl. pose proof (len_nonneg es). unfold maxFallbackEntries in Hl. constructor; [unfold_words; lia |].
  apply Forall_app. split.
  - apply Forall_concat, Forall_map, Forall_forall. intros e _. apply le_bytes_bytes.
  - constructor; [| done]. apply lxor_is_u; unfold fallbackValidationXOR; unfold_words; lia.
Qed.

(** ** Writing *)
Lemma put4 (pre old post : list Z) v :
  length old = 4%nat ->
  (b ← upd (pre ++ old ++ post) (len pre) (u8 v);
   b ← upd b (len pre + 1) (u8 (Z.shiftr v 8));
   b ← upd b (len pre + 2) (u8 (Z.shiftr v 16));
   upd b (len pre + 3) (u8 (Z.shiftr v 24))) = Ok (pre ++ le_bytes 4 v ++ post).
Proof.
  intros Hl. destruct old as [| a [| b [| c [| d [|]]]]]; try done. cbn [app].
  rewrite upd_app_at by done. cbn [mbind res_bind].
  change (pre ++ u8 v :: b :: c :: d :: post) with (pre ++ [u8 v] ++ b :: c :: d :: post). rewrite app_assoc.
  rewrite upd_app_at by (by rewrite len_app). cbn [mbind res_bind].
  change (u8 (Z.shiftr v 8) :: c :: d :: post) with ([u8 (Z.shiftr v 8)] ++ c :: d :: post). rewrite app_assoc.
  rewrite upd_app_at by (rewrite !len_app; unfold len; cbn; lia). cbn [mbind res_bind].
  change (u8 (Z.shiftr v 16) :: d :: post) with ([u8 (Z.shiftr v 16)] ++ d :: post). rewrite app_assoc.
  rewrite upd_app_at by (rewrite !len_app; unfold len; cbn; lia).
  rewrite !shiftr_div by lia. unfold u8. rewrite <- !app_assoc. do 2 f_equal. cbn [app].
  rewrite !le_bytes_cons, !Z.div_div by lia. done.
Qed.

Lemma fallbackStep_eq (acc rest : list Z) i e :
  fb_ok e -> len acc = 1 + i * 4 -> (4 <= length rest)%nat ->
  fallbackStep blockBits (acc ++ rest, i) e = Ok ((acc ++ le_bytes 4 (fb_val e)) ++ drop 4 rest, i + 1).
Proof.
  intros He Ha Hl. unfold fallbackStep, compactFallbackEntrySize. rewrite packed_entry_eq, <- Ha by done.
  rewrite <- (take_drop 4 rest) at 1.
  pose proof (put4 acc (take 4 rest) (drop 4 rest) (fb_val e) ltac:(by apply length_take_le)) as Hput.
  destruct (upd (acc ++ take 4 rest ++ drop 4 rest) (len acc) _) as [b1 | |]; cbn [mbind res_bind] in *; try done.
  destruct (upd b1 _ _) as [b2 | |]; cbn [mbind res_bind] in *; try done.
  destruct (upd b2 _ _) as [b3 | |]; cbn [mbind res_bind] in *; try done.
  rewrite Hput. cbn [mbind res_bind]. by rewrite app_assoc.
Qed.

Lemma fallback_loop es : forall (acc rest : list Z) i,
  Forall fb_ok es -> len acc = 1 + i * 4 -> 4 * len es <= len rest ->
  foldM (fallbackStep blockBits) (acc ++ rest, i) es =
  Ok ((acc ++ concat (map (fun e => le_bytes 4 (fb_val e)) es)) ++ drop (4 * length es) rest, i + len es).
Proof.
  induction es as [| e es IH]; intros acc rest i Hes Ha Hl.
  { cbn. rewrite app_nil_r. unfold len. cbn. by rewrite Z.add_0_r. }
  apply Forall_cons in Hes as [He Hes]. rewrite len_cons in *. pose proof (len_nonneg es). cbn [foldM].
  rewrite fallbackStep_eq by (done || unfold len in *; lia). cbn [mbind res_bind].
  rewrite IH; [| done | rewrite len_app, len_le_bytes; lia | unfold len in *; rewrite length_drop; lia].
  rewrite drop_drop. cbn [map concat length]. rewrite <- !app_assoc. do 2 f_equal; [| lia]. do 4 f_equal. lia.
Qed.

Lemma encodeFallbackListIntoWithB_spec es buf :
  Forall fb_ok es -> len es <= maxFallbackEntries ->
  exists buf', encodeFallbackListIntoWithB es blockBits buf = Ok (fb_bytes es, buf').
Proof.
  intros Hes Hl. pose proof (len_nonneg es) as H0. unfold encodeFallbackListIntoWithB, maxFallbackEntries, compactFallbackEntrySize in *.
  destruct (Z.ltb_spec 255 (len es)); [lia |]. destruct (regrow buf (2 + len es * 4)) as [b rest] eqn:Hr.
  assert (len b = 2 + len es * 4) as Hb.
  { unfold regrow in Hr. destruct (Z.ltb_spec (len buf) (2 + len es * 4)); injection Hr as <- <-; [apply len_make; lia |].
    unfold len in *. rewrite length_take. lia. }
  rewrite u8_id by (unfold_words; lia). destruct b as [| x b]; [change (len (@nil Z)) with 0 in Hb; lia |].
  pose proof (upd_app_at [] x (len es) b 0 eq_refl) as E0. cbn [app] in E0. rewrite E0. cbn [mbind res_bind]. rewrite len_cons in Hb.
  pose proof (fallback_loop es [len es] b 0 Hes eq_refl ltac:(lia)) as E1. cbn [app] in E1. rewrite E1. cbn [mbind res_bind].
  pose proof (len_entries es) as He. set (body := concat _) in *.
  assert (exists r, drop (4 * length es) b = [r]) as [r ->].
  { assert (length (drop (4 * length es) b) = 1%nat) as H1 by (rewrite length_drop; unfold len in *; lia).
    destruct (drop _ b) as [| r [|]]; try done. by exists r. }
  change (len es :: body ++ [r]) with ((len es :: body) ++ [r]).
  rewrite upd_app_at by (rewrite len_app, len_cons, len_single; lia). cbn [mbind res_bind].
  by eexists.
Qed.

(** ** Reading *)
Lemma idx_app_mid {A} (pre bs post : list A) j :
  0 <= j < len bs -> idx (pre ++ bs ++ post) (len pre + j) = idx bs j.
Proof.
  intros Hj. destruct (idx_in_range bs j Hj) as (x & Hx & ->). apply idx_ok. pose proof (len_nonneg pre).
  split; [lia |]. rewrite lookup_app_r by (unfold len; lia). rewrite lookup_app_l by (unfold len in *; lia).
  rewrite <- Hx. f_equal. unfold len. lia.
Qed.

Lemma lor4 v :
  is_u 32 v ->
  Z.lor (Z.lor (Z.lor (v mod 2 ^ 8) (u32 (Z.shiftl (v / 2 ^ 8 mod 2 ^ 8) 8)))
    (u32 (Z.shiftl (v / 2 ^ 8 / 2 ^ 8 mod 2 ^ 8) 16))) (u32 (Z.shiftl (v / 2 ^ 8 / 2 ^ 8 / 2 ^ 8 mod 2 ^ 8) 24)) = v.
Proof.
  intros Hv. rewrite !u32_id by (rewrite shiftl_pow by lia; zlia).
  rewrite (lor_shiftl_add (v mod 2 ^ 8)) by zlia. rewrite (lor_shiftl_add _ _ 16) by zlia.
  rewrite (lor_shiftl_add _ _ 24) by zlia. zlia.
Qed.

Definition fallbackRead (data : list Z) (entries : list fallbackEntry) (i : Z) : res (list fallbackEntry) :=
  let offset := 1 + i * compactFallbackEntrySize in
  b0 ← idx data offset; b1 ← idx data (offset + 1);
  b2 ← idx data (offset + 2); b3 ← idx data (offset + 3);
  let packed := Z.lor (Z.lor (Z.lor b0 (u32 (Z.shiftl b1 8))) (u32 (Z.shiftl b2 16))) (u32 (Z.shiftl b3 24)) in
  Ok (entries ++ [decode_entry blockBits packed]).

Lemma fallbackRead_eq pre e post acc i :
  fb_ok e -> len pre = 1 + i * 4 ->
  fallbackRead (pre ++ le_bytes 4 (fb_val e) ++ post) acc i = Ok (acc ++ [e]).
Proof.
  intros He Hp. unfold fallbackRead, compactFallbackEntrySize. rewrite <- Hp.
  rewrite <- (Z.add_0_r (len pre)) at 1. rewrite !idx_app_mid by (rewrite len_le_bytes; lia).
  rewrite !le_bytes_cons. pose proof (lor4 _ (fb_val_is e He)) as E. revert E.
  generalize (fb_val e mod 2 ^ 8) (fb_val e / 2 ^ 8 mod 2 ^ 8) (fb_val e / 2 ^ 8 / 2 ^ 8 mod 2 ^ 8)
    (fb_val e / 2 ^ 8 / 2 ^ 8 / 2 ^ 8 mod 2 ^ 8). intros x0 x1 x2 x3 E.
  assert (forall tl, idx (x0 :: x1 :: x2 :: x3 :: tl) 0 = Ok x0 /\ idx (x0 :: x1 :: x2 :: x3 :: tl) 1 = Ok x1 /\
    idx (x0 :: x1 :: x2 :: x3 :: tl) 2 = Ok x2 /\ idx (x0 :: x1 :: x2 :: x3 :: tl) 3 = Ok x3) as Hi by done.
  destruct (Hi (le_bytes 0 (fb_val e / 2 ^ 8 / 2 ^ 8 / 2 ^ 8 / 2 ^ 8))) as (-> & -> & -> & ->).
  cbn [mbind res_bind]. cbv zeta. by rewrite E, decode_entry_val.
Qed.

Lemma decodeFallbackListWithB_spec es :
  Forall fb_ok es -> len es <= maxFallbackEntries -> decodeFallbackListWithB (fb_bytes es) blockBits = Ok es.
Proof.
  intros Hes Hl. pose proof (len_nonneg es). unfold decodeFallbackListWithB. rewrite len_fb_bytes.
  change (idx (fb_bytes es) 0) with (Ok (len es)). cbn [mbind res_bind]. unfold compactFallbackEntrySize at 1.
  destruct (Z.ltb_spec (2 + 4 * len es) 2); [lia |]. destruct (Z.eqb_spec (len es) 0) as [E | E].
  { destruct es; [done |]. rewrite len_cons in E. pose proof (len_nonneg es). lia. }
  destruct (Z.ltb_spec (2 + 4 * len es) (2 + len es * 4)); [lia |]. cbn [orb].
  change (foldM (fallbackRead (fb_bytes es)) [] (range (len es)) = Ok es).
  enough (forall (l dn : list fallbackEntry), es = dn ++ l ->
    foldM (fallbackRead (fb_bytes es)) dn (seqZ (len dn) (len l)) = Ok es) as Hgo by (apply (Hgo es []); done).
  induction l as [| e l IH]; intros dn Hd; [rewrite app_nil_r in Hd; by subst |].
  rewrite len_cons, seqZ_cons by (pose proof (len_nonneg l); lia). cbn [foldM].
  assert (fb_ok e) as He by (rewrite Hd in Hes; apply Forall_app in Hes as [_ Hes]; by apply Forall_cons in Hes as [? _]).
  assert (fb_bytes es = (len es :: concat (map (fun e => le_bytes 4 (fb_val e)) dn)) ++ le_bytes 4 (fb_val e) ++
    (concat (map (fun e => le_bytes 4 (fb_val e)) l) ++ [Z.lxor (len es) fallbackValidationXOR])) as E3.
  { assert (concat (map (fun e => le_bytes 4 (fb_val e)) es) = concat (map (fun e => le_bytes 4 (fb_val e)) dn) ++
      le_bytes 4 (fb_val e) ++ concat (map (fun e => le_bytes 4 (fb_val e)) l)) as E2 by (by rewrite Hd, map_app, concat_app).
    unfold fb_bytes. rewrite E2, <- !app_assoc. done. }
  rewrite E3 at 1. rewrite fallbackRead_eq; [| done | rewrite len_cons, len_entries; lia]. cbn [mbind res_bind].
  specialize (IH (dn ++ [e])). rewrite <- app_assoc in IH. specialize (IH Hd). rewrite len_app, len_single in IH.
  replace (Z.succ (len dn)) with (len dn + 1) by lia. by replace (Z.pred (1 + len l)) with (len l) by lia.
Qed.

(** Looking for the list from the end. *)
Lemma idx_last {A} (a : list A) x : idx (a ++ [x]) (len (a ++ [x]) - 1) = Ok x.
Proof.
  apply idx_ok. rewrite len_app, len_single. pose proof (len_nonneg a). split; [lia |].
  replace (Z.to_nat (len a + 1 - 1)) with (length a) by (unfold len; lia).
  by rewrite lookup_app_r, Nat.sub_diag by lia.
Qed.

Lemma last_fb_byte (pre : list Z) es :
  idx (pre ++ fb_bytes es) (len (pre ++ fb_bytes es) - 1) = Ok (Z.lxor (len es) fallbackValidationXOR).
Proof.
  assert (pre ++ fb_bytes es = (pre ++ len es :: concat (map (fun e => le_bytes 4 (fb_val e)) es)) ++
    [Z.lxor (len es) fallbackValidationXOR]) as ->; [| apply idx_last].
  unfold fb_bytes. by rewrite <- !app_assoc.
Qed.

Lemma findFallback_spec pre es off :
  Forall is_byte pre -> len es <= maxFallbackEntries -> 0 <= off <= len pre ->
  findFallback (pre ++ fb_bytes es) off = Ok (len pre).
Proof.
  intros Hpre Hl Hoff. pose proof (len_nonneg es) as H0. unfold findFallback, maxFallbackEntries, compactFallbackEntrySize in *.
  pose proof (last_fb_byte pre es) as Hlast. pose proof (len_fb_bytes es) as Hfb.
  assert (len (pre ++ fb_bytes es) = len pre + (2 + 4 * len es)) as Hm by (by rewrite len_app, Hfb).
  destruct (Z.ltb_spec off (len (pre ++ fb_bytes es))); [| lia].
  pose proof (fb_bytes_ok es Hl) as Hfbok.
  set (m := pre ++ fb_bytes es) in *. assert (Forall is_byte m) as Hmok by (by apply Forall_app).
  set (n := len m - 2 - Z.max off (len m - (2 + 255 * 4)) + 1).
  rewrite (foldB_find (fun i => if i =? 4 * len es then Some (len m - 2 - i) else None)).
  - destruct (find_first n _) as [o |] eqn:Hf; cbn [mbind res_bind].
    + apply find_first_Some in Hf as (x & Hx & E & _). destruct (Z.eqb_spec x (4 * len es)); [| done].
      injection E as <-. f_equal. lia.
    + exfalso. pose proof (find_first_None _ _ Hf (4 * len es) ltac:(lia)) as E. cbv beta in E. by rewrite Z.eqb_refl in E.
  - intros i Hi. cbv beta. destruct (idx_bits m Hmok (len m - 2 - i) ltac:(lia)) as (cnt & Hcnt & _ & Hc8).
    rewrite Hcnt. cbn [mbind res_bind].
    replace (len m - (len m - 2 - i)) with (2 + i) by lia.
    destruct (Z.eqb_spec (2 + cnt * 4) (2 + i)) as [E | E].
    + rewrite Hlast. cbn [mbind res_bind]. rewrite u8_id by done.
      destruct (Z.eqb_spec (Z.lxor (len es) fallbackValidationXOR) (Z.lxor cnt fallbackValidationXOR)) as [Ex | Ex].
      * apply lxor_cancel_r in Ex. destruct (Z.eqb_spec i (4 * len es)); [done | lia].
      * destruct (Z.eqb_spec i (4 * len es)); [| done]. exfalso. apply Ex. f_equal. lia.
    + destruct (Z.eqb_spec i (4 * len es)); [| done]. exfalso. apply E.
      assert (cnt = len es) as ->; [| lia].
      replace (len m - 2 - i) with (len pre + 0) in Hcnt by lia. unfold m, fb_bytes in Hcnt.
      change (len es :: ?b) with ([len es] ++ b) in Hcnt. rewrite idx_app_mid in Hcnt by (rewrite len_single; lia).
      change (idx [len es] 0) with (Ok (len es)) in Hcnt. congruence.
Qed.

(** The seeds of a bucket, out of the list: the last entry of the bucket and the
    half wins, as in the loop. *)
Definition fb_resolve (es : list fallbackEntry) (bucketIdx seed0 seed1 : Z) : Z * Z :=
  fold_left (fun '(seed0, seed1) fe =>
    if bucketIndex fe =? u16 bucketIdx then
      if (subBucket fe =? 0) && (seed0 =? fallbackMarker) then (fb_seed fe, seed1)
      else if (subBucket fe =? 1) && (seed1 =? fallbackMarker) then (seed0, fb_seed fe)
      else (seed0, seed1)
    else (seed0, seed1)) es (seed0, seed1).

Lemma resolveFallbackSeeds_spec pre es off bucketIdx seed0 seed1 :
  Forall is_byte pre -> Forall fb_ok es -> len es <= maxFallbackEntries -> 0 <= off <= len pre ->
  resolveFallbackSeeds (pre ++ fb_bytes es) off bucketIdx seed0 seed1 = Ok (fb_resolve es bucketIdx seed0 seed1).
Proof.
  intros Hpre Hes Hl Hoff. unfold resolveFallbackSeeds. rewrite findFallback_spec by done. cbn [mbind res_bind].
  destruct (Z.leb_spec 0 (len pre)); [| lia]. rewrite slice_in_range by (rewrite ?len_app; pose proof (len_nonneg (fb_bytes es)); lia).
  cbn [mbind res_bind]. replace (drop (Z.to_nat (len pre)) (pre ++ fb_bytes es)) with (fb_bytes es).
  2:{ unfold len. by rewrite Nat2Z.id, drop_app_length. }
  rewrite take_ge by (rewrite len_app; unfold len; lia).
  by rewrite decodeFallbackListWithB_spec.
Qed.

(** C28: the fallback list round trip. A list of at most 255 entries whose
    fields fit their bits is encoded without panic, decoded to itself, found
    again at the end of any metadata by its validation byte, and resolves the
    markers of a bucket to the seeds of its entries. *)
Theorem fallback_roundtrip es buf pre off bucketIdx seed0 seed1 :
  Forall fb_ok es -> len es <= maxFallbackEntries -> Forall is_byte pre -> 0 <= off <= len pre ->
  exists data buf', encodeFallbackListIntoWithB es blockBits buf = Ok (data, buf') /\ len data = 2 + 4 * len es /\
    decodeFallbackListWithB data blockBits = Ok es /\
    resolveFallbackSeeds (pre ++ data) off bucketIdx seed0 seed1 = Ok (fb_resolve es bucketIdx seed0 seed1).
Proof.
  intros He Hl Hp Ho. destruct (encodeFallbackListIntoWithB_spec es buf He Hl) as (buf' & ->). exists (fb_bytes es), buf'.
  split; [done |]. split; [apply len_fb_bytes |]. split; [by apply decodeFallbackListWithB_spec | by apply resolveFallbackSeeds_spec].
Qed.

Lemma fallback_roundtrip_witness :
  exists data buf', encodeFallbackListIntoWithB [mk_fb 3 0 9; mk_fb 5 1 70000] blockBits [] = Ok (data, buf') /\
    len data = 2 + 4 * len [mk_fb 3 0 9; mk_fb 5 1 70000] /\
    decodeFallbackListWithB data blockBits = Ok [mk_fb 3 0 9; mk_fb 5 1 70000] /\
    resolveFallbackSeeds ([1; 2; 3] ++ data) 2 5 17 fallbackMarker = Ok (17, 70000).
Proof.
  apply (fallback_roundtrip [mk_fb 3 0 9; mk_fb 5 1 70000] [] [1; 2; 3] 2 5 17 fallbackMarker).
  - repeat constructor; cbn; lia.
  - change (2 <= 255). lia.
  - repeat constructor; unfold_words; lia.
  - change (len [1; 2; 3]) with 3. lia.
Defined.
