(* ===== verification/BijSeeds.v ===== *)
(** * The seed searches: one specification for all of them

    Nine hand-written loops look for a seed that sends the keys of a bucket to
    distinct slots. They all return the first such seed below their limit. *)
From S2P Require Import Prelude Words BijMix BijBits BijStream BijEnc BijSolver BijBuilder BijDecode BijGolomb.
#[local] Open Scope Z_scope.

(** ** The specification *)
Definition parts (bucket : list bucketEntry) : list mixParts := map e_mix bucket.

Definition good_seed (ps : list mixParts) (n seed : Z) : Prop := NoDup (seed_slots ps seed n).

#[export] Instance good_seed_dec ps n seed : Decision (good_seed ps n seed).
Proof. unfold good_seed. apply _. Defined.

Definition first_seed (maxSeed : Z) (ps : list mixParts) (n : Z) : option Z :=
  find_first maxSeed (fun seed => if decide (good_seed ps n seed) then Some seed else None).

Lemma first_seed_Some m ps n s : first_seed m ps n = Some s -> 0 <= s < m /\ good_seed ps n s.
Proof.
  unfold first_seed. intros (x & Hx & E & _)%find_first_Some. case_decide as Hg; [| done].
  injection E as ->. split; [lia | done].
Qed.

(** Equal keys are never separated. *)
Lemma good_seed_NoDup ps n s : good_seed ps n s -> NoDup ps.
Proof. apply NoDup_fmap_1. Qed.

Lemma first_seed_dup m ps n : ~ NoDup ps -> first_seed m ps n = None.
Proof.
  intros Hd. destruct (first_seed m ps n) as [s |] eqn:E; [| done].
  apply first_seed_Some in E as [_ Hg%good_seed_NoDup]. done.
Qed.

Lemma first_seed_ext m ps n f :
  (forall s, 0 <= s < m -> f s = if decide (good_seed ps n s) then Some s else None) ->
  find_first m f = first_seed m ps n.
Proof. intros H. by apply find_first_ext. Qed.

Lemma seed_search_ext {R} m (f : Z -> option R) trial :
  (forall s, 0 <= s < m -> trial s = Ok (f s)) -> seed_search m trial = Ok (find_first m f).
Proof.
  intros H. unfold seed_search.
  assert (find_first m (fun seed => match trial seed with
    | Ok None => None | Ok (Some r) => Some (Ok r) | Err e => Some (Err e) | Panic => Some Panic end) =
    find_first m (fun s => match f s with Some r => Some (Ok r) | None => None end)) as ->.
  { apply find_first_ext. intros s Hs. rewrite H by done. by destruct (f s). }
  destruct (find_first m f) as [r |] eqn:E.
  - apply find_first_Some in E as (x & Hx & E & Hlt).
    destruct (find_first m (fun s => match f s with Some r => Some (Ok r) | None => None end)) as [r' |] eqn:E'.
    + apply find_first_Some in E' as (x' & Hx' & E' & Hlt'). destruct (f x') as [y |] eqn:Ey; [| done].
      injection E' as <-. cbn [mbind res_bind]. do 2 f_equal.
      destruct (Z.lt_total x x') as [Hl | [-> | Hl]]; [| congruence |].
      * specialize (Hlt' x ltac:(lia)). cbn in Hlt'. by rewrite E in Hlt'.
      * by rewrite (Hlt x' ltac:(lia)) in Ey.
    + pose proof (find_first_None _ _ E' x ltac:(lia)) as HH. cbn in HH. by rewrite E in HH.
  - destruct (find_first m (fun s => match f s with Some r => Some (Ok r) | None => None end)) as [r' |] eqn:E'; [| done].
    apply find_first_Some in E' as (x' & Hx' & E' & _). by rewrite (find_first_None _ _ E x' ltac:(lia)) in E'.
Qed.

(** ** The comparisons of the unrolled loops *)
Lemma NoDup_dec_cons (x : Z) l :
  (if decide (NoDup (x :: l)) then true else false) = negb (bool_decide (x ∈ l)) && bool_decide (NoDup l).
Proof. case_decide as H; rewrite NoDup_cons in H; repeat case_bool_decide; naive_solver. Qed.

Ltac solve_nodup :=
  rewrite ?NoDup_cons, ?not_elem_of_cons; repeat split; try congruence; try apply not_elem_of_nil; try apply NoDup_nil_2.
Ltac refute_nodup H := rewrite ?NoDup_cons, ?not_elem_of_cons in H; destruct_and?; congruence.

(** The keys of a bucket, read one by one. *)
Ltac read_parts :=
  repeat match goal with
  | |- context [parts_at ?l ?i] => let r := eval lazy in (parts_at l i) in change (parts_at l i) with r
  end; cbn [mbind res_bind].

(** Both sides of an unrolled trial: decide the comparisons in their order. *)
Ltac unrolled_trial :=
  repeat match goal with
  | |- context [?a =? ?b] => destruct (Z.eqb_spec a b); cbn [orb andb negb]
  end;
  let H := fresh in
  case_decide as H; try reflexivity; exfalso;
  first [ unfold good_seed, seed_slots in H; cbn [map] in H; refute_nodup H
        | apply H; unfold good_seed, seed_slots; cbn [map]; solve_nodup ].

(** The early exit on equal keys. *)
Ltac early_exit :=
  match goal with
  | |- (if ?b then _ else _) = Ok (direct_result (first_seed ?m ?ps ?n)) =>
      let E := fresh in
      destruct b eqn:E; [rewrite (first_seed_dup m ps n); [reflexivity |];
        rewrite ?orb_true_iff, ?bool_decide_eq_true in E; rewrite ?NoDup_cons, ?not_elem_of_cons;
        intros Hn; destruct_and?; destruct_or?; subst; contradiction | clear E; do 2 f_equal; apply first_seed_ext]
  end.

Lemma solveBucket2_first bucket m :
  length bucket = 2%nat -> solveBucket2 bucket m = Ok (direct_result (first_seed m (parts bucket) 2)).
Proof.
  destruct bucket as [| [p0 ? ?] [| [p1 ? ?] [| ]]]; try done. intros _. unfold solveBucket2.
  change (parts _) with [p0; p1]. read_parts. early_exit.
  intros s _. cbv zeta. unrolled_trial.
Qed.

Lemma solveBucket3_first bucket m :
  length bucket = 3%nat -> solveBucket3 bucket m = Ok (direct_result (first_seed m (parts bucket) 3)).
Proof.
  destruct bucket as [| [p0 ? ?] [| [p1 ? ?] [| [p2 ? ?] [| ]]]]; try done. intros _. unfold solveBucket3.
  change (parts _) with [p0; p1; p2]. read_parts. early_exit.
  intros s _. cbv zeta. unrolled_trial.
Qed.

Lemma solveBucket4_first bucket m :
  length bucket = 4%nat -> solveBucket4 bucket m = Ok (direct_result (first_seed m (parts bucket) 4)).
Proof.
  destruct bucket as [| [p0 ? ?] [| [p1 ? ?] [| [p2 ? ?] [| [p3 ? ?] [| ]]]]]; try done. intros _. unfold solveBucket4.
  change (parts _) with [p0; p1; p2; p3]. read_parts. early_exit.
  intros s _. cbv zeta. unrolled_trial.
Qed.

Lemma solveBucket5_first bucket m :
  length bucket = 5%nat -> solveBucket5 bucket m = Ok (direct_result (first_seed m (parts bucket) 5)).
Proof.
  destruct bucket as [| [p0 ? ?] [| [p1 ? ?] [| [p2 ? ?] [| [p3 ? ?] [| [p4 ? ?] [| ]]]]]]; try done. intros _.
  unfold solveBucket5. change (parts _) with [p0; p1; p2; p3; p4]. read_parts. early_exit.
  intros s _. cbv zeta. unrolled_trial.
Qed.

Lemma solveBucket6_first bucket m :
  length bucket = 6%nat -> solveBucket6 bucket m = Ok (direct_result (first_seed m (parts bucket) 6)).
Proof.
  destruct bucket as [| [p0 ? ?] [| [p1 ? ?] [| [p2 ? ?] [| [p3 ? ?] [| [p4 ? ?] [| [p5 ? ?] [| ]]]]]]]; try done. intros _.
  unfold solveBucket6. change (parts _) with [p0; p1; p2; p3; p4; p5]. read_parts. early_exit.
  intros s _. cbv zeta. unrolled_trial.
Qed.

(** ** Masks and arrays of taken slots *)

(** Going through the slots with the set of those taken so far. *)
Fixpoint distinct (taken l : list Z) : bool :=
  match l with
  | [] => true
  | s :: l => if bool_decide (s ∈ taken) then false else distinct (s :: taken) l
  end.

Lemma distinct_spec l : forall taken, distinct taken l = true <-> NoDup l /\ forall s, s ∈ l -> s ∉ taken.
Proof.
  induction l as [| s l IH]; intros taken; cbn [distinct].
  { split; [| done]. intros _. split; [apply NoDup_nil_2 | set_solver]. }
  rewrite NoDup_cons. case_bool_decide as Hs.
  - split; [done |]. intros [_ H]. destruct (H s); [set_solver | done].
  - rewrite IH. set_solver.
Qed.

Lemma distinct_nil l : distinct [] l = bool_decide (NoDup l).
Proof. apply eq_true_iff_eq. rewrite distinct_spec, bool_decide_eq_true. set_solver. Qed.

(** The mask with the bits of a list of slots. *)
Definition mask_rep (w occupied : Z) (taken : list Z) : Prop :=
  forall j, 0 <= j < w -> Z.testbit occupied j = bool_decide (j ∈ taken).

Lemma mask_rep_nil w : mask_rep w 0 [].
Proof. intros j Hj. rewrite Z.testbit_0_l. symmetry. apply bool_decide_eq_false. set_solver. Qed.

Lemma one_shift_mod w s : 0 <= s < w -> Z.shiftl 1 s mod 2 ^ w = 2 ^ s.
Proof.
  intros Hs. rewrite shiftl_pow, Z.mul_1_l by lia. apply Z.mod_small. split; [pose proof (pow2_pos s); lia |].
  apply Z.pow_lt_mono_r; lia.
Qed.

Lemma mask_has_rep w occ taken s : 0 <= s < w -> mask_rep w occ taken -> mask_has w occ s = bool_decide (s ∈ taken).
Proof.
  intros Hs Hr. unfold mask_has. rewrite one_shift_mod by done. rewrite <- (Hr s Hs).
  destruct (Z.eqb_spec (Z.land occ (2 ^ s)) 0) as [E | E]; cbn [negb].
  - symmetry. apply (f_equal (fun x => Z.testbit x s)) in E.
    rewrite Z.land_spec, Z.pow2_bits_true, andb_true_r, Z.bits_0 in E by lia. done.
  - symmetry. destruct (Z.testbit occ s) eqn:Hb; [done |]. exfalso. apply E. apply Z.bits_inj'. intros j Hj.
    rewrite Z.land_spec, Z.bits_0, Z.pow2_bits_eqb by lia. destruct (Z.eqb_spec s j) as [<- |]; [by rewrite Hb | apply andb_false_r].
Qed.

Lemma mask_add_rep w occ taken s : 0 <= s < w -> mask_rep w occ taken -> mask_rep w (mask_add w occ s) (s :: taken).
Proof.
  intros Hs Hr j Hj. unfold mask_add. rewrite one_shift_mod by done. rewrite Z.lor_spec, Z.pow2_bits_eqb, (Hr j Hj) by lia.
  destruct (Z.eqb_spec s j) as [<- |].
  - rewrite orb_true_r. symmetry. apply bool_decide_eq_true. set_solver.
  - rewrite orb_false_r. apply bool_decide_ext. set_solver.
Qed.

(** A trial with a mask. *)
Fixpoint mask_try (w occupied : Z) (l : list Z) : bool :=
  match l with
  | [] => true
  | s :: l => if mask_has w occupied s then false else mask_try w (mask_add w occupied s) l
  end.

Lemma mask_try_rep w l : forall occ taken,
  Forall (fun s => 0 <= s < w) l -> mask_rep w occ taken -> mask_try w occ l = distinct taken l.
Proof.
  induction l as [| s l IH]; intros occ taken Hl Hr; [done |]. apply Forall_cons in Hl as [Hs Hl]. cbn [mask_try distinct].
  rewrite (mask_has_rep w occ taken) by done. case_bool_decide; [done |]. apply IH; [done |]. by apply mask_add_rep.
Qed.

Lemma mask_try_spec w l : Forall (fun s => 0 <= s < w) l -> mask_try w 0 l = bool_decide (NoDup l).
Proof. intros Hl. rewrite (mask_try_rep w l 0 []) by (done || apply mask_rep_nil). apply distinct_nil. Qed.

Lemma good_seed_mask {R} w ps n s (x y : R) :
  Forall mix_ok ps -> 0 < n <= w -> n < 2 ^ 32 ->
  (if decide (good_seed ps n s) then x else y) = if mask_try w 0 (seed_slots ps s n) then x else y.
Proof.
  intros Hok Hn Hn32. rewrite mask_try_spec.
  - unfold good_seed. case_decide; case_bool_decide; done.
  - eapply Forall_impl; [apply seed_slots_lt; [done | lia] |]. intros; cbn in *; lia.
Qed.

(** An unrolled mask loop, against the loop. *)
Ltac unrolled_mask :=
  cbv zeta; cbn [seed_slots map mask_try];
  match goal with |- context [mask_has ?w 0 ?s] => replace (mask_has w 0 s) with false by (unfold mask_has; by rewrite Z.land_0_l) end;
  repeat match goal with |- context [mask_has ?w ?o ?s] => destruct (mask_has w o s); cbn [negb] end; reflexivity.

Lemma solveBucket7_first bucket m :
  length bucket = 7%nat -> Forall mix_ok (parts bucket) ->
  solveBucket7 bucket m = Ok (direct_result (first_seed m (parts bucket) 7)).
Proof.
  destruct bucket as [| [p0 ? ?] [| [p1 ? ?] [| [p2 ? ?] [| [p3 ? ?] [| [p4 ? ?] [| [p5 ? ?] [| [p6 ? ?] [| ]]]]]]]]; try done.
  intros _. unfold solveBucket7. change (parts _) with [p0; p1; p2; p3; p4; p5; p6]. read_parts. intros Hok.
  do 2 f_equal. apply first_seed_ext. intros s _. rewrite (good_seed_mask 8) by (done || lia). unrolled_mask.
Qed.

Lemma solveBucket8_first bucket m :
  length bucket = 8%nat -> Forall mix_ok (parts bucket) ->
  solveBucket8 bucket m = Ok (direct_result (first_seed m (parts bucket) 8)).
Proof.
  destruct bucket as [| [p0 ? ?] [| [p1 ? ?] [| [p2 ? ?] [| [p3 ? ?] [| [p4 ? ?] [| [p5 ? ?] [| [p6 ? ?] [| [p7 ? ?] [| ]]]]]]]]]; try done.
  intros _. unfold solveBucket8. change (parts _) with [p0; p1; p2; p3; p4; p5; p6; p7]. read_parts. intros Hok.
  do 2 f_equal. apply first_seed_ext. intros s _. rewrite (good_seed_mask 8) by (done || lia). unrolled_mask.
Qed.

(** ** The general loops *)
Lemma mask_trial_eq bucket n s :
  0 < n <= 64 -> Forall mix_ok (parts bucket) ->
  mask_trial bucket n s = Ok (if decide (good_seed (parts bucket) n s) then Some s else None).
Proof.
  intros Hn Hok. rewrite (good_seed_mask 64) by (done || lia). unfold mask_trial.
  enough (forall occ, exists r,
    foldB (maskStep n s) occ bucket = Ok r /\ (match r with inl _ => true | inr _ => false end) = mask_try 64 occ (seed_slots (parts bucket) s n)) as H.
  { destruct (H 0) as (r & -> & E). cbn [mbind res_bind]. rewrite <- E. by destruct r. }
  clear. induction bucket as [| e bucket IH]; intros occ; cbn [foldB parts map seed_slots mask_try]; [by exists (inl occ) |].
  unfold maskStep at 2. cbv zeta.
  destruct (mask_has 64 occ _); cbn [mbind res_bind]; [by exists (inr tt) |]. apply IH.
Qed.

(** The array of booleans of a list of slots. *)
Definition array_rep (slots : list bool) (taken : list Z) : Prop :=
  forall i b, slots !! i = Some b -> b = bool_decide (Z.of_nat i ∈ taken).

Lemma array_rep_make n : array_rep (make false n) [].
Proof. intros i b [-> _]%lookup_replicate. symmetry. apply bool_decide_eq_false. set_solver. Qed.

Lemma array_rep_set slots taken s :
  0 <= s -> array_rep slots taken -> array_rep (<[Z.to_nat s := true]> slots) (s :: taken).
Proof.
  intros Hs Hr i b Hi. apply list_lookup_insert_Some in Hi as [(<- & <- & _) | (Hne & Hi)].
  - symmetry. apply bool_decide_eq_true. rewrite Z2Nat.id by done. set_solver.
  - rewrite (Hr i b Hi). apply bool_decide_ext. assert (Z.of_nat i <> s) by lia. set_solver.
Qed.

Lemma array_rep_idx slots taken s :
  0 <= s < len slots -> array_rep slots taken -> idx slots s = Ok (bool_decide (s ∈ taken)).
Proof.
  intros Hs Hr. destruct (idx_in_range slots s Hs) as (b & Hb & ->). f_equal. rewrite (Hr _ _ Hb).
  by rewrite Z2Nat.id by lia.
Qed.

Lemma array_loop n s bucket : forall slots taken,
  Forall (fun x => 0 <= x < len slots) (seed_slots (parts bucket) s n) -> array_rep slots taken ->
  exists r, foldB (arrayStep n s) slots bucket = Ok r /\ (match r with inl _ => true | inr _ => false end) = distinct taken (seed_slots (parts bucket) s n).
Proof.
  induction bucket as [| e bucket IH]; intros slots taken Hl Hr; cbn [foldB parts map seed_slots distinct] in *; [by exists (inl slots) |].
  apply Forall_cons in Hl as [Hs Hl]. unfold arrayStep at 2. cbv zeta. rewrite (array_rep_idx _ taken) by done. cbn [mbind res_bind].
  case_bool_decide; [by exists (inr tt) |]. rewrite upd_in_range by done. cbn [mbind res_bind]. apply IH.
  - by rewrite len_insert.
  - apply array_rep_set; [lia | done].
Qed.

Lemma array_trial_eq bucket n s :
  0 < n < 2 ^ 32 -> Forall mix_ok (parts bucket) ->
  array_trial bucket n n s = Ok (if decide (good_seed (parts bucket) n s) then Some s else None).
Proof.
  intros Hn Hok. unfold array_trial.
  destruct (array_loop n s bucket (make false n) []) as (r & -> & E); [| apply array_rep_make |].
  { rewrite len_make by lia. by apply seed_slots_lt. }
  cbn [mbind res_bind]. rewrite distinct_nil in E. unfold good_seed.
  destruct r; case_decide; case_bool_decide; done.
Qed.

Lemma first_seed_search m ps n trial :
  (forall s, trial s = Ok (if decide (good_seed ps n s) then Some s else None)) ->
  seed_search m trial = Ok (first_seed m ps n).
Proof. intros H. apply seed_search_ext. intros s _. apply H. Qed.

(** ** Choosing the search *)
Lemma solveDirectBucket_spec bucket :
  2 <= len bucket < 2 ^ 32 -> Forall mix_ok (parts bucket) ->
  solveDirectBucket bucket (len bucket) =
  Ok (direct_result (first_seed (grMaxQuotient * 2 ^ gr_k (len bucket)) (parts bucket) (len bucket))).
Proof.
  intros Hn Hok. unfold solveDirectBucket. destruct (Z.leb_spec (len bucket) 1); [lia |].
  rewrite maxEncodableSeed_eq by lia. cbn [mbind res_bind]. set (m := grMaxQuotient * _). set (n := len bucket) in *.
  assert (forall k : nat, n = Z.of_nat k -> length bucket = k) as Hlen by (unfold n, len; lia).
  destruct (Z.eqb_spec n 2) as [-> |]; [by apply solveBucket2_first, Hlen |].
  destruct (Z.eqb_spec n 3) as [-> |]; [by apply solveBucket3_first, Hlen |].
  destruct (Z.eqb_spec n 4) as [-> |]; [by apply solveBucket4_first, Hlen |].
  destruct (Z.eqb_spec n 5) as [-> |]; [by apply solveBucket5_first, Hlen |].
  destruct (Z.eqb_spec n 6) as [-> |]; [by apply solveBucket6_first, Hlen |].
  destruct (Z.eqb_spec n 7) as [-> |]; [by apply solveBucket7_first; [apply Hlen |] |].
  destruct (Z.eqb_spec n 8) as [-> |]; [by apply solveBucket8_first; [apply Hlen |] |].
  unfold solveBucketBitmask, solveDirectBucketArray. rewrite u32_id by (unfold_words; lia).
  destruct (Z.leb_spec n 64); rewrite (first_seed_search _ (parts bucket) n); try reflexivity; intros s.
  - apply mask_trial_eq; done || lia.
  - apply array_trial_eq; done || lia.
Qed.

(** C18: the nine direct seed searches are one search. For every bucket size,
    the hand-unrolled loop for that size returns the first seed below the
    Golomb-Rice limit that sends the keys of the bucket to pairwise distinct
    slots, and asks for the extended search exactly when there is none. *)
Theorem solveDirectBucket_first bucket :
  2 <= len bucket < 2 ^ 32 -> Forall mix_ok (parts bucket) ->
  let distinct_at := fun seed => NoDup (seed_slots (parts bucket) seed (len bucket)) in
  let limit := grMaxQuotient * 2 ^ gr_k (len bucket) in
  wp (solveDirectBucket bucket (len bucket)) (fun '(seed, needsFallback) =>
    if needsFallback : bool then forall s, 0 <= s < limit -> ~ distinct_at s
    else 0 <= seed < limit /\ distinct_at seed /\ forall s, 0 <= s < seed -> ~ distinct_at s) no_err.
Proof.
  intros Hn Hok distinct_at limit. rewrite solveDirectBucket_spec by done. fold limit. cbn [wp].
  unfold first_seed. destruct (find_first limit _) as [s |] eqn:Hf; cbn [direct_result].
  - apply find_first_Some in Hf as (x & Hx & Hg & Hlt). case_decide as Hd; [| done]. injection Hg as <-.
    split; [lia |]. split; [exact Hd |]. intros y Hy Hdy. specialize (Hlt y ltac:(lia)). cbv beta in Hlt. by rewrite decide_True in Hlt.
  - intros y Hy Hdy. pose proof (find_first_None _ _ Hf y Hy) as Hno. cbv beta in Hno. by rewrite decide_True in Hno.
Qed.

Lemma solveDirectBucket_first_witness :
  let bucket := [mk_entry (mk_mix 1 2) 0 0; mk_entry (mk_mix 3 4) 0 0] in
  2 <= len bucket < 2 ^ 32 /\
  wp (solveDirectBucket bucket (len bucket)) (fun '(seed, needsFallback) =>
    if needsFallback : bool then forall s, 0 <= s < grMaxQuotient * 2 ^ gr_k (len bucket) -> ~ NoDup (seed_slots (parts bucket) s (len bucket))
    else 0 <= seed < grMaxQuotient * 2 ^ gr_k (len bucket) /\ NoDup (seed_slots (parts bucket) seed (len bucket)) /\
      forall s, 0 <= s < seed -> ~ NoDup (seed_slots (parts bucket) s (len bucket))) no_err.
Proof.
  assert (2 <= len [mk_entry (mk_mix 1 2) 0 0; mk_entry (mk_mix 3 4) 0 0] < 2 ^ 32) as Hn by (unfold len; cbn; lia).
  split; [exact Hn |]. apply (solveDirectBucket_first _ Hn). repeat constructor; cbn; lia.
Defined.
