(* ===== verification/BijSplit.v ===== *)
(** * Duplicates, the extended search and split buckets *)
From S2P Require Import Prelude Words BijMix BijBits BijStream BijEnc BijSolver BijBuilder BijDecode BijGolomb BijSeeds.
#[local] Open Scope Z_scope.

(** ** Duplicate keys *)
Lemma foldB_exists {A} (P : A -> bool) (body : unit -> A -> res (unit + unit)) (l : list A) :
  (forall x, x ∈ l -> body tt x = Ok (if P x then inr tt else inl tt)) ->
  foldB body tt l = Ok (if existsb P l then inr tt else inl tt).
Proof.
  induction l as [| x l IH]; intros H; [done |]. cbn [foldB existsb]. rewrite H by set_solver. cbn [mbind res_bind].
  destruct (P x); cbn [orb]; [done |]. apply IH. set_solver.
Qed.

Definition part (bucket : list bucketEntry) (i : Z) : mixParts := default (mk_mix 0 0) (parts bucket !! Z.to_nat i).

Lemma parts_at_eq bucket i : 0 <= i < len bucket -> parts_at bucket i = Ok (part bucket i).
Proof.
  intros Hi. unfold parts_at, part, parts. destruct (idx_in_range bucket i Hi) as (e & He & ->).
  cbn [mbind res_bind]. by rewrite list_lookup_fmap, He.
Qed.

Lemma part_lookup bucket (i : nat) p : parts bucket !! i = Some p -> part bucket (Z.of_nat i) = p.
Proof. intros H. unfold part. by rewrite Nat2Z.id, H. Qed.

Lemma len_parts bucket : len (parts bucket) = len bucket.
Proof. unfold len, parts. by rewrite length_map. Qed.

Lemma hasDuplicateMixParts_spec bucket :
  hasDuplicateMixParts bucket = Ok (bool_decide (~ NoDup (parts bucket))).
Proof.
  pose proof (len_nonneg bucket) as H0. unfold hasDuplicateMixParts.
  set (inner := fun i => existsb (fun j => bool_decide (part bucket i = part bucket j)) (seqZ (i + 1) (len bucket - (i + 1)))).
  rewrite (foldB_exists inner).
  2:{ intros i Hi%elem_of_range. rewrite (foldB_exists (fun j => bool_decide (part bucket i = part bucket j))); [done |].
      intros j Hj%elem_of_seqZ. rewrite !parts_at_eq by lia. cbn [mbind res_bind]. by case_bool_decide. }
  cbn [mbind res_bind]. f_equal. destruct (existsb inner (range (len bucket - 1))) eqn:E.
  - symmetry. apply bool_decide_eq_true. apply existsb_exists in E as (i & Hi%list_elem_of_In%elem_of_range & E).
    apply existsb_exists in E as (j & Hj%list_elem_of_In%elem_of_seqZ & E). apply bool_decide_eq_true in E.
    intros Hn. unfold part in E.
    destruct (lookup_lt_is_Some_2 (parts bucket) (Z.to_nat i)) as [p Hp]; [pose proof (len_parts bucket); unfold len in *; lia |].
    destruct (lookup_lt_is_Some_2 (parts bucket) (Z.to_nat j)) as [q Hq]; [pose proof (len_parts bucket); unfold len in *; lia |].
    rewrite Hp, Hq in E. cbn in E. subst q. pose proof (NoDup_lookup _ _ _ _ Hn Hp Hq). lia.
  - symmetry. apply bool_decide_eq_false. intros Hd. apply Hd. apply NoDup_alt. intros i j p Hi Hj.
    assert (forall i j : nat, (i < j)%nat -> parts bucket !! i = Some p -> parts bucket !! j = Some p -> False) as Hlt.
    { clear i j Hi Hj. intros i j Hij Hi Hj. apply not_true_iff_false in E. apply E. apply existsb_exists. exists (Z.of_nat i).
      apply lookup_lt_Some in Hj as Hjl. unfold parts in Hjl. rewrite length_map in Hjl.
      split; [apply list_elem_of_In, elem_of_range; unfold len; lia |]. apply existsb_exists. exists (Z.of_nat j).
      split; [apply list_elem_of_In, elem_of_seqZ; unfold len; lia |]. apply bool_decide_eq_true.
      by rewrite (part_lookup _ _ _ Hi), (part_lookup _ _ _ Hj). }
    destruct (Nat.lt_total i j) as [? | [? | ?]]; [exfalso; by eapply (Hlt i j) | done | exfalso; by eapply (Hlt j i)].
Qed.

(** ** The extended search *)
Lemma maxExtended_eq : maxExtendedSeedForB blockBits = 2 ^ 21.
Proof. vm_compute. reflexivity. Qed.

(** The bits of a fallback seed are enough for every seed the search returns. *)
Definition extended_result (bucket : list bucketEntry) : res Z :=
  if decide (NoDup (parts bucket)) then
    match first_seed (2 ^ 21) (parts bucket) (len bucket) with
    | Some seed => Ok seed
    | None => Err ErrIndistinguishableHashes
    end
  else Err ErrDuplicateKey.

Lemma solveExtended_spec bucket :
  2 <= len bucket < 2 ^ 32 -> Forall mix_ok (parts bucket) ->
  solveExtended bucket (len bucket) = extended_result bucket.
Proof.
  intros Hn Hok. unfold solveExtended, extended_result. destruct (Z.leb_spec (len bucket) 1); [lia |].
  rewrite slice_in_range by lia. cbn [mbind res_bind]. rewrite Z.sub_0_r, drop_0, take_ge by (unfold len; lia).
  rewrite hasDuplicateMixParts_spec. cbn [mbind res_bind]. case_bool_decide; case_decide; try done.
  unfold solveExtendedBitmask, solveExtendedArray. rewrite maxExtended_eq, u32_id by (unfold_words; lia).
  destruct (Z.leb_spec (len bucket) 64); rewrite (first_seed_search _ (parts bucket) (len bucket)); cbn [mbind res_bind];
    try reflexivity; intros s.
  - apply mask_trial_eq; done || lia.
  - apply array_trial_eq; done || lia.
Qed.

(** ** The split *)
Definition split_low (n sp seed : Z) (p : mixParts) : bool := mixFromParts p seed n <? sp.

(** The keys of the two halves under a splitting seed. *)
Definition half0 (bucket : list bucketEntry) (sp seed : Z) : list bucketEntry :=
  filter (fun e => split_low (len bucket) sp seed (e_mix e) = true) bucket.
Definition half1 (bucket : list bucketEntry) (sp seed : Z) : list bucketEntry :=
  filter (fun e => split_low (len bucket) sp seed (e_mix e) = false) bucket.

(** A splitting seed: as many keys below the split point as it says, with
    distinct hashes. *)
Definition good_split (bucket : list bucketEntry) (sp seed : Z) : Prop :=
  len (half0 bucket sp seed) = sp /\ good_seed (parts (half0 bucket sp seed)) (len bucket) seed.

#[export] Instance good_split_dec bucket sp seed : Decision (good_split bucket sp seed).
Proof. unfold good_split. apply _. Defined.

Lemma split_loop n sp seed l : forall slots taken a b,
  0 <= n < 2 ^ 32 -> 0 <= sp < 2 ^ 32 -> len slots = sp -> array_rep slots taken ->
  Forall (fun e => 0 <= mixFromParts (e_mix e) seed n) l ->
  let lo := filter (fun e => split_low n sp seed (e_mix e) = true) l in
  let hi := filter (fun e => split_low n sp seed (e_mix e) = false) l in
  exists r, foldB (splitStep n sp seed) (slots, a, b) l = Ok r /\
    if distinct taken (seed_slots (parts lo) seed n)
    then exists slots', r = inl (slots', a ++ lo, b ++ hi)
    else r = inr tt.
Proof.
  induction l as [| e l IH]; intros slots taken a b Hn Hsp Hl Hr Hh.
  { eexists. split; [done |]. cbn. exists slots. by rewrite !app_nil_r. }
  apply Forall_cons in Hh as [He Hh]. cbv zeta. cbn [foldB]. unfold splitStep at 2. cbv zeta. rewrite !u32_id by (unfold_words; lia).
  destruct (Z.ltb_spec (mixFromParts (e_mix e) seed n) sp) as [Hlt | Hge].
  - assert (split_low n sp seed (e_mix e) = true) as E by (by apply Z.ltb_lt).
    rewrite filter_cons_True by done. rewrite filter_cons_False by (by rewrite E).
    rewrite (array_rep_idx _ taken) by (done || lia). cbn [mbind res_bind parts map seed_slots distinct].
    case_bool_decide; [by eexists |]. rewrite upd_in_range by lia. cbn [mbind res_bind].
    destruct (IH (<[Z.to_nat (mixFromParts (e_mix e) seed n) := true]> slots) (mixFromParts (e_mix e) seed n :: taken) (a ++ [e]) b Hn Hsp)
      as (r & -> & Hres); [by rewrite len_insert | by apply array_rep_set | done |].
    exists r. split; [done |]. cbv zeta in Hres. unfold parts in Hres. destruct (distinct _ _); [| done].
    destruct Hres as (slots' & ->). exists slots'. by rewrite <- app_assoc.
  - assert (split_low n sp seed (e_mix e) = false) as E by (by apply Z.ltb_ge).
    rewrite filter_cons_False by (by rewrite E). rewrite filter_cons_True by done. cbn [mbind res_bind].
    destruct (IH slots taken a (b ++ [e]) Hn Hsp Hl Hr Hh) as (r & -> & Hres). exists r. split; [done |]. cbv zeta in Hres.
    destruct (distinct _ _); [| done]. destruct Hres as (slots' & ->). exists slots'. by rewrite <- app_assoc.
Qed.

Lemma split_trial_eq bucket sp seed :
  0 < len bucket < 2 ^ 32 -> 0 <= sp < 2 ^ 32 -> Forall mix_ok (parts bucket) ->
  split_trial bucket (len bucket) sp seed =
  Ok (if decide (good_split bucket sp seed) then Some (seed, half1 bucket sp seed) else None).
Proof.
  intros Hn Hsp Hok. unfold split_trial.
  destruct (split_loop (len bucket) sp seed bucket (make false sp) [] [] []) as (r & -> & Hr);
    [lia | lia | apply len_make; lia | apply array_rep_make | |].
  { unfold parts in Hok. rewrite Forall_map in Hok. eapply Forall_impl; [exact Hok |]. intros e He. apply mixFromParts_lt; [done | lia]. }
  cbv zeta in Hr. fold (half0 bucket sp seed) in Hr. fold (half1 bucket sp seed) in Hr. rewrite distinct_nil in Hr.
  cbn [mbind res_bind]. f_equal. unfold good_split, good_seed.
  case_bool_decide as Hd.
  - destruct Hr as (slots' & ->). cbn [app]. destruct (Z.eqb_spec (len (half0 bucket sp seed)) sp); case_decide; naive_solver.
  - subst r. case_decide; naive_solver.
Qed.
