(* ===== verification/BijSolve.v ===== *)
(** * Solving all buckets of a block *)
From S2P Require Import Prelude Words BijMix BijBits BijStream BijEnc BijSolver BijBuilder BijDecode BijGolomb BijSeeds BijSplit BijRange BijFallback.
#[local] Open Scope Z_scope.

(** ** The slots of a bucket *)

(** The slot of a key inside its bucket of [n] keys, from the bucket's seeds. *)
Definition bslot (n s0 s1 : Z) (p : mixParts) : Z :=
  if n <=? 1 then 0
  else if splitThreshold <=? n then
    let sp := n / 2 in
    let h := mixFromParts p s0 n in
    if h <? sp then h else sp + mixFromParts p s1 (n - sp)
  else mixFromParts p s0 n.

Definition bucket_solved (bucket : list bucketEntry) (s0 s1 : Z) : Prop :=
  map (bslot (len bucket) s0 s1) (parts bucket) ≡ₚ range (len bucket).

Lemma perm_range (l : list Z) n :
  0 <= n -> len l = n -> NoDup l -> Forall (fun x => 0 <= x < n) l -> l ≡ₚ range n.
Proof.
  intros Hn Hl Hnd Hr. apply NoDup_Permutation_bis; [by apply NoDup_ListNoDup | rewrite length_range; unfold len in Hl; lia |].
  intros x Hx%list_elem_of_In. apply list_elem_of_In, elem_of_range. rewrite Forall_forall in Hr. by apply Hr.
Qed.

Lemma solved_small bucket s0 s1 : len bucket <= 1 -> bucket_solved bucket s0 s1.
Proof.
  intros Hn. unfold bucket_solved, bslot. destruct (Z.leb_spec (len bucket) 1); [| lia].
  destruct bucket as [| e [| e' b]]; [done | done | rewrite !len_cons in Hn; pose proof (len_nonneg b); lia].
Qed.

Lemma solved_direct bucket s0 s1 :
  2 <= len bucket < splitThreshold -> Forall mix_ok (parts bucket) -> good_seed (parts bucket) (len bucket) s0 ->
  bucket_solved bucket s0 s1.
Proof.
  intros Hn Hok Hg. unfold splitThreshold in *. unfold bucket_solved.
  assert (map (bslot (len bucket) s0 s1) (parts bucket) = seed_slots (parts bucket) s0 (len bucket)) as ->.
  { apply map_ext. intros p. unfold bslot, splitThreshold. destruct (Z.leb_spec (len bucket) 1); [lia |].
    destruct (Z.leb_spec 8 (len bucket)); [lia | done]. }
  apply perm_range; [lia | | exact Hg | apply seed_slots_lt; [done | lia]].
  unfold seed_slots, parts, len. by rewrite !length_map.
Qed.

Lemma half_split bucket sp seed : half0 bucket sp seed ++ half1 bucket sp seed ≡ₚ bucket.
Proof.
  unfold half0, half1. generalize (len bucket). intros n. induction bucket as [| e bucket IH]; [done |].
  destruct (split_low n sp seed (e_mix e)) eqn:E.
  - rewrite filter_cons_True by done. rewrite filter_cons_False by (by rewrite E). cbn [app]. by constructor.
  - rewrite filter_cons_False by (by rewrite E). rewrite filter_cons_True by done. etransitivity; [symmetry; apply Permutation_middle | by constructor].
Qed.

Lemma half1_sublist bucket sp seed : NoDup (parts bucket) -> NoDup (parts (half1 bucket sp seed)).
Proof.
  intros Hn. assert (NoDup (parts (half0 bucket sp seed) ++ parts (half1 bucket sp seed))) as H.
  { unfold parts. rewrite <- map_app. by rewrite (Permutation_map e_mix (half_split bucket sp seed)). }
  by apply NoDup_app in H as (_ & _ & H).
Qed.

Lemma solved_split bucket s0 s1 :
  splitThreshold <= len bucket < 2 ^ 32 -> Forall mix_ok (parts bucket) ->
  let sp := len bucket / 2 in
  good_split bucket sp s0 -> good_seed (parts (half1 bucket sp s0)) (len bucket - sp) s1 ->
  bucket_solved bucket s0 s1.
Proof.
  intros Hn Hok sp [Hl0 Hg0] Hg1. unfold splitThreshold in *. assert (4 <= sp < len bucket) as Hsp by (subst sp; Z.div_mod_to_equations; lia).
  set (n := len bucket) in *. set (b0 := half0 bucket sp s0) in *. set (b1 := half1 bucket sp s0) in *.
  pose proof (half_split bucket sp s0) as Hp. fold b0 b1 in Hp.
  assert (Forall mix_ok (parts b0 ++ parts b1)) as Hok01.
  { unfold parts. rewrite <- map_app. by rewrite (Permutation_map e_mix Hp). }
  apply Forall_app in Hok01 as [Hok0 Hok1].
  assert (map (bslot n s0 s1) (parts b0) = seed_slots (parts b0) s0 n) as E0.
  { unfold seed_slots, parts. rewrite !map_map. apply map_ext_in. intros e [He _]%list_elem_of_In%list_elem_of_filter.
    unfold split_low in He. fold n in He. unfold bslot, splitThreshold. destruct (Z.leb_spec n 1); [lia |].
    destruct (Z.leb_spec 8 n); [| lia]. cbv zeta. fold sp. by rewrite He. }
  assert (map (bslot n s0 s1) (parts b1) = map (Z.add sp) (seed_slots (parts b1) s1 (n - sp))) as E1.
  { unfold seed_slots, parts. rewrite !map_map. apply map_ext_in. intros e [He _]%list_elem_of_In%list_elem_of_filter.
    unfold split_low in He. fold n in He. unfold bslot, splitThreshold. destruct (Z.leb_spec n 1); [lia |].
    destruct (Z.leb_spec 8 n); [| lia]. cbv zeta. fold sp. by rewrite He. }
  assert (Forall (fun x => 0 <= x < sp) (seed_slots (parts b0) s0 n)) as Hr0.
  { unfold seed_slots, parts. rewrite map_map. apply Forall_map, Forall_forall. intros e Hin.
    pose proof Hin as [He _]%list_elem_of_filter. unfold split_low in He. apply Z.ltb_lt in He. fold n in He. split; [| done].
    unfold parts in Hok0. rewrite Forall_map, Forall_forall in Hok0. apply mixFromParts_lt; [by apply Hok0 | lia]. }
  pose proof (seed_slots_lt _ s1 (n - sp) Hok1 ltac:(lia)) as Hr1.
  unfold bucket_solved. fold n. unfold parts at 1. rewrite <- Hp, map_app, map_app. fold (parts b0). fold (parts b1).
  rewrite E0, E1. apply perm_range; [lia | | |].
  - rewrite len_app. unfold seed_slots, parts, len. rewrite !length_map. fold (len b0) (len b1).
    apply Permutation_length in Hp. rewrite length_app in Hp. unfold n, len. lia.
  - apply NoDup_app. split; [done |]. split; [| by apply NoDup_fmap_2_strong; [intros; lia | done]].
    intros x Hx Hx1. rewrite Forall_forall in Hr0. specialize (Hr0 x Hx).
    apply list_elem_of_In, in_map_iff in Hx1 as (y & <- & Hy%list_elem_of_In). rewrite Forall_forall in Hr1. specialize (Hr1 y Hy). cbn in *. lia.
  - apply Forall_app. split; [eapply Forall_impl; [exact Hr0 |]; cbn; lia |]. apply Forall_map.
    eapply Forall_impl; [exact Hr1 |]. cbn. lia.
Qed.

(** ** What the metadata stores for a bucket *)

(** The seeds of a bucket and the values the builder keeps for the encoder: a
    seed itself when it has a code, else the marker, with the seed in the
    fallback list. *)
Record bsol := mk_bsol { r0 : Z; r1 : Z; e0 : Z; e1 : Z }.

Definition enc_ok (size r e : Z) : Prop := is_u 21 r /\ seed_ok size e /\ (e = fallbackMarker \/ e = r).

Record bsol_ok (bucket : list bucketEntry) (b : bsol) : Prop := {
  bo_solved : bucket_solved bucket (r0 b) (r1 b);
  bo_small : len bucket <= 1 -> e0 b = 0;
  bo_direct : 2 <= len bucket < splitThreshold -> enc_ok (len bucket) (r0 b) (e0 b);
  bo_split : splitThreshold <= len bucket ->
    enc_ok (len bucket / 2) (r0 b) (e0 b) /\ enc_ok (len bucket - len bucket / 2) (r1 b) (e1 b)
}.

Definition fb_of (i : Z) (bucket : list bucketEntry) (b : bsol) : list fallbackEntry :=
  if len bucket <=? 1 then []
  else (if e0 b =? fallbackMarker then [mk_fb i 0 (r0 b)] else []) ++
       (if (splitThreshold <=? len bucket) && (e1 b =? fallbackMarker) then [mk_fb i 1 (r1 b)] else []).

(** The errors a bucket that cannot be solved gives. *)
Definition solve_error (bucket : list bucketEntry) (e : error) : Prop :=
  (e = ErrDuplicateKey /\ ~ NoDup (parts bucket)) \/
  (e = ErrSplitBucketSeedSearchFailed /\ NoDup (parts bucket)) \/ e = ErrIndistinguishableHashes.

Lemma extended_result_spec bucket :
  match extended_result bucket with
  | Ok seed => is_u 21 seed /\ good_seed (parts bucket) (len bucket) seed
  | Err e => solve_error bucket e
  | Panic => False
  end.
Proof.
  unfold extended_result, solve_error. case_decide; [| left; done].
  destruct (first_seed _ _ _) as [s |] eqn:E; [apply first_seed_Some in E | by right; right]. done.
Qed.

Lemma seed_ok_21 size r : seed_ok size r -> r <> fallbackMarker -> is_u 21 r.
Proof.
  intros [Hs [-> | [Hle Hlt]]] Hne; [done |]. pose proof (gr_k_bound size Hs). pose proof (pow2_le (gr_k size) 8 ltac:(lia)).
  unfold grMaxQuotient, is_u in *. change (2 ^ 8) with 256 in *. lia.
Qed.

Lemma solveSplitBucket_spec fl i bucket :
  splitThreshold <= len bucket < 2 ^ 32 -> Forall mix_ok (parts bucket) -> is_u 16 i ->
  exists fl' r, solveSplitBucket fl i bucket = Ok (fl', r) /\
    match r with
    | inl (x0, x1) => exists b, bsol_ok bucket b /\ fl' = fl ++ fb_of i bucket b /\ x0 = e0 b /\ x1 = e1 b
    | inr e => solve_error bucket e
    end.
Proof.
  intros Hn Hok Hi. pose proof Hn as Hn2. unfold splitThreshold in Hn2. unfold solveSplitBucket.
  set (n := len bucket) in *. set (sp := n / 2) in *. assert (4 <= sp < n /\ 4 <= n - sp) as Hsp by (subst sp; Z.div_mod_to_equations; lia).
  rewrite (seed_search_ext _ (fun s => if decide (good_split bucket sp s) then Some (s, half1 bucket sp s) else None)).
  2:{ intros s _. apply split_trial_eq; done || lia. }
  cbn [mbind res_bind]. destruct (find_first _ _) as [[s0 sub1] |] eqn:Hf.
  2:{ rewrite hasDuplicateMixParts_spec. cbn [mbind res_bind]. eexists _, _. split; [done |]. unfold solve_error.
      case_bool_decide; [by left | right; left]. split; [done |].
      destruct (decide (NoDup (parts bucket))); [done | contradiction]. }
  apply find_first_Some in Hf as (x & Hx & E & _). case_decide as Hgs; [| done]. injection E as -> <-.
  change splitBucketMaxSeed with (2 ^ 20) in Hx.
  rewrite maxEncodableSeed_eq by lia. cbn [mbind res_bind].
  pose proof (half_split bucket sp s0) as Hp. set (b1 := half1 bucket sp s0) in *.
  assert (len b1 = n - sp) as Hlb1.
  { apply Permutation_length in Hp. rewrite length_app in Hp. destruct Hgs as [Hl0 _]. unfold n, len in *. lia. }
  assert (Forall mix_ok (parts b1)) as Hok1.
  { unfold parts in *. rewrite Forall_map in Hok |- *. rewrite Forall_forall in Hok |- *.
    intros e [_ He]%list_elem_of_filter. by apply Hok. }
  set (mark0 := (8 <? sp) || (grMaxQuotient * 2 ^ gr_k sp <=? s0)).
  set (x0 := if mark0 then fallbackMarker else s0).
  assert (enc_ok sp s0 x0) as He0.
  { unfold x0, mark0. destruct (Z.ltb_spec 8 sp); cbn [orb].
    { split_and!; [unfold is_u; lia | by apply seed_ok_marker; lia | by left]. }
    destruct (Z.leb_spec (grMaxQuotient * 2 ^ gr_k sp) s0).
    { split_and!; [unfold is_u; lia | by apply seed_ok_marker; lia | by left]. }
    split_and!; [unfold is_u; lia | | by right]. split; [lia |]. right. lia. }
  assert ((x0 =? fallbackMarker) = mark0) as Hx0.
  { unfold x0. destruct mark0; [done |]. unfold fallbackMarker. apply Z.eqb_neq. lia. }
  assert (forall s1 x1, enc_ok (n - sp) s1 x1 -> good_seed (parts b1) (n - sp) s1 -> bsol_ok bucket (mk_bsol s0 s1 x0 x1)) as Hbs.
  { intros s1 x1 He1 Hg1. split; cbn; fold n; fold sp; [| lia | unfold splitThreshold; lia | done].
    by apply solved_split. }
  assert (forall s1 x1, fb_of i bucket (mk_bsol s0 s1 x0 x1) =
    (if mark0 then [mk_fb i 0 s0] else []) ++ (if x1 =? fallbackMarker then [mk_fb i 1 s1] else [])) as Hfb.
  { intros s1 x1. unfold fb_of. fold n. cbn [BijSolve.e0 BijSolve.e1 BijSolve.r0 BijSolve.r1]. destruct (Z.leb_spec n 1); [lia |].
    rewrite Hx0. unfold splitThreshold. destruct (Z.leb_spec 8 n); [done | lia]. }
  rewrite u16_id by done. set (fl0 := fl ++ if mark0 then [mk_fb i 0 s0] else []).
  assert ((if mark0 then (fl ++ [mk_fb i 0 s0], fallbackMarker) else (fl, s0)) = (fl0, x0)) as ->.
  { unfold fl0, x0. destruct mark0; [done | by rewrite app_nil_r]. }
  rewrite Hlb1. destruct (Z.leb_spec 2 (n - sp)); [| lia].
  assert (forall s1 x1, is_u 21 s1 -> seed_ok (n - sp) x1 -> (x1 = fallbackMarker \/ x1 = s1) ->
    good_seed (parts b1) (n - sp) s1 ->
    exists b, bsol_ok bucket b /\ fl0 ++ (if x1 =? fallbackMarker then [mk_fb i 1 s1] else []) = fl ++ fb_of i bucket b /\
      x0 = e0 b /\ x1 = e1 b) as Hdone.
  { intros s1 x1 H1 H2 H3 H4. exists (mk_bsol s0 s1 x0 x1). split; [by apply Hbs |]. rewrite Hfb. unfold fl0.
    by rewrite <- app_assoc. }
  pose proof (solveExtended_spec b1 ltac:(lia) Hok1) as Hext. pose proof (extended_result_spec b1) as Hres. rewrite Hlb1 in *.
  assert (forall e, solve_error b1 e -> solve_error bucket e \/ e = ErrSplitBucketSeedSearchFailed) as Herr.
  { intros e [[-> Hd] | [[-> _] | ->]]; [left; left; split; [done |] | by right | left; by right; right].
    intros Hnd. apply Hd. by apply half1_sublist. }
  assert (extended_result b1 <> Err ErrSplitBucketSeedSearchFailed) as Hns.
  { unfold extended_result. case_decide; [by destruct (first_seed _ _ _) | done]. }
  assert (forall r, extended_result b1 = r -> exists fl' r',
    match r with
    | Ok seed1 => Ok (fl0 ++ [mk_fb i 1 seed1], inl (x0, fallbackMarker))
    | Err e => Ok (fl0, inr e)
    | Panic => Panic
    end = Ok (fl', r') /\
    match r' with
    | inl (x0, x1) => exists b, bsol_ok bucket b /\ fl' = fl ++ fb_of i bucket b /\ x0 = e0 b /\ x1 = e1 b
    | inr e => solve_error bucket e
    end) as Hfall.
  { intros r Hr. rewrite Hr in Hres, Hns. destruct r as [s1 | e |]; [| | done].
    - eexists _, _. split; [done |]. destruct Hres as [Hs1 Hg1].
      apply (Hdone s1 fallbackMarker); [done | apply seed_ok_marker; lia | by left | done].
    - eexists _, _. split; [done |]. cbn. destruct (Herr e Hres) as [? | ->]; [done | by destruct Hns]. }
  destruct (Z.ltb_spec 8 (n - sp)); cbn [mbind res_bind]; [rewrite Hext; by apply Hfall |].
  pose proof (solveDirectBucket_spec b1 ltac:(lia) Hok1) as Hdir. rewrite Hlb1 in Hdir. rewrite Hdir. cbn [mbind res_bind].
  destruct (first_seed _ _ _) as [s1 |] eqn:Hf1; cbn [direct_result]; [| rewrite Hext; by apply Hfall].
  apply first_seed_Some in Hf1 as [Hs1 Hg1]. eexists _, _. split; [done |]. cbn.
  assert (seed_ok (n - sp) s1) as Hso by (split; [lia | right; lia]).
  assert (s1 <> fallbackMarker) as Hne.
  { pose proof (gr_k_bound (n - sp) ltac:(lia)). pose proof (pow2_le (gr_k (n - sp)) 8 ltac:(lia)).
    unfold grMaxQuotient, fallbackMarker in *. change (2 ^ 8) with 256 in *. lia. }
  destruct (Hdone s1 s1) as (b & Hb1 & Hb2 & Hb3); [by eapply seed_ok_21 | done | by right | done |].
  destruct (Z.eqb_spec s1 fallbackMarker); [done |]. rewrite app_nil_r in Hb2. by exists b.
Qed.

(** ** All buckets *)
Definition bucket_at (buckets : list (list bucketEntry)) (i : Z) : list bucketEntry := default [] (buckets !! Z.to_nat i).

Definition fb_upto (buckets : list (list bucketEntry)) (sol : Z -> bsol) (k : Z) : list fallbackEntry :=
  concat (map (fun i => fb_of i (bucket_at buckets i) (sol i)) (range k)).

(** Where the solution keeps what the encoder writes for bucket [i]. *)
Definition kept (s : solution) (bucket : list bucketEntry) (i : Z) (b : bsol) : Prop :=
  if splitThreshold <=? len bucket
  then exists j, idx (splitSeedIdx s) i = Ok j /\ idx (splitSeeds s) j = Ok (e0 b) /\ idx (splitSeeds s) (j + 1) = Ok (e1 b)
  else idx (seeds s) i = Ok (e0 b).

Record solved_upto (buckets : list (list bucketEntry)) (k : Z) (s : solution) (sol : Z -> bsol) : Prop := {
  su_ok : forall i, 0 <= i < k -> bsol_ok (bucket_at buckets i) (sol i);
  su_kept : forall i, 0 <= i < k -> kept s (bucket_at buckets i) i (sol i);
  su_fb : fallbackList s = fb_upto buckets sol k;
  su_seeds : len (seeds s) = len buckets;
  su_idx : len (splitSeedIdx s) = len buckets
}.

Lemma fb_upto_ext buckets sol sol' k :
  (forall i, 0 <= i < k -> sol i = sol' i) -> fb_upto buckets sol k = fb_upto buckets sol' k.
Proof.
  intros H. unfold fb_upto. apply (f_equal (@concat _)), map_ext_in. intros i Hi%list_elem_of_In%elem_of_range. by rewrite H.
Qed.

Lemma fb_upto_succ buckets sol k :
  0 <= k -> fb_upto buckets sol (k + 1) = fb_upto buckets sol k ++ fb_of k (bucket_at buckets k) (sol k).
Proof. intros. unfold fb_upto. rewrite range_succ by done. rewrite map_app, concat_app. cbn [map concat]. by rewrite app_nil_r. Qed.

(** One more bucket: the fields that change, and the others kept. *)
Lemma solved_extend buckets k s s' sol b :
  0 <= k -> solved_upto buckets k s sol -> bsol_ok (bucket_at buckets k) b ->
  kept s' (bucket_at buckets k) k b ->
  fallbackList s' = fallbackList s ++ fb_of k (bucket_at buckets k) b ->
  len (seeds s') = len buckets -> len (splitSeedIdx s') = len buckets ->
  (forall i x, 0 <= i < k -> idx (seeds s) i = Ok x -> idx (seeds s') i = Ok x) ->
  (forall i x, 0 <= i < k -> idx (splitSeedIdx s) i = Ok x -> idx (splitSeedIdx s') i = Ok x) ->
  (forall i x, idx (splitSeeds s) i = Ok x -> idx (splitSeeds s') i = Ok x) ->
  solved_upto buckets (k + 1) s' (fun i => if i =? k then b else sol i).
Proof.
  intros Hk [Hok Hkept Hfb Hs Hi] Hb Hkb Hfb' Hs' Hi' K1 K2 K3. split; [| | | done | done].
  - intros i Hik. destruct (Z.eqb_spec i k) as [-> |]; [done |]. apply Hok. lia.
  - intros i Hik. destruct (Z.eqb_spec i k) as [-> |]; [done |]. specialize (Hkept i ltac:(lia)). unfold kept in *.
    destruct (splitThreshold <=? len (bucket_at buckets i)); [| apply K1; [lia | done]].
    destruct Hkept as (j & J1 & J2 & J3). exists j. split_and!; [apply K2; [lia | done] | by apply K3 ..].
  - rewrite fb_upto_succ, Hfb', Hfb, Z.eqb_refl by done. f_equal. apply fb_upto_ext.
    intros i Hik. destruct (Z.eqb_spec i k); [lia | done].
Qed.

Lemma idx_insert_other {A} (l : list A) i k x : 0 <= i -> 0 <= k -> i <> k -> idx (<[Z.to_nat k := x]> l) i = idx l i.
Proof. intros. unfold idx. by rewrite list_lookup_insert_ne by lia. Qed.

Lemma idx_insert_same {A} (l : list A) k x : 0 <= k < len l -> idx (<[Z.to_nat k := x]> l) k = Ok x.
Proof. intros. apply idx_ok. split; [lia |]. apply list_lookup_insert_eq. unfold len in *. lia. Qed.

Lemma idx_app_keep {A} (l k : list A) i x : idx l i = Ok x -> idx (l ++ k) i = Ok x.
Proof. intros [Hi Hx]%idx_ok. apply idx_ok. split; [done |]. by apply lookup_app_l_Some. Qed.

Lemma bucket_at_idx buckets i : 0 <= i < len buckets -> idx buckets i = Ok (bucket_at buckets i).
Proof. intros Hi. unfold bucket_at. by destruct (idx_in_range buckets i Hi) as (b & -> & ->). Qed.

Definition buckets_ok (buckets : list (list bucketEntry)) : Prop :=
  len buckets <= 2 ^ 16 /\ Forall (fun b => len b < 2 ^ 32 /\ Forall mix_ok (parts b)) buckets.

Lemma buckets_ok_at buckets i :
  buckets_ok buckets -> 0 <= i < len buckets -> len (bucket_at buckets i) < 2 ^ 32 /\ Forall mix_ok (parts (bucket_at buckets i)).
Proof.
  intros [_ H] Hi. unfold bucket_at. destruct (idx_in_range buckets i Hi) as (b & Hb & _). rewrite Hb. cbn.
  by apply (Forall_lookup_1 _ _ _ _ H Hb).
Qed.

Definition sized (buckets : list (list bucketEntry)) (s : solution) : Prop :=
  len (seeds s) = len buckets /\ len (splitSeedIdx s) = len buckets.

Lemma solve_step_spec buckets k s sol :
  buckets_ok buckets -> 0 <= k < len buckets -> solved_upto buckets k s sol ->
  exists r, solve_step buckets s k = Ok r /\
    match r with
    | inl s' => exists sol', solved_upto buckets (k + 1) s' sol'
    | inr (s', e) => solve_error (bucket_at buckets k) e /\ sized buckets s'
    end.
Proof.
  intros Hbs Hk Hsu. destruct (buckets_ok_at buckets k Hbs Hk) as [Hn Hok]. pose proof Hsu as [_ _ _ Hls Hli].
  unfold solve_step. rewrite bucket_at_idx by done. cbn [mbind res_bind]. set (bucket := bucket_at buckets k) in *.
  pose proof (len_nonneg bucket). assert (is_u 16 k) as Hk16 by (destruct Hbs; unfold is_u; lia).
  assert (forall b x, bsol_ok bucket b -> len bucket < splitThreshold -> x = e0 b -> 
    solved_upto buckets (k + 1) (mk_sol (<[Z.to_nat k := x]> (seeds s)) (splitSeeds s) (splitSeedIdx s) (fallbackList s ++ fb_of k bucket b))
      (fun i => if i =? k then b else sol i)) as Hseed.
  { intros b x Hb Hlt ->. eapply solved_extend; try done; cbn; try lia.
    - unfold kept. fold bucket. destruct (Z.leb_spec splitThreshold (len bucket)); [lia |]. cbn. apply idx_insert_same. lia.
    - by rewrite len_insert.
    - intros i x Hi Hx. rewrite idx_insert_other; [done | lia ..]. }
  destruct (Z.leb_spec (len bucket) 1).
  { rewrite upd_in_range by lia. cbn [mbind res_bind]. eexists. split; [done |].
    assert (bsol_ok bucket (mk_bsol 0 0 0 0)) as Hb by (split; unfold splitThreshold; try lia; [by apply solved_small | done]).
    specialize (Hseed _ 0 Hb ltac:(unfold splitThreshold; lia) eq_refl). unfold fb_of in Hseed.
    destruct (Z.leb_spec (len bucket) 1); [| lia]. rewrite app_nil_r in Hseed. by eexists. }
  destruct (Z.leb_spec splitThreshold (len bucket)).
  { destruct (solveSplitBucket_spec (fallbackList s) k bucket ltac:(lia) Hok Hk16) as (fl & r & -> & Hr). cbn [mbind res_bind].
    destruct r as [[x0 x1] | e]; [| by eexists]. destruct Hr as (b & Hb & -> & -> & ->).
    rewrite upd_in_range by lia. cbn [mbind res_bind]. eexists. split; [done |]. eexists.
    eapply (solved_extend _ _ s _ sol b); try done; cbn; try lia.
    - unfold kept. fold bucket. destruct (Z.leb_spec splitThreshold (len bucket)); [| lia]. cbn. exists (len (splitSeeds s)).
      split; [apply idx_insert_same; lia |]. split.
      + pose proof (idx_app_mid (splitSeeds s) [e0 b; e1 b] [] 0 ltac:(unfold len; cbn; lia)) as E. by rewrite app_nil_r, Z.add_0_r in E.
      + pose proof (idx_app_mid (splitSeeds s) [e0 b; e1 b] [] 1 ltac:(unfold len; cbn; lia)) as E. by rewrite app_nil_r in E.
    - by rewrite len_insert.
    - intros i x Hi Hx. rewrite idx_insert_other; [done | lia ..].
    - intros i x Hx. by apply idx_app_keep. }
  rewrite solveDirectBucket_spec by (done || lia). cbn [mbind res_bind].
  destruct (first_seed _ _ _) as [s0 |] eqn:Hf; cbn [direct_result].
  - apply first_seed_Some in Hf as [Hs0 Hg0]. rewrite upd_in_range by lia. cbn [mbind res_bind]. eexists. split; [done |].
    unfold splitThreshold in *. assert (seed_ok (len bucket) s0) as Hso by (split; [lia | right; lia]).
    assert (s0 <> fallbackMarker) as Hne.
    { pose proof (gr_k_bound (len bucket) ltac:(lia)). pose proof (pow2_le (gr_k (len bucket)) 8 ltac:(lia)).
      unfold grMaxQuotient, fallbackMarker in *. change (2 ^ 8) with 256 in *. lia. }
    assert (bsol_ok bucket (mk_bsol s0 0 s0 0)) as Hb.
    { split; cbn; unfold splitThreshold; try lia; [apply solved_direct; [unfold splitThreshold; lia | done | done] |]. intros _. split_and!; [by eapply seed_ok_21 | done | by right]. }
    specialize (Hseed _ s0 Hb ltac:(lia) eq_refl). unfold fb_of in Hseed. cbn in Hseed.
    destruct (Z.leb_spec (len bucket) 1); [lia |]. destruct (Z.eqb_spec s0 fallbackMarker); [done |].
    unfold splitThreshold in Hseed. destruct (Z.leb_spec 8 (len bucket)); [lia |]. cbn in Hseed. rewrite app_nil_r in Hseed. by eexists.
  - rewrite solveExtended_spec by (done || lia). pose proof (extended_result_spec bucket) as Hres.
    destruct (extended_result bucket) as [s0 | e |]; [| by eexists | done].
    destruct Hres as [Hs0 Hg0]. rewrite upd_in_range by lia. cbn [mbind res_bind]. eexists. split; [done |].
    unfold splitThreshold in *.
    assert (bsol_ok bucket (mk_bsol s0 0 fallbackMarker 0)) as Hb.
    { split; cbn; unfold splitThreshold; try lia; [apply solved_direct; [unfold splitThreshold; lia | done | done] |]. intros _. split_and!; [done | apply seed_ok_marker; lia | by left]. }
    specialize (Hseed _ fallbackMarker Hb ltac:(lia) eq_refl). unfold fb_of in Hseed. cbn in Hseed.
    destruct (Z.leb_spec (len bucket) 1); [lia |].
    unfold splitThreshold in Hseed. destruct (Z.leb_spec 8 (len bucket)); [lia |]. cbn in Hseed. rewrite u16_id by done. by eexists.
Qed.

Lemma solveBijections_spec buckets s :
  buckets_ok buckets -> len (seeds s) = len buckets -> len (splitSeedIdx s) = len buckets ->
  exists s' r, solveBijections buckets s = Ok (s', r) /\ sized buckets s' /\
    match r with
    | None => exists sol, solved_upto buckets (len buckets) s' sol
    | Some e => exists i, 0 <= i < len buckets /\ solve_error (bucket_at buckets i) e
    end.
Proof.
  intros Hbs Hs Hi. unfold solveBijections. pose proof (len_nonneg buckets) as H0.
  set (st := mk_sol _ _ _ _).
  enough (wp (foldB (solve_step buckets) st (range (len buckets)))
    (fun r => match r with
       | inl s' => exists sol, solved_upto buckets (len buckets) s' sol
       | inr (s', e) => sized buckets s' /\ exists i, 0 <= i < len buckets /\ solve_error (bucket_at buckets i) e
       end) no_err) as Hwp.
  { apply wp_total in Hwp as ([s' | [s' e]] & -> & Hr); cbn [mbind res_bind]; eexists _, _; (split; [done |]); [| exact Hr].
    split; [| done]. destruct Hr as (sol & []). done. }
  apply (wp_foldB_prefix (fun pre s' => exists sol, solved_upto buckets (len pre) s' sol)).
  - exists (fun _ => mk_bsol 0 0 0 0). change (len (@nil Z)) with 0. split; cbn.
    + intros; lia.
    + intros; lia.
    + done.
    + done.
    + unfold len in *. by rewrite length_map.
  - intros pre k post s' Hl (sol & Hsu). apply range_prefix in Hl as [-> Hk].
    destruct (solve_step_spec buckets (len pre) s' sol Hbs Hk Hsu) as (r & -> & Hr). cbn [wp].
    destruct r as [s2 | [s2 e]]; [by rewrite len_app |]. destruct Hr as [He Hz]. split; [done | by exists (len pre)].
  - intros s' (sol & Hsu). exists sol.
    assert (len (range (len buckets)) = len buckets) as E by (unfold len at 1; rewrite length_range; lia).
    by rewrite E in Hsu.
Qed.
