(* ===== verification/BijMeta.v ===== *)
(** * The metadata of a solved block, as the builder writes it *)
From S2P Require Import Prelude Words Encoding BijMix BijBits BijStream BijEnc BijSolver BijBuilder BijDecode BijGolomb BijElias BijRange BijFallback BijSeeds BijSplit BijSolve.
#[local] Open Scope Z_scope.

(** ** Counts *)
Fixpoint zsum (l : list Z) : Z := match l with [] => 0 | x :: l => x + zsum l end.

(** Running sums. *)
Fixpoint cums (acc : Z) (l : list Z) : list Z :=
  match l with [] => [] | x :: l => (acc + x) :: cums (acc + x) l end.

Lemma zsum_nonneg l : Forall (fun x => 0 <= x) l -> 0 <= zsum l.
Proof. induction 1; simpl; lia. Qed.

Lemma zsum_app a b : zsum (a ++ b) = zsum a + zsum b.
Proof. induction a as [| x a IH]; simpl; lia. Qed.

Lemma length_cums acc l : length (cums acc l) = length l.
Proof. revert acc. induction l as [| x l IH]; intros acc; simpl; [done | by rewrite IH]. Qed.

Lemma cums_snoc acc l x : cums acc (l ++ [x]) = cums acc l ++ [acc + zsum l + x].
Proof. revert acc. induction l as [| y l IH]; intros acc; simpl; [by rewrite Z.add_0_r | rewrite IH; do 3 f_equal; lia]. Qed.

Lemma cums_nondec acc l : Forall (fun x => 0 <= x) l -> nondec acc (cums acc l) (acc + zsum l).
Proof.
  revert acc. induction l as [| x l IH]; intros acc Hl; simpl; [lia |]. apply Forall_cons in Hl as [Hx Hl].
  split; [lia |]. replace (acc + (x + zsum l)) with (acc + x + zsum l) by lia. by apply IH.
Qed.

Lemma elt_cums l i : 0 <= i <= len l -> elt (cums 0 l) (i - 1) = zsum (take (Z.to_nat i) l).
Proof.
  intros Hi. unfold elt. destruct (Z.ltb_spec (i - 1) 0).
  { assert (i = 0) as -> by lia. done. }
  assert (forall n acc, (n < length l)%nat -> cums acc l !! n = Some (acc + zsum (take (S n) l))) as H1.
  { clear. induction l as [| x l IH]; intros n acc Hn; [simpl in Hn; lia |]. destruct n as [| n]; simpl; [do 2 f_equal; lia |].
    rewrite IH by (simpl in Hn; lia). f_equal. cbn [take zsum]. lia. }
  rewrite (H1 (Z.to_nat (i - 1)) 0) by (unfold len in Hi; lia). cbn [default]. unfold id.
  replace (S (Z.to_nat (i - 1))) with (Z.to_nat i) by lia. lia.
Qed.

Definition sizes_of (buckets : list (list bucketEntry)) : list Z := map len buckets.

Lemma sizes_nonneg buckets : Forall (fun x => 0 <= x) (sizes_of buckets).
Proof. apply Forall_map, Forall_forall. intros b _. apply len_nonneg. Qed.

Lemma countStep_eq buckets sizes cumul c i :
  countStep buckets (sizes, cumul, c) i =
  (bucket ← idx buckets i; sizes ← upd sizes i (len bucket);
   cumul ← upd cumul i (u16 (c + u16 (len bucket))); Ok (sizes, cumul, u16 (c + u16 (len bucket)))).
Proof. reflexivity. Qed.

Lemma count_loop buckets : forall todo pre szs cms,
  buckets = pre ++ todo -> zsum (sizes_of buckets) < 2 ^ 16 -> length szs = length todo -> length cms = length todo ->
  foldM (countStep buckets) (sizes_of pre ++ szs, cums 0 (sizes_of pre) ++ cms, zsum (sizes_of pre)) (seqZ (len pre) (len todo)) =
  Ok (sizes_of buckets, cums 0 (sizes_of buckets), zsum (sizes_of buckets)).
Proof.
  induction todo as [| b todo IH]; intros pre szs cms Hb Hsum Hs Hc.
  { destruct szs, cms; try done. rewrite !app_nil_r in *. by subst. }
  destruct szs as [| sz szs], cms as [| cm cms]; try done. injection Hs as Hs. injection Hc as Hc.
  rewrite len_cons, seqZ_cons by (pose proof (len_nonneg todo); lia). cbn [foldM]. rewrite countStep_eq.
  assert (idx buckets (len pre) = Ok b) as ->.
  { rewrite Hb. apply (idx_nat _ (length pre)). by rewrite list_lookup_middle. }
  cbn [mbind res_bind]. assert (len (sizes_of pre) = len pre) as Hl1 by (unfold len, sizes_of; by rewrite length_map).
  rewrite (upd_app_at (sizes_of pre)) by exact Hl1. cbn [mbind res_bind].
  rewrite upd_app_at by (unfold len; rewrite length_cums; exact Hl1). cbn [mbind res_bind].
  pose proof (len_nonneg b). pose proof (zsum_nonneg _ (sizes_nonneg pre)). pose proof (zsum_nonneg _ (sizes_nonneg todo)).
  assert (zsum (sizes_of buckets) = zsum (sizes_of pre) + len b + zsum (sizes_of todo)) as Hz.
  { rewrite Hb. unfold sizes_of. rewrite map_app, zsum_app. cbn [map zsum]. lia. }
  rewrite (u16_id (len b)), u16_id by (unfold_words; lia).
  specialize (IH (pre ++ [b]) szs cms). rewrite <- app_assoc in IH. specialize (IH Hb Hsum Hs Hc).
  unfold sizes_of in IH at 1 2 3. rewrite map_app in IH. cbn [map] in IH. fold (sizes_of pre) in IH.
  rewrite cums_snoc, zsum_app, len_app, len_single, <- !app_assoc in IH. cbn [app zsum] in IH. rewrite Z.add_0_l, Z.add_0_r in IH.
  replace (Z.succ (len pre)) with (len pre + 1) by lia. replace (Z.pred (1 + len todo)) with (len todo) by lia. exact IH.
Qed.

Lemma computeCumulativeCounts_spec b :
  zsum (sizes_of (b_buckets b)) < 2 ^ 16 -> length (bucketSizes b) = length (b_buckets b) ->
  length (cumulative b) = length (b_buckets b) ->
  computeCumulativeCounts b = Ok (set_counts (sizes_of (b_buckets b)) (cums 0 (sizes_of (b_buckets b))) b).
Proof.
  intros Hz Hs Hc. unfold computeCumulativeCounts, range.
  pose proof (count_loop (b_buckets b) (b_buckets b) [] (bucketSizes b) (cumulative b) eq_refl Hz Hs Hc) as E.
  change (sizes_of [] ++ bucketSizes b) with (bucketSizes b) in E.
  change (cums 0 (sizes_of []) ++ cumulative b) with (cumulative b) in E.
  change (zsum (sizes_of [])) with 0 in E. change (len (@nil (list bucketEntry))) with 0 in E. by rewrite E.
Qed.

(** ** The streams of the buckets *)
Definition bstream (n : Z) (b : bsol) : list (Z * Z) :=
  if n <=? 1 then []
  else if splitThreshold <=? n then [(n / 2, e0 b); (n - n / 2, e1 b)]
  else [(n, e0 b)].

Definition streams (buckets : list (list bucketEntry)) (sol : Z -> bsol) (lo n : Z) : list (Z * Z) :=
  concat (map (fun i => bstream (len (bucket_at buckets i)) (sol i)) (seqZ lo n)).

Lemma bstream_ok bucket b : bsol_ok bucket b -> Forall (fun x => seed_ok x.1 x.2) (bstream (len bucket) b).
Proof.
  intros [_ _ Hd Hs]. unfold bstream, splitThreshold in *. destruct (Z.leb_spec (len bucket) 1); [constructor |].
  destruct (Z.leb_spec 8 (len bucket)).
  - destruct (Hs ltac:(lia)) as [(_ & H1 & _) (_ & H2 & _)].
    constructor; [exact H1 | constructor; [exact H2 | constructor]].
  - destruct (Hd ltac:(lia)) as (_ & H1 & _). constructor; [exact H1 | constructor].
Qed.

Lemma streams_ok buckets k s sol lo n :
  solved_upto buckets k s sol -> 0 <= lo -> lo + n <= k -> Forall (fun x => seed_ok x.1 x.2) (streams buckets sol lo n).
Proof.
  intros Hsu Hlo Hn. unfold streams. apply Forall_concat, Forall_map, Forall_forall. intros i Hi%elem_of_seqZ.
  apply bstream_ok. apply (su_ok _ _ _ _ Hsu). lia.
Qed.

Lemma streams_app buckets sol lo n m :
  0 <= n -> 0 <= m -> streams buckets sol lo (n + m) = streams buckets sol lo n ++ streams buckets sol (lo + n) m.
Proof. intros. unfold streams. by rewrite seqZ_app, map_app, concat_app by lia. Qed.

Lemma streams_one buckets sol lo : streams buckets sol lo 1 = bstream (len (bucket_at buckets lo)) (sol lo).
Proof. unfold streams. cbn. apply app_nil_r. Qed.

Lemma len_bstream n b : len (bstream n b) <= 2.
Proof. unfold bstream. repeat case_match; unfold len; cbn; lia. Qed.

Lemma len_streams buckets sol lo n : 0 <= n -> len (streams buckets sol lo n) <= 2 * n.
Proof.
  intros Hn. rewrite <- (Z2Nat.id n) by done. induction (Z.to_nat n) as [| k IH]; [done |].
  rewrite Nat2Z.inj_succ, <- Z.add_1_r, streams_app, len_app, streams_one by lia.
  pose proof (len_bstream (len (bucket_at buckets (lo + Z.of_nat k))) (sol (lo + Z.of_nat k))). lia.
Qed.

(** Where the codes of bucket [i] start. *)
Definition seed_pos (buckets : list (list bucketEntry)) (sol : Z -> bsol) (i : Z) : Z := (stream_code (streams buckets sol 0 i)).2.

Lemma seed_pos_bound buckets k s sol i :
  solved_upto buckets k s sol -> 0 <= i <= k -> 0 <= seed_pos buckets sol i <= 48 * i.
Proof.
  intros Hsu Hi. pose proof (stream_code_len _ (streams_ok buckets k s sol 0 i Hsu ltac:(lia) ltac:(lia))) as H.
  pose proof (len_streams buckets sol 0 i ltac:(lia)). unfold seed_pos. lia.
Qed.

(** ** A builder that has counted and solved its buckets *)
Record ready (b : Builder) (sol : Z -> bsol) : Prop := {
  rb_buckets : len (b_buckets b) = bucketsPerBlock;
  rb_sizes : bucketSizes b = sizes_of (b_buckets b);
  rb_cumul : cumulative b = cums 0 (sizes_of (b_buckets b));
  rb_count : keysInBlock b = zsum (sizes_of (b_buckets b));
  rb_16 : keysInBlock b < 2 ^ 16;
  rb_solved : solved_upto (b_buckets b) bucketsPerBlock (b_solution b) sol
}.

Lemma sizes_idx buckets i : 0 <= i < len buckets -> idx (sizes_of buckets) i = Ok (len (bucket_at buckets i)).
Proof.
  intros Hi. unfold sizes_of, bucket_at. destruct (idx_in_range buckets i Hi) as (b & Hb & _). rewrite Hb. cbn [default].
  apply idx_ok. split; [lia |]. by rewrite list_lookup_fmap, Hb.
Qed.

Section meta.
Context (b : Builder) (sol : Z -> bsol) (Hready : ready b sol).
#[local] Abbreviation buckets := (b_buckets b).
#[local] Abbreviation counts := (cums 0 (sizes_of (b_buckets b))).
#[local] Abbreviation U := (keysInBlock b).
#[local] Abbreviation L := (computeEFLowBits bucketsPerBlock (keysInBlock b)).

Lemma ready_U : 0 <= U < 2 ^ 16.
Proof using Hready. destruct Hready as [_ _ _ Hc H16 _]. pose proof (zsum_nonneg _ (sizes_nonneg buckets)). lia. Qed.

Lemma len_counts : len counts = bucketsPerBlock.
Proof using Hready.
  destruct Hready as [Hb _ _ _ _ _]. rewrite <- Hb. unfold len. rewrite length_cums. unfold sizes_of. by rewrite length_map.
Qed.

Lemma counts_nondec : nondec 0 counts U.
Proof using Hready.
  destruct Hready as [_ _ _ -> _ _]. rewrite <- (Z.add_0_l (zsum _)). apply cums_nondec, sizes_nonneg.
Qed.

Lemma size_at i : 0 <= i < bucketsPerBlock -> idx (bucketSizes b) i = Ok (len (bucket_at buckets i)).
Proof using Hready. intros Hi. destruct Hready as [Hb -> _ _ _ _]. apply sizes_idx. by rewrite Hb. Qed.

(** The codes of one bucket. *)
Lemma seedStep_spec bw sp i :
  0 <= i < bucketsPerBlock -> bw_ok bw -> len sp = numCheckpoints ->
  bitsWritten bw = seed_pos buckets sol i ->
  exists bw' sp', seedStep b (bw, sp) i = Ok (bw', sp') /\
    written bw (stream_code (streams buckets sol i 1)) bw' /\ len sp' = numCheckpoints /\
    (forall j, 0 <= j < numCheckpoints -> idx sp' j =
       if i =? (j + 1) * checkpointInterval then Ok (seed_pos buckets sol i) else idx sp j).
Proof using Hready.
  intros Hi Hok Hsp Hpos. unfold seedStep. pose proof (seed_pos_bound buckets _ _ _ i (rb_solved _ _ Hready) ltac:(lia)) as Hpb.
  assert (exists sp', seedCheckpoint bw sp i = Ok sp' /\ len sp' = numCheckpoints /\
    (forall j, 0 <= j < numCheckpoints -> idx sp' j =
       if i =? (j + 1) * checkpointInterval then Ok (seed_pos buckets sol i) else idx sp j)) as (sp' & -> & Hl' & Hsp').
  { unfold seedCheckpoint. rewrite Hpos. unfold bucketsPerBlock in *. change checkpointInterval with 128. change numCheckpoints with 7 in *.
    destruct (Z.ltb_spec 0 i); cbn [andb].
    2:{ exists sp. split_and!; [done | done |]. intros j Hj. destruct (Z.eqb_spec i ((j + 1) * 128)); [lia | done]. }
    pose proof (Z.div_mod i 128 ltac:(lia)) as Hdm. pose proof (Z.mod_pos_bound i 128 ltac:(lia)).
    destruct (Z.eqb_spec (i mod 128) 0) as [Em | Em].
    - destruct (Z.ltb_spec (i / 128 - 1) 7); [| lia]. destruct (Z.ltb_spec 0xFFFF (seed_pos buckets sol i)); [lia |].
      rewrite upd_in_range by lia. eexists. split; [done |]. split; [by rewrite len_insert |]. intros j Hj.
      rewrite u16_id by (unfold_words; lia). destruct (Z.eqb_spec i ((j + 1) * 128)).
      + replace (i / 128 - 1) with j by lia. apply idx_insert_same. lia.
      + apply idx_insert_other; lia.
    - exists sp. split_and!; [done | done |]. intros j Hj. destruct (Z.eqb_spec i ((j + 1) * 128)) as [-> |]; [| done].
      rewrite Z.mod_mul in Em by lia. done. }
  cbn [mbind res_bind]. rewrite size_at by done. cbn [mbind res_bind]. rewrite streams_one. set (bucket := bucket_at buckets i) in *.
  pose proof (su_kept _ _ _ _ (rb_solved _ _ Hready) i Hi) as Hk. fold bucket in Hk. unfold kept in Hk.
  pose proof (bstream_ok bucket (sol i) (su_ok _ _ _ _ (rb_solved _ _ Hready) i Hi)) as Hbo. unfold bstream in *.
  destruct (Z.leb_spec (len bucket) 1); [eexists _, _; split_and!; [done | by apply written_nil | done | done] |].
  destruct (splitThreshold <=? len bucket).
  - destruct Hk as (j & -> & H0 & H1). cbn [mbind res_bind]. rewrite H0, H1. cbn [mbind res_bind].
    apply Forall_cons in Hbo as [Ho0 [Ho1 _]%Forall_cons]. cbn [fst snd] in *.
    destruct (encode_or_mark_spec bw _ _ Hok Ho0) as (bw1 & -> & Hw1). cbn [mbind res_bind].
    destruct (encode_or_mark_spec bw1 _ _ (written_ok _ _ _ Hw1) Ho1) as (bw2 & -> & Hw2). cbn [mbind res_bind].
    eexists _, _. split_and!; [done | | done | done]. unfold stream_code. cbn [map code_concat fold_right fst snd].
    rewrite code_nil_r. eapply written_trans; [done | by apply seed_code_ok | done | done].
  - rewrite Hk. cbn [mbind res_bind]. apply Forall_cons in Hbo as [Ho0 _]. cbn [fst snd] in *.
    destruct (encode_or_mark_spec bw _ _ Hok Ho0) as (bw1 & -> & Hw1). cbn [mbind res_bind].
    eexists _, _. split_and!; [done | | done | done]. unfold stream_code. cbn [map code_concat fold_right fst snd].
    by rewrite code_nil_r.
Qed.

Lemma encodeSeedsWithCheckpoints_spec cp bw0 :
  seedEncoder b = bw_reset bw0 -> len (seedBitPos cp) = numCheckpoints ->
  exists bw sp, encodeSeedsWithCheckpoints b cp bucketsPerBlock = Ok (mk_cp (efBitPos cp) sp, set_seedEncoder bw b) /\
    written (bw_reset bw0) (stream_code (streams buckets sol 0 bucketsPerBlock)) bw /\ len sp = numCheckpoints /\
    (forall j, 0 <= j < numCheckpoints -> idx sp j = Ok (seed_pos buckets sol ((j + 1) * checkpointInterval))).
Proof using Hready.
  intros Hbw Hsp. unfold encodeSeedsWithCheckpoints.
  enough (wp (foldM (seedStep b) (seedEncoder b, seedBitPos cp) (range bucketsPerBlock))
    (fun '(bw, sp) => written (bw_reset bw0) (stream_code (streams buckets sol 0 (len (range bucketsPerBlock)))) bw /\
       len sp = numCheckpoints /\
       (forall j, 0 <= j < numCheckpoints -> (j + 1) * checkpointInterval < len (range bucketsPerBlock) ->
          idx sp j = Ok (seed_pos buckets sol ((j + 1) * checkpointInterval)))) no_err) as Hwp.
  { apply wp_total in Hwp as ([bw sp] & -> & Hw & Hl & Hj). cbn [mbind res_bind]. eexists _, _. split; [done |].
    assert (len (range bucketsPerBlock) = bucketsPerBlock) as El by (unfold len; rewrite length_range; done). rewrite El in *.
    split_and!; [done | done |]. intros j Hjr. apply Hj; [done |]. change numCheckpoints with 7 in Hjr.
    unfold checkpointInterval, bucketsPerBlock. lia. }
  apply (wp_foldM_prefix (fun pre '(bw, sp) => written (bw_reset bw0) (stream_code (streams buckets sol 0 (len pre))) bw /\
       len sp = numCheckpoints /\
       (forall j, 0 <= j < numCheckpoints -> (j + 1) * checkpointInterval < len pre ->
          idx sp j = Ok (seed_pos buckets sol ((j + 1) * checkpointInterval))))).
  { rewrite Hbw. split; [apply written_nil, bw_reset_ok |]. split; [done |]. intros j Hj Hlt. exfalso.
    change (len (@nil Z)) with 0 in Hlt. unfold checkpointInterval in Hlt. lia. }
  intros pre i post [bw sp] Hl (Hw & Hls & Hj). apply range_prefix in Hl as [-> Hi]. set (i := len pre) in *.
  assert (bitsWritten bw = seed_pos buckets sol i) as Hpos.
  { destruct Hw as [_ E]. change (bw_val (bw_reset bw0), bitsWritten (bw_reset bw0)) with code_nil in E. rewrite code_nil_l in E.
    unfold seed_pos. by rewrite <- E. }
  destruct (seedStep_spec bw sp i Hi (written_ok _ _ _ Hw) Hls Hpos) as (bw' & sp' & -> & Hw' & Hl' & Hj'). cbn [wp].
  rewrite len_app, len_single. fold i. split; [| split; [done |]].
  - pose proof (streams_ok buckets _ _ sol 0 i (rb_solved _ _ Hready) ltac:(lia) ltac:(lia)) as Ho1.
    pose proof (streams_ok buckets _ _ sol i 1 (rb_solved _ _ Hready) ltac:(lia) ltac:(lia)) as Ho2.
    rewrite streams_app, Z.add_0_l, stream_code_app by (done || lia).
    eapply written_trans; [apply bw_reset_ok | by apply stream_code_ok | done | done].
  - intros j Hjr Hlt. rewrite Hj' by done. destruct (Z.eqb_spec i ((j + 1) * checkpointInterval)) as [-> |]; [done |].
    apply Hj; [done | lia].
Qed.

(** ** Elias-Fano and its checkpoints *)
Lemma high_bound : U / 2 ^ L <= 2047 /\ L <= 5.
Proof using Hready.
  pose proof ready_U as HU. unfold computeEFLowBits, bucketsPerBlock in *.
  destruct ((U <=? 1024) || (1024 =? 0)) eqn:E.
  { rewrite orb_false_r in E. apply Z.leb_le in E. change (2 ^ 0) with 1. rewrite Z.div_1_r. lia. }
  rewrite orb_false_r in E. apply Z.leb_gt in E. unfold bits_Len.
  assert (1 <= U / 1024 < 64) as Hq by (Z.div_mod_to_equations; lia). destruct (Z.eqb_spec (U / 1024) 0); [lia |].
  pose proof (Z.log2_spec (U / 1024) ltac:(lia)) as Hl. pose proof (Z.log2_nonneg (U / 1024)).
  assert (Z.log2 (U / 1024) < 6) by (apply Z.log2_lt_pow2; lia). rewrite Z.add_simpl_r. set (l := Z.log2 _) in *.
  split; [| lia]. rewrite Z.pow_succ_r in Hl by lia. pose proof (pow2_pos l ltac:(lia)).
  assert (U < 2048 * 2 ^ l) by (Z.div_mod_to_equations; lia). assert (U / 2 ^ l < 2048) by (apply Z.div_lt_upper_bound; lia). lia.
Qed.

Lemma high_start_eq i : 0 < i <= bucketsPerBlock -> high_start U counts i = i + elt counts (i - 1) / 2 ^ L.
Proof using Hready. intros Hi. unfold high_start. rewrite len_counts. destruct (Z.ltb_spec 0 i); [done | lia]. Qed.

Lemma elt_counts i : 0 <= i <= bucketsPerBlock -> elt counts (i - 1) = zsum (take (Z.to_nat i) (sizes_of buckets)) /\ 0 <= elt counts (i - 1) <= U.
Proof using Hready.
  intros Hi. destruct Hready as [Hb _ _ Hc _ _].
  rewrite elt_cums by (unfold len, sizes_of; rewrite length_map; fold (len buckets); lia). split; [done |].
  pose proof (sizes_nonneg buckets) as Hs. rewrite <- (take_drop (Z.to_nat i) (sizes_of buckets)) in Hs. apply Forall_app in Hs as [H1 H2].
  apply zsum_nonneg in H1, H2. rewrite Hc. rewrite <- (take_drop (Z.to_nat i) (sizes_of buckets)) at 3. rewrite zsum_app. lia.
Qed.

Lemma high_start_bound i : 0 <= i <= bucketsPerBlock -> 0 <= high_start U counts i <= i + 2047.
Proof using Hready.
  intros Hi. unfold high_start. rewrite len_counts. destruct (Z.ltb_spec 0 i); [| lia].
  destruct (elt_counts i Hi) as [_ He]. destruct high_bound as [Hh _].
  pose proof (low_bits_bound bucketsPerBlock U ltac:(unfold bucketsPerBlock; lia) ready_U) as HL. pose proof (pow2_pos L ltac:(lia)).
  assert (elt counts (i - 1) / 2 ^ L <= U / 2 ^ L) by (apply div_mono; lia).
  assert (0 <= elt counts (i - 1) / 2 ^ L) by (apply Z.div_pos; lia). lia.
Qed.

Lemma elt_idx (c : list Z) i : 0 <= i < len c -> idx c i = Ok (elt c i).
Proof.
  intros Hi. destruct (idx_in_range c i Hi) as (v & Hv & ->). unfold elt. destruct (Z.ltb_spec i 0); [lia |]. by rewrite Hv.
Qed.

Lemma encodeEFWithCheckpoints_spec cp :
  len (efBitPos cp) = numCheckpoints ->
  exists efData ef buf, encodeEFWithCheckpoints b cp bucketsPerBlock = Ok (efData, mk_cp ef (seedBitPos cp), set_efBuffer buf b) /\
    Forall is_byte efData /\ len efData = eliasFanoSize bucketsPerBlock U /\
    le_val efData = (ef_code L counts).1 /\ (ef_code L counts).2 <= 8 * len efData /\ len ef = numCheckpoints /\
    (forall j, 0 <= j < numCheckpoints -> idx ef j = Ok (high_start U counts ((j + 1) * checkpointInterval))).
Proof using Hready.
  intros Hcp. unfold encodeEFWithCheckpoints. pose proof ready_U as HU. rewrite u32_id by (unfold_words; lia).
  rewrite (rb_cumul _ _ Hready). pose proof len_counts as Hlc.
  destruct (encodeEliasFanoInto_spec counts U (efBuffer b)) as (efData & buf & -> & H1 & H2 & H3 & H4).
  { intros E. rewrite E in Hlc. done. }
  { done. }
  { apply counts_nondec. }
  rewrite Hlc in *. cbn [mbind res_bind]. change (keysInBlock (set_efBuffer buf b)) with U. fold L.
  pose proof (low_bits_bound bucketsPerBlock U ltac:(unfold bucketsPerBlock; lia) HU) as HL.
  enough (wp (foldB (efStep (set_efBuffer buf b) bucketsPerBlock L) (efBitPos cp) (range numCheckpoints))
    (fun r => exists ef, r = inl ef /\ len ef = numCheckpoints /\
      forall j, 0 <= j < numCheckpoints -> idx ef j = Ok (high_start U counts ((j + 1) * checkpointInterval))) no_err) as Hwp.
  { apply wp_total in Hwp as (r & -> & ef & -> & Hl & Hj). cbn [mbind res_bind]. by eexists _, _, _. }
  apply (wp_foldB_prefix (fun pre ef => len ef = numCheckpoints /\
    forall j, 0 <= j < len pre -> idx ef j = Ok (high_start U counts ((j + 1) * checkpointInterval)))).
  - split; [done |]. intros j Hj. change (len (@nil Z)) with 0 in Hj. lia.
  - intros pre i post ef Hl [Hle Hj]. apply range_prefix in Hl as [-> Hi]. set (i := len pre) in *. change numCheckpoints with 7 in *.
    unfold efStep. cbv zeta. change checkpointInterval with 128 in *. unfold bucketsPerBlock in *.
    destruct (Z.ltb_spec 1024 ((i + 1) * 128)); [lia |]. cbn [cumulative set_efBuffer]. rewrite (rb_cumul _ _ Hready).
    rewrite elt_idx by lia. cbn [mbind res_bind]. destruct (Z.ltb_spec (computeEFLowBits 1024 U) 16); [| lia]. rewrite shiftr_div by lia.
    pose proof (high_start_eq ((i + 1) * 128) ltac:(unfold bucketsPerBlock; lia)) as Hhs. unfold bucketsPerBlock in Hhs. rewrite <- Hhs.
    pose proof (high_start_bound ((i + 1) * 128) ltac:(unfold bucketsPerBlock; lia)) as Hhb.
    destruct (Z.ltb_spec 0xFFFF (high_start U counts ((i + 1) * 128))); [lia |].
    rewrite u16_id by (unfold_words; lia). rewrite upd_in_range by lia. cbn [mbind res_bind wp].
    split; [by rewrite len_insert |]. rewrite len_app, len_single. fold i. intros j Hjr.
    destruct (decide (j = i)) as [-> |]; [apply idx_insert_same; lia |]. rewrite idx_insert_other by lia. apply Hj. lia.
  - intros ef [Hle Hj]. exists ef. split_and!; [done | done |]. intros j Hjr. apply Hj.
    unfold len. rewrite length_range. change numCheckpoints with 7 in *. lia.
Qed.
End meta.
