(* ===== verification/BijLayout.v ===== *)
(** * The bytes of the metadata of a solved block

    [encodeSeparatedMetadataInto] lays out, one after the other, the
    checkpoints, the Elias-Fano counts, the seed stream and the fallback list. *)
From S2P Require Import Prelude Words Encoding BijMix BijBits BijStream BijEnc BijSolver BijBuilder BijDecode BijGolomb BijElias BijRange BijFallback BijSeeds BijSplit BijSolve BijMeta.
#[local] Open Scope Z_scope.

Definition u16_bytes (vs : list Z) : list Z := concat (map (le_bytes 2) vs).
Definition cp_bytes (cp : checkpoints) : list Z := u16_bytes (efBitPos cp) ++ u16_bytes (seedBitPos cp).

Lemma u16_bytes_ok vs : Forall is_byte (u16_bytes vs).
Proof. apply Forall_concat, Forall_map, Forall_forall. intros v _. apply le_bytes_bytes. Qed.

Lemma len_cp_bytes cp :
  len (efBitPos cp) = numCheckpoints -> len (seedBitPos cp) = numCheckpoints -> len (cp_bytes cp) = checkpointsSize.
Proof. intros H1 H2. unfold cp_bytes, u16_bytes. rewrite len_app, !len_concat_le2, H1, H2. reflexivity. Qed.

Lemma cp_bytes_ok cp : Forall is_byte (cp_bytes cp).
Proof. apply Forall_app. split; apply u16_bytes_ok. Qed.

Lemma put_u16s_spec buf off vs :
  len vs = numCheckpoints -> 0 <= off -> off + 14 <= len buf -> put_u16s buf off vs = store buf off (u16_bytes vs).
Proof.
  intros Hv Ho Hl. unfold put_u16s. rewrite <- Hv. apply put_u16_loop; [done |].
  change numCheckpoints with 7 in Hv. lia.
Qed.

Lemma checkpoints_encode_spec cp buf :
  len (efBitPos cp) = numCheckpoints -> len (seedBitPos cp) = numCheckpoints -> checkpointsSize <= len buf ->
  checkpoints_encode cp buf = store buf 0 (cp_bytes cp).
Proof.
  intros H1 H2 Hl. change checkpointsSize with 28 in Hl.
  assert (forall vs, len vs = numCheckpoints -> len (u16_bytes vs) = 14) as Hlen.
  { intros vs Hv. unfold u16_bytes. by rewrite len_concat_le2, Hv. }
  unfold checkpoints_encode, cp_bytes. rewrite <- (store_store_adjacent buf _ _ 0) by (rewrite ?Hlen; lia || done).
  rewrite Hlen, put_u16s_spec by (done || lia). change (numCheckpoints * 2) with (0 + 14).
  destruct (store buf 0 (u16_bytes (efBitPos cp))) as [buf1 | |] eqn:Hs; cbn [mbind res_bind]; [| done | done].
  apply store_length in Hs. apply put_u16s_spec; [done | lia | unfold len in *; lia].
Qed.

Lemma copy_at_spec dst off src :
  0 <= off -> off + len src <= len dst -> copy_at dst off src = store dst off src.
Proof.
  intros Ho Hl. unfold copy_at. pose proof (len_nonneg src). rewrite slice_in_range by lia. cbn [mbind res_bind].
  f_equal. apply take_ge. unfold len in *. rewrite length_take, length_drop. lia.
Qed.

(** ** A layout and what it holds *)
Record layout := mk_layout { lo_cp : checkpoints; lo_ef : list Z; lo_seeds : list Z; lo_fb : list fallbackEntry }.

Definition layout_bytes (l : layout) : list Z := cp_bytes (lo_cp l) ++ lo_ef l ++ lo_seeds l ++ fb_bytes (lo_fb l).

Record layout_ok (buckets : list (list bucketEntry)) (sol : Z -> bsol) (U : Z) (l : layout) : Prop := {
  ly_efPos : forall j, 0 <= j < numCheckpoints ->
    idx (efBitPos (lo_cp l)) j = Ok (high_start U (cums 0 (sizes_of buckets)) ((j + 1) * checkpointInterval));
  ly_seedPos : forall j, 0 <= j < numCheckpoints ->
    idx (seedBitPos (lo_cp l)) j = Ok (seed_pos buckets sol ((j + 1) * checkpointInterval));
  ly_cp1 : len (efBitPos (lo_cp l)) = numCheckpoints;
  ly_cp2 : len (seedBitPos (lo_cp l)) = numCheckpoints;
  ly_ef_len : len (lo_ef l) = eliasFanoSize bucketsPerBlock U;
  ly_counts : forall tail, Forall is_byte tail -> holds_counts (lo_ef l ++ tail) U (cums 0 (sizes_of buckets));
  ly_seed_bytes : Forall is_byte (lo_seeds l);
  ly_stream : forall tail, has_code (le_val (lo_seeds l ++ tail)) 0 (stream_code (streams buckets sol 0 bucketsPerBlock));
  ly_seed_len : len (lo_seeds l) <= 6144;
  ly_fb : lo_fb l = fb_upto buckets sol bucketsPerBlock;
  ly_fb_ok : Forall fb_ok (lo_fb l);
  ly_fb_len : len (lo_fb l) <= maxFallbackEntries
}.

(** ** The entries of the fallback list fit their bits *)
Lemma fb_of_ok i bucket b : is_u blockBits i -> bsol_ok bucket b -> Forall fb_ok (fb_of i bucket b).
Proof.
  intros Hi [_ _ Hd Hs]. unfold fb_of. destruct (Z.leb_spec (len bucket) 1); [constructor |].
  assert (is_u 21 (r0 b)) as H0.
  { destruct (Z.le_gt_cases splitThreshold (len bucket)) as [Hc | Hc]; [apply Hs in Hc as [[? _] _]; done |].
    apply Hd. lia. }
  apply Forall_app. split.
  - destruct (e0 b =? fallbackMarker); [| constructor]. constructor; [| constructor].
    split_and!; cbn; [done | unfold_words; lia | done].
  - destruct (Z.leb_spec splitThreshold (len bucket)) as [Hc | Hc]; cbn [andb]; [| constructor].
    destruct (e1 b =? fallbackMarker); [| constructor]. constructor; [| constructor].
    split_and!; cbn; [done | unfold_words; lia | by apply Hs].
Qed.

Lemma fb_upto_ok buckets s sol k :
  0 <= k <= bucketsPerBlock -> solved_upto buckets k s sol -> Forall fb_ok (fb_upto buckets sol k).
Proof.
  intros Hk Hs. unfold fb_upto. apply Forall_concat, Forall_map, Forall_forall. intros i Hi%elem_of_range.
  apply fb_of_ok; [unfold bucketsPerBlock, blockBits, is_u in *; lia | by apply (su_ok _ _ _ _ Hs)].
Qed.

(** ** Encoding *)

(** What encoding changes in the builder: the scratch buffers. *)
Record same_block (b b' : Builder) : Prop := {
  sb_numBlocks : b_numBlocks b' = b_numBlocks b;
  sb_seed : b_globalSeed b' = b_globalSeed b;
  sb_ps : payloadSize b' = payloadSize b;
  sb_fps : fingerprintSize b' = fingerprintSize b;
  sb_buckets : b_buckets b' = b_buckets b;
  sb_max : maxKeysPerBlock b' = maxKeysPerBlock b;
  sb_sizes : bucketSizes b' = bucketSizes b;
  sb_cumul : cumulative b' = cumulative b;
  sb_sol : b_solution b' = b_solution b;
  sb_keys : keysInBlock b' = keysInBlock b
}.

Lemma ready_same b b' sol : same_block b b' -> ready b sol -> ready b' sol.
Proof. intros [] []. split; congruence. Qed.

Lemma eliasFano_bytes b sol : ready b sol -> eliasFanoSize bucketsPerBlock (keysInBlock b) <= 1024.
Proof.
  intros Hr. pose proof (ready_U b sol Hr) as HU. destruct (high_bound b sol Hr) as [Hh HL].
  pose proof (low_bits_bound bucketsPerBlock (keysInBlock b) ltac:(unfold bucketsPerBlock; lia) HU) as HL0.
  unfold eliasFanoSize. change (bucketsPerBlock =? 0) with false. cbv iota zeta.
  set (L := computeEFLowBits bucketsPerBlock (keysInBlock b)) in *.
  destruct (Z.ltb_spec L 16); [| lia]. rewrite shiftr_div by lia. set (h := keysInBlock b / 2 ^ L) in *.
  unfold bucketsPerBlock. clearbody h L. Z.div_mod_to_equations. lia.
Qed.

Lemma store_layout dst l :
  len (layout_bytes l) <= len dst ->
  len (efBitPos (lo_cp l)) = numCheckpoints -> len (seedBitPos (lo_cp l)) = numCheckpoints ->
  exists dst',
    (dst ← checkpoints_encode (lo_cp l) dst;
     dst ← copy_at dst checkpointsSize (lo_ef l);
     dst ← copy_at dst (checkpointsSize + len (lo_ef l)) (lo_seeds l);
     copy_at dst (checkpointsSize + len (lo_ef l) + len (lo_seeds l)) (fb_bytes (lo_fb l))) = Ok dst' /\
    len dst' = len dst /\ dst' = layout_bytes l ++ drop (length (layout_bytes l)) dst.
Proof.
  intros Hl H1 H2. pose proof (len_cp_bytes _ H1 H2) as Hc. unfold layout_bytes in *. rewrite !len_app in Hl.
  set (A := cp_bytes (lo_cp l)) in *. set (B := lo_ef l) in *. set (C := lo_seeds l) in *. set (D := fb_bytes (lo_fb l)) in *.
  pose proof (len_nonneg A). pose proof (len_nonneg B). pose proof (len_nonneg C). pose proof (len_nonneg D).
  rewrite checkpoints_encode_spec by (done || lia). fold A. rewrite <- Hc.
  assert (forall x dst1, store dst 0 x = Ok dst1 -> len dst1 = len dst) as Hsl by (intros x d1 E; apply store_length in E; unfold len; lia).
  rewrite store_range by lia. cbn [mbind res_bind]. set (d1 := take _ dst ++ A ++ _).
  assert (store dst 0 A = Ok d1) as E1 by (apply store_range; lia). pose proof (Hsl _ _ E1) as L1.
  rewrite copy_at_spec by lia.
  assert (store d1 (len A) B = store dst 0 (A ++ B)) as ->.
  { pose proof (store_store_adjacent dst A B 0 ltac:(lia) ltac:(lia)) as E. by rewrite E1 in E. }
  destruct (store dst 0 (A ++ B)) as [d2 | e |] eqn:E2;
    [| rewrite store_range in E2 by (rewrite ?len_app; lia); done ..].
  cbn [mbind res_bind]. pose proof (Hsl _ _ E2) as L2. rewrite copy_at_spec by lia.
  assert (store d2 (len A + len B) C = store dst 0 ((A ++ B) ++ C)) as ->.
  { pose proof (store_store_adjacent dst (A ++ B) C 0 ltac:(lia) ltac:(rewrite len_app; lia)) as E.
    by rewrite E2, len_app in E. }
  destruct (store dst 0 ((A ++ B) ++ C)) as [d3 | e |] eqn:E3;
    [| rewrite store_range in E3 by (rewrite ?len_app; lia); done ..].
  cbn [mbind res_bind]. pose proof (Hsl _ _ E3) as L3. rewrite copy_at_spec by lia.
  assert (store d3 (len A + len B + len C) D = store dst 0 (((A ++ B) ++ C) ++ D)) as ->.
  { pose proof (store_store_adjacent dst ((A ++ B) ++ C) D 0 ltac:(lia) ltac:(rewrite !len_app; lia)) as E.
    by rewrite E3, !len_app in E. }
  rewrite <- !app_assoc. rewrite store_range by (rewrite ?len_app; lia). eexists. split; [done |].
  change (Z.to_nat 0) with 0%nat. rewrite take_0, app_nil_l, Nat.add_0_l. split; [| by rewrite <- !app_assoc].
  rewrite <- !app_assoc. unfold len in *. rewrite !length_app, length_drop, ?length_app. lia.
Qed.

(** The metadata of any block fits the estimate. *)
Lemma layout_bound b sol l :
  ready b sol -> layout_ok (b_buckets b) sol (keysInBlock b) l -> len (layout_bytes l) <= 8220.
Proof.
  intros Hr [_ _ H1 H2 He _ _ _ Hs _ _ Hf]. pose proof (eliasFano_bytes b sol Hr) as Hef.
  pose proof (len_fb_bytes (lo_fb l)) as Hfb. unfold maxFallbackEntries in Hf.
  unfold layout_bytes. rewrite !len_app, (len_cp_bytes (lo_cp l)), Hfb by done. change checkpointsSize with 28. lia.
Qed.

Lemma layout_bytes_ok buckets sol U l : layout_ok buckets sol U l -> Forall is_byte (layout_bytes l).
Proof.
  intros H. pose proof (hc_bytes _ _ _ (ly_counts _ _ _ _ H [] ltac:(constructor))) as He. rewrite app_nil_r in He.
  unfold layout_bytes, cp_bytes. repeat (apply Forall_app; split); try (apply u16_bytes_ok); try done.
  - apply H.
  - apply fb_bytes_ok, H.
Qed.

Lemma layout_len_pos buckets sol U l : 0 <= U -> layout_ok buckets sol U l -> 128 <= len (layout_bytes l).
Proof.
  intros HU H. unfold layout_bytes. rewrite !len_app, len_fb_bytes, (ly_ef_len _ _ _ _ H).
  assert (128 <= eliasFanoSize bucketsPerBlock U) as He.
  { unfold eliasFanoSize. change (bucketsPerBlock =? 0) with false. cbv iota zeta.
    pose proof (lowBits_nonneg bucketsPerBlock U ltac:(unfold bucketsPerBlock; lia)) as HL.
    assert (0 <= if computeEFLowBits bucketsPerBlock U <? 16 then Z.shiftr U (computeEFLowBits bucketsPerBlock U) else 0) as Hh.
    { destruct (_ <? 16); [by apply Z.shiftr_nonneg | done]. }
    unfold bucketsPerBlock in *. Z.div_mod_to_equations. nia. }
  pose proof (len_nonneg (cp_bytes (lo_cp l))). pose proof (len_nonneg (lo_ef l)).
  pose proof (len_nonneg (lo_seeds l)). pose proof (len_nonneg (lo_fb l)). lia.
Qed.

Lemma encodeSeparatedMetadataInto_spec b sol dst :
  ready b sol -> 8220 <= len dst ->
  exists b' dst' r, encodeSeparatedMetadataInto b dst = Ok (b', dst', r) /\ same_block b b' /\ len dst' = len dst /\
    match r with
    | inl n => exists l, layout_ok (b_buckets b) sol (keysInBlock b) l /\ n = len (layout_bytes l) /\
        dst' = layout_bytes l ++ drop (length (layout_bytes l)) dst
    | inr e => e = ErrBlockOverflow /\ dst' = dst /\ maxFallbackEntries < len (fb_upto (b_buckets b) sol bucketsPerBlock)
    end.
Proof.
  intros Hr Hd. unfold encodeSeparatedMetadataInto.
  destruct (encodeEFWithCheckpoints_spec b sol Hr zero_checkpoints eq_refl)
    as (efData & ef & buf & -> & Hb1 & Hl1 & Hv1 & Hc1 & Hle & Hej).
  set (b1 := set_efBuffer buf b) in *. set (b2 := set_seedEncoder (resetEncoder (seedEncoder b1)) b1).
  assert (ready b2 sol) as Hr2 by (apply (ready_same b); [by split | done]).
  destruct (encodeSeedsWithCheckpoints_spec b2 sol Hr2 (mk_cp ef (seedBitPos zero_checkpoints)) (seedEncoder b1) eq_refl eq_refl)
    as (bw & sp & -> & Hw & Hls & Hsj).
  cbn [efBitPos]. cbv zeta.
  destruct (encoder_bytes (seedEncoder (set_seedEncoder bw b2))) as [sd bw'] eqn:Eb.
  pose proof (flush_has_code bw _ [] Hw) as _.
  assert (sd = (flush bw).1) as -> by (unfold encoder_bytes in Eb; cbn [seedEncoder set_seedEncoder] in Eb; by rewrite Eb).
  cbn [fallbackList b_solution set_seedEncoder fallbackBuffer].
  change (b_solution b2) with (b_solution b). rewrite (su_fb _ _ _ _ (rb_solved _ _ Hr)).
  destruct (Z.ltb_spec maxFallbackEntries (len (fb_upto (b_buckets b) sol bucketsPerBlock))) as [Hbig | Hfit].
  { eexists _, _, _. split; [done |]. split; [by split |]. done. }
  pose proof (fb_upto_ok _ _ _ bucketsPerBlock ltac:(unfold bucketsPerBlock; lia) (rb_solved _ _ Hr)) as Hfo.
  destruct (encodeFallbackListIntoWithB_spec _ (fallbackBuffer b2) Hfo Hfit) as (buf' & ->). cbn [mbind res_bind].
  destruct (flush_spec bw (written_ok _ _ _ Hw)) as (Hsb & _ & Hsl).
  set (l := mk_layout (mk_cp ef sp) efData (flush bw).1 (fb_upto (b_buckets b) sol bucketsPerBlock)).
  assert (len (flush bw).1 <= 6144) as Hs6.
  { rewrite Hsl. destruct Hw as [_ E]. change (bw_val (bw_reset (seedEncoder b1)), bitsWritten (bw_reset (seedEncoder b1))) with code_nil in E.
    rewrite code_nil_l in E. pose proof (seed_pos_bound _ _ _ _ bucketsPerBlock (rb_solved _ _ Hr) ltac:(unfold bucketsPerBlock; lia)) as Hp.
    unfold seed_pos in Hp. assert (bitsWritten bw = (stream_code (streams (b_buckets b) sol 0 bucketsPerBlock)).2) as ->.
    { change (b_buckets b) with (b_buckets b2). by rewrite <- E. }
    unfold bucketsPerBlock in Hp |- *. Z.div_mod_to_equations. lia. }
  pose proof (ready_U b sol Hr) as HU.
  assert (layout_ok (b_buckets b) sol (keysInBlock b) l) as Hlo.
  { split; cbn [lo_cp lo_ef lo_seeds lo_fb efBitPos seedBitPos l]; try done.
    - intros tail Ht. pose proof (len_counts b sol Hr) as Hlc.
      apply encoded_counts; rewrite ?Hlc; try done; [by intros E; rewrite E in Hlc | by apply (counts_nondec b sol)].
    - intros tail. by apply (flush_has_code bw _ tail Hw). }
  assert (len (layout_bytes l) <= len dst) as Hfits by (pose proof (layout_bound b sol l Hr Hlo); lia).
  destruct (store_layout dst l Hfits Hle Hls) as (dst' & Hst & Hld & Hdst).
  assert (checkpointsSize + len efData + len (flush bw).1 + len (fb_bytes (lo_fb l)) = len (layout_bytes l)) as Htot.
  { unfold layout_bytes. rewrite !len_app, (len_cp_bytes (lo_cp l)) by done. cbn [lo_ef lo_seeds l]. lia. }
  cbn [lo_fb l] in Htot. rewrite Htot. destruct (Z.ltb_spec (len dst) (len (layout_bytes l))); [lia |].
  cbn [lo_cp lo_ef lo_seeds lo_fb l] in Hst. revert Hst.
  destruct (checkpoints_encode (mk_cp ef sp) dst) as [d1 | |]; cbn [mbind res_bind]; [| done | done].
  destruct (copy_at d1 checkpointsSize efData) as [d2 | |]; cbn [mbind res_bind]; [| done | done].
  destruct (copy_at d2 _ (flush bw).1) as [d3 | |]; cbn [mbind res_bind]; [| done | done].
  intros ->. cbn [mbind res_bind]. eexists _, _, _. split; [done |]. split; [by split |]. split; [done |].
  exists l. done.
Qed.
