(* ===== verification/BijQuery.v ===== *)
(** * Querying the metadata of a solved block *)
From S2P Require Import Prelude Words Bits Encoding BijMix BijBits BijStream BijEnc BijSolver BijBuilder BijDecode BijGolomb BijElias BijRange BijFallback BijSeeds BijSplit BijSolve BijMeta BijLayout.
#[local] Open Scope Z_scope.

(** ** Checkpoints *)
Lemma get_u16s_spec (pre post : list Z) vs off :
  len vs = numCheckpoints -> Forall (is_u 16) vs -> off = len pre ->
  get_u16s (pre ++ u16_bytes vs ++ post) off = Ok vs.
Proof.
  intros Hl Hv ->. unfold get_u16s. change numCheckpoints with 7 in *.
  enough (wp (foldM (fun ws i => v ← get_le 2 (pre ++ u16_bytes vs ++ post) (len pre + i * 2); upd ws i v) (make 0 7) (range 7))
    (fun ws => len ws = 7 /\ forall i : nat, (i < length (range 7))%nat -> ws !! i = vs !! i) no_err) as Hwp.
  { apply wp_total in Hwp as (ws & -> & H7 & Hi). f_equal. change (length (range 7)) with 7%nat in Hi.
    apply list_eq. intros i. destruct (decide (i < 7)%nat); [by apply Hi |].
    rewrite !lookup_ge_None_2 by (unfold len in *; lia). done. }
  apply (wp_foldM_prefix (fun pr ws => len ws = 7 /\ forall i : nat, (i < length pr)%nat -> ws !! i = vs !! i)).
  { split; [done |]. intros i Hi. cbn in Hi. lia. }
  intros pr i pst ws Hr [H7 Hw]. apply range_prefix in Hr as [-> Hi].
  destruct (lookup_lt_is_Some_2 vs (length pr)) as [v Hlv]; [unfold len in *; lia |].
  change (len pr) with (Z.of_nat (length pr)) in *. unfold u16_bytes. rewrite (get_u16_at pre post vs (length pr) v Hlv) by (by apply (Forall_lookup_1 _ _ _ _ Hv Hlv)).
  cbn [mbind res_bind]. rewrite upd_in_range by lia. cbn [wp]. split; [by rewrite len_insert |].
  intros j Hj. rewrite length_app in Hj. cbn [length] in Hj. rewrite Nat2Z.id.
  destruct (decide (j = length pr)) as [-> |].
  - rewrite list_lookup_insert_eq by (unfold len in *; lia). done.
  - rewrite list_lookup_insert_ne by done. apply Hw. lia.
Qed.

Lemma decodeCheckpoints_spec cp :
  len (efBitPos cp) = numCheckpoints -> len (seedBitPos cp) = numCheckpoints ->
  Forall (is_u 16) (efBitPos cp) -> Forall (is_u 16) (seedBitPos cp) ->
  decodeCheckpoints (cp_bytes cp) = Ok cp.
Proof.
  intros H1 H2 H3 H4. unfold decodeCheckpoints, cp_bytes.
  pose proof (get_u16s_spec [] (u16_bytes (seedBitPos cp)) (efBitPos cp) 0 H1 H3 eq_refl) as E1.
  pose proof (get_u16s_spec (u16_bytes (efBitPos cp)) [] (seedBitPos cp) (numCheckpoints * 2) H2 H4) as E2.
  rewrite app_nil_l in E1. rewrite app_nil_r in E2. rewrite E1. cbn [mbind res_bind]. rewrite E2.
  - cbn [mbind res_bind]. by destruct cp.
  - unfold u16_bytes. rewrite len_concat_le2, H1. reflexivity.
Qed.

Lemma Forall_idx {A} (P : A -> Prop) (l : list A) (f : Z -> A) :
  (forall j, 0 <= j < len l -> idx l j = Ok (f j)) -> (forall j, 0 <= j < len l -> P (f j)) -> Forall P l.
Proof.
  intros Hi HP. apply Forall_lookup_2. intros i x Hx. pose proof (lookup_lt_Some _ _ _ Hx) as Hlt.
  assert (0 <= Z.of_nat i < len l) as Hr by (unfold len; lia). specialize (Hi _ Hr). rewrite (idx_nat l i x Hx) in Hi.
  injection Hi as ->. by apply HP.
Qed.

(** ** The fallback list resolves the markers *)
Lemma fb_resolve_app a b i s0 s1 :
  fb_resolve (a ++ b) i s0 s1 = fb_resolve b i (fb_resolve a i s0 s1).1 (fb_resolve a i s0 s1).2.
Proof. unfold fb_resolve. rewrite fold_left_app, <- surjective_pairing. done. Qed.

Lemma fb_resolve_other i j bucket b s0 s1 :
  is_u 16 i -> i <> j -> fb_resolve (fb_of j bucket b) i s0 s1 = (s0, s1).
Proof.
  intros Hi Hne. assert ((j =? i) = false) as E by (apply Z.eqb_neq; lia).
  unfold fb_resolve, fb_of. destruct (len bucket <=? 1); [done |].
  destruct (e0 b =? fallbackMarker), ((splitThreshold <=? len bucket) && (e1 b =? fallbackMarker));
    do 2 (cbn [app fold_left bucketIndex]; rewrite ?u16_id, ?E by done); done.
Qed.

Lemma fb_resolve_upto buckets sol i s0 s1 (k : nat) :
  is_u 16 i -> fb_resolve (fb_upto buckets sol (Z.of_nat k)) i s0 s1 =
    if i <? Z.of_nat k then fb_resolve (fb_of i (bucket_at buckets i) (sol i)) i s0 s1 else (s0, s1).
Proof.
  intros Hi. induction k as [| k IH]; [change (fb_upto buckets sol (Z.of_nat 0)) with (@nil fallbackEntry); destruct (Z.ltb_spec i (Z.of_nat 0)); [unfold_words; lia | done] |].
  rewrite Nat2Z.inj_succ, <- Z.add_1_r, fb_upto_succ, fb_resolve_app, IH by lia.
  destruct (Z.ltb_spec i (Z.of_nat k)), (Z.ltb_spec i (Z.of_nat k + 1)); try lia.
  - rewrite fb_resolve_other by (done || lia). by rewrite <- surjective_pairing.
  - by replace (Z.of_nat k) with i by lia.
  - cbn [fst snd]. by rewrite fb_resolve_other by (done || lia).
Qed.

Lemma is_u21_not_marker r : is_u 21 r -> (r =? fallbackMarker) = false.
Proof. intros H. apply Z.eqb_neq. unfold is_u, fallbackMarker in *. change (2 ^ 21) with 2097152 in H. lia. Qed.

(** A marker becomes its seed, and anything else stays. *)
Definition unmark (e r : Z) : Z := if e =? fallbackMarker then r else e.

Lemma unmark_enc size r e : enc_ok size r e -> unmark e r = r.
Proof.
  intros (_ & _ & [-> | ->]); unfold unmark; [by rewrite Z.eqb_refl | by case_match].
Qed.

Lemma fb_resolve_direct i bucket b s1 :
  is_u 16 i -> 2 <= len bucket < splitThreshold ->
  (fb_resolve (fb_of i bucket b) i (e0 b) s1).1 = unmark (e0 b) (r0 b).
Proof.
  intros Hi Hn. unfold fb_resolve, fb_of, unmark. destruct (Z.leb_spec (len bucket) 1); [lia |].
  destruct (Z.leb_spec splitThreshold (len bucket)); [lia |]. cbn [andb]. rewrite app_nil_r.
  destruct (Z.eqb_spec (e0 b) fallbackMarker) as [E |]; [| done]. cbn [fold_left bucketIndex subBucket fb_seed].
  by rewrite u16_id, Z.eqb_refl, E, Z.eqb_refl by done.
Qed.

Lemma fb_resolve_split i bucket b :
  is_u 16 i -> splitThreshold <= len bucket -> is_u 21 (r0 b) ->
  fb_resolve (fb_of i bucket b) i (e0 b) (e1 b) = (unmark (e0 b) (r0 b), unmark (e1 b) (r1 b)).
Proof.
  intros Hi Hn H0. unfold fb_resolve, fb_of, unmark, splitThreshold in *. destruct (Z.leb_spec (len bucket) 1); [lia |].
  destruct (Z.leb_spec 8 (len bucket)); [| lia]. cbn [andb].
  destruct (Z.eqb_spec (e0 b) fallbackMarker) as [E0 | E0], (Z.eqb_spec (e1 b) fallbackMarker) as [E1 | E1];
    do 2 (cbn [app fold_left bucketIndex subBucket fb_seed]; rewrite ?u16_id, ?Z.eqb_refl by done;
      cbn [andb]; rewrite ?E0, ?E1, ?Z.eqb_refl; cbn [andb]); done.
Qed.

(** ** A query against a laid-out block *)
Section query.
Context (b : Builder) (sol : Z -> bsol) (Hready : ready b sol).
Context (l : layout) (Hlo : layout_ok (b_buckets b) sol (keysInBlock b) l).
#[local] Abbreviation buckets := (b_buckets b).
#[local] Abbreviation counts := (cums 0 (sizes_of (b_buckets b))).
#[local] Abbreviation U := (keysInBlock b).
#[local] Abbreviation L := (computeEFLowBits bucketsPerBlock (keysInBlock b)).
#[local] Abbreviation efData := (lo_ef l ++ lo_seeds l ++ fb_bytes (lo_fb l)).
#[local] Abbreviation seedData := (lo_seeds l ++ fb_bytes (lo_fb l)).

Lemma L_bound : 0 <= L < 16.
Proof using Hready. apply low_bits_bound; [unfold bucketsPerBlock; lia | by eapply ready_U]. Qed.

Lemma fb_tail_bytes : Forall is_byte (fb_bytes (lo_fb l)).
Proof using Hlo. apply fb_bytes_ok, (ly_fb_len _ _ _ _ Hlo). Qed.

Lemma seedData_bytes : Forall is_byte seedData.
Proof using Hlo. apply Forall_app. split; [apply (ly_seed_bytes _ _ _ _ Hlo) | apply fb_tail_bytes]. Qed.

Lemma layout_counts : holds_counts efData U counts.
Proof using Hlo. apply (ly_counts _ _ _ _ Hlo), seedData_bytes. Qed.

(** The checkpoints. *)
Lemma layout_cp : decodeCheckpoints (cp_bytes (lo_cp l)) = Ok (lo_cp l).
Proof using Hready Hlo.
  destruct Hlo as [He Hs H1 H2 _ _ _ _ _ _ _ _]. rewrite <- H1 in He. rewrite <- H2 in Hs.
  apply decodeCheckpoints_spec; [done | done | |].
  - apply (Forall_idx _ _ _ He). intros j Hj. rewrite H1 in Hj. change numCheckpoints with 7 in Hj.
    pose proof (high_start_bound b sol Hready ((j + 1) * checkpointInterval)) as Hb. unfold checkpointInterval, bucketsPerBlock in *.
    unfold is_u. lia.
  - apply (Forall_idx _ _ _ Hs). intros j Hj. rewrite H2 in Hj. change numCheckpoints with 7 in Hj.
    pose proof (seed_pos_bound buckets _ _ sol ((j + 1) * checkpointInterval) (rb_solved _ _ Hready)) as Hb.
    unfold checkpointInterval, bucketsPerBlock in *. unfold is_u. lia.
Qed.

(** The counts. *)
Lemma bucket_size i :
  0 <= i < bucketsPerBlock -> elt counts i - elt counts (i - 1) = len (bucket_at buckets i).
Proof using Hready.
  intros Hi. destruct (elt_counts b sol Hready i) as [-> _]; [lia |].
  destruct (elt_counts b sol Hready (i + 1)) as [E _]; [lia |]. replace (i + 1 - 1) with i in E by lia. rewrite E.
  pose proof (sizes_idx buckets i) as Hs. rewrite (rb_buckets _ _ Hready) in Hs. specialize (Hs Hi).
  apply idx_ok in Hs as [_ Hs]. replace (Z.to_nat (i + 1)) with (S (Z.to_nat i)) by lia.
  rewrite (take_S_r _ _ _ Hs), zsum_app. cbn [zsum]. lia.
Qed.

Lemma bucket_size_u16 i :
  0 <= i < bucketsPerBlock -> u16 (elt counts i - elt counts (i - 1)) = len (bucket_at buckets i).
Proof using Hready.
  intros Hi. rewrite bucket_size by done. apply u16_id. pose proof (bucket_size i Hi) as Hs.
  destruct (elt_counts b sol Hready i) as [_ H1]; [lia |]. destruct (elt_counts b sol Hready (i + 1)) as [_ H2]; [lia |].
  replace (i + 1 - 1) with i in H2 by lia. pose proof (ready_U b sol Hready). pose proof (len_nonneg (bucket_at buckets i)).
  unfold is_u. lia.
Qed.

Lemma counts_lookup i : 0 <= i < bucketsPerBlock -> counts !! Z.to_nat i = Some (elt counts i).
Proof using Hready.
  intros Hi. rewrite <- (len_counts b sol Hready) in Hi. pose proof (elt_idx counts i Hi) as E. by apply idx_ok in E as [_ E].
Qed.

Lemma ef_long : 8 <= len efData.
Proof using Hready Hlo.
  pose proof (counts_len efData U counts layout_counts) as [_ H]. rewrite (len_counts b sol Hready) in H.
  pose proof L_bound. unfold bucketsPerBlock in *. lia.
Qed.

(** The window of decoded counts. *)
Definition holds_window (cum : list Z) (first last : Z) : Prop :=
  forall i, first <= i <= last -> idx cum i = Ok (elt counts i).

Lemma decoded_window first last :
  0 <= first <= last -> last < bucketsPerBlock ->
  exists out cum,
    slice (make 0 bucketsPerBlock) first bucketsPerBlock = Ok (make 0 (bucketsPerBlock - first)) /\
    decodeEFRangeInline efData bucketsPerBlock U first last (high_start U counts first) (make 0 (bucketsPerBlock - first))
      = Ok (out, last - first + 1) /\
    store (make 0 bucketsPerBlock) first out = Ok cum /\ holds_window cum first last.
Proof using Hready Hlo.
  intros Hf Hla. pose proof (len_counts b sol Hready) as Hlc. set (N := bucketsPerBlock) in *.
  assert (0 < N) by (unfold N, bucketsPerBlock; lia).
  pose proof (decodeEFRangeInline_spec efData U counts layout_counts first last (make 0 (N - first)) Hf ltac:(lia) ef_long
    ltac:(rewrite len_make; lia)) as Hdec. rewrite Hlc in Hdec.
  set (out := take _ _ ++ drop _ _) in Hdec. set (n := last - first + 1) in *.
  assert (length (take (Z.to_nat n) (drop (Z.to_nat first) counts)) = Z.to_nat n) as Htl.
  { rewrite length_take, length_drop. unfold len in Hlc. lia. }
  assert (len out = N - first) as Hlo'.
  { unfold out, len. rewrite length_app, Htl, length_drop. unfold make. rewrite length_replicate. lia. }
  exists out, (take (Z.to_nat first) (make 0 N) ++ out). split_and!; [| exact Hdec | |].
  - rewrite slice_in_range by (rewrite ?len_make; lia). f_equal. unfold make. rewrite drop_replicate, take_replicate. f_equal. lia.
  - rewrite store_range by (rewrite ?Hlo', ?len_make; lia). do 2 f_equal.
    rewrite drop_ge; [apply app_nil_r |]. unfold make, len in *. rewrite length_replicate. lia.
  - intros i Hi. apply idx_ok. split; [lia |]. rewrite lookup_app_r by (unfold make; rewrite length_take, length_replicate; lia).
    unfold make. rewrite length_take, length_replicate. unfold out. rewrite lookup_app_l by lia.
    rewrite lookup_take_lt by lia. rewrite lookup_drop.
    replace (Z.to_nat first + (Z.to_nat i - Z.to_nat first `min` Z.to_nat N))%nat with (Z.to_nat i) by lia.
    apply counts_lookup. unfold N in *. lia.
Qed.

(** The count at the start of a segment, from its checkpoint and the low bits. *)
Lemma segment_start first :
  0 < first < bucketsPerBlock ->
  exists low, readEFLowBits efData (first - 1) L = Ok low /\
    Z.lor (u16 (Z.shiftl (Z.max (high_start U counts first - first) 0) L)) low = elt counts (first - 1).
Proof using Hready Hlo.
  intros Hf. pose proof layout_counts as Hc. pose proof (len_counts b sol Hready) as Hlc. pose proof L_bound as HL.
  pose proof (counts_lookup (first - 1) ltac:(lia)) as Hl. pose proof (counts_low efData U counts Hc _ _ Hl) as Hlow.
  rewrite Hlc, Z2Nat.id in Hlow by lia. pose proof (counts_len efData U counts Hc) as [_ Hle]. rewrite Hlc in Hle.
  eexists. split; [apply readEFLowBits_spec; [apply Hc | lia | done | nia] |]. rewrite Hlow.
  rewrite (high_start_eq b sol Hready) by lia.
  pose proof (counts_u16 efData U counts Hc (first - 1)) as Hu.
  assert (0 <= elt counts (first - 1) / 2 ^ L) by (apply Z.div_pos; [unfold_words; lia | apply pow2_pos; lia]).
  replace (Z.max (first + elt counts (first - 1) / 2 ^ L - first) 0) with (elt counts (first - 1) / 2 ^ L) by lia.
  pose proof (join_high_low efData U counts Hc) as E. rewrite Hlc in E. by apply E.
Qed.

Lemma start_of_spec cum first last atStart i :
  holds_window cum first last -> 0 <= first -> first <= i <= last + 1 ->
  (0 < first -> atStart = elt counts (first - 1)) ->
  start_of cum atStart first i = Ok (elt counts (i - 1)).
Proof.
  intros Hw Hf Hi Ha. unfold start_of. destruct (Z.ltb_spec 0 i).
  - destruct (Z.ltb_spec first i); [apply Hw; lia |]. assert (i = first) as -> by lia. by rewrite Ha.
  - assert (i = 0) as -> by lia. done.
Qed.

(** The seed stream. *)
Lemma codes_at i :
  0 <= i < bucketsPerBlock ->
  has_code (le_val seedData) (seed_pos buckets sol i) (stream_code (bstream (len (bucket_at buckets i)) (sol i))) /\
  seed_pos buckets sol (i + 1) = seed_pos buckets sol i + (stream_code (bstream (len (bucket_at buckets i)) (sol i))).2.
Proof using Hready Hlo.
  intros Hi. pose proof (ly_stream _ _ _ _ Hlo (fb_bytes (lo_fb l))) as Hs. pose proof (rb_solved _ _ Hready) as Hsu.
  pose proof (streams_ok buckets _ _ sol 0 i Hsu ltac:(lia) ltac:(lia)) as Ho1.
  pose proof (streams_ok buckets _ _ sol i 1 Hsu ltac:(lia) ltac:(lia)) as Ho2.
  pose proof (streams_ok buckets _ _ sol (i + 1) (bucketsPerBlock - i - 1) Hsu ltac:(lia) ltac:(lia)) as Ho3.
  assert (streams buckets sol 0 bucketsPerBlock =
    streams buckets sol 0 i ++ streams buckets sol i 1 ++ streams buckets sol (i + 1) (bucketsPerBlock - i - 1)) as E.
  { replace bucketsPerBlock with (i + (1 + (bucketsPerBlock - i - 1))) at 1 by lia. by rewrite !streams_app by lia. }
  rewrite E in Hs. rewrite stream_code_app in Hs by (try apply Forall_app; done).
  apply has_code_cat in Hs as [_ Hs]; [| lia | by apply stream_code_ok | apply stream_code_ok; by apply Forall_app].
  rewrite stream_code_app in Hs by done.
  destruct (stream_code_ok _ Ho1) as [Hp _].
  apply has_code_cat in Hs as [Hs _]; [| lia | by apply stream_code_ok | by apply stream_code_ok].
  rewrite streams_one in Hs, Ho2. split; [exact Hs |].
  unfold seed_pos. rewrite streams_app, Z.add_0_l, streams_one by lia. rewrite stream_code_app by done. done.
Qed.

Lemma seed_pos_nonneg i : 0 <= i <= bucketsPerBlock -> 0 <= seed_pos buckets sol i.
Proof using Hready. intros Hi. by apply (seed_pos_bound _ _ _ _ i (rb_solved _ _ Hready)). Qed.

Lemma skip_bucket_spec br i :
  0 <= i < bucketsPerBlock -> reads seedData (seed_pos buckets sol i) br ->
  exists br', skip_bucket br (len (bucket_at buckets i)) = Ok br' /\ reads seedData (seed_pos buckets sol (i + 1)) br'.
Proof using Hready Hlo.
  intros Hi Hr. destruct (codes_at i Hi) as [Hc ->]. pose proof (seed_pos_nonneg i ltac:(lia)) as Hp.
  pose proof (bstream_ok (bucket_at buckets i) (sol i) (su_ok _ _ _ _ (rb_solved _ _ Hready) i Hi)) as Ho.
  pose proof (skip_all_spec seedData seedData_bytes _ br _ Hr Hp Ho Hc) as (br' & Hsk & Hr').
  exists br'. split; [| exact Hr']. rewrite <- Hsk. unfold skip_bucket, bstream, skip_all, splitThreshold.
  set (n := len (bucket_at buckets i)). pose proof (len_nonneg (bucket_at buckets i)) as Hn. fold n in Hn.
  destruct (Z.leb_spec n 1), (Z.leb_spec 8 n), (Z.leb_spec 2 n); try lia; cbn [map foldM fst]; [done | |].
  - destruct (Z.ltb_spec 1 (n / 2)); [| Z.div_mod_to_equations; lia].
    destruct (Z.ltb_spec 1 (n - n / 2)); [| Z.div_mod_to_equations; lia].
    destruct (skip_seed br (n / 2)) as [br1 | |]; cbn [mbind res_bind]; [| done | done].
    by destruct (skip_seed br1 (n - n / 2)).
  - by destruct (skip_seed br n).
Qed.

Lemma skip_buckets br first last :
  0 <= first <= last -> last < bucketsPerBlock -> reads seedData (seed_pos buckets sol first) br ->
  forall cum atStart, holds_window cum first last -> (0 < first -> atStart = elt counts (first - 1)) ->
  exists br', foldM (fun br i =>
      bStart ← start_of cum atStart first i; bEnd ← idx cum i; skip_bucket br (u16 (bEnd - bStart))) br
    (seqZ first (last - first)) = Ok br' /\ reads seedData (seed_pos buckets sol last) br'.
Proof using Hready Hlo.
  intros Hf Hla Hr cum atStart Hw Ha.
  match goal with |- context [foldM ?f] => set (body := f) end.
  assert (forall n, (n <= Z.to_nat (last - first))%nat ->
    exists br', foldM body br (seqZ first (Z.of_nat n)) = Ok br' /\ reads seedData (seed_pos buckets sol (first + Z.of_nat n)) br') as H.
  { induction n as [| n IH]; intros Hn; [exists br; rewrite Z.add_0_r; done |].
    destruct IH as (br1 & H1 & Hr1); [lia |]. rewrite Nat2Z.inj_succ, <- Z.add_1_r, seqZ_app, foldM_app, H1 by lia.
    cbn [mbind res_bind]. change (seqZ (first + Z.of_nat n) 1) with [first + Z.of_nat n].
    cbn [foldM]. unfold body at 1. rewrite (start_of_spec cum first last) by (done || lia). cbn [mbind res_bind].
    rewrite Hw by lia. cbn [mbind res_bind]. rewrite bucket_size_u16 by lia.
    destruct (skip_bucket_spec br1 (first + Z.of_nat n) ltac:(lia) Hr1) as (br2 & -> & Hr2). cbn [mbind res_bind].
    exists br2. by rewrite Z.add_assoc. }
  destruct (H (Z.to_nat (last - first)) ltac:(lia)) as (br' & H1 & H2). rewrite Z2Nat.id in H1, H2 by lia.
  exists br'. by replace (first + (last - first)) with last in H2 by lia.
Qed.

(** The slot inside the bucket. *)
Lemma layout_bytes_split :
  layout_bytes l = (cp_bytes (lo_cp l) ++ lo_ef l ++ lo_seeds l) ++ fb_bytes (lo_fb l).
Proof. unfold layout_bytes. by rewrite <- !app_assoc. Qed.

Lemma resolve_layout i s0 s1 :
  is_u 16 i -> 0 <= i < bucketsPerBlock ->
  resolveFallbackSeeds (layout_bytes l) (checkpointsSize + eliasFanoSize bucketsPerBlock U) i s0 s1 =
  Ok (fb_resolve (fb_of i (bucket_at buckets i) (sol i)) i s0 s1).
Proof using Hready Hlo.
  intros Hi16 Hi. rewrite layout_bytes_split. pose proof (len_cp_bytes _ (ly_cp1 _ _ _ _ Hlo) (ly_cp2 _ _ _ _ Hlo)) as Hc.
  pose proof (layout_bytes_ok _ _ _ _ Hlo) as Hb. rewrite layout_bytes_split in Hb. apply Forall_app in Hb as [Hb _].
  rewrite resolveFallbackSeeds_spec; [| done | apply (ly_fb_ok _ _ _ _ Hlo) | apply (ly_fb_len _ _ _ _ Hlo) |].
  - rewrite (ly_fb _ _ _ _ Hlo). replace bucketsPerBlock with (Z.of_nat (Z.to_nat bucketsPerBlock)) at 1 by done.
    rewrite fb_resolve_upto by done. destruct (Z.ltb_spec i (Z.of_nat (Z.to_nat bucketsPerBlock))); [done | unfold bucketsPerBlock in *; lia].
  - rewrite !len_app, Hc, (ly_ef_len _ _ _ _ Hlo). pose proof (len_nonneg (lo_seeds l)).
    pose proof (len_nonneg (lo_ef l)) as He. rewrite (ly_ef_len _ _ _ _ Hlo) in He. change checkpointsSize with 28. lia.
Qed.

Lemma local_slot_spec mp br i :
  mix_ok mp -> 0 <= i < bucketsPerBlock -> reads seedData (seed_pos buckets sol i) br ->
  local_slot mp br (layout_bytes l) (checkpointsSize + eliasFanoSize bucketsPerBlock U) i (len (bucket_at buckets i)) =
  Ok (bslot (len (bucket_at buckets i)) (r0 (sol i)) (r1 (sol i)) mp).
Proof using Hready Hlo.
  intros Hmp Hi Hr. destruct (codes_at i Hi) as [Hc _]. pose proof (seed_pos_nonneg i ltac:(lia)) as Hp.
  assert (is_u 16 i) as Hi16 by (unfold bucketsPerBlock, is_u in *; lia).
  pose proof (bucket_size_u16 i Hi) as Hn16. pose proof (u16_is (elt counts i - elt counts (i - 1))) as Hnu. rewrite Hn16 in Hnu.
  pose proof (resolve_layout i) as Hres. pose proof (fb_resolve_direct i (bucket_at buckets i) (sol i) 0 Hi16) as Hfd.
  pose proof (fb_resolve_split i (bucket_at buckets i) (sol i) Hi16) as Hfs.
  destruct (su_ok _ _ _ _ (rb_solved _ _ Hready) i Hi) as [_ _ Hd Hs].
  unfold local_slot, bslot, bstream in *. set (n := len (bucket_at buckets i)) in *.
  assert (0 <= n < 2 ^ 32) as Hn by (unfold_words; lia). unfold splitThreshold in *.
  destruct (Z.leb_spec 8 n) as [H8 | H8].
  - destruct (Z.leb_spec n 1); [lia |]. destruct (Hs H8) as [Ho0 Ho1]. set (sp := n / 2) in *.
    assert (4 <= sp /\ 4 <= n - sp < n /\ sp < n) as (Hsp & Hsp1 & Hsp2) by (subst sp; Z.div_mod_to_equations; lia).
    unfold stream_code in Hc. cbn [map code_concat fold_right fst snd] in Hc. rewrite code_nil_r in Hc.
    pose proof (seed_code_ok _ _ (proj1 (proj2 Ho0))) as Hk0. pose proof (seed_code_ok _ _ (proj1 (proj2 Ho1))) as Hk1.
    apply has_code_cat in Hc as [Hc0 Hc1]; [| lia | done | done].
    destruct (decodeGRSeedFast_spec seedData seedData_bytes _ br _ _ Hr Hp (proj1 (proj2 Ho0)) Hc0) as (br1 & -> & Hr1).
    cbn [mbind res_bind].
    destruct (decodeGRSeedFast_spec seedData seedData_bytes _ br1 _ _ Hr1 ltac:(destruct Hk0; lia) (proj1 (proj2 Ho1)) Hc1) as (br2 & -> & _).
    cbn [mbind res_bind].
    assert ((if (e0 (sol i) =? fallbackMarker) || (e1 (sol i) =? fallbackMarker)
       then resolveFallbackSeeds (layout_bytes l) (checkpointsSize + eliasFanoSize bucketsPerBlock U) i (e0 (sol i)) (e1 (sol i))
       else Ok (e0 (sol i), e1 (sol i))) = Ok (r0 (sol i), r1 (sol i))) as ->.
    { pose proof (unmark_enc _ _ _ Ho0) as E0. pose proof (unmark_enc _ _ _ Ho1) as E1.
      rewrite Hres, Hfs, E0, E1 by (done || apply Ho0). unfold unmark in E0, E1.
      destruct (e0 (sol i) =? fallbackMarker), (e1 (sol i) =? fallbackMarker); [done .. |]. by rewrite E0, E1. }
    cbn [mbind res_bind]. rewrite (u32_id n), (u32_id sp), (u32_id (n - sp)) by (unfold is_u; lia).
    destruct (mixFromParts mp (r0 (sol i)) n <? sp); [done |].
    pose proof (mixFromParts_lt mp (r1 (sol i)) (n - sp) Hmp ltac:(lia)). rewrite u32_id by (unfold is_u; lia). done.
  - destruct (Z.leb_spec 2 n) as [H2 | H2]; destruct (Z.leb_spec n 1); try lia; [| done].
    pose proof (Hd ltac:(lia)) as Ho0. unfold stream_code in Hc. cbn [map code_concat fold_right fst snd] in Hc. rewrite code_nil_r in Hc.
    destruct (decodeGRSeedFast_spec seedData seedData_bytes _ br _ _ Hr Hp (proj1 (proj2 Ho0)) Hc) as (br1 & -> & _).
    cbn [mbind res_bind]. rewrite Hres by done. pose proof (unmark_enc _ _ _ Ho0) as E0.
    rewrite u32_id by (unfold is_u; lia). unfold unmark in *.
    destruct (Z.eqb_spec (e0 (sol i)) fallbackMarker); cbn [mbind res_bind]; [| by rewrite E0].
    specialize (Hfd ltac:(lia)). destruct (fb_resolve _ i _ 0) as [x y]. cbn [mbind res_bind fst] in *. by subst x.
Qed.

Lemma slices :
  checkpointsSize + eliasFanoSize bucketsPerBlock U < len (layout_bytes l) /\
  slice (layout_bytes l) 0 checkpointsSize = Ok (cp_bytes (lo_cp l)) /\
  slice (layout_bytes l) checkpointsSize (len (layout_bytes l)) = Ok efData /\
  slice (layout_bytes l) (checkpointsSize + eliasFanoSize bucketsPerBlock U) (len (layout_bytes l)) = Ok seedData.
Proof using Hlo.
  pose proof (len_cp_bytes _ (ly_cp1 _ _ _ _ Hlo) (ly_cp2 _ _ _ _ Hlo)) as Hc. pose proof (ly_ef_len _ _ _ _ Hlo) as He.
  pose proof (len_fb_bytes (lo_fb l)) as Hf. pose proof (len_nonneg (lo_fb l)). pose proof (len_nonneg (lo_seeds l)).
  pose proof (len_nonneg (lo_ef l)) as He0. assert (len (layout_bytes l) = checkpointsSize + len (lo_ef l) + len (lo_seeds l) + len (fb_bytes (lo_fb l))) as Hl.
  { unfold layout_bytes. rewrite !len_app, Hc. lia. }
  rewrite <- He. change checkpointsSize with 28 in *. split; [lia |].
  assert (forall k, take (Z.to_nat (len (layout_bytes l) - k)) (drop (Z.to_nat k) (layout_bytes l)) = drop (Z.to_nat k) (layout_bytes l)) as Ht.
  { intros k. apply take_ge. unfold len. rewrite length_drop. lia. }
  split_and!; rewrite slice_in_range by lia; f_equal; rewrite ?Ht; unfold layout_bytes.
  - change (Z.to_nat 0) with 0%nat. rewrite drop_0. apply take_app_length'. unfold len in Hc. lia.
  - apply drop_app_length'. unfold len in Hc. lia.
  - rewrite (app_assoc (cp_bytes _)). apply drop_app_length'. rewrite length_app. unfold len in *. lia.
Qed.

Lemma bij_QuerySlot_eq seed k0 k1 :
  is_u 64 seed -> is_u 64 k0 -> is_u 64 k1 ->
  let i := FastRange32 k0 bucketsPerBlock in
  0 < len (bucket_at buckets i) ->
  QuerySlot (mk_Decoder seed) k0 k1 (layout_bytes l) U =
  Ok (zsum (take (Z.to_nat i) (sizes_of buckets)) +
      bslot (len (bucket_at buckets i)) (r0 (sol i)) (r1 (sol i)) (mk_mix (Z.lxor k0 seed) (Z.lxor k1 seed))).
Proof using Hready Hlo.
  intros Hs H0 H1 i Hn. destruct slices as (Hlen & Hsl1 & Hsl2 & Hsl3).
  assert (0 <= i < bucketsPerBlock) as Hi by (apply FastRange32_lt; unfold bucketsPerBlock, is_u in *; lia).
  destruct (elt_counts b sol Hready i) as [Hst Hst']; [lia |]. destruct (elt_counts b sol Hready (i + 1)) as [_ Hend]; [lia |].
  replace (i + 1 - 1) with i in Hend by lia. pose proof (bucket_size i Hi) as Hbs. pose proof (bucket_size_u16 i Hi) as Hbu.
  unfold QuerySlot. destruct (Z.eqb_spec U 0); [lia |].
  pose proof (len_nonneg (lo_ef l)) as He. rewrite (ly_ef_len _ _ _ _ Hlo) in He.
  destruct (Z.ltb_spec (len (layout_bytes l)) checkpointsSize); [lia |].
  rewrite Hsl1. cbn [mbind res_bind]. rewrite layout_cp. cbn [mbind res_bind]. fold i.
  destruct (Z.leb_spec (len (layout_bytes l)) checkpointsSize); [lia |].
  rewrite Hsl2. cbn [mbind res_bind]. cbv zeta. set (seg := i / checkpointInterval). set (first := seg * checkpointInterval).
  assert (0 <= first <= i /\ i - first < 128 /\ (0 < seg -> 0 < first /\ 0 <= seg - 1 < numCheckpoints) /\ (seg <= 0 -> first = 0)) as (Hf & _ & Hseg & Hseg0).
  { subst first seg. change numCheckpoints with 7. unfold checkpointInterval, bucketsPerBlock in *. Z.div_mod_to_equations. lia. }
  assert ((if 0 <? seg then idx (efBitPos (lo_cp l)) (seg - 1) else Ok 0) = Ok (high_start U counts first)) as ->.
  { destruct (Z.ltb_spec 0 seg) as [Hp |]; [rewrite (ly_efPos _ _ _ _ Hlo) by (by apply Hseg); do 2 f_equal; lia |].
    rewrite Hseg0 by lia. done. }
  cbn [mbind res_bind]. destruct (decoded_window first i Hf ltac:(lia)) as (out & cum & -> & Hdec & Hsto & Hw).
  cbn [mbind res_bind]. rewrite Hdec. cbn [mbind res_bind]. rewrite Hsto. cbn [mbind res_bind].
  destruct (Z.eqb_spec (i - first + 1) 0); [lia |]. cbn [mbind res_bind].
  assert (exists atStart, (if 0 <? seg then
        lowVal ← readEFLowBits efData (first - 1) L;
        Ok (Z.lor (u16 (Z.shiftl (Z.max (high_start U counts first - first) 0) L)) lowVal)
      else Ok 0) = Ok atStart /\ (0 < first -> atStart = elt counts (first - 1))) as (atStart & -> & Hat).
  { destruct (Z.ltb_spec 0 seg) as [Hp |]; [| exists 0; split; [done | rewrite Hseg0 by lia; lia]].
    destruct (segment_start first ltac:(split; [by apply Hseg | lia])) as (low & -> & Hj). cbn [mbind res_bind].
    by eexists. }
  cbn [mbind res_bind]. rewrite (start_of_spec cum first i atStart i Hw) by (done || lia). cbn [mbind res_bind].
  rewrite Hw by lia. cbn [mbind res_bind]. rewrite Hbu. destruct (Z.eqb_spec (len (bucket_at buckets i)) 0); [lia |].
  assert ((if 0 <? seg then idx (seedBitPos (lo_cp l)) (seg - 1) else Ok 0) = Ok (seed_pos buckets sol first)) as ->.
  { destruct (Z.ltb_spec 0 seg) as [Hp |]; [rewrite (ly_seedPos _ _ _ _ Hlo) by (by apply Hseg); do 2 f_equal; lia |].
    rewrite Hseg0 by lia. done. }
  cbn [mbind res_bind]. destruct (Z.leb_spec (len (layout_bytes l)) (checkpointsSize + eliasFanoSize bucketsPerBlock U)); [lia |].
  rewrite Hsl3. cbn [mbind res_bind]. destruct (newBitReaderFast_spec seedData seedData_bytes) as (br & -> & Hr). cbn [mbind res_bind].
  pose proof (seed_pos_nonneg first ltac:(lia)) as Hsp.
  assert (exists br1, (if 0 <? seed_pos buckets sol first then skipBits br (seed_pos buckets sol first) else Ok br) = Ok br1 /\
    reads seedData (seed_pos buckets sol first) br1) as (br1 & -> & Hr1).
  { destruct (Z.ltb_spec 0 (seed_pos buckets sol first)).
    - destruct (skipBits_spec seedData seedData_bytes 0 br _ Hr Hsp) as (br1 & Hx1 & Hx2). by exists br1.
    - exists br. by replace (seed_pos buckets sol first) with 0 by lia. }
  cbn [mbind res_bind]. destruct (skip_buckets br1 first i Hf ltac:(lia) Hr1 cum atStart Hw Hat) as (br2 & -> & Hr2).
  cbn [mbind res_bind d_globalSeed]. rewrite local_slot_spec; [cbn [mbind res_bind]; by rewrite Hst | | done | done].
  split; apply lxor_is_u; (done || lia).
Qed.
End query.
