(* ===== verification/BijSafe.v ===== *)
(** * The decoder is safe on untrusted metadata *)
From S2P Require Import Prelude Words Bits Encoding BijMix BijBits BijStream BijEnc BijSolver BijBuilder BijDecode BijGolomb BijElias BijRange BijFallback.
#[local] Open Scope Z_scope.

Section untrusted.
Context (data : list Z) (Hdata : Forall is_byte data).

Lemma byte_at i : 0 <= i < len data -> exists v, idx data i = Ok v /\ is_byte v.
Proof using Hdata.
  intros Hi. destruct (idx_in_range data i Hi) as (v & Hv & ->). exists v. split; [done |].
  by apply (Forall_lookup_1 _ _ _ _ Hdata Hv).
Qed.

Lemma findFallback_total off :
  0 <= off -> exists r, findFallback data off = Ok r /\ (r = -1 \/ off <= r <= len data).
Proof using Hdata.
  intros Ho. unfold findFallback. destruct (Z.ltb_spec off (len data)); [| exists (-1); split; [done | by left]].
  match goal with |- context [foldB ?f tt ?l] => set (body := f); set (ix := l) end.
  enough (wp (foldB body tt ix) (fun r => match r with inl _ => True | inr o => off <= o <= len data end) no_err) as Hw.
  { apply wp_total in Hw as ([[] | o] & -> & Hr); cbn [mbind res_bind]; eexists; (split; [done |]); [by left | by right]. }
  apply (wp_foldB (fun _ => True)); [done | | done]. intros i [] Hi%elem_of_range _. unfold body. cbv zeta.
  destruct (byte_at (len data - 2 - i)) as (v & -> & Hv); [lia |]. cbn [mbind res_bind].
  case_match; [| done]. destruct (byte_at (len data - 1)) as (w & -> & Hw); [lia |]. cbn [mbind res_bind].
  case_match; cbn [wp]; [lia | done].
Qed.

Lemma decodeFallbackListWithB_total : exists es, decodeFallbackListWithB data blockBits = Ok es.
Proof using Hdata.
  unfold decodeFallbackListWithB. destruct (Z.ltb_spec (len data) 2); [by eexists |].
  destruct (byte_at 0) as (count & -> & Hc); [lia |]. cbn [mbind res_bind].
  destruct (Z.eqb_spec count 0); [by eexists |]. cbn [orb]. unfold compactFallbackEntrySize.
  destruct (Z.ltb_spec (len data) (2 + count * 4)); [by eexists |].
  match goal with |- context [foldM ?f [] ?l] => enough (wp (foldM f [] l) (fun _ => True) no_err) as Hw end.
  { apply wp_total in Hw as (es & -> & _). by exists es. }
  apply (wp_foldM (fun _ => True)); [done |]. intros i es Hi%elem_of_range _.
  destruct (byte_at (1 + i * 4)) as (b0 & -> & _); [lia |]. cbn [mbind res_bind].
  destruct (byte_at (1 + i * 4 + 1)) as (b1 & -> & _); [lia |]. cbn [mbind res_bind].
  destruct (byte_at (1 + i * 4 + 2)) as (b2 & -> & _); [lia |]. cbn [mbind res_bind].
  destruct (byte_at (1 + i * 4 + 3)) as (b3 & -> & _); [lia |]. done.
Qed.
End untrusted.

Lemma resolveFallbackSeeds_total data off i s0 s1 :
  Forall is_byte data -> 0 <= off -> exists r, resolveFallbackSeeds data off i s0 s1 = Ok r.
Proof.
  intros Hd Ho. unfold resolveFallbackSeeds. destruct (findFallback_total data Hd off Ho) as (o & -> & Hr).
  cbn [mbind res_bind]. destruct (Z.leb_spec 0 o); [| by eexists]. rewrite slice_in_range by lia. cbn [mbind res_bind].
  destruct (decodeFallbackListWithB_total (take (Z.to_nat (len data - o)) (drop (Z.to_nat o) data))) as (es & ->);
    [by apply Forall_take, Forall_drop | by eexists].
Qed.

(** ** The readers *)
Lemma skip_bucket_total data p br n :
  Forall is_byte data -> reads data p br -> 0 <= p ->
  exists br' p', skip_bucket br n = Ok br' /\ reads data p' br' /\ 0 <= p'.
Proof.
  intros Hd Hr Hp.
  assert (forall br p m, reads data p br -> 0 <= p -> exists br' p',
    (if 1 <? m then skip_seed br m else Ok br) = Ok br' /\ reads data p' br' /\ 0 <= p') as Hs.
  { intros br0 p0 m Hr0 Hp0. destruct (Z.ltb_spec 1 m); [| by exists br0, p0].
    destruct (skip_seed_total data Hd p0 br0 m Hr0 Hp0 ltac:(lia)) as (br1 & p1 & H1 & H2 & H3). exists br1, p1.
    split_and!; [done | done | lia]. }
  unfold skip_bucket. destruct (splitThreshold <=? n).
  - destruct (Hs br p (n / 2) Hr Hp) as (br1 & p1 & -> & Hr1 & Hp1). cbn [mbind res_bind]. by apply (Hs br1 p1).
  - specialize (Hs br p n Hr Hp). destruct (Z.ltb_spec 1 n), (Z.leb_spec 2 n); try lia; done.
Qed.

Lemma local_slot_total data metadata p br mp off i n :
  Forall is_byte data -> Forall is_byte metadata -> mix_ok mp -> reads data p br -> 0 <= p -> 0 <= off -> 0 < n < 2 ^ 16 ->
  exists s, local_slot mp br metadata off i n = Ok s /\ 0 <= s < n.
Proof.
  intros Hd Hm Hmp Hr Hp Ho Hn. unfold local_slot, splitThreshold. destruct (Z.leb_spec 8 n).
  - assert (4 <= n / 2 /\ 4 <= n - n / 2 < n) as [Hsp Hsp1] by (Z.div_mod_to_equations; lia). set (sp := n / 2) in *.
    destruct (decodeGRSeedFast_total data Hd p br sp Hr Hp ltac:(lia)) as (s0 & br1 & p1 & -> & _ & Hr1 & Hp1). cbn [mbind res_bind].
    destruct (decodeGRSeedFast_total data Hd p1 br1 (n - sp) Hr1 ltac:(lia) ltac:(lia)) as (s1 & br2 & p2 & -> & _). cbn [mbind res_bind].
    assert (exists r, (if (s0 =? fallbackMarker) || (s1 =? fallbackMarker) then resolveFallbackSeeds metadata off i s0 s1 else Ok (s0, s1)) = Ok r)
      as ([t0 t1] & ->).
    { destruct ((s0 =? fallbackMarker) || (s1 =? fallbackMarker)); [by apply resolveFallbackSeeds_total | by eexists]. }
    cbn [mbind res_bind]. rewrite (u32_id n), (u32_id sp), (u32_id (n - sp)) by (unfold is_u; lia).
    pose proof (mixFromParts_lt mp t0 n Hmp ltac:(lia)). pose proof (mixFromParts_lt mp t1 (n - sp) Hmp ltac:(lia)).
    destruct (Z.ltb_spec (mixFromParts mp t0 n) sp); eexists; (split; [done |]); [lia |]. rewrite u32_id by (unfold is_u; lia). lia.
  - destruct (Z.leb_spec 2 n); [| exists 0; split; [done | lia]].
    destruct (decodeGRSeedFast_total data Hd p br n Hr Hp ltac:(lia)) as (s0 & br1 & p1 & -> & _). cbn [mbind res_bind].
    assert (exists r, (if s0 =? fallbackMarker then resolveFallbackSeeds metadata off i s0 0 else Ok (s0, 0)) = Ok r) as ([t0 t1] & ->).
    { destruct (s0 =? fallbackMarker); [by apply resolveFallbackSeeds_total | by eexists]. }
    cbn [mbind res_bind]. rewrite u32_id by (unfold is_u; lia). eexists. split; [done |]. apply mixFromParts_lt; [done | lia].
Qed.

Lemma get_u16s_total buf off :
  Forall is_byte buf -> 0 <= off -> off + 14 <= len buf ->
  exists vs, get_u16s buf off = Ok vs /\ len vs = numCheckpoints /\ Forall (is_u 16) vs.
Proof.
  intros Hb Ho Hl. unfold get_u16s. change numCheckpoints with 7. apply wp_total.
  apply (wp_foldM (fun vs => len vs = 7 /\ Forall (is_u 16) vs)).
  { split; [done |]. apply Forall_replicate. unfold_words. lia. }
  intros i vs Hi%elem_of_range [H7 Hv]. rewrite get_le_bits by (done || lia). cbn [mbind res_bind].
  rewrite upd_in_range by lia. cbn [wp]. split; [by rewrite len_insert |].
  apply Forall_insert; [done |]. apply bits_at_bound. lia.
Qed.

Lemma decodeCheckpoints_total buf :
  Forall is_byte buf -> len buf = checkpointsSize -> exists cp, decodeCheckpoints buf = Ok cp /\
    (forall j, 0 <= j < numCheckpoints -> exists v, idx (efBitPos cp) j = Ok v /\ is_u 16 v) /\
    (forall j, 0 <= j < numCheckpoints -> exists v, idx (seedBitPos cp) j = Ok v /\ is_u 16 v).
Proof.
  intros Hb Hl. change checkpointsSize with 28 in Hl. unfold decodeCheckpoints. change (numCheckpoints * 2) with 14.
  destruct (get_u16s_total buf 0 Hb ltac:(lia) ltac:(lia)) as (ef & -> & He & Hef). cbn [mbind res_bind].
  destruct (get_u16s_total buf 14 Hb ltac:(lia) ltac:(lia)) as (sp & -> & Hs & Hsp). cbn [mbind res_bind].
  eexists. split; [done |]. cbn [efBitPos seedBitPos].
  split; intros j Hj.
  - rewrite <- He in Hj. destruct (idx_in_range ef j Hj) as (v & Hv & ->). exists v. split; [done |]. by apply (Forall_lookup_1 _ _ _ _ Hef Hv).
  - rewrite <- Hs in Hj. destruct (idx_in_range sp j Hj) as (v & Hv & ->). exists v. split; [done |]. by apply (Forall_lookup_1 _ _ _ _ Hsp Hv).
Qed.

Lemma eliasFanoSize_nonneg n U : 0 < n -> 0 <= U -> 0 <= eliasFanoSize n U.
Proof.
  intros Hn HU. pose proof (lowBits_nonneg n U Hn) as HL. unfold eliasFanoSize. destruct (Z.eqb_spec n 0); [lia |]. cbv zeta.
  set (L := computeEFLowBits n U) in *. apply Z.div_pos; [| lia].
  assert (0 <= (if L <? 16 then Z.shiftr U L else 0)) by (case_match; [apply Z.shiftr_nonneg; lia | lia]). nia.
Qed.

Lemma start_of_total cum atStart first i :
  len cum = bucketsPerBlock -> Forall (is_u 16) cum -> is_u 16 atStart -> i < bucketsPerBlock ->
  exists v, start_of cum atStart first i = Ok v /\ is_u 16 v.
Proof.
  intros Hl Hc Ha Hi. unfold start_of. destruct (Z.ltb_spec 0 i); [| exists 0; split; [done | unfold_words; lia]].
  destruct (first <? i); [| by eexists]. destruct (idx_in_range cum (i - 1)) as (v & Hv & ->); [lia |].
  exists v. split; [done |]. by apply (Forall_lookup_1 _ _ _ _ Hc Hv).
Qed.

Lemma skip_buckets_total data cum atStart first i p br :
  Forall is_byte data -> len cum = bucketsPerBlock -> Forall (is_u 16) cum -> is_u 16 atStart -> 0 <= first -> i < bucketsPerBlock ->
  reads data p br -> 0 <= p ->
  exists br' p', foldM (fun br i =>
      bStart ← start_of cum atStart first i; bEnd ← idx cum i; skip_bucket br (u16 (bEnd - bStart))) br
    (seqZ first (i - first)) = Ok br' /\ reads data p' br' /\ 0 <= p'.
Proof.
  intros Hd Hl Hc Ha Hf Hi Hr Hp.
  match goal with |- context [foldM ?f br ?ix] =>
    enough (wp (foldM f br ix) (fun br' => exists p', reads data p' br' /\ 0 <= p') no_err) as Hw end.
  { apply wp_total in Hw as (br' & -> & p' & H). by exists br', p'. }
  apply (wp_foldM (fun br' => exists p', reads data p' br' /\ 0 <= p')); [by exists p |].
  intros j br1 Hj%elem_of_seqZ (p1 & Hr1 & Hp1). destruct (start_of_total cum atStart first j Hl Hc Ha ltac:(lia)) as (v & -> & _).
  cbn [mbind res_bind]. destruct (idx_in_range cum j) as (w & _ & ->); [lia |]. cbn [mbind res_bind].
  destruct (skip_bucket_total data p1 br1 (u16 (w - v)) Hd Hr1 Hp1) as (br2 & p2 & -> & H). by exists p2.
Qed.

Lemma bij_QuerySlot_total seed k0 k1 metadata n :
  Forall is_byte metadata -> is_u 64 seed -> is_u 64 k0 -> is_u 64 k1 -> 0 <= n ->
  wp (QuerySlot (mk_Decoder seed) k0 k1 metadata n) (fun slot => 0 <= slot < 2 ^ 17)
    (fun e => e = ErrNotFound \/
      (e = ErrCorruptedIndex /\ len metadata <= checkpointsSize + eliasFanoSize bucketsPerBlock n)).
Proof.
  intros Hm Hs H0 H1 Hn. unfold QuerySlot. destruct (Z.eqb_spec n 0); [by left |].
  pose proof (eliasFanoSize_nonneg bucketsPerBlock n ltac:(unfold bucketsPerBlock; lia) Hn) as Hes.
  pose proof (lowBits_nonneg bucketsPerBlock n ltac:(unfold bucketsPerBlock; lia)) as HL.
  destruct (Z.ltb_spec (len metadata) checkpointsSize); [right; split; [done | lia] |].
  assert (0 <= checkpointsSize) by done. rewrite (slice_in_range metadata 0 checkpointsSize) by lia. cbn [mbind res_bind].
  destruct (decodeCheckpoints_total (take (Z.to_nat (checkpointsSize - 0)) (drop (Z.to_nat 0) metadata))) as (cp & -> & Hef & Hsd).
  { by apply Forall_take, Forall_drop. }
  { unfold len in *. rewrite length_take, length_drop. lia. }
  cbn [mbind res_bind]. cbv zeta. set (i := FastRange32 k0 bucketsPerBlock).
  assert (0 <= i < bucketsPerBlock) as Hi by (apply FastRange32_lt; unfold bucketsPerBlock, is_u in *; lia).
  destruct (Z.leb_spec (len metadata) checkpointsSize); [right; split; [done | lia] |].
  rewrite (slice_in_range metadata checkpointsSize (len metadata)) by lia. cbn [mbind res_bind]. set (efData := take _ (drop _ metadata)).
  assert (Forall is_byte efData) as Hefd by (by apply Forall_take, Forall_drop).
  set (seg := i / checkpointInterval). set (first := seg * checkpointInterval).
  assert (0 <= first <= i /\ (0 < seg -> 0 <= seg - 1 < numCheckpoints)) as (Hf & Hseg).
  { subst first seg. change numCheckpoints with 7. unfold checkpointInterval, bucketsPerBlock in *. Z.div_mod_to_equations. lia. }
  assert (exists v, (if 0 <? seg then idx (efBitPos cp) (seg - 1) else Ok 0) = Ok v /\ is_u 16 v) as (bp & -> & Hbp).
  { destruct (Z.ltb_spec 0 seg) as [Hp |]; [by apply Hef, Hseg | exists 0; split; [done | unfold_words; lia]]. }
  cbn [mbind res_bind]. set (N := bucketsPerBlock) in *.
  assert (slice (make 0 N) first N = Ok (make 0 (N - first))) as ->.
  { rewrite slice_in_range by (rewrite ?len_make; lia). f_equal. unfold make. rewrite drop_replicate, take_replicate. f_equal. lia. }
  cbn [mbind res_bind].
  destruct (decodeEFRangeInline_total efData N n first i bp (make 0 (N - first)) Hefd Hf ltac:(lia) ltac:(unfold_words; lia)
    ltac:(apply Forall_replicate; unfold_words; lia) ltac:(rewrite len_make; lia) HL) as (out & k & -> & Hlo & Hou & Hk).
  cbn [mbind res_bind]. rewrite len_make in Hlo by lia. rewrite store_range by (rewrite ?len_make; lia). cbn [mbind res_bind].
  set (cum := take _ _ ++ out ++ _).
  assert (len cum = N /\ Forall (is_u 16) cum) as [Hcl Hcu].
  { assert (Forall (is_u 16) (make 0 N)) by (apply Forall_replicate; unfold_words; lia). split.
    - unfold cum, len, make in *. rewrite !length_app, length_take, length_drop, length_replicate. lia.
    - unfold cum. apply Forall_app. split; [by apply Forall_take |]. apply Forall_app. split; [done | by apply Forall_drop]. }
  assert ((if k =? 0 then decodeEliasFanoUnrolled efData N n cum else Ok cum) = Ok cum) as ->.
  { destruct (Z.eqb_spec k 0) as [E |]; [| done]. destruct (Hk E) as [_ H8]. unfold decodeEliasFanoUnrolled.
    destruct ((N =? 0) || (bucketsPerBlock <? N)); [done |]. by destruct (Z.ltb_spec (len efData) 8); [| lia]. }
  cbn [mbind res_bind].
  assert (exists v, (if 0 <? seg then
      lowVal ← readEFLowBits efData (first - 1) (computeEFLowBits N n);
      Ok (Z.lor (u16 (Z.shiftl (Z.max (bp - first) 0) (computeEFLowBits N n))) lowVal)
    else Ok 0) = Ok v /\ is_u 16 v) as (atStart & -> & Hat).
  { destruct (Z.ltb_spec 0 seg); [| exists 0; split; [done | unfold_words; lia]].
    destruct (readEFLowBits_total efData Hefd (computeEFLowBits N n) (first - 1) HL) as (low & -> & Hlow). cbn [mbind res_bind].
    eexists. split; [done |]. apply lor_is_u; [lia | apply u16_is | done]. }
  cbn [mbind res_bind]. destruct (start_of_total cum atStart first i Hcl Hcu Hat ltac:(lia)) as (start & -> & Hst). cbn [mbind res_bind].
  destruct (idx_in_range cum i) as (fin & _ & ->); [lia |]. cbn [mbind res_bind].
  pose proof (u16_is (fin - start)) as Hsz. destruct (Z.eqb_spec (u16 (fin - start)) 0); [by left |].
  assert (exists v, (if 0 <? seg then idx (seedBitPos cp) (seg - 1) else Ok 0) = Ok v /\ is_u 16 v) as (sp & -> & Hsp).
  { destruct (Z.ltb_spec 0 seg) as [Hp |]; [by apply Hsd, Hseg | exists 0; split; [done | unfold_words; lia]]. }
  cbn [mbind res_bind]. set (off := checkpointsSize + eliasFanoSize N n) in *.
  destruct (Z.leb_spec (len metadata) off); [right; split; [done | lia] |].
  rewrite slice_in_range by lia. cbn [mbind res_bind]. set (sdata := take _ (drop _ metadata)).
  assert (Forall is_byte sdata) as Hsdb by (by apply Forall_take, Forall_drop).
  destruct (newBitReaderFast_spec sdata Hsdb) as (br & -> & Hr). cbn [mbind res_bind].
  assert (exists br1 p1, (if 0 <? sp then skipBits br sp else Ok br) = Ok br1 /\ reads sdata p1 br1 /\ 0 <= p1) as (br1 & p1 & -> & Hr1 & Hp1).
  { destruct (Z.ltb_spec 0 sp); [| by exists br, 0].
    destruct (skipBits_spec sdata Hsdb 0 br sp Hr) as (br1 & Hx1 & Hx2); [lia |]. exists br1, (0 + sp). split_and!; [done | done | lia]. }
  cbn [mbind res_bind].
  destruct (skip_buckets_total sdata cum atStart first i p1 br1 Hsdb Hcl Hcu Hat ltac:(lia) ltac:(lia) Hr1 Hp1) as (br2 & p2 & -> & Hr2 & Hp2).
  cbn [mbind res_bind d_globalSeed].
  destruct (local_slot_total sdata metadata p2 br2 (mk_mix (Z.lxor k0 seed) (Z.lxor k1 seed)) off i (u16 (fin - start))) as (slot & -> & Hslot);
    [done | done | split; apply lxor_is_u; (done || lia) | done | done | lia | unfold_words; lia |].
  cbn [mbind res_bind wp]. unfold_words. lia.
Qed.

(** C20: the bijection decoder is safe on untrusted metadata. Whatever the
    bytes, the key and the key count (a corrupted file can claim any), a query
    stays inside the metadata, returns [ErrNotFound] or [ErrCorruptedIndex], or
    a slot below 2^17; it says [ErrCorruptedIndex] only when the metadata ends
    before the seed stream. *)
Theorem bij_QuerySlot_safe seed k0 k1 metadata n :
  Forall is_byte metadata -> is_u 64 seed -> is_u 64 k0 -> is_u 64 k1 -> 0 <= n ->
  wp (QuerySlot (mk_Decoder seed) k0 k1 metadata n) (fun slot => 0 <= slot < 2 ^ 17)
    (fun e => e = ErrNotFound \/
      (e = ErrCorruptedIndex /\ len metadata <= checkpointsSize + eliasFanoSize bucketsPerBlock n)).
Proof. apply bij_QuerySlot_total. Qed.

Lemma bij_QuerySlot_safe_witness :
  wp (QuerySlot (mk_Decoder 7) 1 2 [1; 2; 3] 5) (fun slot => 0 <= slot < 2 ^ 17)
    (fun e => e = ErrNotFound \/
      (e = ErrCorruptedIndex /\ len [1; 2; 3] <= checkpointsSize + eliasFanoSize bucketsPerBlock 5)).
Proof. apply bij_QuerySlot_safe; [repeat constructor; unfold_words; lia | unfold_words; lia .. | lia]. Defined.
