(* ===== verification/BijPayload.v ===== *)
(** * The payload region of a solved block *)
From S2P Require Import Prelude Words Bits Encoding Entries BijMix BijBits BijStream BijEnc BijSolver BijBuilder BijDecode BijGolomb BijElias BijRange BijFallback BijSeeds BijSplit BijSolve BijMeta.
#[local] Open Scope Z_scope.

(** ** Fallback seeds in the builder *)
Lemma elem_of_fb_of i bucket b y :
  y ∈ fb_of i bucket b <->
  1 < len bucket /\ ((e0 b = fallbackMarker /\ y = mk_fb i 0 (r0 b)) \/
    (splitThreshold <= len bucket /\ e1 b = fallbackMarker /\ y = mk_fb i 1 (r1 b))).
Proof.
  unfold fb_of. destruct (Z.leb_spec (len bucket) 1).
  { split; [by intros H1%not_elem_of_nil | lia]. }
  rewrite elem_of_app. destruct (Z.eqb_spec (e0 b) fallbackMarker), (Z.leb_spec splitThreshold (len bucket)),
    (Z.eqb_spec (e1 b) fallbackMarker); cbn [andb]; rewrite ?list_elem_of_singleton, ?elem_of_nil; intuition (try lia; try done).
Qed.

Lemma elem_of_fb_upto buckets sol k y :
  y ∈ fb_upto buckets sol k <-> exists i, 0 <= i < k /\ y ∈ fb_of i (bucket_at buckets i) (sol i).
Proof.
  unfold fb_upto. rewrite elem_of_concat_map. by setoid_rewrite elem_of_range.
Qed.

Lemma list_find_unique {A} (P : A -> Prop) `{!forall x, Decision (P x)} (l : list A) x :
  x ∈ l -> P x -> (forall y, y ∈ l -> P y -> y = x) -> exists j, list_find P l = Some (j, x).
Proof.
  intros Hx HP Hu. destruct (list_find P l) as [[j y] |] eqn:E.
  - apply list_find_Some in E as (Hl & Hy & _). exists j. rewrite (Hu y); [done | | done].
    by eapply list_elem_of_lookup_2.
  - apply list_find_None in E. rewrite Forall_forall in E. by destruct (E x Hx).
Qed.

(** Where the keys of bucket [i] start, and the slot of an entry of the block. *)
Definition start (buckets : list (list bucketEntry)) (i : Z) : Z := zsum (take (Z.to_nat i) (sizes_of buckets)).

Definition gslot (buckets : list (list bucketEntry)) (sol : Z -> bsol) (i : Z) (e : bucketEntry) : Z :=
  start buckets i + bslot (len (bucket_at buckets i)) (r0 (sol i)) (r1 (sol i)) (e_mix e).

Lemma start_succ buckets i :
  0 <= i < len buckets -> start buckets (i + 1) = start buckets i + len (bucket_at buckets i).
Proof.
  intros Hi. unfold start. pose proof (sizes_idx buckets i Hi) as Hs. apply idx_ok in Hs as [_ Hs].
  replace (Z.to_nat (i + 1)) with (S (Z.to_nat i)) by lia. rewrite (take_S_r _ _ _ Hs), zsum_app. cbn [zsum]. lia.
Qed.

Lemma start_all buckets : start buckets (len buckets) = zsum (sizes_of buckets).
Proof. unfold start. rewrite take_ge; [done |]. unfold sizes_of, len. rewrite length_map. lia. Qed.

(** The (bucket, entry) pairs in the order the payload writer visits them. *)
Definition visits (buckets : list (list bucketEntry)) (n : Z) : list (Z * bucketEntry) :=
  concat (map (fun i => map (pair i) (bucket_at buckets i)) (range n)).

Lemma visits_succ buckets n : 0 <= n -> visits buckets (n + 1) = visits buckets n ++ map (pair n) (bucket_at buckets n).
Proof. intros Hn. unfold visits. rewrite range_succ, map_app, concat_app by done. cbn [map concat]. by rewrite app_nil_r. Qed.

Lemma map_add_range a n : map (Z.add a) (range n) = seqZ a n.
Proof.
  unfold range, seqZ. change (map (Z.add a)) with (fmap (M := list) (Z.add a)). rewrite <- list_fmap_compose.
  apply list_fmap_ext. intros i x _. cbn. lia.
Qed.

(** The slots of the block are the numbers up to the number of keys. *)
Lemma bij_visits_slots buckets s sol (n : nat) :
  (n <= length buckets)%nat -> solved_upto buckets (Z.of_nat n) s sol ->
  map (fun p => gslot buckets sol p.1 p.2) (visits buckets (Z.of_nat n)) ≡ₚ range (start buckets (Z.of_nat n)).
Proof.
  intros Hn Hs. assert (forall i, 0 <= i < Z.of_nat n -> bsol_ok (bucket_at buckets i) (sol i)) as Hok by apply Hs.
  clear Hs. induction n as [| n IH]; [done |].
  rewrite Nat2Z.inj_succ, <- Z.add_1_r, visits_succ, map_app, IH, map_map by (try intros; try apply Hok; lia).
  rewrite start_succ by (unfold len; lia). unfold range at 2.
  assert (0 <= start buckets (Z.of_nat n)).
  { apply zsum_nonneg, Forall_take, sizes_nonneg. }
  rewrite seqZ_app, Z.add_0_l by (try apply len_nonneg; lia). apply Permutation_app; [done |].
  assert (map (fun e => gslot buckets sol (Z.of_nat n) e) (bucket_at buckets (Z.of_nat n)) =
    map (Z.add (start buckets (Z.of_nat n))) (map (bslot (len (bucket_at buckets (Z.of_nat n))) (r0 (sol (Z.of_nat n))) (r1 (sol (Z.of_nat n))))
      (parts (bucket_at buckets (Z.of_nat n))))) as E.
  { unfold parts. rewrite !map_map. done. }
  cbn [fst snd]. rewrite E, <- map_add_range. apply Permutation_map, (bo_solved _ _ (Hok (Z.of_nat n) ltac:(lia))).
Qed.

(** ** Writing the entries *)
Section payload.
Context (b : Builder) (sol : Z -> bsol) (Hready : ready b sol).
#[local] Abbreviation buckets := (b_buckets b).

Lemma resolveFallbackSeed_spec i j y :
  is_u 16 i -> y ∈ fb_upto buckets sol bucketsPerBlock -> bucketIndex y = i -> subBucket y = j ->
  (forall x, x ∈ fb_upto buckets sol bucketsPerBlock -> bucketIndex x = i -> subBucket x = j -> x = y) ->
  resolveFallbackSeed b i j = Ok (fb_seed y).
Proof using Hready.
  intros Hi Hy H1 H2 Hu. unfold resolveFallbackSeed. rewrite (su_fb _ _ _ _ (rb_solved _ _ Hready)).
  edestruct (list_find_unique (fun fe => (bucketIndex fe =? u16 i) && (subBucket fe =? j) = true)) as (k & Hk); [exact Hy | | |].
  - cbv beta. rewrite u16_id by done. by rewrite H1, H2, !Z.eqb_refl.
  - intros x Hx E. rewrite u16_id in E by done. apply andb_true_iff in E as [E1%Z.eqb_eq E2%Z.eqb_eq]. by apply Hu.
  - by rewrite Hk.
Qed.

Lemma resolved_first i :
  0 <= i < bucketsPerBlock -> 2 <= len (bucket_at buckets i) -> resolved b (e0 (sol i)) i 0 = Ok (r0 (sol i)).
Proof using Hready.
  intros Hi Hn. assert (is_u 16 i) as Hi16 by (unfold bucketsPerBlock, is_u in *; lia).
  pose proof (su_ok _ _ _ _ (rb_solved _ _ Hready) i Hi) as [_ _ Hd Hs]. unfold resolved.
  destruct (Z.eqb_spec (e0 (sol i)) fallbackMarker) as [E |].
  - apply (resolveFallbackSeed_spec i 0 (mk_fb i 0 (r0 (sol i)))); [done | | done | done |].
    + apply elem_of_fb_upto. exists i. split; [done |]. apply elem_of_fb_of. split; [lia |]. by left.
    + intros x (k & Hk & Hx)%elem_of_fb_upto H1 H2.
      apply elem_of_fb_of in Hx as (_ & [(_ & ->) | (_ & _ & ->)]); cbn in *; [by subst k | done].
  - destruct (Z.le_gt_cases splitThreshold (len (bucket_at buckets i))) as [Hc | Hc].
    + destruct (Hs Hc) as [(_ & _ & [? | ->]) _]; done.
    + destruct (Hd ltac:(lia)) as (_ & _ & [? | ->]); done.
Qed.

Lemma resolved_second i :
  0 <= i < bucketsPerBlock -> splitThreshold <= len (bucket_at buckets i) -> resolved b (e1 (sol i)) i 1 = Ok (r1 (sol i)).
Proof using Hready.
  intros Hi Hn. assert (is_u 16 i) as Hi16 by (unfold bucketsPerBlock, is_u in *; lia).
  pose proof (su_ok _ _ _ _ (rb_solved _ _ Hready) i Hi) as [_ _ _ Hs]. unfold resolved.
  destruct (Z.eqb_spec (e1 (sol i)) fallbackMarker) as [E |].
  - apply (resolveFallbackSeed_spec i 1 (mk_fb i 1 (r1 (sol i)))); [done | | done | done |].
    + apply elem_of_fb_upto. exists i. split; [done |]. apply elem_of_fb_of. unfold splitThreshold in *. split; [lia |]. by right.
    + intros x (k & Hk & Hx)%elem_of_fb_upto H1 H2.
      apply elem_of_fb_of in Hx as (_ & [(_ & ->) | (_ & _ & ->)]); cbn in *; [done | by subst k].
  - destruct (Hs Hn) as [_ (_ & _ & [? | ->])]; done.
Qed.

Definition write_entry (generic : bool) (es : Z) (i : Z) (dst : list Z) (e : bucketEntry) : res (list Z) :=
  writeEntryAt generic dst (gslot buckets sol i e) es (fingerprint e) (payload e) (fingerprintSize b * 8).

Lemma payloadStep_spec es generic dst i :
  0 <= i < bucketsPerBlock ->
  payloadStep b es generic (dst, start buckets i) i =
  (dst ← foldM (write_entry generic es i) dst (bucket_at buckets i); Ok (dst, start buckets (i + 1))).
Proof using Hready.
  intros Hi. pose proof (rb_buckets _ _ Hready) as Hlb. pose proof (size_at b sol Hready i Hi) as Hsz.
  pose proof (bucket_at_idx buckets i ltac:(lia)) as Hb. rewrite start_succ by lia.
  pose proof (resolved_first i Hi) as Hr0. pose proof (resolved_second i Hi) as Hr1.
  pose proof (su_kept _ _ _ _ (rb_solved _ _ Hready) i Hi) as Hk. pose proof (su_ok _ _ _ _ (rb_solved _ _ Hready) i Hi) as Hok.
  pose proof (ready_U b sol Hready) as HU. pose proof (start_succ buckets i ltac:(lia)) as Hss.
  unfold payloadStep. rewrite Hb. cbn [mbind res_bind]. rewrite Hsz. cbn [mbind res_bind]. unfold kept in Hk.
  assert (len (bucket_at buckets i) < 2 ^ 16) as Hn16.
  { destruct (elt_counts b sol Hready (i + 1)) as [E1 [_ E2]]; [lia |]. fold (start buckets (i + 1)) in E1.
    pose proof (zsum_nonneg _ (Forall_take (fun x => 0 <= x) (Z.to_nat i) _ (sizes_nonneg buckets))) as H0.
    fold (start buckets i) in H0. lia. }
  unfold write_entry, gslot, bslot. set (bucket := bucket_at buckets i) in *. set (n := len bucket) in *.
  pose proof (len_nonneg bucket) as Hn0. fold n in Hn0. destruct (Z.eqb_spec n 0) as [E |].
  { assert (bucket = []) as -> by (destruct bucket; [done | unfold n in E; rewrite len_cons in E; pose proof (len_nonneg bucket); lia]).
    cbn [foldM mbind res_bind]. do 2 f_equal. lia. }
  unfold splitThreshold in *. destruct (Z.leb_spec 8 n).
  - destruct Hk as (j & -> & Hs0 & Hs1). cbn [mbind res_bind]. rewrite Hs0. cbn [mbind res_bind]. rewrite Hs1. cbn [mbind res_bind].
    rewrite Hr0 by lia. cbn [mbind res_bind]. rewrite Hr1 by lia. cbn [mbind res_bind].
    assert (4 <= n / 2 /\ 4 <= n - n / 2 < n) as [Hsp Hsp1] by (Z.div_mod_to_equations; lia).
    rewrite (u32_id n), (u32_id (n / 2)), (u32_id (n - n / 2)) by (unfold is_u; lia).
    destruct (Z.leb_spec n 1); [lia |]. done.
  - rewrite Hk. cbn [mbind res_bind]. rewrite (u32_id n) by (unfold is_u; lia).
    destruct (Z.leb_spec n 1), (Z.ltb_spec 1 n); try lia; [| by rewrite Hr0 by lia].
    rewrite (bo_small _ _ Hok) by lia. done.
Qed.

Lemma payload_loop es generic dst (n : nat) :
  (n <= Z.to_nat bucketsPerBlock)%nat ->
  foldM (payloadStep b es generic) (dst, 0) (range (Z.of_nat n)) =
  (dst ← foldM (fun dst p => write_entry generic es p.1 dst p.2) dst (visits buckets (Z.of_nat n));
   Ok (dst, start buckets (Z.of_nat n))).
Proof using Hready.
  intros Hn. induction n as [| n IH]; [done |].
  rewrite Nat2Z.inj_succ, <- Z.add_1_r, range_succ, foldM_snoc, IH, visits_succ, foldM_app by lia.
  destruct (foldM _ dst (visits buckets (Z.of_nat n))) as [dst1 | |]; cbn [mbind res_bind]; [| done | done].
  rewrite payloadStep_spec by (unfold bucketsPerBlock in *; lia).
  assert (forall l dst1, foldM (fun dst p => write_entry generic es p.1 dst p.2) dst1 (map (pair (Z.of_nat n)) l) =
    foldM (write_entry generic es (Z.of_nat n)) dst1 l) as ->; [| done].
  clear. induction l as [| e l IHl]; intros dst1; [done |]. cbn [map foldM fst snd].
  destruct (write_entry _ _ _ dst1 e); cbn [mbind res_bind]; [apply IHl | done | done].
Qed.

Lemma elem_of_visits_at i e : (i, e) ∈ visits buckets bucketsPerBlock -> 0 <= i < bucketsPerBlock /\ e ∈ bucket_at buckets i.
Proof using Type.
  intros (k & Hk%elem_of_range & Hp)%elem_of_concat_map.
  apply list_elem_of_In, in_map_iff in Hp as (e' & [= -> ->] & He%list_elem_of_In). done.
Qed.

Lemma bij_payloads_spec fps ps dst :
  fingerprintSize b = fps -> payloadSize b = ps -> 0 <= fps -> 0 <= ps -> 0 < keysInBlock b ->
  Forall (Forall (fun e => is_u (8 * fps) (fingerprint e))) buckets ->
  keysInBlock b * (fps + ps) <= len dst ->
  exists dst', encodePayloadsInto b dst = Ok (dst', keysInBlock b * (fps + ps)) /\ len dst' = len dst /\
    (Forall is_byte dst -> Forall is_byte dst') /\
    Forall (fun p => entry_at dst' fps ps (gslot buckets sol p.1 p.2) (fingerprint p.2) (payload p.2)) (visits buckets bucketsPerBlock).
Proof using Hready.
  intros <- <- Hf Hp Hn Hfp Hl. unfold encodePayloadsInto, entrySize. pose proof (rb_buckets _ _ Hready) as Hlb.
  rewrite (Z.add_comm (payloadSize b)). set (es := fingerprintSize b + payloadSize b) in *.
  destruct (Z.eqb_spec es 0) as [He | Hne].
  { rewrite He, Z.mul_0_r. cbn [orb]. exists dst. split_and!; [done | done | done |].
    apply Forall_forall. intros p _. unfold entry_at. replace (fingerprintSize b) with 0 by lia.
    replace (payloadSize b) with 0 by lia. rewrite Z.mul_0_r. unfold window. by rewrite take_0. }
  cbn [orb]. destruct (Z.eqb_spec (keysInBlock b) 0); [lia |]. destruct (Z.ltb_spec (len dst) (keysInBlock b * es)); [lia |].
  pose proof (bij_visits_slots buckets (b_solution b) sol (length buckets) ltac:(lia)) as Hperm.
  change (Z.of_nat (length buckets)) with (len buckets) in Hperm. rewrite start_all, <- (rb_count _ _ Hready), Hlb in Hperm.
  specialize (Hperm (rb_solved _ _ Hready)).
  assert (forall generic, (generic = false -> es ∈ [1; 4; 5; 8]) -> exists dst',
    (dst ← encodePayloadsWithWriter b dst es generic; Ok (dst, keysInBlock b * es)) = Ok (dst', keysInBlock b * es) /\ len dst' = len dst /\
    (Forall is_byte dst -> Forall is_byte dst') /\
    Forall (fun p => entry_at dst' (fingerprintSize b) (payloadSize b) (gslot buckets sol p.1 p.2) (fingerprint p.2) (payload p.2))
      (visits buckets bucketsPerBlock)) as Hw.
  { intros generic Hg. unfold encodePayloadsWithWriter. assert (0 < len dst) by nia.
    destruct (idx_in_range dst 0) as (d0 & _ & ->); [lia |]. cbn [mbind res_bind]. rewrite Hlb.
    pose proof (payload_loop es generic dst (Z.to_nat bucketsPerBlock) ltac:(lia)) as Hpl.
    change (Z.of_nat (Z.to_nat bucketsPerBlock)) with bucketsPerBlock in Hpl. rewrite Hpl. unfold write_entry. rewrite (Z.mul_comm (fingerprintSize b) 8).
    destruct (write_all (fingerprintSize b) (payloadSize b) Hf Hp (fun p => gslot buckets sol p.1 p.2) (fun p => fingerprint p.2)
      (fun p => payload p.2) generic (visits buckets bucketsPerBlock) dst Hg) as (dst' & H1 & Hl' & Hby & Hall).
    - apply Forall_forall. intros [i e] Hin. cbn [fst snd].
      assert (0 <= gslot buckets sol i e < keysInBlock b) as Hs.
      { apply elem_of_range. rewrite <- Hperm. apply list_elem_of_In, in_map_iff. exists (i, e). split; [done | by apply list_elem_of_In]. }
      apply elem_of_visits_at in Hin as [Hi He]. split_and!; [| lia | fold es; nia].
      pose proof (bucket_at_idx buckets i ltac:(lia)) as Hb. apply idx_ok in Hb as [_ Hb].
      pose proof (Forall_lookup_1 _ _ _ _ Hfp Hb) as HH. rewrite Forall_forall in HH. by apply HH.
    - rewrite Hperm. apply NoDup_range.
    - fold es in H1. rewrite H1. cbn [mbind res_bind]. by exists dst'. }
  destruct ((es =? 1) || (es =? 4) || (es =? 5) || (es =? 8)) eqn:Hsz; apply Hw; [| done].
  intros _. rewrite !orb_true_iff, !Z.eqb_eq in Hsz. set_solver.
Qed.
End payload.
