(* ===== verification/BijBlock.v ===== *)
(** * A bijection block is a minimal perfect hash of its keys

    What the block builder writes, the decoder reads back as a bijection from
    the keys added to the slots 0 to n-1, with every key's entry at its slot. *)
From S2P Require Import Prelude Words Bits Encoding Key Entries Block BijMix BijBits BijStream BijEnc BijSolver BijBuilder BijDecode BijGolomb BijElias BijRange BijFallback BijSeeds BijSplit BijSolve BijMeta BijLayout BijQuery BijSafe BijPayload.
#[local] Open Scope Z_scope.

(** ** Keys grouped by bucket *)

Definition mix_of (seed : Z) (k : key) : mixParts := mk_mix (Z.lxor (k_0 k) seed) (Z.lxor (k_1 k) seed).
Definition entry_of (seed : Z) (k : key) : bucketEntry := mk_entry (mix_of seed k) (k_payload k) (k_fp k).
Definition home (k : key) : Z := FastRange32 (k_0 k) bucketsPerBlock.
Definition homed (ks : list key) (i : Z) : list key := filter (fun k => home k = i) ks.
Definition bij_grouped (seed : Z) (ks : list key) : list (list bucketEntry) :=
  map (fun i => map (entry_of seed) (homed ks i)) (range bucketsPerBlock).

Lemma home_lt k : is_u 64 (k_0 k) -> 0 <= home k < bucketsPerBlock.
Proof. intros H. apply FastRange32_lt; [done | unfold bucketsPerBlock, is_u; lia | unfold bucketsPerBlock; lia]. Qed.

Lemma len_bij_grouped seed ks : len (bij_grouped seed ks) = bucketsPerBlock.
Proof. unfold bij_grouped, len. by rewrite length_map, length_range. Qed.

Lemma bij_grouped_lookup seed ks i :
  0 <= i < bucketsPerBlock -> bij_grouped seed ks !! Z.to_nat i = Some (map (entry_of seed) (homed ks i)).
Proof.
  intros Hi. unfold bij_grouped. rewrite list_lookup_fmap. unfold range.
  rewrite lookup_seqZ_lt by lia. cbn [fmap option_fmap option_map]. by replace (0 + Z.of_nat (Z.to_nat i)) with i by lia.
Qed.

Lemma bucket_at_grouped seed ks i :
  0 <= i < bucketsPerBlock -> bucket_at (bij_grouped seed ks) i = map (entry_of seed) (homed ks i).
Proof. intros Hi. unfold bucket_at. by rewrite bij_grouped_lookup. Qed.

Lemma homes_permutation fps ks : Forall (bkey_ok fps) ks -> concat (map (homed ks) (range bucketsPerBlock)) ≡ₚ ks.
Proof.
  intros H. apply (by_key_permutation home); [apply NoDup_range |].
  intros k Hk. rewrite Forall_forall in H. apply elem_of_range, home_lt. by apply H.
Qed.

Lemma zsum_lens {A} (ls : list (list A)) : zsum (map len ls) = len (concat ls).
Proof. induction ls as [| l ls IH]; [done |]. cbn [map zsum concat]. by rewrite len_app, IH. Qed.

Lemma zsum_grouped fps seed ks : Forall (bkey_ok fps) ks -> zsum (sizes_of (bij_grouped seed ks)) = len ks.
Proof.
  intros H. unfold sizes_of, bij_grouped. rewrite map_map. unfold len at 1.
  rewrite (map_ext _ (fun i => len (homed ks i))) by (intros i; unfold len; by rewrite length_map).
  rewrite <- (map_map (homed ks) len), zsum_lens. unfold len. by rewrite (Permutation_length (homes_permutation fps ks H)).
Qed.

Lemma grouped_mix_ok fps seed ks :
  is_u 64 seed -> Forall (bkey_ok fps) ks -> Forall (fun bucket => Forall mix_ok (parts bucket)) (bij_grouped seed ks).
Proof.
  intros Hs H. unfold bij_grouped. apply Forall_map, Forall_forall. intros i _. unfold parts. apply Forall_map, Forall_map, Forall_forall.
  intros k [_ Hk]%list_elem_of_filter. rewrite Forall_forall in H. destruct (H k Hk) as (H0 & H1 & _).
  split; apply lxor_is_u; (done || lia).
Qed.

Lemma grouped_fp_ok fps seed ks :
  Forall (bkey_ok fps) ks -> Forall (Forall (fun e => is_u (8 * fps) (fingerprint e))) (bij_grouped seed ks).
Proof.
  intros H. unfold bij_grouped. apply Forall_map, Forall_forall. intros i _. apply Forall_map, Forall_forall.
  intros k [_ Hk]%list_elem_of_filter. rewrite Forall_forall in H. by apply (H k Hk).
Qed.

Lemma len_homed ks i : len (homed ks i) <= len ks.
Proof. unfold homed, len. pose proof (length_filter (fun k => home k = i) ks). lia. Qed.

Lemma grouped_buckets_ok fps seed ks :
  is_u 64 seed -> Forall (bkey_ok fps) ks -> len ks < 2 ^ 32 -> buckets_ok (bij_grouped seed ks).
Proof.
  intros Hs H Hl. split; [rewrite len_bij_grouped; unfold bucketsPerBlock; lia |].
  pose proof (grouped_mix_ok fps seed ks Hs H) as Hm. rewrite Forall_forall in Hm |- *. intros bucket Hb. split; [| by apply Hm].
  unfold bij_grouped in Hb. apply list_elem_of_In, in_map_iff in Hb as (i & <- & _). pose proof (len_homed ks i).
  unfold len in *. rewrite length_map. lia.
Qed.

(** ** The builder between calls: the keys added so far, grouped by bucket *)
Record bij_ok (fps seed : Z) (ks : list key) (b : Builder) : Prop := {
  bj_buckets : b_buckets b = bij_grouped seed ks;
  bj_keys : keysInBlock b = len ks;
  bj_ok : Forall (bkey_ok fps) ks;
  bj_fps : fingerprintSize b = fps;
  bj_seed : b_globalSeed b = seed;
  bj_seed64 : is_u 64 seed;
  bj_sizes : len (bucketSizes b) = bucketsPerBlock;
  bj_cumul : len (cumulative b) = bucketsPerBlock;
  bj_seeds : len (seeds (b_solution b)) = bucketsPerBlock;
  bj_idx : len (splitSeedIdx (b_solution b)) = bucketsPerBlock
}.

Lemma bij_NewBuilder_ok totalKeys seed ps fps : is_u 64 seed -> bij_ok fps seed [] (NewBuilder totalKeys seed ps fps).
Proof. intros Hs. by split. Qed.

Lemma bij_Reset_ok fps seed ks b : bij_ok fps seed ks b -> bij_ok fps seed [] (Reset b).
Proof.
  intros []. split; try done; cbn; try (unfold len in *; by rewrite length_map).
  rewrite bj_buckets0. unfold bij_grouped. by rewrite map_map.
Qed.

Lemma bij_grouped_snoc seed ks k i bucket :
  i = home k -> 0 <= i < bucketsPerBlock -> bij_grouped seed ks !! Z.to_nat i = Some bucket ->
  <[Z.to_nat i := bucket ++ [entry_of seed k]]> (bij_grouped seed ks) = bij_grouped seed (ks ++ [k]).
Proof.
  intros Hie Hi Hb. pose proof (len_bij_grouped seed ks) as Hl1. pose proof (len_bij_grouped seed (ks ++ [k])) as Hl2.
  unfold len in Hl1, Hl2. rewrite bij_grouped_lookup in Hb by done. injection Hb as <-.
  apply list_eq. intros j. destruct (decide (j < length (bij_grouped seed ks))%nat) as [Hj |].
  - replace j with (Z.to_nat (Z.of_nat j)) at 2 by lia. rewrite bij_grouped_lookup by lia.
    unfold homed. rewrite filter_app. destruct (decide (j = Z.to_nat i)) as [-> |].
    + rewrite list_lookup_insert_eq by done. rewrite Z2Nat.id by lia.
      rewrite (filter_cons_True _ k) by done. by rewrite map_app.
    + rewrite list_lookup_insert_ne by done.
      replace j with (Z.to_nat (Z.of_nat j)) at 1 by lia. rewrite bij_grouped_lookup by lia.
      rewrite (filter_cons_False _ k) by (rewrite <- Hie; lia). by rewrite app_nil_r.
  - rewrite !lookup_ge_None_2; [done | lia | rewrite length_insert; lia].
Qed.

Lemma bij_AddKey_step fps seed ks b k :
  bij_ok fps seed ks b -> bkey_ok fps k ->
  exists b', AddKey b (k_0 k) (k_1 k) (k_payload k) (k_fp k) = Ok b' /\
    bij_ok fps seed (ks ++ [k]) b' /\ KeysAdded b' = KeysAdded b + 1 /\
    maxKeysPerBlock b' = maxKeysPerBlock b /\ payloadSize b' = payloadSize b.
Proof.
  intros [Hb Hk Hok Hf Hg Hg64 H1 H2 H3 H4] He. pose proof (home_lt k (proj1 He)) as Hi.
  unfold AddKey. change (FastRange32 (k_0 k) bucketsPerBlock) with (home k). cbv zeta.
  pose proof (len_bij_grouped seed ks) as Hl. rewrite <- Hl, <- Hb in Hi.
  destruct (idx_in_range (b_buckets b) (home k) Hi) as (bucket & Hl2 & ->). cbn [mbind res_bind].
  rewrite upd_in_range by done. cbn [mbind res_bind]. eexists. split; [done |]. split; [| split_and!; reflexivity].
  split; cbn [b_buckets keysInBlock fingerprintSize b_globalSeed bucketSizes cumulative b_solution]; try done.
  - rewrite Hb in Hl2 |- *. rewrite Hg. change (mk_entry _ _ _) with (entry_of seed k).
    apply bij_grouped_snoc; [reflexivity | by rewrite Hb, Hl in Hi | exact Hl2].
  - rewrite len_app, len_single. lia.
  - apply Forall_app. split; [exact Hok | by apply Forall_singleton].
Qed.

(** ** The slots of the keys *)
Definition bij_slot (seed : Z) (ks : list key) (sol : Z -> bsol) (k : key) : Z :=
  gslot (bij_grouped seed ks) sol (home k) (entry_of seed k).

Lemma bij_visits seed ks (f : Z -> bucketEntry -> Z) :
  map (fun p => f p.1 p.2) (visits (bij_grouped seed ks) bucketsPerBlock) =
  map (fun k => f (home k) (entry_of seed k)) (concat (map (homed ks) (range bucketsPerBlock))).
Proof.
  unfold visits. rewrite !concat_map, !map_map. apply (f_equal (@concat _)), map_ext_in.
  intros i Hi%list_elem_of_In%elem_of_range. rewrite bucket_at_grouped, !map_map by done.
  apply map_ext_in. intros k [<- _]%list_elem_of_In%list_elem_of_filter. done.
Qed.

Lemma bij_slot_permutation fps seed ks s sol :
  Forall (bkey_ok fps) ks -> solved_upto (bij_grouped seed ks) bucketsPerBlock s sol ->
  map (bij_slot seed ks sol) ks ≡ₚ range (len ks).
Proof.
  intros Hk Hs. pose proof (bij_visits_slots (bij_grouped seed ks) s sol (Z.to_nat bucketsPerBlock)) as H.
  pose proof (len_bij_grouped seed ks) as Hl. change (Z.of_nat (Z.to_nat bucketsPerBlock)) with bucketsPerBlock in H.
  rewrite <- Hl in H at 4. rewrite start_all, (zsum_grouped fps) in H by done.
  rewrite <- H by (done || (unfold len in Hl; lia)). rewrite (bij_visits seed ks (gslot _ sol)). symmetry.
  apply Permutation_map, (homes_permutation fps ks Hk).
Qed.

Lemma visit_of seed ks k :
  k ∈ ks -> is_u 64 (k_0 k) -> (home k, entry_of seed k) ∈ visits (bij_grouped seed ks) bucketsPerBlock.
Proof.
  intros Hk H0. pose proof (home_lt k H0) as Hh. apply elem_of_concat_map. exists (home k). split; [by apply elem_of_range |].
  rewrite bucket_at_grouped by done. apply list_elem_of_In, in_map, in_map, list_elem_of_In, list_elem_of_filter. done.
Qed.

(** ** Building a block *)
Record bij_same (b b' : Builder) : Prop := {
  bs_numBlocks : b_numBlocks b' = b_numBlocks b;
  bs_seed : b_globalSeed b' = b_globalSeed b;
  bs_ps : payloadSize b' = payloadSize b;
  bs_fps : fingerprintSize b' = fingerprintSize b;
  bs_max : maxKeysPerBlock b' = maxKeysPerBlock b
}.

(** The reasons a block of these keys may be refused. *)
Definition bij_error (maxKeys seed : Z) (ks : list key) (e : error) : Prop :=
  (e = ErrBlockOverflow /\ (maxKeys < len ks \/
     exists s sol, solved_upto (bij_grouped seed ks) bucketsPerBlock s sol /\ maxFallbackEntries < len (fallbackList s))) \/
  exists i, 0 <= i < bucketsPerBlock /\ solve_error (map (entry_of seed) (homed ks i)) e.

(** What a successful build promises: [n] keys with slots 0 to n-1, which the
    decoder recomputes from the metadata, and every key's entry at its slot. *)
Definition bij_built (fps ps seed : Z) (ks : list key) (meta payloads : list Z) : Prop :=
  forall d, NewDecoder [] seed = Ok d -> exists slots, slots ≡ₚ range (len ks) /\
    Forall2 (fun k slot => QuerySlot d (k_0 k) (k_1 k) meta (len ks) = Ok slot /\
      entry_at payloads fps ps slot (k_fp k) (k_payload k)) ks slots.

Lemma bij_empty_metadata dst :
  estimateMetadataSize 0 <= len dst -> Forall is_byte dst ->
  exists dst', buildEmptyMetadataInto dst = Ok (dst', estimateMetadataSize 0) /\ len dst' = len dst /\ Forall is_byte dst'.
Proof.
  intros Hl Hby. change (estimateMetadataSize 0) with 157 in *. unfold buildEmptyMetadataInto.
  change (eliasFanoSize bucketsPerBlock 0) with 128. cbv zeta.
  rewrite checkpoints_encode_spec by (done || (change checkpointsSize with 28; lia)).
  change checkpointsSize with 28. assert (len (cp_bytes zero_checkpoints) = 28) as Hc by done.
  rewrite store_range by lia. cbn [mbind res_bind]. set (d1 := take _ dst ++ _).
  assert (Forall is_byte d1) as B1.
  { apply Forall_app; split; [by apply Forall_take |]. apply Forall_app; split; [apply cp_bytes_ok | by apply Forall_drop]. }
  assert (len d1 = len dst) as L1.
  { unfold d1, len in *. rewrite !length_app, length_take, length_drop. lia. }
  rewrite slice_in_range by lia. cbn [mbind res_bind]. set (cl := take _ (drop _ d1)).
  assert (len cl = 128) as Lc by (unfold cl, len in *; rewrite length_take, length_drop; lia).
  rewrite Lc, store_range by (rewrite ?len_make; lia). cbn [mbind res_bind]. set (d2 := take _ d1 ++ _).
  assert (Forall is_byte d2) as B2.
  { apply Forall_app; split; [by apply Forall_take |]. apply Forall_app; split; [apply Forall_replicate; unfold_words; lia | by apply Forall_drop]. }
  assert (len d2 = len dst) as L2.
  { unfold d2, len, make in *. rewrite !length_app, length_take, length_drop, length_replicate. lia. }
  match goal with |- context [foldM ?f d2 ?l] => enough (wp (foldM f d2 l) (fun d => len d = len dst /\ Forall is_byte d) no_err) as Hw end.
  { apply wp_total in Hw as (d3 & -> & L3 & B3). cbn [mbind res_bind]. rewrite upd_in_range by lia. cbn [mbind res_bind].
    eexists. split; [done |]. rewrite len_insert. split; [done |]. apply Forall_insert; [done | unfold_words; lia]. }
  apply (wp_foldM (fun d => len d = len dst /\ Forall is_byte d)); [done |]. intros i d Hi%elem_of_range [Ld Bd].
  unfold bucketsPerBlock in Hi. assert (0 <= i / 8 < 128) by (Z.div_mod_to_equations; lia).
  destruct (Z.ltb_spec (28 + i / 8) (28 + 128)); [| done].
  destruct (idx_in_range d (28 + i / 8)) as (x & Hx & ->); [lia |]. cbn [mbind res_bind]. rewrite upd_in_range by lia.
  cbn [wp]. rewrite len_insert. split; [done |]. apply Forall_insert; [done |]. pose proof (Forall_lookup_1 _ _ _ _ Bd Hx) as Hxb.
  assert (0 <= i mod 8 < 8) as Hm by (apply Z.mod_pos_bound; lia).
  apply lor_is_u; [lia | exact Hxb |]. rewrite Z.shiftl_mul_pow2 by lia. unfold_words.
  pose proof (Z.pow_le_mono_r 2 (i mod 8) 7 ltac:(lia) ltac:(lia)). pose proof (Z.pow_pos_nonneg 2 (i mod 8) ltac:(lia) ltac:(lia)). lia.
Qed.

Lemma bij_counted fps seed ks b :
  bij_ok fps seed ks b -> len ks < 2 ^ 16 ->
  computeCumulativeCounts b = Ok (set_counts (sizes_of (b_buckets b)) (cums 0 (sizes_of (b_buckets b))) b).
Proof.
  intros [] Hn. pose proof (len_bij_grouped seed ks). apply computeCumulativeCounts_spec.
  - by rewrite bj_buckets0, (zsum_grouped fps).
  - rewrite bj_buckets0. unfold len in *. lia.
  - rewrite bj_buckets0. unfold len in *. lia.
Qed.

Lemma bij_ok_block fps seed ks b b' : bij_ok fps seed ks b -> same_block b b' -> bij_ok fps seed ks b'.
Proof. intros [] []. by split; congruence. Qed.

Lemma bij_same_block b b' : same_block b b' -> bij_same b b'.
Proof. intros []. by split. Qed.

Lemma bij_ok_set fps seed ks b szs cms s :
  bij_ok fps seed ks b -> len szs = bucketsPerBlock -> len cms = bucketsPerBlock -> sized (b_buckets b) s ->
  bij_ok fps seed ks (set_solution s (set_counts szs cms b)) /\ bij_same b (set_solution s (set_counts szs cms b)).
Proof.
  intros [] H1 H2 [H3 H4]. rewrite bj_buckets0, len_bij_grouped in H3, H4. split; by split.
Qed.

Lemma built_from_layout fps ps seed ks b sol l pd :
  ready b sol -> bij_ok fps seed ks b -> 0 < len ks -> layout_ok (b_buckets b) sol (keysInBlock b) l ->
  Forall (fun p => entry_at pd fps ps (gslot (b_buckets b) sol p.1 p.2) (fingerprint p.2) (payload p.2))
    (visits (b_buckets b) bucketsPerBlock) ->
  bij_built fps ps seed ks (layout_bytes l) pd.
Proof.
  intros Hr Hb Hn Hlo Hent d Hd. injection Hd as <-. pose proof (rb_solved _ _ Hr) as Hs. pose proof (bj_ok _ _ _ _ Hb) as Hk.
  pose proof (bj_buckets _ _ _ _ Hb) as Hbk. rewrite Hbk in Hs, Hent.
  exists (map (bij_slot seed ks sol) ks). split; [by eapply bij_slot_permutation |].
  apply Forall2_fmap_r, Forall_Forall2_diag, Forall_forall. intros k Hin.
  rewrite Forall_forall in Hk. destruct (Hk k Hin) as (H0 & H1 & _). split.
  - pose proof (bij_QuerySlot_eq b sol Hr l Hlo seed (k_0 k) (k_1 k) (bj_seed64 _ _ _ _ Hb) H0 H1) as Hq. cbv zeta in Hq.
    rewrite (bj_keys _ _ _ _ Hb) in Hq. rewrite Hq.
    + unfold bij_slot, gslot, start. by rewrite Hbk.
    + rewrite Hbk. change (FastRange32 (k_0 k) bucketsPerBlock) with (home k). rewrite bucket_at_grouped by (by apply home_lt).
      assert (k ∈ homed ks (home k)) as Hh by (by apply list_elem_of_filter). unfold len. rewrite length_map.
      destruct (homed ks (home k)); [by apply not_elem_of_nil in Hh | cbn; lia].
  - rewrite Forall_forall in Hent. by apply (Hent (home k, entry_of seed k)), visit_of.
Qed.

(** The second half of a build: the buckets are solved, the metadata and the
    entries are written. *)
Lemma bij_write fps ps seed ks b sol md pd maxKeys :
  bij_ok fps seed ks b -> ready b sol -> payloadSize b = ps -> 0 <= fps -> 0 <= ps -> 0 < len ks ->
  8220 <= len md -> len ks * (fps + ps) <= len pd -> Forall is_byte md -> Forall is_byte pd ->
  wp ('(b', md', r) ← encodeSeparatedMetadataInto b md;
      match r with
      | inr e => Ok (b', md', pd, inr e)
      | inl metadataLen =>
          '(pd', payloadsLen) ← encodePayloadsInto b' pd;
          Ok (b', md', pd', inl (metadataLen, payloadsLen, keysInBlock b'))
      end) (fun '(b', md', pd', r) =>
    bij_ok fps seed ks b' /\ bij_same b b' /\ len md' = len md /\ len pd' = len pd /\
    Forall is_byte md' /\ Forall is_byte pd' /\
    match r with
    | inl (metaLen, payloadsLen, n) =>
        n = len ks /\ payloadsLen = len ks * (fps + ps) /\ 128 <= metaLen <= 8220 /\
        bij_built fps ps seed ks (take (Z.to_nat metaLen) md') pd'
    | inr e => bij_error maxKeys seed ks e
    end) no_err.
Proof.
  intros Hb Hr Hps Hf Hp Hn Hml Hpl Hbm Hbp. pose proof (bj_ok _ _ _ _ Hb) as Hks.
  destruct (encodeSeparatedMetadataInto_spec b sol md Hr Hml) as (b3 & md3 & r & -> & Hsb & Hlm & Hr3). cbn [mbind res_bind].
  pose proof (bij_ok_block _ _ _ _ _ Hb Hsb) as Hb3. pose proof (bij_same_block _ _ Hsb) as Hc.
  destruct r as [n | e].
  2:{ cbn [wp]. destruct Hr3 as (-> & -> & Hov). split; [done |]. split; [done |]. split; [done |]. split; [done |]. split; [done |]. split; [done |]. left. split; [done |]. right.
      pose proof (rb_solved _ _ Hr) as Hsol. rewrite (bj_buckets _ _ _ _ Hb) in Hov, Hsol.
      exists (b_solution b), sol. split; [done |]. by rewrite (su_fb _ _ _ _ Hsol). }
  destruct Hr3 as (l & Hlo & -> & Hmd3). pose proof (ready_same _ _ _ Hsb Hr) as Hr'.
  destruct (bij_payloads_spec b3 sol Hr' fps ps pd) as (pd' & -> & Hlp & Hbpd & Hent);
    [apply Hb3 | by rewrite (bs_ps _ _ Hc) | done | done | rewrite (bj_keys _ _ _ _ Hb3); lia | | by rewrite (bj_keys _ _ _ _ Hb3) |].
  { rewrite (bj_buckets _ _ _ _ Hb3). by apply grouped_fp_ok. }
  cbn [mbind res_bind wp]. rewrite (bj_keys _ _ _ _ Hb3). split; [done |]. split; [done |]. split; [done |]. split; [done |].
  split; [rewrite Hmd3; apply Forall_app; split; [by eapply layout_bytes_ok | by apply Forall_drop] |]. split; [by apply Hbpd |].
  split; [done |]. split; [done |].
  split; [split; [eapply layout_len_pos; [| done]; rewrite (bj_keys _ _ _ _ Hb); lia | by apply (layout_bound b sol)] |].
  assert (take (Z.to_nat (len (layout_bytes l))) md3 = layout_bytes l) as ->.
  { rewrite Hmd3. apply take_app_length'. unfold len. lia. }
  apply (built_from_layout fps ps seed ks b3 sol l pd'); [done | done | lia | | done].
  destruct Hsb. by rewrite sb_buckets, sb_keys.
Qed.

Lemma bij_build_spec fps ps seed ks b md pd :
  bij_ok fps seed ks b -> payloadSize b = ps -> 0 <= fps -> 0 <= ps -> maxKeysPerBlock b < 2 ^ 16 ->
  MaxMetadataSizeForCurrentBlock b <= len md -> len ks * (fps + ps) <= len pd -> Forall is_byte md -> Forall is_byte pd ->
  wp (BuildSeparatedInto b md pd) (fun '(b', md', pd', r) =>
    bij_ok fps seed ks b' /\ bij_same b b' /\ len md' = len md /\ len pd' = len pd /\
    Forall is_byte md' /\ Forall is_byte pd' /\
    match r with
    | inl (metaLen, payloadsLen, n) =>
        n = len ks /\ payloadsLen = len ks * (fps + ps) /\ 128 <= metaLen <= estimateMetadataSize (len ks) /\
        bij_built fps ps seed ks (take (Z.to_nat metaLen) md') pd'
    | inr e => bij_error (maxKeysPerBlock b) seed ks e
    end) no_err.
Proof.
  intros Hb Hps Hf Hp Hmax Hml Hpl Hbm Hbp. unfold BuildSeparatedInto, MaxMetadataSizeForCurrentBlock in *.
  pose proof (len_nonneg ks) as Hn0. rewrite (bj_keys _ _ _ _ Hb) in *. destruct (Z.eqb_spec (len ks) 0) as [H0 | Hnz].
  { assert (ks = []) as -> by (destruct ks; [done | unfold len in H0; simpl in H0; lia]).
    destruct (bij_empty_metadata md Hml Hbm) as (md' & -> & Hl' & Hbm'). cbn [mbind res_bind wp].
    split; [exact Hb |]. split; [by split |]. split; [exact Hl' |]. split; [done |]. split; [done |]. split; [done |]. split; [done |]. split; [done |]. 
    split; [change (len (@nil key)) with 0; change (estimateMetadataSize 0) with 157; lia |].
    intros d _. exists []. split; [done | constructor]. }
  destruct (Z.ltb_spec (maxKeysPerBlock b) (len ks)) as [Hbig |].
  { cbn [wp]. split; [exact Hb |]. split; [by split |]. split; [done |]. split; [done |]. split; [done |]. split; [done |]. left. split; [done | by left]. }
  assert (estimateMetadataSize (len ks) = 8220) as Hest by (unfold estimateMetadataSize; by destruct (Z.eqb_spec (len ks) 0)).
  rewrite Hest in *. rewrite (bij_counted fps seed ks b) by (done || lia). cbn [mbind res_bind].
  set (b1 := set_counts _ _ b). change (b_solution b1) with (b_solution b). change (b_buckets b1) with (b_buckets b).
  pose proof (bj_ok _ _ _ _ Hb) as Hks. pose proof (bj_seed64 _ _ _ _ Hb) as Hs64. pose proof (len_bij_grouped seed ks) as Hgl.
  destruct (solveBijections_spec (b_buckets b) (b_solution b)) as (s & err & -> & Hsz & Hres).
  { rewrite (bj_buckets _ _ _ _ Hb). apply (grouped_buckets_ok fps); (done || lia). }
  { rewrite (bj_buckets _ _ _ _ Hb), Hgl. apply Hb. }
  { rewrite (bj_buckets _ _ _ _ Hb), Hgl. apply Hb. }
  cbn [mbind res_bind]. set (b2 := set_solution s b1).
  assert (len (sizes_of (b_buckets b)) = bucketsPerBlock) as Hlsz.
  { rewrite (bj_buckets _ _ _ _ Hb). unfold sizes_of, len in *. rewrite length_map. exact Hgl. }
  destruct (bij_ok_set fps seed ks b (sizes_of (b_buckets b)) (cums 0 (sizes_of (b_buckets b))) s Hb) as [Hb2 Hc2];
    [done | unfold len; rewrite length_cums; exact Hlsz | done |]. fold b1 b2 in Hb2, Hc2.
  destruct err as [e |].
  { cbn [wp]. split; [done |]. split; [done |]. split; [done |]. split; [done |]. split; [done |]. split; [done |]. right.
    destruct Hres as (i & Hi & He). rewrite (bj_buckets _ _ _ _ Hb), Hgl in Hi. exists i. split; [done |].
    by rewrite (bj_buckets _ _ _ _ Hb), bucket_at_grouped in He. }
  destruct Hres as (sol & Hsol).
  assert (ready b2 sol) as Hr.
  { split; cbn; [rewrite (bj_buckets _ _ _ _ Hb); exact Hgl | done | done | | rewrite (bj_keys _ _ _ _ Hb); lia |].
    - by rewrite (bj_keys _ _ _ _ Hb), (bj_buckets _ _ _ _ Hb), (zsum_grouped fps).
    - rewrite (bj_buckets _ _ _ _ Hb) in Hsol |- *. rewrite Hgl in Hsol. exact Hsol. }
  eapply wp_mono; [apply (bij_write fps ps seed ks b2 sol md pd (maxKeysPerBlock b)); [done | done | by rewrite (bs_ps _ _ Hc2) | done | done | lia | done | done | done | done] | | done].
  intros [[[b' md'] pd'] r] (H1 & H2 & H3). split; [exact H1 |]. split; [| exact H3]. destruct Hc2, H2. split; congruence.
Qed.

(** C15: a bijection block is correct, from the keys added to the bytes queried.
    [BuildSeparatedInto], on buffers of the estimated sizes, never panics; when it
    succeeds it reports the number of keys, the metadata fits the estimate, and
    the decoder maps the keys bijectively onto the slots 0 to n-1 with each key's
    fingerprint and payload stored at its slot. When it fails, the block had too
    many keys or more than 255 fallback entries, or a bucket could not be solved:
    [ErrDuplicateKey] is then reported only for keys that really are equal, and
    [ErrSplitBucketSeedSearchFailed] only for keys that are not. *)
Theorem bij_block_correct fps ps seed ks b md pd :
  bij_ok fps seed ks b -> payloadSize b = ps -> 0 <= fps -> 0 <= ps -> maxKeysPerBlock b < 2 ^ 16 ->
  MaxMetadataSizeForCurrentBlock b <= len md -> len ks * (fps + ps) <= len pd -> Forall is_byte md -> Forall is_byte pd ->
  wp (BuildSeparatedInto b md pd) (fun '(b', md', pd', r) =>
    bij_ok fps seed ks b' /\ bij_same b b' /\ len md' = len md /\ len pd' = len pd /\
    Forall is_byte md' /\ Forall is_byte pd' /\
    match r with
    | inl (metaLen, payloadsLen, n) =>
        n = len ks /\ payloadsLen = len ks * (fps + ps) /\ 128 <= metaLen <= estimateMetadataSize (len ks) /\
        bij_built fps ps seed ks (take (Z.to_nat metaLen) md') pd'
    | inr e => bij_error (maxKeysPerBlock b) seed ks e
    end) no_err.
Proof. apply bij_build_spec. Qed.

Lemma bij_add_all_ok fps seed ks0 ks b :
  bij_ok fps seed ks0 b -> Forall (bkey_ok fps) ks ->
  exists b', foldM (fun b k => AddKey b (k_0 k) (k_1 k) (k_payload k) (k_fp k)) b ks = Ok b' /\
    bij_ok fps seed (ks0 ++ ks) b' /\ payloadSize b' = payloadSize b /\ maxKeysPerBlock b' = maxKeysPerBlock b.
Proof.
  intros Hb Hk. revert ks0 b Hb. induction Hk as [| k ks He Hk IH]; intros ks0 b Hb.
  { exists b. rewrite app_nil_r. done. }
  cbn [foldM]. pose proof (bij_AddKey_step fps seed ks0 b k Hb He) as (b1 & -> & Hb1 & _ & Hm1 & Hp1).
  cbn [mbind res_bind]. destruct (IH _ _ Hb1) as (b2 & H2 & Hb2 & Hp2 & Hm2).
  exists b2. rewrite <- app_assoc in Hb2. split_and!; [exact H2 | exact Hb2 | congruence | congruence].
Qed.

Lemma bij_block_correct_witness :
  exists b, foldM (fun b k => AddKey b (k_0 k) (k_1 k) (k_payload k) (k_fp k)) (NewBuilder 100000 42 4 1)
      [mk_key 5 7 1 2; mk_key 9 11 3 4] = Ok b /\
    wp (BuildSeparatedInto b (make 0 8220) (make 0 10)) (fun '(b', md', pd', r) =>
      match r with
      | inl (metaLen, payloadsLen, n) => n = 2 /\ payloadsLen = 10 /\
          bij_built 1 4 42 [mk_key 5 7 1 2; mk_key 9 11 3 4] (take (Z.to_nat metaLen) md') pd'
      | inr e => bij_error (maxKeysPerBlock b) 42 [mk_key 5 7 1 2; mk_key 9 11 3 4] e
      end) no_err.
Proof.
  set (ks := [mk_key 5 7 1 2; mk_key 9 11 3 4]).
  assert (Forall (bkey_ok 1) ks) as Hk by (repeat constructor; unfold_words; cbn; lia).
  destruct (bij_add_all_ok 1 42 [] ks (NewBuilder 100000 42 4 1) (bij_NewBuilder_ok 100000 42 4 1 ltac:(unfold_words; lia)) Hk)
    as (b & Hb & Hok & Hp & Hm).
  exists b. split; [exact Hb |].
  eapply wp_mono; [apply (bij_block_correct 1 4 42 ks b) | | done].
  - exact Hok.
  - exact Hp.
  - lia.
  - lia.
  - rewrite Hm. vm_compute. reflexivity.
  - unfold MaxMetadataSizeForCurrentBlock. rewrite (bj_keys _ _ _ _ Hok). change (estimateMetadataSize (len ([] ++ ks))) with 8220.
    rewrite len_make; lia.
  - change (len ks) with 2. rewrite len_make; lia.
  - apply Forall_replicate. unfold_words. lia.
  - apply Forall_replicate. unfold_words. lia.
  - intros [[[b' md'] pd'] [[[metaLen payloadsLen] n] | e]] (_ & _ & _ & _ & _ & _ & Hr); [| exact Hr].
    destruct Hr as (-> & -> & _ & Hbuilt). exact (conj eq_refl (conj eq_refl Hbuilt)).
Defined.

(** C27: adding keys to a bijection block. [AddKey] never panics: the bucket
    index is in range for every 64-bit key; the key is appended to its bucket and
    counted, and the limits of the builder are unchanged. *)
Theorem bij_AddKey_correct fps seed ks b k :
  bij_ok fps seed ks b -> bkey_ok fps k ->
  exists b', AddKey b (k_0 k) (k_1 k) (k_payload k) (k_fp k) = Ok b' /\
    bij_ok fps seed (ks ++ [k]) b' /\ KeysAdded b' = KeysAdded b + 1 /\
    maxKeysPerBlock b' = maxKeysPerBlock b /\ payloadSize b' = payloadSize b.
Proof. apply bij_AddKey_step. Qed.

Lemma bij_AddKey_correct_witness :
  exists b', AddKey (NewBuilder 1000 1 4 1) 7 5 1 2 = Ok b' /\ bij_ok 1 1 [mk_key 7 5 1 2] b'.
Proof.
  destruct (bij_AddKey_correct 1 1 [] (NewBuilder 1000 1 4 1) (mk_key 7 5 1 2)) as (b' & H1 & H2 & _).
  - apply bij_NewBuilder_ok. unfold_words. lia.
  - split_and!; unfold_words; cbn; lia.
  - exists b'. exact (conj H1 H2).
Defined.

(** ** Duplicate keys *)

Lemma built_distinct fps ps seed ks meta payloads :
  bij_built fps ps seed ks meta payloads -> NoDup (map halves ks).
Proof.
  intros H. destruct (H (mk_Decoder seed) eq_refl) as (slots & Hp & Hq).
  assert (NoDup slots) as Hnd by (rewrite Hp; apply NoDup_range). clear H Hp.
  set (n := len ks) in *. clearbody n. induction Hq as [| k slot ks slots [Hk _] Hq IH]; [constructor |].
  apply NoDup_cons in Hnd as [Hni Hnd]. cbn [map]. apply NoDup_cons. split; [| by apply IH].
  intros Hin. apply Hni. apply list_elem_of_In, in_map_iff in Hin as (k' & E & Hk'). apply list_elem_of_In, list_elem_of_lookup_1 in Hk' as (i & Hi).
  destruct (Forall2_lookup_l _ _ _ _ _ Hq Hi) as (slot' & Hs' & Hq' & _). unfold halves in E. injection E as E0 E1.
  rewrite E0, E1, Hk in Hq'. injection Hq' as ->. by eapply list_elem_of_lookup_2.
Qed.

Lemma homed_distinct seed ks i : NoDup (map halves ks) -> NoDup (parts (map (entry_of seed) (homed ks i))).
Proof.
  intros H. unfold parts. rewrite map_map.
  assert (NoDup (map halves (homed ks i))) as Hh.
  { eapply sublist_NoDup; [exact H |]. apply (fmap_sublist halves), sublist_filter. }
  clear H. induction (homed ks i) as [| k l IH]; [constructor |]. cbn [map] in *. apply NoDup_cons in Hh as [Hk Hh].
  apply NoDup_cons. split; [| by apply IH]. intros Hin. apply Hk.
  apply list_elem_of_In, in_map_iff in Hin as (k' & E & Hk'). apply list_elem_of_In, in_map_iff. exists k'. split; [| done].
  cbn in E. injection E as E0 E1. apply lxor_cancel_r in E0, E1. unfold halves. congruence.
Qed.

(** C21: duplicate keys in a bijection block. A block that holds two equal keys
    is never built; and the builder says [ErrDuplicateKey] only when two of its
    keys are equal. *)
Theorem bij_duplicates_rejected fps ps seed ks b md pd :
  bij_ok fps seed ks b -> payloadSize b = ps -> 0 <= fps -> 0 <= ps -> maxKeysPerBlock b < 2 ^ 16 ->
  MaxMetadataSizeForCurrentBlock b <= len md -> len ks * (fps + ps) <= len pd -> Forall is_byte md -> Forall is_byte pd ->
  wp (BuildSeparatedInto b md pd) (fun '(_, _, _, r) =>
    match r with
    | inl _ => NoDup (map halves ks)
    | inr e => e = ErrDuplicateKey -> ~ NoDup (map halves ks)
    end) no_err.
Proof.
  intros Hb Hps Hf Hp Hmax Hml Hpl Hbm Hbp. eapply wp_mono; [by apply (bij_build_spec fps ps seed ks) | | done].
  intros [[[b' md'] pd'] [[[metaLen payloadsLen] n] | e]] (_ & _ & _ & _ & _ & _ & Hr).
  - destruct Hr as (_ & _ & _ & Hbuilt). by eapply built_distinct.
  - intros -> Hnd. destruct Hr as [[? _] | (i & Hi & [[_ Hd] | [[? _] | ?]])]; try done. apply Hd. by apply homed_distinct.
Qed.

Lemma bij_duplicates_rejected_witness :
  exists b, foldM (fun b k => AddKey b (k_0 k) (k_1 k) (k_payload k) (k_fp k)) (NewBuilder 100000 42 4 1)
      [mk_key 5 7 1 2; mk_key 5 7 3 4] = Ok b /\
    wp (BuildSeparatedInto b (make 0 8220) (make 0 10)) (fun '(_, _, _, r) =>
      match r with
      | inl _ => NoDup (map halves [mk_key 5 7 1 2; mk_key 5 7 3 4])
      | inr e => e = ErrDuplicateKey -> ~ NoDup (map halves [mk_key 5 7 1 2; mk_key 5 7 3 4])
      end) no_err.
Proof.
  set (ks := [mk_key 5 7 1 2; mk_key 5 7 3 4]).
  assert (Forall (bkey_ok 1) ks) as Hk by (repeat constructor; unfold_words; cbn; lia).
  destruct (bij_add_all_ok 1 42 [] ks (NewBuilder 100000 42 4 1) (bij_NewBuilder_ok 100000 42 4 1 ltac:(unfold_words; lia)) Hk)
    as (b & Hb & Hok & Hp & Hm).
  exists b. split; [exact Hb |]. apply (bij_duplicates_rejected 1 4 42 ks b); [exact Hok | exact Hp | lia | lia | | | | |].
  - rewrite Hm. vm_compute. reflexivity.
  - unfold MaxMetadataSizeForCurrentBlock. rewrite (bj_keys _ _ _ _ Hok). change (estimateMetadataSize (len ([] ++ ks))) with 8220.
    rewrite len_make; lia.
  - change (len ks) with 2. rewrite len_make; lia.
  - apply Forall_replicate. unfold_words. lia.
  - apply Forall_replicate. unfold_words. lia.
Defined.
