(* ===== verification/Algorithm.v ===== *)
(** * [algorithm.go]: the two algorithms behind the block interface

    Both block builders satisfy [BlockContract]; [newBlockBuilder] and
    [newBlockDecoder] choose between them by the algorithm number of the file. *)
From Stdlib Require Import String.
From S2P Require Import Prelude Words Encoding Key Entries Floats.
From S2P Require Import PtrPilot PtrSearch PtrReset PtrBuilder PtrBlock.
From S2P Require Import BijMix BijBuilder BijDecode BijSolver BijSolve BijSafe BijBlock.
From S2P Require Import Block.
#[local] Open Scope Z_scope.

Definition AlgoBijection : Z := 0.
Definition AlgoPTRHash : Z := 1.

Definition algorithm_String (a : Z) : string :=
  if a =? AlgoBijection then "bijection"%string
  else if a =? AlgoPTRHash then "ptrhash"%string
  else "unknown"%string.

(** ** The bijection algorithm *)
#[export] Instance bij_ops : BlockOps BijBuilder.Builder BijDecode.Decoder := {|
  NumBlocks := BijBuilder.NumBlocks;
  GlobalConfigSize := BijBuilder.GlobalConfigSize;
  EncodeGlobalConfigInto b dst := (dst, BijBuilder.EncodeGlobalConfigInto b dst);
  AddKey := BijBuilder.AddKey;
  KeysAdded := BijBuilder.KeysAdded;
  Reset := BijBuilder.Reset;
  MaxIndexMetadataSize := BijBuilder.MaxIndexMetadataSize;
  MaxMetadataSizeForCurrentBlock := BijBuilder.MaxMetadataSizeForCurrentBlock;
  BuildSeparatedInto := BijBuilder.BuildSeparatedInto;
  QuerySlot := BijDecode.QuerySlot
|}.

Record bij_builds (c : config) (ks : list key) (b : BijBuilder.Builder) : Prop := {
  bi_ok : bij_ok (c_fps c) (c_seed c) ks b;
  bi_config : config_ok c;
  bi_ps : BijBuilder.payloadSize b = c_ps c;
  bi_nb : BijBuilder.b_numBlocks b = c_numBlocks c;
  bi_max : BijMix.estimateMetadataSize (BijBuilder.maxKeysPerBlock b) = c_maxMeta c;
  bi_limit : BijBuilder.maxKeysPerBlock b < 2 ^ 16
}.

Definition bij_decodes (algo seed : Z) (d : BijDecode.Decoder) : Prop := BijDecode.NewDecoder [] seed = Ok d.

Lemma bij_error_elem maxKeys seed ks e : bij_error maxKeys seed ks e -> e ∈ block_errors.
Proof. unfold block_errors. intros [[-> _] | (i & _ & [[-> _] | [[-> _] | ?]])]; set_solver. Qed.

Lemma bij_empty_ok b md pd m : BijBuilder.keysInBlock b = 0 ->
  BijBuilder.BuildSeparatedInto b md pd = Ok m -> exists r, m.2 = inl r.
Proof.
  intros H. unfold BijBuilder.BuildSeparatedInto. rewrite H. cbn [Z.eqb].
  destruct (BijBuilder.buildEmptyMetadataInto md) as [[md' n] | |]; cbn [mbind res_bind]; [| done | done].
  intros [= <-]. by eexists.
Qed.

Lemma bij_estimate_le n : BijMix.estimateMetadataSize n <= 2 ^ 18.
Proof. unfold BijMix.estimateMetadataSize. by destruct (n =? 0). Qed.

Lemma bij_estimate_max n m : 0 <= n -> n <= m \/ n = 0 -> BijMix.estimateMetadataSize n <= BijMix.estimateMetadataSize m.
Proof.
  intros H0 H. unfold BijMix.estimateMetadataSize. destruct (Z.eqb_spec n 0) as [-> |], (Z.eqb_spec m 0) as [-> |]; try lia; by vm_compute.
Qed.

(** A block over its limit is refused before the buffers are looked at. *)
Lemma bij_overflow b md pd : 0 < BijBuilder.keysInBlock b -> BijBuilder.maxKeysPerBlock b < BijBuilder.keysInBlock b ->
  BijBuilder.BuildSeparatedInto b md pd = Ok (b, md, pd, inr ErrBlockOverflow).
Proof.
  intros H0 H. unfold BijBuilder.BuildSeparatedInto. destruct (Z.eqb_spec (BijBuilder.keysInBlock b) 0); [lia |].
  by destruct (Z.ltb_spec (BijBuilder.maxKeysPerBlock b) (BijBuilder.keysInBlock b)); [| lia].
Qed.

#[export] Program Instance bij_contract : BlockContract BijBuilder.Builder BijDecode.Decoder := {|
  builds := bij_builds;
  decodes := bij_decodes
|}.
Next Obligation. intros c ks b []. split; apply bi_ok0. Qed.
Next Obligation.
  intros c ks b []. split_and!; try done. cbn. unfold BijBuilder.MaxMetadataSizeForCurrentBlock, BijMix.estimateMetadataSize.
  by destruct (BijBuilder.keysInBlock b =? 0).
Qed.
Next Obligation. intros c ks b []. split; try done. by eapply bij_Reset_ok. Qed.
Next Obligation.
  intros c ks b k [] Hk. destruct (bij_AddKey_step _ _ _ _ _ bi_ok0 Hk) as (b' & H & Hok & _ & Hm & Hp).
  exists b'. split; [exact H |]. assert (BijBuilder.b_numBlocks b' = BijBuilder.b_numBlocks b) as Hn.
  { revert H. unfold BijBuilder.AddKey. destruct (idx _ _); cbn [mbind res_bind]; [| done | done].
    destruct (upd _ _ _); cbn [mbind res_bind]; [| done | done]. by intros [= <-]. }
  split; try done; congruence.
Qed.
Next Obligation.
  intros c ks b md pd [Hb [Hs Hp Hf] Hps Hnb Hmx Hlim] Hm Hpl Hbm Hbp. cbn in *.
  pose proof (bj_keys _ _ _ _ Hb) as Hn. pose proof (len_nonneg ks) as Hn0.
  destruct (decide (0 < len ks /\ BijBuilder.maxKeysPerBlock b < len ks)) as [[Hpos Hover] | Hfit].
  { rewrite bij_overflow by (rewrite Hn; done).
    refine (conj _ (conj eq_refl (conj eq_refl (conj Hbm (conj Hbp (conj _ _)))))).
    - split; try assumption. by split.
    - unfold block_errors. set_solver.
    - by intros ->. }
  assert (BijBuilder.MaxMetadataSizeForCurrentBlock b <= len md) as Hm'.
  { destruct Hm as [Hm | Hm]; [exact Hm |]. unfold BijBuilder.MaxMetadataSizeForCurrentBlock. rewrite Hn.
    etransitivity; [| exact Hm]. rewrite <- Hmx. apply bij_estimate_max; lia. }
  clear Hm. rename Hm' into Hm.
  assert (len ks * (c_fps c + c_ps c) <= len pd) as Hpl' by (unfold c_entrySize in Hpl; lia).
  eapply wp_post; [apply (bij_build_spec (c_fps c) (c_ps c) (c_seed c) ks b md pd); (done || lia) |].
  intros [[[b' md'] pd'] r] Heq (H1 & H2 & H3 & H4 & H5 & H6 & Hr).
  split; [destruct H2; split; try done; congruence |]. split_and!; try done.
  destruct r as [[[metaLen payloadsLen] n] | e].
  - destruct Hr as (-> & -> & Hl & Hbuilt). unfold c_entrySize. split; [done |]. split; [lia |]. split; [| exact Hbuilt].
    unfold BijBuilder.MaxMetadataSizeForCurrentBlock in Hm. rewrite Hn in Hm.
    pose proof (bij_estimate_le (len ks)). unfold minMetadata, maxMetadata. lia.
  - split; [by eapply bij_error_elem |]. intros ->.
    by destruct (bij_empty_ok b md pd _ (bj_keys _ _ _ _ Hb) Heq) as [? ?].
Qed.
Next Obligation.
  intros algo seed [s] k0 k1 metadata n Hd Hs Hm H0 H1 Hn. injection Hd as <-.
  eapply wp_mono; [apply bij_QuerySlot_total; (done || lia) | |].
  - intros slot Hx. cbv beta in Hx. unfold is_u. lia.
  - intros e [-> | [-> _]]; auto.
Qed.

(** ** The PTRHash algorithm *)
#[export] Instance ptr_ops : BlockOps PtrBuilder.Builder PtrBuilder.Decoder := {|
  NumBlocks := PtrBuilder.NumBlocks;
  GlobalConfigSize := PtrBuilder.GlobalConfigSize;
  EncodeGlobalConfigInto b dst := (dst, PtrBuilder.EncodeGlobalConfigInto b dst);
  AddKey := PtrBuilder.AddKey;
  KeysAdded := PtrBuilder.KeysAdded;
  Reset := PtrBuilder.Reset;
  MaxIndexMetadataSize := PtrBuilder.MaxIndexMetadataSize;
  MaxMetadataSizeForCurrentBlock := PtrBuilder.MaxMetadataSizeForCurrentBlock;
  BuildSeparatedInto := PtrBuilder.BuildSeparatedInto;
  QuerySlot := PtrBuilder.QuerySlot
|}.

(** A key as PTRHash keeps it. *)
Definition ptr_entry (k : key) : PtrSearch.bucketEntry :=
  PtrSearch.mk_bentry (k_1 k) (k_0 k) (k_payload k) (k_fp k).

Record ptr_builds (c : config) (ks : list key) (b : PtrBuilder.Builder) : Prop := {
  pi_ok : builder_ok (c_fps c) (map ptr_entry ks) b;
  pi_config : config_ok c;
  pi_seed : PtrBuilder.b_globalSeed b = c_seed c;
  pi_ps : PtrBuilder.payloadSize b = c_ps c;
  pi_nb : PtrBuilder.b_numBlocks b = c_numBlocks c;
  pi_max : PtrBuilder.MaxIndexMetadataSize b = c_maxMeta c;
  pi_limit : PtrBuilder.maxKeysPerBlock b < 2 ^ 32;
  pi_estimate : forall n, 0 <= n <= PtrBuilder.maxKeysPerBlock b -> PtrBuilder.estimateMetadataSize n <= c_maxMeta c
}.

Definition ptr_decodes (algo seed : Z) (d : PtrBuilder.Decoder) : Prop := decoder_for seed d.

Lemma ptr_error_elem maxKeys ks e : block_error maxKeys ks e -> e ∈ block_errors.
Proof. unfold block_errors. intros [[-> _] | [-> | (bucket & _ & [[-> _] | [-> _]])]]; set_solver. Qed.

Lemma ptr_empty_ok b md pd m : PtrBuilder.keysInBlock b = 0 ->
  PtrBuilder.BuildSeparatedInto b md pd = Ok m -> exists r, m.2 = inl r.
Proof.
  intros H. unfold PtrBuilder.BuildSeparatedInto. rewrite H. cbn [Z.eqb].
  destruct (PtrBuilder.buildEmptyMetadataInto md) as [[md' n] | |]; cbn [mbind res_bind]; [| done | done].
  intros [= <-]. by eexists.
Qed.

Lemma len_ptr_entries ks : len (map ptr_entry ks) = len ks.
Proof. unfold len. by rewrite length_map. Qed.

Lemma ptr_estimate_nonneg n : is_u 32 n -> 0 <= PtrBuilder.estimateMetadataSize n.
Proof.
  intros Hn. destruct (Z.eq_dec n 0) as [-> |]; [by rewrite estimate_0 |]. rewrite estimate_pos by done.
  pose proof (computeNumSlots_ge n Hn). rewrite bucketsPerBlock_eq. lia.
Qed.

(** A block that got more than 2^32 keys is not refused: the slot count wraps
    around, the estimate is negative and [make] panics on it. *)
Example ptr_estimate_negative : PtrBuilder.estimateMetadataSize (2 ^ 33) < 0.
Proof. vm_compute. reflexivity. Qed.

Lemma ptr_built c ks meta pd :
  built (c_fps c) (c_ps c) (c_seed c) (map ptr_entry ks) meta pd -> block_built ptr_decodes c ks meta pd.
Proof.
  intros H d Hd. destruct (H d Hd) as (slots & Hp & Hq). rewrite len_ptr_entries in *. exists slots. split; [done |].
  apply Forall2_fmap_l in Hq. exact Hq.
Qed.

Lemma ptr_maxMeta_same b b' : PtrBuilder.MaxIndexMetadataSize b' = PtrBuilder.MaxIndexMetadataSize b.
Proof. reflexivity. Qed.

Lemma ptr_overflow b md pd : 0 < PtrBuilder.keysInBlock b -> PtrBuilder.maxKeysPerBlock b < PtrBuilder.keysInBlock b ->
  PtrBuilder.BuildSeparatedInto b md pd = Ok (b, md, pd, inr ErrBlockOverflow).
Proof.
  intros H0 H. unfold PtrBuilder.BuildSeparatedInto. destruct (Z.eqb_spec (PtrBuilder.keysInBlock b) 0); [lia |].
  by destruct (Z.ltb_spec (PtrBuilder.maxKeysPerBlock b) (PtrBuilder.keysInBlock b)); [| lia].
Qed.

(** The metadata of an empty block fits any buffer for a block. *)
Lemma ptr_empty_fits b : PtrBuilder.estimateMetadataSize 0 <= PtrBuilder.MaxIndexMetadataSize b.
Proof. by vm_compute. Qed.

#[local] Opaque PtrBuilder.MaxIndexMetadataSize PtrBuilder.estimateMetadataSize PtrPilot.computeNumSlots PtrPilot.bucketsPerBlock.

#[export] Program Instance ptr_contract : BlockContract PtrBuilder.Builder PtrBuilder.Decoder := {|
  builds := ptr_builds;
  decodes := ptr_decodes
|}.
Next Obligation.
  intros c ks b [Hb]. split; [cbn; unfold PtrBuilder.KeysAdded; by rewrite (bb_keys _ _ _ Hb), len_ptr_entries |].
  pose proof (bb_ok _ _ _ Hb) as Hk. rewrite Forall_fmap in Hk. eapply Forall_impl; [exact Hk |].
  intros k (? & ? & ?). by split_and!.
Qed.
Next Obligation.
  intros c ks b []. split; [exact pi_config0 |]. split; [exact pi_nb0 |]. split; [exact pi_max0 |].
  split; [exact eq_refl |]. intros Hn. cbn. unfold PtrBuilder.MaxMetadataSizeForCurrentBlock.
  rewrite (bb_keys _ _ _ pi_ok0), len_ptr_entries. apply ptr_estimate_nonneg. pose proof (len_nonneg ks). unfold is_u. lia.
Qed.
Next Obligation. intros c ks b []. split; [by eapply Reset_ok | assumption ..]. Qed.
Next Obligation.
  intros c ks b k [] (H0 & H1 & H2). destruct (AddKey_step _ _ _ (ptr_entry k) pi_ok0) as (b' & H & Hok & _ & Hm & Hg & Hp); [by split_and! |].
  exists b'. split; [exact H |]. assert (PtrBuilder.b_numBlocks b' = PtrBuilder.b_numBlocks b) as Hn.
  { revert H. unfold PtrBuilder.AddKey. destruct (idx _ _); cbn [mbind res_bind]; [| done | done].
    destruct (upd _ _ _); cbn [mbind res_bind]; [| done | done]. by intros [= <-]. }
  split; [by rewrite map_app | assumption | congruence | congruence | congruence | | congruence | by rewrite Hm].
  by rewrite (ptr_maxMeta_same b b').
Qed.
Next Obligation.
  intros c ks b md pd [Hb [Hs Hp Hf] Hsd Hps Hnb Hmx Hlim Hest] Hm Hpl Hbm Hbp. cbn in *.
  assert (PtrBuilder.keysInBlock b = len ks) as Hn by (by rewrite (bb_keys _ _ _ Hb), len_ptr_entries).
  pose proof (len_nonneg ks) as Hn0.
  destruct (decide (0 < len ks /\ PtrBuilder.maxKeysPerBlock b < len ks)) as [[Hpos Hover] | Hfit].
  { rewrite ptr_overflow by (rewrite Hn; done).
    refine (conj _ (conj eq_refl (conj eq_refl (conj Hbm (conj Hbp (conj _ _)))))).
    - split; try assumption. by split.
    - unfold block_errors. set_solver.
    - by intros ->. }
  assert (PtrBuilder.MaxMetadataSizeForCurrentBlock b <= len md) as Hm'.
  { destruct Hm as [Hm | Hm]; [exact Hm |]. unfold PtrBuilder.MaxMetadataSizeForCurrentBlock. rewrite Hn.
    etransitivity; [| exact Hm]. destruct (decide (len ks = 0)) as [-> | Hne]; [rewrite <- Hmx; apply ptr_empty_fits | apply Hest; lia]. }
  clear Hm. rename Hm' into Hm.
  assert (len (map ptr_entry ks) * (c_fps c + c_ps c) <= len pd) as Hpl'
    by (rewrite len_ptr_entries; unfold c_entrySize in Hpl; lia).
  eapply wp_post; [apply (ptr_build_spec (c_fps c) (c_ps c) (map ptr_entry ks) b md pd); (assumption || lia) |].
  intros [[[b' md'] pd'] r] Heq (H1 & H2 & H3 & H4 & H5 & H6 & Hr).
  destruct H2 as [H21 H22 H23 H24 H25].
  split; [split; [exact H1 | by split | by rewrite H22 | by rewrite H23 | by rewrite H21 | | by rewrite H25 | by rewrite H25] |].
  { by rewrite (ptr_maxMeta_same b b'). }
  split_and!; try assumption.
  destruct r as [[[metaLen payloadsLen] n] | e].
  - rewrite len_ptr_entries in Hr. destruct Hr as (-> & -> & Hl & Hbuilt). unfold c_entrySize.
    split; [done |]. split; [lia |]. split; [| apply ptr_built; by rewrite <- Hsd].
    unfold PtrBuilder.MaxMetadataSizeForCurrentBlock in Hm. rewrite Hn in Hm. unfold minMetadata, maxMetadata. lia.
  - split; [by eapply ptr_error_elem |]. intros ->.
    by destruct (ptr_empty_ok b md pd _ (bb_keys _ _ _ Hb) Heq) as [? ?].
Qed.
Next Obligation.
  intros algo seed d k0 k1 metadata n Hd Hs Hm H0 H1 Hn.
  pose proof (ptr_QuerySlot_total seed d k0 k1 metadata n Hd Hm H1 ltac:(lia)) as H.
  eapply wp_mono; [exact H | |]; clear H.
  - intros slot Hx. cbv beta in Hx. unfold is_u. lia.
  - intros e [[-> _] | [-> _]]; auto.
Qed.

(** ** The choice between them *)
Inductive blockBuilder :=
  | bijBuilder (b : BijBuilder.Builder)
  | ptrBuilder (b : PtrBuilder.Builder).

Inductive blockDecoder :=
  | bijDecoder (d : BijDecode.Decoder)
  | ptrDecoder (d : PtrBuilder.Decoder).

Definition newBlockBuilder (id totalKeys globalSeed payloadSize fingerprintSize : Z) : res blockBuilder :=
  if id =? AlgoBijection then
    Ok (bijBuilder (BijBuilder.NewBuilder totalKeys globalSeed payloadSize fingerprintSize))
  else if id =? AlgoPTRHash then
    Ok (ptrBuilder (PtrBuilder.NewBuilder totalKeys globalSeed payloadSize fingerprintSize))
  else Err ErrInvalidGeometry.

Definition newBlockDecoder (id : Z) (globalConfig : list Z) (globalSeed : Z) : res blockDecoder :=
  if id =? AlgoBijection then d ← BijDecode.NewDecoder globalConfig globalSeed; Ok (bijDecoder d)
  else if id =? AlgoPTRHash then d ← PtrBuilder.NewDecoder globalConfig globalSeed; Ok (ptrDecoder d)
  else Err ErrInvalidGeometry.

(** A method call goes to the algorithm's method. *)
#[export] Instance block_ops : BlockOps blockBuilder blockDecoder := {|
  NumBlocks b := match b with bijBuilder b => NumBlocks b | ptrBuilder b => NumBlocks b end;
  GlobalConfigSize b := match b with bijBuilder b => GlobalConfigSize b | ptrBuilder b => GlobalConfigSize b end;
  EncodeGlobalConfigInto b dst :=
    match b with bijBuilder b => EncodeGlobalConfigInto b dst | ptrBuilder b => EncodeGlobalConfigInto b dst end;
  AddKey b k0 k1 payload fingerprint :=
    match b with
    | bijBuilder b => b ← AddKey b k0 k1 payload fingerprint; Ok (bijBuilder b)
    | ptrBuilder b => b ← AddKey b k0 k1 payload fingerprint; Ok (ptrBuilder b)
    end;
  KeysAdded b := match b with bijBuilder b => KeysAdded b | ptrBuilder b => KeysAdded b end;
  Reset b := match b with bijBuilder b => bijBuilder (Reset b) | ptrBuilder b => ptrBuilder (Reset b) end;
  MaxIndexMetadataSize b :=
    match b with bijBuilder b => MaxIndexMetadataSize b | ptrBuilder b => MaxIndexMetadataSize b end;
  MaxMetadataSizeForCurrentBlock b :=
    match b with
    | bijBuilder b => MaxMetadataSizeForCurrentBlock b
    | ptrBuilder b => MaxMetadataSizeForCurrentBlock b
    end;
  BuildSeparatedInto b md pd :=
    match b with
    | bijBuilder b => '(b, md, pd, r) ← BuildSeparatedInto b md pd; Ok (bijBuilder b, md, pd, r)
    | ptrBuilder b => '(b, md, pd, r) ← BuildSeparatedInto b md pd; Ok (ptrBuilder b, md, pd, r)
    end;
  QuerySlot d k0 k1 metadata keysInBlock :=
    match d with
    | bijDecoder d => QuerySlot d k0 k1 metadata keysInBlock
    | ptrDecoder d => QuerySlot d k0 k1 metadata keysInBlock
    end
|}.

Definition block_builds (c : config) (ks : list key) (b : blockBuilder) : Prop :=
  match b with
  | bijBuilder b => c_algo c = AlgoBijection /\ builds c ks b
  | ptrBuilder b => c_algo c = AlgoPTRHash /\ builds c ks b
  end.

Definition block_decodes (algo seed : Z) (d : blockDecoder) : Prop :=
  match d with
  | bijDecoder d => algo = AlgoBijection /\ decodes algo seed d
  | ptrDecoder d => algo = AlgoPTRHash /\ decodes algo seed d
  end.

(** What the choice builds is what the chosen algorithm builds. *)
Lemma block_built_bij c ks meta pd :
  c_algo c = AlgoBijection -> block_built bij_decodes c ks meta pd -> block_built block_decodes c ks meta pd.
Proof. intros Ha H [d | d] [Hd Hdec]; [exact (H d Hdec) |]. rewrite Ha in Hd. discriminate Hd. Qed.

Lemma block_built_ptr c ks meta pd :
  c_algo c = AlgoPTRHash -> block_built ptr_decodes c ks meta pd -> block_built block_decodes c ks meta pd.
Proof. intros Ha H [d | d] [Hd Hdec]; [rewrite Ha in Hd; discriminate Hd | exact (H d Hdec)]. Qed.

#[export] Program Instance block_contract : BlockContract blockBuilder blockDecoder := {|
  builds := block_builds;
  decodes := block_decodes
|}.
Next Obligation. intros c ks [b | b] [_ H]; exact (builds_keys c ks b H). Qed.
Next Obligation. intros c ks [b | b] [_ H]; exact (builds_config c ks b H). Qed.
Next Obligation. intros c ks [b | b] [Ha H]; (split; [exact Ha | exact (Reset_builds c ks b H)]). Qed.
Next Obligation.
  intros c ks [b | b] k [Ha H] Hk; destruct (AddKey_builds c ks b k H Hk) as (b' & He & Hb'); cbn in *; rewrite He; by eexists.
Qed.
Next Obligation.
  intros c ks [b | b] md pd [Ha H] Hm Hp Hbm Hbp;
    pose proof (Build_builds c ks b md pd H Hm Hp Hbm Hbp) as Hw; cbn [BuildSeparatedInto block_ops];
    apply wp_bind; (eapply wp_mono; [exact Hw | | done]);
    intros [[[b' md'] pd'] r] (H1 & H2 & H3 & H4 & H5 & Hr); cbn [wp];
    (split; [by split |]); (split; [exact H2 |]); (split; [exact H3 |]); (split; [exact H4 |]);
    (split; [exact H5 |]); destruct r as [[[ml pl] n] | e]; try exact Hr;
    destruct Hr as (Hr1 & Hr2 & Hr3 & Hr4); (split; [exact Hr1 |]); (split; [exact Hr2 |]); (split; [exact Hr3 |]);
    [by apply block_built_bij | by apply block_built_ptr].
Qed.
Next Obligation.
  intros algo seed [d | d] k0 k1 metadata n [Ha H] Hs Hm H0 H1 Hn;
    exact (QuerySlot_wp algo seed d k0 k1 metadata n H Hs Hm H0 H1 Hn).
Qed.

(** ** Creating builders and decoders *)

(** What a builder of the algorithm [id] for [totalKeys] keys is created with. *)
Definition config_of (id totalKeys seed ps fps : Z) : config :=
  if id =? AlgoBijection then
    mk_config id seed ps fps (BijMix.numBlocks totalKeys)
      (BijBuilder.MaxIndexMetadataSize (BijBuilder.NewBuilder totalKeys seed ps fps))
  else
    mk_config id seed ps fps (PtrPilot.numBlocks totalKeys)
      (PtrBuilder.MaxIndexMetadataSize (PtrBuilder.NewBuilder totalKeys seed ps fps)).

(** The key limit of a block and the number of blocks, computed in floating point
    from the number of keys (the seed and the sizes do not matter), are within the
    width of the counters; the metadata estimate of a block within the limit is
    at most the estimate of the largest block. *)
Definition limits_ok (id totalKeys : Z) : Prop :=
  if id =? AlgoBijection then
    BijBuilder.maxKeysPerBlock (BijBuilder.NewBuilder totalKeys 0 0 0) < 2 ^ 16 /\ BijMix.numBlocks totalKeys < 2 ^ 32 - 1
  else
    let b := PtrBuilder.NewBuilder totalKeys 0 0 0 in
    PtrBuilder.maxKeysPerBlock b < 2 ^ 32 /\ PtrPilot.numBlocks totalKeys < 2 ^ 32 - 1 /\
    forall n, 0 <= n <= PtrBuilder.maxKeysPerBlock b -> PtrBuilder.estimateMetadataSize n <= PtrBuilder.MaxIndexMetadataSize b.

Lemma config_of_bounds id totalKeys seed ps fps :
  id = AlgoBijection \/ id = AlgoPTRHash -> limits_ok id totalKeys ->
  let c := config_of id totalKeys seed ps fps in 2 <= c_numBlocks c < 2 ^ 32 - 1 /\ 0 <= c_maxMeta c <= 2 ^ 20.
Proof.
  intros [-> | ->] Hl; (split; [split; [| apply Hl] |]).
  - apply Z.le_max_r.
  - cbn. unfold BijBuilder.MaxIndexMetadataSize. pose proof (bij_estimate_le (BijBuilder.maxKeysPerBlock (BijBuilder.NewBuilder totalKeys seed ps fps))).
    split; [| lia]. unfold BijMix.estimateMetadataSize. by destruct (_ =? 0).
  - apply PtrPilot.numBlocks_is.
  - cbn. by vm_compute.
Qed.

Lemma newBlockBuilder_unknown id totalKeys seed ps fps :
  id <> AlgoBijection -> id <> AlgoPTRHash -> newBlockBuilder id totalKeys seed ps fps = Err ErrInvalidGeometry.
Proof. unfold newBlockBuilder. intros H0 H1. by destruct (Z.eqb_spec id AlgoBijection), (Z.eqb_spec id AlgoPTRHash). Qed.

Lemma newBlockBuilder_builds id totalKeys seed ps fps :
  id = AlgoBijection \/ id = AlgoPTRHash -> limits_ok id totalKeys ->
  is_u 64 seed -> 0 <= ps <= maxPayloadSize -> 0 <= fps <= maxFingerprintSize ->
  exists b, newBlockBuilder id totalKeys seed ps fps = Ok b /\ builds (config_of id totalKeys seed ps fps) [] b.
Proof.
  intros [-> | ->] Hl Hs Hp Hf; (eexists; split; [reflexivity |]); (split; [reflexivity |]).
  - split; [by apply bij_NewBuilder_ok | by split | reflexivity | reflexivity | reflexivity | apply Hl].
  - split; [apply NewBuilder_ok | by split | reflexivity | reflexivity | reflexivity | | apply Hl | ].
    + apply ptr_maxMeta_same.
    + intros n Hn. by apply Hl.
Qed.

Lemma newBlockDecoder_spec algo cfg seed :
  match newBlockDecoder algo cfg seed with
  | Ok d => cfg = [] /\ decodes algo seed d
  | Err e => (e = ErrInvalidGeometry /\ algo <> AlgoBijection /\ algo <> AlgoPTRHash) \/ (e = ErrCorruptedIndex /\ cfg <> [])
  | Panic => False
  end.
Proof.
  unfold newBlockDecoder. destruct (Z.eqb_spec algo AlgoBijection) as [-> | H0].
  - destruct cfg as [| x cfg]; [by split; [| split] |]. right. by split.
  - destruct (Z.eqb_spec algo AlgoPTRHash) as [-> | H1]; [| by left].
    destruct cfg as [| x cfg]; [| by right; split].
    rewrite NewDecoder_ok. split; [reflexivity |]. split; [reflexivity |]. apply NewDecoder_ok.
Qed.

Lemma newBlockDecoder_decodes algo seed :
  algo = AlgoBijection \/ algo = AlgoPTRHash -> exists d, newBlockDecoder algo [] seed = Ok d /\ decodes algo seed d.
Proof.
  intros Ha. pose proof (newBlockDecoder_spec algo [] seed) as H.
  destruct (newBlockDecoder algo [] seed) as [d | e |]; [by exists d; split; [| apply H] | | done].
  destruct H as [(_ & ? & ?) | [_ ?]]; [| done]. destruct Ha; done.
Qed.
