(* ===== verification/Index.v ===== *)
(** * [index.go]: opening and querying an index

    An [Index] is a view of the bytes of a file: the header is decoded when it is
    opened, the entries of the RAM index and the footer on demand. Byte offsets
    are [uint64] and wrap around; the bytes are untrusted. *)
From stdpp Require Import sorting.
From S2P Require Import Prelude Words Bits Encoding Key Entries Header Floats Algorithm Block.
Import Header.Header Header.Footer Header.RamIndex.
#[local] Open Scope Z_scope.

(** ** xxhash, as the framework uses it

    A digest absorbs byte strings; its sum is the sum of all of them. *)
Class XXHash := {
  Digest : Type;
  xx_New : Digest;
  xx_Write : Digest -> list Z -> Digest;
  xx_Sum64 : Digest -> Z;
  Sum64 : list Z -> Z
}.

Class XXHashLaws `{!XXHash} := {
  Sum64_is bs : is_u 64 (Sum64 bs);
  Sum64_stream chunks : xx_Sum64 (foldl xx_Write xx_New chunks) = Sum64 (concat chunks)
}.

(** A concrete hash that satisfies the laws, for the examples. *)
#[local] Definition poly (bs : list Z) : Z := u64 (foldl (fun h b => u64 (h * 31 + b)) 7 bs).
Definition poly_hash : XXHash := {|
  Digest := list Z;
  xx_New := [];
  xx_Write d bs := d ++ bs;
  xx_Sum64 := poly;
  Sum64 := poly
|}.

Lemma poly_hash_laws : @XXHashLaws poly_hash.
Proof.
  split; [intros bs; apply u64_is |]. intros chunks. cbn. f_equal.
  enough (forall d, foldl (fun d bs : list Z => d ++ bs) d chunks = d ++ concat chunks) as H by apply (H []).
  induction chunks as [| c chunks IH]; intros d; [by rewrite app_nil_r |]. cbn. by rewrite IH, <- app_assoc.
Qed.

Definition minFileSize : Z := 304.

Record Index := mk_Index {
  mapped : bool;                 (* mmap != nil; the mapping is [data] *)
  data : list Z;
  i_header : header;
  userMetadata : list Z;
  ramIndexBytes : list Z;
  numRAMEntries : Z;             (* uint32 *)
  ramIndexOffset : Z;            (* uint64 *)
  payloadRegionOffset : Z;       (* uint64 *)
  metadataRegionOffset : Z;      (* uint64 *)
  i_entrySize : Z;
  decoder : blockDecoder;
  closed : bool
}.

(** ** Opening *)

(** [idx.data[offset:]] and the [uint32] at its start; the checks of the caller. *)
Definition var_section (data : list Z) (fileSize offset : Z) : res (list Z * Z) :=
  if fileSize <? u64 (offset + 4) then Err ErrTruncatedFile
  else
    n ← get_le 4 data offset;
    let offset := u64 (offset + 4) in
    if fileSize <? u64 (offset + n) then Err ErrTruncatedFile
    else
      section ← slice data offset (u64 (offset + n));
      Ok (section, u64 (offset + n)).

Definition initFromData (mapped : bool) (data : list Z) : res Index :=
  let fileSize := len data in
  hb ← slice data 0 headerSize;
  hdr ← decodeHeader hb;
  let offset := headerSize in
  '(userMetadata, offset) ← var_section data fileSize offset;
  '(algoConfig, offset) ← var_section data fileSize offset;
  let numRAMEntries := u32 (NumBlocks hdr + 1) in
  let ramIndexStart := offset in
  let ramIndexSize := u64 (numRAMEntries * ramIndexEntrySize) in
  let ramIndexEnd := u64 (ramIndexStart + ramIndexSize) in
  if u64 (fileSize - footerSize) <? ramIndexEnd then Err ErrCorruptedIndex
  else
    ramIndexBytes ← slice data ramIndexStart ramIndexEnd;
    let es := entrySize hdr in
    let payloadRegionOffset := ramIndexEnd in
    let payloadRegionSize := u64 (TotalKeys hdr * es) in
    let metadataRegionOffset := u64 (payloadRegionOffset + payloadRegionSize) in
    d ← newBlockDecoder (BlockAlgorithm hdr) algoConfig (Seed hdr);
    Ok (mk_Index mapped data hdr userMetadata ramIndexBytes numRAMEntries ramIndexStart
          payloadRegionOffset metadataRegionOffset es d false).

Definition OpenBytes (data : list Z) : res Index :=
  if len data <? minFileSize then Err ErrTruncatedFile
  else initFromData false data.

(** An open file: the answers of [Stat] (the size) and of [mmap.Map]. *)
Record osFile := mk_osFile { of_stat : res Z; of_map : res (list Z) }.

Definition OpenFile (f : osFile) : res Index :=
  fileSize ← of_stat f;
  if fileSize <? minFileSize then Err ErrTruncatedFile
  else mm ← of_map f; initFromData true mm.

(** [Open]: [os.Open], then [OpenFile]. *)
Definition Open (file : res osFile) : res Index := f ← file; OpenFile f.

Definition Close (i : Index) : Index :=
  mk_Index (mapped i) (data i) (i_header i) (userMetadata i) (ramIndexBytes i) (numRAMEntries i)
    (ramIndexOffset i) (payloadRegionOffset i) (metadataRegionOffset i) (i_entrySize i) (decoder i) true.

Definition ramEntry (i : Index) (n : Z) : res ramIndexEntry :=
  tail ← slice (ramIndexBytes i) (u64 (n * ramIndexEntrySize)) (len (ramIndexBytes i));
  decodeRAMIndexEntry tail.

(** ** Queries *)
Definition verifyFingerprintSeparated (i : Index) (k0 k1 globalRank : Z) : res bool :=
  let fpSize := fingerprintSizeInt (i_header i) in
  let payloadOffset := u64 (payloadRegionOffset i + u64 (globalRank * i_entrySize i)) in
  if len (data i) <? u64 (payloadOffset + fpSize) then Err ErrCorruptedIndex
  else
    tail ← slice (data i) payloadOffset (len (data i));
    storedFP ← unpackFingerprintFromBytes tail fpSize;
    let expectedFP := extractFingerprint k0 k1 fpSize in
    Ok (storedFP =? expectedFP).

(** The block of a key. *)
Definition route (k0 numBlocks : Z) : Z := FastRange32 (reverse_bytes64 k0) numBlocks.

Definition lookup_index (i : Index) (key : list Z) (checkFingerprint : bool) : res Z :=
  k0 ← get_le 8 key 0;
  k1 ← get_le 8 key 8;
  let blockIdx := route k0 (NumBlocks (i_header i)) in
  if numRAMEntries i <=? u32 (blockIdx + 1) then Err ErrNotFound
  else
    entry ← ramEntry i blockIdx;
    nextEntry ← ramEntry i (u32 (blockIdx + 1));
    let baseRank := KeysBefore entry in
    if KeysBefore nextEntry <? KeysBefore entry then Err ErrCorruptedIndex
    else
      let keysInBlock := KeysBefore nextEntry - KeysBefore entry in
      if keysInBlock =? 0 then Err ErrNotFound
      else
        let metaStart := u64 (metadataRegionOffset i + MetadataOffset entry) in
        let metaEnd := u64 (metadataRegionOffset i + MetadataOffset nextEntry) in
        if (metaEnd <=? metaStart) || (len (data i) <? metaEnd) then Err ErrCorruptedIndex
        else
          metadataData ← slice (data i) metaStart metaEnd;
          localSlot ← QuerySlot (decoder i) k0 k1 metadataData keysInBlock;
          let globalRank := u64 (baseRank + localSlot) in
          if checkFingerprint && hasFingerprint (i_header i) then
            ok ← verifyFingerprintSeparated i k0 k1 globalRank;
            if negb ok then Err ErrNotFound else Ok globalRank
          else Ok globalRank.

Definition queryInternal (i : Index) (key : list Z) : res Z := lookup_index i key true.
Definition locate (i : Index) (key : list Z) : res Z := lookup_index i key false.

Definition QueryRank (i : Index) (key : list Z) : res Z :=
  if closed i then Err ErrIndexClosed
  else if len key <? MinKeySize then Err ErrKeyTooShort
  else queryInternal i key.

Definition WithPayload (i : Index) : res Index :=
  if PayloadSize (i_header i) =? 0 then Err ErrNoPayload else Ok i.

Definition OpenPayloadBytes (data : list Z) : res Index := i ← OpenBytes data; WithPayload i.
Definition OpenPayloadFile (f : osFile) : res Index := i ← OpenFile f; WithPayload i.
Definition OpenPayload (file : res osFile) : res Index := i ← Open file; WithPayload i.

Definition QueryPayload (i : Index) (key : list Z) : res (Z * Z) :=
  if closed i then Err ErrIndexClosed
  else if len key <? MinKeySize then Err ErrKeyTooShort
  else
    rank ← queryInternal i key;
    let fpSize := fingerprintSizeInt (i_header i) in
    let payloadSize := payloadSizeInt (i_header i) in
    let payloadOffset := u64 (u64 (payloadRegionOffset i + u64 (rank * i_entrySize i)) + fpSize) in
    if len (data i) <? u64 (payloadOffset + payloadSize) then Err ErrCorruptedIndex
    else
      tail ← slice (data i) payloadOffset (len (data i));
      payload ← unpackPayloadFromBytes tail payloadSize;
      Ok (rank, payload).

(** ** Prefetching *)
Record byteRange := mk_range { r_start : Z; r_end : Z }.

(** By where they start. *)
Definition start_le (a b : byteRange) : Prop := r_start a <= r_start b.
#[export] Instance start_le_dec : RelDecision start_le.
Proof. intros a b. apply Z_le_dec. Defined.

Definition prefetchGap : Z := 16 * 2 ^ 10.

(** The inner loop: the ranges [r] swallows, and the rest. *)
Fixpoint swallow (r : byteRange) (ranges : list byteRange) : byteRange * list byteRange :=
  match ranges with
  | x :: ranges' =>
      if r_start x <=? u64 (r_end r + prefetchGap)
      then swallow (mk_range (r_start r) (Z.max (r_end r) (r_end x))) ranges'
      else (r, ranges)
  | [] => (r, [])
  end.

(** The ranges handed to [advise]; every round takes at least one range, so
    [fuel] rounds do for [fuel] ranges. *)
Fixpoint willNeed (fuel : nat) (ranges : list byteRange) : list byteRange :=
  match fuel, ranges with
  | S fuel, r :: ranges => let '(r, rest) := swallow r ranges in r :: willNeed fuel rest
  | _, _ => []
  end.

(** [slices.Compact] *)
Fixpoint compact (l : list Z) : list Z :=
  match l with
  | x :: ((y :: _) as l') => if x =? y then compact l' else x :: compact l'
  | _ => l
  end.

Definition key_block (i : Index) (key : list Z) : res (option Z) :=
  if len key <? MinKeySize then Ok None
  else
    k0 ← get_le 8 key 0;
    let b := route k0 (NumBlocks (i_header i)) in
    Ok (if u32 (b + 1) <? numRAMEntries i then Some b else None).

(** [for ... { if ok { out = append(out, x) } }] *)
Definition collect {A B} (f : A -> res (option B)) (l : list A) : res (list B) :=
  foldM (fun out a => r ← f a; Ok (match r with Some x => out ++ [x] | None => out end)) [] l.

Definition meta_range (i : Index) (b : Z) : res (option byteRange) :=
  e ← ramEntry i b;
  next ← ramEntry i (u32 (b + 1));
  let start := u64 (metadataRegionOffset i + MetadataOffset e) in
  let fin := u64 (metadataRegionOffset i + MetadataOffset next) in
  Ok (if (KeysBefore e <? KeysBefore next) && (start <? fin) && (fin <=? len (data i))
      then Some (mk_range start fin) else None).

Definition entry_range (i : Index) (key : list Z) : res (option byteRange) :=
  if len key <? MinKeySize then Ok None
  else
    match locate i key with
    | Panic => Panic
    | Err _ => Ok None
    | Ok rank =>
        if TotalKeys (i_header i) <=? rank then Ok None
        else
          let start := u64 (payloadRegionOffset i + u64 (rank * i_entrySize i)) in
          let fin := u64 (start + i_entrySize i) in
          Ok (if fin <=? len (data i) then Some (mk_range start fin) else None)
    end.

(** The ranges [prefetch] advises, in order. *)
Definition prefetch (i : Index) (keys : list (list Z)) : res (list byteRange) :=
  blocks ← collect (key_block i) keys;
  let blocks := compact (merge_sort Z.le blocks) in
  let ranges := map (fun b => let start := u64 (ramIndexOffset i + u64 (b * ramIndexEntrySize)) in
                              mk_range start (u64 (start + 2 * ramIndexEntrySize))) blocks in
  let advised := willNeed (length ranges) ranges in
  ranges ← collect (meta_range i) blocks;
  let advised := advised ++ willNeed (length ranges) ranges in
  if i_entrySize i =? 0 then Ok advised
  else
    ranges ← collect (entry_range i) keys;
    let ranges := merge_sort start_le ranges in
    Ok (advised ++ willNeed (length ranges) ranges).

(** ** Batches *)
Record Result := mk_Result { res_Rank : Z; res_Payload : Z; res_Err : option error }.

Definition batch_one (i : Index) (key : list Z) : res Result :=
  match WithPayload i with
  | Ok pi =>
      match QueryPayload pi key with
      | Ok (rank, payload) => Ok (mk_Result rank payload None)
      | Err e => Ok (mk_Result 0 0 (Some e))
      | Panic => Panic
      end
  | _ =>
      match QueryRank i key with
      | Ok rank => Ok (mk_Result rank 0 None)
      | Err e => Ok (mk_Result 0 0 (Some e))
      | Panic => Panic
      end
  end.

(** [canAdvise] is the platform's; the ranges it is told do not matter to the
    results. *)
Definition QueryBatch (canAdvise : bool) (i : Index) (keys : list (list Z)) : res (list Result) :=
  advised ← (if canAdvise && mapped i && negb (closed i) then prefetch i keys else Ok []);
  foldM (fun out key => r ← batch_one i key; Ok (out ++ [r])) [] keys.

(** ** Accessors *)
Definition NumKeys (i : Index) : Z := TotalKeys (i_header i).
Definition index_NumBlocks (i : Index) : Z := NumBlocks (i_header i).
Definition MaxBlockKeys (i : Index) : Z := 65535.
Definition index_PayloadSize (i : Index) : Z := payloadSizeInt (i_header i).
Definition UserMetadata (i : Index) : list Z := userMetadata i.

(** The page-aligned part of the payload region; [pg] is the page size. *)
Definition payloadMapping (pg : Z) (i : Index) : res (option (list Z)) :=
  let start := Z.ldiff (u64 (u64 (payloadRegionOffset i + pg) - 1)) (pg - 1) in
  let fin := Z.ldiff (metadataRegionOffset i) (pg - 1) in
  let mm := if mapped i then data i else [] in
  if (fin <=? start) || (len mm <? fin) then Ok None
  else p ← slice mm start fin; Ok (Some p).

Record Stats := mk_Stats {
  st_NumKeys : Z; st_NumBlocks : Z; BitsPerKey : spec_float; st_PayloadSize : Z;
  st_FingerprintSize : Z; FileSize : Z; OverheadBPK : spec_float; st_Algorithm : Z
}.

Definition index_Stats (i : Index) : Stats :=
  let totalSize := len (data i) in
  let bitsPerKey := if 0 <? TotalKeys (i_header i)
                    then fdiv (float64 (totalSize * 8)) (float64 (TotalKeys (i_header i))) else float64 0 in
  let payloadBits := float64 (payloadSizeInt (i_header i) * 8) in
  let fpBits := float64 (fingerprintSizeInt (i_header i) * 8) in
  mk_Stats (TotalKeys (i_header i)) (NumBlocks (i_header i)) bitsPerKey (payloadSizeInt (i_header i))
    (fingerprintSizeInt (i_header i)) totalSize (fsub (fsub bitsPerKey payloadBits) fpBits)
    (BlockAlgorithm (i_header i)).

Definition GetStats (file : res osFile) : res Stats := i ← Open file; Ok (index_Stats i).

(** ** Verify *)
Section verify.
Context `{!XXHash}.

(** The hash of a block's entries; the loop folds them in block order. *)
Definition block_payload_hash (i : Index) (blockID : Z) : res Z :=
  s ← ramEntry i blockID;
  e ← ramEntry i (u32 (blockID + 1));
  let startKey := KeysBefore s in
  let endKey := KeysBefore e in
  if endKey <? startKey then Err ErrCorruptedIndex
  else
    let numKeys := endKey - startKey in
    if (0 <? numKeys) && (0 <? i_entrySize i) then
      let payloadStart := u64 (payloadRegionOffset i + u64 (startKey * i_entrySize i)) in
      let payloadEnd := u64 (payloadRegionOffset i + u64 (endKey * i_entrySize i)) in
      if len (data i) <? payloadEnd then Err ErrCorruptedIndex
      else blockPayloads ← slice (data i) payloadStart payloadEnd; Ok (Sum64 blockPayloads)
    else Ok (Sum64 []).

Definition Verify (i : Index) : res unit :=
  if closed i then Err ErrIndexClosed
  else
    let fileSize := len (data i) in
    fb ← slice (data i) (u64 (fileSize - footerSize)) fileSize;
    ft ← decodeFooter fb;
    let numBlocks := NumBlocks (i_header i) in
    payloadHasher ← foldM (fun h blockID =>
        blockHash ← block_payload_hash i blockID;
        buf ← put_le 8 (make 0 8) 0 blockHash;
        Ok (xx_Write h buf)) xx_New (range numBlocks);
    if negb (xx_Sum64 payloadHasher =? PayloadRegionHash ft) then Err ErrChecksumFailed
    else
      let footerOffset := u64 (fileSize - footerSize) in
      if footerOffset <? metadataRegionOffset i then Err ErrCorruptedIndex
      else
        let metadataRegionSize := footerOffset - metadataRegionOffset i in
        if 0 <? metadataRegionSize then
          metadataRegion ← slice (data i) (metadataRegionOffset i) footerOffset;
          if negb (Sum64 metadataRegion =? MetadataRegionHash ft) then Err ErrChecksumFailed
          else Ok tt
        else Ok tt.
End verify.
