(* ===== verification/IndexSafe.v ===== *)
(** * An index never panics

    Whatever the bytes of the file, opening it, querying it and verifying it
    stay inside the data and end in a value or one of the documented errors. *)
From stdpp Require Import sorting.
From S2P Require Import Prelude Words Bits Encoding Key Entries Header Floats Algorithm Block Index.
Import Header.Header Header.Footer Header.RamIndex.
#[local] Open Scope Z_scope.

(** What opening establishes. *)
Record index_ok (i : Index) : Prop := {
  io_bytes : Forall is_byte (data i);
  io_len : footerSize <= len (data i) < 2 ^ 63;
  io_header : header_valid (i_header i);
  io_num : numRAMEntries i = NumBlocks (i_header i) + 1;
  io_ram_bytes : Forall is_byte (ramIndexBytes i);
  io_ram_len : len (ramIndexBytes i) = numRAMEntries i * ramIndexEntrySize;
  io_ram_off : 0 <= ramIndexOffset i;
  io_payload_off : payloadRegionOffset i = ramIndexOffset i + numRAMEntries i * ramIndexEntrySize;
  io_payload_le : payloadRegionOffset i + footerSize <= len (data i);
  io_meta_off : metadataRegionOffset i = u64 (payloadRegionOffset i + u64 (TotalKeys (i_header i) * i_entrySize i));
  io_es : i_entrySize i = entrySize (i_header i);
  io_decodes : decodes (BlockAlgorithm (i_header i)) (Seed (i_header i)) (decoder i)
}.

Definition open_errors : list error :=
  [ErrTruncatedFile; ErrInvalidMagic; ErrInvalidVersion; ErrCorruptedIndex; ErrInvalidGeometry].

Lemma io_blocks i : index_ok i -> 0 <= NumBlocks (i_header i) < 2 ^ 32 - 1.
Proof. intros [_ _ [(_ & _ & _ & H & _) (_ & _ & _ & _ & _ & Hn)] _ _ _ _ _ _ _ _ _]. unfold is_u in *. lia. Qed.

Lemma io_entry_size i : index_ok i ->
  0 <= PayloadSize (i_header i) <= 8 /\ 0 <= FingerprintSize (i_header i) <= 4 /\
  i_entrySize i = PayloadSize (i_header i) + FingerprintSize (i_header i).
Proof.
  intros [_ _ [(_ & _ & _ & _ & H1 & H2 & _) (_ & _ & H3 & H4 & _)] _ _ _ _ _ _ _ -> _].
  unfold is_u, maxPayloadSize, maxFingerprintSize in *. unfold entrySize. lia.
Qed.

Lemma bytes_slice (l : list Z) i j l' : Forall is_byte l -> slice l i j = Ok l' -> Forall is_byte l'.
Proof. intros Hl (_ & _ & ->)%slice_ok. by apply Forall_take, Forall_drop. Qed.

(** ** Opening *)
Lemma var_section_wp dat off :
  Forall is_byte dat -> len dat < 2 ^ 63 -> 0 <= off <= len dat ->
  wp (var_section dat (len dat) off)
    (fun '(section, off') => Forall is_byte section /\ off + 4 <= off' <= len dat /\ off' = off + 4 + len section)
    (fun e => e = ErrTruncatedFile).
Proof.
  intros Hb Hl Ho. unfold var_section. rewrite (u64_id (off + 4)) by (unfold is_u; lia).
  destruct (Z.ltb_spec (len dat) (off + 4)); [done |].
  rewrite get_le_window by lia. cbn [mbind res_bind].
  pose proof (le_val_bound (window dat (Z.to_nat off) 4) ltac:(by apply Forall_take, Forall_drop)) as Hv.
  rewrite length_window in Hv by (unfold len in *; lia). set (n := le_val _) in *. change (8 * Z.of_nat 4) with 32 in Hv.
  rewrite !(u64_id (off + 4 + n)) by (unfold is_u; lia).
  destruct (Z.ltb_spec (len dat) (off + 4 + n)); [done |].
  rewrite slice_in_range by lia. cbn [mbind res_bind wp]. split; [by apply Forall_take, Forall_drop |].
  unfold len in *. rewrite length_take, length_drop. lia.
Qed.

Lemma initFromData_ok m dat :
  Forall is_byte dat -> minFileSize <= len dat < 2 ^ 63 ->
  wp (initFromData m dat) (fun i => index_ok i /\ data i = dat /\ mapped i = m /\ closed i = false)
    (fun e => e ∈ open_errors).
Proof.
  intros Hb [Hmin Hl]. unfold minFileSize in Hmin. unfold initFromData.
  rewrite (slice_in_range dat 0 headerSize) by (unfold headerSize; lia). cbn [mbind res_bind].
  apply wp_bind. eapply wp_mono; [apply decodeHeader_wp; by apply Forall_take, Forall_drop | | unfold open_errors; set_solver].
  intros hdr (_ & Hh & _). apply wp_bind.
  eapply wp_mono; [apply var_section_wp; [done | done | unfold headerSize; lia] | | intros e ->; unfold open_errors; set_solver].
  intros [um off1] (Hum & Ho1 & _). apply wp_bind.
  eapply wp_mono; [apply var_section_wp; [done | done | unfold headerSize in *; lia] | | intros e ->; unfold open_errors; set_solver].
  intros [cfg off2] (Hcfg & Ho2 & _). cbv zeta.
  assert (0 <= NumBlocks hdr < 2 ^ 32 - 1) as Hnb.
  { destruct Hh as [(_ & _ & _ & H & _) (_ & _ & _ & _ & _ & Hn)]. unfold is_u in *. lia. }
  rewrite (u32_id (NumBlocks hdr + 1)) by (unfold is_u; lia). unfold headerSize, ramIndexEntrySize, footerSize in *.
  rewrite (u64_id (_ * 10)) by (unfold is_u; lia). rewrite (u64_id (off2 + _)) by (unfold is_u; lia).
  rewrite (u64_id (len dat - 32)) by (unfold is_u; lia).
  destruct (Z.ltb_spec (len dat - 32) (off2 + (NumBlocks hdr + 1) * 10)); [cbn [wp]; unfold open_errors; set_solver |].
  rewrite (slice_in_range dat off2) by lia. cbn [mbind res_bind].
  pose proof (newBlockDecoder_spec (BlockAlgorithm hdr) cfg (Seed hdr)) as Hd.
  destruct (newBlockDecoder _ _ _) as [d | e |]; cbn [mbind res_bind wp]; [| | done].
  2:{ unfold open_errors. destruct Hd as [[-> _] | [-> _]]; set_solver. }
  split; [| done]. split; cbn; try done.
  all: unfold footerSize, ramIndexEntrySize; try lia.
  - by apply Forall_take, Forall_drop.
  - unfold len in *. rewrite length_take, length_drop. lia.
  - apply Hd.
Qed.

(** ** Queries *)
Lemma ramEntry_ok i n :
  index_ok i -> 0 <= n < numRAMEntries i -> exists e, ramEntry i n = Ok e /\ entry_wf e.
Proof.
  intros Hi Hn. pose proof (io_blocks i Hi) as Hnb. pose proof (io_num i Hi) as Hnum. pose proof (io_ram_len i Hi) as Hl.
  pose proof (io_ram_bytes i Hi) as Hb. unfold ramIndexEntrySize in *.
  unfold ramEntry, ramIndexEntrySize. rewrite u64_id by (unfold is_u; lia).
  rewrite slice_in_range by lia. cbn [mbind res_bind]. set (tail := take _ _).
  assert (Forall is_byte tail) as Ht by (by apply Forall_take, Forall_drop).
  assert (10 <= len tail) as Htl by (unfold tail, len in *; rewrite length_take, length_drop; lia).
  rewrite decodeRAMIndexEntry_eq by done. eexists. split; [done |].
  assert (forall o, (o + 5 <= 10)%nat -> is_u 40 (le_val (window tail o 5))) as Hw.
  { intros o Ho. pose proof (le_val_bound (window tail o 5) ltac:(by apply Forall_take, Forall_drop)) as H.
    rewrite length_window in H by (unfold len in Htl; lia). exact H. }
  split; apply Hw; lia.
Qed.

Lemma verifyFingerprint_ok i k0 k1 rank :
  index_ok i -> is_u 41 rank ->
  wp (verifyFingerprintSeparated i k0 k1 rank) (fun _ => True) (fun e => e = ErrCorruptedIndex).
Proof.
  intros Hi Hr. pose proof (io_entry_size i Hi) as (Hp & Hf & Hes). pose proof (io_payload_le i Hi) as Hpl.
  pose proof (io_len i Hi) as Hl. pose proof (io_ram_off i Hi) as Hro. pose proof (io_payload_off i Hi) as Hpo.
  pose proof (io_blocks i Hi) as Hnb. pose proof (io_num i Hi) as Hn.
  unfold verifyFingerprintSeparated, footerSize, ramIndexEntrySize, fingerprintSizeInt, is_u in *.
  rewrite (u64_id (rank * _)) by (unfold is_u; nia). rewrite (u64_id (payloadRegionOffset i + _)) by (unfold is_u; nia).
  rewrite (u64_id (_ + FingerprintSize _)) by (unfold is_u; nia).
  destruct (Z.ltb_spec (len (data i)) (payloadRegionOffset i + rank * i_entrySize i + FingerprintSize (i_header i))); [done |].
  rewrite slice_in_range by nia. cbn [mbind res_bind].
  rewrite unpackFingerprintFromBytes_eq; [done | by apply Forall_take, Forall_drop, Hi | lia |].
  unfold len in *. rewrite length_take, length_drop. nia.
Qed.

Definition query_errors : list error := [ErrNotFound; ErrCorruptedIndex].

Lemma route_lt k0 n : is_u 64 k0 -> is_u 32 n -> 0 < n -> 0 <= route k0 n < n.
Proof. intros H Hn Hp. apply FastRange32_lt; [apply reverse_bytes64_is | done | done]. Qed.

Lemma key_word key o : Forall is_byte key -> 0 <= o -> o + 8 <= len key -> exists k, get_le 8 key o = Ok k /\ is_u 64 k.
Proof.
  intros Hb Ho Hl. rewrite get_le_window by lia. eexists. split; [done |].
  pose proof (le_val_bound (window key (Z.to_nat o) 8) ltac:(by apply Forall_take, Forall_drop)) as H.
  by rewrite length_window in H by (unfold len in *; lia).
Qed.

Lemma lookup_index_ok i key check :
  index_ok i -> Forall is_byte key -> MinKeySize <= len key ->
  wp (lookup_index i key check) (is_u 41) (fun e => e ∈ query_errors).
Proof.
  intros Hi Hb Hl. unfold MinKeySize in Hl. unfold lookup_index, query_errors.
  destruct (key_word key 0 Hb) as (k0 & -> & Hk0); [lia | lia |].
  destruct (key_word key 8 Hb) as (k1 & -> & Hk1); [lia | lia |]. cbn [mbind res_bind].
  pose proof (io_blocks i Hi) as Hnb. pose proof (io_num i Hi) as Hnum.
  set (b := route k0 _). assert (0 <= b /\ (b < NumBlocks (i_header i) \/ b = 0)) as Hbk.
  { destruct (Z.eq_dec (NumBlocks (i_header i)) 0) as [E |].
    - unfold b. rewrite E. split; [done | by right].
    - pose proof (route_lt k0 (NumBlocks (i_header i)) Hk0) as H. fold b in H. unfold is_u in *. lia. }
  rewrite (u32_id (b + 1)) by (unfold is_u; lia). destruct (Z.leb_spec (numRAMEntries i) (b + 1)); [cbn [wp]; set_solver |].
  destruct (ramEntry_ok i b Hi) as (e & -> & He); [lia |]. destruct (ramEntry_ok i (b + 1) Hi) as (e' & -> & He'); [lia |].
  cbn [mbind res_bind]. destruct He as [He1 He2], He' as [He1' He2'].
  destruct (Z.ltb_spec (KeysBefore e') (KeysBefore e)); [cbn [wp]; set_solver |].
  destruct (Z.eqb_spec (KeysBefore e' - KeysBefore e) 0); [cbn [wp]; set_solver |].
  set (ms := u64 (_ + MetadataOffset e)). set (me := u64 (_ + MetadataOffset e')).
  destruct (Z.leb_spec me ms); cbn [orb]; [cbn [wp]; set_solver |].
  destruct (Z.ltb_spec (len (data i)) me); [cbn [wp]; set_solver |].
  pose proof (u64_is (metadataRegionOffset i + MetadataOffset e)) as Hms. fold ms in Hms.
  rewrite slice_in_range by (unfold is_u in Hms; lia). cbn [mbind res_bind]. apply wp_bind.
  pose proof (io_header i Hi) as [(_ & _ & _ & _ & _ & _ & Hs & _) _].
  eapply wp_mono; [apply (QuerySlot_wp _ _ _ _ _ _ _ (io_decodes i Hi)); try done | | intros x [-> | ->]; set_solver].
  { by apply Forall_take, Forall_drop, Hi. } { unfold is_u in *; lia. }
  intros slot Hslot. rewrite u64_id by (unfold is_u in *; lia).
  assert (is_u 41 (KeysBefore e + slot)) as Hrank by (unfold is_u in *; lia).
  destruct (check && hasFingerprint (i_header i)); [| done]. apply wp_bind.
  eapply wp_mono; [by apply verifyFingerprint_ok | | intros x ->; set_solver]. intros [|] _; cbn; [done | set_solver].
Qed.

Lemma QueryRank_ok i key :
  index_ok i -> Forall is_byte key ->
  wp (QueryRank i key) (is_u 41) (fun e => e ∈ [ErrIndexClosed; ErrKeyTooShort; ErrNotFound; ErrCorruptedIndex]).
Proof.
  intros Hi Hb. unfold QueryRank. destruct (closed i); [cbn [wp]; set_solver |].
  destruct (Z.ltb_spec (len key) MinKeySize); [cbn [wp]; set_solver |].
  eapply wp_mono; [by apply lookup_index_ok | done | unfold query_errors; set_solver].
Qed.

Lemma QueryPayload_ok i key :
  index_ok i -> Forall is_byte key ->
  wp (QueryPayload i key) (fun '(rank, payload) => is_u 41 rank /\ is_u (8 * PayloadSize (i_header i)) payload)
    (fun e => e ∈ [ErrIndexClosed; ErrKeyTooShort; ErrNotFound; ErrCorruptedIndex]).
Proof.
  intros Hi Hb. unfold QueryPayload. destruct (closed i); [cbn [wp]; set_solver |].
  destruct (Z.ltb_spec (len key) MinKeySize); [cbn [wp]; set_solver |]. apply wp_bind.
  eapply wp_mono; [by apply lookup_index_ok | | unfold query_errors; set_solver]. intros rank Hr.
  pose proof (io_entry_size i Hi) as (Hp & Hf & Hes). pose proof (io_payload_le i Hi) as Hpl.
  pose proof (io_len i Hi) as Hl. pose proof (io_ram_off i Hi) as Hro. pose proof (io_payload_off i Hi) as Hpo.
  pose proof (io_blocks i Hi) as Hnb. pose proof (io_num i Hi) as Hn.
  unfold footerSize, ramIndexEntrySize, fingerprintSizeInt, payloadSizeInt, is_u in *.
  rewrite (u64_id (rank * _)) by (unfold is_u; nia). rewrite (u64_id (payloadRegionOffset i + _)) by (unfold is_u; nia).
  rewrite (u64_id (_ + FingerprintSize _)) by (unfold is_u; nia). rewrite (u64_id (_ + PayloadSize _)) by (unfold is_u; nia).
  set (off := payloadRegionOffset i + rank * i_entrySize i + FingerprintSize (i_header i)).
  destruct (Z.ltb_spec (len (data i)) (off + PayloadSize (i_header i))); [cbn [wp]; set_solver |].
  assert (0 <= off) by (unfold off; nia). rewrite slice_in_range by lia. cbn [mbind res_bind]. set (tail := take _ _).
  assert (Forall is_byte tail) as Ht by (by apply Forall_take, Forall_drop, Hi).
  assert (PayloadSize (i_header i) <= len tail) as Htl by (unfold tail, len in *; rewrite length_take, length_drop; lia).
  rewrite unpackPayloadFromBytes_eq by (done || lia). cbn [mbind res_bind wp]. split; [done |].
  pose proof (le_val_take_is (Z.to_nat (PayloadSize (i_header i))) tail Ht ltac:(lia)) as Hbd.
  by rewrite Z2Nat.id in Hbd by lia.
Qed.

(** ** Verify *)
Section verify.
Context `{!XXHash}.

Lemma block_payload_hash_ok i b :
  index_ok i -> 0 <= b < NumBlocks (i_header i) ->
  wp (block_payload_hash i b) (fun _ => True) (fun e => e = ErrCorruptedIndex).
Proof.
  intros Hi Hb. pose proof (io_blocks i Hi) as Hnb. pose proof (io_num i Hi) as Hnum.
  pose proof (io_entry_size i Hi) as (Hp & Hf & Hes). pose proof (io_payload_le i Hi) as Hpl.
  pose proof (io_len i Hi) as Hl. pose proof (io_ram_off i Hi) as Hro. pose proof (io_payload_off i Hi) as Hpo.
  unfold block_payload_hash. rewrite (u32_id (b + 1)) by (unfold is_u; lia).
  destruct (ramEntry_ok i b Hi) as (s & -> & [Hs _]); [lia |]. destruct (ramEntry_ok i (b + 1) Hi) as (e & -> & [He _]); [lia |].
  cbn [mbind res_bind]. destruct (Z.ltb_spec (KeysBefore e) (KeysBefore s)); [done |].
  destruct ((0 <? KeysBefore e - KeysBefore s) && (0 <? i_entrySize i)); [| done].
  unfold footerSize, ramIndexEntrySize, is_u in *.
  rewrite (u64_id (KeysBefore s * _)), (u64_id (KeysBefore e * _)) by (unfold is_u; nia).
  rewrite !u64_id by (unfold is_u; nia).
  destruct (Z.ltb_spec (len (data i)) (payloadRegionOffset i + KeysBefore e * i_entrySize i)); [done |].
  rewrite slice_in_range by nia. done.
Qed.

Lemma Verify_ok i :
  index_ok i -> wp (Verify i) (fun _ => True)
    (fun e => e ∈ [ErrIndexClosed; ErrCorruptedIndex; ErrChecksumFailed]).
Proof.
  intros Hi. pose proof (io_len i Hi) as Hl. unfold footerSize in Hl. unfold Verify, footerSize.
  destruct (closed i); [cbn [wp]; set_solver |]. rewrite (u64_id (len (data i) - 32)) by (unfold is_u; lia).
  rewrite (slice_in_range (data i) (len (data i) - 32)) by lia. cbn [mbind res_bind]. set (fb := take _ _).
  assert (len fb = 32) as Hfl by (unfold fb, len in *; rewrite length_take, length_drop; lia).
  assert (exists ft, decodeFooter fb = Ok ft) as (ft & ->).
  { unfold decodeFooter, footerSize. destruct (Z.ltb_spec (len fb) 32); [lia |].
    destruct (get_le_range 8 fb 0) as (x & ->); [lia | lia |]. destruct (get_le_range 8 fb 8) as (y & ->); [lia | lia |].
    rewrite slice_in_range by lia. cbn [mbind res_bind]. by eexists. }
  cbn [mbind res_bind]. apply wp_bind. eapply wp_mono;
    [apply (wp_foldM (fun _ => True) (fun e => e = ErrCorruptedIndex)); [done |] | | intros e ->; set_solver].
  { intros b h Hb%elem_of_range _. apply wp_bind. eapply wp_mono; [by apply block_payload_hash_ok | | done].
    intros bh _. unfold put_le. rewrite store_range by (rewrite ?len_le_bytes, ?len_make; lia). done. }
  intros h _. destruct (xx_Sum64 h =? PayloadRegionHash ft); cbn [negb]; [| cbn [wp]; set_solver].
  destruct (Z.ltb_spec (len (data i) - 32) (metadataRegionOffset i)); [cbn [wp]; set_solver |].
  destruct (0 <? _); [| done].
  pose proof (io_meta_off i Hi) as Hmo. pose proof (u64_is (payloadRegionOffset i + u64 (TotalKeys (i_header i) * i_entrySize i))) as Hu.
  rewrite <- Hmo in Hu. rewrite slice_in_range by (unfold is_u in *; lia). cbn [mbind res_bind].
  destruct (Sum64 _ =? _); cbn [negb wp]; [done | set_solver].
Qed.
End verify.

(** ** Prefetching stays inside the file *)
Definition in_file (i : Index) (r : byteRange) : Prop := 0 <= r_start r <= r_end r /\ r_end r <= len (data i).

Lemma swallow_in i rs : forall r r' rest,
  in_file i r -> Forall (in_file i) rs -> swallow r rs = (r', rest) -> in_file i r' /\ Forall (in_file i) rest.
Proof.
  induction rs as [| x rs IH]; intros r r' rest Hr Hrs; cbn [swallow]; [intros [= <- <-]; done |].
  apply Forall_cons in Hrs as [Hx Hrs]. destruct (_ <=? _).
  - apply IH; [| done]. destruct Hr, Hx. split; cbn; lia.
  - intros [= <- <-]. by split; [| constructor].
Qed.

Lemma willNeed_in i fuel : forall rs, Forall (in_file i) rs -> Forall (in_file i) (willNeed fuel rs).
Proof.
  induction fuel as [| fuel IH]; intros rs Hrs; [destruct rs; constructor |].
  destruct rs as [| r rs]; [constructor |]. cbn [willNeed].
  apply Forall_cons in Hrs as [Hr Hrs]. destruct (swallow r rs) as [r' rest] eqn:Hs.
  destruct (swallow_in i rs r r' rest Hr Hrs Hs). constructor; [done | by apply IH].
Qed.

Lemma collect_wp {A B} (f : A -> res (option B)) (P : B -> Prop) l :
  (forall a, a ∈ l -> wp (f a) (fun r => forall x, r = Some x -> P x) no_err) -> wp (collect f l) (Forall P) no_err.
Proof.
  intros Hf. unfold collect. apply wp_foldM; [constructor |]. intros a out Ha Ho. apply wp_bind.
  eapply wp_mono; [by apply Hf | | done]. intros [x |] Hx; cbn [wp]; [| done].
  apply Forall_app. split; [done |]. apply Forall_singleton. by apply Hx.
Qed.

Lemma compact_Forall (P : Z -> Prop) l : Forall P l -> Forall P (compact l).
Proof.
  induction l as [| x l IH]; intros H; [done |]. apply Forall_cons in H as [Hx Hl]. specialize (IH Hl).
  destruct l as [| y l]; cbn [compact]; [by constructor |]. by destruct (x =? y); [| constructor].
Qed.

Lemma prefetch_ok i keys :
  index_ok i -> Forall (Forall is_byte) keys -> wp (prefetch i keys) (Forall (in_file i)) no_err.
Proof.
  intros Hi Hk. pose proof (io_blocks i Hi) as Hnb. pose proof (io_num i Hi) as Hnum.
  pose proof (io_entry_size i Hi) as (Hp & Hf & Hes). pose proof (io_payload_le i Hi) as Hpl.
  pose proof (io_len i Hi) as Hl. pose proof (io_ram_off i Hi) as Hro. pose proof (io_payload_off i Hi) as Hpo.
  rewrite Forall_forall in Hk. unfold footerSize, ramIndexEntrySize in *. unfold prefetch. apply wp_bind.
  eapply wp_mono; [apply (collect_wp _ (fun b => 0 <= b /\ b + 1 < numRAMEntries i)) | | done].
  { intros key Hkey. unfold key_block, MinKeySize. destruct (Z.ltb_spec (len key) 16); [done |].
    destruct (key_word key 0 (Hk _ Hkey)) as (k0 & -> & Hk0); [lia | lia |]. cbn [mbind res_bind wp]. intros x Hx.
    pose proof (FastRange32_is (reverse_bytes64 k0) (NumBlocks (i_header i))) as Hr. unfold is_u in Hr.
    fold (route k0 (NumBlocks (i_header i))) in Hr. set (b := route _ _) in *.
    assert (b < 2 ^ 32 - 1) as Hb.
    { destruct (Z.eq_dec (NumBlocks (i_header i)) 0) as [E |]; [unfold b; rewrite E; done |].
      pose proof (route_lt k0 (NumBlocks (i_header i)) Hk0) as H'. fold b in H'. unfold is_u in H'. lia. }
    rewrite u32_id in Hx by (unfold is_u; lia). destruct (Z.ltb_spec (b + 1) (numRAMEntries i)); [| done].
    injection Hx as <-. lia. }
  intros blocks Hbl. set (bs := compact _). assert (Forall (fun b => 0 <= b /\ b + 1 < numRAMEntries i) bs) as Hbs.
  { apply compact_Forall. by rewrite merge_sort_Permutation. }
  set (r1 := map _ bs). assert (Forall (in_file i) r1) as Hr1.
  { unfold r1. apply Forall_fmap. eapply Forall_impl; [exact Hbs |]. intros b [Hb0 Hb1]. cbn. unfold ramIndexEntrySize, in_file; cbn.
    rewrite (u64_id (b * 10)) by (unfold is_u; lia). rewrite (u64_id (ramIndexOffset i + b * 10)) by (unfold is_u; lia).
    rewrite u64_id by (unfold is_u; lia). lia. }
  apply wp_bind. eapply wp_mono; [apply (collect_wp _ (in_file i)) | | done].
  { intros b Hb. rewrite Forall_forall in Hbs. specialize (Hbs b Hb) as [Hb0 Hb1]. unfold meta_range.
    rewrite u32_id by (unfold is_u; lia).
    destruct (ramEntry_ok i b Hi) as (s & -> & [Hs _]); [lia |]. destruct (ramEntry_ok i (b + 1) Hi) as (e & -> & [He _]); [lia |].
    cbn [mbind res_bind wp]. intros x.
    pose proof (u64_is (metadataRegionOffset i + MetadataOffset s)) as Hu. set (ms := u64 _) in *. set (me := u64 (_ + MetadataOffset e)).
    destruct (Z.ltb_spec (KeysBefore s) (KeysBefore e)), (Z.ltb_spec ms me), (Z.leb_spec me (len (data i))); try done.
    cbn [andb]. intros [= <-]. unfold in_file, is_u in *; cbn. lia. }
  intros r2 Hr2. destruct (i_entrySize i =? 0).
  { cbn [wp]. apply Forall_app. split; by apply willNeed_in. }
  apply wp_bind. eapply wp_mono; [apply (collect_wp _ (in_file i)) | | done].
  { intros key Hkey. unfold entry_range. destruct (Z.ltb_spec (len key) MinKeySize); [done |].
    pose proof (lookup_index_ok i key false Hi (Hk _ Hkey)) as Hlk. unfold locate.
    destruct (lookup_index i key false) as [rank | e |]; [| done | by specialize (Hlk ltac:(lia))].
    specialize (Hlk ltac:(lia)). cbn [wp] in Hlk. destruct (_ <=? rank); [done |]. unfold is_u in Hlk.
    rewrite (u64_id (rank * _)) by (unfold is_u; nia). rewrite (u64_id (payloadRegionOffset i + _)) by (unfold is_u; nia).
    rewrite u64_id by (unfold is_u; nia). cbn [wp]. intros x.
    destruct (Z.leb_spec (payloadRegionOffset i + rank * i_entrySize i + i_entrySize i) (len (data i))); [| done].
    intros [= <-]. unfold in_file; cbn. nia. }
  intros r3 Hr3. cbn [wp]. rewrite !Forall_app. split_and!; try by apply willNeed_in.
  apply willNeed_in. by rewrite merge_sort_Permutation.
Qed.

Lemma batch_one_ok i key : index_ok i -> Forall is_byte key -> exists r, batch_one i key = Ok r.
Proof.
  intros Hi Hb. pose proof (QueryRank_ok i key Hi Hb) as H1. pose proof (QueryPayload_ok i key Hi Hb) as H2.
  unfold batch_one, WithPayload. destruct (_ =? 0).
  - destruct (QueryRank i key); [by eexists .. | done].
  - destruct (QueryPayload i key) as [[rank payload] | |]; [by eexists .. | done].
Qed.

Lemma QueryBatch_ok canAdvise i keys :
  index_ok i -> Forall (Forall is_byte) keys ->
  exists rs, QueryBatch canAdvise i keys = Ok rs /\ Forall2 (fun key r => batch_one i key = Ok r) keys rs.
Proof.
  intros Hi Hk. unfold QueryBatch.
  assert (exists rs, (if canAdvise && mapped i && negb (closed i) then prefetch i keys else Ok []) = Ok rs) as (adv & ->).
  { destruct (_ && _); [| by eexists]. destruct (wp_total _ _ (prefetch_ok i keys Hi Hk)) as (rs & -> & _). by eexists. }
  cbn [mbind res_bind]. assert (forall l out, Forall (Forall is_byte) l ->
    exists rs, foldM (fun out key => r ← batch_one i key; Ok (out ++ [r])) out l = Ok (out ++ rs) /\
      Forall2 (fun key r => batch_one i key = Ok r) l rs) as H.
  { induction l as [| key l IH]; intros out Hl; [exists []; rewrite app_nil_r; split; [done | constructor] |].
    apply Forall_cons in Hl as [Hkey Hl]. cbn [foldM]. destruct (batch_one_ok i key Hi Hkey) as (r & Hr).
    rewrite Hr. cbn [mbind res_bind]. destruct (IH (out ++ [r]) Hl) as (rs & -> & Hrs).
    exists (r :: rs). split; [by rewrite <- app_assoc | by constructor]. }
  apply (H keys [] Hk).
Qed.

(** ** The safety of the reader *)
Section reader.
Context `{!XXHash}.

(** C13: an index reader is safe on untrusted bytes. Opening any byte string
    ends in an index or one of five errors. Whatever was opened, no query, batch
    or verification panics: a query returns a rank below 2^41 (and a payload of
    the header's width) or one of the documented errors, a batch answers every
    key, and the ranges it prefetches lie in the file. *)
Theorem index_never_panics dat :
  Forall is_byte dat -> len dat < 2 ^ 63 ->
  wp (OpenBytes dat) (fun i => data i = dat /\
    (forall key, Forall is_byte key ->
       wp (QueryRank i key) (is_u 41) (fun e => e ∈ [ErrIndexClosed; ErrKeyTooShort; ErrNotFound; ErrCorruptedIndex]) /\
       wp (QueryPayload i key) (fun '(rank, payload) => is_u 41 rank /\ is_u (8 * PayloadSize (i_header i)) payload)
         (fun e => e ∈ [ErrIndexClosed; ErrKeyTooShort; ErrNotFound; ErrCorruptedIndex])) /\
    (forall keys, Forall (Forall is_byte) keys ->
       wp (prefetch i keys) (Forall (in_file i)) no_err /\
       forall canAdvise, exists rs, QueryBatch canAdvise i keys = Ok rs /\ length rs = length keys) /\
    wp (Verify i) (fun _ => True) (fun e => e ∈ [ErrIndexClosed; ErrCorruptedIndex; ErrChecksumFailed]))
    (fun e => e ∈ open_errors).
Proof.
  intros Hb Hl. unfold OpenBytes. destruct (Z.ltb_spec (len dat) minFileSize); [cbn [wp]; unfold open_errors; set_solver |].
  eapply wp_mono; [by apply initFromData_ok | | done]. intros i (Hi & Hd & _ & _). split; [exact Hd |]. split_and!.
  - intros key Hk. split; [by apply QueryRank_ok | by apply QueryPayload_ok].
  - intros keys Hk. split; [by apply prefetch_ok |]. intros canAdvise.
    destruct (QueryBatch_ok canAdvise i keys Hi Hk) as (rs & Hrs & H2). exists rs. split; [done |].
    symmetry. by eapply Forall2_length.
  - by apply Verify_ok.
Qed.
End reader.

(** An index of no keys in two blocks, padded to the smallest size accepted. *)
Definition empty_file : list Z :=
  header_bytes (mk_header magic version 0 2 4 1 7 0 (make 0 31)) ++ make 0 240.

Lemma index_never_panics_witness :
  exists i, OpenBytes empty_file = Ok i /\
    wp (QueryRank i (range 16)) (is_u 41) (fun e => e ∈ [ErrIndexClosed; ErrKeyTooShort; ErrNotFound; ErrCorruptedIndex]) /\
    wp (@Verify poly_hash i) (fun _ => True) (fun e => e ∈ [ErrIndexClosed; ErrCorruptedIndex; ErrChecksumFailed]).
Proof.
  assert (Forall is_byte empty_file) as Hb by (apply Forall_app; split; [| apply Forall_replicate; unfold_words; lia];
    apply header_bytes_ok; unfold header_wf, is_u; cbn -[Z.pow];
    split_and!; try done; repeat constructor; unfold_words; lia).
  pose proof (@index_never_panics poly_hash empty_file Hb ltac:(vm_compute; reflexivity)) as H.
  destruct (OpenBytes empty_file) as [i | e |] eqn:Ho; [| vm_compute in Ho; discriminate Ho | vm_compute in Ho; discriminate Ho].
  exists i. destruct H as (_ & Hq & _ & Hv). split; [reflexivity |]. split; [| exact Hv].
  apply (Hq (range 16)). repeat constructor; unfold_words; lia.
Defined.
