(* ===== verification/Image.v ===== *)
(** * The image of an index file

    What a finished index file holds, as a value: the configuration, the user
    metadata and the blocks, and the bytes they are laid out to. The writer is
    proved to leave these bytes, the reader to answer queries from them. *)
From S2P Require Import Prelude Words Bits Encoding Key Entries Header Algorithm Block Index.
Import Header.Header Header.Footer Header.RamIndex.
#[local] Open Scope Z_scope.

(** A finished block: its keys, its metadata and its entries. *)
Record blockData := mk_blk { bd_keys : list key; bd_meta : list Z; bd_pay : list Z }.

Record image := mk_image { im_cfg : config; im_user : list Z; im_blocks : list blockData }.

Definition keys_of (bs : list blockData) : list key := concat (map bd_keys bs).
Definition metas_of (bs : list blockData) : list Z := concat (map bd_meta bs).
Definition pays_of (bs : list blockData) : list Z := concat (map bd_pay bs).

(** The RAM index: what comes before each block, and the sentinel. *)
Fixpoint ram_entries (kb mo : Z) (bs : list blockData) : list ramIndexEntry :=
  mk_entry kb mo ::
  match bs with
  | [] => []
  | b :: bs => ram_entries (kb + len (bd_keys b)) (mo + len (bd_meta b)) bs
  end.

Definition ram_bytes (es : list ramIndexEntry) : list Z := concat (map ram_entry_bytes es).

Section image.
Context `{!XXHash}.

Definition image_header (m : image) : header :=
  let c := im_cfg m in
  mk_header magic version (len (keys_of (im_blocks m))) (len (im_blocks m)) (c_ps c) (c_fps c) (c_seed c)
    (c_algo c) (make 0 31).

Definition payload_hash (bs : list blockData) : Z :=
  Sum64 (concat (map (fun b => le_bytes 8 (Sum64 (bd_pay b))) bs)).

Definition image_footer (m : image) : footer :=
  mk_footer (payload_hash (im_blocks m)) (Sum64 (metas_of (im_blocks m))) (make 0 16).

(** The bytes before the RAM index. *)
Definition image_prefix (m : image) : list Z :=
  header_bytes (image_header m) ++ le_bytes 4 (len (im_user m)) ++ im_user m ++ le_bytes 4 0.

Definition image_bytes (m : image) : list Z :=
  image_prefix m ++ ram_bytes (ram_entries 0 0 (im_blocks m)) ++ pays_of (im_blocks m) ++
  metas_of (im_blocks m) ++ footer_bytes (image_footer m).
End image.

(** A block that holds its keys. *)
Record block_ok (c : config) (b : blockData) : Prop := {
  bo_keys : Forall (bkey_ok (c_fps c)) (bd_keys b);
  bo_fp : Forall (fun k => k_fp k = extractFingerprint (k_0 k) (k_1 k) (c_fps c)) (bd_keys b);
  bo_pay : len (bd_pay b) = len (bd_keys b) * c_entrySize c;
  bo_pay_bytes : Forall is_byte (bd_pay b);
  bo_meta : minMetadata <= len (bd_meta b);
  bo_meta_bytes : Forall is_byte (bd_meta b);
  bo_built : block_built decodes c (bd_keys b) (bd_meta b) (bd_pay b)
}.

(** The keys of a block are the ones routed to it. *)
Definition routed (nb : Z) (bs : list blockData) : Prop :=
  forall j b, bs !! j = Some b -> Forall (fun k => route (k_0 k) nb = Z.of_nat j) (bd_keys b).

Record image_ok (m : image) : Prop := {
  mo_cfg : config_ok (im_cfg m);
  mo_algo : c_algo (im_cfg m) = AlgoBijection \/ c_algo (im_cfg m) = AlgoPTRHash;
  mo_user : Forall is_byte (im_user m);
  mo_user_len : is_u 32 (len (im_user m));
  mo_num : 2 <= len (im_blocks m) < 2 ^ 32 - 1;
  mo_blocks : Forall (block_ok (im_cfg m)) (im_blocks m);
  mo_routed : routed (len (im_blocks m)) (im_blocks m);
  mo_total : is_u 40 (len (keys_of (im_blocks m)));
  mo_metas : is_u 40 (len (metas_of (im_blocks m)))
}.

(** ** Sizes *)
Lemma len_concat_map_app {A B} (f : A -> list B) l k :
  len (concat (map f (l ++ k))) = len (concat (map f l)) + len (concat (map f k)).
Proof. by rewrite map_app, concat_app, len_app. Qed.

Lemma len_ram_bytes es : len (ram_bytes es) = 10 * len es.
Proof.
  unfold ram_bytes. induction es as [| e es IH]; [done |]. cbn [map concat]. rewrite len_app, IH, len_ram_entry_bytes, len_cons. lia.
Qed.

Lemma len_ram_entries bs : forall kb mo, len (ram_entries kb mo bs) = len bs + 1.
Proof.
  induction bs as [| b bs IH]; intros kb mo; [done |]. cbn [ram_entries]. rewrite len_cons, IH, len_cons. lia.
Qed.

Lemma ram_entries_lookup bs : forall kb mo j, (j <= length bs)%nat ->
  ram_entries kb mo bs !! j =
  Some (mk_entry (kb + len (keys_of (take j bs))) (mo + len (metas_of (take j bs)))).
Proof.
  induction bs as [| b bs IH]; intros kb mo [| j] Hj; cbn in Hj; try lia.
  - cbn. by rewrite !Z.add_0_r.
  - cbn. by rewrite !Z.add_0_r.
  - cbn [ram_entries lookup list_lookup take]. rewrite IH by lia. unfold keys_of, metas_of. cbn [map concat].
    rewrite !len_app. do 2 f_equal; lia.
Qed.

Lemma ram_bytes_ok es : Forall is_byte (ram_bytes es).
Proof.
  unfold ram_bytes. apply Forall_concat, Forall_fmap, Forall_forall. intros e _. cbn.
  apply Forall_app; split; apply le_bytes_bytes.
Qed.

(** The entry of block [j] in the bytes of the RAM index. *)
Lemma ram_bytes_drop es j e :
  es !! j = Some e -> exists tail, drop (10 * j) (ram_bytes es) = ram_entry_bytes e ++ tail.
Proof.
  revert j. induction es as [| e0 es IH]; intros [| j]; [done | done | |].
  - intros [= ->]. exists (ram_bytes es). done.
  - intros Hj. destruct (IH j Hj) as (tail & Ht). exists tail. rewrite <- Ht.
    unfold ram_bytes. cbn [map concat]. pose proof (len_ram_entry_bytes e0) as Hl. unfold len in Hl.
    rewrite drop_app_ge by lia. f_equal. lia.
Qed.

(** ** Finding a block in a concatenation *)
Lemma concat_split {A B} (f : A -> list B) l j x :
  l !! j = Some x -> concat (map f l) = concat (map f (take j l)) ++ f x ++ concat (map f (drop (S j) l)).
Proof.
  intros Hj. rewrite <- (take_drop_middle l j x Hj) at 1. by rewrite map_app, concat_app.
Qed.

Lemma len_take_le {A B} (f : A -> list B) l j : len (concat (map f (take j l))) <= len (concat (map f l)).
Proof.
  rewrite <- (take_drop j l) at 2. rewrite len_concat_map_app. pose proof (len_nonneg (concat (map f (drop j l)))). lia.
Qed.

Lemma len_take_succ {A B} (f : A -> list B) l j x :
  l !! j = Some x -> len (concat (map f (take (S j) l))) = len (concat (map f (take j l))) + len (f x).
Proof. intros Hj. rewrite (take_S_r _ _ _ Hj), len_concat_map_app. cbn [map concat]. by rewrite app_nil_r. Qed.

Lemma len_pays c bs : Forall (block_ok c) bs -> len (pays_of bs) = len (keys_of bs) * c_entrySize c.
Proof.
  unfold pays_of, keys_of. induction 1 as [| b bs Hb _ IH]; [done |]. cbn [map concat].
  rewrite !len_app, IH, (bo_pay _ _ Hb). lia.
Qed.

Lemma pays_bytes c bs : Forall (block_ok c) bs -> Forall is_byte (pays_of bs).
Proof. intros H. apply Forall_concat, Forall_fmap. eapply Forall_impl; [exact H |]. intros b Hb. apply Hb. Qed.

Lemma metas_bytes c bs : Forall (block_ok c) bs -> Forall is_byte (metas_of bs).
Proof. intros H. apply Forall_concat, Forall_fmap. eapply Forall_impl; [exact H |]. intros b Hb. apply Hb. Qed.

Lemma len_metas c bs : Forall (block_ok c) bs -> minMetadata * len bs <= len (metas_of bs).
Proof.
  unfold metas_of. induction 1 as [| b bs Hb _ IH]; [done |]. cbn [map concat].
  rewrite len_app, len_cons. pose proof (bo_meta _ _ Hb). unfold minMetadata in *. lia.
Qed.

Section image_facts.
Context `{!XXHash}.

Lemma config_header_wf c n k : config_ok c -> c_algo c = AlgoBijection \/ c_algo c = AlgoPTRHash ->
  is_u 64 n -> is_u 32 k -> header_wf (mk_header magic version n k (c_ps c) (c_fps c) (c_seed c) (c_algo c) (make 0 31)).
Proof.
  intros [Hs Hp Hf] Ha Hn Hk. unfold maxPayloadSize, maxFingerprintSize in *.
  unfold header_wf; cbn [Magic Version TotalKeys NumBlocks PayloadSize FingerprintSize Seed BlockAlgorithm Reserved].
  assert (is_u 16 (c_algo c)) by (destruct Ha as [-> | ->]; unfold is_u, AlgoBijection, AlgoPTRHash; lia).
  unfold is_u in *. split_and!; try lia; try done. apply Forall_replicate. unfold_words. lia.
Qed.

Lemma image_header_wf m : image_ok m -> header_wf (image_header m).
Proof.
  intros [Hc Ha _ _ Hn _ _ Ht _]. apply config_header_wf; [done | done | | unfold is_u; lia]. unfold is_u in *. lia.
Qed.

Lemma image_header_valid m : image_ok m -> header_valid (image_header m).
Proof.
  intros Hm. split; [by apply image_header_wf |]. destruct Hm as [[Hs Hp Hf] _ _ _ Hn _ _ _ _]. cbn.
  split_and!; try done; lia.
Qed.

Lemma len_image_prefix m : image_ok m -> len (image_prefix m) = 72 + len (im_user m).
Proof.
  intros Hm. unfold image_prefix. rewrite !len_app, (len_header_bytes _ (image_header_wf m Hm)), !len_le_bytes. lia.
Qed.

Lemma image_footer_wf m : @XXHashLaws _ -> footer_wf (image_footer m).
Proof.
  intros HL. split_and!; try apply Sum64_is; [done | apply Forall_replicate; unfold_words; lia].
Qed.

Lemma len_image_bytes m : @XXHashLaws _ -> image_ok m ->
  len (image_bytes m) = 72 + len (im_user m) + 10 * (len (im_blocks m) + 1) +
    len (keys_of (im_blocks m)) * c_entrySize (im_cfg m) + len (metas_of (im_blocks m)) + 32.
Proof.
  intros HL Hm. unfold image_bytes. rewrite !len_app, (len_image_prefix m Hm), len_ram_bytes, len_ram_entries.
  rewrite (len_pays (im_cfg m)) by apply Hm. rewrite (len_footer_bytes _ (image_footer_wf m HL)). lia.
Qed.

Lemma footer_bytes_ok f : footer_wf f -> Forall is_byte (footer_bytes f).
Proof.
  intros (_ & _ & _ & Hr). unfold footer_bytes. repeat (apply Forall_app; split); try apply le_bytes_bytes. done.
Qed.

Lemma image_bytes_ok m : @XXHashLaws _ -> image_ok m -> Forall is_byte (image_bytes m).
Proof.
  intros HL Hm. unfold image_bytes, image_prefix. rewrite !Forall_app. split_and!; try apply le_bytes_bytes.
  - by apply header_bytes_ok, image_header_wf.
  - apply Hm.
  - apply ram_bytes_ok.
  - by eapply pays_bytes, Hm.
  - by eapply metas_bytes, Hm.
  - by apply footer_bytes_ok, image_footer_wf.
Qed.
End image_facts.
