(* ===== verification/IndexQuery.v ===== *)
(** * Querying a finished index file

    Opening the bytes of an image gives an index that answers every key of the
    image with its rank and payload, and that verifies. *)
From S2P Require Import Prelude Words Bits Encoding Key Entries Header Algorithm Block Index IndexSafe Image.
Import Header.Header Header.Footer Header.RamIndex.
#[local] Open Scope Z_scope.

Lemma var_section_at pre sec post n off :
  len (pre ++ le_bytes 4 (len sec) ++ sec ++ post) < 2 ^ 63 -> is_u 32 (len sec) ->
  n = len (pre ++ le_bytes 4 (len sec) ++ sec ++ post) -> off = len pre ->
  var_section (pre ++ le_bytes 4 (len sec) ++ sec ++ post) n off = Ok (sec, off + 4 + len sec).
Proof.
  intros Hl Hs -> ->. pose proof Hl as Hl'. rewrite !len_app, len_le_bytes in Hl'.
  pose proof (len_nonneg pre). pose proof (len_nonneg post). unfold is_u in Hs. change (Z.of_nat 4) with 4 in Hl'.
  unfold var_section. rewrite (u64_id (len pre + 4)) by (unfold is_u; lia).
  rewrite !len_app, len_le_bytes. change (Z.of_nat 4) with 4.
  destruct (Z.ltb_spec (len pre + (4 + (len sec + len post))) (len pre + 4)); [lia |].
  rewrite (get_le_at 4 pre (sec ++ post) (len sec)) by done. cbn [mbind res_bind].
  change (8 * Z.of_nat 4) with 32. rewrite Z.mod_small by lia.
  rewrite (u64_id (len pre + 4 + len sec)) by (unfold is_u; lia).
  destruct (Z.ltb_spec (len pre + (4 + (len sec + len post))) (len pre + 4 + len sec)); [lia |].
  rewrite (app_assoc pre). rewrite slice_app_mid; [done | |]; rewrite len_app, len_le_bytes; lia.
Qed.

Section query.
Context `{HX : !XXHash} {HL : XXHashLaws}.

Record opened (m : image) (i : Index) : Prop := {
  op_data : data i = image_bytes m;
  op_header : i_header i = image_header m;
  op_user : userMetadata i = im_user m;
  op_ram : ramIndexBytes i = ram_bytes (ram_entries 0 0 (im_blocks m));
  op_num : numRAMEntries i = len (im_blocks m) + 1;
  op_pro : payloadRegionOffset i = 72 + len (im_user m) + 10 * (len (im_blocks m) + 1);
  op_mro : metadataRegionOffset i = payloadRegionOffset i + len (keys_of (im_blocks m)) * c_entrySize (im_cfg m);
  op_es : i_entrySize i = c_entrySize (im_cfg m);
  op_dec : decodes (c_algo (im_cfg m)) (c_seed (im_cfg m)) (decoder i);
  op_closed : closed i = false
}.

(** The bounds the arithmetic below needs. *)
Lemma image_bounds m : image_ok m ->
  0 <= c_entrySize (im_cfg m) <= 12 /\ 0 <= len (im_user m) < 2 ^ 32 /\ 2 <= len (im_blocks m) < 2 ^ 32 - 1 /\
  0 <= len (keys_of (im_blocks m)) < 2 ^ 40 /\ 256 <= len (metas_of (im_blocks m)) < 2 ^ 40 /\
  304 <= len (image_bytes m) < 2 ^ 46.
Proof using HL.
  intros Hm. rewrite (len_image_bytes m HL Hm). pose proof (len_metas _ _ (mo_blocks _ Hm)) as H1. unfold minMetadata in H1.
  destruct Hm as [[_ Hp Hf] _ _ Hu Hn _ _ Ht Hmt]. unfold maxPayloadSize, maxFingerprintSize, is_u, c_entrySize in *.
  set (k := len (keys_of _)) in *. set (e := c_ps (im_cfg m)) in *. set (f := c_fps (im_cfg m)) in *. clearbody k e f.
  split_and!; try lia; nia.
Qed.

Lemma open_image m : image_ok m -> exists i, OpenBytes (image_bytes m) = Ok i /\ opened m i.
Proof using HL.
  intros Hm. pose proof (image_bounds m Hm) as (Hes & Hu & Hn & Hk & Hmt & Hl). unfold OpenBytes.
  destruct (Z.ltb_spec (len (image_bytes m)) minFileSize); [unfold minFileSize in *; lia |].
  unfold initFromData. set (post := ram_bytes (ram_entries 0 0 (im_blocks m)) ++ pays_of (im_blocks m) ++
    metas_of (im_blocks m) ++ footer_bytes (image_footer m)).
  pose proof (len_header_bytes _ (image_header_wf m Hm)) as Hh.
  assert (image_bytes m = header_bytes (image_header m) ++ le_bytes 4 (len (im_user m)) ++ im_user m ++ (le_bytes 4 0 ++ post)) as E1.
  { unfold image_bytes, image_prefix. by rewrite <- !app_assoc. }
  assert (slice (image_bytes m) 0 headerSize = Ok (header_bytes (image_header m))) as ->.
  { rewrite E1. rewrite <- (app_nil_l (header_bytes _ ++ _)). by apply slice_app_mid; [| rewrite Hh]. }
  cbn [mbind res_bind]. rewrite <- (app_nil_r (header_bytes _)), decodeHeader_valid by (by apply image_header_valid).
  cbn [mbind res_bind].
  assert (var_section (image_bytes m) (len (image_bytes m)) headerSize = Ok (im_user m, headerSize + 4 + len (im_user m))) as ->.
  { rewrite E1. apply var_section_at; rewrite <- ?E1; (done || lia). }
  cbn [mbind res_bind]. set (pre := header_bytes (image_header m) ++ le_bytes 4 (len (im_user m)) ++ im_user m).
  assert (image_bytes m = pre ++ le_bytes 4 (len (@nil Z)) ++ [] ++ post) as E2.
  { rewrite E1. unfold pre. by rewrite <- !app_assoc. }
  assert (len pre = 68 + len (im_user m)) as Hpre by (unfold pre; rewrite !len_app, Hh, len_le_bytes; lia).
  cbn [mbind res_bind].
  assert (var_section (image_bytes m) (len (image_bytes m)) (headerSize + 4 + len (im_user m)) =
    Ok ([], headerSize + 4 + len (im_user m) + 4)) as ->.
  { rewrite E2, var_section_at; rewrite <- ?E2; [| lia | done | done | rewrite Hpre; unfold headerSize; lia].
    do 2 f_equal. rewrite len_nil. lia. }
  cbn [mbind res_bind]. change (NumBlocks (image_header m)) with (len (im_blocks m)).
  change (BlockAlgorithm (image_header m)) with (c_algo (im_cfg m)). change (Seed (image_header m)) with (c_seed (im_cfg m)).
  change (entrySize (image_header m)) with (c_entrySize (im_cfg m)).
  change (TotalKeys (image_header m)) with (len (keys_of (im_blocks m))). unfold headerSize, ramIndexEntrySize, footerSize.
  rewrite (u32_id (len (im_blocks m) + 1)) by (unfold is_u; lia). rewrite (u64_id (_ * 10)) by (unfold is_u; lia).
  rewrite (u64_id (_ + (_ + _) * 10)) by (unfold is_u; lia). rewrite (u64_id (_ - 32)) by (unfold is_u; lia).
  pose proof (len_image_bytes m HL Hm) as Hlen.
  destruct (Z.ltb_spec (len (image_bytes m) - 32) (64 + 4 + len (im_user m) + 4 + (len (im_blocks m) + 1) * 10)); [nia |].
  assert (slice (image_bytes m) (64 + 4 + len (im_user m) + 4) (64 + 4 + len (im_user m) + 4 + (len (im_blocks m) + 1) * 10) =
    Ok (ram_bytes (ram_entries 0 0 (im_blocks m)))) as ->.
  { rewrite E2. unfold post. cbn [app]. rewrite (app_assoc pre). apply slice_app_mid;
      rewrite ?len_ram_bytes, ?len_ram_entries, len_app, len_le_bytes; lia. }
  cbn [mbind res_bind].
  destruct (newBlockDecoder_decodes (c_algo (im_cfg m)) (c_seed (im_cfg m)) (mo_algo _ Hm)) as (d & -> & Hd).
  cbn [mbind res_bind]. eexists. split; [done |].
  split; cbn [data i_header userMetadata ramIndexBytes numRAMEntries payloadRegionOffset metadataRegionOffset i_entrySize decoder closed];
    try done; try lia.
  rewrite (u64_id (len (keys_of _) * _)) by (unfold is_u; nia). rewrite u64_id by (unfold is_u; nia). done.
Qed.

(** ** The pieces a query reads *)
Lemma decodeRAMIndexEntry_bytes e tail :
  entry_wf e -> Forall is_byte tail -> decodeRAMIndexEntry (ram_entry_bytes e ++ tail) = Ok e.
Proof.
  intros [H1 H2] Ht. rewrite decodeRAMIndexEntry_eq.
  - unfold ram_entry_bytes. rewrite <- app_assoc.
    rewrite (window_app_l (le_bytes 5 (KeysBefore e))) by (rewrite length_le_bytes; lia).
    rewrite (window_app_r (le_bytes 5 (KeysBefore e))), length_le_bytes by (rewrite length_le_bytes; lia).
    rewrite window_app_l by (rewrite length_le_bytes; lia). rewrite !window_0, !take_ge by (rewrite length_le_bytes; lia).
    rewrite !le_val_bytes. unfold is_u in *. change (8 * Z.of_nat 5) with 40. rewrite !Z.mod_small by done. by destruct e.
  - apply Forall_app. split; [| done]. apply Forall_app; split; apply le_bytes_bytes.
  - rewrite len_app, len_ram_entry_bytes. pose proof (len_nonneg tail). unfold ramIndexEntrySize. lia.
Qed.

Definition keysBefore (m : image) (j : nat) : Z := len (keys_of (take j (im_blocks m))).
Definition metaBefore (m : image) (j : nat) : Z := len (metas_of (take j (im_blocks m))).

Lemma opened_ramEntry m i j :
  image_ok m -> opened m i -> (j <= length (im_blocks m))%nat ->
  ramEntry i (Z.of_nat j) = Ok (mk_entry (keysBefore m j) (metaBefore m j)).
Proof using HL.
  intros Hm Ho Hj. pose proof (image_bounds m Hm) as (Hes & Hu & Hn & Hk & Hmt & Hl).
  unfold ramEntry, ramIndexEntrySize. rewrite (op_ram _ _ Ho). rewrite u64_id by (unfold is_u, len in *; lia).
  pose proof (len_ram_bytes (ram_entries 0 0 (im_blocks m))) as Hrl. rewrite len_ram_entries in Hrl.
  rewrite slice_in_range by (unfold len in *; lia). cbn [mbind res_bind].
  rewrite take_ge by (rewrite length_drop; unfold len in *; lia).
  replace (Z.to_nat (Z.of_nat j * 10)) with (10 * j)%nat by lia.
  pose proof (ram_entries_lookup (im_blocks m) 0 0 j Hj) as He. rewrite !Z.add_0_l in He.
  destruct (ram_bytes_drop _ j _ He) as (tail & Ht). rewrite Ht. apply decodeRAMIndexEntry_bytes.
  - pose proof (len_take_le bd_keys (im_blocks m) j) as H1. pose proof (len_take_le bd_meta (im_blocks m) j) as H2.
    fold (keys_of (take j (im_blocks m))) (keys_of (im_blocks m)) in H1.
    fold (metas_of (take j (im_blocks m))) (metas_of (im_blocks m)) in H2.
    pose proof (len_nonneg (keys_of (take j (im_blocks m)))). pose proof (len_nonneg (metas_of (take j (im_blocks m)))).
    split; unfold is_u; cbn [KeysBefore MetadataOffset]; unfold keysBefore, metaBefore; lia.
  - assert (Forall is_byte (ram_entry_bytes (mk_entry (len (keys_of (take j (im_blocks m)))) (len (metas_of (take j (im_blocks m))))) ++ tail)) as Hb.
    { rewrite <- Ht. apply Forall_drop, ram_bytes_ok. }
    by apply Forall_app in Hb as [_ Hb].
Qed.

(** Where the regions are in the file. *)
Lemma image_payload_split m : image_ok m ->
  exists pre post, image_bytes m = pre ++ pays_of (im_blocks m) ++ post /\
    len pre = 72 + len (im_user m) + 10 * (len (im_blocks m) + 1).
Proof.
  intros Hm. exists (image_prefix m ++ ram_bytes (ram_entries 0 0 (im_blocks m))), (metas_of (im_blocks m) ++ footer_bytes (image_footer m)).
  split; [unfold image_bytes; by rewrite <- !app_assoc |].
  rewrite len_app, (len_image_prefix m Hm), len_ram_bytes, len_ram_entries. lia.
Qed.

Lemma image_meta_split m : image_ok m ->
  exists pre post, image_bytes m = pre ++ metas_of (im_blocks m) ++ post /\
    len pre = 72 + len (im_user m) + 10 * (len (im_blocks m) + 1) + len (keys_of (im_blocks m)) * c_entrySize (im_cfg m).
Proof.
  intros Hm. exists (image_prefix m ++ ram_bytes (ram_entries 0 0 (im_blocks m)) ++ pays_of (im_blocks m)), (footer_bytes (image_footer m)).
  split; [unfold image_bytes; by rewrite <- !app_assoc |].
  rewrite !len_app, (len_image_prefix m Hm), len_ram_bytes, len_ram_entries, (len_pays (im_cfg m)) by apply Hm. lia.
Qed.

(** A slice of one element of a concatenation inside the file. *)
Lemma slice_concat {A B} (f : A -> list B) l j x pre post a b :
  l !! j = Some x -> a = len pre + len (concat (map f (take j l))) -> b = a + len (f x) ->
  slice (pre ++ concat (map f l) ++ post) a b = Ok (f x).
Proof.
  intros Hj -> ->. rewrite (concat_split f l j x Hj). rewrite <- !app_assoc, (app_assoc pre).
  apply slice_app_mid; rewrite len_app; lia.
Qed.

(** ** Looking a key up *)
Section key.
Context (m : image) (i : Index) (Hm : image_ok m) (Ho : opened m i).
Context (j : nat) (b : blockData) (Hj : im_blocks m !! j = Some b).
Context (k : key) (slot : Z).
Context (Hk : k ∈ bd_keys b) (Hslot : 0 <= slot < len (bd_keys b)).
Context (Hq : QuerySlot (decoder i) (k_0 k) (k_1 k) (bd_meta b) (len (bd_keys b)) = Ok slot).
Context (He : entry_at (bd_pay b) (c_fps (im_cfg m)) (c_ps (im_cfg m)) slot (k_fp k) (k_payload k)).
#[local] Abbreviation rank := (keysBefore m j + slot).

Lemma rank_bound : 0 <= rank < len (keys_of (im_blocks m)).
Proof using Hj Hslot.
  pose proof (len_take_succ bd_keys (im_blocks m) j b Hj) as H1. pose proof (len_take_le bd_keys (im_blocks m) (S j)) as H2.
  fold (keys_of (take j (im_blocks m))) (keys_of (im_blocks m)) in *. unfold keysBefore.
  pose proof (len_nonneg (keys_of (take j (im_blocks m)))). lia.
Qed.

(** The key's entry, in the file. *)
Lemma entry_in_file : exists pre post,
  image_bytes m = pre ++ entry_bytes (c_fps (im_cfg m)) (c_ps (im_cfg m)) (k_fp k) (k_payload k) ++ post /\
  len pre = payloadRegionOffset i + rank * c_entrySize (im_cfg m).
Proof using HL Hm Ho Hj Hslot He.
  destruct (image_payload_split m Hm) as (pre & post & E & Hl). rewrite (op_pro _ _ Ho), E.
  unfold pays_of. rewrite (concat_split bd_pay _ j b Hj). set (es := c_entrySize (im_cfg m)).
  pose proof (image_bounds m Hm) as (Hes & _). fold es in Hes.
  assert (Forall (block_ok (im_cfg m)) (im_blocks m)) as Hbs by apply Hm.
  pose proof (Forall_lookup_1 _ _ _ _ Hbs Hj) as Hb. pose proof (bo_pay _ _ Hb) as Hpl. fold es in Hpl.
  unfold entry_at, window in He. replace (c_fps (im_cfg m) + c_ps (im_cfg m)) with es in He by (unfold es, c_entrySize; lia).
  rewrite <- He. exists (pre ++ concat (map bd_pay (take j (im_blocks m))) ++ take (Z.to_nat (slot * es)) (bd_pay b)).
  exists (drop (Z.to_nat es) (drop (Z.to_nat (slot * es)) (bd_pay b)) ++ concat (map bd_pay (drop (S j) (im_blocks m))) ++ post). split.
  - rewrite <- !app_assoc. do 2 f_equal. rewrite (app_assoc (take (Z.to_nat es) _)), take_drop.
    by rewrite (app_assoc (take _ (bd_pay b))), take_drop.
  - rewrite !len_app, Hl. change (concat (map bd_pay (take j (im_blocks m)))) with (pays_of (take j (im_blocks m))).
    rewrite (len_pays (im_cfg m)) by (by apply Forall_take). fold es.
    assert (len (take (Z.to_nat (slot * es)) (bd_pay b)) = slot * es) as ->.
    { unfold len in *. rewrite length_take. nia. }
    unfold keysBefore. fold es. lia.
Qed.

Lemma entry_fields : exists tail,
  slice (data i) (payloadRegionOffset i + rank * c_entrySize (im_cfg m)) (len (data i)) =
    Ok (entry_bytes (c_fps (im_cfg m)) (c_ps (im_cfg m)) (k_fp k) (k_payload k) ++ tail) /\
  Forall is_byte tail.
Proof using HL Hm Ho Hj Hslot He.
  destruct entry_in_file as (pre & post & E & Hl). rewrite (op_data _ _ Ho), E, <- Hl. exists post. split.
  - by apply slice_app_tail.
  - pose proof (image_bytes_ok m HL Hm) as Hb. rewrite E in Hb. rewrite !Forall_app in Hb. apply Hb.
Qed.

(** The bytes of a key. *)
Definition spells (kb : list Z) (k : key) : Prop :=
  MinKeySize <= len kb /\ get_le 8 kb 0 = Ok (k_0 k) /\ get_le 8 kb 8 = Ok (k_1 k).

Lemma stored_entry : let es := c_entrySize (im_cfg m) in
  payloadRegionOffset i + rank * es + es <= len (data i) /\ 0 <= payloadRegionOffset i /\ 0 <= rank * es.
Proof using HL Hm Ho Hj Hslot He.
  destruct entry_in_file as (pre & post & E & Hl). destruct (mo_cfg _ Hm) as [_ Hp Hf].
  cbv zeta. rewrite (op_data _ _ Ho), E, <- Hl, !len_app, len_entry_bytes by lia. pose proof (len_nonneg post).
  pose proof (image_bounds m Hm) as (Hes & Hu & Hn & _). rewrite (op_pro _ _ Ho). pose proof rank_bound.
  unfold c_entrySize in *. split_and!; nia.
Qed.

Lemma member_fp : is_u (8 * c_fps (im_cfg m)) (k_fp k) /\ k_fp k = extractFingerprint (k_0 k) (k_1 k) (c_fps (im_cfg m)).
Proof using Hm Hj Hk.
  pose proof (Forall_lookup_1 _ _ _ _ (mo_blocks _ Hm) Hj) as Hb. destruct Hb as [Hks Hfp _ _ _ _ _].
  rewrite Forall_forall in Hks, Hfp. split; [by apply (Hks k Hk) | by apply Hfp].
Qed.

Lemma verify_member : verifyFingerprintSeparated i (k_0 k) (k_1 k) rank = Ok true.
Proof using HL Hm Ho Hj Hslot He Hk.
  destruct stored_entry as (Hfit & Hpo & Hr). destruct (mo_cfg _ Hm) as [_ Hp Hf]. unfold maxPayloadSize, maxFingerprintSize in *.
  pose proof (image_bounds m Hm) as (Hes & _ & _ & _ & _ & Hl). rewrite <- (op_data _ _ Ho) in Hl.
  unfold verifyFingerprintSeparated, fingerprintSizeInt. rewrite (op_es _ _ Ho), (op_header _ _ Ho). cbn [image_header FingerprintSize].
  assert (c_fps (im_cfg m) <= c_entrySize (im_cfg m)) by (unfold c_entrySize; lia).
  rewrite (u64_id (rank * _)) by (unfold is_u; lia). rewrite (u64_id (payloadRegionOffset i + _)) by (unfold is_u; lia).
  rewrite (u64_id (_ + c_fps _)) by (unfold is_u; lia).
  destruct (Z.ltb_spec (len (data i)) (payloadRegionOffset i + rank * c_entrySize (im_cfg m) + c_fps (im_cfg m))); [lia |].
  destruct entry_fields as (tail & -> & Ht). cbn [mbind res_bind]. destruct member_fp as [Hu Hfp].
  destruct (entry_bytes_window (c_fps (im_cfg m)) (c_ps (im_cfg m)) (k_fp k) (k_payload k)) as [Hw _]; [lia | lia | done |].
  rewrite window_0 in Hw. pose proof (len_entry_bytes (c_fps (im_cfg m)) (c_ps (im_cfg m)) (k_fp k) (k_payload k) ltac:(lia) ltac:(lia)) as Hel.
  rewrite unpackFingerprintFromBytes_eq.
  - rewrite take_app_le by (unfold len in Hel; lia). cbn [mbind res_bind]. rewrite Hw, <- Hfp. by rewrite Z.eqb_refl.
  - apply Forall_app. split; [| done]. apply Forall_app; split; apply le_bytes_bytes.
  - lia.
  - rewrite len_app, Hel. pose proof (len_nonneg tail). lia.
Qed.

Lemma lookup_member kb check : spells kb k -> lookup_index i kb check = Ok rank.
Proof using HL Hm Ho Hj Hslot He Hk Hq.
  intros (_ & H0 & H1). unfold lookup_index. rewrite H0, H1. cbn [mbind res_bind].
  pose proof (image_bounds m Hm) as (Hes & Hu & Hn & Hkk & Hmt & Hl).
  rewrite (op_header _ _ Ho), (op_num _ _ Ho). change (NumBlocks (image_header m)) with (len (im_blocks m)).
  pose proof (mo_routed _ Hm j b Hj) as Hrt. rewrite Forall_forall in Hrt. rewrite (Hrt k Hk).
  pose proof (lookup_lt_Some _ _ _ Hj) as Hjl. assert (Z.of_nat j < len (im_blocks m)) as Hjl' by (unfold len; lia).
  rewrite (u32_id (Z.of_nat j + 1)) by (unfold is_u; lia).
  destruct (Z.leb_spec (len (im_blocks m) + 1) (Z.of_nat j + 1)); [lia |].
  rewrite (opened_ramEntry m i j Hm Ho) by lia. replace (Z.of_nat j + 1) with (Z.of_nat (S j)) by lia.
  rewrite (opened_ramEntry m i (S j) Hm Ho) by lia. cbn [mbind res_bind KeysBefore MetadataOffset].
  pose proof (len_take_succ bd_keys (im_blocks m) j b Hj) as Hk1. fold (keysBefore m j) (keysBefore m (S j)) in Hk1.
  change (len (concat (map bd_keys (take (S j) (im_blocks m))))) with (keysBefore m (S j)) in Hk1.
  change (len (concat (map bd_keys (take j (im_blocks m))))) with (keysBefore m j) in Hk1.
  pose proof (len_take_succ bd_meta (im_blocks m) j b Hj) as Hm1.
  change (len (concat (map bd_meta (take (S j) (im_blocks m))))) with (metaBefore m (S j)) in Hm1.
  change (len (concat (map bd_meta (take j (im_blocks m))))) with (metaBefore m j) in Hm1.
  rewrite Hk1. destruct (Z.ltb_spec (keysBefore m j + len (bd_keys b)) (keysBefore m j)); [lia |].
  replace (keysBefore m j + len (bd_keys b) - keysBefore m j) with (len (bd_keys b)) by lia.
  destruct (Z.eqb_spec (len (bd_keys b)) 0); [lia |].
  pose proof (Forall_lookup_1 _ _ _ _ (mo_blocks _ Hm) Hj) as Hb. pose proof (bo_meta _ _ Hb) as Hbm. unfold minMetadata in Hbm.
  destruct (image_meta_split m Hm) as (pre & post & E & Hpre). pose proof (op_mro _ _ Ho) as Hmro. rewrite (op_pro _ _ Ho) in Hmro.
  assert (len (pre ++ metas_of (im_blocks m) ++ post) = len (data i)) as Elen by (by rewrite (op_data _ _ Ho), E).
  pose proof (len_take_le bd_meta (im_blocks m) (S j)) as Hm2.
  change (len (concat (map bd_meta (take (S j) (im_blocks m))))) with (metaBefore m (S j)) in Hm2.
  change (len (concat (map bd_meta (im_blocks m)))) with (len (metas_of (im_blocks m))) in Hm2.
  rewrite !len_app in Elen. rewrite (op_data _ _ Ho) in Elen |- *. pose proof (len_nonneg post).
  assert (0 <= metaBefore m j) by apply len_nonneg. pose proof (len_nonneg pre).
  rewrite !u64_id by (unfold is_u; lia).
  destruct (Z.leb_spec (metadataRegionOffset i + metaBefore m (S j)) (metadataRegionOffset i + metaBefore m j)); [lia |].
  destruct (Z.ltb_spec (len (image_bytes m)) (metadataRegionOffset i + metaBefore m (S j))); [lia |]. cbn [orb].
  assert (slice (image_bytes m) (metadataRegionOffset i + metaBefore m j) (metadataRegionOffset i + metaBefore m (S j)) = Ok (bd_meta b)) as ->.
  { rewrite E. apply (slice_concat bd_meta _ j); [done | rewrite Hpre, Hmro; done | rewrite Hm1; lia]. }
  cbn [mbind res_bind]. rewrite Hq. cbn [mbind res_bind]. pose proof rank_bound. rewrite u64_id by (unfold is_u; lia).
  destruct (check && hasFingerprint (image_header m)); [| done]. rewrite verify_member. done.
Qed.

Lemma QueryRank_member kb : spells kb k -> QueryRank i kb = Ok rank.
Proof using HL Hm Ho Hj Hslot He Hk Hq.
  intros Hs. unfold QueryRank. rewrite (op_closed _ _ Ho). destruct (Z.ltb_spec (len kb) MinKeySize); [by destruct Hs; lia |].
  by apply lookup_member.
Qed.

Lemma QueryPayload_member kb :
  spells kb k -> QueryPayload i kb = Ok (rank, k_payload k mod 2 ^ (8 * c_ps (im_cfg m))).
Proof using HL Hm Ho Hj Hslot He Hk Hq.
  intros Hs. unfold QueryPayload. rewrite (op_closed _ _ Ho). destruct (Z.ltb_spec (len kb) MinKeySize); [by destruct Hs; lia |].
  unfold queryInternal. rewrite (lookup_member kb true Hs). cbn [mbind res_bind].
  destruct stored_entry as (Hfit & Hpo & Hr). destruct (mo_cfg _ Hm) as [_ Hp Hf]. unfold maxPayloadSize, maxFingerprintSize in *.
  pose proof (image_bounds m Hm) as (Hes & _ & _ & _ & _ & Hl). rewrite <- (op_data _ _ Ho) in Hl.
  unfold fingerprintSizeInt, payloadSizeInt. rewrite (op_es _ _ Ho), (op_header _ _ Ho). cbn [image_header FingerprintSize PayloadSize].
  assert (c_fps (im_cfg m) + c_ps (im_cfg m) = c_entrySize (im_cfg m)) as Hse by (unfold c_entrySize; lia).
  rewrite (u64_id (rank * _)) by (unfold is_u; lia). rewrite (u64_id (payloadRegionOffset i + _)) by (unfold is_u; lia).
  rewrite (u64_id (_ + c_fps _)) by (unfold is_u; lia). rewrite (u64_id (_ + c_ps _)) by (unfold is_u; lia).
  set (off := payloadRegionOffset i + rank * c_entrySize (im_cfg m)) in *.
  destruct (Z.ltb_spec (len (data i)) (off + c_fps (im_cfg m) + c_ps (im_cfg m))); [lia |].
  destruct entry_fields as (tail & Hsl & Ht). fold off in Hsl.
  destruct (entry_bytes_window (c_fps (im_cfg m)) (c_ps (im_cfg m)) (k_fp k) (k_payload k)) as [_ Hw]; [lia | lia | by apply member_fp |].
  pose proof (len_entry_bytes (c_fps (im_cfg m)) (c_ps (im_cfg m)) (k_fp k) (k_payload k) ltac:(lia) ltac:(lia)) as Hel.
  set (eb := entry_bytes _ _ _ _) in *. apply slice_ok in Hsl as (_ & _ & Hsl). rewrite take_ge in Hsl by (rewrite length_drop; unfold len in *; lia).
  rewrite slice_in_range by lia. cbn [mbind res_bind].
  rewrite take_ge by (rewrite length_drop; unfold len in *; lia).
  assert (drop (Z.to_nat (off + c_fps (im_cfg m))) (data i) = drop (Z.to_nat (c_fps (im_cfg m))) (eb ++ tail)) as ->.
  { rewrite Hsl, drop_drop. f_equal. lia. }
  rewrite unpackPayloadFromBytes_eq.
  - cbn [mbind res_bind]. do 2 f_equal. rewrite <- Hw. unfold window. f_equal.
    rewrite drop_app_le by (unfold len in Hel; lia). rewrite take_app_le; [done |]. rewrite length_drop. unfold len in Hel; lia.
  - apply Forall_drop, Forall_app. split; [| done]. apply Forall_app; split; apply le_bytes_bytes.
  - lia.
  - unfold len in *. rewrite length_drop, length_app. lia.
Qed.
End key.

(** ** All keys at once *)
Lemma range_add a b : 0 <= a -> 0 <= b -> range (a + b) = range a ++ map (Z.add a) (range b).
Proof.
  intros Ha Hb. unfold range. rewrite seqZ_app by done. f_equal. rewrite Z.add_0_l.
  pose proof (fmap_add_seqZ a 0 b) as H. rewrite Z.add_0_r in H. by rewrite <- H.
Qed.

(** What a query for a key of the image answers. *)
Definition answers (m : image) (i : Index) (k : key) (r : Z) : Prop :=
  forall kb, spells kb k -> QueryRank i kb = Ok r /\
    (c_ps (im_cfg m) <> 0 -> exists pi, WithPayload i = Ok pi /\
       QueryPayload pi kb = Ok (r, k_payload k mod 2 ^ (8 * c_ps (im_cfg m)))).

Lemma block_answers m i j b :
  image_ok m -> opened m i -> im_blocks m !! j = Some b ->
  exists ranks, ranks ≡ₚ map (Z.add (keysBefore m j)) (range (len (bd_keys b))) /\
    Forall2 (answers m i) (bd_keys b) ranks.
Proof using HL.
  intros Hm Ho Hj. pose proof (Forall_lookup_1 _ _ _ _ (mo_blocks _ Hm) Hj) as Hb.
  destruct (bo_built _ _ Hb (decoder i) (op_dec _ _ Ho)) as (slots & Hp & Hs).
  exists (map (Z.add (keysBefore m j)) slots). split; [by apply Permutation_map |].
  apply Forall2_fmap_r, Forall2_same_length_lookup_2; [by eapply Forall2_length |].
  intros n k slot Hk Hslot. destruct (Forall2_lookup_lr _ _ _ _ _ _ Hs Hk Hslot) as [Hq He].
  assert (0 <= slot < len (bd_keys b)) as Hsl.
  { apply elem_of_range. rewrite <- Hp. by eapply list_elem_of_lookup_2. }
  apply list_elem_of_lookup_2 in Hk. intros kb Hkb. split; [by eapply (QueryRank_member m i Hm Ho j b) |].
  intros Hps. exists i. split; [| by eapply (QueryPayload_member m i Hm Ho j b)].
  unfold WithPayload. rewrite (op_header _ _ Ho). cbn [image_header PayloadSize]. by destruct (Z.eqb_spec (c_ps (im_cfg m)) 0).
Qed.

Lemma prefix_answers m i n :
  image_ok m -> opened m i -> (n <= length (im_blocks m))%nat ->
  exists ranks, ranks ≡ₚ range (keysBefore m n) /\ Forall2 (answers m i) (keys_of (take n (im_blocks m))) ranks.
Proof using HL.
  intros Hm Ho. induction n as [| n IH]; intros Hn; [exists []; split; [done | constructor] |].
  destruct (lookup_lt_is_Some_2 (im_blocks m) n Hn) as [b Hb]. destruct IH as (ranks & Hp & Ha); [lia |].
  destruct (block_answers m i n b Hm Ho Hb) as (rs & Hp' & Ha'). exists (ranks ++ rs).
  assert (keysBefore m (S n) = keysBefore m n + len (bd_keys b)) as Hkb by (apply (len_take_succ bd_keys); done).
  rewrite Hkb, range_add by apply len_nonneg. split; [by rewrite Hp, Hp' |].
  unfold keys_of in *. rewrite (take_S_r _ _ _ Hb), map_app, concat_app. cbn [map concat]. rewrite app_nil_r.
  by apply Forall2_app.
Qed.

(** ** Verifying *)
Lemma block_payload_hash_image m i j b :
  image_ok m -> opened m i -> im_blocks m !! j = Some b ->
  block_payload_hash i (Z.of_nat j) = Ok (Sum64 (bd_pay b)).
Proof using HL.
  intros Hm Ho Hj. unfold block_payload_hash. pose proof (image_bounds m Hm) as (Hes & Hu & Hn & Hk & Hmt & Hl).
  pose proof (lookup_lt_Some _ _ _ Hj) as Hjl. assert (Z.of_nat j < len (im_blocks m)) as Hjl' by (unfold len; lia).
  rewrite (u32_id (Z.of_nat j + 1)) by (unfold is_u; lia).
  rewrite (opened_ramEntry m i j Hm Ho) by lia. replace (Z.of_nat j + 1) with (Z.of_nat (S j)) by lia.
  rewrite (opened_ramEntry m i (S j) Hm Ho) by lia. cbn [mbind res_bind KeysBefore].
  assert (keysBefore m (S j) = keysBefore m j + len (bd_keys b)) as Hkb by (apply (len_take_succ bd_keys); done).
  pose proof (Forall_lookup_1 _ _ _ _ (mo_blocks _ Hm) Hj) as Hb. pose proof (bo_pay _ _ Hb) as Hpay.
  pose proof (len_nonneg (bd_keys b)) as Hbk. rewrite Hkb.
  destruct (Z.ltb_spec (keysBefore m j + len (bd_keys b)) (keysBefore m j)); [lia |].
  replace (keysBefore m j + len (bd_keys b) - keysBefore m j) with (len (bd_keys b)) by lia. rewrite (op_es _ _ Ho).
  destruct (Z.ltb_spec 0 (len (bd_keys b))), (Z.ltb_spec 0 (c_entrySize (im_cfg m))); cbn [andb].
  2-4: assert (bd_pay b = []) as ->; [| done];
    apply nil_length_inv; assert (len (bd_pay b) = 0) as Hz by nia; unfold len in Hz; lia.
  destruct (image_payload_split m Hm) as (pre & post & E & Hpre). pose proof (op_pro _ _ Ho) as Hpro.
  pose proof (len_take_le bd_keys (im_blocks m) (S j)) as Hk2.
  change (len (concat (map bd_keys (take (S j) (im_blocks m))))) with (keysBefore m (S j)) in Hk2.
  change (len (concat (map bd_keys (im_blocks m)))) with (len (keys_of (im_blocks m))) in Hk2.
  assert (0 <= keysBefore m j) by apply len_nonneg.
  assert (len (pre ++ pays_of (im_blocks m) ++ post) = len (data i)) as Elen by (by rewrite (op_data _ _ Ho), E).
  rewrite !len_app, (len_pays (im_cfg m)) in Elen by apply Hm. pose proof (len_nonneg post). rewrite <- (op_data _ _ Ho) in Hl.
  rewrite (u64_id (keysBefore m j * _)), (u64_id ((keysBefore m j + _) * _)) by (unfold is_u; nia).
  rewrite !u64_id by (unfold is_u; nia).
  destruct (Z.ltb_spec (len (data i)) (payloadRegionOffset i + (keysBefore m j + len (bd_keys b)) * c_entrySize (im_cfg m))); [nia |].
  rewrite (op_data _ _ Ho), E. unfold pays_of. rewrite (slice_concat bd_pay _ j b); [done | done | |].
  - change (concat (map bd_pay (take j (im_blocks m)))) with (pays_of (take j (im_blocks m))).
    rewrite (len_pays (im_cfg m)) by (apply Forall_take, Hm). rewrite Hpre, Hpro. done.
  - rewrite Hpay. lia.
Qed.

Lemma payload_hash_loop m i n d :
  image_ok m -> opened m i -> (n <= length (im_blocks m))%nat ->
  foldM (fun h blockID => blockHash ← block_payload_hash i blockID;
           buf ← put_le 8 (make 0 8) 0 blockHash; Ok (xx_Write h buf)) d (range (Z.of_nat n)) =
  Ok (foldl xx_Write d (map (fun b => le_bytes 8 (Sum64 (bd_pay b))) (take n (im_blocks m)))).
Proof using HL.
  intros Hm Ho. induction n as [| n IH]; intros Hn; [done |].
  replace (Z.of_nat (S n)) with (Z.of_nat n + 1) by lia. rewrite range_succ, foldM_snoc, IH by lia. cbn [mbind res_bind].
  destruct (lookup_lt_is_Some_2 (im_blocks m) n Hn) as [b Hb].
  rewrite (block_payload_hash_image m i n b Hm Ho Hb). cbn [mbind res_bind]. unfold put_le.
  assert (store (make 0 8) 0 (le_bytes 8 (Sum64 (bd_pay b))) = Ok (le_bytes 8 (Sum64 (bd_pay b)))) as ->.
  { by rewrite store_range by (rewrite ?len_le_bytes, ?len_make; lia). }
  cbn [mbind res_bind]. rewrite (take_S_r _ _ _ Hb), map_app, foldl_app. done.
Qed.

Lemma Verify_image m i : image_ok m -> opened m i -> Verify i = Ok tt.
Proof using HL.
  intros Hm Ho. pose proof (image_bounds m Hm) as (Hes & Hu & Hn & Hk & Hmt & Hl). rewrite <- (op_data _ _ Ho) in Hl.
  unfold Verify, footerSize. rewrite (op_closed _ _ Ho). rewrite (u64_id (len (data i) - 32)) by (unfold is_u; lia).
  destruct (image_meta_split m Hm) as (pre & post & E & Hpre).
  pose proof (len_footer_bytes _ (image_footer_wf m HL)) as Hfl.
  assert (exists pre', data i = pre' ++ footer_bytes (image_footer m) /\ len pre' = len (data i) - 32) as (pre' & E' & Hpre').
  { rewrite (op_data _ _ Ho). exists (image_prefix m ++ ram_bytes (ram_entries 0 0 (im_blocks m)) ++ pays_of (im_blocks m) ++ metas_of (im_blocks m)).
    split; [unfold image_bytes; by rewrite <- !app_assoc |]. unfold image_bytes. rewrite !len_app, Hfl. lia. }
  assert (slice (data i) (len (data i) - 32) (len (data i)) = Ok (footer_bytes (image_footer m))) as ->.
  { rewrite E' at 1. apply slice_app_tail; [done | by rewrite <- E']. }
  cbn [mbind res_bind]. rewrite <- (app_nil_r (footer_bytes _)), decodeFooter_bytes by (by apply image_footer_wf).
  cbn [mbind res_bind]. rewrite (op_header _ _ Ho). change (NumBlocks (image_header m)) with (Z.of_nat (length (im_blocks m))).
  rewrite (payload_hash_loop m i _ _ Hm Ho) by done. cbn [mbind res_bind]. rewrite Sum64_stream, firstn_all.
  cbn [image_footer PayloadRegionHash MetadataRegionHash]. unfold payload_hash. rewrite Z.eqb_refl. cbn [negb].
  pose proof (len_image_bytes m HL Hm) as Hlen. rewrite <- (op_data _ _ Ho) in Hlen.
  pose proof (op_mro _ _ Ho) as Hmro. rewrite (op_pro _ _ Ho) in Hmro.
  destruct (Z.ltb_spec (len (data i) - 32) (metadataRegionOffset i)); [lia |].
  destruct (Z.ltb_spec 0 (len (data i) - 32 - metadataRegionOffset i)); [| done].
  assert (slice (data i) (metadataRegionOffset i) (len (data i) - 32) = Ok (metas_of (im_blocks m))) as ->.
  { rewrite (op_data _ _ Ho) at 1. rewrite E. apply slice_app_mid; lia. }
  cbn [mbind res_bind]. by rewrite Z.eqb_refl.
Qed.

Lemma image_answers_all m :
  image_ok m -> exists i, OpenBytes (image_bytes m) = Ok i /\
    UserMetadata i = im_user m /\ NumKeys i = len (keys_of (im_blocks m)) /\ Verify i = Ok tt /\
    exists ranks, ranks ≡ₚ range (NumKeys i) /\ Forall2 (answers m i) (keys_of (im_blocks m)) ranks.
Proof using HL.
  intros Hm. destruct (open_image m Hm) as (i & Hopen & Ho). exists i. split; [done |].
  split; [exact (op_user _ _ Ho) |]. unfold NumKeys. rewrite (op_header _ _ Ho). split; [done |].
  split; [by apply (Verify_image m) |]. destruct (prefix_answers m i (length (im_blocks m)) Hm Ho) as (ranks & Hp & Ha); [done |].
  unfold keysBefore in Hp. rewrite firstn_all in Hp, Ha. by exists ranks.
Qed.
(** C12: a finished index file answers every key. Opening the bytes of an image
    succeeds; the index has the image's user metadata and key count; the ranks
    of the keys are the numbers from 0 to n-1, each once; for any byte string
    that starts with a key's 16 bytes, [QueryRank] returns the key's rank and
    [QueryPayload] also its payload (its low bytes, of the configured width);
    and [Verify] finds both hashes right. *)
Theorem image_answers m :
  image_ok m -> exists i, OpenBytes (image_bytes m) = Ok i /\
    UserMetadata i = im_user m /\ NumKeys i = len (keys_of (im_blocks m)) /\ Verify i = Ok tt /\
    exists ranks, ranks ≡ₚ range (NumKeys i) /\ Forall2 (answers m i) (keys_of (im_blocks m)) ranks.
Proof using HL. apply image_answers_all. Qed.
End query.

(** ** An example: one key in the first of two blocks *)
Definition example_key : key := mk_key 0 5 0x01020304 147.
Definition example_config : config := mk_config AlgoBijection 7 4 1 2 8220.
Definition example_meta : list Z :=
  [129; 0; 1; 1; 129; 1; 1; 2; 129; 2; 1; 3; 129; 3] ++ make 0 14 ++ [254] ++ make 255 127 ++ [1; 0; 85].
Definition example_image : image := mk_image example_config [1; 2; 3]
  [mk_blk [example_key] example_meta [147; 4; 3; 2; 1]; mk_blk [] (make 0 157) []].

Lemma example_image_ok : image_ok example_image.
Proof.
  assert (forall l, forallb (fun b => (0 <=? b) && (b <? 256)) l = true -> Forall is_byte l) as Hbytes.
  { intros l Hl. rewrite forallb_forall in Hl. apply Forall_forall. intros b Hb%list_elem_of_In%Hl. unfold_words. lia. }
  split.
  - split; unfold_words; cbn; unfold maxPayloadSize, maxFingerprintSize; lia.
  - by left.
  - by apply Hbytes.
  - unfold is_u, len. cbn. lia.
  - unfold len. cbn. lia.
  - constructor; [| constructor; [| constructor]].
    + split.
      * constructor; [| constructor]. split_and!; unfold_words; cbn; lia.
      * constructor; [vm_compute; reflexivity | constructor].
      * reflexivity.
      * by apply Hbytes.
      * vm_compute. discriminate.
      * by apply Hbytes.
      * intros [d | d] [Ha Hd]; [| discriminate Ha]. injection Hd as <-. exists [0]. split; [reflexivity |].
        constructor; [| constructor]. split; vm_compute; reflexivity.
    + split; [constructor | constructor | reflexivity | constructor | vm_compute; discriminate | by apply Hbytes |].
      intros d Hd. exists []. split; [reflexivity | constructor].
  - intros j b Hj. destruct j as [| [| j]]; [| | discriminate Hj]; injection Hj as <-; [| constructor].
    constructor; [vm_compute; reflexivity | constructor].
  - vm_compute. split; [discriminate | reflexivity].
  - vm_compute. split; [discriminate | reflexivity].
Qed.

Lemma image_answers_witness :
  exists i, OpenBytes (@image_bytes poly_hash example_image) = Ok i /\ UserMetadata i = [1; 2; 3] /\ NumKeys i = 1 /\
    @Verify poly_hash i = Ok tt /\ QueryRank i (make 0 8 ++ [5; 0; 0; 0; 0; 0; 0; 0; 99]) = Ok 0.
Proof.
  destruct (@image_answers poly_hash poly_hash_laws example_image example_image_ok) as (i & H1 & H2 & H3 & H4 & ranks & Hp & Ha).
  exists i. split; [exact H1 |]. split; [exact H2 |]. split; [exact H3 |]. split; [exact H4 |].
  change (keys_of (im_blocks example_image)) with [example_key] in Ha.
  inversion Ha as [| k r ks rs Hk Hnil]. subst. inversion Hnil. subst. rewrite H3 in Hp.
  apply Permutation_length_1 in Hp as ->. apply Hk. split_and!; [vm_compute; discriminate | reflexivity | reflexivity].
Defined.
