(* ===== verification/File.v ===== *)
(** * The output file

    The builders write one file through [*os.File]. A file is its bytes, or
    absent when it was removed; a system call may fail, and a failed write may
    have stored a part of its bytes. Which calls fail is up to the oracle
    [fault], so every result below holds for any pattern of failures.

    Operations that change state and may return an error live in the monad
    [stM]: a failed operation keeps the state it reached, as a Go function that
    returns an error does. *)
From S2P Require Import Prelude Words.
#[local] Open Scope Z_scope.

(** ** State and errors *)
Definition stM (S A : Type) : Type := S -> res (S * (A + error)).

#[export] Instance stM_ret {S} : MRet (stM S) := fun A a s => Ok (s, inl a).
#[export] Instance stM_bind {S} : MBind (stM S) := fun A B k m s =>
  match m s with
  | Ok (s', inl a) => k a s'
  | Ok (s', inr e) => Ok (s', inr e)
  | Err e => Err e
  | Panic => Panic
  end.

Definition fail {S A} (e : error) : stM S A := fun s => Ok (s, inr e).
Definition gets {S A} (f : S -> A) : stM S A := fun s => Ok (s, inl (f s)).
Definition modify {S} (f : S -> S) : stM S unit := fun s => Ok (f s, inl tt).

(** A pure computation; its errors are the operation's. *)
Definition lift {S A} (m : res A) : stM S A := fun s =>
  match m with Ok a => Ok (s, inl a) | Err e => Ok (s, inr e) | Panic => Panic end.

(** An operation on a part of the state. *)
Definition zoom {S T A} (get : S -> T) (put : T -> S -> S) (m : stM T A) : stM S A := fun s =>
  match m (get s) with Ok (t, r) => Ok (put t s, r) | Err e => Err e | Panic => Panic end.

(** The outcome, as a value: what the caller of a Go function sees. *)
Definition attempt {S A} (m : stM S A) : stM S (A + error) := fun s =>
  match m s with Ok (s', r) => Ok (s', inl r) | Err e => Err e | Panic => Panic end.

(** [m] from [s] does not panic, ends in [Q] with a value or in [E] with an error. *)
Definition wps {S A} (m : stM S A) (s : S) (Q : A -> S -> Prop) (E : error -> S -> Prop) : Prop :=
  match m s with Ok (s', inl a) => Q a s' | Ok (s', inr e) => E e s' | _ => False end.

Section wps.
Context {S A B : Type}.

Lemma wps_ret (a : A) s (Q : A -> S -> Prop) E : Q a s -> wps (mret a) s Q E.
Proof. done. Qed.

Lemma wps_fail e s (Q : A -> S -> Prop) E : E e s -> wps (fail e) s Q E.
Proof. done. Qed.

Lemma wps_gets (f : S -> A) s (Q : A -> S -> Prop) E : Q (f s) s -> wps (gets f) s Q E.
Proof. done. Qed.

Lemma wps_modify (f : S -> S) s Q E : Q tt (f s) -> wps (modify f) s Q E.
Proof. done. Qed.

Lemma wps_bind (m : stM S A) (k : A -> stM S B) s Q E :
  wps m s (fun a s' => wps (k a) s' Q E) E -> wps (m ≫= k) s Q E.
Proof. unfold wps, mbind, stM_bind. by destruct (m s) as [[s' [a | e]] | |]. Qed.

Lemma wps_mono (m : stM S A) s (Q Q' : A -> S -> Prop) (E E' : error -> S -> Prop) :
  wps m s Q E -> (forall a s', Q a s' -> Q' a s') -> (forall e s', E e s' -> E' e s') -> wps m s Q' E'.
Proof. unfold wps. destruct (m s) as [[s' [a | e]] | |]; auto. Qed.

Lemma wps_lift (m : res A) s (Q : A -> S -> Prop) E :
  wp m (fun a => Q a s) (fun e => E e s) -> wps (lift m) s Q E.
Proof. unfold wps, lift. by destruct m. Qed.

Lemma wps_attempt (m : stM S A) s (Q : A + error -> S -> Prop) E :
  wps m s (fun a => Q (inl a)) (fun e => Q (inr e)) -> wps (attempt m) s Q E.
Proof. unfold wps, attempt. by destruct (m s) as [[s' [a | e]] | |]. Qed.

Lemma wps_ok (m : stM S A) s Q E s' a : wps m s Q E -> m s = Ok (s', inl a) -> Q a s'.
Proof. unfold wps. intros H Heq. by rewrite Heq in H. Qed.
End wps.

Lemma wps_zoom {S T A} (get : S -> T) (put : T -> S -> S) (m : stM T A) s Q E :
  wps m (get s) (fun a t => Q a (put t s)) (fun e t => E e (put t s)) -> wps (zoom get put m) s Q E.
Proof. unfold wps, zoom. by destruct (m (get s)) as [[t [a | e]] | |]. Qed.

(** [for _, a := range l { if err := f(a); err != nil { return err } }] *)
Fixpoint forM {S A} (f : A -> stM S unit) (l : list A) : stM S unit :=
  match l with
  | [] => mret tt
  | a :: l => f a ≫= fun _ => forM f l
  end.

Lemma wps_forM {S A} (I : list A -> S -> Prop) E (f : A -> stM S unit) l s :
  I [] s ->
  (forall pre a post s, l = pre ++ a :: post -> I pre s -> wps (f a) s (fun _ => I (pre ++ [a])) E) ->
  wps (forM f l) s (fun _ => I l) E.
Proof.
  intros H0 Hstep. enough (forall post pre s, l = pre ++ post -> I pre s -> wps (forM f post) s (fun _ => I l) E)
    as H by (by apply (H l [])).
  induction post as [| a post IH]; intros pre s' -> Hs; cbn [forM].
  - apply wps_ret. by rewrite app_nil_r in *.
  - apply wps_bind. eapply wps_mono; [by eapply Hstep | | done].
    intros [] s'' Hs''. eapply IH; [| exact Hs'']. by rewrite <- app_assoc.
Qed.

(** [for cond() { body }], run at most [fuel] times; out of fuel it panics. *)
Fixpoint whileM {S} (fuel : nat) (cond : S -> bool) (body : stM S unit) : stM S unit := fun s =>
  if cond s then
    match fuel with
    | O => Panic
    | Datatypes.S fuel => (body ≫= fun _ => whileM fuel cond body) s
    end
  else Ok (s, inl tt).

(** A loop whose measure decreases ends within that many rounds. *)
Lemma wps_whileM {S} (I : S -> Prop) (measure : S -> nat) E cond (body : stM S unit) fuel s :
  I s -> (measure s < fuel)%nat ->
  (forall s, I s -> cond s = true -> wps body s (fun _ s' => I s' /\ (measure s' < measure s)%nat) E) ->
  wps (whileM fuel cond body) s (fun _ s' => I s' /\ cond s' = false) E.
Proof.
  intros Hs Hm Hstep. revert s Hs Hm. induction fuel as [| fuel IH]; intros s Hs Hm; [lia |].
  unfold wps. cbn [whileM]. destruct (cond s) eqn:Hc; [| done].
  change (wps (body ≫= fun _ => whileM fuel cond body) s (fun _ s' => I s' /\ cond s' = false) E).
  apply wps_bind. eapply wps_mono; [by apply Hstep | | done]. intros [] s' [Hs' Hlt]. apply IH; [done | lia].
Qed.

(** What an operation leaves alone, also when it fails. *)
Definition keeps {S T A} (f : S -> T) (m : stM S A) : Prop :=
  forall s s' r, m s = Ok (s', r) -> f s' = f s.

Section keeps.
Context {S T : Type} (f : S -> T).

Lemma keeps_ret {A} (a : A) : keeps f (mret a).
Proof. by intros s s' r [= <- <-]. Qed.

Lemma keeps_fail {A} e : keeps (A := A) f (fail e).
Proof. by intros s s' r [= <- <-]. Qed.

Lemma keeps_gets {A} (g : S -> A) : keeps f (gets g).
Proof. by intros s s' r [= <- <-]. Qed.

Lemma keeps_lift {A} (m : res A) : keeps f (lift m).
Proof. intros s s' r. unfold lift. destruct m; [| | done]; by intros [= <- <-]. Qed.

Lemma keeps_modify g : (forall s, f (g s) = f s) -> keeps f (modify g).
Proof. intros H s s' r [= <- <-]. apply H. Qed.

Lemma keeps_bind {A B} (m : stM S A) (k : A -> stM S B) :
  keeps f m -> (forall a, keeps f (k a)) -> keeps f (m ≫= k).
Proof.
  intros Hm Hk s s' r. unfold mbind, stM_bind. destruct (m s) as [[s1 [a | e]] | |] eqn:H; [| | done | done].
  - intros H'. rewrite (Hk _ _ _ _ H'). by eapply Hm.
  - intros [= <- <-]. by eapply Hm.
Qed.

Lemma keeps_zoom {U A} (get : S -> U) (put : U -> S -> S) (m : stM U A) :
  (forall u s, f (put u s) = f s) -> keeps f (zoom get put m).
Proof. intros H s s' r. unfold zoom. destruct (m (get s)) as [[u r'] | |]; [| done | done]. intros [= <- <-]. apply H. Qed.

Lemma keeps_whileM fuel cond body : keeps f body -> keeps f (whileM fuel cond body).
Proof.
  intros Hb. induction fuel as [| fuel IH]; intros s s' r; cbn [whileM]; (destruct (cond s); [| by intros [= <- <-]]); [done |].
  by apply (keeps_bind body (fun _ => whileM fuel cond body)).
Qed.

Lemma keeps_if {A} (b : bool) (m k : stM S A) : keeps f m -> keeps f k -> keeps f (if b then m else k).
Proof. by destruct b. Qed.

Lemma keeps_attempt {A} (m : stM S A) : keeps f m -> keeps f (attempt m).
Proof.
  intros Hm s s' r. unfold attempt. destruct (m s) as [[s1 r1] | |] eqn:H; [| done | done]. intros [= <- <-]. by eapply Hm.
Qed.

(** Knowing what is left alone strengthens a specification. *)
Lemma wps_keeps {A} (m : stM S A) s Q E :
  keeps f m -> wps m s Q E -> wps m s (fun a s' => Q a s' /\ f s' = f s) (fun e s' => E e s' /\ f s' = f s).
Proof.
  intros Hk. unfold wps. destruct (m s) as [[s' [a | e]] | |] eqn:H; try done; intros HQ; (split; [exact HQ | by eapply Hk]).
Qed.
End keeps.

Create HintDb keeps.
#[export] Hint Resolve keeps_ret keeps_fail keeps_gets keeps_lift keeps_modify keeps_bind keeps_zoom keeps_whileM keeps_if keeps_attempt : keeps.

(** One operation after the other, in every branch. *)
Ltac keeps_tac :=
  repeat match goal with
    | |- keeps _ (_ ≫= _) => apply keeps_bind; [| intros ?]
    | |- keeps _ (if _ then _ else _) => apply keeps_if
    | |- keeps _ (whileM _ _ _) => apply keeps_whileM
    | |- keeps _ (match ?x with _ => _ end) => destruct x
    | |- keeps _ _ => solve [auto with keeps]
    end.

(** ** The file *)
Record osfile := mk_osfile {
  f_data : option (list Z);   (* the bytes at the output path *)
  f_open : bool;              (* an open handle (non-nil [*os.File]) *)
  f_stuck : bool;             (* not in the program: [os.Remove] failed for this file *)
  f_calls : nat               (* system calls so far *)
}.

(** How the system answers: [fault n] is [Some k] when call number [n] fails (a
    write then has stored its first [k] bytes); preallocation extends the file
    on some platforms and only reserves space on others. *)
Class OS := { fault : nat -> option Z; prealloc_grows : bool }.

(** Storing [bs] at [off]; a gap reads as zeros. *)
Definition pwrite (f : list Z) (off : Z) (bs : list Z) : list Z :=
  let o := Z.to_nat off in
  take o (f ++ replicate (o - length f) 0) ++ bs ++ drop (o + length bs) f.

Section os.
Context `{!OS}.

(** One system call: [ok] is what it does when it works, [bad k] what it leaves
    behind when it fails. *)
Definition sysCall (ok : osfile -> osfile) (bad : Z -> osfile -> osfile) : stM osfile unit := fun f =>
  let f1 := mk_osfile (f_data f) (f_open f) (f_stuck f) (S (f_calls f)) in
  match fault (f_calls f) with
  | None => Ok (ok f1, inl tt)
  | Some k => Ok (bad k f1, inr ErrOther)
  end.

Definition with_data (d : option (list Z)) (f : osfile) : osfile := mk_osfile d (f_open f) (f_stuck f) (f_calls f).
Definition with_open (o : bool) (f : osfile) : osfile := mk_osfile (f_data f) o (f_stuck f) (f_calls f).

Definition osCreate : stM osfile unit :=
  sysCall (fun f => mk_osfile (Some []) true false (f_calls f)) (fun _ f => f).

Definition content (f : osfile) : list Z := default [] (f_data f).

(** [file.WriteAt(bs, off)]; a negative offset is an error. *)
Definition osWriteAt (bs : list Z) (off : Z) : stM osfile unit := fun f =>
  if off <? 0 then Ok (f, inr ErrOther)
  else
    sysCall (fun f => with_data (Some (pwrite (content f) off bs)) f)
      (fun k f => with_data (Some (pwrite (content f) off (take (Z.to_nat k) bs))) f) f.

(** [file.ReadAt(buf, off)] with a buffer of [n] bytes: the bytes read, or an
    error (a read past the end is one). *)
Definition osReadAt (n off : Z) : stM osfile (list Z) := fun f =>
  let f1 := mk_osfile (f_data f) (f_open f) (f_stuck f) (S (f_calls f)) in
  match fault (f_calls f) with
  | Some _ => Ok (f1, inr ErrOther)
  | None =>
      if (off <? 0) || (len (content f) <? off + n) then Ok (f1, inr ErrOther)
      else Ok (f1, inl (window (content f) (Z.to_nat off) (Z.to_nat n)))
  end.

Definition osTruncate (n : Z) : stM osfile unit := fun f =>
  if n <? 0 then Ok (f, inr ErrOther)
  else
    sysCall (fun f => with_data (Some (take (Z.to_nat n) (content f ++ replicate (Z.to_nat n - length (content f)) 0))) f)
      (fun _ f => f) f.

Definition preallocFile (size : Z) : stM osfile unit :=
  if prealloc_grows then osTruncate size else sysCall (fun f => f) (fun _ f => f).

Definition osSync : stM osfile unit := sysCall (fun f => f) (fun _ f => f).
(** The handle is gone also when [Close] reports an error. *)
Definition osClose : stM osfile unit := sysCall (with_open false) (fun _ => with_open false).
Definition osRemove : stM osfile unit :=
  sysCall (with_data None) (fun _ f => mk_osfile (f_data f) (f_open f) true (f_calls f)).
End os.

(** ** What a file holds *)
Definition holds (f : list Z) (off : Z) (bs : list Z) : Prop :=
  0 <= off /\ forall i, (i < length bs)%nat -> f !! (Z.to_nat off + i)%nat = bs !! i.

Lemma holds_nil f off : 0 <= off -> holds f off [].
Proof. intros H. split; [done |]. cbn. lia. Qed.

Lemma len_pwrite f off bs : 0 <= off -> len (pwrite f off bs) = Z.max (len f) (off + len bs).
Proof.
  intros Ho. unfold pwrite, len. rewrite !length_app, length_take, length_drop, length_app, length_replicate. lia.
Qed.

Lemma pwrite_lookup f off bs i : 0 <= off -> (i < length f)%nat ->
  pwrite f off bs !! i =
  if decide (Z.to_nat off <= i < Z.to_nat off + length bs)%nat then bs !! (i - Z.to_nat off)%nat else f !! i.
Proof.
  intros Ho Hi. unfold pwrite. set (o := Z.to_nat off).
  assert (length (take o (f ++ replicate (o - length f) 0)) = o) as Hl by (rewrite length_take, length_app, length_replicate; lia).
  destruct (decide (i < o)%nat).
  - rewrite lookup_app_l, lookup_take_lt, lookup_app_l by lia. rewrite decide_False by lia. done.
  - rewrite lookup_app_r, Hl by lia. case_decide.
    + by rewrite lookup_app_l by lia.
    + rewrite lookup_app_r, lookup_drop by lia. f_equal. lia.
Qed.

Lemma holds_pwrite_same f off bs : 0 <= off -> holds (pwrite f off bs) off bs.
Proof.
  intros Ho. split; [done |]. intros i Hi. unfold pwrite. set (o := Z.to_nat off).
  assert (length (take o (f ++ replicate (o - length f) 0)) = o) as Hl by (rewrite length_take, length_app, length_replicate; lia).
  rewrite lookup_app_r, Hl by lia. rewrite lookup_app_l by lia. f_equal. lia.
Qed.

Lemma holds_pwrite_at f off off' bs : 0 <= off -> off = off' -> holds (pwrite f off bs) off' bs.
Proof. intros Ho <-. by apply holds_pwrite_same. Qed.

Lemma holds_at f off off' bs : holds f off bs -> off = off' -> holds f off' bs.
Proof. by intros H <-. Qed.

Lemma holds_lt f off bs i : holds f off bs -> (i < length bs)%nat -> (Z.to_nat off + i < length f)%nat.
Proof. intros [_ H] Hi. apply lookup_lt_is_Some. rewrite H by done. by apply lookup_lt_is_Some. Qed.

Lemma holds_pwrite_other f off bs off' bs' :
  0 <= off -> holds f off' bs' -> off' + len bs' <= off \/ off + len bs <= off' -> holds (pwrite f off bs) off' bs'.
Proof.
  intros Ho Hh Hd. pose proof Hh as [H0 H]. split; [done |]. intros i Hi. pose proof (holds_lt _ _ _ _ Hh Hi).
  unfold len in *. rewrite pwrite_lookup, decide_False by lia. by apply H.
Qed.

Lemma holds_app f off a b : holds f off a -> holds f (off + len a) b -> holds f off (a ++ b).
Proof.
  intros [H0 H1] [_ H2]. split; [done |]. intros i Hi. rewrite length_app in Hi. destruct (decide (i < length a)%nat).
  - rewrite lookup_app_l by lia. by apply H1.
  - rewrite lookup_app_r by lia. rewrite <- H2 by lia. f_equal. unfold len. lia.
Qed.

(** Appending a write to what a region holds. *)
Lemma holds_extend f off a b : holds f off a -> holds (pwrite f (off + len a) b) off (a ++ b).
Proof.
  intros H. pose proof H as (H0 & _). pose proof (len_nonneg a). apply holds_app.
  - apply holds_pwrite_other; [lia | done | by left].
  - apply holds_pwrite_same. lia.
Qed.

Lemma holds_take f off bs n : holds f off bs -> off + len bs <= n -> holds (take (Z.to_nat n) f) off bs.
Proof.
  intros [H0 H] Hn. split; [done |]. unfold len in *. intros i Hi. rewrite lookup_take_lt by lia. by apply H.
Qed.

Lemma holds_app_pad f off bs k : holds f off bs -> holds (f ++ k) off bs.
Proof.
  intros Hh. pose proof Hh as [H0 H]. split; [done |]. intros i Hi. rewrite lookup_app_l by (by eapply holds_lt). by apply H.
Qed.

(** A file that holds bytes up to its end is these bytes. *)
Lemma holds_all f bs : holds f 0 bs -> len f = len bs -> f = bs.
Proof.
  intros [_ H] Hl. apply list_eq. intros i. destruct (decide (i < length bs)%nat) as [Hi | Hi].
  - by apply (H i).
  - unfold len in Hl. rewrite !(proj2 (lookup_ge_None _ _)) by lia. done.
Qed.

(** ** System calls *)
Section calls.
Context `{!OS}.

(** What a call can do to the file when it fails. *)
Definition io_failed (e : error) : Prop := e = ErrOther.

Lemma wps_sysCall ok bad f (Q : unit -> osfile -> Prop) E :
  (let f1 := mk_osfile (f_data f) (f_open f) (f_stuck f) (S (f_calls f)) in Q tt (ok f1) /\ forall k, fault (f_calls f) = Some k -> E ErrOther (bad k f1)) ->
  wps (sysCall ok bad) f Q E.
Proof. intros [HQ HE]. unfold wps, sysCall. destruct (fault (f_calls f)) eqn:Hf; [by apply HE | apply HQ]. Qed.

Lemma wps_osWriteAt bs off f (Q : unit -> osfile -> Prop) E :
  (forall n, 0 <= off -> Q tt (mk_osfile (Some (pwrite (content f) off bs)) (f_open f) (f_stuck f) n)) ->
  (forall d n, E ErrOther (mk_osfile d (f_open f) (f_stuck f) n)) ->
  wps (osWriteAt bs off) f Q E.
Proof.
  intros HQ HE. unfold osWriteAt. destruct (Z.ltb_spec off 0); [destruct f; apply HE |].
  apply wps_sysCall. split; [by apply HQ | intros k _; apply HE].
Qed.

(** Reading a part of the file that is known. *)
Lemma wps_osReadAt n off f bs (Q : list Z -> osfile -> Prop) (E : error -> osfile -> Prop) :
  holds (content f) off bs -> len bs = n ->
  (forall f', f_data f' = f_data f -> f_open f' = f_open f -> Q bs f') ->
  (forall f', f_data f' = f_data f -> f_open f' = f_open f -> E ErrOther f') ->
  wps (osReadAt n off) f Q E.
Proof.
  intros Hh Hn HQ HE. pose proof Hh as [Ho Hbs]. unfold wps, osReadAt. destruct (fault (f_calls f)); [by apply HE |].
  destruct (Z.ltb_spec off 0), (Z.ltb_spec (len (content f)) (off + n)); cbn [orb]; try by apply HE.
  enough (window (content f) (Z.to_nat off) (Z.to_nat n) = bs) as -> by by apply HQ.
  apply list_eq. intros i. rewrite lookup_window. unfold len in Hn. destruct (decide (i < length bs)%nat) as [Hi | Hi].
  - rewrite decide_True by lia. by apply Hbs.
  - rewrite decide_False by lia. symmetry. apply lookup_ge_None. lia.
Qed.

(** The system call with this number fails. *)
Definition fails (n : nat) : Prop := fault n <> None.
End calls.
