(* ===== verification/Options.v ===== *)
(** * [builder_options.go]: the configuration of a build *)
From Stdlib Require Import String.
From S2P Require Import Prelude Words Key Algorithm.
#[local] Open Scope Z_scope.

Record buildConfig := mk_buildConfig {
  workers : Z;
  payloadSize : Z;
  fingerprintSize : Z;
  globalSeed : Z;             (* uint64 *)
  userMetadata : list Z;
  unsortedTempDir : string;
  algorithm : Z;              (* uint16 *)
  totalKeys : Z               (* uint64 *)
}.

Definition defaultBuildConfig : buildConfig :=
  mk_buildConfig 0 0 0 0x1234567890abcdef [] EmptyString AlgoBijection 0.

(** A [BuildOption] changes the configuration it is given. *)
Definition BuildOption : Type := buildConfig -> buildConfig.

Definition WithWorkers (n : Z) : BuildOption := fun c =>
  mk_buildConfig n (payloadSize c) (fingerprintSize c) (globalSeed c) (userMetadata c) (unsortedTempDir c) (algorithm c) (totalKeys c).
Definition WithPayload (sizeBytes : Z) : BuildOption := fun c =>
  mk_buildConfig (workers c) sizeBytes (fingerprintSize c) (globalSeed c) (userMetadata c) (unsortedTempDir c) (algorithm c) (totalKeys c).
Definition WithFingerprint (sizeBytes : Z) : BuildOption := fun c =>
  mk_buildConfig (workers c) (payloadSize c) sizeBytes (globalSeed c) (userMetadata c) (unsortedTempDir c) (algorithm c) (totalKeys c).
Definition WithGlobalSeed (seed : Z) : BuildOption := fun c =>
  mk_buildConfig (workers c) (payloadSize c) (fingerprintSize c) seed (userMetadata c) (unsortedTempDir c) (algorithm c) (totalKeys c).
Definition WithMetadata (data : list Z) : BuildOption := fun c =>
  mk_buildConfig (workers c) (payloadSize c) (fingerprintSize c) (globalSeed c) data (unsortedTempDir c) (algorithm c) (totalKeys c).
Definition WithAlgorithm (algo : Z) : BuildOption := fun c =>
  mk_buildConfig (workers c) (payloadSize c) (fingerprintSize c) (globalSeed c) (userMetadata c) (unsortedTempDir c) algo (totalKeys c).

Definition set_totalKeys (n : Z) (c : buildConfig) : buildConfig :=
  mk_buildConfig (workers c) (payloadSize c) (fingerprintSize c) (globalSeed c) (userMetadata c) (unsortedTempDir c) (algorithm c) n.

Definition set_unsortedTempDir (dir : string) (c : buildConfig) : buildConfig :=
  mk_buildConfig (workers c) (payloadSize c) (fingerprintSize c) (globalSeed c) (userMetadata c) dir (algorithm c) (totalKeys c).

Definition cfg_entrySize (c : buildConfig) : Z := payloadSize c + fingerprintSize c.
