(* ===== verification/Writer.v ===== *)
(** * [index_writer.go]: writing the file

    The writer stores each block's metadata and entries as the blocks are built
    and, at the end, the header, the variable sections, the RAM index and the
    footer. It keeps the offsets of the regions, the RAM index so far and the two
    streaming hashes. *)
From S2P Require Import Prelude Words Bits Encoding Key Entries Header Algorithm Block Index File Options.
Import Header.Header Header.Footer Header.RamIndex.
#[local] Open Scope Z_scope.

Section writer.
Context `{HX : !XXHash} `{HO : !OS}.

Record indexWriter := mk_iw {
  file : osfile;                 (* a nil handle is a file that is not open *)
  payloadRegionOffset : Z;       (* uint64, as every offset here *)
  metadataRegionOffset : Z;
  userMetadataOffset : Z;
  algoConfigOffset : Z;
  ramIndexOffset : Z;
  metadataWriteOffset : Z;
  ramIndex : list ramIndexEntry;
  payloadHasher : Digest;
  metadataHasher : Digest;
  iw_header : header;
  iw_cfg : buildConfig;
  iw_numBlocks : Z;              (* uint32 *)
  estimatedSize : Z;
  algo : blockBuilder;
  keyCount : Z;                  (* uint64 *)
  blockCount : Z                 (* uint32 *)
}.

Definition set_file (f : osfile) (w : indexWriter) : indexWriter :=
  mk_iw f (payloadRegionOffset w) (metadataRegionOffset w) (userMetadataOffset w) (algoConfigOffset w)
    (ramIndexOffset w) (metadataWriteOffset w) (ramIndex w) (payloadHasher w) (metadataHasher w) (iw_header w)
    (iw_cfg w) (iw_numBlocks w) (estimatedSize w) (algo w) (keyCount w) (blockCount w).
Definition set_metadata (off : Z) (h : Digest) (w : indexWriter) : indexWriter :=
  mk_iw (file w) (payloadRegionOffset w) (metadataRegionOffset w) (userMetadataOffset w) (algoConfigOffset w)
    (ramIndexOffset w) off (ramIndex w) (payloadHasher w) h (iw_header w)
    (iw_cfg w) (iw_numBlocks w) (estimatedSize w) (algo w) (keyCount w) (blockCount w).
Definition set_ramIndex (es : list ramIndexEntry) (w : indexWriter) : indexWriter :=
  mk_iw (file w) (payloadRegionOffset w) (metadataRegionOffset w) (userMetadataOffset w) (algoConfigOffset w)
    (ramIndexOffset w) (metadataWriteOffset w) es (payloadHasher w) (metadataHasher w) (iw_header w)
    (iw_cfg w) (iw_numBlocks w) (estimatedSize w) (algo w) (keyCount w) (blockCount w).
Definition set_payloadHasher (h : Digest) (w : indexWriter) : indexWriter :=
  mk_iw (file w) (payloadRegionOffset w) (metadataRegionOffset w) (userMetadataOffset w) (algoConfigOffset w)
    (ramIndexOffset w) (metadataWriteOffset w) (ramIndex w) h (metadataHasher w) (iw_header w)
    (iw_cfg w) (iw_numBlocks w) (estimatedSize w) (algo w) (keyCount w) (blockCount w).
Definition set_header (h : header) (w : indexWriter) : indexWriter :=
  mk_iw (file w) (payloadRegionOffset w) (metadataRegionOffset w) (userMetadataOffset w) (algoConfigOffset w)
    (ramIndexOffset w) (metadataWriteOffset w) (ramIndex w) (payloadHasher w) (metadataHasher w) h
    (iw_cfg w) (iw_numBlocks w) (estimatedSize w) (algo w) (keyCount w) (blockCount w).
Definition set_counts (keys blocks : Z) (w : indexWriter) : indexWriter :=
  mk_iw (file w) (payloadRegionOffset w) (metadataRegionOffset w) (userMetadataOffset w) (algoConfigOffset w)
    (ramIndexOffset w) (metadataWriteOffset w) (ramIndex w) (payloadHasher w) (metadataHasher w) (iw_header w)
    (iw_cfg w) (iw_numBlocks w) (estimatedSize w) (algo w) keys blocks.

Definition estimateFileSizeForAlgo (cfg : buildConfig) (numBlocks : Z) (algo : blockBuilder)
    (userMetadataLen algoConfigLen : Z) : Z :=
  let variableSectionSize := u64 (4 + userMetadataLen + 4 + algoConfigLen) in
  let ramIndexSize := u64 (u32 (numBlocks + 1) * ramIndexEntrySize) in
  let entrySize := cfg_entrySize cfg in
  let payloadRegionSize := u64 (totalKeys cfg * u64 entrySize) in
  let metadataPerBlock := u64 (u64 (MaxIndexMetadataSize algo) + 16) in
  let estimatedMetadataSize := u64 (numBlocks * metadataPerBlock) in
  u64 (headerSize + variableSectionSize + ramIndexSize + payloadRegionSize + estimatedMetadataSize + footerSize).

(** A state change of the file that creates a writer for it. *)
Definition newIndexWriter (cfg : buildConfig) (numBlocks : Z) (algo : blockBuilder) : stM osfile indexWriter :=
  let userMetadataLen := len (userMetadata cfg) in
  if 2 ^ 32 - 1 <? userMetadataLen then fail ErrOther
  else
    let algoConfigLen := GlobalConfigSize algo in
    let estimatedSize := estimateFileSizeForAlgo cfg numBlocks algo userMetadataLen algoConfigLen in
    _ ← osCreate;
    let entrySize := cfg_entrySize cfg in
    let userMetadataOffset := headerSize in
    let algoConfigOffset := u64 (userMetadataOffset + 4 + userMetadataLen) in
    let ramIndexOffset := u64 (algoConfigOffset + 4 + algoConfigLen) in
    let ramIndexSize := u64 (u32 (numBlocks + 1) * ramIndexEntrySize) in
    let payloadRegionOffset := u64 (ramIndexOffset + ramIndexSize) in
    let payloadRegionSize := u64 (totalKeys cfg * u64 entrySize) in
    let metadataRegionOffset := u64 (payloadRegionOffset + payloadRegionSize) in
    r ← attempt (preallocFile (int64 estimatedSize));
    match r with
    | inr e => _ ← attempt osClose; fail e
    | inl _ =>
        f ← gets id;
        mret (mk_iw f payloadRegionOffset metadataRegionOffset userMetadataOffset algoConfigOffset ramIndexOffset
          metadataRegionOffset [] xx_New xx_New
          (mk_header magic version (totalKeys cfg) numBlocks (u32 (payloadSize cfg)) (u8 (fingerprintSize cfg))
             (globalSeed cfg) (algorithm cfg) (make 0 31))
          cfg numBlocks estimatedSize algo 0 0)
    end.

(** [iw.file.WriteAt(bs, int64(off))] *)
Definition writeAt (bs : list Z) (off : Z) : stM indexWriter unit := zoom file set_file (osWriteAt bs (int64 off)).

Definition writePayloadsDirect (dat : list Z) (offset : Z) : stM indexWriter unit :=
  if len dat =? 0 then mret tt
  else
    po ← gets payloadRegionOffset;
    mo ← gets metadataRegionOffset;
    let absoluteOffset := u64 (po + offset) in
    if mo <? u64 (absoluteOffset + len dat) then fail ErrOther
    else writeAt dat absoluteOffset.

Definition foldPayloadHash (blockPayloadHash : Z) : stM indexWriter unit :=
  buf ← lift (put_le 8 (make 0 8) 0 blockPayloadHash);
  modify (fun w => set_payloadHasher (xx_Write (payloadHasher w) buf) w).

Definition recordAndWriteMetadata (metadata : list Z) : stM indexWriter unit :=
  _ ← modify (fun w =>
        let metadataRelOffset := u64 (metadataWriteOffset w - metadataRegionOffset w) in
        set_ramIndex (ramIndex w ++ [mk_entry (keyCount w) metadataRelOffset]) w);
  if 0 <? len metadata then
    off ← gets metadataWriteOffset;
    _ ← writeAt metadata off;
    modify (fun w => set_metadata (u64 (metadataWriteOffset w + len metadata)) (xx_Write (metadataHasher w) metadata) w)
  else mret tt.

Definition count_block (numKeys : Z) : stM indexWriter unit :=
  modify (fun w => set_counts (u64 (keyCount w + numKeys)) (u32 (blockCount w + 1)) w).

Definition writeMetadata (metadata : list Z) (numKeys : Z) : stM indexWriter unit :=
  _ ← recordAndWriteMetadata metadata;
  count_block numKeys.

Definition commitBlockWithData (metadata payloads : list Z) (numKeys : Z) : stM indexWriter unit :=
  _ ← recordAndWriteMetadata metadata;
  w ← gets id;
  let entrySize := cfg_entrySize (iw_cfg w) in
  _ ← (if (0 <? entrySize) && (0 <? numKeys) then
         let payloadOffset := u64 (payloadRegionOffset w + u64 (keyCount w * entrySize)) in
         _ ← writeAt payloads payloadOffset;
         foldPayloadHash (Sum64 payloads)
       else foldPayloadHash (Sum64 []));
  count_block numKeys.

(** [close]: idempotent; the handle is nil afterwards. *)
Definition iw_close : stM indexWriter unit :=
  w ← gets id;
  if f_open (file w) then zoom file set_file osClose else mret tt.

(** [if err := m; err != nil { return errors.Join(err, iw.close()) }] *)
Definition orClose (m : stM indexWriter unit) : stM indexWriter unit :=
  r ← attempt m;
  match r with
  | inl _ => mret tt
  | inr e => _ ← attempt iw_close; fail e
  end.

Definition encodeRAMIndex (es : list ramIndexEntry) : res (list Z) :=
  '(buf, _) ← foldM (fun '(buf, offset) entry =>
      tail ← slice buf offset (len buf);
      tail ← encodeRAMIndexEntryTo entry tail;
      buf ← store buf offset tail;
      Ok (buf, offset + ramIndexEntrySize)) (make 0 (len es * ramIndexEntrySize), 0) es;
  Ok buf.

Definition finalize : stM indexWriter unit :=
  w ← gets id;
  let actualSize := u64 (metadataWriteOffset w + footerSize) in
  _ ← orClose (if estimatedSize w <? actualSize then fail ErrOther else mret tt);
  let metadataRelOffset := u64 (metadataWriteOffset w - metadataRegionOffset w) in
  _ ← modify (fun w => set_ramIndex (ramIndex w ++ [mk_entry (keyCount w) metadataRelOffset]) w);
  let payloadRegionHash := xx_Sum64 (payloadHasher w) in
  let metadataRegionHash := xx_Sum64 (metadataHasher w) in
  _ ← modify (fun w =>
        let h := iw_header w in
        set_header (mk_header (Magic h) (Version h) (keyCount w) (blockCount w) (PayloadSize h) (FingerprintSize h)
                      (Seed h) (BlockAlgorithm h) (Header.Header.Reserved h)) w);
  w ← gets id;
  headerBuf ← lift (header_encodeTo (iw_header w) (make 0 headerSize));
  _ ← orClose (writeAt headerBuf 0);
  let user := userMetadata (iw_cfg w) in
  userMetaBuf ← lift (put_le 4 (make 0 (4 + len user)) 0 (u32 (len user)));
  userMetaBuf ← lift (store userMetaBuf 4 user);
  _ ← orClose (writeAt userMetaBuf (userMetadataOffset w));
  let algoConfigLen := GlobalConfigSize (algo w) in
  algoConfigBuf ← lift (put_le 4 (make 0 (4 + algoConfigLen)) 0 (u32 algoConfigLen));
  algoConfigBuf ← lift (if 0 <? algoConfigLen then
                          tail ← slice algoConfigBuf 4 (len algoConfigBuf);
                          store algoConfigBuf 4 (EncodeGlobalConfigInto (algo w) tail).1
                        else Ok algoConfigBuf);
  _ ← orClose (writeAt algoConfigBuf (algoConfigOffset w));
  ramIndexBuf ← lift (encodeRAMIndex (ramIndex w));
  _ ← orClose (writeAt ramIndexBuf (ramIndexOffset w));
  footerBuf ← lift (footer_encodeTo (mk_footer payloadRegionHash metadataRegionHash (make 0 16)) (make 0 footerSize));
  _ ← orClose (writeAt footerBuf (metadataWriteOffset w));
  _ ← orClose (zoom file set_file (osTruncate (int64 actualSize)));
  _ ← orClose (zoom file set_file osSync);
  zoom file set_file osClose.
End writer.
