(* ===== verification/WriterSpec.v ===== *)
(** * The index writer against the image of a file

    What the writer has committed at any time is a list of blocks, in order; the
    regions of the file, the RAM index and the two running hashes are those of
    that list. When [finalize] returns no error the file is the image. *)
From S2P Require Import Prelude Words Bits Encoding Key Entries Header Algorithm Block Index File Options Writer Image.
Import Header.Header Header.Footer Header.RamIndex.
#[local] Open Scope Z_scope.

(** A build within the limits of the file format. *)
Record build_ok (cfg : buildConfig) (c : config) : Prop := {
  bd_config : config_ok c;
  bd_algo : c_algo c = algorithm cfg;
  bd_known : c_algo c = AlgoBijection \/ c_algo c = AlgoPTRHash;
  bd_seed : c_seed c = globalSeed cfg;
  bd_ps : c_ps c = payloadSize cfg;
  bd_fps : c_fps c = fingerprintSize cfg;
  bd_num : 2 <= c_numBlocks c < 2 ^ 32 - 1;
  bd_max : 0 <= c_maxMeta c <= 2 ^ 20;
  bd_total : is_u 40 (totalKeys cfg);
  bd_user : Forall is_byte (userMetadata cfg);
  bd_user_len : is_u 32 (len (userMetadata cfg))
}.

(** A block whose parts fit their regions. *)
Record fits (c : config) (b : blockData) : Prop := {
  ft_pay : len (bd_pay b) = len (bd_keys b) * c_entrySize c;
  ft_meta : minMetadata <= len (bd_meta b) <= maxMetadata
}.

Lemma keys_of_app a b : keys_of (a ++ b) = keys_of a ++ keys_of b.
Proof. unfold keys_of. by rewrite map_app, concat_app. Qed.

Lemma metas_of_app a b : metas_of (a ++ b) = metas_of a ++ metas_of b.
Proof. unfold metas_of. by rewrite map_app, concat_app. Qed.

Lemma pays_of_app a b : pays_of (a ++ b) = pays_of a ++ pays_of b.
Proof. unfold pays_of. by rewrite map_app, concat_app. Qed.

Lemma keys_of_single b : keys_of [b] = bd_keys b.
Proof. apply app_nil_r. Qed.

Lemma metas_of_single b : metas_of [b] = bd_meta b.
Proof. apply app_nil_r. Qed.

Lemma pays_of_single b : pays_of [b] = bd_pay b.
Proof. apply app_nil_r. Qed.

Lemma len_pays_fits c bs : Forall (fits c) bs -> len (pays_of bs) = len (keys_of bs) * c_entrySize c.
Proof.
  unfold pays_of, keys_of. induction 1 as [| b bs Hb _ IH]; [done |]. cbn [map concat].
  rewrite !len_app, IH, (ft_pay _ _ Hb). lia.
Qed.

Lemma len_metas_fits c bs : Forall (fits c) bs -> 0 <= len (metas_of bs) <= maxMetadata * len bs.
Proof.
  unfold metas_of. induction 1 as [| b bs Hb _ IH]; [done |]. cbn [map concat]. rewrite !len_app, len_cons.
  pose proof (ft_meta _ _ Hb). unfold minMetadata in *. lia.
Qed.

(** The RAM index grows at its end: the sentinel becomes the entry of the new block. *)
Lemma ram_entries_snoc bs b : forall kb mo es,
  es ++ [mk_entry (kb + len (keys_of bs)) (mo + len (metas_of bs))] = ram_entries kb mo bs ->
  (es ++ [mk_entry (kb + len (keys_of bs)) (mo + len (metas_of bs))]) ++
    [mk_entry (kb + len (keys_of (bs ++ [b]))) (mo + len (metas_of (bs ++ [b])))] = ram_entries kb mo (bs ++ [b]).
Proof.
  intros kb mo es ->. revert kb mo. induction bs as [| b0 bs IH]; intros kb mo; cbn [ram_entries app].
  - by rewrite keys_of_single, metas_of_single.
  - f_equal. rewrite <- IH. do 3 f_equal; unfold keys_of, metas_of; cbn [map concat]; rewrite len_app; lia.
Qed.

(** A number that fills its buffer, or starts it. *)
Lemma put_le_start n buf v : Z.of_nat n <= len buf -> put_le n buf 0 v = Ok (le_bytes n v ++ drop n buf).
Proof.
  intros Hn. unfold put_le, store. rewrite len_le_bytes. destruct (Z.leb_spec (0 + Z.of_nat n) (len buf)); [| lia].
  cbn [Z.leb andb]. rewrite length_le_bytes. reflexivity.
Qed.

Lemma store_all (buf bs : list Z) : len bs = len buf -> store buf 0 bs = Ok bs.
Proof.
  intros Hl. apply store_ok. split; [done |]. split; [lia |]. unfold len in Hl. cbn [Z.to_nat take app].
  by rewrite drop_ge, app_nil_r by lia.
Qed.

Lemma put_le_all n buf v : length buf = n -> put_le n buf 0 v = Ok (le_bytes n v).
Proof. intros <-. rewrite put_le_start by (unfold len; lia). by rewrite drop_all, app_nil_r. Qed.

Section spec.
Context `{HX : !XXHash} {HL : XXHashLaws} `{HO : !OS}.
Context (cfg : buildConfig) (c : config).

(** Where the payload and the metadata region start. *)
Definition payStart : Z := 72 + len (userMetadata cfg) + 10 * (c_numBlocks c + 1).
Definition metaStart : Z := payStart + totalKeys cfg * c_entrySize c.

Definition pay_digest (b : blockData) : list Z := le_bytes 8 (Sum64 (bd_pay b)).

Definition header0 : header :=
  mk_header magic version (totalKeys cfg) (c_numBlocks c) (c_ps c) (c_fps c) (c_seed c) (c_algo c) (make 0 31).

(** The regions, for a number of keys that fits the space reserved for them. *)
Record in_place (w : indexWriter) (bs : list blockData) : Prop := {
  ip_keys : keyCount w = len (keys_of bs);
  ip_ram : ramIndex w ++ [mk_entry (len (keys_of bs)) (len (metas_of bs))] = ram_entries 0 0 bs;
  ip_metas : holds (content (file w)) metaStart (metas_of bs)
}.

Record committed (w : indexWriter) (bs : list blockData) : Prop := {
  cm_po : payloadRegionOffset w = payStart;
  cm_mo : metadataRegionOffset w = metaStart;
  cm_uo : userMetadataOffset w = 64;
  cm_ao : algoConfigOffset w = 68 + len (userMetadata cfg);
  cm_ro : ramIndexOffset w = 72 + len (userMetadata cfg);
  cm_header : iw_header w = header0;
  cm_cfg : iw_cfg w = cfg;
  cm_algo : GlobalConfigSize (algo w) = 0;
  cm_open : f_open (file w) = true;
  cm_fits : Forall (fits c) bs;
  cm_num : len bs <= c_numBlocks c;
  cm_mw : metadataWriteOffset w = metaStart + len (metas_of bs);
  cm_ph : payloadHasher w = foldl xx_Write xx_New (map pay_digest bs);
  cm_mh : metadataHasher w = foldl xx_Write xx_New (map bd_meta bs);
  cm_blocks : blockCount w = len bs;
  cm_place : len (keys_of bs) <= totalKeys cfg -> in_place w bs
}.

Definition pays_in (w : indexWriter) (bs : list blockData) : Prop :=
  len (keys_of bs) <= totalKeys cfg -> holds (content (file w)) payStart (pays_of bs).

(** Failing to write is the only error. *)
Definition io_error (e : error) (w : indexWriter) : Prop := e = ErrOther.

Lemma start_bounds : build_ok cfg c ->
  0 <= len (userMetadata cfg) < 2 ^ 32 /\ 0 <= c_entrySize c <= 12 /\ 102 <= payStart /\
  payStart <= metaStart < 2 ^ 45 /\ 0 <= totalKeys cfg < 2 ^ 40 /\
  metaStart = payStart + totalKeys cfg * c_entrySize c.
Proof.
  intros [[_ Hp Hf] _ _ _ _ _ Hn _ Ht _ Hu]. unfold payStart, metaStart, payStart, c_entrySize, is_u, maxPayloadSize, maxFingerprintSize in *.
  set (k := totalKeys cfg) in *. set (e := c_ps c + c_fps c) in *. assert (0 <= e <= 12) by lia. clearbody e k.
  split_and!; try lia; nia.
Qed.

Lemma metas_bound w bs : build_ok cfg c -> committed w bs -> 0 <= len (metas_of bs) < 2 ^ 50.
Proof.
  intros Hb Hw. pose proof (len_metas_fits c bs (cm_fits _ _ Hw)). pose proof (cm_num _ _ Hw).
  pose proof (bd_num _ _ Hb). unfold maxMetadata in *. lia.
Qed.

Lemma int64_id z : 0 <= z < 2 ^ 63 -> int64 z = z.
Proof. intros Hz. unfold int64. rewrite u64_id by (unfold is_u; lia). destruct (Z.ltb_spec z (2 ^ 63)); lia. Qed.

Lemma wps_writeAt bs off w (Q : unit -> indexWriter -> Prop) :
  (forall n, 0 <= int64 off -> Q tt (set_file (mk_osfile (Some (pwrite (content (file w)) (int64 off) bs)) (f_open (file w)) (f_stuck (file w)) n) w)) ->
  wps (writeAt bs off) w Q io_error.
Proof. intros HQ. unfold writeAt. apply wps_zoom, wps_osWriteAt; [intros n Hn; by apply HQ | intros d n; done]. Qed.

(** ** Committing a block

    The writer after block [b], the file being [f]. *)
Definition commit_state (w : indexWriter) (b : blockData) (f : osfile) : indexWriter :=
  mk_iw f (payloadRegionOffset w) (metadataRegionOffset w) (userMetadataOffset w) (algoConfigOffset w)
    (ramIndexOffset w) (u64 (metadataWriteOffset w + len (bd_meta b)))
    (ramIndex w ++ [mk_entry (keyCount w) (u64 (metadataWriteOffset w - metadataRegionOffset w))])
    (xx_Write (payloadHasher w) (pay_digest b)) (xx_Write (metadataHasher w) (bd_meta b)) (iw_header w)
    (iw_cfg w) (iw_numBlocks w) (estimatedSize w) (algo w) (u64 (keyCount w + len (bd_keys b))) (u32 (blockCount w + 1)).

Lemma committed_step w bs b f :
  build_ok cfg c -> committed w bs -> fits c b -> len bs < c_numBlocks c -> f_open f = true ->
  (len (keys_of (bs ++ [b])) <= totalKeys cfg -> holds (content f) metaStart (metas_of (bs ++ [b]))) ->
  committed (commit_state w b f) (bs ++ [b]).
Proof.
  intros Hok Hw Hb Hn Hopen Hmeta. pose proof (metas_bound w bs Hok Hw) as Hm.
  pose proof (start_bounds Hok) as (_ & _ & H1 & H2 & H3 & _). pose proof (bd_num _ _ Hok) as Hnb.
  pose proof (ft_meta _ _ Hb) as Hbm. unfold minMetadata, maxMetadata in Hbm. pose proof (len_nonneg bs).
  destruct Hw. split; cbn; try assumption.
  - apply Forall_app. by split; [| constructor].
  - rewrite len_app, len_single. lia.
  - rewrite cm_mw0, u64_id by (unfold is_u; lia). rewrite metas_of_app, metas_of_single, len_app. lia.
  - by rewrite map_app, foldl_app, cm_ph0.
  - by rewrite map_app, foldl_app, cm_mh0.
  - rewrite cm_blocks0, u32_id by (unfold is_u; lia). by rewrite len_app.
  - intros Hk. pose proof Hk as Hk'. rewrite keys_of_app, keys_of_single, len_app in Hk'. pose proof (len_nonneg (bd_keys b)).
    pose proof (len_nonneg (keys_of bs)).
    destruct (cm_place0 ltac:(lia)) as [Hkc Hram _]. split; cbn; [| | by apply Hmeta].
    + rewrite Hkc, u64_id by (unfold is_u; lia). by rewrite keys_of_app, keys_of_single, len_app.
    + rewrite cm_mw0, cm_mo0, Hkc. replace (metaStart + len (metas_of bs) - metaStart) with (len (metas_of bs)) by lia.
      rewrite u64_id by (unfold is_u; lia). by apply (ram_entries_snoc bs b 0 0).
Qed.

(** Writing the metadata [m] of the next block. *)
Definition record_state (w : indexWriter) (m : list Z) (f : osfile) : indexWriter :=
  set_metadata (u64 (metadataWriteOffset w + len m)) (xx_Write (metadataHasher w) m)
    (set_file f
       (set_ramIndex (ramIndex w ++ [mk_entry (keyCount w) (u64 (metadataWriteOffset w - metadataRegionOffset w))]) w)).

Lemma recordAndWriteMetadata_spec w bs b (Q : unit -> indexWriter -> Prop) :
  build_ok cfg c -> committed w bs -> fits c b ->
  (forall n, Q tt (record_state w (bd_meta b)
     (mk_osfile (Some (pwrite (content (file w)) (metaStart + len (metas_of bs)) (bd_meta b))) true (f_stuck (file w)) n))) ->
  wps (recordAndWriteMetadata (bd_meta b)) w Q io_error.
Proof.
  intros Hok Hw Hb HQ. pose proof (metas_bound w bs Hok Hw) as Hm. pose proof (start_bounds Hok) as (_ & _ & H1 & H2 & _).
  pose proof (ft_meta _ _ Hb) as Hbm. unfold minMetadata in Hbm. unfold recordAndWriteMetadata.
  apply wps_bind, wps_modify. destruct (Z.ltb_spec 0 (len (bd_meta b))); [| lia].
  apply wps_bind, wps_gets, wps_bind, wps_writeAt. intros n _. apply wps_modify.
  cbn [metadataWriteOffset set_ramIndex file].
  assert (int64 (metadataWriteOffset w) = metaStart + len (metas_of bs)) as -> by (rewrite (cm_mw _ _ Hw), int64_id; lia).
  specialize (HQ n). rewrite <- (cm_open _ _ Hw) in HQ. exact HQ.
Qed.

(** The metadata region after a write of the next block's metadata. *)
Lemma metas_extend w bs b : build_ok cfg c -> committed w bs -> len (keys_of (bs ++ [b])) <= totalKeys cfg ->
  holds (pwrite (content (file w)) (metaStart + len (metas_of bs)) (bd_meta b)) metaStart (metas_of (bs ++ [b])).
Proof.
  intros Hok Hw Hk. rewrite metas_of_app, metas_of_single. apply holds_extend. rewrite keys_of_app, len_app in Hk.
  pose proof (len_nonneg (keys_of [b])). apply (cm_place _ _ Hw). lia.
Qed.

(** The payload of the next block ends before the metadata region. *)
Lemma pay_end bs b : build_ok cfg c -> Forall (fits c) bs -> fits c b -> len (keys_of (bs ++ [b])) <= totalKeys cfg ->
  len (pays_of bs) = len (keys_of bs) * c_entrySize c /\
  payStart + len (keys_of bs) * c_entrySize c + len (bd_pay b) <= metaStart.
Proof.
  intros Hok Hbs Hb Hk. rewrite keys_of_app, keys_of_single, len_app in Hk. rewrite (ft_pay _ _ Hb).
  pose proof (start_bounds Hok) as (_ & He & _ & _ & _ & ->). split; [by apply len_pays_fits |]. nia.
Qed.

Lemma foldPayloadHash_eq h w :
  foldPayloadHash h w = Ok (set_payloadHasher (xx_Write (payloadHasher w) (le_bytes 8 h)) w, inl tt).
Proof.
  unfold foldPayloadHash. cbn [mbind stM_bind lift]. rewrite put_le_all by reflexivity. reflexivity.
Qed.

Lemma entrySize_cfg w bs : build_ok cfg c -> committed w bs -> cfg_entrySize (iw_cfg w) = c_entrySize c.
Proof. intros Hok Hw. rewrite (cm_cfg _ _ Hw). unfold cfg_entrySize, c_entrySize. by rewrite (bd_ps _ _ Hok), (bd_fps _ _ Hok). Qed.

(** The payloads of the next block, at the offset its rank gives. *)
Lemma pay_offset w bs b : build_ok cfg c -> committed w bs -> fits c b -> len (keys_of (bs ++ [b])) <= totalKeys cfg ->
  int64 (u64 (payloadRegionOffset w + u64 (keyCount w * c_entrySize c))) = payStart + len (pays_of bs).
Proof.
  intros Hok Hw Hb Hk. pose proof (start_bounds Hok) as (_ & He & H1 & H2 & H3 & _).
  destruct (pay_end bs b Hok (cm_fits _ _ Hw) Hb Hk) as [Hl Hend]. rewrite keys_of_app, len_app in Hk.
  pose proof (len_nonneg (keys_of [b])). pose proof (len_nonneg (bd_pay b)). pose proof (len_nonneg (pays_of bs)).
  rewrite (ip_keys _ _ (cm_place _ _ Hw ltac:(lia))), <- Hl, (cm_po _ _ Hw).
  rewrite !u64_id, int64_id by (unfold is_u; rewrite ?u64_id by (unfold is_u; lia); lia). done.
Qed.

Lemma pays_extend f bs b : build_ok cfg c -> Forall (fits c) bs -> fits c b ->
  holds f payStart (pays_of bs) ->
  holds (pwrite f (payStart + len (pays_of bs)) (bd_pay b)) payStart (pays_of (bs ++ [b])).
Proof. intros Hok Hbs Hb Hh. rewrite pays_of_app, pays_of_single. by apply holds_extend. Qed.

Lemma commitBlockWithData_spec w bs b :
  build_ok cfg c -> committed w bs -> pays_in w bs -> fits c b -> len bs < c_numBlocks c ->
  wps (commitBlockWithData (bd_meta b) (bd_pay b) (len (bd_keys b))) w
    (fun _ w' => committed w' (bs ++ [b]) /\ pays_in w' (bs ++ [b])) io_error.
Proof.
  intros Hok Hw Hpay Hb Hn. unfold commitBlockWithData. pose proof (start_bounds Hok) as (_ & He & H1 & H2 & H3 & _).
  pose proof (metas_bound w bs Hok Hw) as Hm.
  apply wps_bind. apply (recordAndWriteMetadata_spec w bs b); [done .. |]. intros n. apply wps_bind, wps_gets.
  cbn [id iw_cfg record_state set_metadata set_file set_ramIndex payloadRegionOffset keyCount].
  rewrite (entrySize_cfg w bs Hok Hw). destruct ((0 <? c_entrySize c) && (0 <? len (bd_keys b))) eqn:Hc.
  - apply wps_bind, wps_bind, wps_writeAt. intros n' Hoff. unfold wps at 1. rewrite foldPayloadHash_eq. cbn beta iota.
    apply wps_modify. cbn [record_state set_file set_metadata set_ramIndex set_payloadHasher set_counts file content f_data default f_open keyCount blockCount payloadHasher].
    match goal with |- committed ?x _ /\ _ => change x with (commit_state w b (mk_osfile (Some (pwrite (pwrite (content (file w)) (metaStart + len (metas_of bs)) (bd_meta b)) (int64 (u64 (payloadRegionOffset w + u64 (keyCount w * c_entrySize c)))) (bd_pay b))) true (f_stuck (file w)) n')) end.
    split.
    + apply committed_step; [done .. |]. intros Hk. cbn [content f_data default].
      rewrite (pay_offset w bs b Hok Hw Hb Hk). destruct (pay_end bs b Hok (cm_fits _ _ Hw) Hb Hk) as [Hl Hend].
      apply holds_pwrite_other; [pose proof (len_nonneg (pays_of bs)); lia | by apply metas_extend | right; lia].
    + intros Hk. cbn [commit_state file content f_data default]. rewrite (pay_offset w bs b Hok Hw Hb Hk).
      destruct (pay_end bs b Hok (cm_fits _ _ Hw) Hb Hk) as [Hl Hend]. pose proof (len_nonneg (bd_pay b)).
      apply pays_extend; [done | apply (cm_fits _ _ Hw) | done |]. apply holds_pwrite_other; [lia | | left; lia].
      apply Hpay. rewrite keys_of_app, len_app in Hk. pose proof (len_nonneg (keys_of [b])). lia.
  - assert (bd_pay b = []) as Hnil.
    { pose proof (ft_pay _ _ Hb) as Hp. pose proof (len_nonneg (bd_keys b)).
      destruct (Z.ltb_spec 0 (c_entrySize c)), (Z.ltb_spec 0 (len (bd_keys b))); try done;
        (destruct (bd_pay b) as [| x l]; [done |]; rewrite len_cons in Hp; pose proof (len_nonneg l); nia). }
    apply wps_bind. unfold wps at 1. rewrite foldPayloadHash_eq. cbn beta iota. apply wps_modify.
    rewrite <- Hnil.
    match goal with |- committed ?x _ /\ _ => change x with (commit_state w b (mk_osfile (Some (pwrite (content (file w)) (metaStart + len (metas_of bs)) (bd_meta b))) true (f_stuck (file w)) n)) end.
    split.
    + apply committed_step; [done .. |]. intros Hk. by apply metas_extend.
    + intros Hk. cbn [commit_state file content f_data default]. rewrite pays_of_app, pays_of_single, Hnil, app_nil_r.
      destruct (pay_end bs b Hok (cm_fits _ _ Hw) Hb Hk) as [Hl Hend]. rewrite Hnil, len_nil in Hend.
      apply holds_pwrite_other; [lia | | left; lia].
      apply Hpay. rewrite keys_of_app, len_app in Hk. pose proof (len_nonneg (keys_of [b])). lia.
Qed.

(** The parallel pipeline: the payload hash first, then the metadata; the payloads
    are already in place. *)
Lemma writeMetadata_spec w bs b (Q : unit -> indexWriter -> Prop) :
  build_ok cfg c -> committed w bs -> fits c b ->
  (forall n, Q tt (commit_state w b (mk_osfile (Some (pwrite (content (file w)) (metaStart + len (metas_of bs)) (bd_meta b))) true (f_stuck (file w)) n))) ->
  wps (foldPayloadHash (Sum64 (bd_pay b)) ≫= fun _ => writeMetadata (bd_meta b) (len (bd_keys b))) w Q io_error.
Proof.
  intros Hok Hw Hb HQ. apply wps_bind. unfold wps at 1. rewrite foldPayloadHash_eq. cbn beta iota.
  assert (recordAndWriteMetadata (bd_meta b) (set_payloadHasher (xx_Write (payloadHasher w) (pay_digest b)) w) =
    match recordAndWriteMetadata (bd_meta b) w with
    | Ok (w', r) => Ok (set_payloadHasher (xx_Write (payloadHasher w) (pay_digest b)) w', r)
    | Err e => Err e
    | Panic => Panic
    end) as Hcomm.
  { unfold recordAndWriteMetadata, modify, gets, writeAt, zoom, mbind, stM_bind.
    cbn [metadataWriteOffset set_payloadHasher set_ramIndex file]. destruct (0 <? len (bd_meta b)); [| reflexivity].
    cbn [metadataWriteOffset set_payloadHasher set_ramIndex file].
    destruct (osWriteAt (bd_meta b) (int64 (metadataWriteOffset w)) (file w)) as [[f [[] | e]] | e |]; reflexivity. }
  assert (wps (recordAndWriteMetadata (bd_meta b)) w (fun _ w' => exists n, w' = record_state w (bd_meta b)
     (mk_osfile (Some (pwrite (content (file w)) (metaStart + len (metas_of bs)) (bd_meta b))) true (f_stuck (file w)) n)) io_error) as Hr
    by (apply (recordAndWriteMetadata_spec w bs b); eauto).
  unfold writeMetadata. apply wps_bind. unfold wps in Hr |- * at 1. unfold pay_digest in Hcomm. rewrite Hcomm.
  destruct (recordAndWriteMetadata (bd_meta b) w) as [[w' [[] | e]] | e |]; [| done ..].
  destruct Hr as (n & ->). apply wps_modify. exact (HQ n).
Qed.

(** A worker writes the payloads of a block at the rank its first key will have. *)
Lemma writePayloadsDirect_spec w bs dat off (Q : unit -> indexWriter -> Prop) :
  build_ok cfg c -> committed w bs -> 0 <= off -> payStart + off + len dat < 2 ^ 63 ->
  (dat = [] -> Q tt w) ->
  (dat <> [] -> payStart + off + len dat <= metaStart -> forall n,
     Q tt (set_file (mk_osfile (Some (pwrite (content (file w)) (payStart + off) dat)) true (f_stuck (file w)) n) w)) ->
  wps (writePayloadsDirect dat off) w Q io_error.
Proof.
  intros Hok Hw Hoff Hl Hnil HQ. pose proof (start_bounds Hok) as (_ & _ & H1 & H2 & _). pose proof (len_nonneg dat).
  unfold writePayloadsDirect. destruct (Z.eqb_spec (len dat) 0) as [H0 | H0].
  { apply wps_ret, Hnil. destruct dat; [done | rewrite len_cons in H0; pose proof (len_nonneg dat); lia]. }
  apply wps_bind, wps_gets, wps_bind, wps_gets. rewrite (cm_po _ _ Hw), (cm_mo _ _ Hw).
  rewrite (u64_id (payStart + off)), u64_id by (unfold is_u; lia). destruct (Z.ltb_spec metaStart (payStart + off + len dat)); [done |].
  apply wps_writeAt. intros n _. rewrite int64_id, (cm_open _ _ Hw) by lia. apply HQ; [by intros -> | done].
Qed.

(** ** Creating a writer *)
Lemma estimate_bound (b : blockBuilder) : build_ok cfg c -> MaxIndexMetadataSize b = c_maxMeta c ->
  0 <= estimateFileSizeForAlgo cfg (c_numBlocks c) b (len (userMetadata cfg)) 0 < 2 ^ 63.
Proof.
  intros Hok Hmx. pose proof (start_bounds Hok) as (Hu & He & H1 & H2 & H3 & H4). pose proof (bd_num _ _ Hok) as Hn.
  pose proof (bd_max _ _ Hok) as Hm. unfold estimateFileSizeForAlgo. rewrite Hmx.
  assert (cfg_entrySize cfg = c_entrySize c) as -> by (unfold cfg_entrySize, c_entrySize; by rewrite (bd_ps _ _ Hok), (bd_fps _ _ Hok)).
  unfold headerSize, footerSize, ramIndexEntrySize.
  set (m := c_maxMeta c) in *. set (k := totalKeys cfg * c_entrySize c) in *. set (n := c_numBlocks c) in *.
  assert (0 <= n * (m + 16) <= 2 ^ 32 * (2 ^ 20 + 16)) by nia. assert (0 <= k < 2 ^ 45) by nia.
  assert (u64 (u64 m + 16) = m + 16) as -> by (rewrite (u64_id m), u64_id by (unfold is_u; lia); done).
  rewrite (u64_id (c_entrySize c)) by (unfold is_u; lia). fold k.
  rewrite (u32_id (n + 1)), (u64_id (4 + _ + 4 + 0)), (u64_id ((n + 1) * 10)), (u64_id k), (u64_id (n * (m + 16))), u64_id by (unfold is_u; lia).
  lia.
Qed.

(** A new file that the system refused: it could not be created, and the path is as
    it was; or no space could be reserved for it, and it is left there, empty. *)
Variant uncreated (f0 f : osfile) : Prop :=
  | create_failed : fails (f_calls f0) -> f = mk_osfile (f_data f0) (f_open f0) (f_stuck f0) (S (f_calls f0)) -> uncreated f0 f
  | reserve_failed : fails (S (f_calls f0)) -> f_data f = Some [] -> f_open f = false -> uncreated f0 f.

Lemma newIndexWriter_spec (b : blockBuilder) f :
  build_ok cfg c -> GlobalConfigSize b = 0 -> MaxIndexMetadataSize b = c_maxMeta c ->
  wps (newIndexWriter cfg (c_numBlocks c) b) f
    (fun w f' => file w = f' /\ algo w = b /\ committed w [] /\ pays_in w []) (fun e f' => e = ErrOther /\ uncreated f f').
Proof.
  intros Hok Hg Hmx. pose proof (start_bounds Hok) as (Hu & He & H1 & H2 & H3 & H4). pose proof (bd_num _ _ Hok) as Hn.
  pose proof (bd_config _ _ Hok) as [Hs Hp Hf]. unfold maxPayloadSize, maxFingerprintSize in *.
  unfold newIndexWriter. destruct (Z.ltb_spec (2 ^ 32 - 1) (len (userMetadata cfg))); [lia |]. rewrite Hg.
  assert (cfg_entrySize cfg = c_entrySize c) as Hes by (unfold cfg_entrySize, c_entrySize; by rewrite (bd_ps _ _ Hok), (bd_fps _ _ Hok)).
  assert (forall f1, f_open f1 = true -> wps (f0 ← gets id; mret (mk_iw f0 payStart metaStart 64 (68 + len (userMetadata cfg))
     (72 + len (userMetadata cfg)) metaStart [] xx_New xx_New header0 cfg (c_numBlocks c)
     (estimateFileSizeForAlgo cfg (c_numBlocks c) b (len (userMetadata cfg)) 0) b 0 0)) f1
     (fun w f' => file w = f' /\ algo w = b /\ committed w [] /\ pays_in w []) (fun e f' => e = ErrOther /\ uncreated f f')) as Hend.
  { intros f1 Hopen. apply wps_bind, wps_gets, wps_ret. split; [done |]. split; [done |]. split.
    - split; try done; [cbn; unfold len; cbn; lia | cbn; unfold len; cbn; lia |].
      intros _. split; [done | done | apply holds_nil; lia].
    - intros _. apply holds_nil. lia. }
  assert (forall f1, fails (S (f_calls f)) -> f_data f1 = Some [] -> wps (_ ← attempt osClose; fail (A := indexWriter) ErrOther) f1
     (fun w f' => file w = f' /\ algo w = b /\ committed w [] /\ pays_in w []) (fun e f' => e = ErrOther /\ uncreated f f')) as Hbad.
  { intros f1 Hf1 Hd. apply wps_bind, wps_attempt. unfold osClose. apply wps_sysCall. split; [| intros k _]; (split; [done | by apply reserve_failed]). }
  apply wps_bind, wps_sysCall. split; [| intros k Hk; split; [done | apply create_failed; [unfold fails; by rewrite Hk | done]]].
  pose proof (estimate_bound b Hok Hmx) as Hest.
  rewrite Hes, (u32_id (c_numBlocks c + 1)) by (unfold is_u; lia). unfold headerSize, ramIndexEntrySize.
  rewrite (u64_id (64 + 4 + _)) by (unfold is_u; lia). replace (64 + 4 + len (userMetadata cfg)) with (68 + len (userMetadata cfg)) by lia.
  rewrite (u64_id (68 + _ + 4 + 0)) by (unfold is_u; lia).
  replace (68 + len (userMetadata cfg) + 4 + 0) with (72 + len (userMetadata cfg)) by lia.
  rewrite (u64_id ((c_numBlocks c + 1) * 10)), (u64_id (72 + _ + (c_numBlocks c + 1) * 10)) by (unfold is_u; lia).
  replace (72 + len (userMetadata cfg) + (c_numBlocks c + 1) * 10) with payStart by (unfold payStart; lia).
  rewrite (u64_id (c_entrySize c)), (u64_id (totalKeys cfg * c_entrySize c)), (u64_id (payStart + _)), <- H4 by (unfold is_u; lia).
  rewrite <- (bd_ps _ _ Hok), <- (bd_fps _ _ Hok), <- (bd_seed _ _ Hok), <- (bd_algo _ _ Hok), u32_id, u8_id by (unfold is_u; lia).
  rewrite int64_id by done. apply wps_bind, wps_attempt. unfold preallocFile. destruct prealloc_grows; [unfold osTruncate |].
  - destruct (Z.ltb_spec (estimateFileSizeForAlgo cfg (c_numBlocks c) b (len (userMetadata cfg)) 0) 0); [lia |].
    apply wps_sysCall. split; [by apply Hend | intros k Hk; apply Hbad; [unfold fails; cbn in Hk; by rewrite Hk | done]].
  - apply wps_sysCall. split; [by apply Hend | intros k Hk; apply Hbad; [unfold fails; cbn in Hk; by rewrite Hk | done]].
Qed.

(** ** Finishing the file *)
Definition closed_error (e : error) (w : indexWriter) : Prop := e = ErrOther /\ f_open (file w) = false.

Lemma wps_close w (Q : unit -> indexWriter -> Prop) :
  (forall r f, f_open f = false -> Q r (set_file f w)) -> (f_open (file w) = false -> Q tt w) ->
  wps iw_close w Q (fun e w' => e = ErrOther /\ Q tt w').
Proof.
  intros HQ HQ'. unfold iw_close. apply wps_bind, wps_gets. cbn [id]. destruct (f_open (file w)); [| by apply wps_ret, HQ'].
  apply wps_zoom. unfold osClose. apply wps_sysCall. split; [by apply HQ | intros k _; split; [done | by apply HQ]].
Qed.

Lemma wps_orClose (m : stM indexWriter unit) w Q : wps m w Q io_error -> wps (orClose m) w Q closed_error.
Proof.
  intros Hm. unfold orClose. apply wps_bind, wps_attempt. eapply wps_mono; [exact Hm | |]; intros r w' H; [destruct r; exact H |].
  rewrite H. apply wps_bind, wps_attempt. eapply wps_mono; [apply (wps_close w' (fun _ w => f_open (file w) = false)); by intros | |].
  - intros [] w'' Ho. apply wps_fail. by split.
  - intros e' w'' [_ Ho]. apply wps_fail. by split.
Qed.

Lemma encodeRAMIndex_eq es : encodeRAMIndex es = Ok (ram_bytes es).
Proof.
  unfold encodeRAMIndex, ramIndexEntrySize.
  enough (forall es pre, exists o, foldM (fun '(buf, offset) entry =>
      tail ← slice buf offset (len buf); tail ← encodeRAMIndexEntryTo entry tail;
      buf ← store buf offset tail; Ok (buf, offset + 10)) (pre ++ make 0 (len es * 10), len pre) es =
    Ok (pre ++ ram_bytes es, o)) as H by (destruct (H es []) as (o & Ho); change (len (@nil Z)) with 0 in Ho; cbn [app] in Ho; by rewrite Ho).
  clear es. induction es as [| e es IH]; intros pre.
  { exists (len pre). done. }
  cbn [foldM]. rewrite slice_app_tail by done. cbn [mbind res_bind]. rewrite len_cons.
  assert (make 0 ((1 + len es) * 10) = make 0 10 ++ make 0 (len es * 10)) as ->.
  { unfold make. pose proof (len_nonneg es). rewrite <- replicate_add. f_equal. lia. }
  rewrite encodeRAMIndexEntryTo_eq by (unfold ramIndexEntrySize; rewrite len_app, len_make by lia;
    pose proof (len_nonneg (make 0 (len es * 10))); lia).
  assert (store (make 0 10 ++ make 0 (len es * 10)) 0 (ram_entry_bytes e) = Ok (ram_entry_bytes e ++ make 0 (len es * 10))) as ->.
  { apply store_ok. rewrite len_ram_entry_bytes, len_app, len_make by lia. pose proof (len_nonneg (make 0 (len es * 10))).
    split; [lia |]. split; [lia |]. cbn [Z.to_nat take app].
    reflexivity. }
  cbn [mbind res_bind]. rewrite store_app_tail; [| done |].
  2:{ pose proof (len_nonneg es). rewrite !len_app, len_ram_entry_bytes, !len_make by lia. lia. }
  cbn [mbind res_bind]. destruct (IH (pre ++ ram_entry_bytes e)) as (o & Ho). exists o.
  rewrite len_app, len_ram_entry_bytes, <- app_assoc in Ho. rewrite Ho. unfold ram_bytes. cbn [map concat]. by rewrite <- app_assoc.
Qed.

(** The six writes of [finalize] around the two regions. *)
Definition final_content (f head user algo ram foot : list Z) (footOff : Z) : list Z :=
  pwrite (pwrite (pwrite (pwrite (pwrite f 0 head) 64 user) (68 + len (userMetadata cfg)) algo)
    (72 + len (userMetadata cfg)) ram) footOff foot.

Ltac solve_holds :=
  repeat first
    [ eapply holds_at; [eassumption | lia]
    | apply holds_pwrite_at; lia
    | apply holds_pwrite_other; [lia | | lia] ].

Lemma final_content_image f user n k :
  len user = len (userMetadata cfg) + 4 -> 0 <= n < 2 ^ 63 -> 0 <= k ->
  forall head algo ram foot pays metas,
  len head = 64 -> len algo = 4 -> len ram = 10 * (c_numBlocks c + 1) -> len foot = 32 ->
  len pays = k -> len metas = n -> metaStart = payStart + k -> 64 <= payStart -> 0 <= c_numBlocks c ->
  holds f payStart pays -> holds f metaStart metas ->
  let g := final_content f head user algo ram foot (metaStart + n) in
  take (Z.to_nat (metaStart + n + 32)) (g ++ replicate (Z.to_nat (metaStart + n + 32) - length g) 0) =
  head ++ user ++ algo ++ ram ++ pays ++ metas ++ foot.
Proof.
  intros Hu Hn Hk head algo ram foot pays metas Hh Ha Hr Hf Hp Hm Hms Hps Hnb HP HM g.
  pose proof (len_nonneg (userMetadata cfg)). unfold payStart in Hps, HP, Hms. rewrite Hms in *. unfold payStart in *.
  assert (0 <= len g) by apply len_nonneg.
  apply holds_all.
  - apply holds_take; [apply holds_app_pad | rewrite !len_app; lia]. unfold g, final_content, payStart.
    apply holds_app; [solve_holds |]. apply holds_app; [solve_holds |]. apply holds_app.
    { solve_holds. }
    do 3 (apply holds_app; [solve_holds |]). solve_holds.
  - assert (metaStart + n + 32 <= len g).
    { unfold g, final_content. rewrite len_pwrite; unfold metaStart, payStart in *; lia. }
    unfold len in *. rewrite length_take, length_app, length_replicate, !length_app. lia.
Qed.

(** The end of [finalize]: cut the file to its size, flush it and close it. *)
Lemma wps_finish_file g n bs w :
  content (file w) = g -> 0 <= n < 2 ^ 63 -> take (Z.to_nat n) (g ++ replicate (Z.to_nat n - length g) 0) = bs ->
  wps (orClose (zoom file set_file (osTruncate (int64 n))) ≫= fun _ =>
       orClose (zoom file set_file osSync) ≫= fun _ => zoom file set_file osClose) w
    (fun _ w' => f_open (file w') = false /\ f_data (file w') = Some bs) closed_error.
Proof.
  intros Hg Hn Hbs. rewrite int64_id by done. apply wps_bind, wps_orClose, wps_zoom. unfold osTruncate.
  destruct (Z.ltb_spec n 0); [lia |]. apply wps_sysCall. split; [| done].
  apply wps_bind, wps_orClose, wps_zoom. unfold osSync. apply wps_sysCall. split; [| done].
  apply wps_zoom. unfold osClose. apply wps_sysCall. split; [| done]. split; [done |]. cbn. f_equal.
  unfold content in *. cbn. by rewrite Hg.
Qed.

(** Each write of [finalize] keeps the rest of the writer. *)
Lemma wps_write_final bs off w (Q : unit -> indexWriter -> Prop) :
  0 <= off < 2 ^ 63 ->
  (forall n, Q tt (set_file (mk_osfile (Some (pwrite (content (file w)) off bs)) (f_open (file w)) (f_stuck (file w)) n) w)) ->
  wps (orClose (writeAt bs off)) w Q closed_error.
Proof. intros Hoff HQ. apply wps_orClose, wps_writeAt. rewrite int64_id by lia. intros n _. apply HQ. Qed.

(** The image of a build. *)
Definition built_image (bs : list blockData) : image := mk_image c (userMetadata cfg) bs.

Definition finished (bs : list blockData) (f : osfile) : Prop :=
  f_open f = false /\ f_data f = Some (image_bytes (built_image bs)).

Lemma finalize_spec w bs :
  build_ok cfg c -> committed w bs -> pays_in w bs -> len bs = c_numBlocks c -> len (keys_of bs) = totalKeys cfg ->
  wps finalize w (fun _ w' => finished bs (file w')) closed_error.
Proof using HL.
  intros Hok Hw Hpay Hn Hk. pose proof (start_bounds Hok) as (Hu & He & H1 & H2 & H3 & H4). pose proof (bd_num _ _ Hok) as Hnb.
  pose proof (metas_bound w bs Hok Hw) as Hm. pose proof Hw as []. destruct (cm_place0 ltac:(lia)) as [Hkc Hram Hmeta].
  specialize (Hpay ltac:(lia)).
  assert (u64 (metadataWriteOffset w + footerSize) = metaStart + len (metas_of bs) + 32) as Hact
    by (rewrite cm_mw0, u64_id by (unfold is_u, footerSize; lia); unfold footerSize; lia).
  unfold finalize. apply wps_bind, wps_gets, wps_bind, wps_orClose. cbn [id]. rewrite Hact.
  destruct (_ <? _); [done | apply wps_ret]. apply wps_bind, wps_modify.
  set (sent := set_ramIndex _ w).
  assert (ramIndex sent = ram_entries 0 0 bs) as Hre.
  { subst sent. cbn. rewrite Hkc, cm_mw0, cm_mo0. replace (metaStart + len (metas_of bs) - metaStart) with (len (metas_of bs)) by lia.
    rewrite u64_id by (unfold is_u; lia). exact Hram. }
  apply wps_bind, wps_modify, wps_bind, wps_gets. cbn [id].
  set (w1 := set_header _ sent). assert (iw_header w1 = image_header (built_image bs)) as Hhd.
  { subst w1 sent. cbn. rewrite cm_header0, cm_blocks0, Hkc. reflexivity. }
  assert (header_wf (image_header (built_image bs))) as Hwf.
  { apply config_header_wf; [apply Hok | apply Hok | cbn [im_blocks built_image]; unfold is_u; lia ..]. }
  pose proof (len_header_bytes _ Hwf) as Hhl. rewrite Hhd, header_encodeTo_eq by (exact Hwf || done).
  rewrite store_all by (rewrite Hhl; reflexivity). apply wps_bind, wps_lift, wp_ok.
  apply wps_bind, wps_write_final; [lia | intros n1].
  change (iw_cfg w1) with (iw_cfg w). change (userMetadataOffset w1) with (userMetadataOffset w).
  change (algoConfigOffset w1) with (algoConfigOffset w). change (ramIndexOffset w1) with (ramIndexOffset w).
  change (metadataWriteOffset w1) with (metadataWriteOffset w). change (GlobalConfigSize (algo w1)) with (GlobalConfigSize (algo w)).
  change (ramIndex w1) with (ramIndex sent).
  rewrite cm_cfg0, cm_uo0, cm_ao0, cm_ro0, cm_algo0, Hre, cm_mw0, cm_ph0, cm_mh0, !Sum64_stream.
  rewrite (u32_id (len (userMetadata cfg))), (u32_id 0) by (unfold is_u; lia).
  rewrite (put_le_start 4 (make 0 (4 + len (userMetadata cfg)))) by (rewrite len_make; lia). apply wps_bind, wps_lift, wp_ok.
  rewrite store_app_tail; [| done | unfold len, make in *; rewrite length_drop, length_replicate; lia].
  apply wps_bind, wps_lift, wp_ok, wps_bind, wps_write_final; [lia | intros n2].
  rewrite (put_le_all 4 (make 0 (4 + 0))) by reflexivity. apply wps_bind, wps_lift, wp_ok, wps_bind, wps_lift, wp_ok.
  apply wps_bind, wps_write_final; [lia | intros n3].
  rewrite encodeRAMIndex_eq. apply wps_bind, wps_lift, wp_ok, wps_bind, wps_write_final; [lia | intros n4].
  change (mk_footer _ _ _) with (image_footer (built_image bs)).
  pose proof (image_footer_wf (built_image bs) HL) as Hfw. pose proof (len_footer_bytes _ Hfw) as Hfl.
  rewrite footer_encodeTo_eq, store_all by (exact Hfw || (rewrite Hfl; reflexivity) || done).
  apply wps_bind, wps_lift, wp_ok, wps_bind, wps_write_final; [lia | intros n5].
  assert (image_bytes (built_image bs) = header_bytes (image_header (built_image bs)) ++
    (le_bytes 4 (len (userMetadata cfg)) ++ userMetadata cfg) ++ le_bytes 4 0 ++ ram_bytes (ram_entries 0 0 bs) ++
    pays_of bs ++ metas_of bs ++ footer_bytes (image_footer (built_image bs))) as Himg.
  { unfold image_bytes, image_prefix. cbn [im_user im_blocks built_image]. by rewrite <- !app_assoc. }
  unfold finished. rewrite Himg.
  eapply wps_mono; [eapply wps_finish_file; [reflexivity | lia |] | by intros [] w' Hw' | done].
  eapply (final_content_image (content (file w)) (le_bytes 4 (len (userMetadata cfg)) ++ userMetadata cfg)
    (len (metas_of bs)) (totalKeys cfg * c_entrySize c)); try done; try lia; try nia.
  - rewrite len_app, len_le_bytes. lia.
  - rewrite len_ram_bytes, len_ram_entries. lia.
  - rewrite (len_pays_fits c) by done. by rewrite Hk.
Qed.

End spec.
