(* ===== verification/Builder.v ===== *)
(** * [builder.go] and the producer side of [builder_parallel.go]: the sorted builder

    Keys arrive in block order. With one worker each finished block is built and
    committed in place; with more, blocks are sent to a pipeline of workers. The
    pipeline is seen here only through what the calling goroutine can observe of
    it (class [Env]): whether a send succeeds, what a look at [writerDone] finds,
    and how draining it ends. [Pipeline] models the pipeline itself. *)
From S2P Require Import Prelude Words Bits Encoding Key Entries Header Algorithm Block Index File Options Writer.
#[local] Open Scope Z_scope.

Definition contextCheckInterval : Z := 10000.
Definition maxKeyLength : Z := 65535.
Definition maxKeys : Z := 2 ^ 40 - 1.

Record routedEntry := mk_routed { re_k0 : Z; re_k1 : Z; re_payload : Z }.

Record blockWork := mk_work {
  bw_blockID : Z;                (* uint32 *)
  bw_entries : list routedEntry;
  bw_keysBefore : Z              (* uint64 *)
}.

(** The outcome of the [select] in [dispatchBlockWork]: the work was taken, the
    worker context is cancelled, or [writerDone] yields an error or is closed. *)
Variant sent := Sent | Cancelled | WriterDone (e : option error).

Section builder.
Context `{HX : !XXHash} `{HO : !OS}.

(** What the environment answers, by the number of the question. *)
Class Env := {
  ctx_done : nat -> bool;                        (* the context, when looked at *)
  pipe_send : nat -> sent;
  pipe_poll : nat -> option (option error);      (* a non-blocking look at [writerDone] *)
  (* how the pipeline of so many workers ends, for a configuration, the work sent and the writer it began with *)
  pipe_drain : Z -> buildConfig -> list blockWork -> indexWriter -> indexWriter * option error
}.

(** [ctx.Err()]: [context.Canceled] and [context.DeadlineExceeded] are none of the
    program's sentinels. *)
Definition ctx_err `{!Env} (n : nat) : option error := if ctx_done n then Some ErrOther else None.

Record builder := mk_builder {
  b_cfg : buildConfig;
  b_numBlocks : Z;               (* uint32 *)
  b_iw : indexWriter;
  b_blk : blockBuilder;
  nextBlockToWrite : Z;          (* uint32 *)
  currentBlockIdx : Z;           (* uint32 *)
  firstKey : bool;
  keyCounter : Z;
  b_closed : bool;
  b_workers : Z;
  writerErr : option error;
  pendingEntries : list routedEntry;
  keysBefore : Z;                (* uint64 *)
  metadataBuf : list Z;
  payloadsBuf : list Z;
  lastBlockID : Z;               (* int64 *)
  totalKeysAdded : Z;            (* uint64 *)
  works : list blockWork;        (* sent to the pipeline so far *)
  questions : nat                (* asked of the environment so far *)
}.

Definition set_iw (w : indexWriter) (b : builder) : builder :=
  mk_builder (b_cfg b) (b_numBlocks b) w (b_blk b) (nextBlockToWrite b) (currentBlockIdx b) (firstKey b) (keyCounter b)
    (b_closed b) (b_workers b) (writerErr b) (pendingEntries b) (keysBefore b) (metadataBuf b) (payloadsBuf b)
    (lastBlockID b) (totalKeysAdded b) (works b) (questions b).
Definition set_blk (k : blockBuilder) (b : builder) : builder :=
  mk_builder (b_cfg b) (b_numBlocks b) (b_iw b) k (nextBlockToWrite b) (currentBlockIdx b) (firstKey b) (keyCounter b)
    (b_closed b) (b_workers b) (writerErr b) (pendingEntries b) (keysBefore b) (metadataBuf b) (payloadsBuf b)
    (lastBlockID b) (totalKeysAdded b) (works b) (questions b).
Definition set_next (n : Z) (b : builder) : builder :=
  mk_builder (b_cfg b) (b_numBlocks b) (b_iw b) (b_blk b) n (currentBlockIdx b) (firstKey b) (keyCounter b)
    (b_closed b) (b_workers b) (writerErr b) (pendingEntries b) (keysBefore b) (metadataBuf b) (payloadsBuf b)
    (lastBlockID b) (totalKeysAdded b) (works b) (questions b).
Definition set_current (i : Z) (b : builder) : builder :=
  mk_builder (b_cfg b) (b_numBlocks b) (b_iw b) (b_blk b) (nextBlockToWrite b) i false (keyCounter b)
    (b_closed b) (b_workers b) (writerErr b) (pendingEntries b) (keysBefore b) (metadataBuf b) (payloadsBuf b)
    (lastBlockID b) (totalKeysAdded b) (works b) (questions b).
Definition set_keyCounter (n : Z) (b : builder) : builder :=
  mk_builder (b_cfg b) (b_numBlocks b) (b_iw b) (b_blk b) (nextBlockToWrite b) (currentBlockIdx b) (firstKey b) n
    (b_closed b) (b_workers b) (writerErr b) (pendingEntries b) (keysBefore b) (metadataBuf b) (payloadsBuf b)
    (lastBlockID b) (totalKeysAdded b) (works b) (questions b).
Definition set_closed (b : builder) : builder :=
  mk_builder (b_cfg b) (b_numBlocks b) (b_iw b) (b_blk b) (nextBlockToWrite b) (currentBlockIdx b) (firstKey b) (keyCounter b)
    true (b_workers b) (writerErr b) (pendingEntries b) (keysBefore b) (metadataBuf b) (payloadsBuf b)
    (lastBlockID b) (totalKeysAdded b) (works b) (questions b).
Definition set_writerErr (e : option error) (b : builder) : builder :=
  mk_builder (b_cfg b) (b_numBlocks b) (b_iw b) (b_blk b) (nextBlockToWrite b) (currentBlockIdx b) (firstKey b) (keyCounter b)
    (b_closed b) (b_workers b) e (pendingEntries b) (keysBefore b) (metadataBuf b) (payloadsBuf b)
    (lastBlockID b) (totalKeysAdded b) (works b) (questions b).
Definition set_pending (es : list routedEntry) (b : builder) : builder :=
  mk_builder (b_cfg b) (b_numBlocks b) (b_iw b) (b_blk b) (nextBlockToWrite b) (currentBlockIdx b) (firstKey b) (keyCounter b)
    (b_closed b) (b_workers b) (writerErr b) es (keysBefore b) (metadataBuf b) (payloadsBuf b)
    (lastBlockID b) (totalKeysAdded b) (works b) (questions b).
Definition set_keysBefore (n : Z) (b : builder) : builder :=
  mk_builder (b_cfg b) (b_numBlocks b) (b_iw b) (b_blk b) (nextBlockToWrite b) (currentBlockIdx b) (firstKey b) (keyCounter b)
    (b_closed b) (b_workers b) (writerErr b) (pendingEntries b) n (metadataBuf b) (payloadsBuf b)
    (lastBlockID b) (totalKeysAdded b) (works b) (questions b).
Definition set_bufs (md pd : list Z) (b : builder) : builder :=
  mk_builder (b_cfg b) (b_numBlocks b) (b_iw b) (b_blk b) (nextBlockToWrite b) (currentBlockIdx b) (firstKey b) (keyCounter b)
    (b_closed b) (b_workers b) (writerErr b) (pendingEntries b) (keysBefore b) md pd
    (lastBlockID b) (totalKeysAdded b) (works b) (questions b).
Definition set_lastBlockID (n : Z) (b : builder) : builder :=
  mk_builder (b_cfg b) (b_numBlocks b) (b_iw b) (b_blk b) (nextBlockToWrite b) (currentBlockIdx b) (firstKey b) (keyCounter b)
    (b_closed b) (b_workers b) (writerErr b) (pendingEntries b) (keysBefore b) (metadataBuf b) (payloadsBuf b)
    n (totalKeysAdded b) (works b) (questions b).
Definition set_totalKeysAdded (n : Z) (b : builder) : builder :=
  mk_builder (b_cfg b) (b_numBlocks b) (b_iw b) (b_blk b) (nextBlockToWrite b) (currentBlockIdx b) (firstKey b) (keyCounter b)
    (b_closed b) (b_workers b) (writerErr b) (pendingEntries b) (keysBefore b) (metadataBuf b) (payloadsBuf b)
    (lastBlockID b) n (works b) (questions b).
Definition add_work (w : blockWork) (b : builder) : builder :=
  mk_builder (b_cfg b) (b_numBlocks b) (b_iw b) (b_blk b) (nextBlockToWrite b) (currentBlockIdx b) (firstKey b) (keyCounter b)
    (b_closed b) (b_workers b) (writerErr b) (pendingEntries b) (keysBefore b) (metadataBuf b) (payloadsBuf b)
    (lastBlockID b) (totalKeysAdded b) (works b ++ [w]) (questions b).
Definition asked (b : builder) : builder :=
  mk_builder (b_cfg b) (b_numBlocks b) (b_iw b) (b_blk b) (nextBlockToWrite b) (currentBlockIdx b) (firstKey b) (keyCounter b)
    (b_closed b) (b_workers b) (writerErr b) (pendingEntries b) (keysBefore b) (metadataBuf b) (payloadsBuf b)
    (lastBlockID b) (totalKeysAdded b) (works b) (S (questions b)).

(** Asking the environment. *)
Definition ask {A} (f : nat -> A) : stM builder A := fun b => Ok (asked b, inl (f (questions b))).

Context `{HE : !Env}.

(** [if err := m; err != nil { return err' }] where the error depends on [m]'s. *)
Definition on_iw {A} (m : stM indexWriter A) : stM builder A := zoom b_iw set_iw m.

(** ** Creating a builder *)
Definition newBuilder (totalKeys : Z) (opts : list BuildOption) : stM osfile builder :=
  if maxKeys <? totalKeys then fail ErrTooManyKeys
  else
    let cfg := foldl (fun cfg opt => opt cfg) defaultBuildConfig opts in
    let cfg := set_totalKeys totalKeys cfg in
    if (payloadSize cfg <? 0) || (maxPayloadSize <? payloadSize cfg) then fail ErrPayloadTooLarge
    else if (fingerprintSize cfg <? 0) || (maxFingerprintSize <? fingerprintSize cfg) then fail ErrFingerprintTooLarge
    else
      bldr ← lift (newBlockBuilder (algorithm cfg) totalKeys (globalSeed cfg) (payloadSize cfg) (fingerprintSize cfg));
      let numBlocks := NumBlocks bldr in
      iw ← newIndexWriter cfg numBlocks bldr;
      let workers := workers cfg in
      let workers := if workers <=? 0 then 1 else workers in
      let workers := if numBlocks <? workers then numBlocks else workers in
      let workers := if totalKeys =? 0 then 1 else workers in
      mret (mk_builder cfg numBlocks iw bldr 0 0 true 0 false workers None [] 0 [] [] (-1) 0 [] 0).

(** ** Cleaning up

    The file is closed and removed; errors of the two are joined to the cause. *)
Definition cleanup : stM builder unit :=
  r ← attempt (on_iw iw_close);
  r' ← attempt (on_iw (zoom file set_file osRemove));
  match r, r' with
  | inr e, _ | _, inr e => fail e
  | _, _ => mret tt
  end.

(** [if err := m; err != nil { return errors.Join(err, b.cleanup()) }] *)
Definition orCleanup {A} (m : stM builder A) : stM builder A :=
  r ← attempt m;
  match r with
  | inl a => mret a
  | inr e => _ ← attempt cleanup; fail e
  end.

Definition builder_close : stM builder unit :=
  b ← gets id;
  if b_closed b then mret tt
  else _ ← modify set_closed; cleanup.

(** ** Checks *)
Definition validateKey (ps : Z) (key : list Z) (payload : Z) : res unit :=
  if maxKeyLength <? len key then Err ErrKeyTooLong
  else if len key <? MinKeySize then Err ErrKeyTooShort
  else if (0 <? ps) && (ps <? 8) && (2 ^ (ps * 8) - 1 <? payload) then Err ErrPayloadOverflow
  else Ok tt.

Definition consumePipelineError (err : option error) : stM builder unit :=
  match err with
  | Some e => _ ← modify (set_writerErr (Some e)); fail e
  | None =>
      b ← gets id;
      match writerErr b with
      | Some e => fail e
      | None => fail ErrBuilderClosed
      end
  end.

Definition checkContextSlow : stM builder unit :=
  _ ← modify (set_keyCounter 0);
  c ← ask ctx_err;
  match c with
  | Some e => fail e
  | None =>
      b ← gets id;
      if 1 <? b_workers b then
        r ← ask pipe_poll;
        match r with Some err => consumePipelineError err | None => mret tt end
      else mret tt
  end.

(** ** One worker *)
Definition currentBlockKeysAdded (b : builder) : Z := KeysAdded (b_blk b).
Definition resetCurrentBuilder (b : builder) : builder := set_blk (Reset (b_blk b)) b.
Definition estimateMetadataSize (b : builder) : Z := MaxMetadataSizeForCurrentBlock (b_blk b).

(** A reusable buffer: its backing array, grown when [needed] exceeds its
    capacity; slicing it to a negative length panics. *)
Definition grow (buf : list Z) (needed : Z) : res (list Z) :=
  if len buf <? needed then Ok (make 0 needed)
  else _ ← slice buf 0 needed; Ok buf.

(** [BuildSeparatedInto] on the first bytes of the two reusable buffers. *)
Definition build_into (mdLen pdLen : Z) : stM builder (Z * Z * Z + error) :=
  b ← gets id;
  md ← lift (slice (metadataBuf b) 0 mdLen);
  pd ← lift (slice (payloadsBuf b) 0 pdLen);
  '(blk, md, pd, r) ← lift (BuildSeparatedInto (b_blk b) md pd);
  md ← lift (store (metadataBuf b) 0 md);
  pd ← lift (store (payloadsBuf b) 0 pd);
  _ ← modify (fun b => set_bufs md pd (set_blk blk b));
  mret r.

Definition commitEmptyBlock : stM builder unit :=
  _ ← modify resetCurrentBuilder;
  b ← gets id;
  let metadataNeeded := estimateMetadataSize b in
  md ← lift (grow (metadataBuf b) metadataNeeded);
  _ ← modify (set_bufs md (payloadsBuf b));
  r ← build_into metadataNeeded 0;
  let metadataLen := match r with inl (metadataLen, _, _) => metadataLen | inr _ => 0 end in
  b ← gets id;
  md ← lift (slice (metadataBuf b) 0 metadataLen);
  on_iw (commitBlockWithData md [] 0).

Definition buildBlock : stM builder unit :=
  b ← gets id;
  let numKeys := currentBlockKeysAdded b in
  let payloadsNeeded := numKeys * cfg_entrySize (b_cfg b) in
  pd ← lift (grow (payloadsBuf b) payloadsNeeded);
  let metadataNeeded := estimateMetadataSize b in
  md ← lift (grow (metadataBuf b) metadataNeeded);
  _ ← modify (set_bufs md pd);
  r ← build_into metadataNeeded payloadsNeeded;
  match r with
  | inr e => fail e
  | inl (metadataLen, _, builtNumKeys) =>
      b ← gets id;
      md ← lift (slice (metadataBuf b) 0 metadataLen);
      pd ← lift (slice (payloadsBuf b) 0 payloadsNeeded);
      on_iw (commitBlockWithData md pd builtNumKeys)
  end.

Definition advance (b : builder) : builder := set_next (u32 (nextBlockToWrite b + 1)) b.

(** The empty blocks before [blockIdx]. *)
Definition emptyBlocks (blockIdx : Z) : stM builder unit :=
  whileM (S (Z.to_nat blockIdx)) (fun b => nextBlockToWrite b <? blockIdx)
    (_ ← commitEmptyBlock; modify advance).

Definition addKeySingleThreaded (k0 k1 payload fingerprint blockIdx : Z) : stM builder unit :=
  b ← gets id;
  _ ← (if firstKey b then
         _ ← emptyBlocks blockIdx;
         _ ← modify resetCurrentBuilder;
         modify (set_current blockIdx)
       else if negb (blockIdx =? currentBlockIdx b) then
         _ ← (if 0 <? currentBlockKeysAdded b then _ ← buildBlock; modify advance else mret tt);
         _ ← emptyBlocks blockIdx;
         _ ← modify resetCurrentBuilder;
         modify (set_current blockIdx)
       else mret tt);
  b ← gets id;
  blk ← lift (AddKey (b_blk b) k0 k1 payload fingerprint);
  modify (set_blk blk).

(** ** More workers *)
Definition dispatchBlockWork (blockID : Z) (entries : list routedEntry) : stM builder unit :=
  b ← gets id;
  let work := mk_work blockID entries (keysBefore b) in
  _ ← modify (fun b => set_next (u32 (blockID + 1)) (set_keysBefore (u64 (keysBefore b + len entries)) b));
  r ← ask pipe_send;
  match r with
  | Sent => modify (add_work work)
  | Cancelled => fail ErrOther
  | WriterDone err => consumePipelineError err
  end.

Definition dispatchEmptyBlock (blockID : Z) : stM builder unit := dispatchBlockWork blockID [].

Definition dispatchBlock : stM builder unit :=
  b ← gets id;
  _ ← modify (set_pending []);
  dispatchBlockWork (currentBlockIdx b) (pendingEntries b).

Definition dispatchEmptyBlocks (blockIdx : Z) : stM builder unit :=
  whileM (S (Z.to_nat blockIdx)) (fun b => nextBlockToWrite b <? blockIdx)
    (b ← gets id; dispatchEmptyBlock (nextBlockToWrite b)).

Definition addKeyParallel (k0 k1 payload blockIdx : Z) : stM builder unit :=
  b ← gets id;
  _ ← (if firstKey b then
         _ ← dispatchEmptyBlocks blockIdx;
         modify (set_current blockIdx)
       else if negb (blockIdx =? currentBlockIdx b) then
         _ ← (if 0 <? len (pendingEntries b) then dispatchBlock else mret tt);
         _ ← dispatchEmptyBlocks blockIdx;
         modify (set_current blockIdx)
       else mret tt);
  modify (fun b => set_pending (pendingEntries b ++ [mk_routed k0 k1 payload]) b).

(** ** Adding a key *)
Definition builder_AddKey (key : list Z) (payload : Z) : stM builder unit :=
  b ← gets id;
  if b_closed b then fail ErrBuilderClosed
  else
    _ ← lift (validateKey (payloadSize (b_cfg b)) key payload);
    _ ← modify (fun b => set_keyCounter (keyCounter b + 1) b);
    b ← gets id;
    _ ← (if contextCheckInterval <=? keyCounter b then checkContextSlow else mret tt);
    b ← gets id;
    k0 ← lift (get_le 8 key 0);
    k1 ← lift (get_le 8 key 8);
    let blockIdx := route k0 (b_numBlocks b) in
    if int64 blockIdx <? lastBlockID b then fail ErrUnsortedInput
    else
      _ ← modify (set_lastBlockID (int64 blockIdx));
      _ ← (if 1 <? b_workers b then addKeyParallel k0 k1 payload blockIdx
           else addKeySingleThreaded k0 k1 payload (extractFingerprint k0 k1 (fingerprintSize (b_cfg b))) blockIdx);
      modify (fun b => set_totalKeysAdded (u64 (totalKeysAdded b + 1)) b).

(** ** Finishing *)
Definition finalizeIndex : stM builder unit := orCleanup (on_iw finalize).

Definition commitTrailingEmptyBlocksAndFinalize : stM builder unit :=
  b ← gets id;
  _ ← whileM (S (Z.to_nat (b_numBlocks b))) (fun b => blockCount (b_iw b) <? b_numBlocks b) (orCleanup commitEmptyBlock);
  finalizeIndex.

Definition finishSingleThreaded : stM builder unit :=
  b ← gets id;
  _ ← (if 0 <? currentBlockKeysAdded b then orCleanup buildBlock else mret tt);
  commitTrailingEmptyBlocksAndFinalize.

(** The workers and the writer finish what was sent: the index writer they leave,
    and the error of the first that failed. *)
Definition drainParallelPipeline : stM builder unit :=
  b ← gets id;
  let '(iw, cause) := pipe_drain (b_workers b) (b_cfg b) (works b) (b_iw b) in
  _ ← modify (set_iw iw);
  match cause with
  | Some e => orCleanup (fail e)
  | None => finalizeIndex
  end.

Definition finishParallel : stM builder unit :=
  b ← gets id;
  match writerErr b with
  | Some e => orCleanup (fail e)
  | None =>
      _ ← (if 0 <? len (pendingEntries b) then orCleanup dispatchBlock else mret tt);
      b ← gets id;
      _ ← whileM (S (Z.to_nat (b_numBlocks b))) (fun b => nextBlockToWrite b <? b_numBlocks b)
            (b ← gets id; orCleanup (dispatchEmptyBlock (nextBlockToWrite b)));
      drainParallelPipeline
  end.

Definition finishSorted : stM builder unit :=
  b ← gets id;
  if b_closed b then fail ErrBuilderClosed
  else
    _ ← modify set_closed;
    if negb (totalKeysAdded b =? totalKeys (b_cfg b)) then orCleanup (fail ErrKeyCountMismatch)
    else if 1 <? b_workers b then finishParallel
    else finishSingleThreaded.
End builder.
