(* ===== verification/BuilderSpec.v ===== *)
(** * The sorted builder, one worker: a finished build is the image of the keys added

    The invariant of the builder: the blocks committed so far and the keys of the
    current block are the keys added, in order; the writer has committed those
    blocks. *)
From S2P Require Import Prelude Words Bits Encoding Key Entries Header Algorithm Block Index File Options Writer Image WriterSpec Builder.
#[local] Open Scope Z_scope.

Section spec.
Context `{HX : !XXHash} {HL : XXHashLaws} `{HO : !OS} `{HE : !Env}.
Context (cfg : buildConfig) (c : config).

(** What building and committing blocks leaves alone. *)
Definition same_rest (b b' : builder) : Prop :=
  currentBlockIdx b' = currentBlockIdx b /\ firstKey b' = firstKey b /\ b_closed b' = b_closed b /\
  b_workers b' = b_workers b /\ lastBlockID b' = lastBlockID b /\ totalKeysAdded b' = totalKeysAdded b.

Definition same_progress (b b' : builder) : Prop := nextBlockToWrite b' = nextBlockToWrite b /\ same_rest b b'.

Lemma same_rest_trans b1 b2 b3 : same_rest b1 b2 -> same_rest b2 b3 -> same_rest b1 b3.
Proof. unfold same_rest. intuition congruence. Qed.

Lemma same_progress_trans b1 b2 b3 : same_progress b1 b2 -> same_progress b2 b3 -> same_progress b1 b3.
Proof. unfold same_progress. intros [] []. split; [congruence | by eapply same_rest_trans]. Qed.

(** The blocks [bs] are built and committed; the block builder has got [ks]. *)
Record core (b : builder) (bs : list blockData) (ks : list key) : Prop := {
  co_cfg : b_cfg b = cfg;
  co_num : b_numBlocks b = c_numBlocks c;
  co_committed : committed cfg c (b_iw b) bs;
  co_pays : pays_in cfg c (b_iw b) bs;
  co_blocks : Forall (block_ok c) bs;
  co_routed : routed (c_numBlocks c) bs;
  co_builds : builds c ks (b_blk b);
  co_fp : Forall (fun k => k_fp k = extractFingerprint (k_0 k) (k_1 k) (c_fps c)) ks;
  co_md : Forall is_byte (metadataBuf b);
  co_pd : Forall is_byte (payloadsBuf b)
}.

Lemma grow_spec buf n : 0 <= n -> Forall is_byte buf ->
  exists buf', grow buf n = Ok buf' /\ n <= len buf' /\ Forall is_byte buf'.
Proof.
  intros Hn Hb. unfold grow. destruct (Z.ltb_spec (len buf) n).
  - exists (make 0 n). split; [done |]. rewrite len_make by done. split; [lia |]. apply Forall_replicate. unfold_words. lia.
  - rewrite slice_in_range by lia. by exists buf.
Qed.

Lemma slice_prefix {A} (l : list A) n : 0 <= n <= len l -> slice l 0 n = Ok (take (Z.to_nat n) l).
Proof. intros Hn. rewrite slice_in_range by lia. by rewrite Z.sub_0_r. Qed.

Lemma len_take_to {A} (l : list A) n : 0 <= n <= len l -> len (take (Z.to_nat n) l) = n.
Proof. intros Hn. unfold len in *. rewrite length_take. lia. Qed.

Lemma store_front {A} (l k : list A) n : 0 <= n <= len l -> len k = n ->
  store l 0 k = Ok (k ++ drop (Z.to_nat n) l).
Proof.
  intros Hn Hk. apply store_ok. split; [done |]. split; [lia |]. unfold len in *. replace (Z.to_nat n) with (length k) by lia. done.
Qed.

Lemma core_bufs b bs ks md pd : core b bs ks -> Forall is_byte md -> Forall is_byte pd -> core (set_bufs md pd b) bs ks.
Proof. intros [] Hm Hp. split; assumption. Qed.

(** The block builder, run on the reusable buffers. *)
Lemma build_into_spec b bs ks mdLen pdLen :
  core b bs ks -> MaxMetadataSizeForCurrentBlock (b_blk b) <= mdLen -> 0 <= mdLen <= len (metadataBuf b) ->
  len ks * c_entrySize c <= pdLen -> 0 <= pdLen <= len (payloadsBuf b) ->
  wps (build_into mdLen pdLen) b (fun r b' =>
    core b' bs ks /\ same_progress b b' /\ b_iw b' = b_iw b /\
    len (metadataBuf b') = len (metadataBuf b) /\ len (payloadsBuf b') = len (payloadsBuf b) /\
    match r with
    | inl (metaLen, payloadsLen, n) =>
        n = len ks /\ minMetadata <= metaLen <= Z.min maxMetadata mdLen /\
        block_built decodes c ks (take (Z.to_nat metaLen) (metadataBuf b')) (take (Z.to_nat pdLen) (payloadsBuf b'))
    | inr e => e ∈ block_errors /\ ks <> []
    end) (fun _ _ => False).
Proof.
  intros Hb Hmax Hmd Hks Hpd. destruct Hb. unfold build_into. apply wps_bind, wps_gets. cbn [id].
  rewrite !slice_prefix by lia. apply wps_bind, wps_lift, wp_ok, wps_bind, wps_lift, wp_ok, wps_bind, wps_lift.
  pose proof (len_take_to (metadataBuf b) mdLen ltac:(lia)) as Hlm. pose proof (len_take_to (payloadsBuf b) pdLen ltac:(lia)) as Hlp.
  eapply wp_mono; [apply (Build_builds c ks); [done | lia | lia | by apply Forall_take | by apply Forall_take] | | done].
  intros [[[blk md] pd] r] (H1 & H2 & H3 & H4 & H5 & Hr). rewrite Hlm in H2. rewrite Hlp in H3.
  rewrite (store_front (metadataBuf b) md mdLen), (store_front (payloadsBuf b) pd pdLen) by (lia || done).
  apply wps_bind, wps_lift, wp_ok, wps_bind, wps_lift, wp_ok, wps_bind, wps_modify, wps_ret.
  split; [split; cbn; try done; apply Forall_app; (split; [done | by apply Forall_drop]) |].
  split; [done |]. split; [done |]. cbn [metadataBuf payloadsBuf set_bufs].
  unfold len in H2, H3, Hmd, Hpd. split; [unfold len; rewrite length_app, length_drop; lia |].
  split; [unfold len; rewrite length_app, length_drop; lia |].
  destruct r as [[[metaLen payloadsLen] n] | e]; [| exact Hr]. destruct Hr as (-> & _ & Hl & Hbuilt).
  split; [done |]. split; [lia |]. rewrite take_app_le by lia. rewrite (take_app_length' pd) by lia. done.
Qed.

Lemma routed_snoc bs b : routed (c_numBlocks c) bs ->
  Forall (fun k => route (k_0 k) (c_numBlocks c) = len bs) (bd_keys b) -> routed (c_numBlocks c) (bs ++ [b]).
Proof.
  intros Hr Hb j x Hj. destruct (decide (j < length bs)%nat).
  - rewrite lookup_app_l in Hj by done. by apply Hr.
  - rewrite lookup_app_r in Hj by lia. apply list_lookup_singleton_Some in Hj as [Hj <-].
    replace (Z.of_nat j) with (len bs) by (unfold len; lia). exact Hb.
Qed.

Lemma block_ok_fits b : block_ok c b -> len (bd_meta b) <= maxMetadata -> fits c b.
Proof. intros Hb Hm. split; [apply Hb | split; [apply Hb | done]]. Qed.

(** Committing a block that was built in the reusable buffers. *)
Lemma commit_spec b bs ks blk md pd n :
  build_ok cfg c -> core b bs ks -> block_ok c blk -> len (bd_meta blk) <= maxMetadata ->
  Forall (fun k => route (k_0 k) (c_numBlocks c) = len bs) (bd_keys blk) -> len bs < c_numBlocks c ->
  md = bd_meta blk -> pd = bd_pay blk -> n = len (bd_keys blk) ->
  wps (on_iw (commitBlockWithData md pd n)) b (fun _ b' => core b' (bs ++ [blk]) ks /\ same_progress b b')
    (fun e _ => e = ErrOther).
Proof.
  intros Hok Hb Hblk Hmeta Hroute Hlen -> -> ->. destruct Hb. unfold on_iw. apply wps_zoom.
  eapply wps_mono; [apply (commitBlockWithData_spec cfg c); try done; by apply block_ok_fits | | by intros e w H].
  intros [] w [Hw Hp]. split; [| done]. split; cbn; try done.
  - apply Forall_app. by split; [| constructor].
  - by apply routed_snoc.
Qed.

Lemma meta_block_ok ks meta pay :
  config_ok c -> Forall (bkey_ok (c_fps c)) ks -> Forall (fun k => k_fp k = extractFingerprint (k_0 k) (k_1 k) (c_fps c)) ks ->
  len pay = len ks * c_entrySize c -> Forall is_byte pay -> Forall is_byte meta -> minMetadata <= len meta ->
  block_built decodes c ks meta pay -> block_ok c (mk_blk ks meta pay).
Proof. intros. by split. Qed.

(** [commitEmptyBlock] commits a block without keys and leaves an empty builder. *)
Lemma commitEmptyBlock_spec b bs ks :
  build_ok cfg c -> core b bs ks -> len bs < c_numBlocks c ->
  wps commitEmptyBlock b (fun _ b' => (exists blk, bd_keys blk = [] /\ core b' (bs ++ [blk]) []) /\ same_progress b b')
    (fun e _ => e = ErrOther).
Proof.
  intros Hok Hb Hlen. unfold commitEmptyBlock. apply wps_bind, wps_modify, wps_bind, wps_gets. cbn [id].
  assert (core (resetCurrentBuilder b) bs []) as Hb0 by (destruct Hb; split; try assumption; [exact (Reset_builds c ks _ co_builds0) | constructor]).
  destruct (builds_config _ _ _ (co_builds _ _ _ Hb0)) as (Hc & _ & _ & _ & Hpos). specialize (Hpos ltac:(done)).
  unfold estimateMetadataSize. set (n := MaxMetadataSizeForCurrentBlock (b_blk (resetCurrentBuilder b))) in *.
  destruct (grow_spec (metadataBuf (resetCurrentBuilder b)) n Hpos) as (md & -> & Hmd & Hmdb); [apply Hb0 |].
  apply wps_bind, wps_lift, wp_ok, wps_bind, wps_modify, wps_bind.
  eapply wps_mono; [apply (build_into_spec _ bs []); [by apply core_bufs; [| | apply Hb] | by apply Z.le_refl | done | done |] | | by intros e s []].
  { cbn. split; [done | apply len_nonneg]. }
  intros r b1 (Hb1 & Hs1 & _ & Hl1 & _ & Hr). destruct r as [[[metaLen pl] m] | e]; [| by destruct Hr].
  destruct Hr as (_ & Hml & Hbuilt). apply wps_bind, wps_gets. cbn [id]. unfold minMetadata in Hml. cbn [metadataBuf set_bufs] in Hl1.
  rewrite slice_prefix by lia. apply wps_bind, wps_lift, wp_ok.
  pose proof (len_take_to (metadataBuf b1) metaLen ltac:(lia)) as Hlm.
  eapply wps_mono; [apply (commit_spec b1 bs [] (mk_blk [] (take (Z.to_nat metaLen) (metadataBuf b1)) [])); try done | | done].
  - apply meta_block_ok; try done; [apply Forall_take, Hb1 | unfold minMetadata; lia].
  - cbn [bd_meta]. lia.
  - intros [] b2 [Hb2 Hs2]. split; [eexists; split; [| exact Hb2]; reflexivity |]. by apply (same_progress_trans _ b1).
Qed.

(** [buildBlock] commits the keys of the current block, or reports why they
    cannot be built. *)
Lemma buildBlock_spec b bs ks :
  build_ok cfg c -> core b bs ks -> len bs < c_numBlocks c -> len ks < 2 ^ 32 ->
  Forall (fun k => route (k_0 k) (c_numBlocks c) = len bs) ks ->
  wps buildBlock b (fun _ b' => (exists blk, bd_keys blk = ks /\ core b' (bs ++ [blk]) ks) /\ same_progress b b')
    (fun e _ => e = ErrOther \/ e ∈ block_errors).
Proof.
  intros Hok Hb Hlen Hks Hroute. unfold buildBlock. apply wps_bind, wps_gets. cbn [id].
  destruct (builds_config _ _ _ (co_builds _ _ _ Hb)) as (Hc & _ & _ & _ & Hpos). specialize (Hpos Hks).
  destruct (builds_keys _ _ _ (co_builds _ _ _ Hb)) as [Hn Hkok]. unfold currentBlockKeysAdded, estimateMetadataSize. rewrite Hn.
  assert (cfg_entrySize (b_cfg b) = c_entrySize c) as ->
    by (rewrite (co_cfg _ _ _ Hb); unfold cfg_entrySize, c_entrySize; by rewrite (bd_ps _ _ Hok), (bd_fps _ _ Hok)).
  pose proof (start_bounds cfg c Hok) as (_ & Hes & _). pose proof (len_nonneg ks).
  set (n := MaxMetadataSizeForCurrentBlock (b_blk b)) in *. set (p := len ks * c_entrySize c) in *. assert (0 <= p) as Hp by nia.
  destruct (grow_spec (payloadsBuf b) p Hp) as (pd & -> & Hpd & Hpdb); [apply Hb |]. apply wps_bind, wps_lift, wp_ok.
  destruct (grow_spec (metadataBuf b) n Hpos) as (md & -> & Hmd & Hmdb); [apply Hb |].
  apply wps_bind, wps_lift, wp_ok, wps_bind, wps_modify, wps_bind.
  eapply wps_mono; [apply (build_into_spec _ bs ks); [by apply core_bufs | by apply Z.le_refl | done | by apply Z.le_refl | done] | | by intros e s []].
  intros r b1 (Hb1 & Hs1 & _ & Hl1 & Hl2 & Hr). cbn [metadataBuf payloadsBuf set_bufs] in Hl1, Hl2.
  destruct r as [[[metaLen pl] m] | e]; [| apply wps_fail; right; by destruct Hr].
  destruct Hr as (-> & Hml & Hbuilt). unfold minMetadata in Hml. apply wps_bind, wps_gets. cbn [id].
  rewrite (slice_prefix (metadataBuf b1)) by lia. apply wps_bind, wps_lift, wp_ok.
  rewrite (slice_prefix (payloadsBuf b1)) by lia. apply wps_bind, wps_lift, wp_ok.
  pose proof (len_take_to (metadataBuf b1) metaLen ltac:(lia)) as Hlm. pose proof (len_take_to (payloadsBuf b1) p ltac:(lia)) as Hlp.
  eapply wps_mono; [apply (commit_spec b1 bs ks (mk_blk ks (take (Z.to_nat metaLen) (metadataBuf b1)) (take (Z.to_nat p) (payloadsBuf b1)))); try done | | by intros e s ->; left].
  - apply meta_block_ok; try done; [apply Hb | apply Forall_take, Hb1 | apply Forall_take, Hb1 | unfold minMetadata; lia].
  - cbn [bd_meta]. lia.
  - intros [] b2 [Hb2 Hs2]. split; [eexists; split; [| exact Hb2]; reflexivity |]. by apply (same_progress_trans _ b1).
Qed.

(** ** Adding a key *)

(** A key and its payload as the caller gives them. *)
Definition key_of (kp : list Z * Z) : key :=
  let k0 := le_val (take 8 kp.1) in
  let k1 := le_val (take 8 (drop 8 kp.1)) in
  mk_key k0 k1 kp.2 (extractFingerprint k0 k1 (c_fps c)).

Definition block_of (k : key) : Z := route (k_0 k) (c_numBlocks c).

Lemma emptyBlocks_spec b bs ks idx :
  build_ok cfg c -> core b bs ks -> nextBlockToWrite b = len bs -> len bs <= idx < c_numBlocks c ->
  wps (emptyBlocks idx) b (fun _ b' => exists bs' ks', core b' bs' ks' /\ len bs' = idx /\ nextBlockToWrite b' = idx /\
      keys_of bs' = keys_of bs /\ same_rest b b') (fun e _ => e = ErrOther).
Proof.
  intros Hok Hb Hnext Hidx. pose proof (bd_num _ _ Hok) as Hnb. unfold emptyBlocks.
  eapply wps_mono; [apply (wps_whileM (fun s => exists bs' ks', core s bs' ks' /\ nextBlockToWrite s = len bs' /\ len bs' <= idx /\
      keys_of bs' = keys_of bs /\ same_rest b s) (fun s => Z.to_nat (idx - nextBlockToWrite s)) (fun e _ => e = ErrOther)) | | done].
  - exists bs, ks. split_and!; try done; lia.
  - pose proof (len_nonneg bs). lia.
  - intros s (bs' & ks' & Hs & Hn & Hle & Hk & Hsame) Hc%Z.ltb_lt. apply wps_bind.
    eapply wps_mono; [apply (commitEmptyBlock_spec s bs' ks'); (done || lia) | | by intros e s' H].
    intros [] s' [(blk & Hblk & Hs') [Hn' Hsame']]. apply wps_modify. pose proof (len_nonneg bs').
    assert (nextBlockToWrite (advance s') = len (bs' ++ [blk])) as Hadv.
    { cbn. rewrite Hn', Hn, u32_id by (unfold is_u; lia). by rewrite len_app, len_single. }
    split; [exists (bs' ++ [blk]), [] | rewrite Hadv, len_app, len_single; lia].
    split; [by destruct Hs' |]. split; [done |]. rewrite len_app, len_single. split; [lia |].
    split; [by rewrite keys_of_app, keys_of_single, Hblk, app_nil_r |]. by eapply same_rest_trans.
  - intros [] s [(bs' & ks' & Hs & Hn & Hle & Hk & Hsame) Hc%Z.ltb_ge]. exists bs', ks'. split_and!; try done; lia.
Qed.

(** Where the builder is: [bs] committed, [cur] in the current block. *)
Record seq_pos (b : builder) (ks : list key) (bs : list blockData) (cur : list key) : Prop := {
  sq_core : core b bs cur;
  sq_keys : ks = keys_of bs ++ cur;
  sq_next : nextBlockToWrite b = len bs;
  sq_first : firstKey b = true -> bs = [] /\ cur = [];
  sq_current : firstKey b = false ->
    currentBlockIdx b = len bs /\ len bs < c_numBlocks c /\ Forall (fun k => block_of k = len bs) cur;
  sq_count : totalKeysAdded b = u64 (len ks);
  sq_workers : b_workers b <= 1;
  sq_open : b_closed b = false
}.

Definition seq_inv (b : builder) (ks : list key) (bs : list blockData) (cur : list key) : Prop :=
  seq_pos b ks bs cur /\ lastBlockID b = if firstKey b then -1 else len bs.

(** No block is given more keys than its counters can hold. *)
Definition small_blocks (ks : list key) : Prop := forall j, len (filter (fun k => block_of k = j) ks) < 2 ^ 32.

Lemma small_current ks cur j : small_blocks (ks ++ cur) -> Forall (fun k => block_of k = j) cur -> len cur < 2 ^ 32.
Proof.
  intros Hs Hc. specialize (Hs j). rewrite filter_app, len_app in Hs.
  rewrite (filter_all_id _ cur) in Hs by (by apply Forall_forall). pose proof (len_nonneg (filter (fun k => block_of k = j) ks)). lia.
Qed.

(** Moving on to the block of the next key. *)
Lemma advance_block_spec b ks bs cur idx :
  build_ok cfg c -> seq_pos b ks bs cur -> small_blocks ks -> len bs <= idx < c_numBlocks c ->
  wps (if firstKey b then
         _ ← emptyBlocks idx; _ ← modify resetCurrentBuilder; modify (set_current idx)
       else if negb (idx =? currentBlockIdx b) then
         _ ← (if 0 <? currentBlockKeysAdded b then _ ← buildBlock; modify advance else mret tt);
         _ ← emptyBlocks idx; _ ← modify resetCurrentBuilder; modify (set_current idx)
       else mret tt) b
    (fun _ b' => exists bs' cur', core b' bs' cur' /\ keys_of bs' ++ cur' = ks /\ nextBlockToWrite b' = idx /\
      len bs' = idx /\ currentBlockIdx b' = idx /\ firstKey b' = false /\ Forall (fun k => block_of k = idx) cur' /\
      totalKeysAdded b' = totalKeysAdded b /\ b_workers b' = b_workers b /\ b_closed b' = b_closed b /\ lastBlockID b' = lastBlockID b)
    (fun e _ => e = ErrOther \/ e ∈ block_errors).
Proof.
  intros Hok Hinv Hsmall Hidx. pose proof (bd_num _ _ Hok) as Hnb.
  assert (forall b1 bs1 cur1, core b1 bs1 cur1 -> keys_of bs1 = ks -> nextBlockToWrite b1 = len bs1 -> len bs1 <= idx ->
     same_rest b b1 ->
     wps (_ ← emptyBlocks idx; _ ← modify resetCurrentBuilder; modify (set_current idx)) b1
    (fun _ b' => exists bs' cur', core b' bs' cur' /\ keys_of bs' ++ cur' = ks /\ nextBlockToWrite b' = idx /\
      len bs' = idx /\ currentBlockIdx b' = idx /\ firstKey b' = false /\ Forall (fun k => block_of k = idx) cur' /\
      totalKeysAdded b' = totalKeysAdded b /\ b_workers b' = b_workers b /\ b_closed b' = b_closed b /\ lastBlockID b' = lastBlockID b)
    (fun e _ => e = ErrOther \/ e ∈ block_errors)) as Hgap.
  { intros b1 bs1 cur1 Hb1 Hk1 Hn1 Hle Hs1. apply wps_bind.
    eapply wps_mono; [apply (emptyBlocks_spec b1 bs1 cur1 idx); (done || lia) | | intros e s ->; by left].
    intros [] b2 (bs2 & ks2 & Hb2 & Hl2 & Hn2 & Hk2 & Hs2). apply wps_bind, wps_modify, wps_modify.
    destruct (same_rest_trans _ _ _ Hs1 Hs2) as (? & ? & ? & ? & ? & ?).
    exists bs2, []. split; [destruct Hb2; split; try assumption; [exact (Reset_builds c ks2 _ co_builds0) | constructor] |].
    rewrite app_nil_r. split_and!; try done; congruence. }
  destruct Hinv. destruct (firstKey b) eqn:Hf.
  - destruct (sq_first0 eq_refl) as (-> & ->). apply (Hgap b [] []); try done; lia.
  - destruct (sq_current0 eq_refl) as (Hc & Hlt & Hcur). destruct (Z.eqb_spec idx (currentBlockIdx b)) as [-> | Hne]; cbn [negb].
    { apply wps_ret. exists bs, cur. rewrite Hc. split_and!; try done; congruence. }
    destruct (builds_keys _ _ _ (co_builds _ _ _ sq_core0)) as [Hn _]. unfold currentBlockKeysAdded. rewrite Hn.
    destruct (Z.ltb_spec 0 (len cur)) as [Hpos | Hz].
    + apply wps_bind, wps_bind. rewrite sq_keys0 in Hsmall.
      eapply wps_mono; [apply (buildBlock_spec b bs cur); try done; by eapply small_current | | done].
      intros [] b1 [(blk & Hblk & Hb1) [Hn1 Hs1]]. apply wps_modify. pose proof (len_nonneg bs).
      apply (Hgap (advance b1) (bs ++ [blk]) cur).
      * destruct Hb1; split; assumption.
      * by rewrite keys_of_app, keys_of_single, Hblk.
      * cbn. rewrite Hn1, sq_next0, u32_id by (unfold is_u; lia). by rewrite len_app, len_single.
      * rewrite len_app, len_single. lia.
      * exact Hs1.
    + apply wps_bind, wps_ret. assert (cur = []) as -> by (destruct cur as [| x l]; [done | rewrite len_cons in Hz; pose proof (len_nonneg l); lia]).
      apply (Hgap b bs []); try done; [by rewrite sq_keys0, app_nil_r | lia].
Qed.

(** What [AddKey] checks, after a key of block [last]. *)
Record acceptable (last : Z) (kp : list Z * Z) : Prop := {
  ac_len : MinKeySize <= len kp.1 <= maxKeyLength;
  ac_payload : 0 < c_ps c < 8 -> kp.2 < 2 ^ (8 * c_ps c);
  ac_sorted : last <= block_of (key_of kp)
}.

Variant refused (last : Z) (kp : list Z * Z) : error -> Prop :=
  | refused_long : maxKeyLength < len kp.1 -> refused last kp ErrKeyTooLong
  | refused_short : len kp.1 < MinKeySize -> refused last kp ErrKeyTooShort
  | refused_payload : 0 < c_ps c < 8 -> 2 ^ (8 * c_ps c) <= kp.2 -> refused last kp ErrPayloadOverflow
  | refused_unsorted : block_of (key_of kp) < last -> refused last kp ErrUnsortedInput.

Lemma validateKey_spec ps key payload :
  match validateKey ps key payload with
  | Ok _ => MinKeySize <= len key <= maxKeyLength /\ (0 < ps < 8 -> payload < 2 ^ (8 * ps))
  | Err e => (e = ErrKeyTooLong /\ maxKeyLength < len key) \/ (e = ErrKeyTooShort /\ len key < MinKeySize) \/
      (e = ErrPayloadOverflow /\ 0 < ps < 8 /\ 2 ^ (8 * ps) <= payload)
  | Panic => False
  end.
Proof.
  unfold validateKey. destruct (Z.ltb_spec maxKeyLength (len key)); [by left |].
  destruct (Z.ltb_spec (len key) MinKeySize); [right; by left |]. rewrite (Z.mul_comm ps 8).
  destruct (Z.ltb_spec 0 ps), (Z.ltb_spec ps 8), (Z.ltb_spec (2 ^ (8 * ps) - 1) payload); cbn [andb];
    try (split; [lia |]; intros; lia).
  right. right. split_and!; try done; lia.
Qed.

Lemma key_halves key : MinKeySize <= len key -> Forall is_byte key ->
  get_le 8 key 0 = Ok (k_0 (key_of (key, 0))) /\ get_le 8 key 8 = Ok (k_1 (key_of (key, 0))).
Proof.
  unfold MinKeySize. intros Hl Hb. unfold get_le. rewrite !slice_in_range by (unfold len in *; lia). by split.
Qed.

Lemma block_of_lt kp : build_ok cfg c -> Forall is_byte kp.1 -> 0 <= block_of (key_of kp) < c_numBlocks c.
Proof.
  intros Hok Hb. pose proof (bd_num _ _ Hok). unfold block_of, route. apply FastRange32_lt; [apply reverse_bytes64_is | unfold is_u; lia | lia].
Qed.

Lemma key_of_halves kp : MinKeySize <= len kp.1 -> Forall is_byte kp.1 ->
  is_u 64 (k_0 (key_of kp)) /\ is_u 64 (k_1 (key_of kp)).
Proof.
  unfold MinKeySize. intros Hl Hb. split.
  - apply (le_val_take_is 8); [done | lia].
  - apply (le_val_take_is 8); [by apply Forall_drop | unfold len in *; rewrite length_drop; lia].
Qed.

Lemma key_of_ok kp : build_ok cfg c -> MinKeySize <= len kp.1 -> Forall is_byte kp.1 -> bkey_ok (c_fps c) (key_of kp).
Proof.
  intros Hok Hl Hb. destruct (key_of_halves kp Hl Hb). destruct (bd_config _ _ Hok) as [_ _ Hf]. split; [done |]. split; [done |].
  apply extractFingerprint_is; [done |]. unfold maxFingerprintSize in *. lia.
Qed.

Lemma seq_inv_counter n b ks bs cur : seq_inv b ks bs cur -> seq_inv (set_keyCounter n b) ks bs cur.
Proof. intros [[[] ] ?]. split; [split; [split | ..] |]; assumption. Qed.

Lemma seq_inv_asked b ks bs cur : seq_inv b ks bs cur -> seq_inv (asked b) ks bs cur.
Proof. intros [[[] ] ?]. split; [split; [split | ..] |]; assumption. Qed.

(** The context is done, and its error is reported. *)
Definition context_error (e : error) : Prop := e = ErrOther /\ exists n, ctx_done n = true.

Lemma context_said n e : ctx_err n = Some e -> context_error e.
Proof. unfold ctx_err. destruct (ctx_done n) eqn:Hn; [| done]. intros [= <-]. split; [done | by exists n]. Qed.

Lemma checkContext_spec b ks bs cur :
  seq_inv b ks bs cur ->
  wps (if contextCheckInterval <=? keyCounter b then checkContextSlow else mret tt) b
    (fun _ b' => seq_inv b' ks bs cur /\ lastBlockID b' = lastBlockID b)
    (fun e b' => context_error e /\ seq_inv b' ks bs cur).
Proof.
  intros Hinv. destruct (_ <=? _); [| by apply wps_ret]. unfold checkContextSlow, ask.
  apply wps_bind, wps_modify, wps_bind. unfold wps at 1. cbn beta iota.
  set (b1 := asked (set_keyCounter 0 b)). assert (seq_inv b1 ks bs cur) as Hb1 by (by apply seq_inv_asked, seq_inv_counter).
  destruct (ctx_err _) as [e |] eqn:He; [apply wps_fail; split; [by eapply context_said | done] |].
  apply wps_bind, wps_gets. cbn [id]. pose proof (sq_workers _ _ _ _ (proj1 Hb1)). destruct (Z.ltb_spec 1 (b_workers b1)); [lia |].
  by apply wps_ret.
Qed.

Lemma wps_validate {S} ps kp (b : S) (Q : unit -> S -> Prop) E :
  (MinKeySize <= len kp.1 <= maxKeyLength /\ (0 < ps < 8 -> kp.2 < 2 ^ (8 * ps)) -> Q tt b) ->
  (forall e, (forall last, ps = c_ps c -> refused last kp e) -> E e b) ->
  wps (lift (validateKey ps kp.1 kp.2)) b Q E.
Proof.
  intros HQ HErr. apply wps_lift. pose proof (validateKey_spec ps kp.1 kp.2) as Hv. destruct (validateKey _ _ _) as [[] | e |]; [by apply HQ | | done].
  apply HErr. intros last ->. destruct Hv as [[-> ?] | [[-> ?] | (-> & ? & ?)]]; by constructor.
Qed.

Lemma sorted_AddKey_step b ks bs cur kp :
  build_ok cfg c -> seq_inv b ks bs cur -> small_blocks ks -> Forall is_byte kp.1 ->
  wps (builder_AddKey kp.1 kp.2) b
    (fun _ b' => acceptable (lastBlockID b) kp /\ lastBlockID b' = block_of (key_of kp) /\
       exists bs' cur', seq_inv b' (ks ++ [key_of kp]) bs' cur')
    (fun e b' => (refused (lastBlockID b) kp e /\ seq_inv b' ks bs cur) \/ (context_error e /\ seq_inv b' ks bs cur) \/
       e = ErrOther \/ e ∈ block_errors).
Proof.
  intros Hok Hinv Hsmall Hbytes. unfold builder_AddKey. apply wps_bind, wps_gets. cbn [id]. rewrite (sq_open _ _ _ _ (proj1 Hinv)).
  assert (payloadSize (b_cfg b) = c_ps c) as -> by (rewrite (co_cfg _ _ _ (sq_core _ _ _ _ (proj1 Hinv))); symmetry; apply Hok).
  apply wps_bind, wps_validate; [| intros e He; left; split; [by apply He | done]]. intros [Hl Hp].
  apply wps_bind, wps_modify, wps_bind, wps_gets. cbn [id]. set (b1 := set_keyCounter (keyCounter b + 1) b).
  assert (seq_inv b1 ks bs cur) as Hb1 by (by apply seq_inv_counter).
  apply wps_bind. eapply wps_mono; [apply (checkContext_spec b1 ks bs cur Hb1) | | intros e s [? ?]; right; by left].
  intros [] b2 [Hb2 Hlast]. change (lastBlockID b1) with (lastBlockID b) in Hlast. clearbody b1. clear Hb1 b1 Hinv.
  apply wps_bind, wps_gets. cbn [id]. rewrite <- Hlast. clear b Hlast. rename b2 into b, Hb2 into Hinv.
  destruct (key_halves kp.1 ltac:(lia) Hbytes) as [-> ->]. apply wps_bind, wps_lift, wp_ok, wps_bind, wps_lift, wp_ok.
  change (k_0 (key_of (kp.1, 0))) with (k_0 (key_of kp)). change (k_1 (key_of (kp.1, 0))) with (k_1 (key_of kp)).
  rewrite (co_num _ _ _ (sq_core _ _ _ _ (proj1 Hinv))). change (route (k_0 (key_of kp)) (c_numBlocks c)) with (block_of (key_of kp)).
  pose proof (block_of_lt kp Hok Hbytes) as Hblk. pose proof (bd_num _ _ Hok) as Hnb.
  pose proof (key_of_ok kp Hok ltac:(lia) Hbytes) as Hkok.
  rewrite int64_id by lia. destruct (Z.ltb_spec (block_of (key_of kp)) (lastBlockID b)) as [Hlt | Hge].
  { apply wps_fail. left. split; [by constructor | done]. }
  destruct Hinv as [Hpos Hlast]. apply wps_bind, wps_modify, wps_bind. set (b1 := set_lastBlockID _ b).
  assert (seq_pos b1 ks bs cur) as Hb1 by (destruct Hpos as [[] ]; split; [split | ..]; assumption).
  change (b_workers b) with (b_workers b1). pose proof (sq_workers _ _ _ _ Hb1) as Hw. destruct (Z.ltb_spec 1 (b_workers b1)); [lia |].
  unfold addKeySingleThreaded. apply wps_bind, wps_gets, wps_bind. cbn [id].
  eapply wps_mono; [apply (advance_block_spec b1 ks bs cur); try done | | intros e s He; right; by right].
  { destruct (firstKey b) eqn:Hf; [destruct (sq_first _ _ _ _ Hpos Hf) as [-> _]; unfold len; cbn; lia | lia]. }
  intros [] b2 (bs2 & cur2 & Hb2 & Hk2 & Hn2 & Hl2 & Hi2 & Hf2 & Hc2 & Ht2 & Hw2 & Ho2 & Hlast2).
  apply wps_bind, wps_gets. cbn [id].
  destruct (AddKey_builds _ _ _ (key_of kp) (co_builds _ _ _ Hb2) Hkok) as (blk & Hadd & Hblks).
  cbn [k_0 k_1 k_payload k_fp key_of] in Hadd. rewrite (bd_fps _ _ Hok) in Hadd.
  rewrite (co_cfg _ _ _ (sq_core _ _ _ _ Hpos)). cbn [k_0 k_1 key_of]. rewrite Hadd.
  apply wps_bind, wps_lift, wp_ok, wps_modify, wps_modify.
  split; [split; [done | intros Hps; apply Hp; exact Hps | done] |].
  cbn [lastBlockID set_totalKeysAdded set_blk]. rewrite Hlast2. split; [reflexivity |].
  exists bs2, (cur2 ++ [key_of kp]). split; [| cbn; rewrite Hf2, Hlast2, Hl2; reflexivity].
  split; cbn [nextBlockToWrite firstKey currentBlockIdx totalKeysAdded b_workers b_closed set_totalKeysAdded set_blk].
  - destruct Hb2. split; try assumption. apply Forall_app. split; [done |]. by apply Forall_singleton.
  - rewrite app_assoc. by rewrite Hk2.
  - by rewrite Hn2, Hl2.
  - by rewrite Hf2.
  - intros _. rewrite Hl2. split_and!; try done; [lia |]. apply Forall_app. split; [done |]. by apply Forall_singleton.
  - rewrite Ht2, (sq_count _ _ _ _ Hb1), len_app, len_single. unfold u64. by rewrite Zplus_mod_idemp_l.
  - lia.
  - by rewrite Ho2, (sq_open _ _ _ _ Hb1).
Qed.

(** ** Finishing *)

(** The output file is gone, unless [os.Remove] itself failed; the handle is closed. *)
Definition removed (f : osfile) : Prop := f_open f = false /\ (f_data f = None \/ f_stuck f = true).

Lemma cleanup_spec b :
  wps cleanup b (fun _ b' => removed (file (b_iw b'))) (fun _ b' => removed (file (b_iw b'))).
Proof.
  unfold cleanup, on_iw. apply wps_bind, wps_attempt, wps_zoom.
  assert (forall (r : sum unit error) (b1 : builder), f_open (file (b_iw b1)) = false -> wps (r' ← attempt (zoom b_iw set_iw (zoom file set_file osRemove));
      match r, r' with inr e, _ | _, inr e => fail e | _, _ => mret tt end : stM builder unit) b1
      (fun _ b' => removed (file (b_iw b'))) (fun _ b' => removed (file (b_iw b')))) as Hrest.
  { intros r b1 Ho. apply wps_bind, wps_attempt, wps_zoom, wps_zoom. unfold osRemove, wps at 1, sysCall.
    destruct (fault _) as [k |] eqn:Hf.
    - destruct r as [[] | e]; apply wps_fail; (split; [exact Ho | by right]).
    - destruct r as [[] | e]; [apply wps_ret | apply wps_fail]; (split; [exact Ho | by left]). }
  eapply wps_mono; [apply (wps_close (b_iw b) (fun _ w => f_open (file w) = false)); by intros | |].
  - intros [] w Hw. exact (Hrest (inl tt) (set_iw w b) Hw).
  - intros e w [_ Hw]. exact (Hrest (inr e) (set_iw w b) Hw).
Qed.

Lemma wps_orCleanup {A} (m : stM builder A) b Q (E : error -> Prop) :
  wps m b Q (fun e _ => E e) -> wps (orCleanup m) b Q (fun e b' => E e /\ removed (file (b_iw b'))).
Proof.
  intros Hm. unfold orCleanup. apply wps_bind, wps_attempt. eapply wps_mono; [exact Hm | |]; [by intros |].
  intros e b' He. apply wps_bind, wps_attempt. eapply wps_mono; [apply cleanup_spec | |].
  - intros [] b1 Hb1. by apply wps_fail.
  - intros e' b1 Hb1. by apply wps_fail.
Qed.

(** A finished build: the file is the image of blocks that hold the keys [ks]. *)
Definition build_result (ks : list key) (f : osfile) : Prop :=
  exists bs, finished cfg c bs f /\ keys_of bs = ks /\ Forall (block_ok c) bs /\ routed (c_numBlocks c) bs /\
    len bs = c_numBlocks c /\ Forall (fits c) bs.

Lemma finalizeIndex_spec b bs :
  build_ok cfg c -> committed cfg c (b_iw b) bs -> pays_in cfg c (b_iw b) bs -> Forall (block_ok c) bs -> routed (c_numBlocks c) bs ->
  len bs = c_numBlocks c -> len (keys_of bs) = totalKeys cfg ->
  wps finalizeIndex b (fun _ b' => build_result (keys_of bs) (file (b_iw b')) /\ same_progress b b')
    (fun e b' => e = ErrOther /\ removed (file (b_iw b'))).
Proof using HL.
  intros Hok Hc Hp Hb Hr Hn Hk. apply wps_orCleanup. unfold on_iw. apply wps_zoom.
  eapply wps_mono; [by apply (finalize_spec cfg c) | | by intros e w [He _]].
  intros [] w Hw. split; [| done]. exists bs. split_and!; try done. apply Hc.
Qed.

Lemma commitTrailing_spec b bs ks :
  build_ok cfg c -> core b bs ks -> len (keys_of bs) = totalKeys cfg ->
  wps commitTrailingEmptyBlocksAndFinalize b
    (fun _ b' => build_result (keys_of bs) (file (b_iw b')) /\ b_closed b' = b_closed b)
    (fun e b' => e = ErrOther /\ removed (file (b_iw b'))).
Proof using HL.
  intros Hok Hb Hk. pose proof (bd_num _ _ Hok) as Hnb. unfold commitTrailingEmptyBlocksAndFinalize.
  apply wps_bind, wps_gets, wps_bind. cbn [id]. rewrite (co_num _ _ _ Hb).
  eapply wps_mono; [apply (wps_whileM (fun s => exists bs' ks', core s bs' ks' /\ keys_of bs' = keys_of bs /\ b_closed s = b_closed b)
     (fun s => Z.to_nat (c_numBlocks c - blockCount (b_iw s))) (fun e b' => e = ErrOther /\ removed (file (b_iw b')))) | | done].
  - by exists bs, ks.
  - pose proof (cm_blocks _ _ _ _ (co_committed _ _ _ Hb)). pose proof (len_nonneg bs). lia.
  - intros s (bs' & ks' & Hs & Hk' & Hcl) Hc%Z.ltb_lt. rewrite (co_num _ _ _ Hs) in Hc.
    pose proof (cm_blocks _ _ _ _ (co_committed _ _ _ Hs)) as Hbc. apply wps_orCleanup.
    eapply wps_mono; [apply (commitEmptyBlock_spec s bs' ks'); (done || lia) | | done].
    intros [] s' [(blk & Hblk & Hs') [_ (_ & _ & Hcl' & _)]]. split.
    + exists (bs' ++ [blk]), []. rewrite keys_of_app, keys_of_single, Hblk, app_nil_r. split_and!; [done | done | congruence].
    + rewrite (cm_blocks _ _ _ _ (co_committed _ _ _ Hs')), len_app, len_single. lia.
  - intros [] s [(bs' & ks' & Hs & Hk' & Hcl) Hc%Z.ltb_ge]. rewrite (co_num _ _ _ Hs) in Hc.
    pose proof (cm_blocks _ _ _ _ (co_committed _ _ _ Hs)) as Hbc. pose proof (cm_num _ _ _ _ (co_committed _ _ _ Hs)).
    eapply wps_mono; [apply (finalizeIndex_spec s bs'); [done | apply Hs | apply Hs | apply Hs | apply Hs | lia | by rewrite Hk'] | | done].
    rewrite Hk'. intros [] s' [Hr [_ (_ & _ & Hcl' & _)]]. split; [exact Hr | congruence].
Qed.

Lemma finishSorted_step b ks bs cur :
  build_ok cfg c -> seq_inv b ks bs cur -> small_blocks ks -> len ks < 2 ^ 64 ->
  wps finishSorted b
    (fun _ b' => len ks = totalKeys cfg /\ build_result ks (file (b_iw b')) /\ b_closed b' = true)
    (fun e b' => removed (file (b_iw b')) /\
       ((e = ErrKeyCountMismatch /\ len ks <> totalKeys cfg) \/ e = ErrOther \/ e ∈ block_errors)).
Proof using HL.
  intros Hok [Hpos _] Hsmall Hlen. pose proof (bd_total _ _ Hok) as Ht. pose proof (len_nonneg ks). unfold is_u in Ht.
  unfold finishSorted. apply wps_bind, wps_gets. cbn [id]. rewrite (sq_open _ _ _ _ Hpos).
  apply wps_bind, wps_modify. rewrite (sq_count _ _ _ _ Hpos), (co_cfg _ _ _ (sq_core _ _ _ _ Hpos)), u64_id by (unfold is_u; lia).
  destruct (Z.eqb_spec (len ks) (totalKeys cfg)) as [Heq | Hne]; cbn [negb].
  2:{ eapply wps_mono; [apply (wps_orCleanup _ _ (fun _ _ => False) (fun e => e = ErrKeyCountMismatch)); by apply wps_fail | by intros |].
      intros e s [-> Hr]. split; [done | by left]. }
  pose proof (sq_workers _ _ _ _ Hpos) as Hw. destruct (Z.ltb_spec 1 (b_workers b)); [lia |].
  set (b1 := set_closed b). assert (core b1 bs cur) as Hb1 by (destruct (sq_core _ _ _ _ Hpos); split; assumption).
  assert (forall b2 bs2, core b2 bs2 cur -> keys_of bs2 = ks -> b_closed b2 = true ->
     wps commitTrailingEmptyBlocksAndFinalize b2
       (fun _ b' => len ks = totalKeys cfg /\ build_result ks (file (b_iw b')) /\ b_closed b' = true)
       (fun e b' => removed (file (b_iw b')) /\
         ((e = ErrKeyCountMismatch /\ len ks <> totalKeys cfg) \/ e = ErrOther \/ e ∈ block_errors))) as Hend.
  { intros b2 bs2 Hb2 Hk2 Hcl. eapply wps_mono; [apply (commitTrailing_spec b2 bs2 cur); [done | done | by rewrite Hk2] | |].
    - intros [] b' [Hr Hc]. rewrite Hk2 in Hr. split_and!; [done | done | congruence].
    - intros e b' [-> Hr]. split; [done | right; by left]. }
  unfold finishSingleThreaded. apply wps_bind, wps_gets. cbn [id]. unfold currentBlockKeysAdded.
  destruct (builds_keys _ _ _ (co_builds _ _ _ Hb1)) as [Hn _]. rewrite Hn. apply wps_bind.
  destruct (Z.ltb_spec 0 (len cur)) as [Hp | Hz].
  - assert (firstKey b = false) as Hf.
    { destruct (firstKey b) eqn:Hf; [| done]. destruct (sq_first _ _ _ _ Hpos Hf) as [_ ->]. done. }
    destruct (sq_current _ _ _ _ Hpos Hf) as (_ & Hlt & Hcur). pose proof (sq_keys _ _ _ _ Hpos) as Hks. rewrite Hks in Hsmall.
    eapply wps_mono; [apply wps_orCleanup, (buildBlock_spec b1 bs cur); [done .. | by eapply small_current | done] | |].
    + intros [] b2 [(blk & Hblk & Hb2) [_ (_ & _ & Hc2 & _)]]. apply (Hend b2 (bs ++ [blk])); [done | | by rewrite Hc2].
      by rewrite keys_of_app, keys_of_single, Hblk.
    + intros e b2 [He Hr]. split; [done | by right].
  - apply wps_ret. apply (Hend b1 bs); [done | | done].
    assert (cur = []) as -> by (destruct cur as [| x l]; [done | rewrite len_cons in Hz; pose proof (len_nonneg l); lia]).
    by rewrite (sq_keys _ _ _ _ Hpos), app_nil_r.
Qed.

(** Adding a key does not close the builder. *)
Lemma AddKey_keeps_closed key payload : keeps b_closed (builder_AddKey key payload).
Proof.
  assert (forall A (f : nat -> A), keeps b_closed (ask f)) as Ha by (by intros A f s s' r [= <- <-]).
  assert (forall A (m : stM indexWriter A), keeps b_closed (on_iw m)) as Hz by (intros; unfold on_iw; auto with keeps).
  assert (forall m n, keeps b_closed (build_into m n)) as Hi by (intros; unfold build_into; keeps_tac).
  assert (forall i es, keeps b_closed (dispatchBlockWork i es)) as Hd
    by (intros; unfold dispatchBlockWork, consumePipelineError; keeps_tac).
  unfold builder_AddKey, checkContextSlow, addKeyParallel, addKeySingleThreaded, dispatchBlock, dispatchEmptyBlocks,
    dispatchEmptyBlock, emptyBlocks, commitEmptyBlock, buildBlock, consumePipelineError.
  keeps_tac.
Qed.
End spec.
