(* ===== verification/SortedBuild.v ===== *)
(** * Building an index from sorted keys, end to end (one worker)

    The documented use of the sorted builder: create it, add every key, finish;
    close it in any case. *)
From S2P Require Import Prelude Words Bits Encoding Key Entries Header Algorithm Block Index Image IndexQuery File Options Writer WriterSpec Builder BuilderSpec.
#[local] Open Scope Z_scope.

Section build.
Context `{HX : !XXHash} `{HO : !OS} `{HE : !Env}.

(** Running a builder's operations; what is left is the file. *)
Definition with_builder {A} (m : stM builder A) (b : builder) : stM osfile A := fun _ =>
  match m b with Ok (b', r) => Ok (file (b_iw b'), r) | Err e => Err e | Panic => Panic end.

(** [AddKey] for every key, then [Finish]; the first error ends the build. *)
Definition add_all_and_finish (kps : list (list Z * Z)) : stM builder unit :=
  _ ← forM (fun kp => builder_AddKey kp.1 kp.2) kps;
  finishSorted.

(** [defer builder.Close()] *)
Definition then_close {A} (m : stM builder A) : stM builder A :=
  r ← attempt m;
  _ ← attempt builder_close;
  match r with inl a => mret a | inr e => fail e end.

Definition sorted_build (totalKeys : Z) (opts : list BuildOption) (kps : list (list Z * Z)) : stM osfile unit :=
  b ← newBuilder totalKeys opts;
  with_builder (then_close (add_all_and_finish kps)) b.

(** The configuration of a build. *)
Definition final_config (totalKeys : Z) (opts : list BuildOption) : buildConfig :=
  set_totalKeys totalKeys (foldl (fun cfg opt => opt cfg) defaultBuildConfig opts).

Definition block_config (cfg : buildConfig) : config :=
  config_of (algorithm cfg) (totalKeys cfg) (globalSeed cfg) (payloadSize cfg) (fingerprintSize cfg).
End build.

(** The field types of the configuration: [uint64] and bytes. *)
Record config_typed (cfg : buildConfig) : Prop := {
  ct_seed : is_u 64 (globalSeed cfg);
  ct_total : is_u 64 (totalKeys cfg);
  ct_user : Forall is_byte (userMetadata cfg)
}.

(** The checks [newBuilder] makes, in order. *)
Variant rejected (cfg : buildConfig) : error -> Prop :=
  | rejected_keys : maxKeys < totalKeys cfg -> rejected cfg ErrTooManyKeys
  | rejected_payload : ~ 0 <= payloadSize cfg <= maxPayloadSize -> rejected cfg ErrPayloadTooLarge
  | rejected_fingerprint : ~ 0 <= fingerprintSize cfg <= maxFingerprintSize -> rejected cfg ErrFingerprintTooLarge
  | rejected_algorithm : algorithm cfg <> AlgoBijection -> algorithm cfg <> AlgoPTRHash -> rejected cfg ErrInvalidGeometry
  | rejected_metadata : 2 ^ 32 <= len (userMetadata cfg) -> rejected cfg ErrOther.

Lemma config_of_ok cfg :
  config_typed cfg -> limits_ok (algorithm cfg) (totalKeys cfg) -> totalKeys cfg <= maxKeys ->
  0 <= payloadSize cfg <= maxPayloadSize -> 0 <= fingerprintSize cfg <= maxFingerprintSize ->
  algorithm cfg = AlgoBijection \/ algorithm cfg = AlgoPTRHash -> len (userMetadata cfg) < 2 ^ 32 ->
  build_ok cfg (block_config cfg).
Proof.
  intros [Hs Ht Hu] Hl Hk Hp Hf Ha Hlen. unfold maxKeys in Hk. pose proof (len_nonneg (userMetadata cfg)).
  pose proof (config_of_bounds _ (totalKeys cfg) (globalSeed cfg) (payloadSize cfg) (fingerprintSize cfg) Ha Hl) as [Hn Hm].
  unfold block_config in *. assert (is_u 40 (totalKeys cfg)) by (unfold is_u in *; lia).
  assert (is_u 32 (len (userMetadata cfg))) by (unfold is_u; lia).
  split; try assumption; unfold config_of; destruct Ha as [-> | ->]; try done; first [by left | by right].
Qed.

Section spec.
Context `{HX : !XXHash} {HL : XXHashLaws} `{HO : !OS} `{HE : !Env}.
Context (totalKeys : Z) (opts : list BuildOption).

Let cfg : buildConfig := final_config totalKeys opts.
Let c : config := block_config cfg.

(** A builder before its first key. *)
Record fresh (b : builder) : Prop := {
  fr_cfg : b_cfg b = cfg;
  fr_num : b_numBlocks b = c_numBlocks c;
  fr_committed : committed cfg c (b_iw b) [];
  fr_pays : pays_in cfg c (b_iw b) [];
  fr_builds : builds c [] (b_blk b);
  fr_next : nextBlockToWrite b = 0;
  fr_first : firstKey b = true;
  fr_open : b_closed b = false;
  fr_workers : b_workers b <= Z.max 1 (workers cfg);
  fr_writerErr : writerErr b = None;
  fr_pending : pendingEntries b = [];
  fr_before : keysBefore b = 0;
  fr_md : metadataBuf b = [];
  fr_pd : payloadsBuf b = [];
  fr_last : lastBlockID b = -1;
  fr_added : totalKeysAdded b = 0;
  fr_works : works b = []
}.

Lemma fresh_seq b : fresh b -> b_workers b <= 1 -> seq_inv cfg c b [] [] [].
Proof.
  intros [] Hw. split; [split; [split | ..] |]; try done.
  - by rewrite fr_md0.
  - by rewrite fr_pd0.
  - by rewrite fr_first0.
  - by rewrite fr_first0.
Qed.

(** A new builder is ready for its first key; or a check or a system call failed. *)
Lemma newBuilder_spec f0 :
  config_typed cfg -> limits_ok (algorithm cfg) totalKeys ->
  wps (newBuilder totalKeys opts) f0
    (fun b f => file (b_iw b) = f /\ build_ok cfg c /\ fresh b)
    (fun e f => (rejected cfg e /\ f = f0) \/ (e = ErrOther /\ uncreated f0 f)).
Proof.
  intros Ht Hl. unfold newBuilder. fold cfg. destruct (Z.ltb_spec maxKeys totalKeys) as [Hk | Hk].
  { apply wps_fail. left. split; [by constructor | done]. }
  change (set_totalKeys totalKeys _) with cfg.
  destruct (Z.ltb_spec (payloadSize cfg) 0), (Z.ltb_spec maxPayloadSize (payloadSize cfg)); cbn [orb];
    try (apply wps_fail; left; split; [constructor; lia | done]).
  destruct (Z.ltb_spec (fingerprintSize cfg) 0), (Z.ltb_spec maxFingerprintSize (fingerprintSize cfg)); cbn [orb];
    try (apply wps_fail; left; split; [constructor; lia | done]).
  destruct (decide (algorithm cfg = AlgoBijection \/ algorithm cfg = AlgoPTRHash)) as [Ha | Ha].
  2:{ rewrite newBlockBuilder_unknown by tauto. apply wps_bind, wps_lift, wp_err. left. split; [by constructor; tauto | done]. }
  destruct (newBlockBuilder_builds (algorithm cfg) totalKeys (globalSeed cfg) (payloadSize cfg) (fingerprintSize cfg))
    as (bldr & Hnew & Hblds); [done | done | apply Ht | lia | lia |]. rewrite Hnew. apply wps_bind, wps_lift, wp_ok.
  change (config_of _ _ _ _ _) with c in Hblds. destruct (builds_config _ _ _ Hblds) as (Hc & Hnb & Hmx & Hg & _). rewrite Hnb.
  destruct (Z.ltb_spec (len (userMetadata cfg)) (2 ^ 32)) as [Hu | Hu].
  2:{ apply wps_bind. unfold newIndexWriter. destruct (Z.ltb_spec (2 ^ 32 - 1) (len (userMetadata cfg))); [| lia].
      apply wps_fail. left. split; [by constructor | done]. }
  assert (build_ok cfg c) as Hok by (apply config_of_ok; try done; lia). apply wps_bind.
  eapply wps_mono; [apply (newIndexWriter_spec cfg c bldr f0 Hok Hg Hmx) | | intros e f [-> Hf]; by right].
  intros w f (Hw & Halg & Hcm & Hpay). apply wps_ret. split; [done |]. split; [done |]. split; try done.
  pose proof (bd_num _ _ Hok). cbn [b_workers]. destruct (totalKeys =? 0); [lia |]. destruct (Z.leb_spec (workers cfg) 0);
      match goal with |- context [?a <? ?b] => destruct (Z.ltb_spec a b) end; lia.
Qed.

(** The block of the last key added. *)
Definition last_block (kps : list (list Z * Z)) : Z :=
  match last kps with Some kp => block_of c (key_of c kp) | None => -1 end.

Definition all_acceptable (kps : list (list Z * Z)) : Prop :=
  forall pre kp post, kps = pre ++ kp :: post -> acceptable c (last_block pre) kp.

(** Why adding the keys [kps] and finishing can fail. *)
Variant build_failed (kps : list (list Z * Z)) : error -> Prop :=
  | failed_key pre kp post e : kps = pre ++ kp :: post -> all_acceptable pre -> refused c (last_block pre) kp e -> build_failed kps e
  | failed_count : len kps <> totalKeys -> build_failed kps ErrKeyCountMismatch
  | failed_context e : context_error e -> build_failed kps e
  | failed_block e : e ∈ block_errors -> build_failed kps e
  | failed_io : build_failed kps ErrOther.

Lemma last_block_snoc pre kp : last_block (pre ++ [kp]) = block_of c (key_of c kp).
Proof. unfold last_block. by rewrite last_snoc. Qed.

Lemma all_acceptable_snoc pre kp : all_acceptable pre -> acceptable c (last_block pre) kp -> all_acceptable (pre ++ [kp]).
Proof.
  intros Hp Hk p k q Heq. destruct (decide (q = [])) as [-> | Hq].
  - apply app_inj_tail in Heq as [<- <-]. done.
  - destruct (exists_last Hq) as (q' & x & ->). rewrite app_comm_cons, app_assoc in Heq.
    apply app_inj_tail in Heq as [-> _]. by eapply Hp.
Qed.

Lemma small_prefix ks ks' : small_blocks c (ks ++ ks') -> small_blocks c ks.
Proof.
  intros Hs j. specialize (Hs j). rewrite filter_app, len_app in Hs.
  pose proof (len_nonneg (filter (fun k => block_of c k = j) ks')). lia.
Qed.

(** Adding the keys one by one. *)
Lemma add_all_spec b kps :
  build_ok cfg c -> seq_inv cfg c b [] [] [] -> lastBlockID b = -1 -> Forall (fun kp => Forall is_byte kp.1) kps ->
  small_blocks c (map (key_of c) kps) ->
  wps (forM (fun kp => builder_AddKey kp.1 kp.2) kps) b
    (fun _ b' => all_acceptable kps /\ exists bs cur, seq_inv cfg c b' (map (key_of c) kps) bs cur)
    (fun e b' => build_failed kps e /\ b_closed b' = false).
Proof.
  intros Hok Hb Hl0 Hbytes Hsmall.
  eapply wps_mono; [apply (wps_forM (fun pre b' => all_acceptable pre /\ lastBlockID b' = last_block pre /\
      exists bs cur, seq_inv cfg c b' (map (key_of c) pre) bs cur) (fun e b' => build_failed kps e /\ b_closed b' = false)) | | done].
  - split; [by intros [] ? ? |]. split; [exact Hl0 | by exists [], []].
  - intros pre kp post s -> (Hacc & Hlast & bs & cur & Hs).
    rewrite map_app in Hsmall. apply Forall_app in Hbytes as [_ [Hkp _]%Forall_cons].
    eapply wps_mono; [apply (wps_keeps b_closed); [apply AddKey_keeps_closed | apply (sorted_AddKey_step cfg c s (map (key_of c) pre) bs cur kp)];
      [done | done | by eapply small_prefix | done] | |].
    + intros [] s' [(Hk & Hl & Hs') _]. rewrite Hlast in Hk. split; [by apply all_acceptable_snoc |].
      split; [by rewrite last_block_snoc |]. by rewrite map_app.
    + intros e s' [He Hc]. split; [| rewrite Hc; by apply Hs]. rewrite Hlast in He.
      destruct He as [[He _] | [[He _] | [-> | He]]].
      * by eapply failed_key.
      * by apply failed_context.
      * apply failed_io.
      * by apply failed_block.
  - intros [] b' (Hacc & _ & Hs). done.
Qed.

(** [Close] after a failure removes the file; after a finished build it does
    nothing. *)
Lemma close_spec b :
  wps builder_close b (fun _ b' => if b_closed b then b' = b else removed (file (b_iw b')))
    (fun _ b' => b_closed b = false /\ removed (file (b_iw b'))).
Proof.
  unfold builder_close. apply wps_bind, wps_gets. cbn [id]. destruct (b_closed b); [by apply wps_ret |].
  apply wps_bind, wps_modify. eapply wps_mono; [apply cleanup_spec | done | done].
Qed.

Lemma then_close_spec {A} (m : stM builder A) b (Q : A -> osfile -> Prop) (E : error -> Prop) :
  wps m b (fun a b' => Q a (file (b_iw b')) /\ b_closed b' = true)
    (fun e b' => E e /\ (b_closed b' = false \/ removed (file (b_iw b')))) ->
  wps (then_close m) b (fun a b' => Q a (file (b_iw b'))) (fun e b' => E e /\ removed (file (b_iw b'))).
Proof.
  intros Hm. unfold then_close. apply wps_bind, wps_attempt. eapply wps_mono; [exact Hm | |].
  - intros a b' [HQ Hc]. apply wps_bind, wps_attempt. eapply wps_mono; [apply close_spec | |]; rewrite Hc.
    + intros [] b1 ->. by apply wps_ret.
    + by intros e b1 [? _].
  - intros e b' [He Hr]. apply wps_bind, wps_attempt. eapply wps_mono; [apply close_spec | |].
    + intros [] b1 H. apply wps_fail. split; [done |]. destruct (b_closed b') eqn:Hc; [| done]. subst b1. by destruct Hr.
    + intros e' b1 [_ H]. by apply wps_fail.
Qed.

Lemma with_builder_spec {A} (m : stM builder A) b f (Q : A -> osfile -> Prop) E :
  wps m b (fun a b' => Q a (file (b_iw b'))) (fun e b' => E e (file (b_iw b'))) -> wps (with_builder m b) f Q E.
Proof. unfold wps, with_builder. by destruct (m b) as [[b' [a | e]] | |]. Qed.

(** What a build that reports no error leaves: the image of the keys. *)
Definition build_done (kps : list (list Z * Z)) (f : osfile) : Prop :=
  all_acceptable kps /\ len kps = totalKeys /\ build_ok cfg c /\ build_result cfg c (map (key_of c) kps) f.

Lemma len_keys_of kps : len (map (key_of c) kps) = len kps.
Proof. unfold len. by rewrite length_map. Qed.

(** Every key and the end, by one worker. *)
Lemma seq_run_spec b kps :
  build_ok cfg c -> fresh b -> b_workers b <= 1 -> Forall (fun kp => Forall is_byte kp.1) kps ->
  small_blocks c (map (key_of c) kps) -> len kps < 2 ^ 64 ->
  wps (add_all_and_finish kps) b (fun _ b' => build_done kps (file (b_iw b')) /\ b_closed b' = true)
    (fun e b' => build_failed kps e /\ (b_closed b' = false \/ removed (file (b_iw b')))).
Proof using HL.
  intros Hok Hfr Hw Hbytes Hsmall Hlen. unfold add_all_and_finish. apply wps_bind.
  eapply wps_mono; [apply (add_all_spec b kps); [done | by apply fresh_seq | apply Hfr | done | done] | | intros e b' [He Hc]; split; [done | by left]].
  intros [] b1 (Hacc & bs & cur & Hb1).
  eapply wps_mono; [apply (finishSorted_step cfg c b1 (map (key_of c) kps) bs cur); try done; by rewrite len_keys_of | |].
  - intros [] b2 (Hn & Hr & Hc). rewrite len_keys_of in Hn. by split_and!.
  - intros e b2 [Hr He]. split; [| by right]. rewrite len_keys_of in He.
    destruct He as [[-> He] | [-> | He]]; [by apply failed_count | apply failed_io | by apply failed_block].
Qed.

(** Whatever the builder's workers do, the build either ends with the image or
    leaves no file. *)
Lemma build_spec f0 kps (F : error -> Prop) :
  config_typed cfg -> limits_ok (algorithm cfg) totalKeys ->
  (forall b, build_ok cfg c -> fresh b ->
    wps (add_all_and_finish kps) b (fun _ b' => build_done kps (file (b_iw b')) /\ b_closed b' = true)
      (fun e b' => F e /\ (b_closed b' = false \/ removed (file (b_iw b'))))) ->
  wps (sorted_build totalKeys opts kps) f0 (fun _ => build_done kps)
    (fun e f => (rejected cfg e /\ f = f0) \/ (e = ErrOther /\ uncreated f0 f) \/ (F e /\ removed f)).
Proof.
  intros Ht Hl Hrun. unfold sorted_build. apply wps_bind.
  eapply wps_mono; [by apply newBuilder_spec | | intros e f [H | H]; [by left | right; by left]].
  intros b f (_ & Hok & Hfr). apply with_builder_spec.
  eapply wps_mono; [apply (then_close_spec _ b (fun _ => build_done kps) F); by apply Hrun | done | intros e b' H; right; by right].
Qed.
End spec.

(** ** The index answers for the keys that were added *)
Section answers.
Context `{HX : !XXHash} {HL : XXHashLaws}.

Definition answers_for (cfg : buildConfig) (bytes : list Z) (kps : list (list Z * Z)) : Prop :=
  exists i, OpenBytes bytes = Ok i /\ NumKeys i = len kps /\ Index.UserMetadata i = Options.userMetadata cfg /\ Verify i = Ok tt /\
    exists ranks, ranks ≡ₚ range (len kps) /\
      Forall2 (fun kp r => QueryRank i kp.1 = Ok r /\
        (payloadSize cfg <> 0 -> exists pi, Index.WithPayload i = Ok pi /\ QueryPayload pi kp.1 = Ok (r, kp.2))) kps ranks.

Lemma built_image_ok cfg c ks bs :
  build_ok cfg c -> keys_of bs = ks -> len ks = totalKeys cfg -> Forall (block_ok c) bs -> routed (c_numBlocks c) bs ->
  len bs = c_numBlocks c -> len (image_bytes (built_image cfg c bs)) < 2 ^ 40 -> image_ok (built_image cfg c bs).
Proof.
  intros Hok <- Hk Hb Hr Hn Hl. split; cbn [im_cfg im_user im_blocks built_image]; try apply Hok; try done.
  - rewrite Hn. apply Hok.
  - by rewrite Hn.
  - rewrite Hk. apply Hok.
  - unfold image_bytes in Hl. cbn [im_blocks built_image] in Hl. rewrite !len_app in Hl.
    pose proof (len_nonneg (image_prefix (built_image cfg c bs))). pose proof (len_nonneg (ram_bytes (ram_entries 0 0 bs))).
    pose proof (len_nonneg (pays_of bs)). pose proof (len_nonneg (metas_of bs)).
    pose proof (len_nonneg (Header.Footer.footer_bytes (image_footer (built_image cfg c bs)))). unfold is_u. lia.
Qed.

Lemma key_of_spelled c kp : MinKeySize <= len kp.1 -> Forall is_byte kp.1 -> spells kp.1 (key_of c kp).
Proof. intros Hl Hb. destruct (key_halves c kp.1 Hl Hb) as [H0 H1]. by split_and!. Qed.

Lemma build_result_answers cfg c kps f :
  build_ok cfg c -> build_result cfg c (map (key_of c) kps) f -> len kps = totalKeys cfg ->
  Forall (fun kp => Forall is_byte kp.1 /\ is_u 64 kp.2) kps ->
  Forall (fun kp => MinKeySize <= len kp.1 /\ (0 < c_ps c < 8 -> kp.2 < 2 ^ (8 * c_ps c))) kps ->
  exists bytes, f_data f = Some bytes /\ f_open f = false /\ (len bytes < 2 ^ 40 -> answers_for cfg bytes kps).
Proof using HL.
  intros Hok (bs & [Hopen Hdata] & Hks & Hblk & Hrt & Hn & _) Hlen Hty Hacc. exists (image_bytes (built_image cfg c bs)).
  split; [done |]. split; [done |]. intros Hl.
  assert (len (map (key_of c) kps) = len kps) as Hlk by (unfold len; by rewrite length_map).
  assert (image_ok (built_image cfg c bs)) as Hm by (apply (built_image_ok cfg c (map (key_of c) kps)); try done; by rewrite Hlk).
  destruct (image_answers_all _ Hm) as (i & Hi & Hu & Hnk & Hv & ranks & Hp & Hr).
  cbn [im_blocks built_image] in Hnk, Hr. rewrite Hks in Hnk, Hr. rewrite Hlk in Hnk. rewrite Hnk in Hp.
  exists i. split; [done |]. split; [done |]. split; [exact Hu |]. split; [done |]. exists ranks. split; [done |].
  apply (Forall2_fmap_l (key_of c)) in Hr. apply Forall2_same_length_lookup_2; [exact (Forall2_length _ _ _ Hr) |].
  intros n kp r Hkp Hrk. pose proof (Forall2_lookup_lr _ _ _ _ _ _ Hr Hkp Hrk) as Ha.
  destruct (Forall_lookup_1 _ _ _ _ Hty Hkp) as [Hb Hpay]. destruct (Forall_lookup_1 _ _ _ _ Hacc Hkp) as [Hkl Hpl].
  destruct (Ha kp.1 (key_of_spelled c kp Hkl Hb)) as [Hq Hqp]. split; [exact Hq |]. cbn [im_cfg built_image k_payload key_of] in Hqp.
  rewrite (bd_ps _ _ Hok) in Hqp, Hpl. intros Hne. destruct (Hqp Hne) as (pi & Hw & Hqq). exists pi. split; [exact Hw |].
  rewrite Hqq. do 2 f_equal. apply Z.mod_small. unfold is_u in Hpay. split; [lia |].
  destruct (bd_config _ _ Hok) as [_ Hps _]. rewrite (bd_ps _ _ Hok) in Hps. unfold maxPayloadSize in Hps.
  destruct (decide (payloadSize cfg = 8)) as [-> | H8]; [lia | apply Hpl; lia].
Qed.
End answers.

(** ** The theorem *)
Lemma all_acceptable_Forall {HX : XXHash} totalKeys opts kps :
  all_acceptable totalKeys opts kps ->
  Forall (fun kp => MinKeySize <= len kp.1 /\
    (0 < c_ps (block_config (final_config totalKeys opts)) < 8 -> kp.2 < 2 ^ (8 * c_ps (block_config (final_config totalKeys opts))))) kps.
Proof.
  intros Hacc. apply Forall_forall. intros kp (pre & post & Heq)%list_elem_of_split.
  destruct (Hacc pre kp post Heq) as [Hl Hp _]. split; [lia | exact Hp].
Qed.

Lemma keys_bytes (kps : list (list Z * Z)) : Forall (fun kp => Forall is_byte kp.1 /\ is_u 64 kp.2) kps -> Forall (fun kp => Forall is_byte kp.1) kps.
Proof. intros H. eapply Forall_impl; [exact H |]. by intros kp [? _]. Qed.

Lemma build_done_answers `{HX : !XXHash} {HL : XXHashLaws} totalKeys opts kps f :
  let cfg := final_config totalKeys opts in
  Forall (fun kp => Forall is_byte kp.1 /\ is_u 64 kp.2) kps -> build_done totalKeys opts kps f ->
  len kps = totalKeys /\ all_acceptable totalKeys opts kps /\
    exists bytes, f_data f = Some bytes /\ f_open f = false /\ (len bytes < 2 ^ 40 -> answers_for cfg bytes kps).
Proof using.
  intros cfg Hty (Hacc & Hn & Hok & Hr). split; [done |]. split; [done |].
  apply (build_result_answers cfg _ kps f Hok Hr Hn Hty). by apply all_acceptable_Forall.
Qed.

(** C11: building an index from sorted keys with one worker. Whatever system calls
    fail, the build never panics. When it reports no error, the keys were valid,
    in block order and as many as announced, the file is closed, and opening its
    bytes gives an index that knows every key: the ranks are 0 to n-1, each once,
    every key has its payload, and both hashes verify. When it reports an error:
    a rejected configuration leaves the path alone; when the file could not be
    created the path is as it was, and when no space could be reserved for it the
    new file stays, closed and empty ([newIndexWriter] does not remove it); after
    every other error the file is closed and removed, unless [os.Remove] itself
    failed. The error is that of the rejected option, of the key refused, of the
    wrong number of keys, of a block that cannot be built, of the context or of a
    system call. *)
Theorem sorted_build_correct `{HX : !XXHash} {HL : XXHashLaws} `{HO : !OS} `{HE : !Env} totalKeys opts f0 kps :
  let cfg := final_config totalKeys opts in
  let c := block_config cfg in
  config_typed cfg -> limits_ok (algorithm cfg) totalKeys -> workers cfg <= 1 -> len kps < 2 ^ 64 ->
  Forall (fun kp => Forall is_byte kp.1 /\ is_u 64 kp.2) kps -> small_blocks c (map (key_of c) kps) ->
  wps (sorted_build totalKeys opts kps) f0
    (fun _ f => len kps = totalKeys /\ all_acceptable totalKeys opts kps /\
       exists bytes, f_data f = Some bytes /\ f_open f = false /\ (len bytes < 2 ^ 40 -> answers_for cfg bytes kps))
    (fun e f => (rejected cfg e /\ f = f0) \/ (e = ErrOther /\ uncreated f0 f) \/
       (build_failed totalKeys opts kps e /\ removed f)).
Proof using.
  intros cfg c Ht Hl Hw Hlen Hty Hsmall.
  eapply wps_mono; [apply (build_spec totalKeys opts f0 kps (build_failed totalKeys opts kps)); try done | | done].
  - intros b Hok Hfr. pose proof (fr_workers _ _ _ Hfr) as Hbw. fold cfg in Hbw. apply seq_run_spec; try done; [lia |]. by apply keys_bytes.
  - intros [] f Hdone. by apply build_done_answers.
Qed.

(** Few keys make small blocks. *)
Lemma small_blocks_few c ks : len ks < 2 ^ 32 -> small_blocks c ks.
Proof.
  intros Hl j. enough (len (filter (fun k => block_of c k = j) ks) <= len ks) by lia.
  unfold len. pose proof (length_filter (fun k => block_of c k = j) ks). lia.
Qed.

(** A system without failures, for examples. *)
Definition quiet_os : OS := {| fault _ := None; prealloc_grows := false |}.
Definition quiet_env : @Env poly_hash :=
  {| ctx_done _ := false; pipe_send _ := Sent; pipe_poll _ := None; pipe_drain _ _ _ w := (w, None) |}.

Definition example_opts : list BuildOption := [Options.WithPayload 4; WithFingerprint 1; WithMetadata [1; 2; 3]].
Definition example_keys : list (list Z * Z) :=
  [([3; 0; 0; 0; 0; 0; 0; 0; 5; 0; 0; 0; 0; 0; 0; 0], 77); ([200; 0; 0; 0; 0; 0; 0; 0; 9; 0; 0; 0; 0; 0; 0; 0], 99)].

Lemma sorted_build_correct_witness :
  let cfg := final_config 2 example_opts in
  wps (@sorted_build poly_hash quiet_os quiet_env 2 example_opts example_keys) (mk_osfile None false false 0)
    (fun _ f => len example_keys = 2 /\ all_acceptable 2 example_opts example_keys /\
       exists bytes, f_data f = Some bytes /\ f_open f = false /\
         (len bytes < 2 ^ 40 -> @answers_for poly_hash cfg bytes example_keys))
    (fun e f => (rejected cfg e /\ f = mk_osfile None false false 0) \/ (e = ErrOther /\ @uncreated quiet_os (mk_osfile None false false 0) f) \/
       (@build_failed poly_hash quiet_env 2 example_opts example_keys e /\ removed f)).
Proof.
  apply (@sorted_build_correct poly_hash poly_hash_laws quiet_os quiet_env 2 example_opts (mk_osfile None false false 0) example_keys).
  - split; [unfold is_u; cbn; lia | unfold is_u; cbn; lia |]. repeat constructor; unfold_words; lia.
  - split; vm_compute; reflexivity.
  - cbn. lia.
  - unfold len. cbn. lia.
  - repeat constructor; unfold_words; cbn; lia.
  - apply small_blocks_few. unfold len. cbn. lia.
Defined.
