(* ===== verification/Pipeline.v ===== *)
(** * [builder_parallel.go]: the pipeline of workers

    The calling goroutine sends blocks of keys to a channel; each worker takes
    one, builds it, writes its payloads to the file at the offset its rank gives
    and sends the metadata on; the writer goroutine commits the metadata in
    block order. The goroutines take their steps in any order: [step] relates a
    state to every state one goroutine can bring about, the environment (the
    parent context) included. *)
From stdpp Require Import gmap.
From S2P Require Import Prelude Words Bits Encoding Key Entries Header Algorithm Block Index File Options Writer Builder.
#[local] Open Scope Z_scope.

Definition workChanBufferMultiplier : Z := 2.

(** The result of building a block; the payloads are in the file already. *)
Record blockResult := mk_result {
  br_blockID : Z;
  br_metadata : list Z;
  br_numKeys : Z;
  br_payloadHash : Z;
  br_err : option error
}.

Section pipeline.
Context `{HX : !XXHash} `{HO : !OS}.

(** A worker's own block builder and payload buffer. *)
Record worker := mk_worker { wk_blk : blockBuilder; wk_pay : list Z }.

(** ** What the goroutines do between two channel operations *)

Definition fill (fpSize : Z) (blk : blockBuilder) (entries : list routedEntry) : res blockBuilder :=
  foldM (fun blk e =>
    AddKey blk (re_k0 e) (re_k1 e) (re_payload e) (extractFingerprint (re_k0 e) (re_k1 e) fpSize)) blk entries.

Definition put_worker (wk : worker) (s : worker * indexWriter) : worker * indexWriter := (wk, s.2).
Definition put_writer (w : indexWriter) (s : worker * indexWriter) : worker * indexWriter := (s.1, w).

(** The body of [runWorker]'s loop, from the work taken to the result sent;
    [md] is the metadata buffer the pool hands out. *)
Definition process (cfg : buildConfig) (md : list Z) (work : blockWork) : stM (worker * indexWriter) blockResult :=
  wk ← gets fst;
  let entrySize := cfg_entrySize cfg in
  if len (bw_entries work) =? 0 then
    '(blk, md, _, r) ← lift (BuildSeparatedInto (Reset (wk_blk wk)) md []);
    _ ← modify (put_worker (mk_worker blk (wk_pay wk)));
    let metadataLen := match r with inl (metadataLen, _, _) => metadataLen | inr _ => 0 end in
    md ← lift (slice md 0 metadataLen);
    mret (mk_result (bw_blockID work) md 0 (Sum64 []) (match r with inl _ => None | inr e => Some e end))
  else
    blk ← lift (fill (fingerprintSize cfg) (Reset (wk_blk wk)) (bw_entries work));
    let payloadsNeeded := len (bw_entries work) * entrySize in
    buf ← lift (grow (wk_pay wk) payloadsNeeded);
    pd ← lift (slice buf 0 payloadsNeeded);
    '(blk, md, pd, r) ← lift (BuildSeparatedInto blk md pd);
    buf ← lift (store buf 0 pd);
    _ ← modify (put_worker (mk_worker blk buf));
    match r with
    | inr e => mret (mk_result (bw_blockID work) md 0 0 (Some e))
    | inl (metadataLen, _, numKeys) =>
        md ← lift (slice md 0 metadataLen);
        if 0 <? payloadsNeeded then
          let payloadOffset := u64 (bw_keysBefore work * u64 entrySize) in
          r ← attempt (zoom snd put_writer (writePayloadsDirect pd payloadOffset));
          mret (mk_result (bw_blockID work) md numKeys (Sum64 pd) (match r with inl _ => None | inr e => Some e end))
        else mret (mk_result (bw_blockID work) md numKeys (Sum64 []) None)
    end.

(** One round of the writer's inner loop: the next block, in order. *)
Definition emit (r : blockResult) : stM indexWriter unit :=
  _ ← foldPayloadHash (br_payloadHash r);
  writeMetadata (br_metadata r) (br_numKeys r).

(** ** The state *)

(** A worker waits for work, has taken some, is about to send a result, or has
    returned. *)
Variant wstate := Waiting | Taken (w : blockWork) | Sending (r : blockResult) | Returned (e : option error).

(** The writer goroutine: running, failing (its error is in [writerDone], the
    workers are not cancelled yet), or gone ([writerDone] is closed). *)
Variant writerState := Running | Failing | Gone (failed : bool).

(** The calling goroutine: dispatching, or draining ([drainParallelPipeline]:
    waiting for the workers, then for the writer), or stopping after an error
    ([shutdownWorkers], the same two waits), or done. *)
Variant mainState := Dispatching | DrainWorkers | DrainWriter | StopWorkers (e : error) | StopWriter (e : error) | Done (e : option error).

Record pipe := mk_pipe {
  p_iw : indexWriter;
  todo : list blockWork;               (* still to be dispatched *)
  workChan : list blockWork;
  workClosed : bool;
  crew : list (worker * wstate);
  groupErr : option error;             (* of the errgroup *)
  cancelled : bool;                    (* workerCtx *)
  parentDone : bool;                   (* b.ctx *)
  resultChan : list blockResult;
  resultClosed : bool;
  pending : gmap Z blockResult;
  nextBlockID : Z;
  writer : writerState;
  doneVal : option error;              (* the value in [writerDone] *)
  main : mainState
}.

Definition put_p_iw (x : indexWriter) (s : pipe) : pipe :=
  mk_pipe x (todo s) (workChan s) (workClosed s) (crew s) (groupErr s) (cancelled s) (parentDone s)
    (resultChan s) (resultClosed s) (pending s) (nextBlockID s) (writer s) (doneVal s) (main s).
Definition put_todo (x : list blockWork) (s : pipe) : pipe :=
  mk_pipe (p_iw s) x (workChan s) (workClosed s) (crew s) (groupErr s) (cancelled s) (parentDone s)
    (resultChan s) (resultClosed s) (pending s) (nextBlockID s) (writer s) (doneVal s) (main s).
Definition put_workChan (x : list blockWork) (s : pipe) : pipe :=
  mk_pipe (p_iw s) (todo s) x (workClosed s) (crew s) (groupErr s) (cancelled s) (parentDone s) (resultChan s)
    (resultClosed s) (pending s) (nextBlockID s) (writer s) (doneVal s) (main s).
Definition put_workClosed (x : bool) (s : pipe) : pipe :=
  mk_pipe (p_iw s) (todo s) (workChan s) x (crew s) (groupErr s) (cancelled s) (parentDone s) (resultChan s)
    (resultClosed s) (pending s) (nextBlockID s) (writer s) (doneVal s) (main s).
Definition put_crew (x : list (worker * wstate)) (s : pipe) : pipe :=
  mk_pipe (p_iw s) (todo s) (workChan s) (workClosed s) x (groupErr s) (cancelled s) (parentDone s)
    (resultChan s) (resultClosed s) (pending s) (nextBlockID s) (writer s) (doneVal s) (main s).
Definition put_groupErr (x : option error) (s : pipe) : pipe :=
  mk_pipe (p_iw s) (todo s) (workChan s) (workClosed s) (crew s) x (cancelled s) (parentDone s) (resultChan s)
    (resultClosed s) (pending s) (nextBlockID s) (writer s) (doneVal s) (main s).
Definition put_cancelled (x : bool) (s : pipe) : pipe :=
  mk_pipe (p_iw s) (todo s) (workChan s) (workClosed s) (crew s) (groupErr s) x (parentDone s) (resultChan s)
    (resultClosed s) (pending s) (nextBlockID s) (writer s) (doneVal s) (main s).
Definition put_parentDone (x : bool) (s : pipe) : pipe :=
  mk_pipe (p_iw s) (todo s) (workChan s) (workClosed s) (crew s) (groupErr s) (cancelled s) x (resultChan s)
    (resultClosed s) (pending s) (nextBlockID s) (writer s) (doneVal s) (main s).
Definition put_resultChan (x : list blockResult) (s : pipe) : pipe :=
  mk_pipe (p_iw s) (todo s) (workChan s) (workClosed s) (crew s) (groupErr s) (cancelled s) (parentDone s) x
    (resultClosed s) (pending s) (nextBlockID s) (writer s) (doneVal s) (main s).
Definition put_resultClosed (x : bool) (s : pipe) : pipe :=
  mk_pipe (p_iw s) (todo s) (workChan s) (workClosed s) (crew s) (groupErr s) (cancelled s) (parentDone s)
    (resultChan s) x (pending s) (nextBlockID s) (writer s) (doneVal s) (main s).
Definition put_pending (x : gmap Z blockResult) (s : pipe) : pipe :=
  mk_pipe (p_iw s) (todo s) (workChan s) (workClosed s) (crew s) (groupErr s) (cancelled s) (parentDone s)
    (resultChan s) (resultClosed s) x (nextBlockID s) (writer s) (doneVal s) (main s).
Definition put_nextBlockID (x : Z) (s : pipe) : pipe :=
  mk_pipe (p_iw s) (todo s) (workChan s) (workClosed s) (crew s) (groupErr s) (cancelled s) (parentDone s)
    (resultChan s) (resultClosed s) (pending s) x (writer s) (doneVal s) (main s).
Definition put_writer_state (x : writerState) (s : pipe) : pipe :=
  mk_pipe (p_iw s) (todo s) (workChan s) (workClosed s) (crew s) (groupErr s) (cancelled s) (parentDone s)
    (resultChan s) (resultClosed s) (pending s) (nextBlockID s) x (doneVal s) (main s).
Definition put_doneVal (x : option error) (s : pipe) : pipe :=
  mk_pipe (p_iw s) (todo s) (workChan s) (workClosed s) (crew s) (groupErr s) (cancelled s) (parentDone s)
    (resultChan s) (resultClosed s) (pending s) (nextBlockID s) (writer s) x (main s).
Definition put_main (x : mainState) (s : pipe) : pipe :=
  mk_pipe (p_iw s) (todo s) (workChan s) (workClosed s) (crew s) (groupErr s) (cancelled s) (parentDone s)
    (resultChan s) (resultClosed s) (pending s) (nextBlockID s) (writer s) (doneVal s) x.

(** The capacity of both channels. *)
Definition chanCap (s : pipe) : Z := len (crew s) * workChanBufferMultiplier.

(** ** Steps *)

(** A worker returns; the errgroup keeps the first error and cancels the others. *)
Definition returned (i : nat) (wk : worker) (e : option error) (s : pipe) : pipe :=
  let s := put_crew (<[i := (wk, Returned e)]> (crew s)) s in
  match e with
  | None => s
  | Some _ => put_cancelled true (put_groupErr (match groupErr s with Some e => Some e | None => e end) s)
  end.

Definition all_returned (s : pipe) : Prop := Forall (fun x => exists e, x.2 = Returned e) (crew s).

(** [failWriter], up to the cancellation. *)
Definition failWriter (e : error) (s : pipe) : pipe := put_writer_state Failing (put_doneVal (Some e) s).

(** The calling goroutine gives up with the error [e]: [shutdownWorkers]. *)
Definition stop (e : error) (s : pipe) : pipe :=
  put_cancelled true (put_workClosed true (put_main (StopWorkers e) (put_todo [] s))).

Inductive step (cfg : buildConfig) (mdSize : Z) : pipe -> pipe -> Prop :=
  (* the calling goroutine: [dispatchBlockWork] *)
  | main_send s w ts :
      main s = Dispatching -> todo s = w :: ts -> len (workChan s) < chanCap s ->
      step cfg mdSize s (put_workChan (workChan s ++ [w]) (put_todo ts s))
  | main_cancelled s :
      main s = Dispatching -> todo s <> [] -> cancelled s = true -> step cfg mdSize s (stop ErrOther s)
  | main_writer_error s e :
      main s = Dispatching -> todo s <> [] -> doneVal s = Some e -> step cfg mdSize s (stop e (put_doneVal None s))
  | main_writer_gone s f :
      main s = Dispatching -> todo s <> [] -> writer s = Gone f -> doneVal s = None -> step cfg mdSize s (stop ErrBuilderClosed s)
  (* [drainParallelPipeline] *)
  | drain_close s :
      main s = Dispatching -> todo s = [] -> step cfg mdSize s (put_main DrainWorkers (put_workClosed true s))
  | drain_workers s :
      main s = DrainWorkers -> all_returned s -> step cfg mdSize s (put_main DrainWriter (put_resultClosed true s))
  | drain_error s e :
      main s = DrainWriter -> doneVal s = Some e -> step cfg mdSize s (put_main (Done (Some e)) (put_doneVal None s))
  | drain_done s f :
      main s = DrainWriter -> writer s = Gone f -> doneVal s = None -> step cfg mdSize s (put_main (Done (groupErr s)) s)
  (* [shutdownWorkers] *)
  | stop_workers s e :
      main s = StopWorkers e -> all_returned s ->
      step cfg mdSize s (put_main (StopWriter e) (put_resultClosed true (put_workChan [] s)))
  | stop_value s e e' :
      main s = StopWriter e -> doneVal s = Some e' -> step cfg mdSize s (put_main (Done (Some e)) (put_doneVal None s))
  | stop_done s e f :
      main s = StopWriter e -> writer s = Gone f -> doneVal s = None -> step cfg mdSize s (put_main (Done (Some e)) s)
  (* a worker: [runWorker] *)
  | worker_take s i wk w ws :
      crew s !! i = Some (wk, Waiting) -> workChan s = w :: ws ->
      step cfg mdSize s (put_workChan ws (put_crew (<[i := (wk, Taken w)]> (crew s)) s))
  | worker_end s i wk :
      crew s !! i = Some (wk, Waiting) -> workChan s = [] -> workClosed s = true -> step cfg mdSize s (returned i wk None s)
  | worker_cancelled s i wk w :
      crew s !! i = Some (wk, Taken w) -> cancelled s = true -> step cfg mdSize s (returned i wk (Some ErrOther) s)
  | worker_build s i wk w md wk' iw' r :
      crew s !! i = Some (wk, Taken w) -> Forall is_byte md -> len md = mdSize ->
      process cfg md w (wk, p_iw s) = Ok ((wk', iw'), inl r) ->
      step cfg mdSize s (put_p_iw iw' (put_crew (<[i := (wk', Sending r)]> (crew s)) s))
  | worker_send s i wk r :
      crew s !! i = Some (wk, Sending r) -> len (resultChan s) < chanCap s -> br_err r = None ->
      step cfg mdSize s (put_resultChan (resultChan s ++ [r]) (put_crew (<[i := (wk, Waiting)]> (crew s)) s))
  | worker_send_error s i wk r e :
      crew s !! i = Some (wk, Sending r) -> len (resultChan s) < chanCap s -> br_err r = Some e ->
      step cfg mdSize s (returned i wk (Some e) (put_resultChan (resultChan s ++ [r]) s))
  | worker_give_up s i wk r :
      crew s !! i = Some (wk, Sending r) -> cancelled s = true -> step cfg mdSize s (returned i wk (Some ErrOther) s)
  (* the writer: [runWriter] *)
  | writer_receive s r rs :
      writer s = Running -> pending s !! nextBlockID s = None -> resultChan s = r :: rs -> br_err r = None ->
      step cfg mdSize s (put_pending (<[br_blockID r := r]> (pending s)) (put_resultChan rs s))
  | writer_receive_error s r rs e :
      writer s = Running -> pending s !! nextBlockID s = None -> resultChan s = r :: rs -> br_err r = Some e ->
      step cfg mdSize s (failWriter e (put_resultChan rs s))
  | writer_emit s r iw' :
      writer s = Running -> pending s !! nextBlockID s = Some r -> emit r (p_iw s) = Ok (iw', inl tt) ->
      step cfg mdSize s
        (put_nextBlockID (u32 (nextBlockID s + 1)) (put_pending (delete (nextBlockID s) (pending s)) (put_p_iw iw' s)))
  | writer_emit_error s r iw' e :
      writer s = Running -> pending s !! nextBlockID s = Some r -> emit r (p_iw s) = Ok (iw', inr e) ->
      step cfg mdSize s (failWriter e (put_pending (delete (nextBlockID s) (pending s)) (put_p_iw iw' s)))
  | writer_end s :
      writer s = Running -> pending s !! nextBlockID s = None -> resultChan s = [] -> resultClosed s = true ->
      step cfg mdSize s (put_writer_state (Gone false) s)
  | writer_cancel s :
      writer s = Failing -> step cfg mdSize s (put_writer_state (Gone true) (put_cancelled true s))
  (* the environment *)
  | parent_cancel s :
      parentDone s = false -> step cfg mdSize s (put_parentDone true (put_cancelled true s)).

(** [initParallelWorkers]: [n] workers, each with a new block builder. *)
Definition start (n : nat) (blk : blockBuilder) (works : list blockWork) (iw : indexWriter) : pipe :=
  mk_pipe iw works [] false (replicate n (mk_worker blk [], Waiting)) None false false [] false ∅ 0 Running None Dispatching.
End pipeline.
