(* ===== verification/PipelineLive.v ===== *)
(** * The pipeline always comes to an end

    Whatever order the goroutines take their steps in, the pipeline cannot get
    stuck before the calling goroutine is done, and it cannot run forever. *)
From stdpp Require Import gmap.
From S2P Require Import Prelude Words Bits Encoding Key Entries Header Algorithm Block Index File Options Writer Image WriterSpec Builder BuilderSpec SortedBuild Pipeline.
#[local] Open Scope Z_scope.

Section live.
Context `{HX : !XXHash} {HL : XXHashLaws} `{HO : !OS}.
Context (cfg : buildConfig) (c : config).

(** ** What a worker does with its work *)
Definition entry_key (e : routedEntry) : key :=
  mk_key (re_k0 e) (re_k1 e) (re_payload e) (extractFingerprint (re_k0 e) (re_k1 e) (c_fps c)).

Definition work_keys (w : blockWork) : list key := map entry_key (bw_entries w).

Record work_ok (w : blockWork) : Prop := {
  wo_entries : Forall (fun e => is_u 64 (re_k0 e) /\ is_u 64 (re_k1 e)) (bw_entries w);
  wo_few : len (bw_entries w) < 2 ^ 32
}.

Record worker_ok (wk : worker) : Prop := {
  wk_builds : exists ks, builds c ks (wk_blk wk);
  wk_bytes : Forall is_byte (wk_pay wk)
}.

Lemma len_work_keys w : len (work_keys w) = len (bw_entries w).
Proof. unfold work_keys, len. by rewrite length_map. Qed.

Lemma entry_key_ok e : build_ok cfg c -> is_u 64 (re_k0 e) -> is_u 64 (re_k1 e) -> bkey_ok (c_fps c) (entry_key e).
Proof.
  intros Hok H0 H1. destruct (bd_config _ _ Hok) as [_ _ Hf]. split_and!; [done | done |]. cbn.
  apply extractFingerprint_is; [done |]. unfold maxFingerprintSize in *. lia.
Qed.

(** The keys of the work reach the block builder. *)
Lemma fill_spec blk entries : build_ok cfg c ->
  Forall (fun e => is_u 64 (re_k0 e) /\ is_u 64 (re_k1 e)) entries -> builds c [] blk ->
  exists blk', fill (fingerprintSize cfg) blk entries = Ok blk' /\ builds c (map entry_key entries) blk'.
Proof.
  intros Hok He Hb. unfold fill. rewrite <- (bd_fps _ _ Hok).
  enough (forall ks blk, builds c ks blk -> exists blk', foldM (fun blk e =>
      AddKey blk (re_k0 e) (re_k1 e) (re_payload e) (extractFingerprint (re_k0 e) (re_k1 e) (c_fps c))) blk entries = Ok blk' /\
    builds c (ks ++ map entry_key entries) blk') as H by (exact (H [] blk Hb)).
  clear Hb blk. induction He as [| e entries [H0 H1] He IH]; intros ks blk Hb.
  - exists blk. by rewrite app_nil_r.
  - cbn [foldM map]. destruct (AddKey_builds _ _ _ (entry_key e) Hb (entry_key_ok e Hok H0 H1)) as (b1 & Ha & Hb1).
    cbn [k_0 k_1 k_payload k_fp entry_key] in Ha. rewrite Ha. cbn [mbind res_bind].
    destruct (IH (ks ++ [entry_key e]) b1 Hb1) as (b2 & H2 & Hb2). exists b2. by rewrite <- app_assoc in Hb2.
Qed.

Lemma work_fp w : Forall (fun k => k_fp k = extractFingerprint (k_0 k) (k_1 k) (c_fps c)) (work_keys w).
Proof. apply Forall_fmap, Forall_forall. done. Qed.

(** The result of a built block, and the write of its payloads. *)
Definition processed (w : blockWork) (iw iw' : indexWriter) (r : blockResult) : Prop :=
  br_blockID r = bw_blockID w /\
  exists pay res, writePayloadsDirect pay (u64 (bw_keysBefore w * u64 (c_entrySize c))) iw = Ok (iw', res) /\
    match br_err r with
    | None => res = inl tt /\ exists blk, bd_keys blk = work_keys w /\ bd_meta blk = br_metadata r /\ bd_pay blk = pay /\
        br_numKeys r = len (work_keys w) /\ br_payloadHash r = Sum64 pay /\ block_ok c blk /\ fits c blk
    | Some e => e = ErrOther \/ e ∈ block_errors
    end.

Lemma write_nothing off iw : writePayloadsDirect [] off iw = Ok (iw, inl tt).
Proof. reflexivity. Qed.

Lemma writePayloadsDirect_total pay off iw :
  exists iw' res, writePayloadsDirect pay off iw = Ok (iw', res) /\ (forall e, res = inr e -> e = ErrOther).
Proof.
  assert (wps (writePayloadsDirect pay off) iw (fun _ _ => True) (fun e _ => e = ErrOther)) as Hw.
  { unfold writePayloadsDirect. destruct (_ =? 0); [done |]. apply wps_bind, wps_gets, wps_bind, wps_gets.
    destruct (_ <? _); [done |]. unfold writeAt. apply wps_zoom, wps_osWriteAt; done. }
  unfold wps in Hw. destruct (writePayloadsDirect pay off iw) as [[iw' [[] | e]] | |]; try done.
  - exists iw', (inl tt). by split.
  - exists iw', (inr e). split; [done |]. by intros e' [= <-].
Qed.

Lemma process_spec md w wk iw :
  build_ok cfg c -> worker_ok wk -> work_ok w -> Forall is_byte md -> len md = c_maxMeta c ->
  exists wk' iw' r, process cfg md w (wk, iw) = Ok ((wk', iw'), inl r) /\ worker_ok wk' /\ processed w iw iw' r.
Proof.
  intros Hok [(ks & Hblk) Hpay] [He Hfew] Hmd Hml. pose proof (Reset_builds _ _ _ Hblk) as Hreset.
  assert (cfg_entrySize cfg = c_entrySize c) as Hes by (unfold cfg_entrySize, c_entrySize; by rewrite (bd_ps _ _ Hok), (bd_fps _ _ Hok)).
  pose proof (start_bounds cfg c Hok) as (_ & Hesb & _). pose proof (len_nonneg (bw_entries w)) as Hn0.
  enough (wps (process cfg md w) (wk, iw) (fun r s' => worker_ok s'.1 /\ processed w iw s'.2 r) (fun _ _ => False)) as Hw.
  { unfold wps in Hw. destruct (process cfg md w (wk, iw)) as [[[wk' iw'] [r | e]] | |]; try done.
    destruct Hw as [H1 H2]. by exists wk', iw', r. }
  unfold process. rewrite Hes. apply wps_bind, wps_gets. cbn [fst]. destruct (Z.eqb_spec (len (bw_entries w)) 0) as [Hz | Hz].
  - assert (work_keys w = []) as Hk by (unfold work_keys; destruct (bw_entries w); [done | rewrite len_cons in Hz; pose proof (len_nonneg l); lia]).
    apply wps_bind, wps_lift.
    eapply wp_mono; [apply (Build_builds c [] _ md []); [done | right; lia | unfold len; cbn; lia | done | constructor] | | done].
    intros [[[blk md'] pd'] r] (H1 & H2 & _ & H4 & _ & Hr). apply wps_bind, wps_modify.
    destruct r as [[[metaLen pl] m] | e]; [| by destruct Hr]. destruct Hr as (_ & _ & Hl & Hb). unfold minMetadata in Hl.
    rewrite slice_prefix by lia. apply wps_bind, wps_lift, wp_ok, wps_ret.
    split; [split; [by exists [] | done] |]. split; [done |]. exists [], (inl tt). split; [apply write_nothing |]. cbn [br_err].
    split; [done |]. pose proof (len_take_to md' metaLen ltac:(lia)) as Hlm.
    exists (mk_blk [] (take (Z.to_nat metaLen) md') []). rewrite Hk.
    assert (block_ok c (mk_blk [] (take (Z.to_nat metaLen) md') [])) as Hbo.
    { apply meta_block_ok; try done; [apply Hok | by apply Forall_take | unfold minMetadata; lia |].
      intros d Hd. exists []. split; [done | constructor]. }
    split_and!; try done. apply block_ok_fits; [done | cbn; lia].
  - destruct (fill_spec (Reset (wk_blk wk)) (bw_entries w) Hok He Hreset) as (blk & -> & Hb). apply wps_bind, wps_lift, wp_ok.
    fold (work_keys w) in Hb. rewrite <- len_work_keys in Hfew, Hz, Hn0 |- *. set (p := len (work_keys w) * c_entrySize c). assert (0 <= p) as Hp by (subst p; nia).
    destruct (grow_spec (wk_pay wk) p Hp Hpay) as (buf & -> & Hlb & Hbb). apply wps_bind, wps_lift, wp_ok.
    rewrite slice_prefix by lia. apply wps_bind, wps_lift, wp_ok, wps_bind, wps_lift. pose proof (len_take_to buf p ltac:(lia)) as Hlt.
    eapply wp_mono; [apply (Build_builds c (work_keys w) blk md (take (Z.to_nat p) buf)); [done | right; lia | by rewrite Hlt | done | by apply Forall_take] | | done].
    intros [[[blk' md'] pd'] r] (H1 & H2 & H3 & H4 & H5 & Hr). rewrite Hlt in H3. destruct (builds_keys _ _ _ Hb) as [_ Hkok].
    rewrite (store_front buf pd' p) by (lia || done). apply wps_bind, wps_lift, wp_ok, wps_bind, wps_modify.
    assert (worker_ok (mk_worker blk' (pd' ++ drop (Z.to_nat p) buf))) as Hwk
      by (split; [by eexists | apply Forall_app; split; [done | by apply Forall_drop]]).
    destruct r as [[[metaLen pl] m] | e].
    2:{ apply wps_ret. split; [exact Hwk |]. split; [done |]. exists [], (inl tt). split; [apply write_nothing |]. right. by destruct Hr. }
    destruct Hr as (-> & _ & Hl & Hbt). unfold minMetadata in Hl. rewrite slice_prefix by lia. apply wps_bind, wps_lift, wp_ok.
    pose proof (len_take_to md' metaLen ltac:(lia)) as Hlm.
    assert (block_ok c (mk_blk (work_keys w) (take (Z.to_nat metaLen) md') pd')) as Hbo.
    { apply meta_block_ok; try done; [apply Hok | apply work_fp | by apply Forall_take | unfold minMetadata; lia]. }
    assert (fits c (mk_blk (work_keys w) (take (Z.to_nat metaLen) md') pd')) as Hft by (apply block_ok_fits; [done | cbn [bd_meta]; lia]).
    destruct (Z.ltb_spec 0 p) as [Hpp | Hpp].
    + apply wps_bind, wps_attempt, wps_zoom. unfold wps at 1. cbn [snd put_worker].
      destruct (writePayloadsDirect_total pd' (u64 (bw_keysBefore w * u64 (c_entrySize c))) iw) as (iw' & res & Hwr & Herr).
      rewrite Hwr. destruct res as [[] | e]; (apply wps_ret; split; [exact Hwk |]; split; [done |]).
      * exists pd', (inl tt). split; [exact Hwr |]. cbn [br_err]. split; [done |].
        exists (mk_blk (work_keys w) (take (Z.to_nat metaLen) md') pd'). by split_and!.
      * exists pd', (inr e). split; [exact Hwr |]. cbn [br_err]. left. by apply Herr.
    + apply wps_ret. split; [exact Hwk |]. split; [done |]. exists [], (inl tt). split; [apply write_nothing |]. cbn [br_err].
      assert (pd' = []) as -> by (destruct pd' as [| x l]; [done | rewrite len_cons in H3; pose proof (len_nonneg l); lia]).
      split; [done |]. exists (mk_blk (work_keys w) (take (Z.to_nat metaLen) md') []). by split_and!.
Qed.

(** ** Every step brings the end closer

    A block weighs less the further it has got; a phase of a goroutine weighs
    less than the one before it. *)
Definition worker_weight (x : worker * wstate) : nat :=
  match x.2 with Waiting => 1 | Taken _ => 6 | Sending _ => 5 | Returned _ => 0 end.
Definition main_weight (m : mainState) : nat :=
  match m with Dispatching => 5 | DrainWorkers | StopWorkers _ => 3 | DrainWriter | StopWriter _ => 2 | Done _ => 0 end.
Definition writer_weight (w : writerState) : nat := match w with Running => 2 | Failing => 1 | Gone _ => 0 end.

Definition weight (s : pipe) : nat :=
  7 * length (todo s) + 6 * length (workChan s) + sum_list_with worker_weight (crew s) +
  3 * length (resultChan s) + 2 * size (pending s) + main_weight (main s) + writer_weight (writer s) +
  (if parentDone s then 0 else 1).

Lemma sum_insert {A} (f : A -> nat) l i x y :
  l !! i = Some x -> (sum_list_with f (<[i := y]> l) + f x = sum_list_with f l + f y)%nat.
Proof.
  revert i. induction l as [| z l IH]; intros [| i] Hi; [done | done | |].
  - injection Hi as ->. cbn. lia.
  - specialize (IH i Hi). change (f z + sum_list_with f (<[i := y]> l) + f x = f z + sum_list_with f l + f y)%nat. lia.
Qed.

Lemma weight_crew i x y s :
  crew s !! i = Some x ->
  (sum_list_with worker_weight (<[i := y]> (crew s)) + worker_weight x = sum_list_with worker_weight (crew s) + worker_weight y)%nat.
Proof. apply sum_insert. Qed.

Lemma size_delete_lookup (m : gmap Z blockResult) i r : m !! i = Some r -> size m = S (size (delete i m)).
Proof. intros Hi. rewrite <- (insert_delete_id m i r Hi) at 1. by rewrite map_size_insert_None by apply lookup_delete_eq. Qed.

Lemma size_insert_le (m : gmap Z blockResult) i r : (size (<[i := r]> m) <= S (size m))%nat.
Proof. rewrite map_size_insert. destruct (m !! i); cbn; lia. Qed.

Lemma step_weight md s s' : step cfg md s s' -> (weight s' < weight s)%nat.
Proof.
  unfold weight. destruct 1; unfold returned, stop, failWriter;
    cbn [todo workChan crew resultChan pending main writer parentDone put_p_iw put_todo put_workChan put_workClosed put_crew
      put_groupErr put_cancelled put_parentDone put_resultChan put_resultClosed put_pending put_nextBlockID
      put_writer_state put_doneVal put_main];
    repeat match goal with
      | H : main s = _ |- _ => rewrite H; clear H
      | H : writer s = _ |- _ => rewrite H; clear H
      | H : todo s = _ |- _ => rewrite H; clear H
      | H : workChan s = _ |- _ => rewrite H; clear H
      | H : resultChan s = _ |- _ => rewrite H; clear H
      | H : parentDone s = _ |- _ => rewrite H; clear H
      | H : crew s !! ?i = Some ?x |- context [<[?i := ?y]> (crew s)] => pose proof (weight_crew i x y s H); clear H
      | H : pending s !! ?i = Some _ |- context [delete ?i (pending s)] => apply size_delete_lookup in H; rewrite H; clear H
      | |- context [size (<[?i := ?r]> (pending s))] => pose proof (size_insert_le (pending s) i r); generalize dependent (size (<[i := r]> (pending s))); intros
      end;
    rewrite ?length_app; cbn [worker_weight snd main_weight writer_weight length] in *; try lia.
Qed.

(** ** Some goroutine can always go on

    What holds of every state the pipeline reaches. *)
Definition wstate_ok (closed canc : bool) (x : wstate) : Prop :=
  match x with
  | Taken w => work_ok w
  | Returned None => closed = true
  | Returned (Some _) => canc = true
  | _ => True
  end.

Definition crew_ok (closed canc : bool) (l : list (worker * wstate)) : Prop :=
  Forall (fun x => worker_ok x.1 /\ wstate_ok closed canc x.2) l.

Definition phase_ok (m : mainState) (wclosed rclosed : bool) (td : list blockWork) : Prop :=
  match m with
  | Dispatching => wclosed = false /\ rclosed = false
  | DrainWorkers | StopWorkers _ => wclosed = true /\ rclosed = false /\ td = []
  | DrainWriter | StopWriter _ | Done _ => wclosed = true /\ rclosed = true /\ td = []
  end.

Record live (s : pipe) : Prop := {
  lv_nonempty : 0 < len (crew s);
  lv_crew : crew_ok (workClosed s) (cancelled s) (crew s);
  lv_works : Forall work_ok (todo s ++ workChan s);
  lv_phase : phase_ok (main s) (workClosed s) (resultClosed s) (todo s);
  lv_all : resultClosed s = true -> all_returned s;
  lv_writer : forall f, writer s = Gone f -> cancelled s = true \/ resultClosed s = true
}.

Lemma crew_ok_mono cl cl' ca ca' l : (cl = true -> cl' = true) -> (ca = true -> ca' = true) -> crew_ok cl ca l -> crew_ok cl' ca' l.
Proof.
  intros H1 H2 Hl. eapply Forall_impl; [exact Hl |]. intros [wk [| w | r | [e |]]] [Hw Hs]; split; try done; cbn in *; auto.
Qed.

Lemma crew_ok_insert cl ca l i wk x : crew_ok cl ca l -> worker_ok wk -> wstate_ok cl ca x -> crew_ok cl ca (<[i := (wk, x)]> l).
Proof. intros Hl Hw Hx. by apply Forall_insert. Qed.

Lemma crew_ok_lookup cl ca l i wk x : crew_ok cl ca l -> l !! i = Some (wk, x) -> worker_ok wk /\ wstate_ok cl ca x.
Proof. intros Hl Hi. exact (Forall_lookup_1 _ _ _ _ Hl Hi). Qed.

Lemma all_returned_insert (l : list (worker * wstate)) i wk wk' x y :
  l !! i = Some (wk, x) -> (forall e, x <> Returned e) -> Forall (fun x => exists e, x.2 = Returned e) l ->
  Forall (fun x => exists e, x.2 = Returned e) (<[i := (wk', y)]> l).
Proof. intros Hi Hx Hl. destruct (Forall_lookup_1 _ _ _ _ Hl Hi) as [e He]. by destruct (Hx e). Qed.

Lemma live_start n blk works iw : (0 < n)%nat -> worker_ok (mk_worker blk []) -> Forall work_ok works -> live (start n blk works iw).
Proof.
  intros Hn Hb Hw. split; cbn; try done.
  - unfold len. rewrite length_replicate. lia.
  - by apply Forall_replicate.
  - by rewrite app_nil_r.
Qed.

Lemma emit_total r iw : exists iw' res, emit r iw = Ok (iw', res) /\ (forall e, res = inr e -> e = ErrOther).
Proof.
  assert (wps (emit r) iw (fun _ _ => True) (fun e _ => e = ErrOther)) as Hw.
  { unfold emit, writeMetadata, recordAndWriteMetadata, count_block. apply wps_bind. unfold wps at 1. rewrite foldPayloadHash_eq.
    cbn beta iota. apply wps_bind, wps_bind, wps_modify. destruct (_ <? _); [| by apply wps_ret].
    apply wps_bind, wps_gets, wps_bind. unfold writeAt. apply wps_zoom, wps_osWriteAt; done. }
  unfold wps in Hw. destruct (emit r iw) as [[iw' [[] | e]] | |]; try done.
  - exists iw', (inl tt). by split.
  - exists iw', (inr e). split; [done |]. by intros e' [= <-].
Qed.

#[local] Hint Resolve crew_ok_insert : core.

Lemma live_returned s i wk wk0 x e : live s -> worker_ok wk -> crew s !! i = Some (wk0, x) -> (forall e, x <> Returned e) -> (e = None -> workClosed s = true) -> live (returned i wk e s).
Proof.
  intros [] Hw Hi Hx He. unfold returned. destruct e as [e |]; split; cbn; try done; rewrite ?len_insert; auto.
  all: try (intros H; eapply all_returned_insert; [exact Hi | exact Hx | by apply lv_all0]).
  all: try (apply crew_ok_insert; [eapply crew_ok_mono; [done | | done]; done | done | cbn; auto]).
Qed.

Lemma live_stop s e : live s -> main s = Dispatching -> live (stop e s).
Proof.
  intros [] Hm. rewrite Hm in lv_phase0. destruct lv_phase0 as [_ Hr]. unfold stop. split; cbn; try done.
  - by eapply crew_ok_mono; [| | done].
  - by apply Forall_app in lv_works0 as [_ ?].
  - by left.
Qed.

Lemma live_step s s' : build_ok cfg c -> live s -> step cfg (c_maxMeta c) s s' -> live s'.
Proof.
  intros Hok Hs Hstep. pose proof Hs as []. destruct Hstep.
  all: try (match goal with H : crew _ !! _ = Some _ |- _ => pose proof (crew_ok_lookup _ _ _ _ _ _ lv_crew0 H) as [Hwk Hst] end).
  all: try (by eapply live_returned).
  all: try (by apply live_stop).
  all: split; cbn; rewrite ?len_insert; try done; try auto.
  all: try (match goal with H : main _ = _ |- _ => rewrite H in * end).
  all: try (unfold phase_ok in *; intuition congruence).
  all: try (intros f0; discriminate).
  all: try (intros; unfold all_returned; cbn; eapply all_returned_insert; [eassumption | by intros | by apply lv_all0]).
  all: try (eapply crew_ok_mono; [| | done]; by auto).
  - rewrite H0 in lv_works0. rewrite app_assoc. apply Forall_app in lv_works0 as [[Hw Ht]%Forall_cons Hc].
    rewrite !Forall_app, Forall_singleton. done.
  - apply Forall_app in lv_works0 as [Ht _]. by rewrite app_nil_r.
  - apply crew_ok_insert; [done .. |]. rewrite H0 in lv_works0. by apply Forall_app in lv_works0 as [_ [? _]%Forall_cons].
  - rewrite H0 in lv_works0. apply Forall_app in lv_works0 as [? [_ ?]%Forall_cons]. apply Forall_app. done.
  - apply crew_ok_insert; [done | | done]. destruct (process_spec md w wk (p_iw s) Hok Hwk Hst H0 H1) as (wk2 & iw2 & r2 & Hp & Hwk2 & _).
    rewrite Hp in H2. by injection H2 as -> -> ->.
Qed.

(** A step of one of the program's goroutines, not of the environment. *)
Definition can_go (s : pipe) : Prop := exists s', step cfg (c_maxMeta c) s s' /\ parentDone s' = parentDone s.

Lemma writer_goes s : live s -> writer s = Running -> resultChan s <> [] \/ resultClosed s = true -> can_go s.
Proof.
  intros Hs Hw Hr. destruct (pending s !! nextBlockID s) as [r |] eqn:Hp.
  - destruct (emit_total r (p_iw s)) as (iw' & [[] | e] & He & _).
    + eexists. split; [by eapply writer_emit | done].
    + eexists. split; [by eapply writer_emit_error | done].
  - destruct (resultChan s) as [| r rs] eqn:Hc; [destruct Hr as [Hr | Hr]; [done |] |].
    + eexists. split; [by apply writer_end | done].
    + destruct (br_err r) as [e |] eqn:He.
      * eexists. split; [by eapply writer_receive_error | done].
      * eexists. split; [by eapply writer_receive | done].
Qed.

(** A worker that has not returned can go on, or waits for work, or for the
    writer, which can. *)
Lemma worker_goes s i wk x : build_ok cfg c -> live s -> crew s !! i = Some (wk, x) ->
  can_go s \/ (x = Waiting /\ workChan s = [] /\ workClosed s = false) \/ exists e, x = Returned e.
Proof.
  intros Hok Hs Hi. pose proof Hs as []. pose proof (crew_ok_lookup _ _ _ _ _ _ lv_crew0 Hi) as [Hwk Hx]. destruct x as [| w | r | e].
  - destruct (workChan s) as [| w ws] eqn:Hc.
    + destruct (workClosed s) eqn:Hcl; [| by right; left]. left. eexists. split; [by eapply worker_end | done].
    + left. eexists. split; [by eapply worker_take | done].
  - left. destruct (process_spec (make 0 (c_maxMeta c)) w wk (p_iw s) Hok Hwk Hx) as (wk' & iw' & r & Hp & _).
    + apply Forall_replicate. unfold_words. lia.
    + rewrite len_make; [done | apply (bd_max _ _ Hok)].
    + eexists. split; [eapply worker_build; [exact Hi | | | exact Hp] | done].
      * apply Forall_replicate. unfold_words. lia.
      * rewrite len_make; [done | apply (bd_max _ _ Hok)].
  - left. destruct (Z.ltb_spec (len (resultChan s)) (chanCap s)) as [Hlt | Hge].
    + destruct (br_err r) as [e |] eqn:He.
      * eexists. split; [by eapply worker_send_error | done].
      * eexists. split; [by eapply worker_send | done].
    + assert (resultChan s <> []) as Hne.
      { unfold chanCap, workChanBufferMultiplier in Hge. intros Hnil. rewrite Hnil in Hge. unfold len at 2 in Hge. cbn in Hge. lia. }
      destruct (writer s) as [| | f] eqn:Hw.
      * by apply writer_goes; [| | left].
      * eexists. split; [by apply writer_cancel | done].
      * destruct (cancelled s) eqn:Hca.
        { eexists. split; [by eapply worker_give_up | done]. }
        destruct (lv_writer0 f eq_refl) as [? | Hrc]; [congruence |]. destruct (Forall_lookup_1 _ _ _ _ (lv_all0 Hrc) Hi) as [e He]. discriminate He.
  - right. right. by exists e.
Qed.

(** While a worker has not returned, someone can go on, unless the workers wait
    for work. *)
Lemma crew_goes s : build_ok cfg c -> live s -> workClosed s = true -> can_go s \/ all_returned s.
Proof.
  intros Hok Hs Hcl. destruct (decide (Forall (fun x => match x.2 with Returned _ => true | _ => false end = true) (crew s))) as [Ha | Hn].
  - right. eapply Forall_impl; [exact Ha |]. intros [wk [| w | r | e]]; cbn; try done. by eexists.
  - left. apply not_Forall_Exists in Hn; [| solve_decision]. apply Exists_exists in Hn as ([wk x] & (i & Hi)%list_elem_of_lookup & Hx).
    destruct (worker_goes s i wk x Hok Hs Hi) as [? | [(_ & _ & ?) | [e ->]]]; [done | congruence | by destruct Hx].
Qed.

Lemma dispatch_goes s : build_ok cfg c -> live s -> main s = Dispatching -> can_go s.
Proof.
  intros Hok Hs Hm. pose proof Hs as []. rewrite Hm in lv_phase0. destruct lv_phase0 as [Hcl Hrc].
  destruct (todo s) as [| w ts] eqn:Ht. { eexists. split; [by eapply drain_close | done]. }
  destruct (Z.ltb_spec (len (workChan s)) (chanCap s)) as [Hlt | Hge]. { eexists. split; [by eapply main_send | done]. }
  destruct (crew s) as [| [wk x] l] eqn:Hcr; [by unfold len in lv_nonempty0 |].
  assert (crew s !! 0%nat = Some (wk, x)) as Hi by (by rewrite Hcr).
  destruct (worker_goes s 0 wk x Hok Hs Hi) as [? | [(_ & Hnil & _) | [e ->]]]; [done | |].
  - unfold chanCap, workChanBufferMultiplier in Hge. rewrite Hnil, Hcr in Hge. unfold len at 2 in Hge. cbn in Hge. lia.
  - rewrite <- Hcr in lv_crew0. destruct (crew_ok_lookup _ _ _ _ _ _ lv_crew0 Hi) as [_ He].
    destruct e as [e |]; cbn in He; [| congruence]. eexists. split; [apply main_cancelled; [done | by rewrite Ht | done] | done].
Qed.

(** The writer comes to its end once no result can follow. *)
Lemma end_goes s : live s -> resultClosed s = true -> can_go s \/ exists f, writer s = Gone f.
Proof.
  intros Hs Hr. destruct (writer s) as [| | f] eqn:Hw; [| | by right; exists f].
  - left. apply writer_goes; auto.
  - left. eexists. split; [by apply writer_cancel | done].
Qed.

Lemma live_progress s : build_ok cfg c -> live s -> (exists e, main s = Done e) \/ can_go s.
Proof.
  intros Hok Hs. pose proof (lv_phase s Hs) as Hp. destruct (main s) as [| | | e | e | e] eqn:Hm; cbn in Hp.
  - right. by apply dispatch_goes.
  - right. destruct (crew_goes s Hok Hs) as [? | Ha]; [apply Hp | done |]. eexists. split; [by apply drain_workers | done].
  - right. destruct (doneVal s) as [e |] eqn:Hd; [eexists; split; [by eapply drain_error | done] |].
    destruct (end_goes s Hs) as [? | [f Hf]]; [apply Hp | done |]. eexists. split; [by eapply drain_done | done].
  - right. destruct (crew_goes s Hok Hs) as [? | Ha]; [apply Hp | done |]. eexists. split; [by eapply stop_workers | done].
  - right. destruct (doneVal s) as [e' |] eqn:Hd; [eexists; split; [by eapply stop_value | done] |].
    destruct (end_goes s Hs) as [? | [f Hf]]; [apply Hp | done |]. eexists. split; [by eapply stop_done | done].
  - left. by exists e.
Qed.

(** [steps n s s']: [n] steps. *)
Inductive steps : nat -> pipe -> pipe -> Prop :=
  | steps_none s : steps 0 s s
  | steps_more n s s1 s' : step cfg (c_maxMeta c) s s1 -> steps n s1 s' -> steps (S n) s s'.

Lemma live_steps n s s' : build_ok cfg c -> live s -> steps n s s' -> live s' /\ (n + weight s' <= weight s)%nat.
Proof.
  intros Hok Hs H. induction H as [s | n s s1 s' H _ IH]; [split; [done | lia] |].
  destruct (IH (live_step _ _ Hok Hs H)) as [H1 H2]. pose proof (step_weight _ _ _ H). split; [done | lia].
Qed.

(** So a run to the end exists from every such state. *)
Lemma run_exists s : build_ok cfg c -> live s -> exists k s' e, steps k s s' /\ main s' = Done e.
Proof.
  intros Hok. remember (weight s) as n eqn:Hn. revert s Hn. induction (lt_wf n) as [n _ IH]. intros s -> Hs.
  destruct (live_progress s Hok Hs) as [[e He] | (s1 & Hst & _)]; [exists 0%nat, s, e; split; [constructor | done] |].
  destruct (IH _ (step_weight _ _ _ Hst) s1 eq_refl (live_step _ _ Hok Hs Hst)) as (k & s' & e & Hk & He).
  exists (S k), s', e. split; [by econstructor | done].
Qed.

Lemma weight_start n blk works iw : weight (start n blk works iw) = (7 * length works + n + 8)%nat.
Proof.
  unfold weight, start. cbn. rewrite map_size_empty.
  assert (sum_list_with worker_weight (replicate n (mk_worker blk [], Waiting)) = n) as -> by (induction n; cbn; congruence). lia.
Qed.
End live.

(** C10: the pipeline of workers comes to an end under every schedule. However the
    goroutines interleave, whichever system calls fail, and whether or not the
    parent context is cancelled, a pipeline started with [n] workers on well
    formed work takes at most [7 * works + n + 8] steps; and a state it cannot
    leave without the environment is one where the calling goroutine is done:
    there is no deadlock between the dispatcher, the workers and the writer, and
    none of them panics. *)
Theorem pipeline_ends `{HX : !XXHash} {HL : XXHashLaws} `{HO : !OS} cfg c n blk works iw k s :
  build_ok cfg c -> (0 < n)%nat -> (exists ks, builds c ks blk) -> Forall work_ok works ->
  steps cfg c k (start n blk works iw) s ->
  (k <= 7 * length works + n + 8)%nat /\
  ((exists e, main s = Done e) \/ exists s', step cfg (c_maxMeta c) s s' /\ parentDone s' = parentDone s).
Proof.
  intros Hok Hn Hb Hw Hs. destruct (live_steps cfg c k _ _ Hok (live_start c n blk works iw Hn (Build_worker_ok c (mk_worker blk []) Hb ltac:(constructor)) Hw) Hs) as [Hl Hk].
  rewrite weight_start in Hk. split; [lia |]. by apply (live_progress cfg c).
Qed.

(** ** An example: a block per key *)
Definition example_cfg : buildConfig := final_config 2 example_opts.
Definition example_config : config := block_config example_cfg.

Definition example_works : list blockWork := [mk_work 0 [mk_routed 3 5 77] 0; mk_work 1 [mk_routed 200 9 99] 1].

Lemma example_ok `{HX : !XXHash} : build_ok example_cfg example_config.
Proof.
  apply config_of_ok.
  - split; [unfold is_u; cbn; lia | unfold is_u; cbn; lia |]. repeat constructor; unfold_words; lia.
  - split; vm_compute; reflexivity.
  - unfold maxKeys. cbn. lia.
  - unfold maxPayloadSize. cbn. lia.
  - unfold maxFingerprintSize. cbn. lia.
  - by left.
  - unfold len. cbn. lia.
Qed.

Lemma example_start `{HX : !XXHash} {HL : XXHashLaws} : exists blk iw, builds example_config [] blk /\
  @committed HX example_cfg example_config iw [].
Proof.
  destruct (newBlockBuilder_builds (algorithm example_cfg) 2 (globalSeed example_cfg) 4 1) as (blk & _ & Hb); [by left | | unfold is_u; cbn; lia | unfold maxPayloadSize; lia | unfold maxFingerprintSize; lia |].
  { split; vm_compute; reflexivity. }
  change (config_of _ _ _ _ _) with example_config in Hb. exists blk. destruct (builds_config _ _ _ Hb) as (_ & _ & Hmx & Hg & _).
  pose proof (newIndexWriter_spec (HO := quiet_os) example_cfg example_config blk (mk_osfile None false false 0) example_ok Hg Hmx) as Hw.
  unfold wps in Hw. destruct (newIndexWriter _ _ _ _) as [[f [w | e]] | e |].
  - exists w. split; [exact Hb |]. destruct Hw as (_ & _ & Hw & _). exact Hw.
  - destruct Hw as [_ [Hf _ | Hf _ _]]; by destruct Hf.
  - destruct Hw.
  - destruct Hw.
Qed.

Lemma example_works_work_ok : Forall work_ok example_works.
Proof. apply Forall_cons; split; [| apply Forall_singleton]; (split; [apply Forall_singleton; unfold is_u; cbn [re_k0 re_k1]; lia | unfold len; cbn [bw_entries length]; lia]). Qed.

Lemma pipeline_ends_witness : exists blk iw s,
  @steps poly_hash quiet_os example_cfg example_config 1 (start 2 blk example_works iw) s /\
  (1 <= 7 * length example_works + 2 + 8)%nat /\
  ((exists e, main s = Done e) \/ exists s', @step poly_hash quiet_os example_cfg (c_maxMeta example_config) s s' /\ parentDone s' = parentDone s).
Proof.
  destruct (@example_start poly_hash poly_hash_laws) as (blk & iw & Hb & Hc).
  assert (@steps poly_hash quiet_os example_cfg example_config 1 (start 2 blk example_works iw)
    (put_workChan [mk_work 0 [mk_routed 3 5 77] 0] (put_todo [mk_work 1 [mk_routed 200 9 99] 1] (start 2 blk example_works iw)))) as Hs.
  { eapply steps_more; [| apply steps_none].
    apply (@main_send poly_hash quiet_os example_cfg (c_maxMeta example_config) (start 2 blk example_works iw)); [reflexivity | reflexivity |].
    unfold chanCap, workChanBufferMultiplier, len. cbn. lia. }
  exists blk, iw, (put_workChan [mk_work 0 [mk_routed 3 5 77] 0] (put_todo [mk_work 1 [mk_routed 200 9 99] 1] (start 2 blk example_works iw))).
  split; [exact Hs |].
  apply (@pipeline_ends poly_hash poly_hash_laws quiet_os example_cfg example_config 2 blk example_works iw 1); [| lia | by exists [] | | exact Hs].
  - apply (@example_ok poly_hash).
  - apply example_works_work_ok.
Defined.
