(* ===== verification/PipelineSafe.v ===== *)
(** * What the pipeline leaves behind

    When the calling goroutine is done without an error, every block sent is
    committed, in order, whatever the order in which the workers built them: the
    file, the RAM index and both hashes are those of a build by one worker. *)
From stdpp Require Import gmap.
From S2P Require Import Prelude Words Bits Encoding Key Entries Header Algorithm Block Index File Options Writer Image WriterSpec Builder BuilderSpec SortedBuild Pipeline PipelineLive.
#[local] Open Scope Z_scope.

(** ** Counting a block's number in a list *)
Definition count_id (j : Z) (l : list Z) : nat := length (filter (fun i => i = j) l).

Lemma count_id_app j a b : count_id j (a ++ b) = (count_id j a + count_id j b)%nat.
Proof. unfold count_id. by rewrite filter_app, length_app. Qed.

Lemma count_id_single j i : count_id j [i] = (if decide (i = j) then 1 else 0)%nat.
Proof. unfold count_id. rewrite filter_cons. by destruct (decide (i = j)). Qed.

Lemma count_id_cons j i l : count_id j (i :: l) = ((if decide (i = j) then 1 else 0) + count_id j l)%nat.
Proof. change (i :: l) with ([i] ++ l). by rewrite count_id_app, count_id_single. Qed.

Lemma count_id_nil j : count_id j [] = 0%nat.
Proof. done. Qed.

#[global] Arguments count_id : simpl never.

Lemma count_numbered {A} (f : A -> Z) (l : list A) j : (forall (i : nat) x, l !! i = Some x -> f x = Z.of_nat i) ->
  count_id j (map f l) = if decide (0 <= j < len l) then 1%nat else 0%nat.
Proof.
  induction l as [| x l IH] using rev_ind; intros Hl.
  - rewrite decide_False; [done | unfold len; cbn; lia].
  - rewrite map_app, count_id_app, IH by (intros i y Hi; apply Hl; by apply lookup_app_l_Some). cbn [map].
    rewrite count_id_single, (Hl (length l) x) by (by apply list_lookup_middle). rewrite len_app, len_single. change (Z.of_nat (length l)) with (len l).
    pose proof (len_nonneg l). repeat destruct (decide _); lia.
Qed.

Section safe.
Context `{HX : !XXHash} {HL : XXHashLaws} `{HO : !OS}.
Context (cfg : buildConfig) (c : config).

(** ** The work of a build *)
Definition works_keys (W : list blockWork) : list key := concat (map (work_keys c) W).

(** The blocks in order, each with the keys routed to it and the number of keys
    before it. *)
Record works_ok (W : list blockWork) : Prop := {
  wks_work : Forall work_ok W;
  wks_block : forall i w, W !! i = Some w -> bw_blockID w = Z.of_nat i /\ bw_keysBefore w = len (works_keys (take i W)) /\
    Forall (fun k => block_of c k = Z.of_nat i) (work_keys c w);
  wks_num : len W <= c_numBlocks c;
  wks_total : len (works_keys W) <= totalKeys cfg
}.

Lemma works_keys_app a b : works_keys (a ++ b) = works_keys a ++ works_keys b.
Proof. unfold works_keys. by rewrite map_app, concat_app. Qed.

Lemma works_keys_take_le W i : len (works_keys (take i W)) <= len (works_keys W).
Proof.
  rewrite <- (take_drop i W) at 2. rewrite works_keys_app, len_app. pose proof (len_nonneg (works_keys (drop i W))). lia.
Qed.

Lemma works_keys_take_S W i w : W !! i = Some w -> works_keys (take (S i) W) = works_keys (take i W) ++ work_keys c w.
Proof. intros Hi. rewrite (take_S_r _ _ _ Hi), works_keys_app. unfold works_keys at 2. cbn. by rewrite app_nil_r. Qed.

(** The keys of two blocks do not overlap in rank. *)
Lemma ranks_disjoint W (i j : nat) w w' : W !! i = Some w -> W !! j = Some w' -> i <> j ->
  len (works_keys (take i W)) + len (work_keys c w) <= len (works_keys (take j W)) \/
  len (works_keys (take j W)) + len (work_keys c w') <= len (works_keys (take i W)).
Proof.
  intros Hi Hj Hne.
  assert (forall (i j : nat) w, W !! i = Some w -> (i < j)%nat -> len (works_keys (take i W)) + len (work_keys c w) <= len (works_keys (take j W))) as H.
  { intros i0 j0 w0 H0 Hlt. rewrite <- len_app, <- (works_keys_take_S W i0 w0 H0).
    replace (take (S i0) W) with (take (S i0) (take j0 W)) by (rewrite take_take; f_equal; lia). apply works_keys_take_le. }
  destruct (decide (i < j)%nat); [left; by apply H | right; apply H; [done | lia]].
Qed.

Lemma rank_end W i w : W !! i = Some w -> len (works_keys (take i W)) + len (work_keys c w) <= len (works_keys W).
Proof. intros Hi. rewrite <- len_app, <- (works_keys_take_S W i w Hi). apply works_keys_take_le. Qed.

(** ** Where the blocks are *)
Definition worker_work (j : Z) (x : worker * wstate) : nat :=
  match x.2 with Taken w => count_id j [bw_blockID w] | _ => 0 end.
Definition worker_result (j : Z) (x : worker * wstate) : nat :=
  match x.2 with Sending r => count_id j [br_blockID r] | _ => 0 end.

(** How often block [j] is still to be built; how often it waits to be committed. *)
Definition to_build (j : Z) (s : pipe) : nat :=
  count_id j (map bw_blockID (todo s)) + count_id j (map bw_blockID (workChan s)) + sum_list_with (worker_work j) (crew s).
Definition to_commit (j : Z) (s : pipe) : nat :=
  sum_list_with (worker_result j) (crew s) + count_id j (map br_blockID (resultChan s)) +
  match pending s !! j with Some _ => 1 | None => 0 end.

(** The block [b] is the one built from the work [w]. *)
Definition block_for (w : blockWork) (b : blockData) : Prop := bd_keys b = work_keys c w /\ block_ok c b /\ fits c b.

(** The result [r] describes the block [b]. *)
Definition describes (r : blockResult) (b : blockData) : Prop :=
  br_err r = None /\ br_metadata r = bd_meta b /\ br_numKeys r = len (bd_keys b) /\ br_payloadHash r = Sum64 (bd_pay b).

(** Its payloads are where the ranks of its keys say. *)
Definition built_at (f : list Z) (W : list blockWork) (j : Z) (b : blockData) : Prop :=
  0 <= j /\ exists w, W !! Z.to_nat j = Some w /\ block_for w b /\
    holds f (payStart cfg c + len (works_keys (take (Z.to_nat j) W)) * c_entrySize c) (bd_pay b).

(** No error so far: [G] are the blocks built, [bs] the ones committed. *)
Record good (W : list blockWork) (G : gmap Z blockData) (bs : list blockData) (s : pipe) : Prop := {
  gd_main : match main s with StopWorkers _ | StopWriter _ | Done (Some _) => False | _ => True end;
  gd_err : groupErr s = None;
  gd_writer : writer s = Running \/ writer s = Gone false;
  gd_val : doneVal s = None;
  gd_count : forall j, (to_build j s + to_commit j s)%nat = if decide (nextBlockID s <= j < len W) then 1%nat else 0%nat;
  gd_works : Forall (fun w => w ∈ W) (todo s ++ workChan s);
  gd_crew : Forall (fun x => match x.2 with
      | Taken w => w ∈ W
      | Sending r => exists b, G !! br_blockID r = Some b /\ describes r b
      | Returned _ => workChan s = [] /\ workClosed s = true
      | Waiting => True
      end) (crew s);
  gd_results : Forall (fun r => exists b, G !! br_blockID r = Some b /\ describes r b) (resultChan s);
  gd_pending : map_Forall (fun j r => exists b, G !! j = Some b /\ describes r b) (pending s);
  gd_built : map_Forall (built_at (content (file (p_iw s))) W) G;
  gd_unbuilt : forall j b, G !! j = Some b -> to_build j s = 0%nat;
  gd_committed : committed cfg c (p_iw s) bs;
  gd_next : nextBlockID s = len bs;
  gd_emitted : forall i b, bs !! i = Some b -> G !! Z.of_nat i = Some b;
  gd_end : writer s = Gone false -> resultChan s = [] /\ pending s !! nextBlockID s = None /\ resultClosed s = true;
  gd_done : main s = Done None -> writer s = Gone false
}.

(** An error has occurred that the calling goroutine will see. *)
Definition failing (x : worker * wstate) : Prop := match x.2 with Sending r => br_err r <> None | _ => False end.

Definition bad (s : pipe) : Prop :=
  main s <> Done None /\
  (groupErr s <> None \/ (writer s <> Running /\ writer s <> Gone false /\ doneVal s <> None) \/
   match main s with StopWorkers _ | StopWriter _ | Done _ => True | _ => False end \/ Exists failing (crew s)).

(** ** An error stays an error *)
Lemma Exists_insert_other {A} (P : A -> Prop) l i x y : l !! i = Some x -> ~ P x -> Exists P l -> Exists P (<[i := y]> l).
Proof.
  intros Hi Hx (z & [j Hj]%list_elem_of_lookup & Hz)%Exists_exists. apply Exists_exists. exists z. split; [| done].
  apply list_elem_of_lookup. exists j. rewrite list_lookup_insert_ne; [done |]. intros ->. congruence.
Qed.

Lemma all_returned_not_failing s : all_returned s -> ~ Exists failing (crew s).
Proof.
  intros Ha (x & Hx & Hf)%Exists_exists. destruct (proj1 (Forall_forall _ _) Ha x Hx) as [e He]. unfold failing in Hf. by rewrite He in Hf.
Qed.

Lemma bad_returned s i wk wk' x e : bad s -> crew s !! i = Some (wk, x) -> (forall e, x <> Returned e) ->
  (e = None -> ~ failing (wk, x)) -> bad (returned i wk' e s).
Proof.
  intros [Hm Hb] Hi Hx He. unfold returned. destruct e as [e |].
  - split; [done |]. left. cbn. by destruct (groupErr s).
  - split; [done |]. cbn. destruct Hb as [? | [? | [? | Hf]]]; auto. do 3 right. eapply Exists_insert_other; [done | by apply He | done].
Qed.

Lemma bad_step s s' : live c s -> bad s -> step cfg (c_maxMeta c) s s' -> bad s'.
Proof.
  intros Hs Hbad Hstep. pose proof Hbad as [Hm Hb]. pose proof (lv_all c s Hs) as Hall. pose proof (lv_phase c s Hs) as Hph.
  destruct Hstep.
  all: try (by eapply bad_returned; [done | done | by intros |]; intros; try discriminate; cbn; intuition congruence).
  all: split; cbn; try done.
  all: repeat match goal with H : main _ = _ |- _ => rewrite H in * end.
  all: try (destruct Hb as [? | [? | [? | ?]]]; tauto).
  all: try (match goal with Hi : crew _ !! ?i = Some _ |- context [<[?i := _]> _] =>
    destruct Hb as [? | [? | [? | ?]]]; [tauto .. |]; do 3 right;
    eapply Exists_insert_other; [exact Hi | cbn; by intuition congruence | done] end).
  - cbn in Hph. destruct Hb as [? | [(_ & _ & ?) | [[] | Hf]]]; [congruence | done |].
    by destruct (all_returned_not_failing s (Hall (proj1 (proj2 Hph)))).
  - destruct Hb as [? | [(_ & _ & ?) | [? | ?]]]; [tauto | | tauto | tauto]. right. left. by split_and!.
Qed.

(** ** While there is no error *)
Lemma not_done s i wk x : live c s -> crew s !! i = Some (wk, x) -> (forall e, x <> Returned e) -> main s <> Done None.
Proof.
  intros Hs Hi Hx Hm. pose proof (lv_phase c s Hs) as Hp. rewrite Hm in Hp.
  destruct (Forall_lookup_1 _ _ _ _ (lv_all c s Hs (proj1 (proj2 Hp))) Hi) as [e He]. by apply (Hx e).
Qed.

Lemma returned_bad s i wk e : main s <> Done None -> groupErr s = None -> bad (returned i wk (Some e) s).
Proof. intros Hm He. split; [done | left]. cbn. by rewrite He. Qed.

(** The counts after a step: each list as the step's premises give it, and the
    worker that moved. *)
Ltac counts :=
  unfold to_build, to_commit in *; cbn in *;
  repeat match goal with
    | H : todo ?s = _ |- _ => progress rewrite H in *
    | H : workChan ?s = _ |- _ => progress rewrite H in *
    | H : resultChan ?s = _ |- _ => progress rewrite H in *
    end;
  repeat match goal with
    | Hi : crew ?s !! ?i = Some ?x |- context [sum_list_with ?f (<[?i := ?y]> (crew ?s))] =>
        let H := fresh in pose proof (sum_insert f (crew s) i x y Hi) as H; cbn in H;
        generalize dependent (sum_list_with f (<[i := y]> (crew s))); intros
    end;
  rewrite ?map_app, ?count_id_app in *; cbn [map] in *; rewrite ?count_id_cons, ?count_id_nil in *; repeat (rewrite decide_True in * by done); try lia.

Lemma good_send W G bs s w ts : good W G bs s -> phase_ok (main s) (workClosed s) (resultClosed s) (todo s) -> main s = Dispatching -> todo s = w :: ts ->
  good W G bs (put_workChan (workChan s ++ [w]) (put_todo ts s)).
Proof.
  intros [] Hph Hm Ht. rewrite Hm in Hph. destruct Hph as [Hcl Hrc]. split; cbn; try done.
  - intros j. rewrite <- gd_count0. counts.
  - rewrite Ht in gd_works0. rewrite app_assoc. apply Forall_app in gd_works0 as [[? ?]%Forall_cons ?].
    by rewrite !Forall_app, Forall_singleton.
  - eapply Forall_impl; [exact gd_crew0 |]. intros [wk [| | |]] Hx; cbn in *; try done. destruct Hx. congruence.
  - intros j b Hj. pose proof (gd_unbuilt0 j b Hj). counts.
Qed.

Lemma good_main W G bs s m wcl rcl : good W G bs s ->
  match m with StopWorkers _ | StopWriter _ | Done (Some _) => False | _ => True end ->
  (workClosed s = true -> wcl = true) -> (resultClosed s = true -> rcl = true) -> (m = Done None -> writer s = Gone false) ->
  good W G bs (put_main m (put_workClosed wcl (put_resultClosed rcl s))).
Proof.
  intros [] Hm Hwc Hrc Hd. split; cbn; try done.
  - eapply Forall_impl; [exact gd_crew0 |]. intros [wk [| | |]] Hx; cbn in *; try done. destruct Hx. auto.
  - intros H. destruct (gd_end0 H) as (? & ? & ?). auto.
Qed.

Lemma good_take W G bs s i wk w ws : good W G bs s -> crew s !! i = Some (wk, Waiting) -> workChan s = w :: ws ->
  good W G bs (put_workChan ws (put_crew (<[i := (wk, Taken w)]> (crew s)) s)).
Proof.
  intros [] Hi Hc. rewrite Hc in gd_works0. apply Forall_app in gd_works0 as [Ht [Hw Hws]%Forall_cons]. split; cbn; try done.
  - intros j. rewrite <- gd_count0. counts.
  - by apply Forall_app.
  - apply Forall_insert; [| done]. eapply Forall_impl; [exact gd_crew0 |].
    intros [wk' [| | |]] Hx; cbn in *; try done. destruct Hx. congruence.
  - intros j b Hj. pose proof (gd_unbuilt0 j b Hj). counts.
Qed.

Lemma good_end W G bs s i wk : good W G bs s -> crew s !! i = Some (wk, Waiting) -> workChan s = [] -> workClosed s = true ->
  good W G bs (returned i wk None s).
Proof.
  intros [] Hi Hc Hcl. unfold returned. split; cbn; try done.
  - intros j. rewrite <- gd_count0. counts.
  - by apply Forall_insert.
  - intros j b Hj. pose proof (gd_unbuilt0 j b Hj). counts.
Qed.

Lemma good_sent W G bs s i wk r : good W G bs s -> live c s -> crew s !! i = Some (wk, Sending r) ->
  good W G bs (put_resultChan (resultChan s ++ [r]) (put_crew (<[i := (wk, Waiting)]> (crew s)) s)).
Proof.
  intros [] Hs Hi. pose proof (Forall_lookup_1 _ _ _ _ gd_crew0 Hi) as Hr. cbn in Hr. split; cbn; try done.
  - intros j. rewrite <- gd_count0. counts.
  - by apply Forall_insert.
  - apply Forall_app. split; [done |]. by apply Forall_singleton.
  - intros j b Hj. pose proof (gd_unbuilt0 j b Hj). counts.
  - intros H. destruct (gd_end0 H) as (_ & _ & Hrc). destruct (Forall_lookup_1 _ _ _ _ (lv_all c s Hs Hrc) Hi) as [e He]. discriminate He.
Qed.

Lemma good_receive W G bs s r rs : good W G bs s -> writer s = Running -> resultChan s = r :: rs ->
  good W G bs (put_pending (<[br_blockID r := r]> (pending s)) (put_resultChan rs s)).
Proof.
  intros [] Hw Hc. rewrite Hc in gd_results0. apply Forall_cons in gd_results0 as [Hr Hrs].
  assert (pending s !! br_blockID r = None) as Hnone.
  { pose proof (gd_count0 (br_blockID r)) as H. destruct (pending s !! br_blockID r) eqn:Hp; [| done]. exfalso.
    assert ((to_build (br_blockID r) s + to_commit (br_blockID r) s <= 1)%nat) as Hle by (rewrite H; destruct (decide _); lia).
    clear H. unfold to_commit in Hle. rewrite Hp in Hle. counts. }
  split; cbn; try done.
  - intros j. rewrite <- gd_count0. unfold to_commit. cbn. destruct (decide (br_blockID r = j)) as [<- | Hne].
    + rewrite lookup_insert_eq, Hnone. counts.
    + rewrite lookup_insert_ne by done. counts.
      rewrite decide_False by done. lia.
  - by apply map_Forall_insert_2.
  - rewrite Hw. done.
Qed.

Lemma good_writer_end W G bs s : good W G bs s -> pending s !! nextBlockID s = None -> resultChan s = [] -> resultClosed s = true ->
  good W G bs (put_writer_state (Gone false) s).
Proof. intros [] Hp Hc Hr. split; cbn; try done. by right. Qed.

(** A block built stays where it is when other places of the file are written. *)
Lemma built_end W j b f : build_ok cfg c -> works_ok W -> built_at f W j b ->
  payStart cfg c + len (works_keys (take (Z.to_nat j) W)) * c_entrySize c + len (bd_pay b) <= metaStart cfg c.
Proof.
  intros Hok HW (_ & w & Hw & (Hk & _ & Hf) & _). pose proof (start_bounds cfg c Hok) as (_ & He & _ & _ & _ & ->).
  pose proof (rank_end W _ w Hw). pose proof (wks_total W HW). rewrite (ft_pay _ _ Hf), Hk. nia.
Qed.

Lemma emitted_keys W bs : (forall (i : nat) b, bs !! i = Some b -> exists w, W !! i = Some w /\ bd_keys b = work_keys c w) ->
  keys_of bs = works_keys (take (length bs) W).
Proof.
  intros H. unfold keys_of, works_keys. f_equal. apply list_eq. intros i. rewrite !list_lookup_fmap.
  destruct (bs !! i) as [b |] eqn:Hi; cbn.
  - destruct (H i b Hi) as (w & Hw & Hk). rewrite lookup_take_lt by (by eapply lookup_lt_Some). rewrite Hw. cbn. by rewrite Hk.
  - rewrite lookup_take_ge; [done |]. by apply lookup_ge_None.
Qed.

Lemma good_keys W G bs s : good W G bs s -> keys_of bs = works_keys (take (length bs) W).
Proof.
  intros []. apply emitted_keys. intros i b Hi. destruct (gd_built0 _ _ (gd_emitted0 i b Hi)) as (_ & w & Hw & (Hk & _) & _).
  exists w. by rewrite Nat2Z.id in Hw.
Qed.

Lemma emit_committed iw iw' bs b r : build_ok cfg c -> committed cfg c iw bs -> fits c b -> describes r b -> emit r iw = Ok (iw', inl tt) ->
  exists n, iw' = commit_state iw b (mk_osfile (Some (pwrite (content (file iw)) (metaStart cfg c + len (metas_of bs)) (bd_meta b))) true (f_stuck (file iw)) n).
Proof.
  intros Hok Hc Hf (_ & Hm & Hn & Hh) He. unfold emit in He. rewrite Hm, Hn, Hh in He.
  eapply (wps_ok _ _ (fun _ iw' => exists n, iw' = commit_state iw b (mk_osfile (Some (pwrite (content (file iw)) (metaStart cfg c + len (metas_of bs)) (bd_meta b))) true (f_stuck (file iw)) n)) io_error);
    [| exact He]. apply (writeMetadata_spec cfg c iw bs b); [done .. |]. intros n. by exists n.
Qed.

Lemma good_emit W G bs s r iw' : build_ok cfg c -> works_ok W -> good W G bs s -> writer s = Running ->
  pending s !! nextBlockID s = Some r -> emit r (p_iw s) = Ok (iw', inl tt) ->
  exists b, good W G (bs ++ [b])
    (put_nextBlockID (u32 (nextBlockID s + 1)) (put_pending (delete (nextBlockID s) (pending s)) (put_p_iw iw' s))).
Proof.
  intros Hok HW Hg Hrun Hp He. pose proof Hg as []. destruct (gd_pending0 _ _ Hp) as (b & Hb & Hd). exists b.
  pose proof (gd_built0 _ _ Hb) as (Hn0 & w & Hw & (Hk & Hbo & Hf) & Hhold).
  destruct (emit_committed _ _ _ _ _ Hok gd_committed0 Hf Hd He) as (n & ->).
  pose proof (lookup_lt_Some _ _ _ Hw) as Hlt. pose proof (wks_num W HW) as Hnum. pose proof (bd_num _ _ Hok) as Hnb.
  rewrite gd_next0 in *. assert (len bs < len W) as Hlen by (unfold len in *; lia). rewrite u32_id by (unfold is_u; lia).
  assert (Z.to_nat (len bs) = length bs) as Hto by (unfold len; lia). rewrite Hto in Hw, Hhold.
  assert (len (keys_of (bs ++ [b])) <= totalKeys cfg) as Hkeys.
  { rewrite keys_of_app, keys_of_single, (good_keys W G bs s Hg), Hk, len_app. pose proof (rank_end W _ _ Hw). pose proof (wks_total W HW). lia. }
  pose proof (len_nonneg (metas_of bs)) as Hml. pose proof (start_bounds cfg c Hok) as (_ & _ & Hps & Hpm & _).
  split; cbn; try done.
  - intros j. pose proof (gd_count0 j) as Hj. unfold to_build, to_commit in *. cbn. destruct (decide (len bs = j)) as [<- | Hne].
    + rewrite lookup_delete_eq. rewrite Hp, decide_True in Hj by lia. rewrite decide_False by lia. lia.
    + rewrite lookup_delete_ne by done. rewrite Nat.add_assoc, Nat.add_assoc in *. rewrite Hj. repeat destruct (decide _); lia.
  - by apply map_Forall_delete.
  - intros j b' Hj. pose proof (built_end W j b' _ Hok HW (gd_built0 _ _ Hj)) as Hend. destruct (gd_built0 _ _ Hj) as (H0 & w' & H1 & H2 & H3).
    split; [done |]. exists w'. split; [done |]. split; [done |]. apply holds_pwrite_other; [lia | exact H3 | left; lia].
  - apply (committed_step cfg c); try done; [lia |]. intros _. by apply (metas_extend cfg c).
  - by rewrite len_app, len_single.
  - intros i b' Hi. apply lookup_snoc_Some in Hi as [[_ Hi] | [-> <-]]; [by apply gd_emitted0 | exact Hb].
  - congruence.
Qed.

(** Writing payloads at the rank of a block's first key. *)
Lemma payloads_written iw iw' bs kb pay : build_ok cfg c -> committed cfg c iw bs -> 0 <= kb ->
  kb * c_entrySize c + len pay <= totalKeys cfg * c_entrySize c ->
  writePayloadsDirect pay (u64 (kb * u64 (c_entrySize c))) iw = Ok (iw', inl tt) ->
  let off := payStart cfg c + kb * c_entrySize c in
  exists f, iw' = set_file f iw /\ f_open f = true /\ holds (content f) off pay /\
    forall o x, holds (content (file iw)) o x -> o + len x <= off \/ off + len pay <= o -> holds (content f) o x.
Proof.
  intros Hok Hc Hkb Hend Hw off. pose proof (start_bounds cfg c Hok) as (_ & He & H1 & H2 & H3 & H4). pose proof (len_nonneg pay).
  assert (0 <= kb * c_entrySize c <= totalKeys cfg * c_entrySize c) as Hrange by nia.
  assert (totalKeys cfg * c_entrySize c < 2 ^ 45) by nia.
  rewrite (u64_id (c_entrySize c)), u64_id in Hw by (unfold is_u; lia).
  eapply (wps_ok _ _ (fun _ iw' => exists f, iw' = set_file f iw /\ f_open f = true /\ holds (content f) off pay /\
    forall o x, holds (content (file iw)) o x -> o + len x <= off \/ off + len pay <= o -> holds (content f) o x) io_error); [| exact Hw].
  apply (writePayloadsDirect_spec cfg c iw bs); [done | done | lia | lia | |].
  - intros ->. exists (file iw). split; [by destruct iw |]. split; [apply Hc |]. split; [apply holds_nil; lia | done].
  - intros _ _ n. eexists. split; [reflexivity |]. split; [done |]. split; [apply holds_pwrite_same; lia |].
    intros o x Hx Hd. apply holds_pwrite_other; [lia | done | exact Hd].
Qed.

Lemma committed_set_file iw bs f : committed cfg c iw bs -> f_open f = true ->
  (holds (content (file iw)) (metaStart cfg c) (metas_of bs) -> holds (content f) (metaStart cfg c) (metas_of bs)) ->
  committed cfg c (set_file f iw) bs.
Proof.
  intros [] Ho Hm. split; try assumption. intros Hk. destruct (cm_place Hk) as []. split; auto.
Qed.

Lemma works_elem W w : works_ok W -> w ∈ W -> exists j : nat, W !! j = Some w /\ bw_blockID w = Z.of_nat j /\
  bw_keysBefore w = len (works_keys (take j W)) /\ Z.to_nat (bw_blockID w) = j.
Proof.
  intros HW (j & Hj)%list_elem_of_lookup. destruct (wks_block W HW j w Hj) as (Hid & Hkb & _). exists j. split_and!; [done .. |].
  by rewrite Hid, Nat2Z.id.
Qed.

Lemma good_built W G bs s i wk wk' w iw' r : build_ok cfg c -> works_ok W -> good W G bs s -> live c s ->
  crew s !! i = Some (wk, Taken w) -> processed c w (p_iw s) iw' r -> br_err r = None ->
  exists b, good W (<[bw_blockID w := b]> G) bs (put_p_iw iw' (put_crew (<[i := (wk', Sending r)]> (crew s)) s)).
Proof.
  intros Hok HW Hg Hs Hi (Hid & pay & res & Hwr & Hres) Herr. rewrite Herr in Hres.
  destruct Hres as (-> & b & Hk & Hm & Hpay & Hn & Hh & Hbo & Hf). subst pay. exists b. pose proof Hg as [].
  pose proof (Forall_lookup_1 _ _ _ _ gd_crew0 Hi) as Hin. cbn in Hin. destruct (works_elem W w HW Hin) as (j & Hj & Hwid & Hkb & Hto).
  pose proof (rank_end W _ w Hj) as Hrank. pose proof (wks_total W HW) as Htot. pose proof (start_bounds cfg c Hok) as (_ & He & Hps & Hpm & _ & Hms).
  pose proof (len_nonneg (works_keys (take j W))) as Hkb0.
  destruct (payloads_written _ _ bs (bw_keysBefore w) (bd_pay b) Hok gd_committed0 ltac:(lia) ltac:(rewrite (ft_pay _ _ Hf), Hk; nia) Hwr)
    as (f & -> & Hopen & Hhold & Hother).
  assert (len (bd_pay b) = len (work_keys c w) * c_entrySize c) as Hpl by (by rewrite (ft_pay _ _ Hf), Hk).
  assert ((1 <= to_build (bw_blockID w) s)%nat) as Hone.
  { unfold to_build. pose proof (sum_insert (worker_work (bw_blockID w)) (crew s) i _ (wk, Waiting) Hi) as H. cbn in H.
    rewrite count_id_single, decide_True in H by done. lia. }
  assert (G !! bw_blockID w = None) as Hnew.
  { destruct (G !! bw_blockID w) eqn:Hg'; [| done]. rewrite (gd_unbuilt0 _ _ Hg') in Hone. lia. }
  assert (forall k x, G !! k = Some x -> <[bw_blockID w := b]> G !! k = Some x) as Hext.
  { intros k x Hx. rewrite lookup_insert_ne; [done |]. intros <-. congruence. }
  split; cbn; try done.
  - intros k. rewrite <- gd_count0. counts. rewrite Hid in *. lia.
  - apply Forall_insert.
    + eapply Forall_impl; [exact gd_crew0 |]. intros [wk2 [| | r2 |]] Hx; cbn in *; try done. destruct Hx as (x & ? & ?). eauto.
    + cbn. rewrite Hid, lookup_insert_eq. exists b. split; [done |]. unfold describes. rewrite Hk. by split_and!.
  - eapply Forall_impl; [exact gd_results0 |]. cbn. intros r2 (x & ? & ?). eauto.
  - eapply map_Forall_impl; [exact gd_pending0 |]. cbn. intros k r2 (x & ? & ?). eauto.
  - apply map_Forall_insert_2.
    + rewrite Hwid. split; [lia |]. exists w. rewrite Nat2Z.id. split; [done |]. split; [done |]. by rewrite <- Hkb.
    + intros k x Hx. destruct (gd_built0 _ _ Hx) as (H0 & w' & Hw' & (Hk' & Hb' & Hf') & Hh'). split; [done |].
      exists w'. split; [done |]. split; [done |]. apply Hother; [done |].
      assert (Z.to_nat k <> j) as Hkj by (intros <-; apply (f_equal Some) in Hx; rewrite Z2Nat.id in Hwid by done; congruence).
      destruct (ranks_disjoint W _ _ _ _ Hw' Hj Hkj); rewrite Hkb, Hpl, (ft_pay _ _ Hf'), Hk' in *; nia.
  - intros k x Hx. pose proof (gd_count0 k) as Hck. destruct (decide (bw_blockID w = k)) as [<- | Hne].
    + assert ((to_build (bw_blockID w) s <= 1)%nat) as Hle by (destruct (decide _); lia). clear Hck. counts.
    + rewrite lookup_insert_ne in Hx by done. pose proof (gd_unbuilt0 k x Hx). clear Hck. counts.
  - apply committed_set_file; [done .. |]. intros H. apply Hother; [exact H |]. right. rewrite Hkb, Hpl. nia.
  - intros k x Hx. by apply Hext, gd_emitted0.
Qed.

Lemma good_step W G bs s s' : build_ok cfg c -> works_ok W -> live c s -> good W G bs s -> step cfg (c_maxMeta c) s s' ->
  bad s' \/ exists G' bs', good W G' bs' s'.
Proof.
  intros Hok HW Hs Hg Hstep. pose proof Hg as []. pose proof (lv_phase c s Hs) as Hph. pose proof (not_done s) as Hnd.
  destruct Hstep as [| | | | s Hm Ht | s Hm Ha | | s f Hm Hw Hd | | | | s i wk w ws Hi Hc | s i wk Hi Hc Hcl | s i wk w Hi
    | s i wk w md wk' iw' r Hi Hmd Hml Hp | s i wk r Hi | s i wk r e Hi | s i wk r Hi | s r rs Hw | s r rs e Hw | s r iw' Hw Hp He
    | s r iw' e Hw | s Hw Hp Hc Hr | | s Hpd].
  all: try (by rewrite H in gd_main0).
  all: try (by rewrite H in gd_writer0; destruct gd_writer0).
  all: try congruence.
  all: try (left; split; cbn; [by intuition congruence | tauto]).
  all: try (left; apply returned_bad; [by eapply Hnd | done]).
  all: try (left; split; cbn; [by intuition congruence | right; left; by split_and!]).
  - right. exists G, bs. by apply good_send.
  - right. exists G, bs. apply (good_main W G bs s DrainWorkers true (resultClosed s)); done || by intros.
  - right. exists G, bs. apply (good_main W G bs s DrainWriter (workClosed s) true); done || by intros.
  - right. exists G, bs. rewrite gd_err0. apply (good_main W G bs s (Done None) (workClosed s) (resultClosed s)); try done.
    intros _. destruct gd_writer0; congruence.
  - right. exists G, bs. by apply good_take.
  - right. exists G, bs. by apply good_end.
  - destruct (crew_ok_lookup _ _ _ _ _ _ _ (lv_crew c s Hs) Hi) as [Hwk Hst].
    destruct (process_spec cfg c md w wk (p_iw s) Hok Hwk Hst Hmd Hml) as (wk2 & iw2 & r2 & Hp2 & _ & Hpr).
    rewrite Hp in Hp2. injection Hp2 as <- <- <-. destruct (br_err r) as [e |] eqn:Her.
    + left. split; [by eapply Hnd |]. do 3 right. cbn. apply Exists_exists. exists (wk', Sending r). split; [| unfold failing; cbn; congruence].
      apply list_elem_of_lookup. exists i. apply list_lookup_insert_eq. by eapply lookup_lt_Some.
    + right. destruct (good_built W G bs s i wk wk' w iw' r Hok HW Hg Hs Hi Hpr Her) as (b & Hb). eauto.
  - right. exists G, bs. by apply good_sent.
  - right. exists G, bs. by apply good_receive.
  - right. destruct (good_emit W G bs s r iw' Hok HW Hg Hw Hp He) as (b & Hb). eauto.
  - right. exists G, bs. by apply good_writer_end.
  - right. exists G, bs. destruct Hg. by split.
Qed.

Lemma good_start W n blk iw : works_ok W -> committed cfg c iw [] -> good W ∅ [] (start n blk W iw).
Proof.
  intros HW Hc. split; cbn; try done.
  - by left.
  - intros j. unfold to_build, to_commit. cbn. rewrite lookup_empty, !count_id_nil.
    rewrite count_numbered by (intros i w Hi; by apply (wks_block W HW)).
    assert (forall f : worker * wstate -> nat, f (mk_worker blk [], Waiting) = 0%nat -> sum_list_with f (replicate n (mk_worker blk [], Waiting)) = 0%nat) as Hz
      by (intros f Hf; induction n as [| n IH]; [done | cbn; by rewrite Hf, IH]).
    rewrite !Hz by done. repeat destruct (decide _); lia.
  - rewrite app_nil_r. by apply Forall_forall.
  - by apply Forall_replicate.
Qed.

Lemma sum_zero {A} (f : A -> nat) l : Forall (fun x => f x = 0%nat) l -> sum_list_with f l = 0%nat.
Proof. induction 1 as [| x l Hx _ IH]; [done |]. cbn. by rewrite Hx, IH. Qed.

(** The payloads of the blocks committed, one by one and together. *)
Lemma pays_pieces (f : list Z) o es bs : 0 <= o -> Forall (fun b => len (bd_pay b) = len (bd_keys b) * es) bs ->
  (forall (i : nat) b, bs !! i = Some b -> holds f (o + len (keys_of (take i bs)) * es) (bd_pay b)) -> holds f o (pays_of bs).
Proof.
  induction bs as [| b bs IH] using rev_ind; intros Ho Hl Hb; [by apply holds_nil |].
  apply Forall_app in Hl as [Hl Hb1]. rewrite pays_of_app, pays_of_single. apply holds_app.
  - apply IH; [done .. |]. intros i x Hi. specialize (Hb i x). rewrite lookup_app_l in Hb by (by eapply lookup_lt_Some).
    rewrite take_app_le in Hb; [by apply Hb |]. pose proof (lookup_lt_Some _ _ _ Hi). lia.
  - specialize (Hb (length bs) b). rewrite list_lookup_middle, take_app_length in Hb by done.
    assert (len (pays_of bs) = len (keys_of bs) * es) as ->; [| by apply Hb].
    clear -Hl. unfold pays_of, keys_of. induction Hl as [| x l Hx _ IH]; [done |]. cbn [map concat]. rewrite !len_app, IH, Hx. lia.
Qed.

(** What is left when the calling goroutine is done without an error. *)
Definition all_committed (W : list blockWork) (iw : indexWriter) (bs : list blockData) : Prop :=
  committed cfg c iw bs /\ pays_in cfg c iw bs /\ Forall (block_ok c) bs /\ routed (c_numBlocks c) bs /\
  len bs = len W /\ keys_of bs = works_keys W.

Lemma good_all_built W G bs s : good W G bs s -> live c s -> main s = Done None -> length bs = length W.
Proof.
  intros [] Hs Hm. pose proof (lv_phase c s Hs) as Hp. rewrite Hm in Hp. destruct Hp as (_ & Hrc & Ht).
  destruct (gd_end0 (gd_done0 Hm)) as (Hr & Hn & _). pose proof (lv_all c s Hs Hrc) as Ha. pose proof (lv_nonempty c s Hs) as Hne. unfold all_returned in Ha.
  assert (workChan s = []) as Hw.
  { destruct (crew s) as [| x l]; [by unfold len in Hne |]. apply Forall_cons in gd_crew0 as [Hx _]. apply Forall_cons in Ha as [[e He] _].
    rewrite He in Hx. apply Hx. }
  assert (len W <= len bs) as H1.
  { pose proof (gd_count0 (nextBlockID s)) as Hc. unfold to_build, to_commit in Hc. rewrite Ht, Hw, Hr, Hn, !sum_zero in Hc.
    - cbn in Hc. rewrite !count_id_nil in Hc. destruct (decide _) in Hc; [done | lia].
    - eapply Forall_impl; [exact Ha |]. intros [wk x] [e He]. unfold worker_result. by rewrite He.
    - eapply Forall_impl; [exact Ha |]. intros [wk x] [e He]. unfold worker_work. by rewrite He. }
  destruct (last bs) as [b |] eqn:Hl; [| apply last_None in Hl as ->; unfold len in *; cbn in *; lia].
  rewrite last_lookup in Hl. destruct (gd_built0 _ _ (gd_emitted0 _ _ Hl)) as (_ & w & Hlt & _).
  rewrite Nat2Z.id in Hlt. apply lookup_lt_Some in Hlt. unfold len in *. lia.
Qed.

Lemma good_all_committed W G bs s : build_ok cfg c -> works_ok W -> good W G bs s -> length bs = length W -> all_committed W (p_iw s) bs.
Proof.
  intros Hok HW Hg Hlen. pose proof (good_keys W G bs s Hg) as Hk. pose proof Hg as [].
  assert (forall (i : nat) b, bs !! i = Some b -> exists w, W !! i = Some w /\ block_for w b /\
    holds (content (file (p_iw s))) (payStart cfg c + len (works_keys (take i W)) * c_entrySize c) (bd_pay b)) as Hbs.
  { intros i b Hi. destruct (gd_built0 _ _ (gd_emitted0 i b Hi)) as (_ & w & Hw & Hb & Hh). rewrite Nat2Z.id in Hw, Hh. eauto. }
  assert (Forall (block_ok c) bs) as Hblk by (apply Forall_lookup; intros i b Hi; destruct (Hbs i b Hi) as (w & _ & (_ & ? & _) & _); done).
  pose proof (start_bounds cfg c Hok) as (_ & _ & Hps & _). split_and!; try done.
  - intros _. apply (pays_pieces _ _ (c_entrySize c)); [lia | |].
    + eapply Forall_impl; [exact Hblk |]. intros b Hb. apply Hb.
    + intros i b Hi. destruct (Hbs i b Hi) as (w & _ & _ & Hh).
      rewrite (emitted_keys W (take i bs)).
      * rewrite length_take_le; [done |]. pose proof (lookup_lt_Some _ _ _ Hi). lia.
      * intros j x Hj. apply lookup_take_Some in Hj as [Hj _]. destruct (Hbs j x Hj) as (w' & Hw' & (Hk' & _) & _). eauto.
  - intros i b Hi. destruct (Hbs i b Hi) as (w & Hw & (Hkb & _) & _). rewrite Hkb. by apply (wks_block W HW).
  - unfold len. by rewrite Hlen.
  - rewrite Hk, Hlen. by rewrite firstn_all.
Qed.

(** ** The errors the pipeline reports *)
Definition known (e : option error) : Prop := match e with Some e => e = ErrOther \/ e ∈ block_errors | None => True end.

Record errs_ok (s : pipe) : Prop := {
  er_group : known (groupErr s);
  er_val : known (doneVal s);
  er_main : match main s with StopWorkers e | StopWriter e | Done (Some e) => known (Some e) | _ => True end;
  er_crew : Forall (fun x => match x.2 with Sending r => known (br_err r) | _ => True end) (crew s);
  er_results : Forall (fun r => known (br_err r)) (resultChan s);
  er_writer : main s = Dispatching -> writer s <> Running -> doneVal s <> None
}.

Lemma known_io : known (Some ErrOther).
Proof. by left. Qed.

#[local] Hint Resolve known_io : core.

Lemma errs_returned s i wk e : errs_ok s -> known e -> errs_ok (returned i wk e s).
Proof.
  intros [] He. unfold returned. destruct e as [e |]; split; cbn; try done; try by apply Forall_insert.
  by destruct (groupErr s).
Qed.

Lemma errs_step s s' : build_ok cfg c -> live c s -> errs_ok s -> step cfg (c_maxMeta c) s s' -> errs_ok s'.
Proof.
  intros Hok Hs He Hstep. pose proof He as []. pose proof (lv_phase c s Hs) as Hph. destruct Hstep.
  all: try (match goal with H : crew _ !! _ = Some (_, Sending _) |- _ => pose proof (Forall_lookup_1 _ _ _ _ er_crew0 H) as Hr; cbn in Hr end).
  all: try (apply errs_returned; [done | by auto]).
  all: try (split; cbn; try done; try (by apply Forall_insert); repeat match goal with H : _ = _ |- _ => rewrite H in * end; done).
  - split; cbn; try done; auto.
  - by destruct (er_writer0 H ltac:(congruence)).
  - destruct (crew_ok_lookup _ _ _ _ _ _ _ (lv_crew c s Hs) H) as [Hwk Hst].
    destruct (process_spec cfg c md w wk (p_iw s) Hok Hwk Hst H0 H1) as (wk2 & iw2 & r2 & Hp2 & _ & (_ & pay & res & _ & Hpr)).
    rewrite H2 in Hp2. injection Hp2 as <- <- <-. split; cbn; try done. apply Forall_insert; [done |]. cbn. by destruct (br_err r).
  - split; cbn; try done; [by apply Forall_insert | apply Forall_app; by split; [| apply Forall_singleton]].
  - apply errs_returned; [| by rewrite <- H1]. split; cbn; try done. apply Forall_app. by split; [| apply Forall_singleton].
  - rewrite H1 in er_results0. apply Forall_cons in er_results0 as [_ ?]. by split.
  - rewrite H1 in er_results0. apply Forall_cons in er_results0 as [Hk ?]. rewrite H2 in Hk. by split.
  - destruct (emit_total r (p_iw s)) as (iw2 & res & He2 & Hio). rewrite H1 in He2. injection He2 as <- <-.
    rewrite (Hio e eq_refl). split; cbn; try done; auto.
  - split; try done. cbn. intros Hm. rewrite Hm in Hph. destruct Hph. congruence.
  - split; cbn; try done. intros Hm _. apply er_writer0; [done | congruence].
Qed.

(** ** All runs *)
Lemma run_inv W n blk iw k s : build_ok cfg c -> works_ok W -> (0 < n)%nat -> (exists ks, builds c ks blk) -> committed cfg c iw [] ->
  steps cfg c k (start n blk W iw) s -> live c s /\ errs_ok s /\ (bad s \/ exists G bs, good W G bs s).
Proof.
  intros Hok HW Hn Hblk Hc Hsteps.
  enough (forall s0, steps cfg c k s0 s -> live c s0 /\ errs_ok s0 /\ (bad s0 \/ exists G bs, good W G bs s0) ->
     live c s /\ errs_ok s /\ (bad s \/ exists G bs, good W G bs s)) as H.
  { apply (H _ Hsteps). split; [| split].
    - apply live_start; [done | split; [exact Hblk | constructor] | apply HW].
    - split; cbn; try done; [by apply Forall_replicate].
    - right. exists ∅, []. by apply good_start. }
  clear Hsteps Hc Hblk Hn. intros s0 Hsteps. induction Hsteps as [s | k s0 s1 s Hst _ IH]; [done |].
  intros (Hl & He & Hgb). apply IH. split; [by eapply live_step | split; [by eapply errs_step |]].
  destruct Hgb as [Hb | (G & bs & Hg)]; [left; by eapply bad_step | by eapply good_step].
Qed.

Lemma run_result W n blk iw k s e : build_ok cfg c -> works_ok W -> (0 < n)%nat -> (exists ks, builds c ks blk) -> committed cfg c iw [] ->
  steps cfg c k (start n blk W iw) s -> main s = Done e ->
  match e with None => exists bs, all_committed W (p_iw s) bs | Some e => e = ErrOther \/ e ∈ block_errors end.
Proof.
  intros Hok HW Hn Hblk Hc Hsteps Hm. destruct (run_inv W n blk iw k s Hok HW Hn Hblk Hc Hsteps) as (Hl & He & Hgb).
  destruct e as [e |]; [pose proof (er_main s He) as H; by rewrite Hm in H |].
  destruct Hgb as [[Hb _] | (G & bs & Hg)]; [by destruct Hb |]. exists bs.
  eapply good_all_committed; [done .. |]. by eapply good_all_built.
Qed.
End safe.

(** C9: every run of the pipeline that ends without an error has committed every
    block sent, in block order, each with the keys of its work and its payloads at
    the offset the keys before it give, whatever the order in which the workers
    took, built and sent the blocks; every error a run ends with is an I/O error,
    a cancellation or the error of a block that could not be built. *)
Theorem pipeline_outcome `{HX : !XXHash} {HL : XXHashLaws} `{HO : !OS} cfg c n blk W iw k s e :
  build_ok cfg c -> works_ok cfg c W -> (0 < n)%nat -> (exists ks, builds c ks blk) -> committed cfg c iw [] ->
  steps cfg c k (start n blk W iw) s -> main s = Done e ->
  match e with
  | Some e => e = ErrOther \/ e ∈ block_errors
  | None => exists bs, committed cfg c (p_iw s) bs /\ pays_in cfg c (p_iw s) bs /\ Forall (block_ok c) bs /\
      routed (c_numBlocks c) bs /\ len bs = len W /\ keys_of bs = works_keys c W
  end.
Proof. apply run_result. Qed.

Lemma example_works_ok `{HX : !XXHash} : works_ok example_cfg example_config example_works.
Proof.
  split.
  - apply example_works_work_ok.
  - intros [| [| i]] w Hi; [injection Hi as <- .. | done]; (split; [reflexivity | split; [reflexivity |]]); repeat constructor.
  - vm_compute. discriminate.
  - vm_compute. discriminate.
Qed.

Lemma pipeline_outcome_witness : exists blk iw k s e,
  @steps poly_hash quiet_os example_cfg example_config k (start 2 blk example_works iw) s /\ main s = Done e /\
  match e with
  | Some e => e = ErrOther \/ e ∈ block_errors
  | None => exists bs, committed example_cfg example_config (p_iw s) bs /\ pays_in example_cfg example_config (p_iw s) bs /\
      Forall (block_ok example_config) bs /\
      routed (c_numBlocks example_config) bs /\ len bs = len example_works /\ keys_of bs = works_keys example_config example_works
  end.
Proof.
  destruct (@example_start poly_hash poly_hash_laws) as (blk & iw & Hb & Hc).
  destruct (run_exists (HX := poly_hash) (HO := quiet_os) example_cfg example_config (start 2 blk example_works iw)) as (k & s & e & Hk & He).
  { apply (@example_ok poly_hash). }
  { apply live_start; [lia | split; [by exists [] | constructor] | apply example_works_work_ok]. }
  exists blk, iw, k, s, e. split; [exact Hk |]. split; [exact He |].
  apply (@pipeline_outcome poly_hash poly_hash_laws quiet_os example_cfg example_config 2 blk example_works iw k s e).
  - apply (@example_ok poly_hash).
  - apply (@example_works_ok poly_hash).
  - lia.
  - by exists [].
  - exact Hc.
  - exact Hk.
  - exact He.
Defined.
