(* ===== verification/ParallelBuild.v ===== *)
(** * Building an index from sorted keys, end to end, with any number of workers

    The calling goroutine sends each finished block to the pipeline, whatever the
    pipeline is doing meanwhile; what it hears of it is up to the environment
    ([Env]). [PipeLaws] says that it is a run of [Pipeline]: what is read from
    [writerDone] meanwhile, and how draining ends. *)
From Stdlib Require Import ClassicalEpsilon.
From stdpp Require Import gmap.
From S2P Require Import Prelude Words Bits Encoding Key Entries Header Algorithm Block Index Image IndexQuery File Options Writer WriterSpec Builder BuilderSpec SortedBuild Pipeline PipelineLive PipelineSafe.
#[local] Open Scope Z_scope.

Section producer.
Context `{HX : !XXHash} {HL : XXHashLaws} `{HO : !OS} `{HE : !Env}.
Context (cfg : buildConfig) (c : config).

(** What the calling goroutine can hear of a pipeline in trouble. *)
Variant pipeline_error : error -> Prop :=
  | heard_cancelled n : pipe_send n = Cancelled -> pipeline_error ErrOther
  | heard_error n e : pipe_send n = WriterDone (Some e) -> pipeline_error e
  | heard_closed n : pipe_send n = WriterDone None -> pipeline_error ErrBuilderClosed
  | polled_error n e : pipe_poll n = Some (Some e) -> pipeline_error e
  | polled_closed n : pipe_poll n = Some None -> pipeline_error ErrBuilderClosed.

Definition entries_ok (es : list routedEntry) : Prop := Forall (fun e => is_u 64 (re_k0 e) /\ is_u 64 (re_k1 e)) es.

(** What was sent so far; the number of keys before a block as the 64-bit counter
    has it. *)
Record sends (b : builder) : Prop := {
  sd_cfg : b_cfg b = cfg;
  sd_num : b_numBlocks b = c_numBlocks c;
  sd_committed : committed cfg c (b_iw b) [];
  sd_work : Forall work_ok (works b);
  sd_block : forall (i : nat) w, works b !! i = Some w -> bw_blockID w = Z.of_nat i /\
    bw_keysBefore w = u64 (len (works_keys c (take i (works b)))) /\ Forall (fun k => block_of c k = Z.of_nat i) (work_keys c w);
  sd_next : nextBlockToWrite b = len (works b);
  sd_le : len (works b) <= c_numBlocks c;
  sd_before : keysBefore b = u64 (len (works_keys c (works b)));
  sd_err : writerErr b = None;
  sd_workers : 1 < b_workers b
}.

(** What sending leaves alone. *)
Definition same_input (b b' : builder) : Prop :=
  pendingEntries b' = pendingEntries b /\ currentBlockIdx b' = currentBlockIdx b /\ firstKey b' = firstKey b /\
  b_closed b' = b_closed b /\ lastBlockID b' = lastBlockID b /\ totalKeysAdded b' = totalKeysAdded b.

Lemma same_input_trans b1 b2 b3 : same_input b1 b2 -> same_input b2 b3 -> same_input b1 b3.
Proof. unfold same_input. intuition congruence. Qed.

Lemma works_keys_single w : works_keys c [w] = work_keys c w.
Proof. apply app_nil_r. Qed.

Lemma wps_ask {A} (f : nat -> A) b (Q : A -> builder -> Prop) E : (forall n, Q (f n) (asked b)) -> wps (ask f) b Q E.
Proof. intros H. apply H. Qed.

Lemma consume_spec err b (Q : unit -> builder -> Prop) :
  writerErr b = None -> (forall e, err = Some e -> pipeline_error e) -> (err = None -> pipeline_error ErrBuilderClosed) ->
  wps (consumePipelineError err) b Q (fun e _ => pipeline_error e).
Proof.
  intros Hw He Hn. unfold consumePipelineError. destruct err as [e |].
  - apply wps_bind, wps_modify, wps_fail. by apply He.
  - apply wps_bind, wps_gets. cbn [id]. rewrite Hw. apply wps_fail. by apply Hn.
Qed.

Lemma dispatch_spec b es : build_ok cfg c -> sends b -> len (works b) < c_numBlocks c -> entries_ok es -> len es < 2 ^ 32 ->
  Forall (fun e => block_of c (entry_key c e) = len (works b)) es ->
  wps (dispatchBlockWork (len (works b)) es) b
    (fun _ b' => sends b' /\ same_input b b' /\ works b' = works b ++ [mk_work (len (works b)) es (keysBefore b)])
    (fun e _ => pipeline_error e).
Proof.
  intros Hok [] Hlt He Hfew Hroute. pose proof (bd_num _ _ Hok) as Hnb. pose proof (len_nonneg (works b)). unfold dispatchBlockWork.
  apply wps_bind, wps_gets, wps_bind, wps_modify, wps_bind, wps_ask. intros n. cbn [id].
  destruct (pipe_send n) as [| | err] eqn:Hs.
  - apply wps_modify. split; [| by split_and!].
    split; cbn [b_cfg b_numBlocks b_iw works nextBlockToWrite keysBefore writerErr b_workers add_work asked set_next set_keysBefore]; try done.
    + apply Forall_app. split; [done |]. by apply Forall_singleton.
    + intros i w Hi. apply lookup_snoc_Some in Hi as [[Hi Hw] | [-> <-]].
      * rewrite take_app_le by lia. by apply sd_block0.
      * rewrite take_app_length. split_and!; [done | by rewrite sd_before0 |]. unfold work_keys. by apply Forall_fmap.
    + rewrite len_app, len_single, u32_id by (unfold is_u; lia). done.
    + rewrite len_app, len_single. lia.
    + rewrite works_keys_app, works_keys_single, len_app, len_work_keys, sd_before0. cbn [bw_entries]. unfold u64. by rewrite Zplus_mod_idemp_l.
  - apply wps_fail. by eapply heard_cancelled.
  - apply consume_spec; [done | intros e ->; by eapply heard_error | intros ->; by eapply heard_closed].
Qed.

(** The keys sent and the ones that wait for their block to be complete. *)
Definition keys_sent (b : builder) : list key := works_keys c (works b).
Definition keys_waiting (b : builder) : list key := map (entry_key c) (pendingEntries b).

Lemma empty_step b : build_ok cfg c -> sends b -> len (works b) < c_numBlocks c ->
  wps (dispatchEmptyBlock (nextBlockToWrite b)) b
    (fun _ b' => sends b' /\ same_input b b' /\ keys_sent b' = keys_sent b /\ len (works b') = len (works b) + 1)
    (fun e _ => pipeline_error e).
Proof.
  intros Hok Hb Hlt. unfold dispatchEmptyBlock. rewrite (sd_next _ Hb).
  eapply wps_mono; [apply (dispatch_spec b []); try done; constructor | | done].
  intros [] b' (Hb' & Hs & Hw). split; [done |]. split; [done |]. unfold keys_sent.
  rewrite Hw, works_keys_app, works_keys_single, len_app, len_single. split; [by rewrite app_nil_r | done].
Qed.

Lemma dispatchEmptyBlocks_spec b idx : build_ok cfg c -> sends b -> len (works b) <= idx < c_numBlocks c ->
  wps (dispatchEmptyBlocks idx) b
    (fun _ b' => sends b' /\ same_input b b' /\ keys_sent b' = keys_sent b /\ len (works b') = idx)
    (fun e _ => pipeline_error e).
Proof.
  intros Hok Hb Hidx. pose proof (len_nonneg (works b)). unfold dispatchEmptyBlocks.
  eapply wps_mono; [apply (wps_whileM (fun s => sends s /\ same_input b s /\ keys_sent s = keys_sent b /\ len (works s) <= idx)
     (fun s => Z.to_nat (idx - nextBlockToWrite s)) (fun e _ => pipeline_error e)) | | done].
  - split_and!; try done; lia.
  - rewrite (sd_next _ Hb). lia.
  - intros s (Hs & Hin & Hk & Hle) Hc%Z.ltb_lt. rewrite (sd_next _ Hs) in Hc. apply wps_bind, wps_gets. cbn [id].
    eapply wps_mono; [apply (empty_step s); (done || lia) | | done]. intros [] s' (Hs' & Hin' & Hk' & Hl').
    rewrite (sd_next _ Hs'), (sd_next _ Hs), Hl'. split; [| lia].
    split_and!; [done | by eapply same_input_trans | congruence | lia].
  - intros [] s [(Hs & Hin & Hk & Hle) Hc%Z.ltb_ge]. rewrite (sd_next _ Hs) in Hc. split_and!; try done. lia.
Qed.

Lemma sends_pending es b : sends b -> sends (set_pending es b).
Proof. intros []. by split. Qed.

Lemma sends_current i b : sends b -> sends (set_current i b).
Proof. intros []. by split. Qed.

(** Between two keys: the current block is the first that was not sent. *)
Record par_pos (b : builder) (ks : list key) : Prop := {
  pp_sends : sends b;
  pp_keys : ks = keys_sent b ++ keys_waiting b;
  pp_entries : entries_ok (pendingEntries b);
  pp_first : firstKey b = true -> works b = [] /\ pendingEntries b = [];
  pp_current : firstKey b = false -> currentBlockIdx b = len (works b) /\ len (works b) < c_numBlocks c /\
    Forall (fun e => block_of c (entry_key c e) = len (works b)) (pendingEntries b);
  pp_count : totalKeysAdded b = u64 (len ks);
  pp_open : b_closed b = false
}.

Definition par_inv (b : builder) (ks : list key) : Prop :=
  par_pos b ks /\ lastBlockID b = if firstKey b then -1 else len (works b).

Lemma waiting_few b ks : par_pos b ks -> small_blocks c ks -> firstKey b = false -> len (pendingEntries b) < 2 ^ 32.
Proof.
  intros [] Hs Hf. destruct (pp_current0 Hf) as (_ & _ & Hc). rewrite pp_keys0 in Hs.
  change (pendingEntries b) with (bw_entries (mk_work 0 (pendingEntries b) 0)). rewrite <- (len_work_keys c). eapply (small_current c); [exact Hs |]. unfold keys_waiting. apply Forall_fmap. exact Hc.
Qed.

(** Moving on to block [idx]. *)
Lemma par_advance_spec b ks idx : build_ok cfg c -> par_pos b ks -> small_blocks c ks -> len (works b) <= idx < c_numBlocks c ->
  wps (if firstKey b then
         _ ← dispatchEmptyBlocks idx; modify (set_current idx)
       else if negb (idx =? currentBlockIdx b) then
         _ ← (if 0 <? len (pendingEntries b) then dispatchBlock else mret tt);
         _ ← dispatchEmptyBlocks idx; modify (set_current idx)
       else mret tt) b
    (fun _ b' => sends b' /\ keys_sent b' ++ keys_waiting b' = ks /\ entries_ok (pendingEntries b') /\ len (works b') = idx /\
       currentBlockIdx b' = idx /\ firstKey b' = false /\ Forall (fun e => block_of c (entry_key c e) = idx) (pendingEntries b') /\
       totalKeysAdded b' = totalKeysAdded b /\ b_closed b' = b_closed b /\ lastBlockID b' = lastBlockID b)
    (fun e _ => pipeline_error e).
Proof.
  intros Hok Hpos Hsmall Hidx. pose proof Hpos as [].
  assert (forall b1, sends b1 -> keys_sent b1 = ks -> pendingEntries b1 = [] -> len (works b1) <= idx ->
     totalKeysAdded b1 = totalKeysAdded b -> b_closed b1 = b_closed b -> lastBlockID b1 = lastBlockID b ->
     wps (_ ← dispatchEmptyBlocks idx; modify (set_current idx)) b1
    (fun _ b' => sends b' /\ keys_sent b' ++ keys_waiting b' = ks /\ entries_ok (pendingEntries b') /\ len (works b') = idx /\
       currentBlockIdx b' = idx /\ firstKey b' = false /\ Forall (fun e => block_of c (entry_key c e) = idx) (pendingEntries b') /\
       totalKeysAdded b' = totalKeysAdded b /\ b_closed b' = b_closed b /\ lastBlockID b' = lastBlockID b)
    (fun e _ => pipeline_error e)) as Hgap.
  { intros b1 Hb1 Hk1 Hp1 Hle Ht Hc Hl. apply wps_bind. eapply wps_mono; [apply (dispatchEmptyBlocks_spec b1 idx); (done || lia) | | done].
    intros [] b2 (Hb2 & (Hp2 & _ & _ & Hc2 & Hl2 & Ht2) & Hk2 & Hn2). apply wps_modify.
    split; [by apply sends_current |]. unfold keys_sent, keys_waiting in *. cbn [works pendingEntries set_current]. rewrite Hp2, Hp1, Hk2, Hk1.
    cbn [map]. rewrite app_nil_r. split_and!; try done; [constructor | cbn; congruence ..]. }
  destruct (firstKey b) eqn:Hf.
  - destruct (pp_first0 eq_refl) as [Hw Hp]. apply Hgap; try done; [| lia]. rewrite pp_keys0. unfold keys_waiting. by rewrite Hp, app_nil_r.
  - destruct (pp_current0 eq_refl) as (Hc & Hlt & Hcur). destruct (Z.eqb_spec idx (currentBlockIdx b)) as [-> | Hne]; cbn [negb].
    { apply wps_ret. rewrite Hc. split_and!; try done. }
    destruct (Z.ltb_spec 0 (len (pendingEntries b))) as [Hpos' | Hz].
    + apply wps_bind. unfold dispatchBlock. apply wps_bind, wps_gets, wps_bind, wps_modify. cbn [id]. rewrite Hc.
      eapply wps_mono; [apply (dispatch_spec (set_pending [] b) (pendingEntries b)); try done | | done].
      * by apply sends_pending.
      * by eapply waiting_few.
      * intros [] b1 (Hb1 & (Hp1 & _ & _ & Hc1 & Hl1 & Ht1) & Hw1). cbn [works keysBefore set_pending] in Hw1. apply Hgap; try done.
        -- unfold keys_sent. rewrite Hw1, works_keys_app, works_keys_single. by rewrite pp_keys0.
        -- rewrite Hw1, len_app, len_single. lia.
    + apply wps_bind, wps_ret. assert (pendingEntries b = []) as Hnil
        by (destruct (pendingEntries b) as [| x l]; [done | rewrite len_cons in Hz; pose proof (len_nonneg l); lia]).
      apply Hgap; try done; [| lia]. rewrite pp_keys0. unfold keys_waiting. by rewrite Hnil, app_nil_r.
Qed.

(** ** Adding a key *)
Lemma par_inv_counter n b ks : par_inv b ks -> par_inv (set_keyCounter n b) ks.
Proof. intros [[[] ] ?]. split; [split; [split | ..] |]; assumption. Qed.

Lemma par_inv_asked b ks : par_inv b ks -> par_inv (asked b) ks.
Proof. intros [[[] ] ?]. split; [split; [split | ..] |]; assumption. Qed.

Lemma par_checkContext_spec b ks :
  par_inv b ks ->
  wps (if contextCheckInterval <=? keyCounter b then checkContextSlow else mret tt) b
    (fun _ b' => par_inv b' ks /\ lastBlockID b' = lastBlockID b)
    (fun e _ => context_error e \/ pipeline_error e).
Proof.
  intros Hinv. destruct (_ <=? _); [| by apply wps_ret]. unfold checkContextSlow.
  apply wps_bind, wps_modify, wps_bind, wps_ask. intros n. destruct (ctx_err n) as [e |] eqn:He; [apply wps_fail; left; by eapply context_said |].
  apply wps_bind, wps_gets. cbn [id]. set (b1 := asked (set_keyCounter 0 b)).
  assert (par_inv b1 ks) as Hb1 by (by apply par_inv_asked, par_inv_counter).
  destruct (1 <? b_workers b1); [| by apply wps_ret]. apply wps_bind, wps_ask. intros m.
  destruct (pipe_poll m) as [err |] eqn:Hp; [| apply wps_ret; split; [by apply par_inv_asked | done]].
  eapply wps_mono; [apply (consume_spec _ _ (fun _ _ => False)) | by intros | by right].
  - apply (sd_err _ (pp_sends _ _ (proj1 Hb1))).
  - intros e ->. by eapply polled_error.
  - intros ->. by eapply polled_closed.
Qed.

Lemma entry_of_key kp : entry_key c (mk_routed (k_0 (key_of c kp)) (k_1 (key_of c kp)) kp.2) = key_of c kp.
Proof. done. Qed.

Lemma par_AddKey_step b ks kp :
  build_ok cfg c -> par_inv b ks -> small_blocks c ks -> Forall is_byte kp.1 ->
  wps (builder_AddKey kp.1 kp.2) b
    (fun _ b' => acceptable c (lastBlockID b) kp /\ lastBlockID b' = block_of c (key_of c kp) /\ par_inv b' (ks ++ [key_of c kp]))
    (fun e _ => refused c (lastBlockID b) kp e \/ context_error e \/ pipeline_error e).
Proof.
  intros Hok Hinv Hsmall Hbytes. unfold builder_AddKey. apply wps_bind, wps_gets. cbn [id]. rewrite (pp_open _ _ (proj1 Hinv)).
  assert (payloadSize (b_cfg b) = c_ps c) as -> by (rewrite (sd_cfg _ (pp_sends _ _ (proj1 Hinv))); symmetry; apply Hok).
  apply wps_bind, (wps_validate c); [| intros e He; left; by apply He]. intros [Hl Hp].
  apply wps_bind, wps_modify, wps_bind, wps_gets. cbn [id]. set (b1 := set_keyCounter (keyCounter b + 1) b).
  assert (par_inv b1 ks) as Hb1 by (by apply par_inv_counter).
  apply wps_bind. eapply wps_mono; [apply (par_checkContext_spec b1 ks Hb1) | | intros e s ?; by right].
  intros [] b2 (Hb2 & Hlast). change (lastBlockID b1) with (lastBlockID b) in Hlast. clearbody b1. clear Hb1 b1 Hinv.
  apply wps_bind, wps_gets. cbn [id]. rewrite <- Hlast. clear b Hlast. rename b2 into b, Hb2 into Hinv.
  destruct (key_halves c kp.1 ltac:(lia) Hbytes) as [-> ->]. apply wps_bind, wps_lift, wp_ok, wps_bind, wps_lift, wp_ok.
  change (k_0 (key_of c (kp.1, 0))) with (k_0 (key_of c kp)). change (k_1 (key_of c (kp.1, 0))) with (k_1 (key_of c kp)).
  rewrite (sd_num _ (pp_sends _ _ (proj1 Hinv))). change (route (k_0 (key_of c kp)) (c_numBlocks c)) with (block_of c (key_of c kp)).
  pose proof (block_of_lt cfg c kp Hok Hbytes) as Hblk. pose proof (bd_num _ _ Hok) as Hnb.
  rewrite int64_id by lia. destruct (Z.ltb_spec (block_of c (key_of c kp)) (lastBlockID b)) as [Hlt | Hge].
  { apply wps_fail. left. by constructor. }
  destruct Hinv as [Hpos Hlast]. apply wps_bind, wps_modify, wps_bind. set (b1 := set_lastBlockID _ b).
  assert (par_pos b1 ks) as Hb1 by (destruct Hpos as [[] ]; split; [split | ..]; assumption).
  change (b_workers b) with (b_workers b1). pose proof (sd_workers _ (pp_sends _ _ Hb1)) as Hw. destruct (Z.ltb_spec 1 (b_workers b1)); [| lia].
  unfold addKeyParallel. apply wps_bind, wps_gets, wps_bind. cbn [id].
  eapply wps_mono; [apply (par_advance_spec b1 ks); try done | | intros e s He; right; by right].
  { change (works b1) with (works b). destruct (firstKey b) eqn:Hf; [destruct (pp_first _ _ Hpos Hf) as [-> _]; unfold len; cbn; lia | lia]. }
  intros [] b2 (Hb2 & Hk2 & He2 & Hl2 & Hi2 & Hf2 & Hc2 & Ht2 & Ho2 & Hlast2). apply wps_modify, wps_modify.
  split; [split; [done | intros Hps; apply Hp; exact Hps | done] |].
  cbn [lastBlockID set_totalKeysAdded set_pending]. rewrite Hlast2. split; [reflexivity |].
  split; [| cbn; rewrite Hf2, Hlast2, Hl2; reflexivity].
  split; cbn [pendingEntries works firstKey currentBlockIdx totalKeysAdded b_closed set_totalKeysAdded set_pending].
  - destruct Hb2. by split.
  - unfold keys_sent, keys_waiting in *. cbn [works pendingEntries set_totalKeysAdded set_pending]. rewrite map_app, app_assoc, Hk2. done.
  - apply Forall_app. split; [done |]. apply Forall_singleton. cbn [re_k0 re_k1]. apply (key_of_halves c); [lia | done].
  - congruence.
  - intros _. rewrite Hl2. split_and!; try done; [lia |]. apply Forall_app. split; [done |]. by apply Forall_singleton.
  - rewrite Ht2, (pp_count _ _ Hb1), len_app, len_single. unfold u64. by rewrite Zplus_mod_idemp_l.
  - rewrite Ho2. apply (pp_open _ _ Hb1).
Qed.

(** ** Sending the rest

    The remaining blocks are sent; the error of a failed send comes after the
    clean-up. *)
Lemma trailing_spec b : build_ok cfg c -> sends b ->
  wps (whileM (S (Z.to_nat (b_numBlocks b))) (fun b => nextBlockToWrite b <? b_numBlocks b)
        (b ← gets id; orCleanup (dispatchEmptyBlock (nextBlockToWrite b)))) b
    (fun _ b' => sends b' /\ same_input b b' /\ keys_sent b' = keys_sent b /\ len (works b') = c_numBlocks c)
    (fun e b' => pipeline_error e /\ removed (file (b_iw b'))).
Proof.
  intros Hok Hb. pose proof (len_nonneg (works b)). rewrite (sd_num _ Hb).
  eapply wps_mono; [apply (wps_whileM (fun s => sends s /\ same_input b s /\ keys_sent s = keys_sent b)
     (fun s => Z.to_nat (c_numBlocks c - nextBlockToWrite s)) (fun e b' => pipeline_error e /\ removed (file (b_iw b')))) | | done].
  - done.
  - rewrite (sd_next _ Hb). lia.
  - intros s (Hs & Hin & Hk) Hc%Z.ltb_lt. rewrite (sd_next _ Hs), (sd_num _ Hs) in Hc. apply wps_bind, wps_gets. cbn [id].
    apply wps_orCleanup. eapply wps_mono; [apply (empty_step s); done | | done]. intros [] s' (Hs' & Hin' & Hk' & Hl').
    rewrite (sd_next _ Hs'), (sd_next _ Hs), Hl'. split; [| lia]. split_and!; [done | by eapply same_input_trans | congruence].
  - intros [] s [(Hs & Hin & Hk) Hc%Z.ltb_ge]. rewrite (sd_next _ Hs), (sd_num _ Hs) in Hc. pose proof (sd_le _ Hs). split_and!; try done. lia.
Qed.

(** Everything sent is the work of the whole build. *)
Lemma sends_works_ok b : sends b -> len (keys_sent b) <= totalKeys cfg -> totalKeys cfg < 2 ^ 64 -> works_ok cfg c (works b).
Proof.
  intros [] Hk Ht. split; try done. intros i w Hi. destruct (sd_block0 i w Hi) as (Hid & Hkb & Hr). split_and!; [done | | done].
  pose proof (works_keys_take_le c (works b) i). pose proof (len_nonneg (works_keys c (take i (works b)))). unfold keys_sent in Hk.
  rewrite Hkb, u64_id; [done | unfold is_u; lia].
Qed.
End producer.

(** What a read of [writerDone] gives in a state of the pipeline: the error it
    holds, or nil when it is empty and closed. *)
Variant reads `{HX : !XXHash} (s : pipe) : option error -> Prop :=
  | reads_value e : doneVal s = Some e -> reads s (Some e)
  | reads_closed failed : doneVal s = None -> writer s = Gone failed -> reads s None.

(** What the calling goroutine can read while it dispatches the blocks of a build. *)
Definition observed `{HX : !XXHash} `{HO : !OS} (r : option error) : Prop :=
  exists cfg c n blk W iw k s, build_ok cfg c /\ works_ok cfg c W /\ (0 < n)%nat /\ (exists ks, builds c ks blk) /\ committed cfg c iw [] /\
    steps cfg c k (start n blk W iw) s /\ main s = Dispatching /\ reads s r.

Lemma observed_error `{HX : !XXHash} {HL : XXHashLaws} `{HO : !OS} r : observed r -> exists e, r = Some e /\ (e = ErrOther \/ e ∈ block_errors).
Proof.
  intros (cfg & c & n & blk & W & iw & k & s & Hok & HW & Hn & Hblk & Hc & Hs & Hm & Hr).
  destruct (run_inv cfg c W n blk iw k s Hok HW Hn Hblk Hc Hs) as (_ & [_ Hval _ _ _ Hwr] & _).
  destruct Hr as [e Hd | f Hd Hw]; [rewrite Hd in Hval; by exists e |]. destruct (Hwr Hm); [by rewrite Hw | done].
Qed.

(** The pipeline as the calling goroutine meets it is a run of [Pipeline]: draining
    it is a run to the end, and what [writerDone] gives before is what a read gives
    in the middle of a run. *)
Class PipeLaws `{HX : !XXHash} `{HO : !OS} `{HE : !Env} := {
  pipe_send_observed : forall n r, pipe_send n = WriterDone r -> observed r;
  pipe_poll_observed : forall n r, pipe_poll n = Some r -> observed r;
  pipe_drain_run : forall n cfg blk W iw, let c := block_config cfg in
    build_ok cfg c -> limits_ok (algorithm cfg) (totalKeys cfg) -> is_u 64 (globalSeed cfg) -> works_ok cfg c W -> committed cfg c iw [] -> 0 < n ->
    newBlockBuilder (algorithm cfg) (totalKeys cfg) (globalSeed cfg) (payloadSize cfg) (fingerprintSize cfg) = Ok blk ->
    exists k s, steps cfg c k (start (Z.to_nat n) blk W iw) s /\
      main s = Done (pipe_drain n cfg W iw).2 /\ p_iw s = (pipe_drain n cfg W iw).1
}.

Section finish.
Context `{HX : !XXHash} {HL : XXHashLaws} `{HO : !OS} `{HE : !Env} {HP : PipeLaws}.
Context (totalKeys : Z) (opts : list BuildOption).

Let cfg : buildConfig := final_config totalKeys opts.
Let c : config := block_config cfg.

Definition finish_error (e : error) : Prop := pipeline_error e \/ e = ErrOther \/ e ∈ block_errors.

(** Nothing but an I/O error, a cancellation or the error of a block is heard. *)
Lemma pipeline_error_known e : pipeline_error e -> e = ErrOther \/ e ∈ block_errors.
Proof using HL HP.
  intros [n Hs | n e' Hs | n Hs | n e' Hp | n Hp]; [by left | ..];
    [apply pipe_send_observed in Hs | apply pipe_send_observed in Hs | apply pipe_poll_observed in Hp | apply pipe_poll_observed in Hp];
    apply observed_error in Hs || apply observed_error in Hp; naive_solver.
Qed.

Lemma pipeline_drain_spec b : build_ok cfg c -> limits_ok (algorithm cfg) totalKeys -> config_typed cfg -> sends cfg c b ->
  len (works b) = c_numBlocks c -> len (keys_sent c b) = Options.totalKeys cfg ->
  wps drainParallelPipeline b (fun _ b' => build_result cfg c (keys_sent c b) (file (b_iw b')) /\ b_closed b' = b_closed b)
    (fun e b' => finish_error e /\ removed (file (b_iw b'))).
Proof using HL HP.
  intros Hok Hl Ht Hb Hn Hk. pose proof (bd_total _ _ Hok) as Htot. unfold is_u in Htot. pose proof (sd_workers _ _ _ Hb) as Hwk.
  pose proof (bd_config _ _ Hok) as [_ Hps Hfs]. rewrite (bd_ps _ _ Hok) in Hps. rewrite (bd_fps _ _ Hok) in Hfs.
  assert (algorithm cfg = AlgoBijection \/ algorithm cfg = AlgoPTRHash) as Ha by (rewrite <- (bd_algo _ _ Hok); apply Hok).
  pose proof (sends_works_ok cfg c b Hb ltac:(lia) ltac:(lia)) as HW.
  destruct (newBlockBuilder_builds (algorithm cfg) (Options.totalKeys cfg) (globalSeed cfg) (payloadSize cfg) (fingerprintSize cfg))
    as (blk & Hnew & Hblds); [done | done | apply Ht | done | done |].
  destruct (pipe_drain_run (b_workers b) cfg blk (works b) (b_iw b)) as (k & s & Hrun & Hmain & Hiw); try done; [apply Ht | apply (sd_committed _ _ _ Hb) | lia |].
  unfold drainParallelPipeline. apply wps_bind, wps_gets. cbn [id]. rewrite (sd_cfg _ _ _ Hb).
  destruct (pipe_drain (b_workers b) cfg (works b) (b_iw b)) as [iw cause]. cbn [fst snd] in Hmain, Hiw. subst iw.
  pose proof (run_result cfg c (works b) (Z.to_nat (b_workers b)) blk _ _ _ _ Hok HW ltac:(lia) (ex_intro _ [] Hblds) (sd_committed _ _ _ Hb) Hrun Hmain) as Hres.
  apply wps_bind, wps_modify. destruct cause as [e |].
  - eapply wps_mono; [apply (wps_orCleanup (fail e) _ (fun _ _ => False) (fun e => e = ErrOther \/ e ∈ block_errors)); by apply wps_fail | by intros |].
    intros e' b' [He Hr]. split; [by right | done].
  - destruct Hres as (bs & Hcm & Hpay & Hblk & Hrt & Hlen & Hks).
    eapply wps_mono; [apply (finalizeIndex_spec cfg c (set_iw (p_iw s) b) bs); try done; [lia | by rewrite Hks] | |].
    + rewrite Hks. intros [] b' [Hr [_ (_ & _ & Hc & _)]]. by split.
    + intros e b' [-> Hr]. split; [right; by left | done].
Qed.

Lemma par_finish_step b ks :
  build_ok cfg c -> limits_ok (algorithm cfg) totalKeys -> config_typed cfg -> par_inv cfg c b ks -> small_blocks c ks -> len ks < 2 ^ 64 ->
  wps finishSorted b
    (fun _ b' => len ks = totalKeys /\ build_result cfg c ks (file (b_iw b')) /\ b_closed b' = true)
    (fun e b' => removed (file (b_iw b')) /\ ((e = ErrKeyCountMismatch /\ len ks <> totalKeys) \/ finish_error e)).
Proof using HL HP.
  intros Hok Hl Ht [Hpos _] Hsmall Hlen. pose proof (len_nonneg ks) as Hk0. change totalKeys with (Options.totalKeys cfg).
  unfold finishSorted. apply wps_bind, wps_gets. cbn [id]. rewrite (pp_open _ _ _ _ Hpos).
  apply wps_bind, wps_modify. pose proof (pp_sends _ _ _ _ Hpos) as Hsends. rewrite (pp_count _ _ _ _ Hpos), (sd_cfg _ _ _ Hsends), u64_id by (unfold is_u; lia).
  destruct (Z.eqb_spec (len ks) (Options.totalKeys cfg)) as [Heq | Hne]; cbn [negb].
  2:{ eapply wps_mono; [apply (wps_orCleanup _ _ (fun _ _ => False) (fun e => e = ErrKeyCountMismatch)); by apply wps_fail | by intros |].
      intros e s [-> Hr]. split; [done | by left]. }
  pose proof (sd_workers _ _ _ Hsends) as Hw. destruct (Z.ltb_spec 1 (b_workers b)); [| lia].
  assert (sends cfg c (set_closed b)) as Hs by (destruct Hsends; by split).
  assert (forall b1, sends cfg c b1 -> keys_sent c b1 = ks -> b_closed b1 = true ->
     wps (b ← gets id; _ ← whileM (S (Z.to_nat (b_numBlocks b))) (fun b => nextBlockToWrite b <? b_numBlocks b)
            (b ← gets id; orCleanup (dispatchEmptyBlock (nextBlockToWrite b))); drainParallelPipeline) b1
       (fun _ b' => len ks = Options.totalKeys cfg /\ build_result cfg c ks (file (b_iw b')) /\ b_closed b' = true)
       (fun e b' => removed (file (b_iw b')) /\ ((e = ErrKeyCountMismatch /\ len ks <> Options.totalKeys cfg) \/ finish_error e))) as Hend.
  { intros b1 Hb1 Hk1 Hc1. apply wps_bind, wps_gets, wps_bind. cbn [id].
    eapply wps_mono; [by apply (trailing_spec cfg c b1) | | intros e b2 [He Hr]; split; [done | right; by left]].
    intros [] b2 (Hb2 & (_ & _ & _ & Hc2 & _) & Hk2 & Hn2).
    eapply wps_mono; [apply (pipeline_drain_spec b2); try done; congruence | | intros e b3 [He Hr]; split; [done | by right]].
    intros [] b3 [Hr Hc3]. rewrite Hk2, Hk1 in Hr. split_and!; [done | done | congruence]. }
  unfold finishParallel. apply wps_bind, wps_gets. cbn [id]. change (writerErr (set_closed b)) with (writerErr b).
  rewrite (sd_err _ _ _ Hsends). apply wps_bind. change (pendingEntries (set_closed b)) with (pendingEntries b).
  destruct (Z.ltb_spec 0 (len (pendingEntries b))) as [Hp | Hz].
  - assert (firstKey b = false) as Hf.
    { destruct (firstKey b) eqn:Hf; [| done]. destruct (pp_first _ _ _ _ Hpos Hf) as [_ Hnil]. rewrite Hnil in Hp. done. }
    destruct (pp_current _ _ _ _ Hpos Hf) as (Hcur & Hlt & Hin). unfold dispatchBlock.
    eapply wps_mono; [apply (wps_orCleanup _ _ (fun _ b1 => sends cfg c b1 /\ keys_sent c b1 = ks /\ b_closed b1 = true) (fun e => pipeline_error e)) | |].
    + apply wps_bind, wps_gets, wps_bind, wps_modify. cbn [id]. change (currentBlockIdx (set_closed b)) with (currentBlockIdx b). rewrite Hcur.
      eapply wps_mono; [apply (dispatch_spec cfg c (set_pending [] (set_closed b)) (pendingEntries b)); try done | | done].
      * by apply sends_pending.
      * exact (pp_entries _ _ _ _ Hpos).
      * by eapply waiting_few.
      * intros [] b1 (Hb1 & (_ & _ & _ & Hc1 & _) & Hw1). split; [done |]. split; [| done].
        unfold keys_sent. rewrite Hw1, works_keys_app, works_keys_single. symmetry. exact (pp_keys _ _ _ _ Hpos).
    + intros [] b1 (Hb1 & Hk1 & Hc1). by apply Hend.
    + intros e b1 [He Hr]. split; [done | right; by left].
  - apply wps_ret. apply Hend; [done | | done]. rewrite (pp_keys _ _ _ _ Hpos). unfold keys_waiting.
    assert (pendingEntries b = []) as -> by (destruct (pendingEntries b) as [| x l]; [done | rewrite len_cons in Hz; pose proof (len_nonneg l); lia]).
    by rewrite app_nil_r.
Qed.

Lemma fresh_par b : build_ok cfg c -> fresh totalKeys opts b -> 1 < b_workers b -> par_inv cfg c b [].
Proof.
  intros Hok Hfr Hw. pose proof (bd_num _ _ Hok). destruct Hfr.
  assert (sends cfg c b) as Hs.
  { split; try done; rewrite fr_works; try done; [unfold len; cbn; lia]. }
  split; [split; try done; unfold keys_sent, keys_waiting |].
  - by rewrite fr_works, fr_pending.
  - rewrite fr_pending. constructor.
  - congruence.
  - by rewrite fr_first.
Qed.

(** Adding the keys one by one. *)
Definition par_failed (kps : list (list Z * Z)) (e : error) : Prop := build_failed totalKeys opts kps e \/ pipeline_error e.

Lemma par_failed_known kps e : par_failed kps e -> build_failed totalKeys opts kps e.
Proof using HL HP. intros [H | [-> | H]%pipeline_error_known]; [done | apply failed_io | by apply failed_block]. Qed.

Lemma par_add_all_spec b kps :
  build_ok cfg c -> par_inv cfg c b [] -> lastBlockID b = -1 -> Forall (fun kp => Forall is_byte kp.1) kps ->
  small_blocks c (map (key_of c) kps) ->
  wps (forM (fun kp => builder_AddKey kp.1 kp.2) kps) b
    (fun _ b' => all_acceptable totalKeys opts kps /\ par_inv cfg c b' (map (key_of c) kps))
    (fun e b' => par_failed kps e /\ b_closed b' = false).
Proof.
  intros Hok Hb Hl0 Hbytes Hsmall.
  eapply wps_mono; [apply (wps_forM (fun pre b' => all_acceptable totalKeys opts pre /\ lastBlockID b' = last_block totalKeys opts pre /\
      par_inv cfg c b' (map (key_of c) pre)) (fun e b' => par_failed kps e /\ b_closed b' = false)) | | done].
  - split; [by intros [] ? ? |]. by split.
  - intros pre kp post s -> (Hacc & Hlast & Hs).
    rewrite map_app in Hsmall. apply Forall_app in Hbytes as [_ [Hkp _]%Forall_cons].
    eapply wps_mono; [apply (wps_keeps b_closed); [apply AddKey_keeps_closed | apply (par_AddKey_step cfg c s (map (key_of c) pre) kp)];
      [done | done | by eapply (small_prefix totalKeys opts) | done] | |].
    + intros [] s' [(Hk & Hl & Hs') _]. rewrite Hlast in Hk. split; [by apply all_acceptable_snoc |].
      split; [by rewrite last_block_snoc |]. by rewrite map_app.
    + intros e s' [He Hc]. split; [| rewrite Hc; apply (pp_open _ _ _ _ (proj1 Hs))]. rewrite Hlast in He.
      destruct He as [He | [He | He]]; [left; by eapply failed_key | left; by apply failed_context | by right].
  - intros [] b' (Hacc & _ & Hs). done.
Qed.

(** Every key and the end, by several workers. *)
Lemma par_run_spec b kps :
  build_ok cfg c -> limits_ok (algorithm cfg) totalKeys -> config_typed cfg -> fresh totalKeys opts b -> 1 < b_workers b ->
  Forall (fun kp => Forall is_byte kp.1) kps -> small_blocks c (map (key_of c) kps) -> len kps < 2 ^ 64 ->
  wps (add_all_and_finish kps) b (fun _ b' => build_done totalKeys opts kps (file (b_iw b')) /\ b_closed b' = true)
    (fun e b' => par_failed kps e /\ (b_closed b' = false \/ removed (file (b_iw b')))).
Proof using HL HP.
  intros Hok Hl Ht Hfr Hw Hbytes Hsmall Hlen. unfold add_all_and_finish. apply wps_bind.
  eapply wps_mono; [apply (par_add_all_spec b kps); [done | by apply fresh_par | apply Hfr | done | done] | | intros e b' [He Hc]; split; [done | by left]].
  intros [] b1 (Hacc & Hb1). pose proof (len_keys_of totalKeys opts kps) as Hlk. fold cfg c in Hlk.
  eapply wps_mono; [apply (par_finish_step b1 (map (key_of c) kps)); try done; by rewrite Hlk | |].
  - intros [] b2 (Hn & Hr & Hc). rewrite Hlk in Hn. by split_and!.
  - intros e b2 [Hr He]. split; [| by right]. rewrite Hlk in He.
    destruct He as [[-> He] | [He | [-> | He]]]; [left; by apply failed_count | by right | left; apply failed_io | left; by apply failed_block].
Qed.
End finish.

(** C3: building an index from sorted keys with any number of workers, under any
    schedule of the pipeline. When the build reports no error, the keys were valid,
    in block order and as many as announced, and the file it leaves opens,
    verifies and answers for every key: blocks built out of order are committed in
    order. When it reports an error:
    a rejected configuration leaves the path alone; when the file could not be
    created the path is as it was, and when no space could be reserved for it the
    new file stays, closed and empty ([newIndexWriter] does not remove it); after
    every other error the file is closed and removed, unless [os.Remove] itself
    failed. The errors are those of a build by one worker: what the pipeline
    reports is an I/O error, a cancellation or the error of a block. *)
Theorem parallel_build_correct `{HX : !XXHash} {HL : XXHashLaws} `{HO : !OS} `{HE : !Env} {HP : PipeLaws} totalKeys opts f0 kps :
  let cfg := final_config totalKeys opts in
  let c := block_config cfg in
  config_typed cfg -> limits_ok (algorithm cfg) totalKeys -> len kps < 2 ^ 64 ->
  Forall (fun kp => Forall is_byte kp.1 /\ is_u 64 kp.2) kps -> small_blocks c (map (key_of c) kps) ->
  wps (sorted_build totalKeys opts kps) f0
    (fun _ f => len kps = totalKeys /\ all_acceptable totalKeys opts kps /\
       exists bytes, f_data f = Some bytes /\ f_open f = false /\ (len bytes < 2 ^ 40 -> answers_for cfg bytes kps))
    (fun e f => (rejected cfg e /\ f = f0) \/ (e = ErrOther /\ uncreated f0 f) \/ (build_failed totalKeys opts kps e /\ removed f)).
Proof using.
  intros cfg c Ht Hl Hlen Hty Hsmall.
  eapply wps_mono; [apply (build_spec totalKeys opts f0 kps (build_failed totalKeys opts kps)); try done | | done].
  - intros b Hok Hfr. destruct (Z.leb_spec (b_workers b) 1) as [Hb | Hb].
    + apply seq_run_spec; try done. by apply keys_bytes.
    + eapply wps_mono; [apply par_run_spec; try done; by apply keys_bytes | done | intros e b' [He%par_failed_known Hr]; by split].
  - intros [] f Hdone. by apply build_done_answers.
Qed.

(** ** An environment that runs the pipeline, for examples

    Some run of the pipeline to its end: there is one ([run_exists]). *)
Definition some_run `{HX : !XXHash} `{HO : !OS} (n : Z) (cfg : buildConfig) (W : list blockWork) (iw : indexWriter) : indexWriter * option error :=
  epsilon (inhabits (iw, None)) (fun r => exists blk k s,
    newBlockBuilder (algorithm cfg) (totalKeys cfg) (globalSeed cfg) (payloadSize cfg) (fingerprintSize cfg) = Ok blk /\
    steps cfg (block_config cfg) k (start (Z.to_nat n) blk W iw) s /\ main s = Done r.2 /\ p_iw s = r.1).

Definition running_env `{HX : !XXHash} `{HO : !OS} : Env :=
  {| ctx_done _ := false; pipe_send _ := Sent; pipe_poll _ := None; pipe_drain := some_run |}.

Lemma running_laws `{HX : !XXHash} {HL : XXHashLaws} `{HO : !OS} : @PipeLaws HX HO running_env.
Proof.
  split; [done | done |]. intros n cfg blk W iw c Hok Hl Hs HW Hc Hn Hnew. cbn [pipe_drain running_env].
  assert (builds c [] blk) as Hb.
  { pose proof (bd_config _ _ Hok) as [_ Hps Hfs]. rewrite (bd_ps _ _ Hok) in Hps. rewrite (bd_fps _ _ Hok) in Hfs.
    destruct (newBlockBuilder_builds (algorithm cfg) (totalKeys cfg) (globalSeed cfg) (payloadSize cfg) (fingerprintSize cfg))
      as (blk' & Hnew' & Hb); try done; [rewrite <- (bd_algo _ _ Hok); apply Hok |]. rewrite Hnew in Hnew'. by injection Hnew' as <-. }
  destruct (run_exists cfg c (start (Z.to_nat n) blk W iw) Hok) as (k & s & e & Hk & He).
  { apply live_start; [lia | split; [by eexists | constructor] | apply HW]. }
  unfold some_run. match goal with |- context [epsilon ?i ?P] => destruct (epsilon_spec i P) as (blk' & k' & s' & Hnew' & H) end.
  { exists (p_iw s, e), blk, k, s. by split_and!. }
  rewrite Hnew in Hnew'. injection Hnew' as <-. by exists k', s'.
Qed.

Definition example_par_opts : list BuildOption := WithWorkers 3 :: example_opts.

Lemma parallel_build_correct_witness :
  let cfg := final_config 2 example_par_opts in
  workers cfg = 3 /\
  wps (@sorted_build poly_hash quiet_os (@running_env poly_hash quiet_os) 2 example_par_opts example_keys) (mk_osfile None false false 0)
    (fun _ f => len example_keys = 2 /\ all_acceptable 2 example_par_opts example_keys /\
       exists bytes, f_data f = Some bytes /\ f_open f = false /\
         (len bytes < 2 ^ 40 -> @answers_for poly_hash cfg bytes example_keys))
    (fun e f => (rejected cfg e /\ f = mk_osfile None false false 0) \/ (e = ErrOther /\ @uncreated quiet_os (mk_osfile None false false 0) f) \/
       (@build_failed poly_hash (@running_env poly_hash quiet_os) 2 example_par_opts example_keys e /\ removed f)).
Proof.
  split; [reflexivity |].
  apply (@parallel_build_correct poly_hash poly_hash_laws quiet_os (@running_env poly_hash quiet_os) (@running_laws poly_hash poly_hash_laws quiet_os)
    2 example_par_opts (mk_osfile None false false 0) example_keys).
  - split; [unfold is_u; cbn; lia | unfold is_u; cbn; lia |]. repeat constructor; unfold_words; lia.
  - split; vm_compute; reflexivity.
  - unfold len. cbn. lia.
  - repeat constructor; unfold_words; cbn; lia.
  - apply small_blocks_few. unfold len. cbn. lia.
Defined.
