(* ===== verification/UnsortedBuffer.v ===== *)
(** * [builder_unsorted.go]: the write phase of the unsorted builder

    Keys arrive in any order. Each writer keeps them in a flat buffer with a
    region per partition (a partition is a range of blocks), and appends full
    buffers to the partition regions of a temporary file of its own. There are
    two flat buffers: while one is flushed in the background the other fills.

    The background flush only touches the buffer it flushes, the writer's file,
    its row of [writerCursors], its encode buffer and its block counts, none of
    which the writer looks at before it waits for the flush; so the flush is
    performed here when the writer waits for it ([wait_flush]). *)
From S2P Require Import Prelude Words Bits Encoding Key Floats Header Algorithm Index File Options Builder.
#[local] Open Scope Z_scope.

Definition overflowSigmas : Z := 8.
Definition writerSkewMargin : spec_float := fconst 12 10.
Definition maxFlushBufferBytes : Z := Z.shiftl 12 20.
Definition readEntrySize : Z := 24.        (* unsafe.Sizeof(routedEntry{}) *)
Definition bufferedEntrySize : Z := 24.    (* unsafe.Sizeof(bufferedEntry{}) *)
Definition readPipelineDepth : Z := 3.
Definition slotsPerReader : Z := 2.
Definition readBufSize : Z := Z.shiftl 4 20.

Record bufferedEntry := mk_buffered { be_k0 : Z; be_k1 : Z; be_payload : Z }.
Definition zero_entry : bufferedEntry := mk_buffered 0 0 0.

(** The buffers of a reader. The views into [flatBuf] that a read returns are
    pairs of a start and a length. *)
Record readSlot := mk_slot { flatBuf : list routedEntry; readBuf : list Z }.

Record unsortedBuffer := mk_ubuf {
  u_cfg : buildConfig;
  u_numBlocks : Z;                       (* uint32 *)
  u_entrySize : Z;
  numPartitions : Z;
  blocksPerPart : Z;
  numWriters : Z;
  regionSize : Z;
  writerFiles : list (option osfile);    (* nil or a file *)
  writerCursors : list (list Z);
  nextWriterID : Z;
  readSlots : list readSlot;
  mergedBlockCounts : list (list Z);
  u_flushed : bool
}.

Definition set_files (fs : list (option osfile)) (u : unsortedBuffer) : unsortedBuffer :=
  mk_ubuf (u_cfg u) (u_numBlocks u) (u_entrySize u) (numPartitions u) (blocksPerPart u) (numWriters u) (regionSize u)
    fs (writerCursors u) (nextWriterID u) (readSlots u) (mergedBlockCounts u) (u_flushed u).
Definition set_cursors (cs : list (list Z)) (u : unsortedBuffer) : unsortedBuffer :=
  mk_ubuf (u_cfg u) (u_numBlocks u) (u_entrySize u) (numPartitions u) (blocksPerPart u) (numWriters u) (regionSize u)
    (writerFiles u) cs (nextWriterID u) (readSlots u) (mergedBlockCounts u) (u_flushed u).
Definition set_nextWriterID (n : Z) (u : unsortedBuffer) : unsortedBuffer :=
  mk_ubuf (u_cfg u) (u_numBlocks u) (u_entrySize u) (numPartitions u) (blocksPerPart u) (numWriters u) (regionSize u)
    (writerFiles u) (writerCursors u) n (readSlots u) (mergedBlockCounts u) (u_flushed u).
Definition set_slots (ss : list readSlot) (u : unsortedBuffer) : unsortedBuffer :=
  mk_ubuf (u_cfg u) (u_numBlocks u) (u_entrySize u) (numPartitions u) (blocksPerPart u) (numWriters u) (regionSize u)
    (writerFiles u) (writerCursors u) (nextWriterID u) ss (mergedBlockCounts u) (u_flushed u).
Definition set_merged (m : list (list Z)) (u : unsortedBuffer) : unsortedBuffer :=
  mk_ubuf (u_cfg u) (u_numBlocks u) (u_entrySize u) (numPartitions u) (blocksPerPart u) (numWriters u) (regionSize u)
    (writerFiles u) (writerCursors u) (nextWriterID u) (readSlots u) m (u_flushed u).
Definition set_flushed (u : unsortedBuffer) : unsortedBuffer :=
  mk_ubuf (u_cfg u) (u_numBlocks u) (u_entrySize u) (numPartitions u) (blocksPerPart u) (numWriters u) (regionSize u)
    (writerFiles u) (writerCursors u) (nextWriterID u) (readSlots u) (mergedBlockCounts u) true.

(** [flatBufs] and [cursorSets] are arrays of two; the index is [false] for 0. *)
Record writerState := mk_ws {
  writerID : Z;
  flatBufs : list bufferedEntry * list bufferedEntry;
  cursorSets : list Z * list Z;
  activeBuf : bool;
  totalBuffered : Z;
  bufferCap : Z;
  regionCap : Z;
  encodeBuf : list Z;
  flushing : option bool;                (* the buffer of a flush not yet waited for *)
  flushErr : option error;
  blockCounts : list (list Z)            (* uint16 *)
}.

Definition sel {A} (i : bool) (p : A * A) : A := if i then p.2 else p.1.
Definition put {A} (i : bool) (x : A) (p : A * A) : A * A := if i then (p.1, x) else (x, p.2).

Definition set_buffers (f : list bufferedEntry * list bufferedEntry) (c : list Z * list Z) (n : Z) (ws : writerState) : writerState :=
  mk_ws (writerID ws) f c (activeBuf ws) n (bufferCap ws) (regionCap ws) (encodeBuf ws) (flushing ws) (flushErr ws) (blockCounts ws).
Definition set_active (i : bool) (ws : writerState) : writerState :=
  mk_ws (writerID ws) (flatBufs ws) (cursorSets ws) i (totalBuffered ws) (bufferCap ws) (regionCap ws) (encodeBuf ws)
    (flushing ws) (flushErr ws) (blockCounts ws).
Definition set_encoded (buf : list Z) (bc : list (list Z)) (ws : writerState) : writerState :=
  mk_ws (writerID ws) (flatBufs ws) (cursorSets ws) (activeBuf ws) (totalBuffered ws) (bufferCap ws) (regionCap ws) buf
    (flushing ws) (flushErr ws) bc.
Definition set_flushing (f : option bool) (e : option error) (ws : writerState) : writerState :=
  mk_ws (writerID ws) (flatBufs ws) (cursorSets ws) (activeBuf ws) (totalBuffered ws) (bufferCap ws) (regionCap ws) (encodeBuf ws)
    f e (blockCounts ws).

(** What the system answers about the temporary directory, and the number of the
    first system call on each writer's file. *)
Class Temp := { temp_dir_ok : bool; mkdir_temp_ok : bool; temp_calls : nat -> nat }.

Section buffer.
Context `{HO : !OS} `{HT : !Temp}.

(** ** Creating the buffer *)

(** [openWriterFile] *)
Definition openWriterFile : stM osfile unit := osCreate.
(** [os.Remove] of the path: the open file stays. *)
Definition unlinkWhileOpen : stM osfile unit := sysCall (fun f => f) (fun _ f => f).

Definition closeFile (f : option osfile) : option osfile :=
  match f with
  | Some f => match osClose f with Ok (f, _) => Some f | _ => Some f end
  | None => None
  end.

Definition closeWriterFiles : stM unsortedBuffer unit := modify (fun u => set_files (map closeFile (writerFiles u)) u).

(** One writer file: opened, preallocated and unlinked; closed when one of the
    last two fails. *)
Definition createWriterFile (fileSize : Z) : stM osfile unit :=
  _ ← openWriterFile;
  r ← attempt (_ ← preallocFile fileSize; unlinkWhileOpen);
  match r with
  | inl _ => mret tt
  | inr e => _ ← attempt osClose; fail e
  end.

Definition createWriterFiles : stM unsortedBuffer unit :=
  u ← gets id;
  if negb mkdir_temp_ok then fail ErrOther
  else
    let fileSize := regionSize u * numPartitions u in
    forM (fun w =>
      match createWriterFile fileSize (mk_osfile None false false (temp_calls (Z.to_nat w))) with
      | Ok (f, inl _) =>
          u ← gets id;
          fs ← lift (upd (writerFiles u) w (Some f));
          modify (set_files fs)
      | Ok (_, inr e) => _ ← closeWriterFiles; fail e
      | _ => lift Panic
      end) (range (numWriters u)).

(** ** The partition layout *)

Definition maxReadMem : Z := Z.shiftl 2 30.
Definition maxFlushFloorPartitions : Z := 2048.

Definition layout_partitions (totalKeys numBlocks : Z) : Z :=
  let numReadSlots := readPipelineDepth * slotsPerReader in
  let readBound := ceil_int (fdiv (fmul (fmul (float64 numReadSlots) (float64 totalKeys)) (float64 readEntrySize)) (float64 maxReadMem)) in
  let numPartitions := Z.max (Z.max maxFlushFloorPartitions readBound) 1 in
  if numBlocks <? numPartitions then numBlocks else numPartitions.

Definition layout_blocksPerPart (numBlocks numPartitions : Z) : Z :=
  Z.max (ceil_int (fdiv (float64 numBlocks) (float64 numPartitions))) 1.

Definition layout_regionEntries (totalKeys numBlocks numWriters blocksPerPart : Z) : Z :=
  let meanEntries := fdiv (fdiv (fmul (float64 totalKeys) (float64 blocksPerPart)) (float64 numBlocks)) (float64 numWriters) in
  let sigma := fsqrt meanEntries in
  let maxRegionEntries := ceil_int (fadd (fmul meanEntries writerSkewMargin) (fmul (float64 overflowSigmas) sigma)) in
  if maxRegionEntries <? 1 then 1 else maxRegionEntries.

Definition newUnsortedBuffer (cfg : buildConfig) (numBlocks numWriters : Z) : res unsortedBuffer :=
  let entrySize := MinKeySize + payloadSize cfg in
  let numWriters := Z.max numWriters 1 in
  let numPartitions := layout_partitions (totalKeys cfg) numBlocks in
  let blocksPerPart := layout_blocksPerPart numBlocks numPartitions in
  let regionSize := layout_regionEntries (totalKeys cfg) numBlocks numWriters blocksPerPart * entrySize in
  let u := mk_ubuf cfg numBlocks entrySize numPartitions blocksPerPart numWriters regionSize
             (make None numWriters) (make (make 0 numPartitions) numWriters) 0 [] [] false in
  match createWriterFiles u with
  | Ok (u, inl _) => Ok u
  | Ok (_, inr e) => Err e
  | Err e => Err e
  | Panic => Panic
  end.

(** ** A writer *)
Definition newWriterState : stM unsortedBuffer writerState :=
  u ← gets id;
  if numWriters u <=? nextWriterID u then fail ErrOther
  else
    let id := nextWriterID u in
    _ ← modify (set_nextWriterID (id + 1));
    let bufferCap := maxFlushBufferBytes / bufferedEntrySize in
    let regionCap := Z.max (bufferCap / numPartitions u + bufferCap / (numPartitions u * 8)) 1 in
    let flatSize := regionCap * numPartitions u in
    mret (mk_ws id (make zero_entry flatSize, make zero_entry flatSize) (make 0 (numPartitions u), make 0 (numPartitions u))
      false 0 bufferCap regionCap [] None None (make (make 0 (blocksPerPart u)) (numPartitions u))).

(** The writer works on the shared buffer and on its own state. *)
Definition wst : Type := unsortedBuffer * writerState.
Definition on_u (f : unsortedBuffer -> unsortedBuffer) (s : wst) : wst := (f s.1, s.2).
Definition on_ws (f : writerState -> writerState) (s : wst) : wst := (s.1, f s.2).

(** [u.writerFiles[w].WriteAt(data, off)]; a nil file reports an error. *)
Definition writeTo (w : Z) (data : list Z) (off : Z) : stM wst unit :=
  s ← gets id;
  f ← lift (idx (writerFiles s.1) w);
  match f with
  | None => fail ErrOther
  | Some f =>
      '(f, r) ← lift (osWriteAt data off f);
      fs ← lift (upd (writerFiles s.1) w (Some f));
      _ ← modify (on_u (set_files fs));
      match r with inl _ => mret tt | inr e => fail e end
  end.

(** The [i]-th entry of a partition: encoded, and counted for its block. *)
Definition encodeEntry (u : unsortedBuffer) (p : Z) (s : list Z * list Z) (ie : Z * bufferedEntry) : res (list Z * list Z) :=
  let '(buf, bc) := s in
  let '(i, e) := ie in
  let payloadSize := payloadSize (u_cfg u) in
  let pos := i * u_entrySize u in
  buf ← put_le 8 buf pos (be_k0 e);
  buf ← put_le 8 buf (pos + 8) (be_k1 e);
  buf ← (if 0 <? payloadSize then
           tail ← slice buf (pos + MinKeySize) (len buf);
           tail ← packPayloadToBytes tail (be_payload e) payloadSize;
           store buf (pos + MinKeySize) tail
         else Ok buf);
  let localBlockIdx := u32 (route (be_k0 e) (u_numBlocks u) - u32 (u32 p * u32 (blocksPerPart u))) in
  n ← idx bc localBlockIdx;
  bc ← upd bc localBlockIdx (u16 (n + 1));
  Ok (buf, bc).

(** The body of [doFlush]'s loop. *)
Definition flushPartition (cursors : list Z) (flat : list bufferedEntry) (p : Z) : stM wst unit :=
  n ← lift (idx cursors p);
  if n =? 0 then mret tt
  else
    s ← gets id;
    let u := s.1 in
    let ws := s.2 in
    let needed := n * u_entrySize u in
    let buf := if len (encodeBuf ws) <? needed then make 0 needed else encodeBuf ws in
    let base := p * regionCap ws in
    entries ← lift (slice flat base (base + n));
    bc ← lift (idx (blockCounts ws) p);
    '(buf, bc) ← lift (foldM (encodeEntry u p) (buf, bc) (zip (range n) entries));
    bcs ← lift (upd (blockCounts ws) p bc);
    _ ← modify (on_ws (set_encoded buf bcs));
    row ← lift (idx (writerCursors u) (writerID ws));
    cursor ← lift (idx row p);
    let regionStart := p * regionSize u in
    let off := regionStart + cursor in
    if regionStart + regionSize u <? off + needed then fail ErrOther
    else
      data ← lift (slice buf 0 needed);
      _ ← writeTo (writerID ws) data off;
      s ← gets id;
      row ← lift (idx (writerCursors s.1) (writerID ws));
      row ← lift (upd row p (cursor + needed));
      cs ← lift (upd (writerCursors s.1) (writerID ws) row);
      modify (on_u (set_cursors cs)).

Definition doFlush (bufIdx : bool) : stM wst unit :=
  s ← gets id;
  forM (flushPartition (sel bufIdx (cursorSets s.2)) (sel bufIdx (flatBufs s.2))) (range (numPartitions s.1)).

(** [flushWg.Wait()]: the flush that was launched is done, its error recorded. *)
Definition wait_flush : stM wst unit :=
  s ← gets id;
  match flushing s.2 with
  | None => mret tt
  | Some bufIdx =>
      r ← attempt (doFlush bufIdx);
      modify (on_ws (set_flushing None (match r with inl _ => None | inr e => Some e end)))
  end.

Definition flush : stM wst unit :=
  _ ← wait_flush;
  s ← gets id;
  match flushErr s.2 with
  | Some e => fail e
  | None =>
      if totalBuffered s.2 =? 0 then mret tt
      else
        _ ← modify (on_u set_flushed);
        let flushBuf := activeBuf s.2 in
        let active := negb flushBuf in
        _ ← modify (on_ws (set_active active));
        _ ← modify (on_ws (fun ws => set_buffers (flatBufs ws)
              (put active (make 0 (len (sel active (cursorSets ws)))) (cursorSets ws)) 0 ws));
        modify (on_ws (set_flushing (Some flushBuf) (flushErr s.2)))
  end.

(** An entry stored in the active buffer, which is flushed when it is full. *)
Definition storeEntry (p : Z) (e : bufferedEntry) : stM wst unit :=
  s ← gets id;
  let a := activeBuf s.2 in
  c ← lift (idx (sel a (cursorSets s.2)) p);
  flat ← lift (upd (sel a (flatBufs s.2)) (p * regionCap s.2 + c) e);
  cursors ← lift (upd (sel a (cursorSets s.2)) p (c + 1));
  _ ← modify (on_ws (fun ws => set_buffers (put a flat (flatBufs ws)) (put a cursors (cursorSets ws)) (totalBuffered ws + 1) ws));
  s ← gets id;
  if bufferCap s.2 <=? totalBuffered s.2 then flush else mret tt.

(** [writerState.addKey]; a full region is flushed first. *)
Definition ws_addKey (k0 k1 payload blockID : Z) : stM wst unit :=
  s ← gets id;
  let p := blockID / u32 (blocksPerPart s.1) in
  c ← lift (idx (sel (activeBuf s.2) (cursorSets s.2)) p);
  _ ← (if regionCap s.2 <=? c then flush else mret tt);
  storeEntry p (mk_buffered k0 k1 payload).

Definition flushAll : stM wst unit :=
  _ ← wait_flush;
  s ← gets id;
  match flushErr s.2 with
  | Some e => fail e
  | None =>
      if totalBuffered s.2 =? 0 then mret tt
      else
        _ ← modify (on_u set_flushed);
        doFlush (activeBuf s.2)
  end.

Definition drainFlush : stM wst unit := wait_flush.

Definition ws_free (ws : writerState) : writerState :=
  mk_ws (writerID ws) ([], []) ([], []) (activeBuf ws) (totalBuffered ws) (bufferCap ws) (regionCap ws) []
    (flushing ws) (flushErr ws) (blockCounts ws).
Definition freeBlockCounts (ws : writerState) : writerState := set_encoded (encodeBuf ws) [] ws.

(** [unsortedBuffer.cleanup]: errors are ignored. *)
Definition u_cleanup : stM unsortedBuffer unit :=
  _ ← closeWriterFiles;
  modify (set_files []).
End buffer.
