(* ===== verification/UnsortedWrite.v ===== *)
(** * What a writer of the unsorted builder has stored

    The entries a writer was given, in order, are those already in its file, then
    those of the flush under way, then those of the active buffer; within each of
    the three, a partition's entries lie in the partition's region. *)
From S2P Require Import Prelude Words Bits Encoding Key Floats Header Algorithm Index File Options Builder UnsortedBuffer.
#[local] Open Scope Z_scope.

(** The bytes of an entry in a partition file. *)
Definition entry_bytes_of (ps : Z) (e : bufferedEntry) : list Z :=
  le_bytes 8 (be_k0 e) ++ le_bytes 8 (be_k1 e) ++ le_bytes (Z.to_nat ps) (be_payload e).
Definition entries_bytes (ps : Z) (es : list bufferedEntry) : list Z := concat (map (entry_bytes_of ps) es).

Record entry_ok (e : bufferedEntry) : Prop := {
  eo_k0 : is_u 64 (be_k0 e); eo_k1 : is_u 64 (be_k1 e); eo_payload : is_u 64 (be_payload e)
}.

(** The shape of the buffer, fixed when it is created. *)
Record geometry := mk_geometry { g_cfg : buildConfig; g_blocks : Z; g_parts : Z; g_bpp : Z; g_writers : Z; g_region : Z }.

Record geometry_ok (g : geometry) : Prop := {
  go_blocks : 0 < g_blocks g < 2 ^ 32;
  go_parts : 0 < g_parts g;
  go_bpp : 0 < g_bpp g < 2 ^ 32;
  go_cover : g_blocks g <= g_parts g * g_bpp g;
  go_region : 0 <= g_region g;
  go_ps : 0 <= payloadSize (g_cfg g) <= 8
}.

Definition entry_size (g : geometry) : Z := MinKeySize + payloadSize (g_cfg g).

Record shaped (g : geometry) (u : unsortedBuffer) : Prop := {
  sh_cfg : u_cfg u = g_cfg g;
  sh_blocks : u_numBlocks u = g_blocks g;
  sh_size : u_entrySize u = entry_size g;
  sh_parts : numPartitions u = g_parts g;
  sh_bpp : blocksPerPart u = g_bpp g;
  sh_writers : numWriters u = g_writers g;
  sh_region : regionSize u = g_region g;
  sh_files : len (writerFiles u) = g_writers g;
  sh_cursors : len (writerCursors u) = g_writers g
}.

Definition block_id (g : geometry) (e : bufferedEntry) : Z := route (be_k0 e) (g_blocks g).
Definition part_id (g : geometry) (e : bufferedEntry) : Z := block_id g e / g_bpp g.
(** The entries of a partition, of a block. *)
Definition in_part (g : geometry) (p : Z) (es : list bufferedEntry) : list bufferedEntry := filter (fun e => part_id g e = p) es.
Definition in_block (g : geometry) (j : Z) (es : list bufferedEntry) : list bufferedEntry := filter (fun e => block_id g e = j) es.

Lemma len_entry_bytes_of ps e : 0 <= ps -> len (entry_bytes_of ps e) = MinKeySize + ps.
Proof. intros H. unfold entry_bytes_of, MinKeySize. rewrite !len_app, !len_le_bytes. lia. Qed.

Lemma entries_bytes_app ps a b : entries_bytes ps (a ++ b) = entries_bytes ps a ++ entries_bytes ps b.
Proof. unfold entries_bytes. by rewrite map_app, concat_app. Qed.

Lemma entries_bytes_single ps e : entries_bytes ps [e] = entry_bytes_of ps e.
Proof. apply app_nil_r. Qed.

Lemma len_entries_bytes ps es : 0 <= ps -> len (entries_bytes ps es) = len es * (MinKeySize + ps).
Proof.
  intros H. induction es as [| e es IH]; [done |].
  change (len (entry_bytes_of ps e ++ entries_bytes ps es) = len (e :: es) * (MinKeySize + ps)).
  rewrite len_app, len_cons, len_entry_bytes_of, IH by done. lia.
Qed.

Section geometry.
Context (g : geometry) (Hg : geometry_ok g).

Lemma block_id_bound e : 0 <= block_id g e < g_blocks g.
Proof using Hg. destruct Hg. unfold block_id, route. apply FastRange32_lt; [apply reverse_bytes64_is | unfold is_u; lia | lia]. Qed.

Lemma part_id_bound e : 0 <= part_id g e < g_parts g.
Proof using Hg.
  pose proof (block_id_bound e) as Hb. destruct Hg. unfold part_id. split; [apply Z.div_pos; lia |].
  apply Z.div_lt_upper_bound; nia.
Qed.

Lemma part_block e p : part_id g e = p -> p * g_bpp g <= block_id g e < p * g_bpp g + g_bpp g.
Proof using Hg. intros <-. destruct Hg. unfold part_id. pose proof (Z.mul_div_le (block_id g e) (g_bpp g)). pose proof (Z.mod_pos_bound (block_id g e) (g_bpp g)). rewrite Z.mod_eq in * by lia. lia. Qed.

(** ** Encoding the entries of a partition *)

(** How many entries of each block of partition [p] there are, in 16 bits. *)
Definition counts16 (p : Z) (es : list bufferedEntry) (bc : list Z) : Prop :=
  len bc = g_bpp g /\ forall j, 0 <= j < g_bpp g -> bc !! Z.to_nat j = Some (u16 (len (in_block g (p * g_bpp g + j) es))).

Lemma in_block_snoc j es e : in_block g j (es ++ [e]) = in_block g j es ++ if decide (block_id g e = j) then [e] else [].
Proof. unfold in_block. by rewrite filter_app. Qed.

Lemma in_part_snoc p es e : in_part g p (es ++ [e]) = in_part g p es ++ if decide (part_id g e = p) then [e] else [].
Proof. unfold in_part. by rewrite filter_app. Qed.

Lemma counts16_snoc p es bc e n : counts16 p es bc -> part_id g e = p ->
  let j := block_id g e - p * g_bpp g in
  bc !! Z.to_nat j = Some n -> counts16 p (es ++ [e]) (<[Z.to_nat j := u16 (n + 1)]> bc).
Proof using Hg.
  intros [Hl Hc] Hp j Hj. pose proof (part_block e p Hp) as Hb. split; [by rewrite len_insert |]. intros i Hi.
  rewrite in_block_snoc. destruct (decide (i = j)) as [-> | Hne].
  - rewrite list_lookup_insert_eq by (eapply lookup_lt_Some; exact Hj). rewrite decide_True by lia.
    rewrite Hc in Hj by lia. injection Hj as <-. rewrite len_app, len_single. f_equal. unfold u16. by rewrite Zplus_mod_idemp_l.
  - rewrite list_lookup_insert_ne by lia. rewrite decide_False by lia. rewrite app_nil_r. by apply Hc.
Qed.

Lemma encodeEntry_spec u p i pre old post bc es e :
  shaped g u -> 0 <= p -> part_id g e = p -> len pre = i * entry_size g -> len old = entry_size g -> counts16 p es bc ->
  exists bc', encodeEntry u p (pre ++ old ++ post, bc) (i, e)
    = Ok (pre ++ entry_bytes_of (payloadSize (g_cfg g)) e ++ post, bc') /\ counts16 p (es ++ [e]) bc'.
Proof using Hg.
  intros [] Hp0 Hp Hpre Hold Hc. pose proof (part_block e p Hp) as Hb. pose proof (block_id_bound e) as Hbb.
  pose proof (conj (go_ps _ Hg) (go_bpp _ Hg)) as [Hps Hbpp]. pose proof (go_blocks _ Hg) as Hnb. unfold entry_size in *.
  set (ps := payloadSize (g_cfg g)) in *. unfold MinKeySize in *.
  assert (exists o1 o2 o3, old = o1 ++ o2 ++ o3 /\ len o1 = 8 /\ len o2 = 8 /\ len o3 = ps) as (o1 & o2 & o3 & -> & H1 & H2 & H3).
  { exists (take 8 old), (take 8 (drop 8 old)), (drop 16 old). unfold len in *. rewrite !length_take, !length_drop.
    split_and!; try lia. change (drop 16 old) with (drop (8 + 8) old). rewrite <- drop_drop, take_drop, take_drop. done. }
  unfold encodeEntry, put_le. rewrite sh_cfg0, sh_size0, sh_blocks0, sh_bpp0. unfold entry_size, MinKeySize. fold ps. rewrite <- Hpre.
  rewrite <- (app_assoc o1), <- (app_assoc o2).
  rewrite (store_app_exact pre o1 _ (le_bytes 8 (be_k0 e))) by (done || (rewrite length_le_bytes; unfold len in H1; lia)). cbn [mbind res_bind].
  rewrite (app_assoc pre (le_bytes 8 (be_k0 e))).
  rewrite (store_app_exact _ o2 _ (le_bytes 8 (be_k1 e))) by (rewrite ?len_app, ?len_le_bytes, ?length_le_bytes; unfold len in *; lia).
  cbn [mbind res_bind]. rewrite (app_assoc _ (le_bytes 8 (be_k1 e))). set (front := (pre ++ le_bytes 8 (be_k0 e)) ++ le_bytes 8 (be_k1 e)).
  assert (len front = len pre + 16) as Hf by (unfold front; rewrite !len_app, !len_le_bytes; lia).
  assert ((if 0 <? ps then
      tail ← slice (front ++ o3 ++ post) (len pre + 16) (len (front ++ o3 ++ post));
      tail ← packPayloadToBytes tail (be_payload e) ps;
      store (front ++ o3 ++ post) (len pre + 16) tail
    else Ok (front ++ o3 ++ post)) = Ok (front ++ le_bytes (Z.to_nat ps) (be_payload e) ++ post)) as ->.
  { destruct (Z.ltb_spec 0 ps) as [Hlt | Hge].
    - rewrite slice_app_tail by (rewrite ?Hf; done). cbn [mbind res_bind]. pose proof (len_nonneg post).
      rewrite packPayloadToBytes_eq by (rewrite len_app; lia). rewrite (store_app_exact [] o3 post) by (done || (rewrite length_le_bytes; unfold len in H3; lia)).
      cbn [mbind res_bind app]. apply store_app_tail; [lia |]. rewrite !len_app, len_le_bytes. lia.
    - assert (ps = 0) as Hz by lia. rewrite Hz in *. destruct o3; [done |]. rewrite len_cons in H3. pose proof (len_nonneg o3). lia. }
  cbn [mbind res_bind]. change (route (be_k0 e) (g_blocks g)) with (block_id g e).
  assert (u32 (block_id g e - u32 (u32 p * u32 (g_bpp g))) = block_id g e - p * g_bpp g) as ->.
  { rewrite (u32_id p), (u32_id (g_bpp g)) by (unfold is_u; nia). rewrite (u32_id (p * g_bpp g)) by (unfold is_u; nia). apply u32_id. unfold is_u. lia. }
  destruct Hc as [Hl Hcc]. rewrite (proj2 (idx_ok bc _ (u16 (len (in_block g (block_id g e) es))))).
  2:{ split; [lia |]. rewrite Hcc by lia. do 3 f_equal. f_equal. lia. }
  cbn [mbind res_bind]. rewrite upd_in_range by lia. cbn [mbind res_bind]. eexists. split; [f_equal; f_equal; unfold front, entry_bytes_of; by rewrite <- !app_assoc |].
  apply counts16_snoc; [by split | done |]. rewrite Hcc by lia. do 3 f_equal. f_equal. lia.
Qed.
Lemma encode_entries_spec u p es : forall i pre rest bc W, shaped g u -> 0 <= p -> Forall (fun e => part_id g e = p) es -> len pre = i * entry_size g ->
  len es * entry_size g <= len rest -> counts16 p W bc ->
  exists bc', foldM (encodeEntry u p) (pre ++ rest, bc) (zip (seqZ i (len es)) es)
    = Ok (pre ++ entries_bytes (payloadSize (g_cfg g)) es ++ drop (Z.to_nat (len es * entry_size g)) rest, bc') /\ counts16 p (W ++ es) bc'.
Proof using Hg.
  assert (0 <= entry_size g) as Hz by (pose proof (go_ps _ Hg); unfold entry_size, MinKeySize; lia).
  induction es as [| e es IH]; intros i pre rest bc W Hu Hp Hes Hpre Hrest Hc.
  - exists bc. rewrite app_nil_r. done.
  - apply Forall_cons in Hes as [He Hes]. rewrite len_cons in *. pose proof (len_nonneg es) as Hl0.
    rewrite seqZ_cons by lia. cbn [zip zip_with foldM].
    assert (exists old post, rest = old ++ post /\ len old = entry_size g) as (old & post & -> & Hold).
    { exists (take (Z.to_nat (entry_size g)) rest), (drop (Z.to_nat (entry_size g)) rest). rewrite take_drop. split; [done |].
      unfold len in *. rewrite length_take. nia. }
    destruct (encodeEntry_spec u p i pre old post bc W e) as (bc1 & -> & Hc1); try done. cbn [mbind res_bind].
    replace (Z.pred (1 + len es)) with (len es) by lia. rewrite app_assoc.
    pose proof (len_entry_bytes_of (payloadSize (g_cfg g)) e ltac:(apply Hg)) as Hle. rewrite len_app in Hrest.
    edestruct (IH (Z.succ i) (pre ++ entry_bytes_of (payloadSize (g_cfg g)) e) post bc1 (W ++ [e])) as (bc2 & Heq & Hc2); try done.
    { rewrite len_app, Hle. unfold entry_size in *. lia. }
    { nia. }
    exists bc2. rewrite <- app_assoc in Hc2. split; [| exact Hc2]. etransitivity; [exact Heq |]. do 2 f_equal.
    change (entries_bytes (payloadSize (g_cfg g)) (e :: es)) with (entry_bytes_of (payloadSize (g_cfg g)) e ++ entries_bytes (payloadSize (g_cfg g)) es).
    rewrite <- !app_assoc. do 3 f_equal. rewrite drop_app_ge by (unfold len in *; nia). f_equal. unfold len in *. nia.
Qed.
End geometry.

(** ** Flushing *)
Section flush.
Context `{HO : !OS} (g : geometry) (Hg : geometry_ok g).

(** A flat buffer of regions of [rc] entries, and what was added to it. *)
Record buf_ok (rc : Z) (flat : list bufferedEntry) (cursors : list Z) (A : list bufferedEntry) : Prop := {
  bk_flat : len flat = rc * g_parts g;
  bk_cursors : len cursors = g_parts g;
  bk_part : forall p, 0 <= p < g_parts g ->
    cursors !! Z.to_nat p = Some (len (in_part g p A)) /\ len (in_part g p A) <= rc /\
    window flat (Z.to_nat (p * rc)) (length (in_part g p A)) = in_part g p A
}.

(** What the file of writer [w], its cursors and block counts say: [Wp p] are the
    entries of partition [p] written so far. *)
Record stored (w : Z) (s : wst) (Wp : Z -> list bufferedEntry) : Prop := {
  st_file : exists f, writerFiles s.1 !! Z.to_nat w = Some (Some f) /\
    forall p, 0 <= p < g_parts g -> holds (content f) (p * g_region g) (entries_bytes (payloadSize (g_cfg g)) (Wp p));
  st_cursors : exists row, writerCursors s.1 !! Z.to_nat w = Some row /\ len row = g_parts g /\
    forall p, 0 <= p < g_parts g -> row !! Z.to_nat p = Some (len (Wp p) * entry_size g) /\ len (Wp p) * entry_size g <= g_region g;
  st_counts : len (blockCounts s.2) = g_parts g /\
    forall p, 0 <= p < g_parts g -> exists bc, blockCounts s.2 !! Z.to_nat p = Some bc /\ counts16 g p (Wp p) bc
}.

Lemma stored_ext w s Wp Wp' : stored w s Wp -> (forall p, 0 <= p < g_parts g -> Wp' p = Wp p) -> stored w s Wp'.
Proof.
  intros [(f & Hf & Hh) (row & Hr & Hl & Hrow) [Hn Hc]] He. split.
  - exists f. split; [done |]. intros p Hp. rewrite He by done. by apply Hh.
  - exists row. split; [done |]. split; [done |]. intros p Hp. rewrite He by done. by apply Hrow.
  - split; [done |]. intros p Hp. rewrite He by done. by apply Hc.
Qed.

(** What a flush of writer [w] may change. *)
Definition flushed_to (w : Z) (s s' : wst) : Prop :=
  exists fs cs buf bcs, s' = (set_files fs (set_cursors cs s.1), set_encoded buf bcs s.2) /\
    len fs = len (writerFiles s.1) /\ len cs = len (writerCursors s.1) /\
    forall i, i <> Z.to_nat w -> fs !! i = writerFiles s.1 !! i /\ cs !! i = writerCursors s.1 !! i.

Lemma flushed_to_refl w s : flushed_to w s s.
Proof. exists (writerFiles s.1), (writerCursors s.1), (encodeBuf s.2), (blockCounts s.2). split; [by destruct s as [[] []] | done]. Qed.

Lemma flushed_to_trans w s1 s2 s3 : flushed_to w s1 s2 -> flushed_to w s2 s3 -> flushed_to w s1 s3.
Proof.
  intros (fs & cs & buf & bcs & -> & Hf & Hc & Hi) (fs' & cs' & buf' & bcs' & -> & Hf' & Hc' & Hi').
  exists fs', cs', buf', bcs'. split; [done |]. split; [by rewrite Hf' |]. split; [by rewrite Hc' |].
  intros i Hne. destruct (Hi i Hne) as [<- <-]. by apply Hi'.
Qed.

Lemma flushed_to_shaped w s s' : flushed_to w s s' -> shaped g s.1 -> shaped g s'.1.
Proof. intros (fs & cs & buf & bcs & -> & Hf & Hc & _) []. split; cbn; try done; congruence. Qed.

Lemma in_part_all p F : Forall (fun e => part_id g e = p) (in_part g p F).
Proof. apply Forall_forall. by intros e [He _]%list_elem_of_filter. Qed.

(** Writing what was encoded. *)
Lemma writeTo_spec w data off s f :
  writerFiles s.1 !! Z.to_nat w = Some (Some f) -> 0 <= w -> 0 <= off ->
  wps (writeTo w data off) s
    (fun _ s' => exists n, s' = (set_files (<[Z.to_nat w := Some (mk_osfile (Some (pwrite (content f) off data)) (f_open f) (f_stuck f) n)]> (writerFiles s.1)) s.1, s.2))
    (fun e s' => e = ErrOther /\ exists x, s' = (set_files (<[Z.to_nat w := x]> (writerFiles s.1)) s.1, s.2)).
Proof.
  intros Hf Hw Hoff. unfold writeTo. apply wps_bind, wps_gets, wps_bind, wps_lift. cbn [id].
  rewrite (proj2 (idx_ok _ _ (Some f))) by done. apply wp_ok, wps_bind, wps_lift.
  assert (0 <= w < len (writerFiles s.1)) as Hin by (apply lookup_lt_Some in Hf; unfold len; lia).
  pose proof (wps_osWriteAt data off f (fun _ f' => exists n, f' = mk_osfile (Some (pwrite (content f) off data)) (f_open f) (f_stuck f) n) (fun e _ => e = ErrOther)) as Hwr.
  specialize (Hwr ltac:(by eexists) ltac:(done)). unfold wps in Hwr. destruct (osWriteAt data off f) as [[f' r] | |]; [| done | done].
  apply wp_ok, wps_bind, wps_lift. rewrite upd_in_range by lia. apply wp_ok, wps_bind, wps_modify. destruct r as [[] | e].
  - apply wps_ret. destruct Hwr as [n ->]. by exists n.
  - apply wps_fail. split; [done |]. by exists (Some f').
Qed.

Lemma flushPartition_spec w s Wp cursors flat rc F p :
  shaped g s.1 -> writerID s.2 = w -> 0 <= w -> regionCap s.2 = rc -> 0 < rc -> 0 <= p < g_parts g -> stored w s Wp -> buf_ok rc flat cursors F ->
  wps (flushPartition cursors flat p) s
    (fun _ s' => flushed_to w s s' /\ stored w s' (fun q => if decide (q = p) then Wp p ++ in_part g p F else Wp q))
    (fun e s' => e = ErrOther /\ flushed_to w s s').
Proof using Hg.
  intros Hs Hid Hw Hrc Hrc0 Hp Hst [Hfl Hcl Hpart]. destruct (Hpart p Hp) as (Hcur & Hle & Hwin). set (es := in_part g p F) in *.
  pose proof (go_ps _ Hg) as Hps. assert (0 < entry_size g) as Hz by (unfold entry_size, MinKeySize; lia).
  pose proof (len_nonneg es) as Hes0. unfold flushPartition. apply wps_bind, wps_lift.
  rewrite (proj2 (idx_ok cursors p _) (conj (proj1 Hp) Hcur)). apply wp_ok.
  destruct (Z.eqb_spec (len es) 0) as [Hnil | Hne].
  { apply wps_ret. split; [apply flushed_to_refl |]. eapply stored_ext; [exact Hst |]. intros q _. cbn beta. case_decide; [| done].
    subst q. destruct es; [by rewrite app_nil_r | rewrite len_cons in Hnil; pose proof (len_nonneg es); lia]. }
  pose proof Hst as [(f & Hf & Hh) (row & Hrow & Hrl & Hrp) [Hn Hc]]. destruct (Hrp p Hp) as [Hrowp Hfit]. destruct (Hc p Hp) as (bc & Hbc & Hcnt).
  pose proof (sh_size _ _ Hs) as Hsz. pose proof (sh_region _ _ Hs) as Hreg.
  apply wps_bind, wps_gets. cbn [id]. rewrite Hsz, Hreg, Hrc, Hid. set (buf := if _ <? _ then _ else _).
  assert (len es * entry_size g <= len buf) as Hbuf.
  { unfold buf. destruct (Z.ltb_spec (len (encodeBuf s.2)) (len es * entry_size g)); [rewrite len_make |]; nia. }
  apply wps_bind, wps_lift. rewrite slice_in_range by (rewrite ?Hfl; nia). apply wp_ok. replace (Z.to_nat (p * rc + len es - p * rc)) with (length es) by (unfold len; lia).
  change (take (length es) (drop (Z.to_nat (p * rc)) flat)) with (window flat (Z.to_nat (p * rc)) (length es)). rewrite Hwin.
  apply wps_bind, wps_lift. rewrite (proj2 (idx_ok (blockCounts s.2) p _) (conj (proj1 Hp) Hbc)). apply wp_ok, wps_bind, wps_lift.
  destruct (encode_entries_spec g Hg s.1 p es 0 [] buf bc (Wp p)) as (bc' & Henc & Hcnt'); try done; [lia | apply in_part_all |].
  unfold range. rewrite app_nil_l in Henc. rewrite Henc. apply wp_ok. cbn [app]. apply wps_bind, wps_lift. rewrite upd_in_range by (unfold len in *; lia). apply wp_ok.
  apply wps_bind, wps_modify, wps_bind, wps_lift. rewrite (proj2 (idx_ok (writerCursors s.1) w _) (conj Hw Hrow)). apply wp_ok, wps_bind, wps_lift.
  rewrite (proj2 (idx_ok row p _) (conj (proj1 Hp) Hrowp)). apply wp_ok.
  match goal with |- context [on_ws (set_encoded ?b ?c) s] => set (buf' := b); set (bcs := c) end.
  pose proof (len_entries_bytes (payloadSize (g_cfg g)) es ltac:(lia)) as Hdl. fold (entry_size g) in Hdl.
  destruct (Z.ltb_spec (p * g_region g + g_region g) (p * g_region g + len (Wp p) * entry_size g + len es * entry_size g)) as [Hover | Hroom].
  { apply wps_fail. split; [done |]. exists (writerFiles s.1), (writerCursors s.1), buf', bcs. by destruct s as [[] ?]. }
  apply wps_bind, wps_lift.
  assert (slice buf' 0 (len es * entry_size g) = Ok (entries_bytes (payloadSize (g_cfg g)) es)) as -> by (apply (slice_app_mid []); [done | by rewrite Hdl]). apply wp_ok, wps_bind.
  pose proof (len_nonneg (Wp p)). pose proof (go_region _ Hg).
  eapply wps_mono; [apply (writeTo_spec w _ _ _ f); [exact Hf | done | nia] | |].
  2:{ intros e s' (-> & x & ->). split; [done |]. exists (<[Z.to_nat w := x]> (writerFiles s.1)), (writerCursors s.1), buf', bcs.
      split; [done |]. split; [apply len_insert |]. split; [done |]. intros i Hi. by rewrite list_lookup_insert_ne. }
  intros [] s' [n ->]. cbn [fst snd on_ws set_files writerCursors writerFiles].
  apply wps_bind, wps_gets. cbn [id fst writerCursors set_files]. apply wps_bind, wps_lift. rewrite (proj2 (idx_ok (writerCursors s.1) w _) (conj Hw Hrow)). apply wp_ok, wps_bind, wps_lift.
  rewrite upd_in_range by lia. apply wp_ok, wps_bind, wps_lift. rewrite upd_in_range by (apply lookup_lt_Some in Hrow; unfold len; lia).
  apply wp_ok, wps_modify. split.
  { eexists (<[Z.to_nat w := _]> (writerFiles s.1)), (<[Z.to_nat w := _]> (writerCursors s.1)), buf', bcs. split; [reflexivity |].
    split; [apply len_insert |]. split; [apply len_insert |]. intros i Hi. by rewrite !list_lookup_insert_ne by congruence. }
  split; cbn [fst snd on_u set_cursors set_files writerFiles writerCursors blockCounts set_encoded].
  - eexists. split; [apply list_lookup_insert_eq; by eapply lookup_lt_Some |]. intros q Hq. unfold content at 1. cbn [default f_data].
    assert (p * g_region g + len (Wp p) * entry_size g = p * g_region g + len (entries_bytes (payloadSize (g_cfg g)) (Wp p))) as Hoff
      by (rewrite len_entries_bytes by lia; done).
    case_decide as Hqp.
    + subst q. rewrite entries_bytes_app, Hoff. apply holds_extend, Hh, Hp.
    + apply holds_pwrite_other; [nia | by apply Hh |]. rewrite Hdl, len_entries_bytes by lia. fold (entry_size g).
      destruct (Hrp q Hq) as [_ Hfq]. destruct (decide (q < p)); [left | right]; nia.
  - eexists. split; [apply list_lookup_insert_eq; by eapply lookup_lt_Some |]. split; [by rewrite len_insert |]. intros q Hq. case_decide as Hqp.
    + subst q. rewrite list_lookup_insert_eq by (unfold len in Hrl; lia). rewrite len_app. split; [f_equal; lia | lia].
    + rewrite list_lookup_insert_ne by lia. by apply Hrp.
  - unfold bcs. rewrite len_insert. split; [done |]. intros q Hq. case_decide as Hqp.
    + subst q. rewrite list_lookup_insert_eq by (unfold len in Hn; lia). by exists bc'.
    + rewrite list_lookup_insert_ne by lia. by apply Hc.
Qed.

(** A whole buffer flushed. *)
Lemma doFlush_spec w s W b F :
  shaped g s.1 -> writerID s.2 = w -> 0 <= w -> 0 < regionCap s.2 -> stored w s (fun p => in_part g p W) ->
  buf_ok (regionCap s.2) (sel b (flatBufs s.2)) (sel b (cursorSets s.2)) F ->
  wps (doFlush b) s
    (fun _ s' => flushed_to w s s' /\ stored w s' (fun p => in_part g p (W ++ F)))
    (fun e s' => e = ErrOther /\ flushed_to w s s').
Proof using Hg.
  intros Hs Hid Hw Hrc Hst Hbuf. unfold doFlush. apply wps_bind, wps_gets. cbn [id]. rewrite (sh_parts _ _ Hs).
  set (cursors := sel b (cursorSets s.2)) in *. set (flat := sel b (flatBufs s.2)) in *.
  eapply wps_mono; [apply (wps_forM (fun pre s' => flushed_to w s s' /\ stored w s' (fun q => if decide (q < len pre) then in_part g q W ++ in_part g q F else in_part g q W)) (fun e s' => e = ErrOther /\ flushed_to w s s')) | | done].
  - split; [apply flushed_to_refl |]. eapply stored_ext; [exact Hst |]. intros q Hq. cbn beta. by rewrite decide_False by (rewrite len_nil; lia).
  - intros pre p post s' Heq [Hfl Hst']. apply range_prefix in Heq as [-> Hp].
    pose proof Hfl as (fs & cs & buf & bcs & Hs' & _). assert (writerID s'.2 = w /\ regionCap s'.2 = regionCap s.2) as [Hid' Hrc'] by by rewrite Hs'.
    eapply wps_mono; [eapply (flushPartition_spec w s' _ cursors flat (regionCap s.2) F (len pre)); [by eapply flushed_to_shaped | done .. | exact Hst' | done] | |].
    + intros [] s2 [Hfl2 Hst2]. split; [by eapply flushed_to_trans |]. eapply stored_ext; [exact Hst2 |]. intros q Hq. cbn beta.
      rewrite len_app, len_single. rewrite (decide_False (P := len pre < len pre)) by lia.
      destruct (decide (q = len pre)) as [-> |]; [by rewrite decide_True by lia |].
      destruct (decide (q < len pre)); [by rewrite decide_True by lia | by rewrite decide_False by lia].
    + intros e s2 [-> Hfl2]. split; [done |]. by eapply flushed_to_trans.
  - intros [] s' [Hfl Hst']. split; [done |]. eapply stored_ext; [exact Hst' |]. intros q Hq. cbn beta.
    unfold len. rewrite length_range, decide_True by lia. unfold in_part. by rewrite filter_app.
Qed.

(** ** A writer between two keys *)

(** What writer [w] may do to the shared buffer. *)
Record touched (w : Z) (u u' : unsortedBuffer) : Prop := {
  to_shaped : shaped g u -> shaped g u';
  to_next : nextWriterID u' = nextWriterID u;
  to_slots : readSlots u' = readSlots u;
  to_merged : mergedBlockCounts u' = mergedBlockCounts u;
  to_flushed : u_flushed u = true -> u_flushed u' = true;
  to_files : forall i, i <> Z.to_nat w -> writerFiles u' !! i = writerFiles u !! i;
  to_rows : forall i, i <> Z.to_nat w -> writerCursors u' !! i = writerCursors u !! i
}.

Lemma touched_refl w u : touched w u u.
Proof. by split. Qed.

Lemma touched_trans w u1 u2 u3 : touched w u1 u2 -> touched w u2 u3 -> touched w u1 u3.
Proof.
  intros [] []. split; try congruence; auto.
  - intros i Hi. rewrite to_files1 by done. by apply to_files0.
  - intros i Hi. rewrite to_rows1 by done. by apply to_rows0.
Qed.

Lemma flushed_to_touched w s s' : flushed_to w s s' -> touched w s.1 s'.1.
Proof.
  intros H. split; [by apply flushed_to_shaped with (1 := H) | ..]; destruct H as (fs & cs & buf & bcs & -> & _ & _ & Hi); try done; intros i Hne; by apply Hi.
Qed.

Lemma touched_set_flushed w u : touched w u (set_flushed u).
Proof. split; try done. by intros []. Qed.

(** Writer [w]: [W] is in its file, [F] in the buffer being flushed, [A] in the
    active one. *)
Record winv (w : Z) (s : wst) (W F A : list bufferedEntry) : Prop := {
  wi_shaped : shaped g s.1;
  wi_id : writerID s.2 = w;
  wi_err : flushErr s.2 = None;
  wi_cap : 0 < regionCap s.2;
  wi_stored : stored w s (fun p => in_part g p W);
  wi_active : buf_ok (regionCap s.2) (sel (activeBuf s.2) (flatBufs s.2)) (sel (activeBuf s.2) (cursorSets s.2)) A;
  wi_other : len (sel (negb (activeBuf s.2)) (flatBufs s.2)) = regionCap s.2 * g_parts g /\
    len (sel (negb (activeBuf s.2)) (cursorSets s.2)) = g_parts g;
  wi_flushing : match flushing s.2 with
    | None => F = []
    | Some b => b = negb (activeBuf s.2) /\ buf_ok (regionCap s.2) (sel b (flatBufs s.2)) (sel b (cursorSets s.2)) F
    end;
  wi_total : totalBuffered s.2 = len A;
  wi_untouched : u_flushed s.1 = false -> W = [] /\ F = [] /\ flushing s.2 = None
}.

(** A writer whose flush failed has nothing under way, and remembers the error. *)
Definition gave_up (w : Z) (s : wst) (e : error) (s' : wst) : Prop :=
  e = ErrOther /\ touched w s.1 s'.1 /\ flushing s'.2 = None /\ flushErr s'.2 = Some ErrOther.

Lemma winv_touched w w' u u' ws W F A : 0 <= w -> 0 <= w' -> w <> w' -> touched w' u u' -> winv w (u, ws) W F A -> winv w (u', ws) W F A.
Proof.
  intros Hw Hw' Hne Ht []. assert (Z.to_nat w <> Z.to_nat w') as Hn by lia. split; try done; cbn [fst snd] in *.
  - by eapply to_shaped.
  - destruct wi_stored0 as [Hf Hc Hb]. split; cbn [fst snd] in *; [by rewrite (to_files _ _ _ Ht) | by rewrite (to_rows _ _ _ Ht) | done].
  - intros Hu. apply wi_untouched0. pose proof (to_flushed _ _ _ Ht). destruct (u_flushed u); [rewrite Hu in *; by intuition | done].
Qed.

Lemma buf_ok_clear rc (flat : list bufferedEntry) (cursors : list Z) : 0 < rc -> len flat = rc * g_parts g -> len cursors = g_parts g -> buf_ok rc flat (make 0 (len cursors)) [].
Proof using Hg.
  intros Hrc Hf Hc. pose proof (go_parts _ Hg). split; [done | rewrite len_make; lia |]. intros p Hp. unfold in_part. rewrite filter_nil.
  split_and!; [| rewrite len_nil; lia | done]. unfold make. apply lookup_replicate_2. lia.
Qed.

Lemma buf_ok_add rc flat cursors A e n : buf_ok rc flat cursors A -> n = len (in_part g (part_id g e) A) -> n < rc ->
  buf_ok rc (<[Z.to_nat (part_id g e * rc + n) := e]> flat) (<[Z.to_nat (part_id g e) := n + 1]> cursors) (A ++ [e]).
Proof using Hg.
  intros [Hf Hc Hp] -> Hlt. pose proof (part_id_bound g Hg e) as Hb. set (q := part_id g e) in *. pose proof (len_nonneg (in_part g q A)).
  split; [by rewrite len_insert | by rewrite len_insert |]. intros p Hpp. destruct (Hp p Hpp) as (Hcp & Hle & Hw). rewrite in_part_snoc. fold q.
  destruct (decide (q = p)) as [<- | Hne].
  - rewrite list_lookup_insert_eq by (unfold len in Hc; lia). rewrite len_app, len_single. split; [done |]. split; [lia |].
    rewrite length_app. cbn [length]. apply list_eq. intros i. rewrite lookup_window. unfold len in *.
    destruct (decide (i < length (in_part g q A))%nat) as [Hi | Hi].
    + rewrite decide_True by lia. rewrite list_lookup_insert_ne by nia. rewrite lookup_app_l by done.
      rewrite <- (f_equal (fun l => l !! i) Hw). by rewrite lookup_window, decide_True.
    + destruct (decide (i = length (in_part g q A))) as [-> | Hi'].
      * rewrite decide_True by lia. rewrite lookup_app_r, Nat.sub_diag by lia.
        replace (Z.to_nat (q * rc) + length (in_part g q A))%nat with (Z.to_nat (q * rc + Z.of_nat (length (in_part g q A)))) by nia.
        by rewrite list_lookup_insert_eq by nia.
      * rewrite decide_False by lia. symmetry. apply lookup_ge_None. rewrite length_app. cbn. lia.
  - rewrite app_nil_r. rewrite list_lookup_insert_ne by lia. split; [done |]. split; [done |]. etransitivity; [| exact Hw]. apply list_eq. intros i. rewrite !lookup_window.
    case_decide as Hi; [| done]. apply list_lookup_insert_ne. unfold len in *. destruct (decide (q < p)); nia.
Qed.

(** Waiting for the flush under way. *)
Lemma wait_flush_spec w s W F A : 0 <= w -> winv w s W F A ->
  wps wait_flush s
    (fun _ s' => touched w s.1 s'.1 /\ flushing s'.2 = None /\ u_flushed s'.1 = u_flushed s.1 /\
       match flushErr s'.2 with None => winv w s' (W ++ F) [] A | Some e => e = ErrOther end) (fun _ _ => False).
Proof using Hg.
  intros Hw Hinv. pose proof Hinv as []. unfold wait_flush. apply wps_bind, wps_gets. cbn [id]. destruct (flushing s.2) as [b |] eqn:Hfl.
  2:{ apply wps_ret. rewrite wi_err0. split; [apply touched_refl |]. split; [done |]. split; [done |]. subst F. by rewrite app_nil_r. }
  destruct wi_flushing0 as [-> HF]. apply wps_bind, wps_attempt.
  eapply wps_mono; [apply (doFlush_spec w s W _ F); done | |].
  - intros [] s' [Hto Hst]. apply wps_modify. pose proof (flushed_to_touched _ _ _ Hto) as Ht.
    split; [exact Ht |]. split; [done |]. split; [destruct Hto as (? & ? & ? & ? & -> & _); done |]. cbn [flushErr snd on_ws set_flushing].
    destruct Hto as (fs & cs & buf & bcs & -> & Hlf & Hlc & _). split; cbn; try done; [by apply Ht | by destruct Hst; split |].
    intros Hu. by destruct (wi_untouched0 Hu) as (-> & -> & _).
  - intros e s' [-> Hto]. apply wps_modify. split; [exact (flushed_to_touched _ _ _ Hto) |]. by destruct Hto as (? & ? & ? & ? & -> & _).
Qed.

Lemma wps_flush w s W F A : 0 <= w -> winv w s W F A ->
  wps flush s
    (fun _ s' => touched w s.1 s'.1 /\ exists W' F', winv w s' W' F' [] /\ W' ++ F' = W ++ F ++ A)
    (gave_up w s).
Proof using Hg.
  intros Hw Hinv. unfold flush. apply wps_bind. eapply wps_mono; [by eapply wait_flush_spec | | by intros e s' []].
  intros [] s1 (Ht & Hfl & Hflag & H1). apply wps_bind, wps_gets. cbn [id]. destruct (flushErr s1.2) as [e |] eqn:He.
  { apply wps_fail. by subst e. }
  pose proof H1 as []. destruct (Z.eqb_spec (totalBuffered s1.2) 0) as [Hz | Hz].
  { apply wps_ret. split; [done |]. rewrite wi_total0 in Hz. destruct A; [| rewrite len_cons in Hz; pose proof (len_nonneg A); lia].
    exists (W ++ F), []. split; [done |]. by rewrite !app_nil_r. }
  apply wps_bind, wps_modify, wps_bind, wps_modify, wps_bind, wps_modify, wps_modify. split.
  { eapply touched_trans; [exact Ht |]. apply touched_set_flushed. }
  exists (W ++ F), A. split; [| by rewrite <- app_assoc].
  destruct s1 as [u ws]. cbn [fst snd on_u on_ws set_flushing set_buffers set_active flatBufs cursorSets activeBuf regionCap flushErr totalBuffered flushing writerID] in *.
  destruct wi_other0 as [Hof Hoc].
  split; cbn [fst snd on_u on_ws set_flushing set_buffers set_active flatBufs cursorSets activeBuf regionCap flushErr totalBuffered flushing writerID]; try done.
  - destruct wi_shaped0. by split.
  - destruct wi_stored0 as [Hf Hc Hb]. by split.
  - pose proof (buf_ok_clear (regionCap ws) _ _ wi_cap0 Hof Hoc) as Hk. by destruct (activeBuf ws), (cursorSets ws), (flatBufs ws).
  - rewrite negb_involutive. destruct wi_active0. by destruct (activeBuf ws), (cursorSets ws), (flatBufs ws).
  - rewrite negb_involutive. split; [done |]. by destruct (activeBuf ws), (cursorSets ws), (flatBufs ws).
Qed.

Lemma active_cursor w s W F A p : winv w s W F A -> 0 <= p < g_parts g ->
  idx (sel (activeBuf s.2) (cursorSets s.2)) p = Ok (len (in_part g p A)).
Proof. intros [] Hp. destruct (bk_part _ _ _ _ wi_active0 p Hp) as [Hc _]. apply idx_ok. by split; [lia |]. Qed.

Lemma sel_put {A} b (x : A) (p : A * A) : sel b (put b x p) = x.
Proof. by destruct b. Qed.
Lemma sel_put_other {A} b (x : A) (p : A * A) : sel (negb b) (put b x p) = sel (negb b) p.
Proof. by destruct b, p. Qed.

(** An entry stored where there is room. *)
Lemma winv_store w s W F A e : winv w s W F A -> len (in_part g (part_id g e) A) < regionCap s.2 ->
  let a := activeBuf s.2 in let p := part_id g e in let n := len (in_part g p A) in
  winv w (on_ws (fun ws => set_buffers (put a (<[Z.to_nat (p * regionCap s.2 + n) := e]> (sel a (flatBufs s.2))) (flatBufs ws))
     (put a (<[Z.to_nat p := n + 1]> (sel a (cursorSets s.2))) (cursorSets ws)) (totalBuffered ws + 1) ws) s) W F (A ++ [e]).
Proof using Hg.
  intros [] Hlt a p n. split; cbn [fst snd on_ws set_buffers flatBufs cursorSets activeBuf regionCap flushErr totalBuffered flushing writerID]; try done.
  - destruct wi_stored0. by split.
  - fold a. rewrite !sel_put. by apply buf_ok_add.
  - fold a. rewrite !sel_put_other. done.
  - destruct (flushing s.2) as [b |]; [| done]. destruct wi_flushing0 as [-> HF]. split; [done |]. fold a. by rewrite !sel_put_other.
  - rewrite wi_total0, len_app, len_single. lia.
Qed.

Lemma addKey_spec w s W F A e : 0 <= w -> winv w s W F A ->
  wps (ws_addKey (be_k0 e) (be_k1 e) (be_payload e) (block_id g e)) s
    (fun _ s' => touched w s.1 s'.1 /\ exists W' F' A', winv w s' W' F' A' /\ W' ++ F' ++ A' = (W ++ F ++ A) ++ [e])
    (gave_up w s).
Proof using Hg.
  intros Hw Hinv. pose proof (part_id_bound g Hg e) as Hp. unfold ws_addKey. apply wps_bind, wps_gets. cbn [id].
  rewrite (sh_bpp _ _ (wi_shaped _ _ _ _ _ Hinv)), (u32_id (g_bpp g)) by (pose proof (go_bpp _ Hg); unfold is_u; lia).
  change (block_id g e / g_bpp g) with (part_id g e). set (p := part_id g e) in *.
  rewrite (active_cursor w s W F A p Hinv Hp). apply wps_bind, wps_lift, wp_ok.
  assert (wps (if regionCap s.2 <=? len (in_part g p A) then flush else mret tt) s
    (fun _ s1 => touched w s.1 s1.1 /\ exists W' F' A', winv w s1 W' F' A' /\ W' ++ F' ++ A' = W ++ F ++ A /\ len (in_part g p A') < regionCap s1.2)
    (gave_up w s)) as Hroom.
  { destruct (Z.leb_spec (regionCap s.2) (len (in_part g p A))) as [Hfull | Hok].
    - eapply wps_mono; [by eapply wps_flush | | done]. intros [] s1 (Ht & W' & F' & H1 & Heq). split; [done |]. exists W', F', [].
      split; [done |]. rewrite app_nil_r. split; [done |]. unfold in_part. rewrite filter_nil, len_nil. apply H1.
    - apply wps_ret. split; [apply touched_refl |]. by exists W, F, A. }
  apply wps_bind. eapply wps_mono; [exact Hroom | | done]. intros [] s1 (Ht & W' & F' & A' & H1 & Heq & Hlt).
  unfold storeEntry. apply wps_bind, wps_gets. cbn [id]. rewrite (active_cursor w s1 W' F' A' p H1 Hp). apply wps_bind, wps_lift, wp_ok.
  destruct (wi_active _ _ _ _ _ H1) as [Hfl Hcl _]. pose proof (len_nonneg (in_part g p A')).
  rewrite !upd_in_range by (rewrite ?Hfl, ?Hcl; nia). apply wps_bind, wps_lift, wp_ok, wps_bind, wps_lift, wp_ok.
  apply wps_bind, wps_modify. pose proof (winv_store w s1 W' F' A' e H1 Hlt) as H2. cbv zeta in H2. fold p in H2.
  replace (mk_buffered (be_k0 e) (be_k1 e) (be_payload e)) with e by by destruct e.
  match type of H2 with winv _ ?x _ _ _ => set (s2 := x) in * end. assert (touched w s.1 s2.1) as Ht2 by exact Ht.
  apply wps_bind, wps_gets. cbn [id]. destruct (bufferCap s2.2 <=? totalBuffered s2.2).
  - eapply wps_mono; [exact (wps_flush w s2 W' F' (A' ++ [e]) Hw H2) | |].
    + intros [] s3 (Ht3 & W3 & F3 & H3 & Heq3). split; [by eapply touched_trans |]. exists W3, F3, []. split; [done |].
      rewrite app_nil_r, Heq3, <- Heq, <- !app_assoc. done.
    + intros e' s3 (-> & Ht3 & Hf3). split; [done |]. split; [by eapply touched_trans | exact Hf3].
  - apply wps_ret. split; [done |]. exists W', F', (A' ++ [e]). split; [done |]. rewrite <- Heq, <- !app_assoc. done.
Qed.

(** All a writer was given is in its file. *)
Record flushed_out (w : Z) (s : wst) (es : list bufferedEntry) : Prop := {
  fl_shaped : shaped g s.1;
  fl_id : writerID s.2 = w;
  fl_flushing : flushing s.2 = None;
  fl_stored : stored w s (fun p => in_part g p es);
  fl_untouched : u_flushed s.1 = false -> es = []
}.

Lemma flushAll_spec w s W F A : 0 <= w -> winv w s W F A ->
  wps flushAll s (fun _ s' => touched w s.1 s'.1 /\ flushed_out w s' (W ++ F ++ A) /\ (W ++ F ++ A = [] -> u_flushed s'.1 = u_flushed s.1))
    (fun e s' => e = ErrOther /\ touched w s.1 s'.1 /\ flushing s'.2 = None).
Proof using Hg.
  intros Hw Hinv. unfold flushAll. apply wps_bind. eapply wps_mono; [by eapply wait_flush_spec | | by intros e s' []].
  intros [] s1 (Ht & Hfl & Hflag & H1). apply wps_bind, wps_gets. cbn [id]. destruct (flushErr s1.2) as [e |] eqn:He.
  { apply wps_fail. by subst e. }
  pose proof H1 as []. destruct (Z.eqb_spec (totalBuffered s1.2) 0) as [Hz | Hz].
  { apply wps_ret. split; [done |]. rewrite wi_total0 in Hz. destruct A; [| rewrite len_cons in Hz; pose proof (len_nonneg A); lia].
    rewrite app_nil_r. split; [| done]. split; try done. intros Hu. by apply wi_untouched0. }
  apply wps_bind, wps_modify. pose proof (touched_set_flushed w s1.1) as Htf.
  eapply wps_mono; [apply (doFlush_spec w (on_u set_flushed s1) (W ++ F) _ A); try done | |].
  - destruct wi_shaped0. by split.
  - destruct wi_stored0. by split.
  - intros [] s2 [Hto Hst]. pose proof (flushed_to_touched _ _ _ Hto) as Ht2.
    assert (touched w s.1 s2.1) as Ht' by (eapply touched_trans; [exact Ht | eapply touched_trans; [exact Htf | exact Ht2]]).
    split; [done |]. rewrite <- app_assoc in Hst. split; [| intros H0; apply app_nil in H0 as [_ [_ ->]%app_nil]; by rewrite wi_total0 in Hz].
    split; [apply Ht', Hinv | | | exact Hst |].
    + destruct Hto as (fs & cs & buf & bcs & -> & _). done.
    + destruct Hto as (fs & cs & buf & bcs & -> & _). done.
    + rewrite (to_flushed _ _ _ Ht2); done.
  - intros e s2 [-> Hto]. split; [done |]. split.
    + eapply touched_trans; [exact Ht |]. eapply touched_trans; [exact Htf |]. exact (flushed_to_touched _ _ _ Hto).
    + destruct Hto as (fs & cs & buf & bcs & -> & _). done.
Qed.

(** After a failed flush nothing more is written. *)
Lemma flushAll_gave_up s (Q : unit -> wst -> Prop) : flushing s.2 = None -> flushErr s.2 = Some ErrOther ->
  wps flushAll s Q (fun e s' => e = ErrOther /\ s' = s).
Proof.
  intros Hf He. unfold flushAll, wait_flush. apply wps_bind, wps_bind, wps_gets. cbn [id]. rewrite Hf. apply wps_ret, wps_bind, wps_gets. cbn [id].
  rewrite He. by apply wps_fail.
Qed.

Lemma flushed_out_touched w w' u u' ws es : 0 <= w -> 0 <= w' -> w <> w' -> touched w' u u' -> flushed_out w (u, ws) es -> flushed_out w (u', ws) es.
Proof.
  intros Hw Hw' Hne Ht []. assert (Z.to_nat w <> Z.to_nat w') as Hn by lia. split; try done; cbn [fst snd] in *.
  - by eapply to_shaped.
  - destruct fl_stored0 as [Hf Hc Hb]. split; cbn [fst snd] in *; [by rewrite (to_files _ _ _ Ht) | by rewrite (to_rows _ _ _ Ht) | done].
  - intros Hu. apply fl_untouched0. pose proof (to_flushed _ _ _ Ht). destruct (u_flushed u); [rewrite Hu in *; by intuition | done].
Qed.
End flush.

(** ** A new buffer and its writers *)
Definition layout_geometry (cfg : buildConfig) (numBlocks numWriters : Z) : geometry :=
  let numWriters := Z.max numWriters 1 in
  let numPartitions := layout_partitions (totalKeys cfg) numBlocks in
  let blocksPerPart := layout_blocksPerPart numBlocks numPartitions in
  mk_geometry cfg numBlocks numPartitions blocksPerPart numWriters
    (layout_regionEntries (totalKeys cfg) numBlocks numWriters blocksPerPart * (MinKeySize + payloadSize cfg)).

Section new.
Context `{HO : !OS} `{HT : !Temp} (g : geometry) (Hg : geometry_ok g).

(** No writer has the id [w] yet. *)
Definition unused (w : Z) (u : unsortedBuffer) : Prop :=
  (exists f, writerFiles u !! Z.to_nat w = Some (Some f)) /\ writerCursors u !! Z.to_nat w = Some (make 0 (g_parts g)).

Lemma osTruncate_fails n f : wps (osTruncate n) f (fun _ _ => True) (fun e _ => e = ErrOther).
Proof. unfold osTruncate. destruct (n <? 0); [done |]. apply wps_sysCall. by split. Qed.

Lemma createWriterFile_spec n f : wps (createWriterFile n) f (fun _ _ => True) (fun e _ => e = ErrOther).
Proof.
  unfold createWriterFile, openWriterFile, osCreate. apply wps_bind, wps_sysCall. split; [| by intros].
  apply wps_bind, wps_attempt, wps_bind.
  assert (forall s, wps (preallocFile n) s (fun _ _ => True) (fun e _ => e = ErrOther)) as Hpre.
  { intros s. unfold preallocFile. destruct prealloc_grows; [apply osTruncate_fails |]. apply wps_sysCall. by split. }
  assert (forall e s, e = ErrOther -> wps (_ ← attempt osClose; fail (A := unit) e) s (fun _ _ => True) (fun e _ => e = ErrOther)) as Hclose.
  { intros e s ->. apply wps_bind, wps_attempt. apply wps_sysCall. split; intros; by apply wps_fail. }
  eapply wps_mono; [apply Hpre | | intros e s He; by apply Hclose]. intros [] s _. unfold unlinkWhileOpen. apply wps_sysCall.
  split; [by apply wps_ret |]. intros k _. by apply Hclose.
Qed.

Lemma createWriterFiles_spec u : shaped g u -> (forall w, 0 <= w < g_writers g -> writerCursors u !! Z.to_nat w = Some (make 0 (g_parts g))) ->
  wps createWriterFiles u
    (fun _ u' => shaped g u' /\ (forall w, 0 <= w < g_writers g -> unused w u') /\ nextWriterID u' = nextWriterID u /\ u_flushed u' = u_flushed u)
    (fun e _ => e = ErrOther).
Proof.
  intros Hu Hrows. unfold createWriterFiles. apply wps_bind, wps_gets. cbn [id]. destruct mkdir_temp_ok; cbn [negb]; [| by apply wps_fail].
  rewrite (sh_writers _ _ Hu). eapply wps_mono; [apply (wps_forM (fun pre u' => shaped g u' /\ writerCursors u' = writerCursors u /\
     (forall w, 0 <= w < len pre -> exists f, writerFiles u' !! Z.to_nat w = Some (Some f)) /\ nextWriterID u' = nextWriterID u /\ u_flushed u' = u_flushed u)
     (fun e _ => e = ErrOther)) | | done].
  - split_and!; try done. intros w Hw. unfold len in Hw. cbn in Hw. lia.
  - intros pre w post u' Heq (Hs & Hc & Hf & Hn & Hfl). apply range_prefix in Heq as [-> Hw].
    pose proof (createWriterFile_spec (regionSize u * numPartitions u) (mk_osfile None false false (temp_calls (Z.to_nat (len pre))))) as Hone. unfold wps in Hone.
    destruct (createWriterFile _ _) as [[f [[] | e]] | |]; try done.
    apply wps_bind, wps_gets, wps_bind, wps_lift. cbn [id]. rewrite upd_in_range by (rewrite (sh_files _ _ Hs); lia). apply wp_ok, wps_modify.
    split; [destruct Hs; split; cbn; try done; by rewrite len_insert |]. split; [done |]. split; [| done].
    intros v Hv. rewrite len_app, len_single in Hv. cbn [writerFiles set_files]. pose proof (sh_files _ _ Hs) as Hl. destruct (decide (v = len pre)) as [-> | Hne].
    + exists f. apply list_lookup_insert_eq. unfold len in *. lia.
    + rewrite list_lookup_insert_ne by lia. apply Hf. lia.
  - intros [] u' (Hs & Hc & Hf & Hn & Hfl). split; [done |]. split; [| done]. intros w Hw. split.
    + apply Hf. unfold len. rewrite length_range. lia.
    + rewrite Hc. by apply Hrows.
Qed.

Lemma newWriterState_spec u : shaped g u -> unused (nextWriterID u) u -> 0 <= nextWriterID u < g_writers g -> u_flushed u = false ->
  wps newWriterState u (fun ws u' => u' = set_nextWriterID (nextWriterID u + 1) u /\ winv g (nextWriterID u) (u', ws) [] [] []) (fun _ _ => False).
Proof using Hg.
  intros Hs [(f & Hf) Hrow] Hid Hfl. pose proof Hs as []. pose proof (go_parts _ Hg). pose proof (go_bpp _ Hg). pose proof (go_region _ Hg). unfold newWriterState. apply wps_bind, wps_gets. cbn [id].
  destruct (Z.leb_spec (numWriters u) (nextWriterID u)); [lia |]. apply wps_bind, wps_modify, wps_ret. split; [done |].
  rewrite sh_parts0, sh_bpp0. set (rc := Z.max _ 1). assert (0 < rc) by (unfold rc; lia).
  split; cbn [fst snd regionCap writerID flushErr flushing activeBuf flatBufs cursorSets sel negb totalBuffered]; try done.
  - split; cbn [fst snd writerFiles writerCursors blockCounts set_nextWriterID].
    + exists f. split; [done |]. intros p Hp. apply holds_nil. nia.
    + exists (make 0 (g_parts g)). split; [done |]. split; [apply len_make; lia |]. intros p Hp. change (in_part g p []) with (@nil bufferedEntry).
      change (len (@nil bufferedEntry)) with 0. split; [apply lookup_replicate_2; lia | lia].
    + split; [apply len_make; lia |]. intros p Hp. exists (make 0 (g_bpp g)). split; [apply lookup_replicate_2; lia |].
      split; [apply len_make; lia |]. intros j Hj. unfold in_block, in_part. rewrite !filter_nil. apply lookup_replicate_2. lia.
  - pose proof (buf_ok_clear g Hg rc (make zero_entry (rc * g_parts g)) (make 0 (g_parts g)) ltac:(done)) as Hb.
    rewrite !len_make in Hb by nia. by apply Hb.
  - rewrite !len_make by nia. done.
Qed.
End new.

Lemma newUnsortedBuffer_spec `{HO : !OS} `{HT : !Temp} cfg nb nw :
  let g := layout_geometry cfg nb nw in geometry_ok g ->
  wp (newUnsortedBuffer cfg nb nw)
    (fun u => shaped g u /\ (forall w, 0 <= w < g_writers g -> unused g w u) /\ nextWriterID u = 0 /\ u_flushed u = false)
    (fun e => e = ErrOther).
Proof.
  intros g Hg. unfold newUnsortedBuffer. set (u := mk_ubuf _ _ _ _ _ _ _ _ _ _ _ _ _). pose proof (go_parts _ Hg) as Hp.
  pose proof (createWriterFiles_spec g u) as H. unfold wps in H. assert (0 < Z.max nw 1) by lia.
  destruct (createWriterFiles u) as [[u' [[] | e]] | |]; cbn; first [apply H | exfalso; apply H].
  all: try (split; cbn; try done; apply len_make; lia).
  all: intros w Hw; apply lookup_replicate_2; cbn in Hw; lia.
Qed.
