(* ===== verification/UnsortedCommute.v ===== *)
(** * The background flush may run at any time

    [wait_flush] performs a flush when the writer waits for it. Here: performing
    it earlier, before keys are added to the other buffer, makes no difference, so
    the moment chosen stands for every schedule of the flushing goroutine. *)
From S2P Require Import Prelude Words Bits Encoding Key Floats Header Algorithm Index File Options Builder SortedBuild UnsortedBuffer UnsortedWrite.
#[local] Open Scope Z_scope.

Section commute.
Context `{HO : !OS}.

(** [m] neither sees nor undoes the change [h]. *)
Definition commutes {S A} (h : S -> S) (m : stM S A) : Prop := forall s,
  m (h s) = match m s with Ok (s', r) => Ok (h s', r) | Err e => Err e | Panic => Panic end.

Lemma commutes_ret {S A} (h : S -> S) (a : A) : commutes h (mret a).
Proof. done. Qed.
Lemma commutes_fail {S A} (h : S -> S) e : commutes h (fail (A := A) e).
Proof. done. Qed.
Lemma commutes_lift {S A} (h : S -> S) (m : res A) : commutes h (lift m).
Proof. intros s. unfold lift. by destruct m. Qed.
Lemma commutes_modify {S} (h f : S -> S) : (forall s, f (h s) = h (f s)) -> commutes h (modify f).
Proof. intros H s. unfold modify. by rewrite H. Qed.
Lemma commutes_bind {S A B} (h : S -> S) (m : stM S A) (k : A -> stM S B) : commutes h m -> (forall a, commutes h (k a)) -> commutes h (m ≫= k).
Proof.
  intros Hm Hk s. unfold mbind, stM_bind. rewrite Hm. destruct (m s) as [[s' [a | e]] | |]; [apply Hk | done | done | done].
Qed.
(** Reading the state, where what is done next does not depend on [h]. *)
Lemma commutes_gets {S A} (h : S -> S) (k : S -> stM S A) : (forall s, k (h s) = k s) -> (forall s, commutes h (k s)) -> commutes h (gets id ≫= k).
Proof. intros He Hk s. unfold mbind, stM_bind, gets. cbn [id]. rewrite He. apply Hk. Qed.
Lemma commutes_forM {S A} (h : S -> S) (f : A -> stM S unit) l : (forall a, commutes h (f a)) -> commutes h (forM f l).
Proof. intros Hf. induction l as [| a l IH]; [done |]. cbn [forM]. apply commutes_bind; [apply Hf | done]. Qed.
Lemma commutes_if {S A} (h : S -> S) (b : bool) (m k : stM S A) : commutes h m -> commutes h k -> commutes h (if b then m else k).
Proof. by destruct b. Qed.

Lemma stM_bind_assoc {S A B C} (m : stM S A) (k : A -> stM S B) (n : B -> stM S C) s : ((m ≫= k) ≫= n) s = (m ≫= fun a => k a ≫= n) s.
Proof. unfold mbind, stM_bind. by destruct (m s) as [[s' [a | e]] | |]. Qed.

Lemma stM_bind_ext {S A B} (m m' : stM S A) (k k' : A -> stM S B) s s' : m s = m' s' -> (forall a s, k a s = k' a s) -> (m ≫= k) s = (m' ≫= k') s'.
Proof. intros Hm Hk. unfold mbind, stM_bind. rewrite Hm. destruct (m' s') as [[s2 [a | e]] | |]; [apply Hk | done ..]. Qed.

(** Changing the buffers, as adding a key does. *)
Definition rebuffer (f : list bufferedEntry * list bufferedEntry) (c : list Z * list Z) (n : Z) : wst -> wst := on_ws (set_buffers f c n).

Context (f : list bufferedEntry * list bufferedEntry) (c : list Z * list Z) (n : Z).

Lemma writeTo_commutes w data off : commutes (rebuffer f c n) (writeTo w data off).
Proof.
  unfold writeTo. apply commutes_gets; [done |]. intros s. apply commutes_bind; [apply commutes_lift |]. intros [o |]; [| done].
  apply commutes_bind; [apply commutes_lift |]. intros [o' r]. apply commutes_bind; [apply commutes_lift |]. intros fs.
  apply commutes_bind; [by apply commutes_modify |]. intros []. by destruct r.
Qed.

Lemma flushPartition_commutes cursors flat p : commutes (rebuffer f c n) (flushPartition cursors flat p).
Proof.
  unfold flushPartition. apply commutes_bind; [apply commutes_lift |]. intros k. apply commutes_if; [done |].
  apply commutes_gets; [done |]. intros s. cbv zeta. apply commutes_bind; [apply commutes_lift |]. intros es.
  apply commutes_bind; [apply commutes_lift |]. intros bc. apply commutes_bind; [apply commutes_lift |]. intros [buf bc'].
  apply commutes_bind; [apply commutes_lift |]. intros bcs. apply commutes_bind; [by apply commutes_modify |]. intros [].
  apply commutes_bind; [apply commutes_lift |]. intros row. apply commutes_bind; [apply commutes_lift |]. intros cur.
  apply commutes_if; [done |]. apply commutes_bind; [apply commutes_lift |]. intros data.
  apply commutes_bind; [apply writeTo_commutes |]. intros []. apply commutes_gets; [done |]. intros s'.
  apply commutes_bind; [apply commutes_lift |]. intros row'. apply commutes_bind; [apply commutes_lift |]. intros row2.
  apply commutes_bind; [apply commutes_lift |]. intros cs. by apply commutes_modify.
Qed.

(** The flush under way does not see a change of the active buffer. *)
Lemma wait_flush_commutes s b :
  flushing s.2 = Some b -> sel b f = sel b (flatBufs s.2) -> sel b c = sel b (cursorSets s.2) ->
  wait_flush (rebuffer f c n s) = match wait_flush s with Ok (s', r) => Ok (rebuffer f c n s', r) | Err e => Err e | Panic => Panic end.
Proof.
  intros Hb Hf Hc. unfold wait_flush, mbind, stM_bind, gets. cbn [id rebuffer on_ws flushing snd set_buffers]. rewrite Hb.
  unfold attempt, doFlush, mbind, stM_bind, gets. cbn [id rebuffer on_ws cursorSets flatBufs fst snd set_buffers numPartitions]. rewrite Hf, Hc.
  pose proof (commutes_forM (rebuffer f c n) (flushPartition (sel b (cursorSets s.2)) (sel b (flatBufs s.2))) (range (numPartitions s.1))) as Hfor.
  specialize (Hfor (fun p => flushPartition_commutes _ _ p) s).
  match goal with |- context [forM ?F ?l (rebuffer f c n s)] => assert (forM F l (rebuffer f c n s) = _) as -> by exact Hfor end.
  match goal with |- context [forM ?F ?l s] => by destruct (forM F l s) as [[s' r] | |] end.
Qed.
End commute.

Section any_time.
Context `{HO : !OS} (g : geometry) (Hg : geometry_ok g) (w : Z) (Hw : 0 <= w).

(** What adding a key looks at. *)
Definition view (s : wst) :=
  (activeBuf s.2, flatBufs s.2, cursorSets s.2, regionCap s.2, totalBuffered s.2, bufferCap s.2, blocksPerPart s.1).

Lemma doFlush_view b : keeps view (doFlush b).
Proof.
  unfold doFlush. apply keeps_bind; [auto with keeps |]. intros s.
  enough (forall l, keeps view (forM (flushPartition (sel b (cursorSets s.2)) (sel b (flatBufs s.2))) l)) as H by apply H.
  induction l as [| p l IH]; cbn [forM]; [auto with keeps |]. apply keeps_bind; [| done].
  unfold flushPartition, writeTo. keeps_tac.
Qed.

Lemma wait_flush_view : keeps view wait_flush.
Proof.
  unfold wait_flush. apply keeps_bind; [auto with keeps |]. intros s. destruct (flushing s.2); [| auto with keeps].
  apply keeps_bind; [| intros; by apply keeps_modify]. intros s1 s2 r. unfold attempt.
  destruct (doFlush b s1) as [[s' r'] | |] eqn:H; [| done | done]. intros [= <- <-]. by eapply doFlush_view.
Qed.

Lemma wait_flush_none s : flushing s.2 = None -> wait_flush s = Ok (s, inl tt).
Proof. intros H. unfold wait_flush, mbind, stM_bind, gets. cbn [id]. by rewrite H. Qed.

Lemma flush_wait s s1 : wait_flush s = Ok (s1, inl tt) -> flushing s1.2 = None -> flush s = flush s1.
Proof. intros H1 Hn. unfold flush, mbind, stM_bind. by rewrite H1, (wait_flush_none s1). Qed.

(** Storing an entry where there is room. *)
Lemma store_eq s p e c fl cu : let a := activeBuf s.2 in
  idx (sel a (cursorSets s.2)) p = Ok c ->
  upd (sel a (flatBufs s.2)) (p * regionCap s.2 + c) e = Ok fl -> upd (sel a (cursorSets s.2)) p (c + 1) = Ok cu ->
  storeEntry p e s = (if bufferCap s.2 <=? totalBuffered s.2 + 1 then flush else mret tt)
    (rebuffer (put a fl (flatBufs s.2)) (put a cu (cursorSets s.2)) (totalBuffered s.2 + 1) s).
Proof.
  intros a Hc Hf Hcu. unfold storeEntry, mbind, stM_bind, gets, lift, modify. cbn [id]. fold a. by rewrite Hc, Hf, Hcu.
Qed.

(** The flush of a full region waits in any case. *)
Lemma addKey_full s s1 k0 k1 pl j c : let p := j / u32 (blocksPerPart s.1) in
  idx (sel (activeBuf s.2) (cursorSets s.2)) p = Ok c -> regionCap s.2 <= c ->
  wait_flush s = Ok (s1, inl tt) -> flushing s1.2 = None -> view s1 = view s ->
  ws_addKey k0 k1 pl j s = ws_addKey k0 k1 pl j s1.
Proof.
  intros p Hc Hle H1 Hn Hv. pose proof (flush_wait s s1 H1 Hn) as Hfl. injection Hv as Ha Hfb Hcs Hrc Ht Hb Hbp.
  unfold ws_addKey, mbind, stM_bind, gets, lift. cbn [id]. rewrite Ha, Hcs, Hrc, Hbp. fold p. rewrite Hc.
  destruct (Z.leb_spec (regionCap s.2) c); [| lia]. by rewrite Hfl.
Qed.

Lemma addKey_room s k0 k1 pl j c : let p := j / u32 (blocksPerPart s.1) in
  idx (sel (activeBuf s.2) (cursorSets s.2)) p = Ok c -> c < regionCap s.2 ->
  ws_addKey k0 k1 pl j s = storeEntry p (mk_buffered k0 k1 pl) s.
Proof.
  intros p Hc Hlt. unfold ws_addKey, mbind, stM_bind, gets, lift. cbn [id]. fold p. rewrite Hc.
  by destruct (Z.leb_spec (regionCap s.2) c); [lia |].
Qed.

(** The flush under way, before and after an entry is stored. *)
Lemma store_wait s s1 fs cs n b : flushing s.2 = Some b -> b = negb (activeBuf s.2) -> wait_flush s = Ok (s1, inl tt) -> flushing s1.2 = None ->
  let h := rebuffer (put (activeBuf s.2) fs (flatBufs s.2)) (put (activeBuf s.2) cs (cursorSets s.2)) n in
  forall (T : bool), ((if T then flush else mret tt) ≫= fun _ => wait_flush) (h s1) = ((if T then flush else mret tt) ≫= fun _ => wait_flush) (h s).
Proof.
  intros Hb Hba H1 Hn h T.
  assert (wait_flush (h s) = Ok (h s1, inl tt)) as Hh.
  { unfold h. rewrite (wait_flush_commutes _ _ _ s b) by (rewrite Hba, ?sel_put_other; congruence). by rewrite H1. }
  assert (wait_flush (h s1) = Ok (h s1, inl tt)) as Hh1 by by apply wait_flush_none.
  destruct T; unfold mbind, stM_bind; [by rewrite (flush_wait (h s) (h s1) Hh) | cbn; by rewrite Hh, Hh1].
Qed.

Lemma addKey_any_time s W F A e : winv g w s W F A ->
  (_ ← wait_flush; _ ← ws_addKey (be_k0 e) (be_k1 e) (be_payload e) (block_id g e); wait_flush) s =
  (_ ← ws_addKey (be_k0 e) (be_k1 e) (be_payload e) (block_id g e); wait_flush) s.
Proof using Hg Hw.
  intros Hinv. pose proof (wait_flush_spec g Hg w s W F A Hw Hinv) as Hwait. unfold wps in Hwait.
  destruct (wait_flush s) as [[s1 [[] | e']] | |] eqn:H1; try done. destruct Hwait as (_ & Hn & _ & _).
  pose proof (wait_flush_view _ _ _ H1) as Hv.
  transitivity ((_ ← ws_addKey (be_k0 e) (be_k1 e) (be_payload e) (block_id g e); wait_flush) s1).
  { unfold mbind at 1, stM_bind at 1. by rewrite H1. }
  pose proof (part_id_bound g Hg e) as Hp. assert (part_id g e = block_id g e / u32 (blocksPerPart s.1)) as Hpe.
  { rewrite (sh_bpp _ _ (wi_shaped _ _ _ _ _ _ Hinv)), u32_id; [done | pose proof (go_bpp _ Hg); unfold is_u; lia]. }
  pose proof (active_cursor g w s W F A _ Hinv Hp) as Hc. set (p := part_id g e) in *. set (c := len (in_part g p A)) in *.
  destruct (Z.le_gt_cases (regionCap s.2) c) as [Hfull | Hroom].
  { unfold mbind, stM_bind. by rewrite (addKey_full s s1 _ _ _ (block_id g e) c) by (done || by rewrite <- Hpe). }
  destruct (flushing s.2) as [b |] eqn:Hb; [| rewrite (wait_flush_none s Hb) in H1; by injection H1 as <-].
  pose proof (wi_flushing _ _ _ _ _ _ Hinv) as Hba. rewrite Hb in Hba. destruct Hba as [Hba _].
  destruct (wi_active _ _ _ _ _ _ Hinv) as [Hfl Hcl _]. pose proof (len_nonneg (in_part g p A)) as Hc0. fold c in Hc0.
  injection Hv as Ha Hfb Hcs Hrc Ht Hbc Hbp.
  match goal with |- (?m ≫= _) s1 = _ => transitivity ((m ≫= fun _ => wait_flush) s1); [done |] end.
  unfold mbind at 1 2, stM_bind at 1 2.
  rewrite (addKey_room s _ _ _ _ c), (addKey_room s1 _ _ _ _ c) by (rewrite ?Ha, ?Hcs, ?Hrc, ?Hbp, <- ?Hpe; done).
  rewrite Hbp, <- Hpe.
  rewrite (store_eq s p _ c (<[Z.to_nat (p * regionCap s.2 + c) := _]> (sel (activeBuf s.2) (flatBufs s.2))) (<[Z.to_nat p := c + 1]> (sel (activeBuf s.2) (cursorSets s.2))))
    by (try done; apply upd_in_range; rewrite ?Hfl, ?Hcl; nia).
  rewrite (store_eq s1 p _ c (<[Z.to_nat (p * regionCap s.2 + c) := _]> (sel (activeBuf s.2) (flatBufs s.2))) (<[Z.to_nat p := c + 1]> (sel (activeBuf s.2) (cursorSets s.2))))
    by (rewrite ?Ha, ?Hcs, ?Hfb, ?Hrc; try done; apply upd_in_range; rewrite ?Hfl, ?Hcl; nia).
  rewrite Ha, Hfb, Hcs, Ht, Hbc. by apply (store_wait s s1 _ _ _ b).
Qed.

(** A writer whose flush failed. *)
Definition failed (s : wst) : Prop := flushing s.2 = None /\ flushErr s.2 <> None.

Lemma flush_failed s s' : failed s -> flush s = Ok (s', inl tt) -> False.
Proof.
  intros [Hn He]. unfold flush, mbind, stM_bind. rewrite (wait_flush_none s Hn). unfold gets. cbn [id].
  by destruct (flushErr s.2).
Qed.

Lemma addKey_failed s s' k0 k1 pl j : failed s -> ws_addKey k0 k1 pl j s = Ok (s', inl tt) -> failed s'.
Proof.
  intros Hf. unfold ws_addKey, storeEntry, mbind, stM_bind, gets, lift. cbn [id].
  destruct (idx _ _) as [c | |]; [| done | done]. destruct (regionCap s.2 <=? c).
  { destruct (flush s) as [[s1 [[] | e]] | |] eqn:H; [| done ..]. by edestruct flush_failed. }
  unfold mret, stM_ret. destruct (idx _ _) as [c' | |]; [| done ..]. destruct (upd _ _ _) as [fl | |]; [| done ..].
  destruct (upd _ _ _) as [cu | |]; [| done ..]. unfold modify. destruct (_ <=? _); [| by intros [= <-]].
  intros H. edestruct flush_failed; [| exact H]. exact Hf.
Qed.

Lemma bind_wait (m : stM wst unit) (k : stM wst unit) s :
  (forall s', m s = Ok (s', inl tt) -> (_ ← wait_flush; k) s' = k s') -> (_ ← m; k) s = (_ ← (_ ← m; wait_flush); k) s.
Proof.
  intros H. unfold mbind, stM_bind in *. destruct (m s) as [[s' [[] | e]] | |]; [| done ..]. by rewrite <- H.
Qed.

(** C5: when the background flush runs does not matter: adding keys to a writer
    and waiting for its flush ends in the same state with the same error (or the
    same success) whether the flush under way is performed before the keys are
    added or only when the writer waits for it. *)
Theorem background_flush_any_time s W F A es : winv g w s W F A ->
  let add_all := forM (fun e => ws_addKey (be_k0 e) (be_k1 e) (be_payload e) (block_id g e)) es in
  (_ ← wait_flush; _ ← add_all; wait_flush) s = (_ ← add_all; wait_flush) s.
Proof using Hg Hw.
  cbv zeta. revert s W F A. induction es as [| e es IH]; intros s W F A Hinv.
  - pose proof (wait_flush_spec g Hg w s W F A Hw Hinv) as Hwait. unfold wps in Hwait. unfold mbind, stM_bind. cbn.
    destruct (wait_flush s) as [[s1 [[] | e']] | |] eqn:H1; try done. destruct Hwait as (_ & Hn & _ & _). by rewrite (wait_flush_none s1 Hn).
  - set (a1 := ws_addKey (be_k0 e) (be_k1 e) (be_payload e) (block_id g e)). cbn [forM].
    set (rest := forM (fun e => ws_addKey (be_k0 e) (be_k1 e) (be_payload e) (block_id g e)) es) in *. fold a1.
    set (k := _ ← rest; wait_flush). transitivity ((_ ← wait_flush; _ ← a1; k) s); [apply stM_bind_ext; [done | intros [] s0; apply stM_bind_assoc] |].
    transitivity ((_ ← a1; k) s); [| symmetry; apply stM_bind_assoc].
    pose proof (wait_flush_spec g Hg w s W F A Hw Hinv) as Hwait. unfold wps in Hwait.
    pose proof (addKey_any_time s W F A e Hinv) as Hone. fold a1 in Hone.
    destruct (wait_flush s) as [[s1 [[] | e']] | |] eqn:H1; try done. destruct Hwait as (_ & Hn & _ & Hs1).
    assert (forall s0 W0 F0 A0 s', winv g w s0 W0 F0 A0 -> a1 s0 = Ok (s', inl tt) -> (_ ← wait_flush; k) s' = k s') as Hnext.
    { intros s0 W0 F0 A0 s' H0 Hs'. pose proof (addKey_spec g Hg w s0 W0 F0 A0 e Hw H0) as Ha. unfold wps in Ha. fold a1 in Ha. rewrite Hs' in Ha.
      destruct Ha as (_ & W' & F' & A' & H' & _). by apply (IH s' W' F' A'). }
    assert ((_ ← wait_flush; _ ← a1; k) s = (_ ← a1; k) s1) as ->.
    { unfold mbind at 1, stM_bind at 1. by rewrite H1. }
    rewrite (bind_wait a1 k s) by (intros s'; by eapply Hnext). rewrite (bind_wait a1 k s1).
    + apply stM_bind_ext; [| done]. rewrite <- Hone. unfold mbind at 2, stM_bind at 2. by rewrite H1.
    + intros s' Hs'. destruct (flushErr s1.2) as [e1 |] eqn:He1; [| by eapply Hnext].
      assert (failed s') as [Hnone _] by (eapply addKey_failed; [| exact Hs']; split; [done | by rewrite He1]).
      unfold mbind at 1, stM_bind at 1. by rewrite (wait_flush_none s').
Qed.
End any_time.

(** A writer of one partition of one block, with a flush under way. *)
Definition example_entry : bufferedEntry := mk_buffered 3 5 77.
Definition example_geometry : geometry := mk_geometry (final_config 2 example_opts) 1 1 1 1 1000.
Definition example_buffer : unsortedBuffer :=
  mk_ubuf (final_config 2 example_opts) 1 20 1 1 1 1000 [Some (mk_osfile (Some []) true false 0)] [[0]] 1 [] [] true.
Definition example_writer : writerState :=
  mk_ws 0 ([zero_entry; zero_entry], [example_entry; zero_entry]) ([0], [1]) false 0 10 2 [] (Some true) None [[0]].

Lemma example_geometry_ok : geometry_ok example_geometry.
Proof. split; cbn; lia. Qed.

Lemma example_winv : winv example_geometry 0 (example_buffer, example_writer) [] [example_entry] [].
Proof.
  assert (forall p, 0 <= p < g_parts example_geometry -> p = 0) as H0 by (intros p Hp; cbn in Hp; lia).
  split; try done.
  - split.
    + eexists. split; [done |]. intros p ->%H0. by apply holds_nil.
    + eexists. split; [done |]. split; [done |]. by intros p ->%H0.
    + split; [done |]. intros p ->%H0. eexists. split; [done |]. split; [done |]. intros j Hj. cbn in Hj. by replace j with 0 by lia.
  - split; try done. by intros p ->%H0.
  - split; [done |]. split; try done. intros p ->%H0. by vm_compute.
Qed.

Lemma background_flush_any_time_witness :
  let add_all := forM (fun e => @ws_addKey quiet_os (be_k0 e) (be_k1 e) (be_payload e) (block_id example_geometry e)) [example_entry; mk_buffered 1 2 3] in
  (_ ← @wait_flush quiet_os; _ ← add_all; @wait_flush quiet_os) (example_buffer, example_writer) =
  (_ ← add_all; @wait_flush quiet_os) (example_buffer, example_writer).
Proof.
  apply (@background_flush_any_time quiet_os example_geometry example_geometry_ok 0 ltac:(reflexivity) (example_buffer, example_writer) [] [example_entry] []
    [example_entry; mk_buffered 1 2 3]).
  apply example_winv.
Defined.
