(* ===== verification/UnsortedRead.v ===== *)
(** * [builder_unsorted_finish.go]: reading the partitions back

    A partition's regions are read from every writer's file, one buffer full at a
    time, and its entries are scattered to their blocks: the block counts of the
    write phase say where in the slot's [flatBuf] each block begins. *)
From S2P Require Import Prelude Words Bits Encoding Key Floats Header Algorithm Index File Options Builder UnsortedBuffer.
#[local] Open Scope Z_scope.

Definition blockContextCheckInterval : Z := 64.

(** The local variables of [readRegion], the file and what [fn] has made. *)
Record region X := mk_region {
  rg_file : osfile; rg_buf : list Z; rg_pos : Z; rg_remaining : Z; rg_leftover : Z; rg_acc : X
}.
Arguments mk_region {X}. Arguments rg_file {X}. Arguments rg_buf {X}. Arguments rg_pos {X}.
Arguments rg_remaining {X}. Arguments rg_leftover {X}. Arguments rg_acc {X}.

Section read.
Context `{HO : !OS}.

(** ** A region, entry by entry *)

(** The inner loop of [readRegion]: whole entries go to [fn], the rest is left. *)
Fixpoint each_entry {X} (fuel : nat) (entrySize : Z) (fn : X -> list Z -> res X) (data : list Z) (x : X) : res (X * list Z) :=
  if len data <? entrySize then Ok (x, data)
  else
    match fuel with
    | O => Panic
    | S fuel =>
        e ← slice data 0 entrySize;
        x ← fn x e;
        data ← slice data entrySize (len data);
        each_entry fuel entrySize fn data x
    end.

Definition set_rg_file {X} (f : osfile) (s : region X) : region X :=
  mk_region f (rg_buf s) (rg_pos s) (rg_remaining s) (rg_leftover s) (rg_acc s).

Definition readRound {X} (entrySize : Z) (fn : X -> list Z -> res X) : stM (region X) unit :=
  s ← gets id;
  let toRead := Z.min (len (rg_buf s) - rg_leftover s) (rg_remaining s) in
  chunk ← zoom rg_file set_rg_file (osReadAt toRead (rg_pos s));
  buf ← lift (store (rg_buf s) (rg_leftover s) chunk);
  data ← lift (slice buf 0 (rg_leftover s + toRead));
  '(x, data) ← lift (each_entry (S (length data)) entrySize fn data (rg_acc s));
  buf ← lift (store buf 0 data);
  modify (fun s => mk_region (rg_file s) buf (rg_pos s + toRead) (rg_remaining s - toRead) (len data) x).

Definition readRegion {X} (entrySize : Z) (fn : X -> list Z -> res X) : stM (region X) unit :=
  s ← gets id;
  whileM (S (Z.to_nat (rg_remaining s))) (fun s => 0 <? rg_remaining s) (readRound entrySize fn).

(** ** Scattering to blocks *)

(** [flatBuf[blockCursors[i]] = e; blockCursors[i]++] *)
Definition scatter (s : list routedEntry * list Z) (i : Z) (e : routedEntry) : res (list routedEntry * list Z) :=
  c ← idx s.2 i;
  flat ← upd s.1 c e;
  cursors ← upd s.2 i (c + 1);
  Ok (flat, cursors).

Definition scatterEntry (payloadSize numBlocks partStartBlock : Z) (s : list routedEntry * list Z) (data : list Z) : res (list routedEntry * list Z) :=
  k0 ← get_le 8 data 0;
  k1 ← get_le 8 data 8;
  payload ← (if 0 <? payloadSize then tail ← slice data MinKeySize (len data); unpackPayloadFromBytes tail payloadSize else Ok 0);
  let localIdx := route k0 numBlocks - partStartBlock in
  scatter s localIdx (mk_routed k0 k1 payload).

(** Prefix sums of the counts: where each block begins, and how long it is; each
    [flatBuf[offset : offset+n]] must be inside. *)
Definition block_views (flat : list routedEntry) (counts : list Z) : res (list (Z * Z)) :=
  '(_, views) ← foldM (fun s n =>
      _ ← slice flat s.1 (s.1 + n);
      Ok (s.1 + n, s.2 ++ [(s.1, n)])) (0, []) counts;
  Ok views.

(** The entries of partition [p] in writer [w]'s file. *)
Definition readWriter (p slotIdx w : Z) : stM (unsortedBuffer * list Z) unit :=
  s ← gets id;
  let u := s.1 in
  row ← lift (idx (writerCursors u) w);
  regionBytes ← lift (idx row p);
  if regionBytes =? 0 then mret tt
  else
    f ← lift (idx (writerFiles u) w);
    match f with
    | None => fail ErrOther
    | Some f =>
        slot ← lift (idx (readSlots u) slotIdx);
        '(rg, r) ← lift (readRegion (u_entrySize u) (scatterEntry (payloadSize (u_cfg u)) (u_numBlocks u) (p * blocksPerPart u))
                     (mk_region f (readBuf slot) (p * regionSize u) regionBytes 0 (flatBuf slot, s.2)));
        fs ← lift (upd (writerFiles u) w (Some (rg_file rg)));
        slots ← lift (upd (readSlots u) slotIdx (mk_slot (rg_acc rg).1 (rg_buf rg)));
        _ ← modify (fun s => (set_slots slots (set_files fs s.1), (rg_acc rg).2));
        match r with inl _ => mret tt | inr e => fail e end
    end.

Definition put_buffer (x : unsortedBuffer * list Z) (_ : unsortedBuffer) : unsortedBuffer := x.1.

(** [readPartition]: the views of the blocks of partition [p] in the slot. *)
Definition readPartition (p slotIdx : Z) : stM unsortedBuffer (list (Z * Z)) :=
  u ← gets id;
  slot ← lift (idx (readSlots u) slotIdx);
  let partStartBlock := p * blocksPerPart u in
  let partEndBlock := Z.min (partStartBlock + blocksPerPart u) (u_numBlocks u) in
  let localBlocks := partEndBlock - partStartBlock in
  if localBlocks <=? 0 then mret []
  else
    hasData ← lift (foldM (fun (b : bool) w =>
      if b then Ok b else row ← idx (writerCursors u) w; c ← idx row p; Ok (0 <? c)) false (range (numWriters u)));
    if negb hasData then mret (make (0, 0) localBlocks)
    else
      counts ← lift (idx (mergedBlockCounts u) p);
      counts ← lift (slice counts 0 localBlocks);
      merged ← lift (upd (mergedBlockCounts u) p []);
      _ ← modify (set_merged merged);
      views ← lift (block_views (flatBuf slot) counts);
      _ ← zoom (fun u => (u, map fst views)) put_buffer (forM (readWriter p slotIdx) (range (numWriters u)));
      mret views.

(** ** Before the read phase *)
Definition mergeCounts (bc : list Z) (s : list Z * Z) : res (list Z * Z) :=
  foldM (fun s b =>
    v ← idx bc b;
    m ← idx s.1 b;
    merged ← upd s.1 b (m + v);
    Ok (merged, u64 (s.2 + u64 v))) s (range (len s.1)).

Definition mergePartition (allWS : list writerState) (blocksPerPart p total : Z) : res (list Z * Z) :=
  foldM (fun s ws => bc ← idx (blockCounts ws) p; mergeCounts bc s) (make 0 blocksPerPart, total) allWS.

Definition mergeBlockCounts (allWS : list writerState) : stM unsortedBuffer unit :=
  u ← gets id;
  '(merged, total) ← lift (foldM (fun s p =>
      '(m, total) ← mergePartition allWS (blocksPerPart u) p s.2;
      Ok (s.1 ++ [m], total)) ([], 0) (range (numPartitions u)));
  _ ← modify (set_merged merged);
  if negb (total =? totalKeys (u_cfg u)) then fail ErrBlockOverflow else mret tt.

Definition maxPartitionEntries (u : unsortedBuffer) : res Z :=
  foldM (fun maxEntries p =>
    totalBytes ← foldM (fun n w => row ← idx (writerCursors u) w; c ← idx row p; Ok (n + c)) 0 (range (numWriters u));
    Ok (Z.max maxEntries (totalBytes / u_entrySize u))) 0 (range (numPartitions u)).

Definition zero_routed : routedEntry := mk_routed 0 0 0.

Definition prepareForRead (numSlots : Z) : stM unsortedBuffer unit :=
  u ← gets id;
  maxEntries ← lift (maxPartitionEntries u);
  if maxEntries =? 0 then mret tt
  else modify (set_slots (make (mk_slot (make zero_routed maxEntries) (make 0 readBufSize)) (Z.min numSlots (numPartitions u)))).
End read.
