(* ===== verification/UnsortedReadSpec.v ===== *)
(** * The read phase gives back what the write phase stored *)
From S2P Require Import Prelude Words Bits Encoding Key Floats Header Algorithm Index File Options Builder UnsortedBuffer UnsortedWrite UnsortedRead.
#[local] Open Scope Z_scope.

(** ** Records of equal length, read in pieces *)
Section records.
Context (es : Z) (Hes : 0 < es).

Definition sized (recs : list (list Z)) : Prop := Forall (fun r => len r = es) recs.

Lemma len_concat recs : sized recs -> len (concat recs) = len recs * es.
Proof. induction 1 as [| r recs Hr Hrs IH]; [done |]. cbn [concat]. rewrite len_app, len_cons, Hr, IH. lia. Qed.

Lemma drop_concat recs (k : nat) : sized recs -> drop (Z.to_nat (Z.of_nat k * es)) (concat recs) = concat (drop k recs).
Proof using Hes.
  intros H. revert k. induction H as [| r recs Hr Hrs IH]; intros k; [rewrite drop_nil; cbn [concat]; by rewrite drop_nil |]. destruct k as [| k]; [done |].
  cbn [concat drop]. rewrite <- IH. rewrite drop_app_ge by (unfold len in Hr; lia). f_equal. unfold len in Hr. lia.
Qed.

Lemma take_concat recs (n : Z) : sized recs -> 0 <= n <= len recs * es ->
  exists rest, take (Z.to_nat n) (concat recs) = concat (take (Z.to_nat (n / es)) recs) ++ rest /\ len rest = n mod es.
Proof using Hes.
  intros H Hn. set (m := Z.to_nat (n / es)). pose proof (Z.div_mod n es ltac:(lia)) as Hdm. pose proof (Z.mod_pos_bound n es Hes) as Hmod.
  assert (0 <= n / es) as H0 by (apply Z.div_pos; lia).
  exists (take (Z.to_nat (n mod es)) (concat (drop m recs))). split.
  - rewrite <- (take_drop m recs) at 1. rewrite concat_app. assert (length (concat (take m recs)) = Z.to_nat (n / es * es)) as Hl.
    { assert (sized (take m recs)) as Ht by by apply Forall_take. apply len_concat in Ht. unfold len in *. rewrite length_take in Ht. unfold m in *. nia. }
    rewrite take_app_ge by nia. f_equal. f_equal. nia.
  - assert (sized (drop m recs)) as Hd by by apply Forall_drop. apply len_concat in Hd. unfold len in *. rewrite length_drop in Hd. rewrite length_take.
    unfold m in *. nia.
Qed.

(** The inner loop takes the whole records off the front. *)
Lemma each_entry_spec {X} (fn : X -> list Z -> res X) (I : list (list Z) -> X -> Prop) recs rest : forall pre x fuel,
  sized recs -> len rest < es -> (length (concat recs ++ rest) < fuel)%nat -> I pre x ->
  (forall p r q x, recs = p ++ r :: q -> I (pre ++ p) x -> wp (fn x r) (I (pre ++ p ++ [r])) no_err) ->
  wp (each_entry fuel es fn (concat recs ++ rest) x) (fun xr => I (pre ++ recs) xr.1 /\ xr.2 = rest) no_err.
Proof using Hes.
  induction recs as [| r recs IH]; intros pre x fuel Hs Hr Hf HI Hstep.
  - cbn [concat app]. destruct fuel as [| fuel]; cbn [each_entry]; [cbn in Hf; lia |].
    destruct (Z.ltb_spec (len rest) es); [| lia]. apply wp_ok. by rewrite app_nil_r.
  - apply Forall_cons in Hs as [Hlr Hs]. cbn [concat] in *. rewrite <- app_assoc in *. set (tl := concat recs ++ rest) in *.
    destruct fuel as [| fuel]; [lia |]. cbn [each_entry]. pose proof (len_nonneg tl). rewrite len_app.
    destruct (Z.ltb_spec (len r + len tl) es); [lia |].
    assert (slice (r ++ tl) 0 es = Ok r) as -> by (apply (slice_app_mid []); [done | by rewrite <- Hlr]). cbn [mbind res_bind].
    apply wp_bind. eapply wp_mono; [apply (Hstep [] r recs); [done | by rewrite app_nil_r] | | done]. intros x1 Hx1.
    rewrite slice_app_tail by (rewrite ?len_app; lia). cbn [mbind res_bind]. rewrite app_nil_l in Hx1.
    eapply wp_mono; [apply (IH (pre ++ [r]) x1 fuel); try done | | done].
    + rewrite length_app in Hf. unfold len in Hlr. fold tl. lia.
    + intros p r' q x' -> Hx'. rewrite <- app_assoc in *. cbn [app] in *. by apply (Hstep (r :: p) r' q).
    + intros [x2 rest2]. cbn [fst snd]. by rewrite <- app_assoc.
Qed.
End records.

(** A part of what a region holds. *)
Lemma holds_window f off bs (k n : nat) : holds f off bs -> (k + n <= length bs)%nat -> holds f (off + Z.of_nat k) (window bs k n).
Proof.
  intros [H0 H] Hk. split; [lia |]. intros i Hi. rewrite length_window in Hi by done. rewrite lookup_window, decide_True by done.
  rewrite <- H by lia. f_equal. lia.
Qed.

Lemma store_in_range {A} (buf bs : list A) off : 0 <= off -> off + len bs <= len buf ->
  exists buf', store buf off bs = Ok buf' /\ buf' = take (Z.to_nat off) buf ++ bs ++ drop (Z.to_nat off + length bs) buf.
Proof. intros. eexists. split; [by apply store_ok | done]. Qed.

Definition same_file (f f' : osfile) : Prop := f_data f' = f_data f /\ f_open f' = f_open f.

Lemma same_file_trans f1 f2 f3 : same_file f1 f2 -> same_file f2 f3 -> same_file f1 f3.
Proof. unfold same_file. intuition congruence. Qed.

Section region.
Context `{HO : !OS} (es : Z) (Hes : 0 < es) {X : Type} (fn : X -> list Z -> res X) (I : list (list Z) -> X -> Prop).
Context (recs : list (list Z)) (Hsz : sized es recs).
Context (Hstep : forall p r q x, recs = p ++ r :: q -> I p x -> wp (fn x r) (I (p ++ [r])) no_err).
Context (f : osfile) (off : Z) (size : Z) (Hh : holds (content f) off (concat recs)).

(** Between two rounds: [c] records went to [fn], the bytes left over begin the
    next one. *)
Record reading (c : nat) (s : region X) : Prop := {
  rd_file : same_file f (rg_file s);
  rd_size : len (rg_buf s) = size;
  rd_le : (c <= length recs)%nat;
  rd_left : 0 <= rg_leftover s < es;
  rd_rest : 0 <= rg_remaining s;
  rd_read : Z.of_nat c * es + rg_leftover s + rg_remaining s = len recs * es;
  rd_pos : rg_pos s = off + Z.of_nat c * es + rg_leftover s;
  rd_bytes : take (Z.to_nat (rg_leftover s)) (rg_buf s) = window (concat recs) (Z.to_nat (Z.of_nat c * es)) (Z.to_nat (rg_leftover s));
  rd_acc : I (take c recs) (rg_acc s)
}.

Lemma window_split {A} (l : list A) a n m : window l a (n + m) = window l a n ++ window l (a + n) m.
Proof.
  unfold window. rewrite <- drop_drop. set (k := drop a l). rewrite <- (take_drop n k) at 1.
  destruct (decide (length k <= n)%nat).
  - rewrite drop_ge, app_nil_r, !take_ge by (rewrite ?length_take; lia). by rewrite take_nil, app_nil_r.
  - rewrite take_app_ge by (rewrite length_take; lia). f_equal. f_equal. rewrite length_take. lia.
Qed.

Lemma readRound_spec c s : es <= size -> reading c s -> 0 < rg_remaining s ->
  wps (readRound es fn) s (fun _ s' => (exists c', reading c' s') /\ rg_remaining s' < rg_remaining s)
    (fun e s' => e = ErrOther /\ same_file f (rg_file s') /\ len (rg_buf s') = size).
Proof using Hes Hsz Hstep Hh.
  intros Hsize [] Hrem. pose proof (len_concat es recs Hsz) as Hlc. unfold readRound. apply wps_bind, wps_gets. cbn [id].
  set (lo := rg_leftover s) in *. set (n := Z.min (len (rg_buf s) - lo) (rg_remaining s)). assert (0 < n) by lia.
  set (stream := concat recs) in *. set (k := Z.of_nat c * es + lo). set (bs := window stream (Z.to_nat k) (Z.to_nat n)).
  assert (0 <= k /\ k + n <= len stream) as Hkn by nia. assert (len bs = n) as Hbs by (unfold len, bs in *; rewrite length_window; lia).
  assert (content (rg_file s) = content f) as Hcf by (unfold content; by rewrite (proj1 rd_file0)).
  apply wps_bind, wps_zoom. apply (wps_osReadAt n (rg_pos s) (rg_file s) bs); [| done | |].
  { rewrite Hcf. replace (rg_pos s) with (off + Z.of_nat (Z.to_nat k)) by lia. apply holds_window; [done | unfold len in *; lia]. }
  2:{ intros f' Hd Ho. split; [done |]. split; [by eapply same_file_trans | done]. }
  intros f' Hd Ho. assert (same_file f f') as Hf' by by eapply same_file_trans.
  apply wps_bind, wps_lift. destruct (store_in_range (rg_buf s) bs lo) as (buf & Hst & Hbuf); [lia | lia |]. rewrite Hst. apply wp_ok.
  pose proof (store_length _ _ _ _ Hst) as Hlb.
  set (D := window stream (Z.to_nat (Z.of_nat c * es)) (Z.to_nat (lo + n))).
  assert (slice buf 0 (lo + n) = Ok D) as ->.
  { rewrite Hbuf, rd_bytes0. unfold D. replace (Z.to_nat (lo + n)) with (Z.to_nat lo + Z.to_nat n)%nat by lia. rewrite window_split.
    replace (Z.to_nat (Z.of_nat c * es) + Z.to_nat lo)%nat with (Z.to_nat k) by lia. fold bs. rewrite app_assoc.
    apply (slice_app_mid []); [done |]. rewrite len_app, Hbs. unfold len. rewrite length_window by (unfold len in *; lia). cbn. lia. }
  apply wps_bind, wps_lift, wp_ok.
  assert (sized es (drop c recs)) as Hsd by by apply Forall_drop. pose proof (take_concat es Hes (drop c recs) (lo + n) Hsd) as Htc.
  destruct Htc as (rest & Htc & Hrest). { split; [lia |]. unfold len in *. rewrite length_drop. nia. }
  set (m := Z.to_nat ((lo + n) / es)) in *.
  pose proof (Z.div_mod (lo + n) es ltac:(lia)) as Hdm. pose proof (Z.mod_pos_bound (lo + n) es Hes) as Hmod.
  assert (0 <= (lo + n) / es) as Hm0 by (apply Z.div_pos; lia).
  assert (D = concat (take m (drop c recs)) ++ rest) as HD by (unfold D, window, stream; rewrite (drop_concat es Hes) by done; exact Htc).
  assert (m <= length (drop c recs))%nat as Hmle by (rewrite length_drop; unfold len in *; nia).
  assert (len rest = lo + n - Z.of_nat m * es) as Hlr by nia.
  rewrite HD. apply wps_bind, wps_lift.
  eapply wp_mono; [apply (each_entry_spec es Hes fn I (take m (drop c recs)) rest (take c recs)); [by apply Forall_take | lia | lia | done |] | | done].
  { intros p r q x Hp Hx. rewrite app_assoc. apply (Hstep _ r (q ++ drop m (drop c recs))); [| done].
    rewrite <- (take_drop c recs) at 1. rewrite <- (take_drop m (drop c recs)) at 1. rewrite Hp, <- !app_assoc. done. }
  intros [x' rest'] [HI Hr']. cbn [fst snd] in *. subst rest'.
  apply wps_bind, wps_lift. destruct (store_in_range buf rest 0) as (buf2 & Hst2 & Hbuf2); [done | unfold len in *; lia |]. rewrite Hst2. apply wp_ok, wps_modify.
  pose proof (store_length _ _ _ _ Hst2) as Hlb2. cbn [rg_remaining rg_file set_rg_file]. split; [| lia].
  exists (c + m)%nat. rewrite length_drop in Hmle. assert (Z.of_nat (c + m) * es = Z.of_nat c * es + Z.of_nat m * es) as Hcm by lia.
  split; cbn [rg_file rg_buf rg_pos rg_remaining rg_leftover rg_acc set_rg_file]; try done; try lia.
  - unfold len in *. lia.
  - rewrite Hbuf2. cbn [app take Z.to_nat]. change (take 0 buf) with (@nil Z). rewrite app_nil_l. rewrite take_app_le by (unfold len; lia). rewrite take_ge by (unfold len; lia).
    assert (rest = drop (Z.to_nat (Z.of_nat m * es)) D) as Hrd.
    { rewrite HD. assert (sized es (take m (drop c recs))) as Hst' by by apply Forall_take. apply len_concat in Hst'.
      rewrite drop_app_length'; [done |]. unfold len in Hst'. rewrite length_take, length_drop in Hst'. nia. }
    replace (Z.to_nat (len rest)) with (Z.to_nat (lo + n - Z.of_nat m * es)) by lia. rewrite Hrd. unfold D.
    apply list_eq. intros i. rewrite lookup_drop, !lookup_window.
    destruct (decide (i < Z.to_nat (lo + n - Z.of_nat m * es))%nat); [rewrite decide_True by lia | by rewrite decide_False by lia].
    f_equal. lia.
  - rewrite <- take_take_drop. exact HI.
Qed.

Lemma readRegion_spec buf x : es <= size -> len buf = size -> I [] x ->
  wps (readRegion es fn) (mk_region f buf off (len recs * es) 0 x)
    (fun _ s => I recs (rg_acc s) /\ same_file f (rg_file s) /\ len (rg_buf s) = size)
    (fun e s => e = ErrOther /\ same_file f (rg_file s) /\ len (rg_buf s) = size).
Proof using Hes Hsz Hstep Hh.
  intros Hsize Hb Hx. unfold readRegion. apply wps_bind, wps_gets. cbn [id rg_remaining]. pose proof (len_nonneg recs).
  eapply wps_mono; [apply (wps_whileM (fun s => exists c, reading c s) (fun s => Z.to_nat (rg_remaining s)) (fun e s => e = ErrOther /\ same_file f (rg_file s) /\ len (rg_buf s) = size)) | | done].
  - exists 0%nat. split; cbn [rg_file rg_buf rg_pos rg_remaining rg_leftover rg_acc]; try done; lia.
  - cbn [rg_remaining]. lia.
  - intros s [c Hs] Hc%Z.ltb_lt. eapply wps_mono; [by apply (readRound_spec c) | | done]. intros [] s' [Hs' Hlt]. split; [done | lia].
  - intros [] s [[c []] Hc%Z.ltb_ge]. assert (c = length recs) as -> by (unfold len in *; nia). rewrite take_ge in rd_acc0 by lia. done.
Qed.
End region.

(** ** Entries scattered to their blocks *)

(** Views of blocks that follow one another inside a buffer of [cap] entries. *)
Record spaced (cap : Z) (views : list (Z * Z)) : Prop := {
  sp_in : forall j v, views !! j = Some v -> 0 <= v.1 /\ 0 <= v.2 /\ v.1 + v.2 <= cap;
  sp_apart : forall i j v v', (i < j)%nat -> views !! i = Some v -> views !! j = Some v' -> v.1 + v.2 <= v'.1
}.

Definition sum (l : list Z) : Z := foldr Z.add 0 l.

Lemma sum_app a b : sum (a ++ b) = sum a + sum b.
Proof. induction a as [| x a IH]; [done |]. cbn [app]. unfold sum in *. cbn [foldr]. lia. Qed.

Lemma sum_single n : sum [n] = n.
Proof. unfold sum. cbn. lia. Qed.

Lemma sum_nonneg l : Forall (fun n => 0 <= n) l -> 0 <= sum l.
Proof. induction 1 as [| n l Hn Hl IH]; [done |]. unfold sum in *. cbn [foldr]. lia. Qed.

Lemma block_views_spec (flat : list routedEntry) counts : Forall (fun n => 0 <= n) counts -> sum counts <= len flat ->
  exists views, block_views flat counts = Ok views /\ map snd views = counts /\ spaced (len flat) views.
Proof.
  intros Hc Hs. unfold block_views.
  assert (wp (foldM (fun s n => _ ← slice flat s.1 (s.1 + n); Ok (s.1 + n, s.2 ++ [(s.1, n)])) (0, []) counts)
    (fun s => s.1 = sum counts /\ map snd s.2 = counts /\ spaced (sum counts) s.2) no_err) as H.
  { apply (wp_foldM_prefix (fun pre s => s.1 = sum pre /\ map snd s.2 = pre /\ spaced (sum pre) s.2)); [split_and!; try done |].
    intros pre n post [off vs] -> (Ho & Hm & [Hin Hap]). cbn [fst snd] in *. subst off.
    apply Forall_app in Hc as [Hpre [Hn Hpost]%Forall_cons]. apply sum_nonneg in Hpre, Hpost. rewrite sum_app in Hs. unfold sum at 2 in Hs. cbn [foldr] in Hs. fold (sum post) in Hs.
    rewrite slice_in_range by lia. apply wp_ok. cbn [fst snd]. rewrite sum_app, sum_single, map_app, Hm. split; [done |]. split; [done |]. split.
    - intros j v Hj. apply lookup_snoc_Some in Hj as [[_ Hj] | [_ <-]]; [destruct (Hin j v Hj) as (? & ? & ?) | cbn]; lia.
    - intros i j v v' Hij Hi Hj. apply lookup_lt_Some in Hj as Hjl. rewrite length_app in Hjl. cbn in Hjl.
      rewrite lookup_app_l in Hi by lia. apply lookup_snoc_Some in Hj as [[_ Hj] | [_ <-]]; [exact (Hap i j v v' Hij Hi Hj) | cbn].
      destruct (Hin i v Hi) as (? & ? & ?). lia. }
  apply wp_total in H as ([off views] & -> & _ & Hm & [Hin Hap]). cbn [mbind res_bind fst snd] in *. exists views. split; [done |]. split; [done |].
  split; [| done]. intros j v Hj. destruct (Hin j v Hj) as (? & ? & ?). lia.
Qed.

Section scatter.
Context {A : Type} (loc : A -> Z) (val : A -> routedEntry) (views : list (Z * Z)) (cap : Z) (Hsp : spaced cap views).

Definition pick (j : nat) (l : list A) : list A := filter (fun a => loc a = Z.of_nat j) l.

Lemma pick_snoc j l a : pick j (l ++ [a]) = pick j l ++ if decide (loc a = Z.of_nat j) then [a] else [].
Proof. unfold pick. by rewrite filter_app. Qed.

(** The entries [seen] so far are in their blocks, in order. *)
Record scattered (seen : list A) (s : list routedEntry * list Z) : Prop := {
  sc_flat : len s.1 = cap;
  sc_cursors : length s.2 = length views;
  sc_block : forall j v, views !! j = Some v -> s.2 !! j = Some (v.1 + len (pick j seen)) /\ len (pick j seen) <= v.2 /\
    window s.1 (Z.to_nat v.1) (length (pick j seen)) = map val (pick j seen)
}.

Lemma scattered_start flat : len flat = cap -> scattered [] (flat, map fst views).
Proof using Hsp.
  intros Hl. split; [done | apply length_map |]. intros j v Hj. destruct (sp_in _ _ Hsp j v Hj) as (? & ? & _). split; [| split; [exact H0 | done]].
  cbn [snd]. change (len (pick j [])) with 0. rewrite Z.add_0_r. change (map fst views) with (fst <$> views). by rewrite list_lookup_fmap, Hj.
Qed.

Lemma scatter_spec seen s a j v : scattered seen s -> loc a = Z.of_nat j -> views !! j = Some v -> len (pick j seen) < v.2 ->
  wp (scatter s (loc a) (val a)) (scattered (seen ++ [a])) no_err.
Proof using Hsp.
  intros [Hf Hc Hb] Hj Hv Hroom. destruct (Hb j v Hv) as (Hcur & Hle & Hw). pose proof (len_nonneg (pick j seen)) as Hp0.
  destruct (sp_in _ _ Hsp j v Hv) as (Hv0 & Hv1 & Hv2). set (n := len (pick j seen)) in *. unfold scatter.
  rewrite Hj. rewrite (idx_nat _ j _ Hcur). cbn [mbind res_bind]. rewrite (upd_in_range s.1 (v.1 + n)) by (rewrite Hf; lia). cbn [mbind res_bind].
  rewrite upd_in_range by (apply lookup_lt_Some in Hcur; unfold len; lia). cbn [mbind res_bind]. apply wp_ok. rewrite Nat2Z.id.
  split; cbn [fst snd]; [by rewrite len_insert | by rewrite length_insert |].
  intros i u Hu. rewrite pick_snoc. destruct (decide (i = j)) as [-> | Hne].
  - assert (u = v) as -> by congruence. rewrite decide_True by done. rewrite list_lookup_insert_eq by (by eapply lookup_lt_Some).
    rewrite len_app, len_single. fold n. split; [f_equal; lia |]. split; [lia |].
    rewrite length_app, map_app. cbn [length map]. rewrite window_split. f_equal.
    + rewrite <- Hw. apply list_eq. intros k. rewrite !lookup_window. case_decide; [| done]. apply list_lookup_insert_ne. unfold n, len in *. lia.
    + apply list_eq. intros k. rewrite lookup_window. replace (Z.to_nat v.1 + length (pick j seen))%nat with (Z.to_nat (v.1 + n)) by (unfold n, len; lia).
      destruct k as [| k]; [| rewrite decide_False by lia; done]. rewrite decide_True by lia. rewrite Nat.add_0_r.
      apply list_lookup_insert_eq. unfold len in *. lia.
  - rewrite decide_False by lia. rewrite app_nil_r, list_lookup_insert_ne by done. destruct (Hb i u Hu) as (H1 & H2 & H3).
    split; [done |]. split; [done |]. rewrite <- H3. apply list_eq. intros k. rewrite !lookup_window. case_decide as Hk; [| done].
    apply list_lookup_insert_ne. destruct (sp_in _ _ Hsp i u Hu) as (? & ? & ?). unfold len in *.
    destruct (decide (i < j)%nat); [pose proof (sp_apart _ _ Hsp i j u v ltac:(lia) Hu Hv) | pose proof (sp_apart _ _ Hsp j i v u ltac:(lia) Hv Hu)]; lia.
Qed.

(** All entries scattered: every view shows its block. *)
Lemma scattered_views l s : scattered l s -> map snd views = map (fun j => len (pick j l)) (seq 0 (length views)) ->
  forall j v, views !! j = Some v -> slice s.1 v.1 (v.1 + v.2) = Ok (map val (pick j l)).
Proof using Hsp.
  intros [Hf Hc Hb] Hn j v Hv. destruct (Hb j v Hv) as (_ & _ & Hw). destruct (sp_in _ _ Hsp j v Hv) as (? & ? & ?).
  assert (v.2 = len (pick j l)) as Hl.
  { apply lookup_lt_Some in Hv as Hlt. apply (f_equal (fun x => x !! j)) in Hn.
    change (map snd views) with (snd <$> views) in Hn. rewrite list_lookup_fmap, Hv in Hn.
    change (map _ (seq 0 (length views))) with ((fun j => len (pick j l)) <$> seq 0 (length views)) in Hn.
    rewrite list_lookup_fmap, lookup_seq_lt in Hn by done. by injection Hn. }
  rewrite slice_in_range by (rewrite ?Hf; lia). rewrite <- Hw. unfold window. do 2 f_equal. unfold len in Hl. lia.
Qed.
End scatter.

(** ** A partition *)

(** The entry read back: only the low bytes of the payload were stored. *)
Definition routed_of (ps : Z) (e : bufferedEntry) : routedEntry := mk_routed (be_k0 e) (be_k1 e) (be_payload e mod 2 ^ (8 * ps)).

Section partition.
Context `{HO : !OS} (g : geometry) (Hg : geometry_ok g).

#[local] Abbreviation ps := (payloadSize (g_cfg g)).

(** The file and the cursors of writer [w]: it has stored [es]. *)
Record on_disk (w : Z) (u : unsortedBuffer) (es : list bufferedEntry) : Prop := {
  dk_file : exists f, writerFiles u !! Z.to_nat w = Some (Some f) /\
    forall p, 0 <= p < g_parts g -> holds (content f) (p * g_region g) (entries_bytes ps (in_part g p es));
  dk_cursors : exists row, writerCursors u !! Z.to_nat w = Some row /\
    forall p, 0 <= p < g_parts g -> row !! Z.to_nat p = Some (len (in_part g p es) * entry_size g)
}.

Lemma stored_on_disk w s es : stored g w s (fun p => in_part g p es) -> on_disk w s.1 es.
Proof.
  intros [(f & Hf & Hh) (row & Hr & _ & Hrow) _]. split; [by exists f |]. exists row. split; [done |]. intros p Hp. by apply Hrow.
Qed.

Lemma scatterEntry_eq nb start s e : entry_ok e ->
  scatterEntry ps nb start s (entry_bytes_of ps e) = scatter s (route (be_k0 e) nb - start) (routed_of ps e).
Proof using Hg.
  intros [H0 H1 Hp]. pose proof (go_ps _ Hg) as Hps. unfold scatterEntry, entry_bytes_of.
  pose proof (get_le_app 8 [] (be_k0 e) (le_bytes 8 (be_k1 e) ++ le_bytes (Z.to_nat ps) (be_payload e))) as E0.
  cbn [app] in E0. change (len (@nil Z)) with 0 in E0. rewrite E0, Z.mod_small by exact H0. cbn [mbind res_bind].
  pose proof (get_le_app 8 (le_bytes 8 (be_k0 e)) (be_k1 e) (le_bytes (Z.to_nat ps) (be_payload e))) as E1.
  rewrite len_le_bytes in E1. change (Z.of_nat 8) with 8 in E1. rewrite E1, Z.mod_small by exact H1. cbn [mbind res_bind].
  assert ((if 0 <? ps then
      tail ← slice (le_bytes 8 (be_k0 e) ++ le_bytes 8 (be_k1 e) ++ le_bytes (Z.to_nat ps) (be_payload e)) MinKeySize
        (len (le_bytes 8 (be_k0 e) ++ le_bytes 8 (be_k1 e) ++ le_bytes (Z.to_nat ps) (be_payload e))); unpackPayloadFromBytes tail ps
    else Ok 0) = Ok (be_payload e mod 2 ^ (8 * ps))) as ->; [| done].
  destruct (Z.ltb_spec 0 ps) as [Hlt | Hge].
  - rewrite !app_assoc, slice_app_tail by (rewrite ?len_app, ?len_le_bytes; done). cbn [mbind res_bind].
    pose proof (le_bytes_bytes (Z.to_nat ps) (be_payload e)) as Hb. pose proof (len_le_bytes (Z.to_nat ps) (be_payload e)) as Hl.
    rewrite unpackPayloadFromBytes_eq by (done || lia). rewrite take_ge by (rewrite length_le_bytes; lia).
    by rewrite le_val_bytes, Z2Nat.id by lia.
  - replace ps with 0 by lia. by rewrite Z.mod_1_r.
Qed.

Lemma in_part_app p a b : in_part g p (a ++ b) = in_part g p a ++ in_part g p b.
Proof. unfold in_part. by rewrite filter_app. Qed.

Lemma in_block_app j a b : in_block g j (a ++ b) = in_block g j a ++ in_block g j b.
Proof. unfold in_block. by rewrite filter_app. Qed.

(** The place of an entry in its partition. *)
Definition local (p : Z) (e : bufferedEntry) : Z := block_id g e - p * g_bpp g.

Lemma pick_block p l (j : nat) : Z.of_nat j < g_bpp g -> pick (local p) j (in_part g p l) = in_block g (p * g_bpp g + Z.of_nat j) l.
Proof using Hg.
  intros Hj. unfold pick, in_part, in_block, local. pose proof (go_bpp _ Hg). rewrite list_filter_filter. apply list_filter_iff. intros e. split.
  - intros [H1 _]. lia.
  - intros He. split; [lia |]. unfold part_id. rewrite He, Z.div_add_l, Z.div_small by lia. lia.
Qed.

Lemma pick_prefix {A} (loc : A -> Z) j a b : len (pick loc j a) <= len (pick loc j (a ++ b)).
Proof. unfold pick. rewrite filter_app, len_app. pose proof (len_nonneg (filter (fun x => loc x = Z.of_nat j) b)). lia. Qed.

(** The blocks of partition [p], and whether the views have room for [all]. *)
Definition blocks_in (p : Z) : Z := Z.min (p * g_bpp g + g_bpp g) (g_blocks g) - p * g_bpp g.
Definition room_for (p : Z) (views : list (Z * Z)) (all : list bufferedEntry) : Prop :=
  len views = blocks_in p /\ map snd views = map (fun j => len (pick (local p) j all)) (seq 0 (length views)).

Lemma room_view p views all (j : nat) v : room_for p views all -> views !! j = Some v -> v.2 = len (pick (local p) j all).
Proof.
  intros [_ Hn] Hv. apply lookup_lt_Some in Hv as Hlt. apply (f_equal (fun x => x !! j)) in Hn.
  change (map snd views) with (snd <$> views) in Hn. rewrite list_lookup_fmap, Hv in Hn.
  change (map _ (seq 0 (length views))) with ((fun j => len (pick (local p) j all)) <$> seq 0 (length views)) in Hn.
  rewrite list_lookup_fmap, lookup_seq_lt in Hn by done. by injection Hn.
Qed.

(** What reading into slot [i] may change: that slot, and nothing in the files. *)
Definition read_frame (i : Z) (slot : readSlot) (u u' : unsortedBuffer) : Prop :=
  exists fs, u' = set_slots (<[Z.to_nat i := slot]> (readSlots u)) (set_files fs u) /\ len fs = len (writerFiles u) /\
    forall w f, writerFiles u !! w = Some (Some f) -> exists f', fs !! w = Some (Some f') /\ same_file f f'.

Lemma read_frame_refl i slot u : readSlots u !! Z.to_nat i = Some slot -> read_frame i slot u u.
Proof.
  intros H. exists (writerFiles u). rewrite list_insert_id by done. split; [by destruct u |]. split; [done |]. intros w f Hf. by exists f.
Qed.

Lemma read_frame_trans i s1 s2 u1 u2 u3 : read_frame i s1 u1 u2 -> read_frame i s2 u2 u3 -> read_frame i s2 u1 u3.
Proof.
  intros (fs & -> & Hl & Hf) (fs' & -> & Hl' & Hf'). exists fs'. split; [cbn; by rewrite list_insert_insert_eq |]. split; [by rewrite Hl', <- Hl |].
  intros w f Hw. destruct (Hf w f Hw) as (f1 & H1 & E1). destruct (Hf' w f1 H1) as (f2 & H2 & E2). exists f2. split; [done | by eapply same_file_trans].
Qed.

Lemma read_frame_shaped i slot u u' : read_frame i slot u u' -> shaped g u -> shaped g u'.
Proof. intros (fs & -> & Hl & _) []. split; cbn; congruence. Qed.

Lemma read_frame_on_disk i slot u u' w es : read_frame i slot u u' -> on_disk w u es -> on_disk w u' es.
Proof.
  intros (fs & -> & _ & Hf) [(f & Hw & Hh) Hrow]. split; [| done]. destruct (Hf _ _ Hw) as (f' & Hw' & Hd & _). exists f'. split; [done |].
  unfold content in *. rewrite Hd. done.
Qed.

Lemma read_frame_slot i slot u u' : read_frame i slot u u' -> (Z.to_nat i < length (readSlots u))%nat -> readSlots u' !! Z.to_nat i = Some slot.
Proof. intros (fs & -> & _) Hi. by apply list_lookup_insert_eq. Qed.

(** Whatever a failed read has done to slot [i], the other slots are as they were. *)
Definition other_slots (i : Z) (u u' : unsortedBuffer) : Prop := forall k, k <> Z.to_nat i -> readSlots u' !! k = readSlots u !! k.

Lemma read_frame_others i slot u u' : read_frame i slot u u' -> other_slots i u u'.
Proof. intros (fs & -> & _) k Hk. cbn. by rewrite list_lookup_insert_ne. Qed.

(** The next entry of a partition finds its place. *)
Lemma entry_scattered p views cap seen ents rest all k e x : spaced cap views -> room_for p views all -> all = seen ++ ents ++ rest ->
  ents !! k = Some e -> part_id g e = p -> scattered (local p) (routed_of ps) views cap (seen ++ take k ents) x ->
  wp (scatter x (local p e) (routed_of ps e)) (scattered (local p) (routed_of ps) views cap ((seen ++ take k ents) ++ [e])) no_err.
Proof using Hg.
  intros Hsp Hroom Hall He Hpe Hx. pose proof (part_block g Hg e p Hpe) as Hb. pose proof (block_id_bound g Hg e) as Hbb.
  set (j := Z.to_nat (local p e)). assert (local p e = Z.of_nat j) as Hj by (unfold j, local; lia).
  destruct (lookup_lt_is_Some_2 views j) as [v Hv].
  { destruct Hroom as [Hl _]. unfold blocks_in, len, local in *. unfold j, local. lia. }
  apply (scatter_spec (local p) (routed_of ps) views cap Hsp (seen ++ take k ents) x e j v); [done | done | done |].
  rewrite (room_view p views all j v Hroom Hv).
  assert (all = ((seen ++ take k ents) ++ [e]) ++ drop (S k) ents ++ rest) as ->.
  { rewrite Hall. rewrite <- (take_drop_middle ents k e He) at 1. rewrite <- !app_assoc. done. }
  pose proof (pick_prefix (local p) j ((seen ++ take k ents) ++ [e]) (drop (S k) ents ++ rest)) as Hle.
  rewrite (pick_snoc (local p) j (seen ++ take k ents) e), decide_True, len_app, len_single in Hle by done. lia.
Qed.

(** The entries of one writer. *)
Lemma readWriter_spec p i w u cursors seen es rest all views cap slot :
  shaped g u -> on_disk w u es -> Forall entry_ok es -> 0 <= p < g_parts g -> 0 <= w -> 0 <= i -> readSlots u !! Z.to_nat i = Some slot ->
  entry_size g <= len (readBuf slot) -> spaced cap views -> room_for p views all -> all = seen ++ in_part g p es ++ rest ->
  scattered (local p) (routed_of ps) views cap seen (flatBuf slot, cursors) ->
  wps (readWriter p i w) (u, cursors)
    (fun _ s' => exists slot', scattered (local p) (routed_of ps) views cap (seen ++ in_part g p es) (flatBuf slot', s'.2) /\
       len (readBuf slot') = len (readBuf slot) /\ read_frame i slot' u s'.1)
    (fun e s' => e = ErrOther /\ other_slots i u s'.1).
Proof using Hg.
  intros Hu [(f & Hf & Hh) (row & Hr & Hrow)] Hes Hp Hw Hi Hslot Hbuf Hsp Hroom Hall Hsc.
  pose proof (go_ps _ Hg) as Hps. assert (0 < entry_size g) as Hz by (unfold entry_size, MinKeySize; lia).
  unfold readWriter. apply wps_bind, wps_gets. cbn [id fst snd].
  apply wps_bind, wps_lift. rewrite (proj2 (idx_ok (writerCursors u) w row)) by done. apply wp_ok.
  apply wps_bind, wps_lift. rewrite (proj2 (idx_ok row p _) (conj (proj1 Hp) (Hrow p Hp))). apply wp_ok.
  set (ents := in_part g p es) in *. pose proof (len_nonneg ents) as He0. destruct (Z.eqb_spec (len ents * entry_size g) 0) as [Hz0 | Hne].
  { apply wps_ret. assert (ents = []) as -> by (destruct ents; [done | rewrite len_cons in Hz0; pose proof (len_nonneg ents); nia]).
    exists slot. rewrite app_nil_r. split; [done |]. split; [done |]. by apply read_frame_refl. }
  apply wps_bind, wps_lift. rewrite (proj2 (idx_ok (writerFiles u) w (Some f))) by done. apply wp_ok.
  apply wps_bind, wps_lift. rewrite (proj2 (idx_ok (readSlots u) i slot)) by done. apply wp_ok.
  rewrite (sh_size _ _ Hu), (sh_cfg _ _ Hu), (sh_blocks _ _ Hu), (sh_bpp _ _ Hu), (sh_region _ _ Hu).
  set (recs := map (entry_bytes_of ps) ents).
  pose proof (readRegion_spec (entry_size g) Hz (scatterEntry ps (g_blocks g) (p * g_bpp g))
    (fun pre x => scattered (local p) (routed_of ps) views cap (seen ++ take (length pre) ents) x) recs) as Hread.
  specialize (Hread ltac:(by apply Forall_fmap, Forall_forall; intros e _; apply len_entry_bytes_of; lia)).
  assert (len recs = len ents) as Hlr by (unfold recs, len; by rewrite length_map).
  assert (forall pre r q x, recs = pre ++ r :: q -> scattered (local p) (routed_of ps) views cap (seen ++ take (length pre) ents) x ->
    wp (scatterEntry ps (g_blocks g) (p * g_bpp g) x r) (scattered (local p) (routed_of ps) views cap (seen ++ take (length (pre ++ [r])) ents)) no_err) as Hstep.
  { intros pre r q x Heq Hx. assert (recs !! length pre = Some r) as Hre by (rewrite Heq; by apply list_lookup_middle).
    apply list_lookup_fmap_Some in Hre as (e & -> & He). rewrite length_app, Nat.add_1_r, (take_S_r _ _ _ He), app_assoc.
    apply list_elem_of_lookup_2 in He as Hin. unfold ents, in_part in Hin. apply list_elem_of_filter in Hin as [Hpe Hine].
    rewrite scatterEntry_eq by (by eapply (proj1 (Forall_forall _ _) Hes)). change (route (be_k0 e) (g_blocks g) - p * g_bpp g) with (local p e).
    by apply (entry_scattered p views cap seen ents rest all (length pre) e). }
  specialize (Hread Hstep f (p * g_region g) (len (readBuf slot))). rewrite Hlr in Hread.
  specialize (Hread (Hh p Hp) (readBuf slot) (flatBuf slot, cursors) Hbuf eq_refl). cbn [length take] in Hread. rewrite app_nil_r in Hread. specialize (Hread Hsc).
  unfold wps in Hread. apply wps_bind, wps_lift.
  destruct (readRegion _ _ _) as [[rg r] | |]; [| by destruct Hread ..]. apply wp_ok, wps_bind, wps_lift.
  rewrite upd_in_range by (apply lookup_lt_Some in Hf; unfold len; lia). apply wp_ok, wps_bind, wps_lift.
  rewrite upd_in_range by (apply lookup_lt_Some in Hslot; unfold len; lia). apply wp_ok, wps_bind, wps_modify.
  destruct r as [[] | e]; cycle 1.
  { apply wps_fail. split; [by destruct Hread |]. intros k Hk. cbn. by rewrite list_lookup_insert_ne. }
  apply wps_ret. destruct Hread as (Hdone & Hsame & Hlb).
  rewrite take_ge in Hdone by (unfold len in Hlr; lia). exists (mk_slot (rg_acc rg).1 (rg_buf rg)). cbn [fst snd flatBuf readBuf].
  split; [by destruct (rg_acc rg) |]. split; [done |]. exists (<[Z.to_nat w := Some (rg_file rg)]> (writerFiles u)).
  split; [done |]. split; [apply len_insert |]. intros v f' Hv. destruct (decide (v = Z.to_nat w)) as [-> | Hne'].
  - rewrite list_lookup_insert_eq by (by eapply lookup_lt_Some). exists (rg_file rg). split; [done |]. rewrite Hf in Hv. by injection Hv as <-.
  - rewrite list_lookup_insert_ne by done. by exists f'.
Qed.

(** ** All writers *)
Context (Es : list (list bufferedEntry)).

Lemma in_part_take p (k : nat) es : Es !! k = Some es -> in_part g p (concat (take (S k) Es)) = in_part g p (concat (take k Es)) ++ in_part g p es.
Proof. intros H. rewrite (take_S_r _ _ _ H), concat_app. cbn [concat]. by rewrite app_nil_r, in_part_app. Qed.

(** The writers' files hold their entries. *)
Record on_disks (u : unsortedBuffer) : Prop := {
  ds_shaped : shaped g u;
  ds_writers : len Es = g_writers g;
  ds_disk : forall (w : nat) es, Es !! w = Some es -> on_disk (Z.of_nat w) u es /\ Forall entry_ok es
}.

Lemma read_frame_disks i slot u u' : read_frame i slot u u' -> on_disks u -> on_disks u'.
Proof.
  intros Hf []. split; [by eapply read_frame_shaped | done |]. intros w es Hw. destruct (ds_disk0 w es Hw) as [Hd He].
  split; [by eapply read_frame_on_disk | done].
Qed.

Lemma has_data_spec p u : on_disks u -> 0 <= p < g_parts g ->
  wp (foldM (fun (b : bool) w => if b then Ok b else row ← idx (writerCursors u) w; c ← idx row p; Ok (0 <? c)) false (range (numWriters u)))
    (fun b => b = false -> in_part g p (concat Es) = []) no_err.
Proof using Hg.
  intros [Hs Hl Hd] Hp. rewrite (sh_writers _ _ Hs). pose proof (go_ps _ Hg) as Hps.
  eapply wp_mono; [apply (wp_foldM_prefix (fun pre (b : bool) => b = false -> in_part g p (concat (take (length pre) Es)) = [])) | | done].
  - done.
  - intros pre w post b Heq Hb. apply range_prefix in Heq as [-> Hw]. destruct b; [by apply wp_ok |].
    destruct (lookup_lt_is_Some_2 Es (length pre)) as [es Hes]; [unfold len in *; lia |].
    destruct (Hd _ _ Hes) as [[_ (row & Hr & Hrow)] _]. fold (len pre) in Hr.
    rewrite (proj2 (idx_ok (writerCursors u) (len pre) row)) by (split; [unfold len; lia | done]). cbn [mbind res_bind].
    rewrite (proj2 (idx_ok row p _) (conj (proj1 Hp) (Hrow p Hp))). apply wp_ok. intros Hc%Z.ltb_ge.
    rewrite length_app, Nat.add_1_r, (in_part_take p _ es Hes), Hb by done. cbn [app].
    pose proof (len_nonneg (in_part g p es)). assert (len (in_part g p es) = 0) as H0 by (unfold entry_size, MinKeySize in Hc; nia).
    destruct (in_part g p es); [done |]. rewrite len_cons in H0. pose proof (len_nonneg l). lia.
  - intros b Hb Hf. specialize (Hb Hf). rewrite length_range, take_ge in Hb by (unfold len in Hl; lia). done.
Qed.

Lemma sum_picks {A} (loc : A -> Z) (l : list A) n : sum (map (fun j => len (pick loc j l)) (seq 0 n)) = len (filter (fun a => 0 <= loc a < Z.of_nat n) l).
Proof.
  induction n as [| n IH].
  - cbn. symmetry. induction l as [| a l IHl]; [done |]. rewrite filter_cons_False by lia. done.
  - rewrite seq_S, map_app, sum_app, IH. cbn [map]. rewrite sum_single. cbn [Nat.add]. clear IH. unfold pick. induction l as [| a l IHl]; [done |].
    rewrite !filter_cons. repeat case_decide; try lia; rewrite ?len_cons; lia.
Qed.

Lemma sum_picks_le {A} (loc : A -> Z) (l : list A) n : sum (map (fun j => len (pick loc j l)) (seq 0 n)) <= len l.
Proof. rewrite sum_picks. unfold len. pose proof (length_filter (fun a => 0 <= loc a < Z.of_nat n) l). lia. Qed.

(** The counts of a partition. *)
Definition exact_counts (p : Z) (counts : list Z) : Prop :=
  len counts = g_bpp g /\ forall j, 0 <= j < g_bpp g -> counts !! Z.to_nat j = Some (len (in_block g (p * g_bpp g + j) (concat Es))).

Lemma exact_counts_picks p counts n : exact_counts p counts -> 0 <= n <= g_bpp g ->
  take (Z.to_nat n) counts = map (fun j => len (pick (local p) j (in_part g p (concat Es)))) (seq 0 (Z.to_nat n)).
Proof using Hg.
  intros [Hl Hc] Hn. apply list_eq. intros j. change (map ?f (seq 0 (Z.to_nat n))) with (f <$> seq 0 (Z.to_nat n)). rewrite list_lookup_fmap.
  destruct (decide (j < Z.to_nat n)%nat) as [Hj | Hj].
  - rewrite lookup_take_lt, lookup_seq_lt by done. cbn. rewrite pick_block by lia. rewrite <- Hc by lia. by rewrite Nat2Z.id.
  - rewrite lookup_take_ge, lookup_seq_ge by lia. done.
Qed.

(** What [readPartition] returns: views of the entries of each block. *)
Definition shows (slot : readSlot) (p : Z) (views : list (Z * Z)) : Prop :=
  len views = Z.max 0 (blocks_in p) /\
  forall (j : nat) v, views !! j = Some v -> v.2 = len (in_block g (p * g_bpp g + Z.of_nat j) (concat Es)) /\
    slice (flatBuf slot) v.1 (v.1 + v.2) = Ok (map (routed_of ps) (in_block g (p * g_bpp g + Z.of_nat j) (concat Es))).

Definition after_read (i p : Z) (slot : readSlot) (u u' : unsortedBuffer) : Prop :=
  on_disks u' /\ readSlots u' = <[Z.to_nat i := slot]> (readSlots u) /\ len (mergedBlockCounts u') = len (mergedBlockCounts u) /\
  nextWriterID u' = nextWriterID u /\ forall q, q <> Z.to_nat p -> mergedBlockCounts u' !! q = mergedBlockCounts u !! q.

Lemma readPartition_spec p i u slot counts :
  on_disks u -> 0 <= p < g_parts g -> 0 <= i -> readSlots u !! Z.to_nat i = Some slot -> entry_size g <= len (readBuf slot) ->
  len (in_part g p (concat Es)) <= len (flatBuf slot) -> mergedBlockCounts u !! Z.to_nat p = Some counts -> exact_counts p counts ->
  wps (readPartition p i) u
    (fun views u' => exists slot', after_read i p slot' u u' /\ shows slot' p views /\
       len (readBuf slot') = len (readBuf slot) /\ len (flatBuf slot') = len (flatBuf slot))
    (fun e u' => e = ErrOther /\ other_slots i u u').
Proof using Hg.
  intros Hd Hp Hi Hslot Hbuf Hfit Hm Hcnt. pose proof Hd as [Hs Hl Hdisk]. unfold readPartition. apply wps_bind, wps_gets, wps_bind, wps_lift. cbn [id].
  rewrite (proj2 (idx_ok (readSlots u) i slot)) by done. apply wp_ok. rewrite (sh_bpp _ _ Hs), (sh_blocks _ _ Hs).
  fold (blocks_in p). pose proof (go_bpp _ Hg) as Hbpp.
  assert (after_read i p slot u u) as Hsame by (split; [done |]; by rewrite list_insert_id).
  destruct (Z.leb_spec (blocks_in p) 0) as [Hnone | Hsome].
  { apply wps_ret. exists slot. split; [done |]. split; [| done]. split; [rewrite Z.max_l by lia; done | by intros j v Hj]. }
  apply wps_bind, wps_lift. eapply wp_mono; [by apply has_data_spec | | done]. intros b Hb.
  set (all := in_part g p (concat Es)) in *. set (n := blocks_in p) in *. assert (n <= g_bpp g) as Hn by (unfold n, blocks_in; lia).
  destruct b; cbn [negb]; cycle 1.
  { apply wps_ret. exists slot. split; [done |]. split; [| done]. split; [rewrite len_make, Z.max_r by lia; done |]. intros j v Hj.
    apply lookup_lt_Some in Hj as Hlt. unfold make in Hj, Hlt. rewrite length_replicate in Hlt. apply lookup_replicate_1 in Hj as [-> _].
    rewrite <- (pick_block p (concat Es) j) by lia. fold all. rewrite Hb by done. cbn [fst snd]. split; [done |].
    rewrite slice_in_range by (pose proof (len_nonneg (flatBuf slot)); lia). done. }
  apply wps_bind, wps_lift. rewrite (proj2 (idx_ok _ p counts)) by (split; [lia | done]). apply wp_ok.
  apply wps_bind, wps_lift. rewrite slice_in_range by (destruct Hcnt; lia). apply wp_ok. rewrite Z.sub_0_r. change (drop (Z.to_nat 0) counts) with counts.
  apply wps_bind, wps_lift. rewrite upd_in_range by (apply lookup_lt_Some in Hm; unfold len; lia). apply wp_ok, wps_bind, wps_modify.
  rewrite (exact_counts_picks p counts n Hcnt) by lia. fold all. set (cs := map _ (seq 0 (Z.to_nat n))).
  destruct (block_views_spec (flatBuf slot) cs) as (views & -> & Hvs & Hsp).
  { apply Forall_fmap, Forall_forall. intros j _. apply len_nonneg. }
  { unfold cs. pose proof (sum_picks_le (local p) all (Z.to_nat n)). lia. }
  assert (length views = Z.to_nat n) as Hlv by (rewrite <- (length_map snd), Hvs; unfold cs; by rewrite length_map, length_seq).
  assert (room_for p views all) as Hroom by (split; [unfold len; fold n; lia | by rewrite Hlv]).
  apply wps_bind, wps_lift, wp_ok, wps_bind, wps_zoom. set (u1 := set_merged _ u).
  assert (on_disks u1) as Hd1 by (split; [by destruct Hs | done | intros w es Hw; destruct (Hdisk w es Hw) as [[] ?]; by split]).
  eapply wps_mono; [apply (wps_forM (fun pre s => exists slot', scattered (local p) (routed_of ps) views (len (flatBuf slot)) (in_part g p (concat (take (length pre) Es))) (flatBuf slot', s.2) /\
     len (readBuf slot') = len (readBuf slot) /\ read_frame i slot' u1 s.1) (fun e s => e = ErrOther /\ other_slots i u1 s.1)) | | by intros e s He].
  - exists slot. split; [by apply scattered_start |]. split; [done |]. by apply read_frame_refl.
  - intros pre w post [u' cursors'] Heq (slot1 & Hsc & Hlb & Hfr). rewrite (sh_writers _ _ Hs) in Heq. apply range_prefix in Heq as [-> Hw]. cbn [fst snd] in *.
    pose proof (read_frame_disks _ _ _ _ Hfr Hd1) as Hd2. destruct (lookup_lt_is_Some_2 Es (length pre)) as [es Hes]; [unfold len in *; lia |].
    destruct (ds_disk _ Hd2 _ _ Hes) as [Hdk Hok].
    eapply wps_mono; [apply (readWriter_spec p i (len pre) u' cursors' (in_part g p (concat (take (length pre) Es))) es (in_part g p (concat (drop (S (length pre)) Es))) all views (len (flatBuf slot)) slot1); try done | |].
    + apply Hd2.
    + apply len_nonneg.
    + eapply read_frame_slot; [exact Hfr |]. by apply lookup_lt_Some in Hslot.
    + by rewrite Hlb.
    + unfold all. rewrite <- (take_drop_middle Es (length pre) es Hes) at 1. rewrite concat_app, in_part_app. cbn [concat]. by rewrite in_part_app.
    + intros [] s' (slot2 & Hsc2 & Hlb2 & Hfr2). exists slot2. rewrite length_app, Nat.add_1_r, (in_part_take p _ es Hes). split; [done |].
      split; [by rewrite Hlb2 | by eapply read_frame_trans].
    + intros e s' [He Hot]. split; [done |]. intros k Hk. rewrite (Hot k Hk). by apply (read_frame_others _ _ _ _ Hfr).
  - intros [] [u2 cs2] (slot2 & Hsc & Hlb & Hfr). unfold put_buffer. cbn [fst snd] in *. apply wps_ret.
    rewrite (sh_writers _ _ Hs), length_range, take_ge in Hsc by (unfold len in *; lia). fold all in Hsc. exists slot2. split; [| split; [| split; [done | apply Hsc]]].
    + split; [by eapply read_frame_disks |]. destruct Hfr as (fs & -> & _ & _). split; [done |]. split; [apply len_insert |]. split; [done |].
      intros q Hq. cbn. by rewrite list_lookup_insert_ne.
    + split; [unfold len; rewrite Z.max_r by lia; lia |]. intros j v Hv. apply lookup_lt_Some in Hv as Hj. rewrite <- (pick_block p (concat Es) j) by lia. fold all.
      split; [by eapply room_view |]. apply (scattered_views _ _ _ _ Hsp _ _ Hsc (proj2 Hroom) j v Hv).
Qed.
End partition.

(** ** A region is read as it was written, whatever the size of the buffer *)

(** C7: [readRegion] hands every record of a region to its callback, whole, once and
    in order, although it reads into a buffer whose size is no multiple of the
    record's, so that records are cut by the reads; it takes no byte from outside
    the region, and the buffer need only have room for one record. It ends, and
    fails only when a read does. *)
Theorem readRegion_records `{HO : !OS} es recs f off buf : 0 < es -> Forall (fun r => len r = es) recs -> holds (content f) off (concat recs) -> es <= len buf ->
  wps (readRegion es (fun acc r => Ok (acc ++ [r]))) (mk_region f buf off (len recs * es) 0 [])
    (fun _ s => rg_acc s = recs /\ same_file f (rg_file s)) (fun e s => e = ErrOther /\ same_file f (rg_file s)).
Proof.
  intros Hes Hsz Hh Hbuf.
  pose proof (readRegion_spec es Hes (fun acc r => Ok (acc ++ [r])) (fun pre acc => acc = pre) recs Hsz) as H.
  eapply wps_mono; [apply (H ltac:(by intros p r q x _ ->) f off (len buf) Hh buf [] Hbuf eq_refl eq_refl) | |].
  - intros [] s (Ha & Hf & _). done.
  - intros e s (-> & Hf & _). done.
Qed.

(** Three records of two bytes through a buffer of three. *)
Lemma readRegion_records_witness : let recs := [[1; 2]; [3; 4]; [5; 6]] in let f := mk_osfile (Some [9; 1; 2; 3; 4; 5; 6; 7]) true false 0 in
  wps (@readRegion {| fault _ := None; prealloc_grows := true |} _ 2 (fun acc r => Ok (acc ++ [r]))) (mk_region f [0; 0; 0] 1 (len recs * 2) 0 [])
    (fun _ s => rg_acc s = recs /\ same_file f (rg_file s)) (fun e s => e = ErrOther /\ same_file f (rg_file s)).
Proof.
  apply (@readRegion_records {| fault _ := None; prealloc_grows := true |} 2 [[1; 2]; [3; 4]; [5; 6]] (mk_osfile (Some [9; 1; 2; 3; 4; 5; 6; 7]) true false 0) 1 [0; 0; 0]).
  - lia.
  - repeat constructor.
  - split; [lia |]. intros i Hi. cbn in Hi. do 6 (destruct i as [| i]; [reflexivity |]). lia.
  - vm_compute. congruence.
Defined.
