(* ===== verification/UnsortedMerge.v ===== *)
(** * Merging the block counts: a count that wrapped never goes unnoticed

    The writers count the entries of each block in 16 bits. The merged counts are
    what the read phase lays the blocks out by, so they must be the true numbers;
    [mergeBlockCounts] compares their sum with the number of keys. *)
From S2P Require Import Prelude Words Bits Encoding Key Floats Header Algorithm Index File Options Builder UnsortedBuffer UnsortedWrite UnsortedCommute UnsortedRead UnsortedReadSpec.
#[local] Open Scope Z_scope.

Lemma sum_zip_add (a b : list Z) : length a = length b -> sum (zip_with Z.add a b) = sum a + sum b.
Proof.
  revert b. induction a as [| x a IH]; intros [| y b] Hl; try done. cbn [zip_with]. unfold sum in *. cbn [foldr]. rewrite IH by (cbn in Hl; lia). lia.
Qed.

Lemma sum_le (a b : list Z) : Forall2 Z.le a b -> sum a <= sum b.
Proof. induction 1 as [| x y a b Hxy Hab IH]; [done |]. unfold sum in *. cbn [foldr]. lia. Qed.

(** Terms that are smaller with the same sum are equal. *)
Lemma sum_le_eq (a b : list Z) : Forall2 Z.le a b -> sum a = sum b -> a = b.
Proof.
  induction 1 as [| x y a b Hxy Hab IH]; intros Hs; [done |]. apply sum_le in Hab. unfold sum in *. cbn [foldr] in *.
  assert (x = y) as -> by lia. f_equal. apply IH. lia.
Qed.

Lemma sum_concat (l : list (list Z)) : sum (concat l) = sum (map sum l).
Proof. induction l as [| a l IH]; [done |]. cbn [concat map]. rewrite sum_app, IH. unfold sum at 3. cbn [foldr]. done. Qed.

Lemma zip_with_map {A} (f h : A -> Z) l : zip_with Z.add (map f l) (map h l) = map (fun a => f a + h a) l.
Proof. induction l as [| a l IH]; [done |]. cbn [map zip_with]. by rewrite IH. Qed.

(** The blocks of all partitions, one after the other. *)
Lemma range_mul n b : 0 <= n -> 0 <= b -> concat (map (fun q => map (fun j => q * b + j) (range b)) (range n)) = range (n * b).
Proof.
  intros Hn Hb. revert n Hn. apply natlike_ind; [done |]. intros n Hn IH. rewrite <- Z.add_1_r, range_succ by done.
  rewrite map_app, concat_app, IH. cbn [map concat]. rewrite app_nil_r. unfold range. rewrite Z.mul_add_distr_r, Z.mul_1_l, seqZ_app by lia. f_equal.
  rewrite Z.add_0_l. apply list_eq. intros i. change (map (fun j => n * b + j) (seqZ 0 b)) with ((fun j => n * b + j) <$> seqZ 0 b). rewrite list_lookup_fmap.
  destruct (decide (i < Z.to_nat b)%nat).
  - rewrite (proj2 (lookup_seqZ 0 b i (0 + Z.of_nat i))), (proj2 (lookup_seqZ (n * b) b i (n * b + Z.of_nat i))) by (split; [done | lia]).
    by rewrite Z.add_0_l.
  - rewrite !(proj2 (lookup_ge_None _ _)) by (rewrite length_seqZ; lia). done.
Qed.

(** Every entry is in one block. *)
Lemma sum_blocks {A} (loc : A -> Z) (l : list A) n : Forall (fun a => 0 <= loc a < n) l -> sum (map (fun j => len (filter (fun a => loc a = j) l)) (range n)) = len l.
Proof.
  intros Hl. destruct (Z.le_gt_cases 0 n) as [Hn | Hn].
  - pose proof (sum_picks loc l (Z.to_nat n)) as H. unfold pick in H.
    assert (range n = map Z.of_nat (seq 0 (Z.to_nat n))) as -> by (apply map_ext; intros; lia). rewrite map_map.
    rewrite H. f_equal. apply filter_all_id. intros a Ha. rewrite Forall_forall in Hl. specialize (Hl a Ha). lia.
  - destruct l as [| a l]; [| apply Forall_cons in Hl as [Ha _]; lia]. unfold range. by rewrite seqZ_nil by lia.
Qed.

(** One partition of one writer. *)
Lemma mergeCounts_spec (bc m : list Z) t : len bc = len m -> Forall (fun n => 0 <= n) bc -> 0 <= t -> t + sum bc < 2 ^ 64 ->
  mergeCounts bc (m, t) = Ok (zip_with Z.add m bc, t + sum bc).
Proof.
  intros Hl Hb Ht Hs. unfold mergeCounts. cbn [fst snd].
  assert (wp (foldM (fun s b => v ← idx bc b; m ← idx s.1 b; merged ← upd s.1 b (m + v); Ok (merged, u64 (s.2 + u64 v))) (m, t) (range (len m)))
    (fun s => s = (zip_with Z.add m bc, t + sum bc)) no_err) as H; [| by apply wp_total in H as (s & -> & ->)].
  eapply wp_mono; [apply (wp_foldM_prefix (fun pre s => s = (zip_with Z.add (take (length pre) m) (take (length pre) bc) ++ drop (length pre) m, t + sum (take (length pre) bc)))) | | done].
  - cbn. by rewrite Z.add_0_r.
  - intros pre i post s Heq ->. apply range_prefix in Heq as [-> Hi]. set (k := length pre). cbn [fst snd].
    destruct (lookup_lt_is_Some_2 bc k) as [v Hv]; [unfold len in *; unfold k; lia |].
    destruct (lookup_lt_is_Some_2 m k) as [x Hx]; [unfold len in *; unfold k; lia |].
    unfold len at 1 2 3. fold k. rewrite (idx_nat bc k v Hv). cbn [mbind res_bind].
    assert (length (zip_with Z.add (take k m) (take k bc)) = k) as Hlz.
    { rewrite length_zip_with, !length_take. apply lookup_lt_Some in Hv, Hx. lia. }
    rewrite (drop_S m x k Hx). rewrite (idx_nat _ k x) by (rewrite lookup_app_r, Hlz, Nat.sub_diag by lia; done). cbn [mbind res_bind].
    rewrite upd_app_at by (unfold len; lia). cbn [mbind res_bind]. apply wp_ok. rewrite length_app, Nat.add_1_r. fold k.
    rewrite (take_S_r _ _ _ Hv), (take_S_r _ _ _ Hx). rewrite zip_with_app by (rewrite !length_take; apply lookup_lt_Some in Hv, Hx; lia).
    cbn [zip_with]. rewrite <- app_assoc. cbn [app]. f_equal. rewrite sum_app, sum_single.
    assert (0 <= v) as Hv0 by by apply (Forall_lookup_1 _ _ _ _ Hb Hv).
    assert (sum (take k bc) + v <= sum bc /\ 0 <= sum (take k bc)) as [Hle H0].
    { split; [| by apply sum_nonneg, Forall_take]. rewrite <- (take_drop_middle bc k v Hv) at 2. rewrite sum_app. change (sum (v :: drop (S k) bc)) with (v + sum (drop (S k) bc)).
      pose proof (sum_nonneg (drop (S k) bc) ltac:(by apply Forall_drop)). lia. }
    rewrite (u64_id v), u64_id by (unfold is_u; lia). lia.
  - intros s ->. rewrite length_range. f_equal; [| f_equal].
    + rewrite !take_ge, drop_ge, app_nil_r by (unfold len in *; lia). done.
    + rewrite take_ge by (unfold len in *; lia). done.
Qed.

Section merge.
Context (g : geometry) (Hg : geometry_ok g) (Es : list (list bufferedEntry)).

#[local] Abbreviation nb := (g_parts g * g_bpp g).

(** A writer's block counts, of the entries [es] it has flushed. *)
Definition counted (ws : writerState) (es : list bufferedEntry) : Prop :=
  len (blockCounts ws) = g_parts g /\
  forall p, 0 <= p < g_parts g -> exists bc, blockCounts ws !! Z.to_nat p = Some bc /\ counts16 g p (in_part g p es) bc.

Definition c16 (j : Z) (es : list bufferedEntry) : Z := u16 (len (in_block g j es)).
(** The merged count of block [j] over the first writers. *)
Definition merged_count (es : list (list bufferedEntry)) (j : Z) : Z := sum (map (c16 j) es).
Definition merged_row (p : Z) (es : list (list bufferedEntry)) : list Z := map (fun j => merged_count es (p * g_bpp g + j)) (range (g_bpp g)).

Lemma in_block_part p j es : 0 <= j < g_bpp g -> in_block g (p * g_bpp g + j) (in_part g p es) = in_block g (p * g_bpp g + j) es.
Proof using Hg.
  intros Hj. unfold in_block, in_part. rewrite list_filter_filter. apply list_filter_iff. intros e. split; [by intros [? _] |]. intros He. split; [done |].
  unfold part_id. rewrite He, Z.div_add_l, Z.div_small by lia. lia.
Qed.

Lemma counted_row ws es p : counted ws es -> 0 <= p < g_parts g ->
  blockCounts ws !! Z.to_nat p = Some (map (fun j => c16 (p * g_bpp g + j) es) (range (g_bpp g))).
Proof using Hg.
  intros [_ Hc] Hp. destruct (Hc p Hp) as (bc & Hb & Hl & Hj). rewrite Hb. f_equal. apply list_eq. intros i.
  change (map ?f (range (g_bpp g))) with (f <$> range (g_bpp g)). rewrite list_lookup_fmap. unfold range. destruct (decide (i < Z.to_nat (g_bpp g))%nat) as [Hi | Hi].
  - rewrite (proj2 (lookup_seqZ 0 (g_bpp g) i (Z.of_nat i))) by (split; lia). cbn. specialize (Hj (Z.of_nat i) ltac:(lia)). rewrite Nat2Z.id in Hj.
    rewrite Hj. unfold c16. by rewrite in_block_part by lia.
  - rewrite !(proj2 (lookup_ge_None _ _)) by (rewrite ?length_seqZ; unfold len in Hl; lia). done.
Qed.

Lemma c16_le j es : 0 <= c16 j es <= len (in_block g j es).
Proof. unfold c16, u16. pose proof (len_nonneg (in_block g j es)). split; [apply Z.mod_pos_bound; lia | apply Z.mod_le; lia]. Qed.

Lemma merged_count_le es j : 0 <= merged_count es j <= len (in_block g j (concat es)).
Proof.
  unfold merged_count. induction es as [| x es IH]; [done |]. cbn [map concat]. rewrite in_block_app, len_app.
  change (sum (c16 j x :: map (c16 j) es)) with (c16 j x + sum (map (c16 j) es)). pose proof (c16_le j x). lia.
Qed.

Lemma sum_rows_le (L : list Z) (es : list (list bufferedEntry)) : sum (map (merged_count es) L) <= sum (map (fun j => len (in_block g j (concat es))) L).
Proof. apply sum_le. apply Forall2_fmap, Forall_Forall2_diag, Forall_forall. intros j _. apply merged_count_le. Qed.

Lemma total_entries es : sum (map (fun j => len (in_block g j (concat es))) (range nb)) = len (concat es).
Proof using Hg.
  apply sum_blocks. apply Forall_forall. intros e _. pose proof (block_id_bound g Hg e). pose proof (go_cover _ Hg). lia.
Qed.

(** The merged counts of all blocks before block [n] are at most the keys. *)
Lemma merged_total n es : 0 <= n <= nb -> 0 <= sum (map (merged_count es) (range n)) <= len (concat es).
Proof using Hg.
  intros Hn. split.
  - apply sum_nonneg, Forall_fmap, Forall_forall. intros j _. apply merged_count_le.
  - rewrite <- total_entries. pose proof (sum_rows_le (range n) es). assert (exists L, range nb = range n ++ L) as [L ->].
    { exists (seqZ n (nb - n)). unfold range. replace nb with (n + (nb - n)) at 1 by lia. by rewrite seqZ_app, Z.add_0_l by lia. }
    rewrite map_app, sum_app. assert (0 <= sum (map (fun j => len (in_block g j (concat es))) L)); [| lia].
    apply sum_nonneg, Forall_fmap, Forall_forall. intros j _. apply len_nonneg.
Qed.

Lemma merged_row_eq p es : merged_row p es = map (merged_count es) (map (fun j => p * g_bpp g + j) (range (g_bpp g))).
Proof. unfold merged_row. by rewrite map_map. Qed.

Lemma len_merged_row p es : len (merged_row p es) = g_bpp g \/ g_bpp g < 0.
Proof. unfold merged_row, len. rewrite length_map, length_range. lia. Qed.

Lemma merged_row_nil p : merged_row p [] = make 0 (g_bpp g).
Proof. unfold merged_row, make. rewrite <- length_range. induction (range (g_bpp g)) as [| j l IH]; [done |]. cbn [map length replicate]. by rewrite IH. Qed.

Lemma sum_zeros n : sum (make 0 n) = 0.
Proof. unfold make. induction (Z.to_nat n) as [| k IH]; [done |]. cbn [replicate]. unfold sum in *. cbn [foldr]. lia. Qed.

Lemma merged_row_snoc p k es : Es !! k = Some es ->
  merged_row p (take (S k) Es) = zip_with Z.add (merged_row p (take k Es)) (map (fun j => c16 (p * g_bpp g + j) es) (range (g_bpp g))).
Proof.
  intros H. unfold merged_row. rewrite zip_with_map, (take_S_r _ _ _ H). apply map_ext. intros j. unfold merged_count.
  rewrite map_app, sum_app. cbn [map]. by rewrite sum_single.
Qed.

Lemma merged_row_take p k : sum (merged_row p (take k Es)) <= sum (merged_row p Es).
Proof.
  apply sum_le, Forall2_fmap, Forall_Forall2_diag, Forall_forall. intros j _. unfold merged_count. rewrite <- (take_drop k Es) at 2.
  rewrite map_app, sum_app. assert (0 <= sum (map (c16 (p * g_bpp g + j)) (drop k Es))); [| lia].
  apply sum_nonneg, Forall_fmap, Forall_forall. intros es _. apply c16_le.
Qed.

Lemma idx_nat_at {A} (l : list A) i x : 0 <= i -> l !! Z.to_nat i = Some x -> idx l i = Ok x.
Proof. intros. by apply idx_ok. Qed.

Lemma mergePartition_spec allWS p t : Forall2 counted allWS Es -> 0 <= p < g_parts g -> 0 <= t -> t + sum (merged_row p Es) < 2 ^ 64 ->
  mergePartition allWS (g_bpp g) p t = Ok (merged_row p Es, t + sum (merged_row p Es)).
Proof using Hg.
  intros Hws Hp Ht Hlt. pose proof (go_bpp _ Hg) as Hb. unfold mergePartition.
  assert (wp (foldM (fun s ws => bc ← idx (blockCounts ws) p; mergeCounts bc s) (make 0 (g_bpp g), t) allWS)
    (fun s => s = (merged_row p Es, t + sum (merged_row p Es))) no_err) as H; [| by apply wp_total in H as (s & -> & ->)].
  eapply wp_mono; [apply (wp_foldM_prefix (fun pre s => s = (merged_row p (take (length pre) Es), t + sum (merged_row p (take (length pre) Es))))) | | done].
  - cbn [length take]. by rewrite merged_row_nil, sum_zeros, Z.add_0_r.
  - intros pre ws post s -> ->. set (k := length pre).
    assert ((pre ++ ws :: post) !! k = Some ws) as Hk by by apply list_lookup_middle.
    destruct (Forall2_lookup_l _ _ _ _ _ Hws Hk) as (es & Hes & Hc).
    rewrite (idx_nat_at (blockCounts ws) p _ (proj1 Hp) (counted_row ws es p Hc Hp)). cbn [mbind res_bind].
    pose proof (merged_row_snoc p k es Hes) as Hrow. pose proof (merged_row_take p (S k)) as Hle.
    rewrite Hrow, sum_zip_add in Hle by (unfold merged_row; by rewrite !length_map).
    assert (Forall (fun n => 0 <= n) (merged_row p (take k Es))) as H0%sum_nonneg by (apply Forall_fmap, Forall_forall; intros; apply merged_count_le).
    rewrite mergeCounts_spec; [| unfold merged_row, len; by rewrite !length_map | apply Forall_fmap, Forall_forall; intros; apply c16_le | lia | lia].
    apply wp_ok. rewrite length_app, Nat.add_1_r. fold k. rewrite Hrow. rewrite sum_zip_add by (unfold merged_row; by rewrite !length_map). f_equal. lia.
  - intros s ->. rewrite (Forall2_length _ _ _ Hws). by rewrite take_ge.
Qed.

(** Partition after partition. *)
Definition merged_all (n : Z) : list (list Z) := map (fun p => merged_row p Es) (range n).

Lemma sum_merged_all n : 0 <= n -> sum (concat (merged_all n)) = sum (map (merged_count Es) (range (n * g_bpp g))).
Proof using Hg.
  intros Hn. rewrite <- range_mul by (try lia; apply Z.lt_le_incl, Hg). unfold merged_all. rewrite concat_map, map_map.
  do 2 f_equal. apply map_ext. intros p. apply merged_row_eq.
Qed.

Lemma merged_all_succ n : 0 <= n -> merged_all (n + 1) = merged_all n ++ [merged_row n Es].
Proof. intros Hn. unfold merged_all. by rewrite range_succ, map_app. Qed.

(** The merged counts are the true ones exactly when no count has wrapped. *)
Lemma merged_exact : sum (concat (merged_all (g_parts g))) = len (concat Es) ->
  forall j, 0 <= j < nb -> merged_count Es j = len (in_block g j (concat Es)).
Proof using Hg.
  intros Hs j Hj. rewrite sum_merged_all in Hs by (apply Z.lt_le_incl, Hg). rewrite <- total_entries in Hs.
  apply sum_le_eq in Hs; [| apply Forall2_fmap, Forall_Forall2_diag, Forall_forall; intros; apply merged_count_le].
  apply (f_equal (fun l => l !! Z.to_nat j)) in Hs. change (map ?f (range nb)) with (f <$> range nb) in Hs. rewrite !list_lookup_fmap in Hs.
  unfold range in Hs. rewrite (proj2 (lookup_seqZ 0 nb (Z.to_nat j) j)) in Hs by (split; lia). by injection Hs.
Qed.

Lemma count_small es j : (forall x, x ∈ es -> len (in_block g j x) < 2 ^ 16) <-> merged_count es j = len (in_block g j (concat es)).
Proof using Hg.
  unfold merged_count. induction es as [| x es IH]; [split; [done | intros _ x Hx; set_solver] |]. cbn [map concat]. rewrite in_block_app, len_app.
  change (sum (c16 j x :: map (c16 j) es)) with (c16 j x + merged_count es j). pose proof (c16_le j x) as Hx. pose proof (merged_count_le es j) as Hes.
  fold (merged_count es j) in IH. pose proof (len_nonneg (in_block g j x)) as H0. split.
  - intros H. rewrite (proj1 IH) by (intros y Hy; apply H; set_solver). f_equal. apply u16_id. unfold is_u. split; [done |]. apply H. set_solver.
  - intros Heq y [-> | Hy]%elem_of_cons.
    + assert (c16 j x = len (in_block g j x)) as <- by lia. apply u16_is.
    + apply (proj2 IH); [lia | done].
Qed.

Lemma mergeBlockCounts_counts allWS u : shaped g u -> Forall2 counted allWS Es -> len (concat Es) < 2 ^ 64 ->
  wps (mergeBlockCounts allWS) u
    (fun _ u' => u' = set_merged (merged_all (g_parts g)) u /\ sum (concat (merged_all (g_parts g))) = totalKeys (g_cfg g))
    (fun e u' => e = ErrBlockOverflow /\ u' = set_merged (merged_all (g_parts g)) u /\ sum (concat (merged_all (g_parts g))) <> totalKeys (g_cfg g)).
Proof using Hg.
  intros Hu Hws Hlt. unfold mergeBlockCounts. apply wps_bind, wps_gets, wps_bind, wps_lift. cbn [id]. pose proof (go_parts _ Hg) as Hp. pose proof (go_bpp _ Hg) as Hb.
  rewrite (sh_parts _ _ Hu), (sh_bpp _ _ Hu).
  assert (forall n, 0 <= n <= g_parts g -> 0 <= sum (concat (merged_all n)) <= len (concat Es)) as Hbound.
  { intros n Hn. rewrite sum_merged_all by lia. apply merged_total. nia. }
  eapply wp_mono; [apply (wp_foldM_prefix (fun pre (s : list (list Z) * Z) => s = (merged_all (len pre), sum (concat (merged_all (len pre))))) no_err) | | done].
  - done.
  - intros pre p post s Heq ->. apply range_prefix in Heq as [-> Hpp]. cbn [fst snd].
    pose proof (Hbound (len pre) ltac:(lia)) as H0. pose proof (Hbound (len pre + 1) ltac:(lia)) as H1.
    rewrite merged_all_succ, concat_app, sum_app in H1 by lia. cbn [concat] in H1. rewrite app_nil_r in H1.
    rewrite mergePartition_spec by (done || lia). cbn [mbind res_bind]. apply wp_ok. rewrite len_app, len_single, merged_all_succ by lia.
    rewrite concat_app, sum_app. cbn [concat]. by rewrite app_nil_r.
  - intros s ->. assert (len (range (g_parts g)) = g_parts g) as -> by (unfold len; rewrite length_range; lia).
    apply wps_bind, wps_modify. cbn [u_cfg set_merged]. rewrite (sh_cfg _ _ Hu).
    destruct (Z.eqb_spec (sum (concat (merged_all (g_parts g)))) (totalKeys (g_cfg g))); cbn [negb]; [by apply wps_ret | by apply wps_fail].
Qed.

Lemma merged_all_exact : (forall j, 0 <= j < nb -> merged_count Es j = len (in_block g j (concat Es))) ->
  forall p, 0 <= p < g_parts g -> exists counts, merged_all (g_parts g) !! Z.to_nat p = Some counts /\ exact_counts g Es p counts.
Proof using Hg.
  intros H p Hp. pose proof (go_bpp _ Hg). exists (merged_row p Es). split.
  - unfold merged_all. change (map ?f (range (g_parts g))) with (f <$> range (g_parts g)). rewrite list_lookup_fmap. unfold range.
    by rewrite (proj2 (lookup_seqZ 0 (g_parts g) (Z.to_nat p) p)) by (split; lia).
  - split; [unfold merged_row, len; rewrite length_map, length_range; lia |]. intros j Hj. unfold merged_row.
    change (map ?f (range (g_bpp g))) with (f <$> range (g_bpp g)). rewrite list_lookup_fmap. unfold range.
    rewrite (proj2 (lookup_seqZ 0 (g_bpp g) (Z.to_nat j) j)) by (split; lia). cbn. f_equal. apply H. nia.
Qed.

Lemma merge_spec allWS u : shaped g u -> Forall2 counted allWS Es -> len (concat Es) = totalKeys (g_cfg g) -> totalKeys (g_cfg g) < 2 ^ 64 ->
  wps (mergeBlockCounts allWS) u
    (fun _ u' => u' = set_merged (merged_all (g_parts g)) u /\ forall j, 0 <= j < nb -> merged_count Es j = len (in_block g j (concat Es)))
    (fun e u' => e = ErrBlockOverflow /\ ~ forall j, 0 <= j < nb -> merged_count Es j = len (in_block g j (concat Es))).
Proof using Hg.
  intros Hu Hws Hk Hlt. eapply wps_mono; [apply (mergeBlockCounts_counts allWS u Hu Hws); lia | |].
  - intros [] u' [-> Hs]. split; [done |]. apply merged_exact. lia.
  - intros e u' (-> & _ & Hne). split; [done |]. intros H. apply Hne. rewrite <- Hk, <- total_entries, sum_merged_all by (apply Z.lt_le_incl, Hg).
    f_equal. apply map_ext_in. intros j Hj%list_elem_of_In%elem_of_range. by apply H.
Qed.

(** C4: the merged block counts are the true ones, or the build ends here. When
    the writers hold as many entries as keys were announced, [mergeBlockCounts]
    succeeds exactly when no writer counted more than 65535 entries of one block,
    and then every merged count is the number of entries of that block; a 16-bit
    count that wrapped gives [ErrBlockOverflow], whatever the other counts are. *)
Theorem mergeBlockCounts_exact allWS u : shaped g u -> Forall2 counted allWS Es -> len (concat Es) = totalKeys (g_cfg g) -> totalKeys (g_cfg g) < 2 ^ 64 ->
  wps (mergeBlockCounts allWS) u
    (fun _ u' => (forall es j, es ∈ Es -> 0 <= j < nb -> len (in_block g j es) < 2 ^ 16) /\
       forall p, 0 <= p < g_parts g -> exists counts, mergedBlockCounts u' !! Z.to_nat p = Some counts /\ exact_counts g Es p counts)
    (fun e _ => e = ErrBlockOverflow /\ exists es j, es ∈ Es /\ 2 ^ 16 <= len (in_block g j es)).
Proof using Hg.
  intros Hu Hws Hk Hlt. eapply wps_mono; [by apply (merge_spec allWS u) | |].
  - intros [] u' [-> H]. split; [| by apply merged_all_exact]. intros es j Hes Hj. by apply (proj2 (count_small Es j) (H j Hj)).
  - intros e u' [-> Hne]. split; [done |].
    destruct (decide (Forall (fun es => Forall (fun j => len (in_block g j es) < 2 ^ 16) (range nb)) Es)) as [Hall | Hsome].
    + exfalso. apply Hne. intros j Hj. apply count_small. intros es Hes. rewrite Forall_forall in Hall. specialize (Hall es Hes).
      rewrite Forall_forall in Hall. apply Hall. by apply elem_of_range.
    + apply not_Forall_Exists in Hsome; [| intros es; apply _]. apply Exists_exists in Hsome as (es & Hes & Hn).
      apply not_Forall_Exists in Hn; [| intros j; apply _]. apply Exists_exists in Hn as (j & _ & Hj). exists es, j. split; [done |]. cbn in Hj. lia.
Qed.
End merge.

(** Two writers with an entry each, of one block. *)
Definition example_counts : list writerState := [mk_ws 0 ([], []) ([], []) false 0 10 2 [] None None [[1]]; mk_ws 1 ([], []) ([], []) false 0 10 2 [] None None [[1]]].

Lemma mergeBlockCounts_exact_witness :
  let g := example_geometry in let Es := [[mk_buffered 3 5 77]; [mk_buffered 4 5 78]] in
  wps (mergeBlockCounts example_counts) example_buffer
    (fun _ u' => (forall es j, es ∈ Es -> 0 <= j < g_parts g * g_bpp g -> len (in_block g j es) < 2 ^ 16) /\
       forall p, 0 <= p < g_parts g -> exists counts, mergedBlockCounts u' !! Z.to_nat p = Some counts /\ exact_counts g Es p counts)
    (fun e _ => e = ErrBlockOverflow /\ exists es j, es ∈ Es /\ 2 ^ 16 <= len (in_block g j es)).
Proof.
  apply (mergeBlockCounts_exact example_geometry example_geometry_ok [[mk_buffered 3 5 77]; [mk_buffered 4 5 78]] example_counts).
  - by split.
  - assert (forall p, 0 <= p < 1 -> p = 0) as H0 by (intros; lia).
    repeat constructor; intros p Hp; cbn in Hp; rewrite (H0 p Hp); exists [1]; (split; [done |]); (split; [done |]); intros j Hj; cbn in Hj; by rewrite (H0 j Hj).
  - done.
  - done.
Defined.
