(* ===== verification/UnsortedBuilder.v ===== *)
(** * [builder_unsorted.go], [builder_unsorted_finish.go]: the unsorted builder

    [AddKey] works with one writer that the builder creates at the first key;
    [AddKeys] with one writer per goroutine. [Finish] builds the blocks, from
    memory when nothing was ever flushed, and otherwise from the temporary files,
    in place or by way of the pipeline. *)
From Stdlib Require Import String.
From S2P Require Import Prelude Words Bits Encoding Key Floats Entries Header Algorithm Block Index File Options Writer Builder Pipeline UnsortedBuffer UnsortedRead.
#[local] Open Scope Z_scope.

(** [for _, a := range l] with a value carried from round to round. *)
Fixpoint foldS {S A B} (f : A -> B -> stM S A) (a : A) (l : list B) : stM S A :=
  match l with
  | [] => mret a
  | b :: l => a' ← f a b; foldS f a' l
  end.

(** A loop whose body may return from the function early, with [false]. *)
Fixpoint forW {S B} (f : B -> stM S bool) (l : list B) : stM S bool :=
  match l with
  | [] => mret true
  | b :: l => ok ← f b; if (ok : bool) then forW f l else mret false
  end.

(** The writers of [AddKeys] run at the same time; here: in which order they take
    their steps (adding a key, or closing). *)
Class Sched := { schedule : list nat }.

Section unsorted.
Context `{HX : !XXHash} `{HO : !OS} `{HT : !Temp} `{HS : !Sched}.

Record unsortedWriter := mk_uw { uw_ws : writerState; keysAdded : Z; uw_keyCounter : Z; uw_closed : bool }.

Record UnsortedBuilder := mk_ub {
  ub_b : builder;
  addKeyUsed : bool;
  addKeysUsed : bool;
  initialized : bool;
  unsortedBuf : option unsortedBuffer;
  defaultWriterWS : option writerState;
  ub_writers : list unsortedWriter
}.

Definition set_core (b : builder) (ub : UnsortedBuilder) : UnsortedBuilder :=
  mk_ub b (addKeyUsed ub) (addKeysUsed ub) (initialized ub) (unsortedBuf ub) (defaultWriterWS ub) (ub_writers ub).
Definition set_modes (k ks i : bool) (ub : UnsortedBuilder) : UnsortedBuilder :=
  mk_ub (ub_b ub) k ks i (unsortedBuf ub) (defaultWriterWS ub) (ub_writers ub).
Definition set_buf (u : option unsortedBuffer) (ub : UnsortedBuilder) : UnsortedBuilder :=
  mk_ub (ub_b ub) (addKeyUsed ub) (addKeysUsed ub) (initialized ub) u (defaultWriterWS ub) (ub_writers ub).
Definition set_default (ws : option writerState) (ub : UnsortedBuilder) : UnsortedBuilder :=
  mk_ub (ub_b ub) (addKeyUsed ub) (addKeysUsed ub) (initialized ub) (unsortedBuf ub) ws (ub_writers ub).
Definition set_writers (w : list unsortedWriter) (ub : UnsortedBuilder) : UnsortedBuilder :=
  mk_ub (ub_b ub) (addKeyUsed ub) (addKeysUsed ub) (initialized ub) (unsortedBuf ub) (defaultWriterWS ub) w.

(** Operations of a part: the builder, the buffer, a writer on the buffer. A nil
    buffer or writer is dereferenced to a panic. *)
Definition on_core {A} (m : stM builder A) : stM UnsortedBuilder A := zoom ub_b set_core m.

Definition on_buf {A} (m : stM unsortedBuffer A) : stM UnsortedBuilder A := fun ub =>
  match unsortedBuf ub with
  | Some u => match m u with Ok (u, r) => Ok (set_buf (Some u) ub, r) | Err e => Err e | Panic => Panic end
  | None => Panic
  end.

Definition on_default {A} (m : stM wst A) : stM UnsortedBuilder A := fun ub =>
  match unsortedBuf ub, defaultWriterWS ub with
  | Some u, Some ws =>
      match m (u, ws) with Ok (s, r) => Ok (set_default (Some s.2) (set_buf (Some s.1) ub), r) | Err e => Err e | Panic => Panic end
  | _, _ => Panic
  end.

Definition uwst : Type := builder * (unsortedBuffer * unsortedWriter).

Definition on_writer {A} (i : Z) (m : stM uwst A) : stM UnsortedBuilder A := fun ub =>
  match unsortedBuf ub, idx (ub_writers ub) i with
  | Some u, Ok w =>
      match m (ub_b ub, (u, w)) with
      | Ok (s, r) => Ok (set_writers (<[Z.to_nat i := s.2.2]> (ub_writers ub)) (set_buf (Some s.2.1) (set_core s.1 ub)), r)
      | Err e => Err e
      | Panic => Panic
      end
  | _, _ => Panic
  end.

(** A writer's state, and the builder, seen from a goroutine. *)
Definition put_ws (s : wst) (x : uwst) : uwst := (x.1, (s.1, mk_uw s.2 (keysAdded x.2.2) (uw_keyCounter x.2.2) (uw_closed x.2.2))).
Definition get_ws (x : uwst) : wst := (x.2.1, uw_ws x.2.2).
Definition on_uws {A} (m : stM wst A) : stM uwst A := zoom get_ws put_ws m.
Definition put_b (b : builder) (x : uwst) : uwst := (b, x.2).
Definition set_uw (added counter : Z) (closed : bool) (x : uwst) : uwst := (x.1, (x.2.1, mk_uw (uw_ws x.2.2) added counter closed)).

Context `{HE : !Env}.

(** ** Creating the builder *)

(** The index writer shares the configuration. *)
Definition set_tempDir (dir : string) (b : builder) : builder :=
  let cfg := set_unsortedTempDir dir (b_cfg b) in
  let w := b_iw b in
  let w := mk_iw (file w) (payloadRegionOffset w) (metadataRegionOffset w) (userMetadataOffset w) (algoConfigOffset w)
    (ramIndexOffset w) (metadataWriteOffset w) (ramIndex w) (payloadHasher w) (metadataHasher w) (iw_header w)
    cfg (iw_numBlocks w) (estimatedSize w) (algo w) (keyCount w) (blockCount w) in
  mk_builder cfg (b_numBlocks b) w (b_blk b) (nextBlockToWrite b) (currentBlockIdx b) (firstKey b) (keyCounter b)
    (b_closed b) (b_workers b) (writerErr b) (pendingEntries b) (keysBefore b) (metadataBuf b) (payloadsBuf b)
    (lastBlockID b) (totalKeysAdded b) (works b) (questions b).

Definition NewUnsortedBuilder (totalKeys : Z) (tempDir : string) (opts : list BuildOption) : stM osfile UnsortedBuilder :=
  b ← newBuilder totalKeys opts;
  let b := set_tempDir tempDir b in
  if temp_dir_ok then mret (mk_ub b false false false None None [])
  else fun _ =>
    match (_ ← attempt (on_iw iw_close); attempt (on_iw (zoom file set_file osRemove))) b with
    | Ok (b, _) => Ok (file (b_iw b), inr ErrOther)
    | Err e => Err e
    | Panic => Panic
    end.

Definition initBuffer (numWriters : Z) (createDefaultWriter : bool) : stM UnsortedBuilder unit :=
  ub ← gets id;
  if initialized ub then mret tt
  else
    buf ← lift (newUnsortedBuffer (b_cfg (ub_b ub)) (b_numBlocks (ub_b ub)) numWriters);
    _ ← modify (set_buf (Some buf));
    _ ← (if createDefaultWriter then
           r ← attempt (on_buf newWriterState);
           match r with
           | inl ws => modify (set_default (Some ws))
           | inr e => _ ← attempt (on_buf u_cleanup); fail e
           end
         else mret tt);
    modify (fun ub => set_modes (addKeyUsed ub) (addKeysUsed ub) true ub).

(** ** Cleaning up *)

(** The background flushes are waited for before the files are closed; with the
    buffer gone none is under way. *)
Definition drainAll : stM UnsortedBuilder unit :=
  ub ← gets id;
  match unsortedBuf ub with
  | None => mret tt
  | Some _ =>
      _ ← (match defaultWriterWS ub with Some _ => on_default drainFlush | None => mret tt end);
      forM (fun i => on_writer i (on_uws drainFlush)) (range (len (ub_writers ub)))
  end.

Definition cleanupAll : stM UnsortedBuilder unit :=
  _ ← drainAll;
  ub ← gets id;
  _ ← (match unsortedBuf ub with
       | Some _ => _ ← on_buf u_cleanup; modify (set_buf None)
       | None => mret tt
       end);
  on_core cleanup.

(** [if err := m; err != nil { return errors.Join(err, ub.cleanupAll()) }] *)
Definition orCleanupAll {A} (m : stM UnsortedBuilder A) : stM UnsortedBuilder A :=
  r ← attempt m;
  match r with
  | inl a => mret a
  | inr e => _ ← attempt cleanupAll; fail e
  end.

Definition UB_Close : stM UnsortedBuilder unit :=
  ub ← gets id;
  if b_closed (ub_b ub) then mret tt
  else _ ← on_core (modify set_closed); cleanupAll.

(** ** Adding keys one by one *)

(** [AddKey] on an initialized builder; it has [writerState.addKey] inlined. *)
Definition addKeyFast (key : list Z) (payload : Z) : stM UnsortedBuilder unit :=
  ub ← gets id;
  if b_closed (ub_b ub) then fail ErrBuilderClosed
  else
    _ ← lift (validateKey (payloadSize (b_cfg (ub_b ub))) key payload);
    _ ← on_core (modify (fun b => set_keyCounter (keyCounter b + 1) b));
    ub ← gets id;
    _ ← (if contextCheckInterval <=? keyCounter (ub_b ub) then
           _ ← on_core (modify (set_keyCounter 0));
           c ← on_core (ask ctx_err);
           match c with Some e => fail e | None => mret tt end
         else mret tt);
    k0 ← lift (get_le 8 key 0);
    k1 ← lift (get_le 8 key 8);
    let blockIdx := route k0 (b_numBlocks (ub_b ub)) in
    _ ← on_default (ws_addKey k0 k1 payload blockIdx);
    on_core (modify (fun b => set_totalKeysAdded (u64 (totalKeysAdded b + 1)) b)).

Definition addKeyFirstCall (key : list Z) (payload : Z) : stM UnsortedBuilder unit :=
  ub ← gets id;
  if b_closed (ub_b ub) then fail ErrBuilderClosed
  else if addKeysUsed ub then fail ErrOther
  else
    _ ← modify (fun ub => set_modes true (addKeysUsed ub) (initialized ub) ub);
    r ← attempt (initBuffer 1 true);
    match r with
    | inr e => _ ← attempt (on_core cleanup); fail e
    | inl _ => addKeyFast key payload
    end.

Definition UB_AddKey (key : list Z) (payload : Z) : stM UnsortedBuilder unit :=
  ub ← gets id;
  if initialized ub then addKeyFast key payload else addKeyFirstCall key payload.

(** ** A block, in place or by way of the pipeline *)

(** [if blockID%blockContextCheckInterval == 0 { select ... }] *)
Definition checkBlockContext (blockID : Z) : stM UnsortedBuilder unit :=
  if blockID mod blockContextCheckInterval =? 0 then
    c ← on_core (ask ctx_err);
    match c with Some e => fail e | None => mret tt end
  else mret tt.

(** The block builder, filled and built. *)
Definition buildEntries (entries : list routedEntry) : stM builder unit :=
  _ ← modify resetCurrentBuilder;
  b ← gets id;
  blk ← lift (fill (fingerprintSize (b_cfg b)) (b_blk b) entries);
  _ ← modify (set_blk blk);
  buildBlock.

(** ** The fast path: everything is in memory *)

(** The entries of a writer's active buffer, partition by partition. *)
Definition collectEntries (u : unsortedBuffer) (ws : writerState) : res (list routedEntry) :=
  foldM (fun es p =>
    n ← idx (sel (activeBuf ws) (cursorSets ws)) p;
    let base := p * regionCap ws in
    part ← slice (sel (activeBuf ws) (flatBufs ws)) base (base + n);
    Ok (es ++ map (fun e => mk_routed (be_k0 e) (be_k1 e) (be_payload e)) part)) [] (range (numPartitions u)).

(** Counts, offsets and the entries sorted by block. *)
Definition countBlocks (numBlocks : Z) (ids : list Z) : res (list Z) :=
  foldM (fun counts bid => n ← idx counts bid; upd counts bid (n + 1)) (make 0 numBlocks) ids.

Definition blockOffsets (numBlocks : Z) (counts : list Z) : res (list Z) :=
  foldM (fun offsets i =>
    let i := i + 1 in
    o ← idx offsets (i - 1);
    n ← idx counts (i - 1);
    upd offsets i (o + n)) (make 0 numBlocks) (range (numBlocks - 1)).

Definition sortEntries (offsets : list Z) (entries : list routedEntry) (ids : list Z) : res (list routedEntry) :=
  '(sorted, _) ← foldM (fun s ie => scatter s ie.1 ie.2) (make zero_routed (len entries), offsets) (zip ids entries);
  Ok sorted.

(** A block of the sorted entries. *)
Definition fastBlock (sorted : list routedEntry) (offsets counts : list Z) (blockID : Z) : stM UnsortedBuilder unit :=
  ub ← gets id;
  _ ← checkBlockContext blockID;
  start ← lift (idx offsets blockID);
  n ← lift (idx counts blockID);
  if n =? 0 then
    if 1 <? b_workers (ub_b ub) then on_core (dispatchEmptyBlock blockID) else on_core commitEmptyBlock
  else
    blockEntries ← lift (slice sorted start (start + n));
    if 1 <? b_workers (ub_b ub) then on_core (dispatchBlockWork blockID blockEntries)
    else on_core (buildEntries blockEntries).

Definition is_nil {A} (l : list A) : bool := match l with [] => true | _ => false end.

(** The buffer's files are closed and the index is finished. *)
Definition finishBlocks : stM UnsortedBuilder unit :=
  _ ← on_buf u_cleanup;
  _ ← modify (set_buf None);
  ub ← gets id;
  if 1 <? b_workers (ub_b ub) then on_core drainParallelPipeline else on_core finalizeIndex.

Definition finishUnsortedFastPath : stM UnsortedBuilder unit :=
  ub ← gets id;
  match unsortedBuf ub with
  | None => lift Panic
  | Some u =>
      let allWS := (match defaultWriterWS ub with Some ws => [ws] | None => [] end) ++
                   map uw_ws (filter (fun w => is_nil (cursorSets (uw_ws w)).1 = false) (ub_writers ub)) in
      entries ← lift (foldM (fun es ws => part ← collectEntries u ws; Ok (es ++ part)) [] allWS);
      let entryBlockIDs := map (fun e => route (re_k0 e) (u_numBlocks u)) entries in
      _ ← modify (fun ub => set_default (ws_free <$> defaultWriterWS ub)
            (set_writers (map (fun w => mk_uw (if is_nil (cursorSets (uw_ws w)).1 then uw_ws w else ws_free (uw_ws w))
                                               (keysAdded w) (uw_keyCounter w) (uw_closed w)) (ub_writers ub)) ub));
      _ ← orCleanupAll (c ← on_core (ask ctx_err); match c with Some e => fail e | None => mret tt end);
      let numBlocks := u_numBlocks u in
      counts ← lift (countBlocks numBlocks entryBlockIDs);
      offsets ← lift (blockOffsets numBlocks counts);
      sorted ← lift (sortEntries offsets entries entryBlockIDs);
      _ ← forM (fun blockID => orCleanupAll (fastBlock sorted offsets counts blockID)) (range numBlocks);
      finishBlocks
  end.

(** ** One worker: partition after partition *)

(** The block seen through a view of the slot's buffer. *)
Definition viewEntries (slotIdx : Z) (v : Z * Z) : stM UnsortedBuilder (list routedEntry) :=
  on_buf (u ← gets id; slot ← lift (idx (readSlots u) slotIdx); lift (slice (flatBuf slot) v.1 (v.1 + v.2))).

Definition viewBlock (slotIdx partStartBlock : Z) (iv : Z * (Z * Z)) : stM UnsortedBuilder unit :=
  _ ← checkBlockContext (u32 (partStartBlock + u32 iv.1));
  if iv.2.2 =? 0 then on_core commitEmptyBlock
  else
    entries ← viewEntries slotIdx iv.2;
    on_core (buildEntries entries).

(** The next partition is read into the other slot while this one is built. *)
Definition singleRound (current : list (Z * Z) + error) (p : Z) : stM UnsortedBuilder (list (Z * Z) + error) :=
  ub ← gets id;
  match unsortedBuf ub with
  | None => lift Panic
  | Some u =>
      views ← orCleanupAll (match current with inl views => mret views | inr e => fail e end);
      next ← (if p + 1 <? numPartitions u then attempt (on_buf (readPartition (p + 1) ((p + 1) mod 2))) else mret current);
      _ ← forM (fun iv => orCleanupAll (viewBlock (p mod 2) (u32 (p * blocksPerPart u)) iv)) (zip (range (len views)) views);
      mret next
  end.

Definition finishUnsortedSingleThreaded : stM UnsortedBuilder unit :=
  ub ← gets id;
  match unsortedBuf ub with
  | None => lift Panic
  | Some u =>
      if numPartitions u <=? 0 then finishBlocks
      else
        first ← attempt (on_buf (readPartition 0 0));
        _ ← foldS singleRound first (range (numPartitions u));
        finishBlocks
  end.

(** ** More workers *)

(** [fail]: with a nil error it is the outcome of the clean-up that is returned;
    [false] says that the function returns here. *)
Definition failWith (err : option error) : stM UnsortedBuilder bool :=
  match err with
  | Some e => _ ← attempt cleanupAll; fail e
  | None => _ ← cleanupAll; mret false
  end.

(** A look at [writerDone], and at the parent context before it. *)
Definition checkPipeline : stM UnsortedBuilder bool :=
  c ← on_core (ask ctx_err);
  match c with
  | Some e => failWith (Some e)
  | None =>
      r ← on_core (ask pipe_poll);
      match r with
      | Some err => _ ← on_core (modify (set_writerErr err)); failWith err
      | None => mret true
      end
  end.

(** The entries of a block are sent to the workers. *)
Definition sendEntries (blockID : Z) (entries : list routedEntry) : stM UnsortedBuilder bool :=
  ub ← gets id;
  let work := mk_work blockID entries (keysBefore (ub_b ub)) in
  _ ← on_core (modify (fun b => set_next (u32 (blockID + 1)) (set_keysBefore (u64 (keysBefore b + len entries)) b)));
  r ← on_core (ask pipe_send);
  match r with
  | Sent => _ ← on_core (modify (add_work work)); mret true
  | Cancelled => failWith (Some ErrOther)
  | WriterDone err => _ ← on_core (modify (set_writerErr err)); failWith err
  end.

Definition sendBlock (slotIdx partStartBlock : Z) (iv : Z * (Z * Z)) : stM UnsortedBuilder bool :=
  let blockID := u32 (partStartBlock + u32 iv.1) in
  ok ← (if blockID mod blockContextCheckInterval =? 0 then checkPipeline else mret true);
  if (ok : bool) then
    if iv.2.2 =? 0 then
      r ← attempt (on_core (dispatchEmptyBlock blockID));
      match r with inl _ => mret true | inr e => failWith (Some e) end
    else
      entries ← viewEntries slotIdx iv.2;
      sendEntries blockID entries
  else mret false.

(** Partition [p] is read by reader [p mod numReaders], into its slots in turn;
    the slot is free again when the workers have copied what it held. *)
Definition parallelRound (numReaders p : Z) : stM UnsortedBuilder bool :=
  ub ← gets id;
  match unsortedBuf ub with
  | None => lift Panic
  | Some u =>
      let slotIdx := (p mod numReaders) * slotsPerReader + (p / numReaders) mod slotsPerReader in
      ok ← checkPipeline;
      if (ok : bool) then
        r ← attempt (on_buf (readPartition p slotIdx));
        match r with
        | inr e => failWith (Some e)
        | inl views => forW (sendBlock slotIdx (u32 (p * blocksPerPart u))) (zip (range (len views)) views)
        end
      else mret false
  end.

Definition finishUnsortedParallel : stM UnsortedBuilder unit :=
  ub ← gets id;
  match unsortedBuf ub with
  | None => lift Panic
  | Some u =>
      let numReaders := Z.max (len (readSlots u) / slotsPerReader) 1 in
      ok ← forW (parallelRound numReaders) (range (numPartitions u));
      if (ok : bool) then finishBlocks else mret tt
  end.

(** ** Finishing *)

(** Everything is in the files: the counts are merged, the partitions read. *)
Definition finishFlushed : stM UnsortedBuilder unit :=
  ub ← gets id;
  let allWS := (match defaultWriterWS ub with Some ws => [ws] | None => [] end) ++
               map uw_ws (filter (fun w => is_nil (blockCounts (uw_ws w)) = false) (ub_writers ub)) in
  _ ← orCleanupAll (on_buf (mergeBlockCounts allWS));
  _ ← modify (fun ub => set_default None
        (set_writers (map (fun w => mk_uw (freeBlockCounts (uw_ws w)) (keysAdded w) (uw_keyCounter w) (uw_closed w)) (ub_writers ub)) ub));
  let numSlots := if 1 <? b_workers (ub_b ub) then readPipelineDepth * slotsPerReader else 2 in
  _ ← orCleanupAll (on_buf (prepareForRead numSlots));
  if 1 <? b_workers (ub_b ub) then finishUnsortedParallel else finishUnsortedSingleThreaded.

Definition finishUnsorted : stM UnsortedBuilder unit :=
  ub ← gets id;
  match unsortedBuf ub with
  | None => lift Panic
  | Some u =>
      if negb (u_flushed u) then finishUnsortedFastPath
      else
        _ ← (match defaultWriterWS ub with Some _ => orCleanupAll (on_default flushAll) | None => mret tt end);
        finishFlushed
  end.

Definition UB_Finish : stM UnsortedBuilder unit :=
  ub ← gets id;
  if b_closed (ub_b ub) then fail ErrBuilderClosed
  else
    _ ← on_core (modify set_closed);
    let total := foldl (fun n w => u64 (n + keysAdded w)) (totalKeysAdded (ub_b ub)) (ub_writers ub) in
    if negb (total =? totalKeys (b_cfg (ub_b ub))) then orCleanupAll (fail ErrKeyCountMismatch)
    else
      match unsortedBuf ub with
      | None => on_core commitTrailingEmptyBlocksAndFinalize
      | Some _ => finishUnsorted
      end.

(** ** Adding keys with several writers *)

(** [unsortedWriter.addKey] *)
Definition uw_addKey (key : list Z) (payload : Z) : stM uwst unit :=
  x ← gets id;
  _ ← lift (validateKey (payloadSize (b_cfg x.1)) key payload);
  let counter := uw_keyCounter x.2.2 + 1 in
  _ ← modify (set_uw (keysAdded x.2.2) counter (uw_closed x.2.2));
  _ ← (if contextCheckInterval <=? counter then
         _ ← modify (set_uw (keysAdded x.2.2) 0 (uw_closed x.2.2));
         c ← zoom fst put_b (ask ctx_err);
         match c with Some e => fail e | None => mret tt end
       else mret tt);
  k0 ← lift (get_le 8 key 0);
  k1 ← lift (get_le 8 key 8);
  _ ← on_uws (ws_addKey k0 k1 payload (route k0 (b_numBlocks x.1)));
  modify (fun x => set_uw (u64 (keysAdded x.2.2 + 1)) (uw_keyCounter x.2.2) (uw_closed x.2.2) x).

(** [unsortedWriter.close] *)
Definition uw_close : stM uwst unit :=
  x ← gets id;
  if uw_closed x.2.2 then mret tt
  else
    _ ← modify (set_uw (keysAdded x.2.2) (uw_keyCounter x.2.2) true);
    _ ← on_uws flushAll;
    modify (fun x => put_ws (x.2.1, ws_free (uw_ws x.2.2)) x).

(** The goroutine of a writer: the keys its callback has still to add (it ends at
    the first error), and the error so far. *)
Record goroutine := mk_gor { g_todo : list (list Z * Z); g_err : option error; g_done : bool }.

(** Its next step: add a key, or close the writer. *)
Definition goroutineStep (i : Z) (r : goroutine) : stM UnsortedBuilder goroutine :=
  if g_done r then mret r
  else
    match g_todo r with
    | kp :: rest =>
        c ← attempt (on_writer i (uw_addKey kp.1 kp.2));
        match c with
        | inl _ => mret (mk_gor rest (g_err r) false)
        | inr e => mret (mk_gor [] (Some e) false)
        end
    | [] =>
        c ← attempt (on_writer i uw_close);
        match c, g_err r with
        | inr e, None => mret (mk_gor [] (Some e) true)
        | _, _ => mret (mk_gor [] (g_err r) true)
        end
    end.

(** One step of the writer the schedule names. *)
Definition scheduleStep (rs : list goroutine) (i : nat) : stM UnsortedBuilder (list goroutine) :=
  match rs !! i with
  | Some r => r' ← goroutineStep (Z.of_nat i) r; mret (<[i := r']> rs)
  | None => mret rs
  end.

(** The schedule, then every writer to its end. *)
Definition runWriters (rs : list goroutine) : stM UnsortedBuilder (list goroutine) :=
  foldS scheduleStep rs (schedule ++ concat (imap (fun i r => replicate (S (S (length (g_todo r)))) i) rs)).

(** [errors.Join]: the first error stands for all. *)
Definition joined (rs : list goroutine) : option error := head (omap g_err rs).

(** [AddKeys]; the keys that each writer's callback adds are [input]. *)
Definition UB_AddKeys (numWriters : Z) (input : Z -> list (list Z * Z)) : stM UnsortedBuilder unit :=
  ub ← gets id;
  if b_closed (ub_b ub) then fail ErrBuilderClosed
  else if addKeyUsed ub then fail ErrOther
  else
    _ ← modify (fun ub => set_modes (addKeyUsed ub) true (initialized ub) ub);
    if numWriters <? 1 then fail ErrOther
    else
      r ← attempt (initBuffer numWriters false);
      match r with
      | inr e => _ ← attempt (on_core cleanup); fail e
      | inl _ =>
          _ ← forM (fun _ =>
            r ← attempt (on_buf newWriterState);
            match r with
            | inl ws => modify (fun ub => set_writers (ub_writers ub ++ [mk_uw ws 0 0 false]) ub)
            | inr e => _ ← attempt UB_Close; fail e
            end) (range numWriters);
          rs ← runWriters (map (fun i => mk_gor (input i) None false) (range numWriters));
          match joined rs with
          | Some e => _ ← attempt UB_Close; fail e
          | None => UB_Finish
          end
      end.
End unsorted.
