(* ===== verification/UnsortedBlocks.v ===== *)
(** * The unsorted builder's blocks, one after the other

    Whatever path [Finish] takes, it gives the blocks to the core builder in
    order, to be built in place or sent to the pipeline. *)
From S2P Require Import Prelude Words Bits Encoding Key Floats Entries Header Algorithm Block Index Image File Options Writer WriterSpec Builder BuilderSpec SortedBuild Pipeline PipelineLive PipelineSafe ParallelBuild UnsortedBuffer UnsortedWrite UnsortedRead UnsortedReadSpec UnsortedBuilder.
#[local] Open Scope Z_scope.

Section blocks.
Context `{HX : !XXHash} {HL : XXHashLaws} `{HO : !OS} `{HE : !Env}.
Context (totalKeys : Z) (opts : list BuildOption).

#[local] Abbreviation cfg := (final_config totalKeys opts).
#[local] Abbreviation c := (block_config cfg).

(** The first [j] blocks are built or sent; they hold the keys [ks]. *)
Record progress (b : builder) (ks : list key) (j : Z) : Prop := {
  pg_cfg : b_cfg b = cfg;
  pg_num : b_numBlocks b = c_numBlocks c;
  pg_place : if 1 <? b_workers b then sends cfg c b /\ len (works b) = j /\ keys_sent c b = ks
             else exists bs cur, core cfg c b bs cur /\ len bs = j /\ keys_of bs = ks
}.

(** What adding keys and asking the environment change in the core builder. *)
Definition touch (b b' : builder) : Prop :=
  exists k t q cl, b' = mk_builder (b_cfg b) (b_numBlocks b) (b_iw b) (b_blk b) (nextBlockToWrite b) (currentBlockIdx b) (firstKey b) k cl (b_workers b)
    (writerErr b) (pendingEntries b) (keysBefore b) (metadataBuf b) (payloadsBuf b) (lastBlockID b) t (works b) q.

Lemma touch_progress b b' ks j : touch b b' -> progress b ks j -> progress b' ks j.
Proof.
  intros (k & t & q & cl & ->) [Hc Hn Hp]. split; [done | done |]. cbn [b_workers]. destruct (1 <? b_workers b).
  - destruct Hp as ([] & Hl & Hk). split; [by split | done].
  - destruct Hp as (bs & cur & [] & Hl & Hk). exists bs, cur. split; [by split | done].
Qed.

Lemma fresh_progress b : build_ok cfg c -> fresh totalKeys opts b -> progress b [] 0.
Proof.
  intros Hok Hfr. pose proof (bd_num _ _ Hok). split; [apply Hfr | apply Hfr |]. destruct (Z.ltb_spec 1 (b_workers b)).
  - pose proof (fresh_par totalKeys opts b Hok Hfr ltac:(done)) as [Hpos _]. destruct Hfr. split; [apply Hpos |]. unfold keys_sent. by rewrite fr_works.
  - exists [], []. split; [| done]. apply (sq_core _ _ _ _ _ _ (proj1 (fresh_seq totalKeys opts b Hfr ltac:(done)))).
Qed.

Definition ekey : routedEntry -> key := entry_key c.

(** The entries of a block: where they belong, and how many. *)
Record block_entries (j : Z) (es : list routedEntry) : Prop := {
  be_ok : entries_ok es;
  be_route : Forall (fun e => route (re_k0 e) (c_numBlocks c) = j) es;
  be_few : len es < 2 ^ 32
}.

Definition block_error (e : error) : Prop := pipeline_error e \/ e = ErrOther \/ e ∈ block_errors.

Lemma buildEntries_spec b bs cur es : build_ok cfg c -> core cfg c b bs cur -> block_entries (len bs) es -> len bs < c_numBlocks c ->
  wps (buildEntries es) b (fun _ b' => (exists blk, bd_keys blk = map ekey es /\ core cfg c b' (bs ++ [blk]) (map ekey es)) /\ same_progress b b')
    (fun e _ => e = ErrOther \/ e ∈ block_errors).
Proof.
  intros Hok Hb [He Hr Hf] Hlt. unfold buildEntries. apply wps_bind, wps_modify, wps_bind, wps_gets. cbn [id].
  assert (core cfg c (resetCurrentBuilder b) bs []) as Hb0 by (destruct Hb; split; try assumption; [exact (Reset_builds c cur _ co_builds) | constructor]).
  rewrite (co_cfg _ _ _ _ _ Hb0). destruct (fill_spec cfg c (b_blk (resetCurrentBuilder b)) es Hok He (co_builds _ _ _ _ _ Hb0)) as (blk & -> & Hblk).
  apply wps_bind, wps_lift, wp_ok, wps_bind, wps_modify.
  assert (core cfg c (set_blk blk (resetCurrentBuilder b)) bs (map ekey es)) as Hb1.
  { destruct Hb0. split; try assumption. apply Forall_fmap, Forall_forall. by intros e _. }
  eapply wps_mono; [apply (buildBlock_spec cfg c _ bs (map ekey es)); try done | | done].
  - unfold len. by rewrite length_map.
  - by apply Forall_fmap.
  - intros [] b' [Hb' Hs]. by split.
Qed.

Lemma keys_of_snoc bs blk : keys_of (bs ++ [blk]) = keys_of bs ++ bd_keys blk.
Proof. by rewrite keys_of_app, keys_of_single. Qed.

(** The next block, given to the core builder. *)
Lemma block_step b ks j es : build_ok cfg c -> progress b ks j -> j < c_numBlocks c -> block_entries j es ->
  wps (if len es =? 0 then (if 1 <? b_workers b then dispatchEmptyBlock j else commitEmptyBlock)
       else (if 1 <? b_workers b then dispatchBlockWork j es else buildEntries es)) b
    (fun _ b' => progress b' (ks ++ map ekey es) (j + 1) /\ b_closed b' = b_closed b /\ (1 <? b_workers b') = (1 <? b_workers b))
    (fun e _ => block_error e).
Proof.
  intros Hok [Hc Hn Hp] Hlt He. destruct (1 <? b_workers b) eqn:Hw.
  - destruct Hp as (Hs & Hl & Hk).
    assert ((if len es =? 0 then dispatchEmptyBlock j else dispatchBlockWork j es) = dispatchBlockWork j es) as ->.
    { destruct (Z.eqb_spec (len es) 0) as [H0 | _]; [| done]. destruct es; [done | rewrite len_cons in H0; pose proof (len_nonneg es); lia]. }
    rewrite <- Hl. destruct He as [He Hr Hf]. eapply wps_mono; [apply (dispatch_spec cfg c b es Hok Hs); try done; [lia |] | | by left].
    { eapply Forall_impl; [exact Hr |]. intros e <-. by rewrite Hl. }
    intros [] b' (Hs' & (_ & _ & _ & Hcl & _) & Hwk). assert (1 < b_workers b') as Hw' by apply Hs'. apply Z.ltb_lt in Hw'.
    split; [| split; [done | by rewrite Hw']].
    split; [apply Hs' | apply Hs' |]. rewrite Hw'. split; [done |]. rewrite Hwk, len_app, len_single. split; [done |].
    unfold keys_sent. rewrite Hwk, works_keys_app, works_keys_single. by rewrite <- Hk.
  - destruct Hp as (bs & cur & Hb & Hl & Hk). destruct (Z.eqb_spec (len es) 0) as [H0 | H0].
    + eapply wps_mono; [apply (commitEmptyBlock_spec cfg c b bs cur Hok Hb); lia | | intros e s' ->; right; by left].
      intros [] b' [(blk & Hblk & Hb') [_ (_ & _ & Hcl & Hwk & _)]]. split; [| by rewrite Hwk, Hw].
      assert (es = []) as -> by (destruct es; [done | rewrite len_cons in H0; pose proof (len_nonneg es); lia]).
      split; [apply Hb' | apply Hb' |]. rewrite Hwk, Hw. exists (bs ++ [blk]), []. split; [done |].
      rewrite len_app, len_single, keys_of_snoc, Hblk, Hk, Hl. done.
    + eapply wps_mono; [apply (buildEntries_spec b bs cur es Hok Hb); [by rewrite Hl | lia] | | intros e s' ?; by right].
      intros [] b' [(blk & Hblk & Hb') [_ (_ & _ & Hcl & Hwk & _)]]. split; [| by rewrite Hwk, Hw].
      split; [apply Hb' | apply Hb' |]. rewrite Hwk, Hw. exists (bs ++ [blk]), (map ekey es). split; [done |].
      rewrite len_app, len_single, keys_of_snoc, Hblk, Hk, Hl. done.
Qed.

(** The end of a build whose blocks are all built or sent. *)
Lemma finish_blocks_spec {HP : PipeLaws} b ks : build_ok cfg c -> limits_ok (algorithm cfg) totalKeys -> config_typed cfg ->
  progress b ks (c_numBlocks c) -> len ks = totalKeys ->
  wps (if 1 <? b_workers b then drainParallelPipeline else finalizeIndex) b
    (fun _ b' => build_result cfg c ks (file (b_iw b')) /\ b_closed b' = b_closed b)
    (fun e b' => block_error e /\ removed (file (b_iw b'))).
Proof using HL.
  intros Hok Hl Ht [Hc Hn Hp] Hk. destruct (1 <? b_workers b).
  - destruct Hp as (Hs & Hlw & <-). by apply (pipeline_drain_spec totalKeys opts b).
  - destruct Hp as (bs & cur & [] & Hlb & <-).
    eapply wps_mono; [by apply (finalizeIndex_spec cfg c b bs) | |].
    + intros [] b' [Hr [_ (_ & _ & Hcl & _)]]. by split.
    + intros e b' [-> Hr]. split; [right; by left | done].
Qed.
End blocks.

(** ** Cleaning up *)
Section cleaning.
Context `{HX : !XXHash} `{HO : !OS} `{HE : !Env} (g : geometry) (Hg : geometry_ok g).

(** A writer that can be waited for. *)
Definition drainable_ws (w : Z) (u : unsortedBuffer) (ws : writerState) : Prop :=
  flushing ws = None \/ exists W F A, winv g w (u, ws) W F A.

Record drainable (ub : UnsortedBuilder) : Prop := {
  dr_default : forall u ws, unsortedBuf ub = Some u -> defaultWriterWS ub = Some ws -> drainable_ws 0 u ws /\ ub_writers ub = [];
  dr_writers : forall u i w, unsortedBuf ub = Some u -> ub_writers ub !! i = Some w -> drainable_ws (Z.of_nat i) u (uw_ws w)
}.

Lemma empty_drainable ub : unsortedBuf ub = None -> drainable ub.
Proof using Type. intros Hu. split; [intros u ws Hb | intros u i w Hb]; by rewrite Hu in Hb. Qed.

Lemma drainable_touched w w' u u' ws : 0 <= w -> 0 <= w' -> w <> w' -> touched g w' u u' -> drainable_ws w u ws -> drainable_ws w u' ws.
Proof. intros Hw Hw' Hne Ht [Hf | (W & F & A & H)]; [by left | right]. exists W, F, A. by eapply (winv_touched g w w'). Qed.

Lemma drain_ws_spec w u ws : 0 <= w -> drainable_ws w u ws ->
  wps drainFlush (u, ws) (fun _ s' => touched g w u s'.1 /\ flushing s'.2 = None) (fun _ _ => False).
Proof using Hg.
  intros Hw [Hf | (W & F & A & H)]; unfold drainFlush.
  - unfold wait_flush. apply wps_bind, wps_gets. cbn [id snd]. rewrite Hf. apply wps_ret. split; [apply touched_refl | done].
  - eapply wps_mono; [by eapply (wait_flush_spec g Hg w) | | done]. by intros [] s' (Ht & Hn & _).
Qed.

Lemma on_default_spec {A} (m : stM wst A) ub u ws Q (E : error -> UnsortedBuilder -> Prop) : unsortedBuf ub = Some u -> defaultWriterWS ub = Some ws ->
  wps m (u, ws) (fun a s => Q a (set_default (Some s.2) (set_buf (Some s.1) ub))) (fun e s => E e (set_default (Some s.2) (set_buf (Some s.1) ub))) ->
  wps (on_default m) ub Q E.
Proof. intros Hu Hw. unfold wps, on_default. rewrite Hu, Hw. by destruct (m (u, ws)) as [[s' [a | e]] | |]. Qed.

Lemma on_buf_spec {A} (m : stM unsortedBuffer A) ub u Q (E : error -> UnsortedBuilder -> Prop) : unsortedBuf ub = Some u ->
  wps m u (fun a u' => Q a (set_buf (Some u') ub)) (fun e u' => E e (set_buf (Some u') ub)) -> wps (on_buf m) ub Q E.
Proof. intros Hu. unfold wps, on_buf. rewrite Hu. by destruct (m u) as [[u' [a | e]] | |]. Qed.

Definition with_writer (i : nat) (s : uwst) (ub : UnsortedBuilder) : UnsortedBuilder :=
  set_writers (<[i := s.2.2]> (ub_writers ub)) (set_buf (Some s.2.1) (set_core s.1 ub)).

Lemma on_writer_spec {A} (m : stM uwst A) ub u (i : nat) w Q (E : error -> UnsortedBuilder -> Prop) : unsortedBuf ub = Some u -> ub_writers ub !! i = Some w ->
  wps m (ub_b ub, (u, w)) (fun a s => Q a (with_writer i s ub)) (fun e s => E e (with_writer i s ub)) -> wps (on_writer (Z.of_nat i) m) ub Q E.
Proof.
  intros Hu Hw. unfold wps, on_writer, with_writer. rewrite Hu, (idx_nat _ _ _ Hw), Nat2Z.id. by destruct (m (ub_b ub, (u, w))) as [[s' [a | e]] | |].
Qed.

(** Everything is waited for. *)
Lemma drainAll_spec ub : drainable ub ->
  wps drainAll ub (fun _ ub' => (unsortedBuf ub' = None <-> unsortedBuf ub = None) /\ ub_b ub' = ub_b ub) (fun _ _ => False).
Proof using Hg.
  intros [Hd Hws]. unfold drainAll. apply wps_bind, wps_gets. cbn [id]. destruct (unsortedBuf ub) as [u |] eqn:Hu; [| by apply wps_ret].
  destruct (defaultWriterWS ub) as [ws |] eqn:Hdef.
  - destruct (Hd u ws eq_refl eq_refl) as [Hdr Hnil]. apply wps_bind. apply (on_default_spec _ _ u ws); [done | done |].
    eapply wps_mono; [by apply (drain_ws_spec 0) | | done]. intros [] s' _. cbn [ub_writers set_default set_buf]. rewrite Hnil. by apply wps_ret.
  - apply wps_bind, wps_ret.
    eapply wps_mono; [apply (wps_forM (fun pre s => ub_b s = ub_b ub /\ length (ub_writers s) = length (ub_writers ub) /\ exists u', unsortedBuf s = Some u' /\
      forall i w, ub_writers s !! i = Some w -> drainable_ws (Z.of_nat i) u' (uw_ws w)) (fun _ _ => False)) | | done].
    + split; [done |]. split; [done |]. exists u. split; [done |]. intros i w. by apply Hws.
    + intros pre i post s Heq (Hb & Hlen & u' & Hu' & Hdr). apply range_prefix in Heq as [-> Hi].
      destruct (lookup_lt_is_Some_2 (ub_writers s) (length pre)) as [w Hw]; [unfold len in Hi; lia |]. unfold len.
      apply (on_writer_spec _ s u' (length pre) w); [done | done |]. unfold on_uws. apply wps_zoom.
      eapply wps_mono; [apply (drain_ws_spec (Z.of_nat (length pre))); [lia | by apply Hdr] | | done].
      intros [] s' [Ht Hn]. unfold with_writer. cbn [put_ws fst snd ub_b ub_writers unsortedBuf set_writers set_buf set_core]. split; [done |].
      split; [by rewrite length_insert |]. exists s'.1. split; [done |]. intros j w' Hj. destruct (decide (j = length pre)) as [-> | Hne].
      * rewrite list_lookup_insert_eq in Hj by (by eapply lookup_lt_Some). injection Hj as <-. by left.
      * rewrite list_lookup_insert_ne in Hj by done. eapply (drainable_touched _ (Z.of_nat (length pre))); [lia | lia | lia | exact Ht | by apply Hdr].
    + intros [] s (Hb & _ & u' & Hu' & _). split; [by rewrite Hu' | done].
Qed.

Lemma u_cleanup_spec u : wps u_cleanup u (fun _ _ => True) (fun _ _ => False).
Proof. done. Qed.

(** The output file is removed and the buffer is gone. *)
Definition cleaned (ub : UnsortedBuilder) : Prop := removed (file (b_iw (ub_b ub))) /\ unsortedBuf ub = None.

Lemma cleanupAll_spec ub : drainable ub ->
  wps cleanupAll ub (fun _ ub' => cleaned ub') (fun _ ub' => cleaned ub').
Proof using Hg.
  intros Hd. unfold cleanupAll. apply wps_bind. eapply wps_mono; [by apply drainAll_spec | | done].
  intros [] s [_ _]. apply wps_bind, wps_gets. cbn [id]. apply wps_bind.
  eapply (wps_mono _ _ (fun _ s' => unsortedBuf s' = None) _ (fun _ _ => False)); [| | done].
  - destruct (unsortedBuf s) as [u |] eqn:Hu; [| by apply wps_ret]. apply wps_bind. by apply (on_buf_spec _ s u).
  - intros [] s' Hn. unfold on_core. apply wps_zoom. eapply wps_mono; [apply cleanup_spec | |]; intros; by split.
Qed.

Lemma orCleanupAll_spec {A} (m : stM UnsortedBuilder A) ub Q (E : error -> Prop) :
  wps m ub Q (fun e ub' => E e /\ drainable ub') -> wps (orCleanupAll m) ub Q (fun e ub' => E e /\ cleaned ub').
Proof using Hg.
  intros Hm. unfold orCleanupAll. apply wps_bind, wps_attempt. eapply wps_mono; [exact Hm | by intros |].
  intros e s [He Hd]. apply wps_bind, wps_attempt. eapply wps_mono; [by apply cleanupAll_spec | |]; intros; by apply wps_fail.
Qed.
End cleaning.
