(* ===== verification/UnsortedFinish.v ===== *)
(** * Finishing an unsorted build: every block gets its keys

    The three ways [Finish] goes over the blocks (in memory, partition by
    partition, with more workers) keep one invariant: the first blocks are built
    or sent, with the entries that belong to them. *)
From S2P Require Import Prelude Words Bits Encoding Key Floats Entries Header Algorithm Block Index Image File Options Writer WriterSpec Builder BuilderSpec SortedBuild Pipeline PipelineLive PipelineSafe ParallelBuild UnsortedBuffer UnsortedWrite UnsortedRead UnsortedReadSpec UnsortedMerge UnsortedBuilder UnsortedBlocks.
#[local] Open Scope Z_scope.

Section finish.
Context `{HX : !XXHash} {HL : XXHashLaws} `{HO : !OS} `{HE : !Env}.
Context (g : geometry) (Hg : geometry_ok g) (totalKeys : Z) (opts : list BuildOption).

#[local] Abbreviation cfg := (final_config totalKeys opts).
#[local] Abbreviation c := (block_config cfg).

Context (Hok : build_ok cfg c) (Hblocks : g_blocks g = c_numBlocks c).
(** All entries, and what an entry has become when it reaches the block builder. *)
Context (all : list bufferedEntry) (val : bufferedEntry -> routedEntry).
Context (Hval : forall e, re_k0 (val e) = be_k0 e /\ re_k1 (val e) = be_k1 e).
Context (Hall : Forall entry_ok all) (Hsmall : forall j, len (in_block g j all) < 2 ^ 32).

(** The keys of a block, of the first blocks. *)
Definition bkeys (j : Z) : list key := map (fun e => ekey totalKeys opts (val e)) (in_block g j all).
Definition keys_to (n : Z) : list key := concat (map bkeys (range n)).

Lemma keys_to_succ n : 0 <= n -> keys_to (n + 1) = keys_to n ++ bkeys n.
Proof using Type. intros Hn. unfold keys_to. rewrite (range_succ n Hn), map_app, concat_app. cbn [map concat]. by rewrite app_nil_r. Qed.

Lemma keys_to_permutation : keys_to (g_blocks g) ≡ₚ map (fun e => ekey totalKeys opts (val e)) all.
Proof using Hg.
  unfold keys_to, bkeys.
  transitivity (map (fun e => ekey totalKeys opts (val e)) (concat (map (fun j => in_block g j all) (range (g_blocks g))))).
  - by rewrite concat_map, map_map.
  - apply Permutation_map, (by_key_permutation (block_id g)); [apply NoDup_range |].
    intros e _. by apply elem_of_range, block_id_bound.
Qed.

Lemma block_entries_at j : block_entries totalKeys opts j (map val (in_block g j all)).
Proof using Hall Hblocks Hsmall Hval.
  split.
  - apply Forall_fmap, Forall_forall. intros e [_ He]%list_elem_of_filter. pose proof (proj1 (Forall_forall _ _) Hall e He) as []. cbn. destruct (Hval e) as [-> ->]. by split.
  - apply Forall_fmap, Forall_forall. intros e [Hj _]%list_elem_of_filter. cbn. by rewrite (proj1 (Hval e)), <- Hblocks.
  - unfold len. rewrite length_map. apply Hsmall.
Qed.

(** No flush is under way. *)
Record idle (ub : UnsortedBuilder) : Prop := {
  id_default : forall ws, defaultWriterWS ub = Some ws -> flushing ws = None /\ ub_writers ub = [];
  id_writers : forall i w, ub_writers ub !! i = Some w -> flushing (uw_ws w) = None
}.

Lemma idle_drainable ub : idle ub -> drainable g ub.
Proof using Type.
  intros [Hd Hw]. split.
  - intros u ws _ Hws. destruct (Hd ws Hws). split; [by left | done].
  - intros u i w _ Hi. left. by eapply Hw.
Qed.

(** The first [j] blocks are done; [cl] and [wk] stay: closed, several workers. *)
Record at_block (cl wk : bool) (ub : UnsortedBuilder) (u : unsortedBuffer) (j : Z) : Prop := {
  ab_buf : unsortedBuf ub = Some u;
  ab_idle : idle ub;
  ab_progress : progress totalKeys opts (ub_b ub) (keys_to j) j;
  ab_closed : b_closed (ub_b ub) = cl;
  ab_workers : (1 <? b_workers (ub_b ub)) = wk
}.

Lemma set_core_idle b ub : idle ub -> idle (set_core b ub).
Proof using Type. by intros []. Qed.

Lemma set_buf_idle u ub : idle ub -> idle (set_buf u ub).
Proof using Type. by intros []. Qed.

Lemma set_buf_same ub u : unsortedBuf ub = Some u -> set_buf (Some u) ub = ub.
Proof using Type. destruct ub; cbn. by intros ->. Qed.

Lemma at_block_asked cl wk ub u j : at_block cl wk ub u j -> at_block cl wk (set_core (asked (ub_b ub)) ub) u j.
Proof using Type.
  intros [Hb Hi Hp Hc Hw]. split; [done | by apply set_core_idle | | done | done].
  eapply touch_progress; [| exact Hp]. by eexists _, _, _, _.
Qed.

Lemma at_block_buf cl wk ub u u' j : at_block cl wk ub u j -> at_block cl wk (set_buf (Some u') ub) u' j.
Proof using Type. intros []. split; try done. by apply set_buf_idle. Qed.

Definition unsorted_error (e : error) : Prop := context_error e \/ block_error e \/ e = ErrBlockOverflow.

(** Looking at the context. *)
Lemma ask_context_spec cl wk ub u j : at_block cl wk ub u j ->
  wps (c ← on_core (ask ctx_err); match c with Some e => fail e | None => mret tt end) ub
    (fun _ ub' => at_block cl wk ub' u j) (fun e ub' => unsorted_error e /\ idle ub').
Proof using Type.
  intros Hab. pose proof (at_block_asked cl wk ub u j Hab) as Hab'. apply wps_bind. unfold on_core. apply wps_zoom, wps_ask. intros n.
  destruct (ctx_err n) as [e |] eqn:He; [| by apply wps_ret]. apply wps_fail. split; [left; by apply (context_said n) | apply Hab'].
Qed.

Lemma checkBlockContext_spec cl wk ub u j id : at_block cl wk ub u j ->
  wps (checkBlockContext id) ub (fun _ ub' => at_block cl wk ub' u j) (fun e ub' => unsorted_error e /\ idle ub').
Proof using Type. intros Hab. unfold checkBlockContext. destruct (_ =? 0); [by apply ask_context_spec | by apply wps_ret]. Qed.

(** The next block, to the core builder. *)
Lemma give_block cl wk ub u j : at_block cl wk ub u j -> 0 <= j < g_blocks g ->
  let es := map val (in_block g j all) in
  wps (if len es =? 0 then (if wk then on_core (dispatchEmptyBlock j) else on_core commitEmptyBlock)
       else (if wk then on_core (dispatchBlockWork j es) else on_core (buildEntries es))) ub
    (fun _ ub' => at_block cl wk ub' u (j + 1)) (fun e ub' => unsorted_error e /\ idle ub').
Proof using Hok Hblocks Hval Hall Hsmall.
  intros [Hb Hi Hp Hc Hw] Hj es.
  pose proof (block_step totalKeys opts (ub_b ub) (keys_to j) j es Hok Hp ltac:(lia) (block_entries_at j)) as Hs.
  rewrite Hw in Hs.
  assert (forall m : stM builder unit, wps m (ub_b ub)
      (fun _ b' => progress totalKeys opts b' (keys_to j ++ map (ekey totalKeys opts) es) (j + 1) /\ b_closed b' = b_closed (ub_b ub) /\ (1 <? b_workers b') = wk)
      (fun e _ => block_error e) ->
    wps (on_core m) ub (fun _ ub' => at_block cl wk ub' u (j + 1)) (fun e ub' => unsorted_error e /\ idle ub')) as Hm.
  { intros m H. unfold on_core. apply wps_zoom. eapply wps_mono; [exact H | |].
    - intros [] b' (Hp' & Hc' & Hw'). split; [done | by apply set_core_idle | | by rewrite <- Hc | done].
      cbn [ub_b set_core]. rewrite keys_to_succ by lia. unfold bkeys. by rewrite <- (map_map val (ekey totalKeys opts)).
    - intros e b' He. split; [right; by left | by apply set_core_idle]. }
  destruct (len es =? 0), wk; by apply Hm.
Qed.

(** All blocks done: the index is finished. *)
Lemma finishBlocks_spec {HP : PipeLaws} cl wk ub u : limits_ok (algorithm cfg) totalKeys -> config_typed cfg -> len all = totalKeys ->
  at_block cl wk ub u (g_blocks g) ->
  wps finishBlocks ub (fun _ ub' => build_result cfg c (keys_to (g_blocks g)) (file (b_iw (ub_b ub'))) /\ b_closed (ub_b ub') = cl)
    (fun e ub' => unsorted_error e /\ cleaned ub').
Proof using HL Hg Hok Hblocks.
  intros Hlim Ht Hlen [Hb Hi Hp Hc Hw]. unfold finishBlocks. apply wps_bind. apply (on_buf_spec _ ub u); [done |].
  eapply wps_mono; [apply u_cleanup_spec | | done]. intros [] u' _. apply wps_bind, wps_modify, wps_bind, wps_gets. cbn [id ub_b set_buf].
  assert (len (keys_to (g_blocks g)) = totalKeys) as Hk.
  { unfold len. rewrite (Permutation_length keys_to_permutation), length_map. exact Hlen. }
  rewrite Hblocks in Hp at 2.
  pose proof (finish_blocks_spec totalKeys opts (ub_b ub) _ Hok Hlim Ht Hp Hk) as Hf.
  destruct (1 <? b_workers (ub_b ub)); unfold on_core; apply wps_zoom; (eapply wps_mono; [exact Hf | |]).
  1, 3: intros [] b' [Hr Hcl]; split; [done | by rewrite <- Hc].
  all: intros e b' [He Hr]; split; [right; by left | by split].
Qed.
End finish.
