(* ===== verification/UnsortedPartitions.v ===== *)
(** * The read phase: partition after partition *)
From S2P Require Import Prelude Words Bits Encoding Key Floats Entries Header Algorithm Block Index Image File Options Writer WriterSpec Builder BuilderSpec SortedBuild Pipeline PipelineLive PipelineSafe ParallelBuild UnsortedBuffer UnsortedWrite UnsortedRead UnsortedReadSpec UnsortedMerge UnsortedBuilder UnsortedBlocks UnsortedFinish.
#[local] Open Scope Z_scope.

(** ** The slots *)
Section slots.
Context `{HO : !OS} (g : geometry) (Hg : geometry_ok g) (Es : list (list bufferedEntry)).

(** [n] slots, each with room for any partition. *)
Record slots_ok (n : Z) (u : unsortedBuffer) : Prop := {
  so_len : len (readSlots u) = n;
  so_slot : forall (i : nat) slot, readSlots u !! i = Some slot -> entry_size g <= len (readBuf slot) /\
    forall p, 0 <= p < g_parts g -> len (in_part g p (concat Es)) <= len (flatBuf slot)
}.

Lemma partition_bytes p u : on_disks g Es u -> 0 <= p < g_parts g ->
  wp (foldM (fun n w => row ← idx (writerCursors u) w; c ← idx row p; Ok (n + c)) 0 (range (numWriters u)))
    (fun n => n = len (in_part g p (concat Es)) * entry_size g) no_err.
Proof using Type.
  intros [Hs Hl Hd] Hp. rewrite (sh_writers _ _ Hs).
  eapply wp_mono; [apply (wp_foldM_prefix (fun pre n => n = len (in_part g p (concat (take (length pre) Es))) * entry_size g)) | | done].
  - done.
  - intros pre w post n Heq ->. apply range_prefix in Heq as [-> Hw].
    destruct (lookup_lt_is_Some_2 Es (length pre)) as [es Hes]; [unfold len in *; lia |].
    destruct (Hd _ _ Hes) as [[_ (row & Hr & Hrow)] _]. fold (len pre) in Hr.
    rewrite (idx_nat_at _ _ _ (len_nonneg pre) Hr). cbn [mbind res_bind].
    rewrite (idx_nat_at row p _ (proj1 Hp) (Hrow p Hp)). apply wp_ok.
    rewrite length_app, Nat.add_1_r, (in_part_take g Es p _ es Hes), len_app. lia.
  - intros n ->. by rewrite length_range, take_ge by (unfold len in Hl; lia).
Qed.

Lemma maxPartitionEntries_spec u : on_disks g Es u ->
  wp (maxPartitionEntries u) (fun m => forall p, 0 <= p < g_parts g -> len (in_part g p (concat Es)) <= m) no_err.
Proof using Hg.
  intros Hd. pose proof (go_ps _ Hg) as Hps. unfold maxPartitionEntries. rewrite (sh_parts _ _ (ds_shaped _ _ _ Hd)), (sh_size _ _ (ds_shaped _ _ _ Hd)).
  eapply wp_mono; [apply (wp_foldM_prefix (fun pre m => forall p, 0 <= p < len pre -> len (in_part g p (concat Es)) <= m)) | | done].
  - intros p Hp. change (len (@nil Z)) with 0 in Hp. lia.
  - intros pre p post m Heq Hm. apply range_prefix in Heq as [-> Hp].
    apply wp_bind. eapply wp_mono; [by apply partition_bytes | | done]. intros n ->. apply wp_ok. intros q Hq. rewrite len_app, len_single in Hq.
    rewrite Z.div_mul by (unfold entry_size, MinKeySize; lia). destruct (decide (q = len pre)) as [-> | Hne]; [lia |].
    specialize (Hm q ltac:(lia)). lia.
  - intros m Hm p Hp. apply Hm. unfold len. rewrite length_range. lia.
Qed.

Lemma prepareForRead_spec n u : on_disks g Es u -> concat Es <> [] -> 0 <= n ->
  wps (prepareForRead n) u
    (fun _ u' => on_disks g Es u' /\ slots_ok (Z.min n (g_parts g)) u' /\ mergedBlockCounts u' = mergedBlockCounts u) (fun _ _ => False).
Proof using Hg.
  intros Hd Hne Hn. unfold prepareForRead. apply wps_bind, wps_gets, wps_bind, wps_lift. cbn [id].
  eapply wp_mono; [by apply maxPartitionEntries_spec | | done]. intros m Hm. pose proof (go_parts _ Hg) as Hparts. pose proof (go_ps _ Hg) as Hps.
  assert (0 < m) as Hm0.
  { destruct (concat Es) as [| e l] eqn:He; [done |]. specialize (Hm (part_id g e) (part_id_bound g Hg e)).
    unfold in_part in Hm. rewrite filter_cons_True, len_cons in Hm by done. pose proof (len_nonneg (filter (fun e0 => part_id g e0 = part_id g e) l)). lia. }
  destruct (Z.eqb_spec m 0); [lia |]. apply wps_modify. rewrite (sh_parts _ _ (ds_shaped _ _ _ Hd)).
  split; [| split; [| done]].
  - destruct Hd as [[] Hl Hdisk]. split; [by split | done |]. intros w es He. destruct (Hdisk w es He) as [[] ?]. by split.
  - split; [cbn; apply len_make; lia |]. intros i slot Hi. cbn in Hi. apply lookup_replicate in Hi as [-> _]. cbn.
    change readBufSize with 4194304. rewrite !len_make by lia. split; [| done]. unfold entry_size, MinKeySize. lia.
Qed.
End slots.

(** ** Building the blocks of a partition *)
Section read.
Context `{HX : !XXHash} {HL : XXHashLaws} `{HO : !OS} `{HE : !Env}.
Context (g : geometry) (Hg : geometry_ok g) (totalKeys : Z) (opts : list BuildOption).

#[local] Abbreviation cfg := (final_config totalKeys opts).
#[local] Abbreviation c := (block_config cfg).
#[local] Abbreviation bpp := (g_bpp g).
#[local] Abbreviation nb := (g_blocks g).

Context (Hok : build_ok cfg c) (Hblocks : g_blocks g = c_numBlocks c) (Es : list (list bufferedEntry)).

#[local] Abbreviation all := (concat Es).
#[local] Abbreviation val := (routed_of (payloadSize (g_cfg g))).

Context (Hall : Forall entry_ok all) (Hsmall : forall j, len (in_block g j all) < 2 ^ 32).

#[local] Abbreviation at_block := (at_block g totalKeys opts all val).

Lemma val_keys e : re_k0 (val e) = be_k0 e /\ re_k1 (val e) = be_k1 e.
Proof using Type. done. Qed.

(** The number of a block is its partition's first block's and its place in it. *)
Lemma block_number p k : 0 <= p -> 0 <= k -> p * bpp + k < nb -> u32 (u32 (p * bpp) + u32 k) = p * bpp + k.
Proof using Hg. 
  intros Hp Hk Hj. destruct (go_blocks _ Hg) as [_ Hb]. pose proof (go_bpp _ Hg) as Hbpp. assert (0 <= p * bpp) by nia.
  rewrite (u32_id (p * bpp)), (u32_id k), u32_id; [done | unfold is_u; lia ..].
Qed.

Lemma viewEntries_spec ub u i slot v es (Q : list routedEntry -> UnsortedBuilder -> Prop) E :
  unsortedBuf ub = Some u -> 0 <= i -> readSlots u !! Z.to_nat i = Some slot -> slice (flatBuf slot) v.1 (v.1 + v.2) = Ok es ->
  Q es ub -> wps (viewEntries i v) ub Q E.
Proof using Type.
  intros Hu Hi Hs Hv HQ. unfold viewEntries. apply (on_buf_spec _ ub u); [done |].
  apply wps_bind, wps_gets, wps_bind, wps_lift. cbn [id]. rewrite (idx_nat_at _ _ _ Hi Hs). apply wp_ok, wps_lift. rewrite Hv. apply wp_ok. by rewrite (set_buf_same ub u Hu).
Qed.

(** [zip (range n) l]: the elements with their places. *)
Lemma zip_range_prefix {A} (l : list A) pre k a post : zip (range (len l)) l = pre ++ (k, a) :: post -> k = len pre /\ l !! length pre = Some a.
Proof using Type.
  intros H. assert (zip (range (len l)) l !! length pre = Some (k, a)) as Hl by (by rewrite H, list_lookup_middle).
  apply lookup_zip_Some in Hl as [Hk Ha]. split; [| done]. apply lookup_seqZ in Hk. unfold len. lia.
Qed.

Definition first_block (p : Z) : Z := Z.min (p * bpp) nb.

Lemma viewBlock_spec cl ub u i slot p k v :
  let j := p * bpp + k in
  at_block cl false ub u j -> 0 <= p -> 0 <= k -> j < nb -> 0 <= i -> readSlots u !! Z.to_nat i = Some slot ->
  v.2 = len (in_block g j all) -> slice (flatBuf slot) v.1 (v.1 + v.2) = Ok (map val (in_block g j all)) ->
  wps (viewBlock i (u32 (p * bpp)) (k, v)) ub (fun _ ub' => at_block cl false ub' u (j + 1)) (fun e ub' => unsorted_error e /\ idle ub').
Proof using Hg Hok Hblocks Hall Hsmall.
  intros j Hab Hp Hk Hj Hi Hs Hn Hv. unfold viewBlock. cbn [fst snd]. rewrite block_number by done.
  apply wps_bind. eapply wps_mono; [by apply checkBlockContext_spec | | done]. intros [] ub1 Hab1.
  assert (0 <= j < nb) as Hjb by (pose proof (go_bpp _ Hg); unfold j in *; nia).
  pose proof (give_block g totalKeys opts Hok Hblocks all val val_keys Hall Hsmall cl false ub1 u j Hab1 Hjb) as Hgive. cbn zeta in Hgive.
  rewrite Hn. replace (len (in_block g j all)) with (len (map val (in_block g j all))) by (unfold len; by rewrite length_map).
  destruct (_ =? 0); [done |]. apply wps_bind. by eapply viewEntries_spec; [apply Hab1 | ..].
Qed.

(** The place of block [k] of a partition whose views are shown. *)
Lemma view_place slot p views k v : 0 <= p -> shows g Es slot p views -> views !! k = Some v ->
  p * bpp + Z.of_nat k < nb /\ first_block p = p * bpp.
Proof using Type.
  intros Hp [Hl _] Hk. apply lookup_lt_Some in Hk. unfold len, blocks_in in Hl. unfold first_block. lia.
Qed.

Lemma next_first_block slot p views : 0 <= p -> shows g Es slot p views -> first_block p + len views = first_block (p + 1).
Proof using Hg. intros Hp [Hl _]. pose proof (go_bpp _ Hg). unfold blocks_in in Hl. unfold first_block. lia. Qed.

(** The blocks of a partition, one after the other. *)
Lemma build_views_spec cl ub u i slot p views : at_block cl false ub u (first_block p) -> 0 <= p -> 0 <= i ->
  readSlots u !! Z.to_nat i = Some slot -> shows g Es slot p views ->
  wps (forM (fun iv => orCleanupAll (viewBlock i (u32 (p * bpp)) iv)) (zip (range (len views)) views)) ub
    (fun _ ub' => at_block cl false ub' u (first_block (p + 1)))
    (fun e ub' => unsorted_error e /\ cleaned ub').
Proof using Hg Hok Hblocks Hall Hsmall.
  intros Hab Hp Hi Hs Hsh.
  eapply wps_mono; [apply (wps_forM (fun pre ub => at_block cl false ub u (first_block p + len pre)) (fun e ub' => unsorted_error e /\ cleaned ub')) | | done].
  - by rewrite Z.add_0_r.
  - intros pre [k v] post ub1 Heq Hab1. apply zip_range_prefix in Heq as [-> Hk].
    destruct (view_place _ _ _ _ _ Hp Hsh Hk) as [Hlt Hfb]. destruct Hsh as [_ Hsh]. destruct (Hsh _ _ Hk) as [Hn Hv].
    apply (orCleanupAll_spec g Hg). fold (len pre) in *. rewrite Hfb in Hab1.
    eapply wps_mono; [apply (viewBlock_spec cl ub1 u i slot p (len pre) v); try done; apply len_nonneg | |].
    + intros [] ub2 Hab2. rewrite len_app, len_single, Hfb. by rewrite Z.add_assoc.
    + intros e ub2 [He Hid]. split; [done |]. by apply idle_drainable.
  - intros [] ub'. rewrite <- (next_first_block _ _ _ Hp Hsh). cbn beta. unfold len at 1. rewrite length_zip, length_range. 
    by replace (Z.of_nat (Z.to_nat (len views) `min` length views)) with (len views) by (unfold len; lia).
Qed.

(** ** Reading a partition *)

(** What the next reads need: the files, the slots and the counts of the
    partitions from [p] on. *)
Record readable (n p : Z) (u : unsortedBuffer) : Prop := {
  ra_disks : on_disks g Es u;
  ra_slots : slots_ok g Es n u;
  ra_counts : forall q, p <= q < g_parts g -> exists counts, mergedBlockCounts u !! Z.to_nat q = Some counts /\ exact_counts g Es q counts
}.

Lemma read_spec cl wk ub u j n p i : at_block cl wk ub u j -> readable n p u -> 0 <= p < g_parts g -> 0 <= i < n ->
  wps (on_buf (readPartition p i)) ub
    (fun views ub' => exists u' slot, at_block cl wk ub' u' j /\ readable n (p + 1) u' /\ other_slots i u u' /\
       readSlots u' !! Z.to_nat i = Some slot /\ shows g Es slot p views)
    (fun e ub' => e = ErrOther /\ exists u', at_block cl wk ub' u' j /\ other_slots i u u').
Proof using Hg.
  intros Hab [Hd [Hsl Hslots] Hcnt] Hp Hi. apply (on_buf_spec _ ub u); [apply Hab |].
  destruct (lookup_lt_is_Some_2 (readSlots u) (Z.to_nat i)) as [slot Hs]; [unfold len in Hsl; lia |].
  destruct (Hslots _ _ Hs) as [Hbuf Hfit]. destruct (Hcnt p ltac:(lia)) as (counts & Hm & Hex).
  eapply wps_mono; [by apply (readPartition_spec g Hg Es p i u slot counts); try done; [lia | apply Hfit] | |].
  - intros views u' (slot' & (Hd' & Hsl' & _ & _ & Hm') & Hsh & Hlb & Hlf). exists u', slot'. split; [by eapply at_block_buf |].
    split; [| split; [| split; [| done]]].
    + split; [done | |].
      * split; [by rewrite Hsl', len_insert |]. intros k s Hk. rewrite Hsl' in Hk. destruct (decide (k = Z.to_nat i)) as [-> | Hne].
        -- rewrite list_lookup_insert_eq in Hk by (by eapply lookup_lt_Some). injection Hk as <-. rewrite Hlb, Hlf. by split.
        -- rewrite list_lookup_insert_ne in Hk by done. by eapply Hslots.
      * intros q Hq. rewrite Hm' by lia. apply Hcnt. lia.
    + intros k Hk. by rewrite Hsl', list_lookup_insert_ne.
    + by rewrite Hsl', list_lookup_insert_eq by (by eapply lookup_lt_Some).
  - intros e u' [He Hot]. split; [done |]. exists u'. split; [by eapply at_block_buf | done].
Qed.

Lemma wps_foldS {S A B} (I : list B -> A -> S -> Prop) E (f : A -> B -> stM S A) a l s :
  I [] a s ->
  (forall pre b post a s, l = pre ++ b :: post -> I pre a s -> wps (f a b) s (fun a' => I (pre ++ [b]) a') E) ->
  wps (foldS f a l) s (fun a' => I l a') E.
Proof using Type.
  intros H0 Hstep. enough (forall post pre a s, l = pre ++ post -> I pre a s -> wps (foldS f a post) s (fun a' => I l a') E)
    as H by (by apply (H l [])).
  clear H0. induction post as [| b post IH]; intros pre a' s' Heq Hs; cbn [foldS].
  - rewrite app_nil_r in Heq. subst l. by apply wps_ret.
  - apply wps_bind. eapply wps_mono; [by eapply Hstep | | done]. intros a'' s''. apply IH. by rewrite <- app_assoc.
Qed.

(** Before partition [p] is built: it has been read into its slot, or could not
    be read. *)
Record single_inv (cl : bool) (p : Z) (current : list (Z * Z) + error) (ub : UnsortedBuilder) : Prop := {
  si_at : exists u, at_block cl false ub u (first_block p) /\
    match current with
    | inl views => p < g_parts g -> readable (Z.min 2 (g_parts g)) (p + 1) u /\
        exists slot, readSlots u !! Z.to_nat (p mod 2) = Some slot /\ shows g Es slot p views
    | inr e => e = ErrOther
    end
}.

Lemma singleRound_spec cl p current ub : single_inv cl p current ub -> 0 <= p < g_parts g ->
  wps (singleRound current p) ub (fun next ub' => single_inv cl (p + 1) next ub') (fun e ub' => unsorted_error e /\ cleaned ub').
Proof using Hg Hok Hblocks Hall Hsmall.
  intros [(u & Hab & Hcur)] Hp. unfold singleRound. apply wps_bind, wps_gets. cbn [id]. rewrite (ab_buf _ _ _ _ _ _ _ _ _ _ Hab).
  apply wps_bind. destruct current as [views | e]; cycle 1.
  { apply (orCleanupAll_spec g Hg). apply wps_fail. subst e. split; [right; left; right; by left | apply idle_drainable, Hab]. }
  destruct (Hcur ltac:(lia)) as (Hra & slot & Hs & Hsh). apply (orCleanupAll_spec g Hg), wps_ret.
  rewrite (sh_parts _ _ (ds_shaped _ _ _ (ra_disks _ _ _ Hra))), (sh_bpp _ _ (ds_shaped _ _ _ (ra_disks _ _ _ Hra))).
  assert (0 <= p mod 2 < 2) as Hm by (by apply Z.mod_pos_bound). assert ((p + 1) mod 2 <> p mod 2) as Hne by (Z.div_mod_to_equations; lia).
  apply wps_bind. eapply (wps_mono _ _ (fun next ub1 => exists u1, at_block cl false ub1 u1 (first_block p) /\ readSlots u1 !! Z.to_nat (p mod 2) = Some slot /\
    match next with
    | inl views => p + 1 < g_parts g -> readable (Z.min 2 (g_parts g)) (p + 1 + 1) u1 /\
        exists slot, readSlots u1 !! Z.to_nat ((p + 1) mod 2) = Some slot /\ shows g Es slot (p + 1) views
    | inr e => e = ErrOther
    end) _ (fun _ _ => False)); [| | done].
  { destruct (Z.ltb_spec (p + 1) (g_parts g)) as [Hlt | Hge]; [| apply wps_ret; exists u; split; [done |]; split; [done |]; intros; lia].
    apply wps_attempt. assert (0 <= (p + 1) mod 2 < 2) by (by apply Z.mod_pos_bound).
    eapply wps_mono; [by apply (read_spec cl false ub u (first_block p) (Z.min 2 (g_parts g)) (p + 1) ((p + 1) mod 2) Hab Hra); lia | |].
    - intros views' ub1 (u1 & slot1 & Hab1 & Hra1 & Hot & Hs1 & Hsh1). exists u1. split; [done |]. split; [rewrite Hot by lia; done |]. intros _. split; [done |]. by exists slot1.
    - intros e ub1 (-> & u1 & Hab1 & Hot). exists u1. split; [done |]. split; [rewrite Hot by lia; done | done]. }
  intros next ub1 (u1 & Hab1 & Hs1 & Hnext). apply wps_bind.
  eapply wps_mono; [by apply (build_views_spec cl ub1 u1 (p mod 2) slot p views Hab1); lia || done | | done].
  intros [] ub2 Hab2. apply wps_ret. split. by exists u1.
Qed.

Lemma first_block_0 : first_block 0 = 0.
Proof using Hg. pose proof (go_blocks _ Hg). unfold first_block. lia. Qed.

Lemma first_block_end : first_block (g_parts g) = nb.
Proof using Hg. pose proof (go_cover _ Hg). unfold first_block. lia. Qed.

(** The keys of the whole index. *)
#[local] Abbreviation all_keys := (keys_to g totalKeys opts all val nb).

Context (Hlim : limits_ok (algorithm cfg) totalKeys) (Htyped : config_typed cfg) (Hlen : len all = totalKeys).

Lemma finishUnsortedSingleThreaded_spec {HP : PipeLaws} cl ub u : at_block cl false ub u 0 -> readable (Z.min 2 (g_parts g)) 0 u ->
  wps finishUnsortedSingleThreaded ub
    (fun _ ub' => build_result cfg c all_keys (file (b_iw (ub_b ub'))) /\ b_closed (ub_b ub') = cl)
    (fun e ub' => unsorted_error e /\ cleaned ub').
Proof using HL Hg Hok Hblocks Hall Hsmall Hlim Htyped Hlen.
  intros Hab Hra. unfold finishUnsortedSingleThreaded. apply wps_bind, wps_gets. cbn [id]. rewrite (ab_buf _ _ _ _ _ _ _ _ _ _ Hab).
  pose proof (go_parts _ Hg) as Hparts. rewrite (sh_parts _ _ (ds_shaped _ _ _ (ra_disks _ _ _ Hra))).
  destruct (Z.leb_spec (g_parts g) 0); [lia |]. rewrite <- first_block_0 in Hab.
  apply wps_bind. eapply (wps_mono _ _ (single_inv cl 0) _ (fun _ _ => False)); [| | done].
  { apply wps_attempt. eapply wps_mono; [apply (read_spec cl false ub u (first_block 0) _ 0 0 Hab Hra); lia | |].
    - intros views ub1 (u1 & slot & Hab1 & Hra1 & _ & Hs & Hsh). split. exists u1. split; [done |]. intros _. split; [done |]. by exists slot.
    - intros e ub1 (-> & u1 & Hab1 & _). split. by exists u1. }
  intros first ub1 Hinv. apply wps_bind.
  eapply wps_mono; [apply (wps_foldS (fun pre cur ub => single_inv cl (len pre) cur ub) (fun e ub' => unsorted_error e /\ cleaned ub')); [exact Hinv |] | | done].
  - intros pre p post cur ub2 Heq Hinv2. apply range_prefix in Heq as [-> Hp]. rewrite len_app, len_single. by apply singleRound_spec.
  - intros cur ub2 [(u2 & Hab2 & _)]. unfold len in Hab2. rewrite length_range, Z2Nat.id in Hab2 by lia. rewrite first_block_end in Hab2.
    by apply (finishBlocks_spec g Hg totalKeys opts Hok Hblocks all val cl false ub2 u2).
Qed.
End read.
