(* ===== verification/UnsortedFast.v ===== *)
(** * The fast path: sorting the entries in memory

    When no writer has flushed, the entries are sorted by block with a counting
    sort and the blocks are built from the sorted array. *)
From S2P Require Import Prelude Words Bits Encoding Key Floats Entries Header Algorithm Block Index Image File Options Writer WriterSpec Builder BuilderSpec SortedBuild Pipeline PipelineLive PipelineSafe ParallelBuild UnsortedBuffer UnsortedWrite UnsortedRead UnsortedReadSpec UnsortedCommute UnsortedMerge UnsortedBuilder UnsortedBlocks UnsortedFinish UnsortedPartitions.
#[local] Open Scope Z_scope.

(** The entry as it was given. *)
Definition raw_of (e : bufferedEntry) : routedEntry := mk_routed (be_k0 e) (be_k1 e) (be_payload e).

(** ** The counting sort *)
Section sort.
Context (g : geometry) (Hg : geometry_ok g) (all : list bufferedEntry).

#[local] Abbreviation nb := (g_blocks g).

Definition block_sizes (l : list bufferedEntry) : list Z := map (fun j => len (in_block g j l)) (range nb).

Lemma block_sizes_lookup l j : 0 <= j < nb -> block_sizes l !! Z.to_nat j = Some (len (in_block g j l)).
Proof using Type.
  intros Hj. unfold block_sizes. change (map ?f ?l) with (f <$> l). rewrite list_lookup_fmap. unfold range.
  rewrite lookup_seqZ_lt by lia. cbn. do 3 f_equal. lia.
Qed.

Lemma len_block_sizes l : 0 <= nb -> len (block_sizes l) = nb.
Proof using Type. intros H. unfold block_sizes, len. rewrite length_map, length_range. lia. Qed.

Lemma countBlocks_spec : countBlocks nb (map (block_id g) all) = Ok (block_sizes all).
Proof using Hg.
  pose proof (go_blocks _ Hg) as Hnb.
  enough (wp (countBlocks nb (map (block_id g) all)) (fun counts => counts = block_sizes all) no_err) as H.
  { destruct (countBlocks nb (map (block_id g) all)); [by cbn in H; subst | done | done]. }
  eapply wp_mono; [apply (wp_foldM_prefix (fun pre counts => counts = block_sizes (take (length pre) all))) | | done].
  - apply list_eq. intros i. destruct (decide (i < Z.to_nat nb)%nat) as [Hi | Hi].
    + unfold make. rewrite lookup_replicate_2 by done. pose proof (block_sizes_lookup (take (length (@nil Z)) all) (Z.of_nat i) ltac:(lia)) as Hj.
      rewrite Nat2Z.id in Hj. by rewrite Hj.
    + rewrite !lookup_ge_None_2; [done | |]; unfold make, block_sizes; rewrite ?length_map, ?length_range, ?length_replicate; lia.
  - intros pre id post counts Heq ->. assert (map (block_id g) all !! length pre = Some id) as Hid by (by rewrite Heq, list_lookup_middle).
    change (map ?f ?l) with (f <$> l) in Hid. apply list_lookup_fmap_Some in Hid as (e & -> & He).
    pose proof (block_id_bound g Hg e) as Hb. rewrite (idx_nat_at _ _ _ (proj1 Hb) (block_sizes_lookup _ _ Hb)). cbn [mbind res_bind].
    rewrite upd_in_range by (rewrite len_block_sizes; lia). apply wp_ok. rewrite length_app, Nat.add_1_r, (take_S_r _ _ _ He).
    apply list_eq. intros i. destruct (decide (i < Z.to_nat nb)%nat) as [Hi | Hi].
    + pose proof (block_sizes_lookup (take (length pre) all) (Z.of_nat i) ltac:(lia)) as H1. pose proof (block_sizes_lookup (take (length pre) all ++ [e]) (Z.of_nat i) ltac:(lia)) as H2.
      rewrite Nat2Z.id in H1, H2. rewrite H2, in_block_snoc. destruct (decide (block_id g e = Z.of_nat i)) as [He' | He'].
      * rewrite He', Nat2Z.id, list_lookup_insert_eq by (by eapply lookup_lt_Some). by rewrite len_app, len_single.
      * rewrite list_lookup_insert_ne by lia. by rewrite app_nil_r.
    + rewrite !lookup_ge_None_2; [done | |]; rewrite ?length_insert; unfold block_sizes; rewrite length_map, length_range; lia.
  - intros counts ->. by rewrite length_map, firstn_all.
Qed.

Definition offset_of (counts : list Z) (j : Z) : Z := sum (take (Z.to_nat j) counts).
Definition offsets_of (counts : list Z) : list Z := map (offset_of counts) (range nb).

Lemma offset_succ counts (j : nat) n : counts !! j = Some n -> offset_of counts (Z.of_nat j + 1) = offset_of counts (Z.of_nat j) + n.
Proof using Type. intros H. unfold offset_of. replace (Z.to_nat (Z.of_nat j + 1)) with (S j) by lia. rewrite (take_S_r _ _ _ H), sum_app, sum_single, Nat2Z.id. done. Qed.

Lemma offset_le counts i j : Forall (fun n => 0 <= n) counts -> 0 <= i <= j -> offset_of counts i <= offset_of counts j.
Proof using Type.
  intros Hc Hij. unfold offset_of. rewrite <- (take_drop (Z.to_nat i) (take (Z.to_nat j) counts)), take_take, Nat.min_l, sum_app by lia.
  pose proof (sum_nonneg (drop (Z.to_nat i) (take (Z.to_nat j) counts)) ltac:(by apply Forall_drop, Forall_take)). lia.
Qed.

Lemma offsets_lookup counts j : 0 <= j < nb -> offsets_of counts !! Z.to_nat j = Some (offset_of counts j).
Proof using Type.
  intros Hj. unfold offsets_of. change (map ?f ?l) with (f <$> l). rewrite list_lookup_fmap. unfold range.
  rewrite lookup_seqZ_lt by lia. cbn. do 2 f_equal. lia.
Qed.

Lemma blockOffsets_spec counts : len counts = nb -> blockOffsets nb counts = Ok (offsets_of counts).
Proof using Hg.
  intros Hc. pose proof (go_blocks _ Hg) as Hnb.
  enough (wp (blockOffsets nb counts) (fun offsets => offsets = offsets_of counts) no_err) as H.
  { destruct (blockOffsets nb counts); [by cbn in H; subst | done | done]. }
  eapply wp_mono; [apply (wp_foldM_prefix (fun pre offsets => len offsets = nb /\ forall j, 0 <= j <= len pre -> offsets !! Z.to_nat j = Some (offset_of counts j))) | | done].
  - split; [apply len_make; lia |]. intros j Hj. change (len (@nil Z)) with 0 in Hj. replace j with 0 by lia.
    unfold make. by rewrite lookup_replicate_2 by lia.
  - intros pre i post offsets Heq [Hl Ho]. apply range_prefix in Heq as [-> Hi]. pose proof (len_nonneg pre) as Hp.
    cbn zeta. replace (len pre + 1 - 1) with (len pre) by lia. rewrite (idx_nat_at _ _ _ Hp (Ho (len pre) ltac:(lia))). cbn [mbind res_bind].
    destruct (lookup_lt_is_Some_2 counts (length pre)) as [n Hn]; [unfold len in *; lia |].
    fold (len pre). rewrite (idx_nat_at counts (len pre) n Hp) by (unfold len; by rewrite Nat2Z.id). cbn [mbind res_bind]. rewrite upd_in_range by lia. apply wp_ok.
    split; [by rewrite len_insert |]. intros j Hj. rewrite len_app, len_single in Hj. destruct (decide (j = len pre + 1)) as [-> | Hne].
    + rewrite list_lookup_insert_eq by (unfold len in *; lia). f_equal. symmetry. exact (offset_succ counts (length pre) n Hn).
    + rewrite list_lookup_insert_ne by lia. apply Ho. lia.
  - intros offsets [Hl Ho]. apply list_eq. intros i. destruct (decide (i < Z.to_nat nb)%nat) as [Hi | Hi].
    + pose proof (offsets_lookup counts (Z.of_nat i) ltac:(lia)) as H. rewrite Nat2Z.id in H. rewrite H.
      specialize (Ho (Z.of_nat i)). rewrite Nat2Z.id in Ho. apply Ho. unfold len. rewrite length_range. lia.
    + rewrite !lookup_ge_None_2; [done | |]; unfold offsets_of; rewrite ?length_map, ?length_range; unfold len in Hl; lia.
Qed.

(** Where each block is in the sorted array. *)
Definition block_place (j : Z) : Z * Z := (offset_of (block_sizes all) j, len (in_block g j all)).
Definition places : list (Z * Z) := map block_place (range nb).

Lemma places_lookup (j : nat) v : places !! j = Some v -> Z.of_nat j < nb /\ v = block_place (Z.of_nat j).
Proof using Type.
  intros H. unfold places in H. change (map ?f ?l) with (f <$> l) in H. apply list_lookup_fmap_Some in H as (x & -> & Hx).
  apply lookup_seqZ in Hx as [-> Hx]. split; [lia | done].
Qed.

Lemma block_sizes_nonneg l : Forall (fun n => 0 <= n) (block_sizes l).
Proof using Type. apply Forall_fmap, Forall_forall. intros j _. apply len_nonneg. Qed.

Lemma place_end (j : nat) : Z.of_nat j < nb -> (block_place (Z.of_nat j)).1 + (block_place (Z.of_nat j)).2 = offset_of (block_sizes all) (Z.of_nat j + 1).
Proof using Type.
  intros Hj. symmetry. cbn [fst snd block_place]. apply offset_succ. pose proof (block_sizes_lookup all (Z.of_nat j) ltac:(lia)) as H. by rewrite Nat2Z.id in H.
Qed.

Lemma sum_sizes : sum (block_sizes all) = len all.
Proof using Hg. apply (sum_blocks (block_id g)). apply Forall_forall. intros e _. by apply block_id_bound. Qed.

Lemma places_spaced : spaced (len all) places.
Proof using Hg.
  pose proof (go_blocks _ Hg) as Hnb. split.
  - intros j v Hj. apply places_lookup in Hj as [Hlt ->]. rewrite place_end by done. cbn [fst snd block_place].
    split; [| split; [apply len_nonneg |]].
    + pose proof (offset_le (block_sizes all) 0 (Z.of_nat j) (block_sizes_nonneg _) ltac:(lia)). change (offset_of (block_sizes all) 0) with 0 in *. lia.
    + pose proof (offset_le (block_sizes all) (Z.of_nat j + 1) nb (block_sizes_nonneg _) ltac:(lia)) as H. unfold offset_of at 2 in H.
      rewrite take_ge in H by (pose proof (len_block_sizes all ltac:(lia)); unfold len in *; lia). by rewrite sum_sizes in H.
  - intros i j v v' Hij Hi Hj. apply places_lookup in Hi as [Hi ->]. apply places_lookup in Hj as [Hj ->]. rewrite place_end by done.
    apply offset_le; [apply block_sizes_nonneg | lia].
Qed.

(** The sorted array: every block where its offset and its count say. *)
Lemma sortEntries_spec : exists sorted, sortEntries (offsets_of (block_sizes all)) (map raw_of all) (map (block_id g) all) = Ok sorted /\ len sorted = len all /\
  forall j, 0 <= j < nb -> slice sorted (offset_of (block_sizes all) j) (offset_of (block_sizes all) j + len (in_block g j all)) = Ok (map raw_of (in_block g j all)).
Proof using Hg.
  unfold sortEntries. set (f := fun (s : list routedEntry * list Z) (ie : Z * routedEntry) => scatter s ie.1 ie.2).
  assert (len (map raw_of all) = len all) as Hla by (unfold len; by rewrite length_map).
  assert (offsets_of (block_sizes all) = map fst places) as Hoff by (unfold offsets_of, places; by rewrite map_map).
  assert (wp (foldM f (make zero_routed (len (map raw_of all)), offsets_of (block_sizes all)) (zip (map (block_id g) all) (map raw_of all)))
    (scattered (block_id g) raw_of places (len all) all) no_err) as H.
  { eapply wp_mono; [apply (wp_foldM_prefix (fun pre => scattered (block_id g) raw_of places (len all) (take (length pre) all))) | | done].
    - rewrite Hoff. apply scattered_start; [apply places_spaced |]. rewrite Hla. apply len_make, len_nonneg.
    - intros pre [id r] post s Heq Hs. assert (zip (map (block_id g) all) (map raw_of all) !! length pre = Some (id, r)) as Hl by (by rewrite Heq, list_lookup_middle).
      apply lookup_zip_Some in Hl as [Hid Hr]. change (map ?f ?l) with (f <$> l) in Hid, Hr.
      apply list_lookup_fmap_Some in Hid as (e & -> & He). apply list_lookup_fmap_Some in Hr as (e' & -> & He'). rewrite He in He'. injection He' as <-.
      pose proof (block_id_bound g Hg e) as Hb. set (j := Z.to_nat (block_id g e)). assert (block_id g e = Z.of_nat j) as Hj by lia.
      rewrite length_app, Nat.add_1_r, (take_S_r _ _ _ He). unfold f. cbn [fst snd].
      apply (scatter_spec (block_id g) raw_of places (len all) places_spaced _ s e j (block_place (Z.of_nat j)) Hs Hj).
      + unfold places. change (map ?f ?l) with (f <$> l). rewrite list_lookup_fmap. unfold range. rewrite lookup_seqZ_lt by lia. done.
      + cbn [snd block_place]. unfold pick, in_block. rewrite <- (take_drop_middle all (length pre) e He) at 2.
        rewrite filter_app, filter_cons_True, len_app, len_cons by done. pose proof (len_nonneg (filter (fun e0 => block_id g e0 = Z.of_nat j) (drop (S (length pre)) all))). lia.
    - intros s Hs. cbn beta in Hs. by rewrite length_zip, !length_map, Nat.min_id, firstn_all in Hs. }
  destruct (foldM f _ _) as [[sorted cursors] | |]; [| done | done]. exists sorted. split; [done |]. split; [exact (sc_flat _ _ _ _ _ _ H) |].
  intros j Hj. pose proof (scattered_views (block_id g) raw_of places (len all) places_spaced all (sorted, cursors) H) as Hv.
  specialize (Hv ltac:(unfold places; rewrite map_map, length_map, length_range; cbn [snd block_place]; unfold range, seqZ; change (map ?f (?h <$> ?l)) with (map f (map h l)); rewrite map_map; apply map_ext; intros i; by rewrite Z.add_0_r) (Z.to_nat j) (block_place j)).
  cbn [fst snd block_place] in Hv. rewrite Hv; [unfold pick; by rewrite Z2Nat.id by lia |].
  unfold places. change (map ?f ?l) with (f <$> l). rewrite list_lookup_fmap. unfold range. rewrite lookup_seqZ_lt by lia. cbn. by rewrite Z.add_0_l, Z2Nat.id by lia.
Qed.

(** C8: the counting sort of the fast path groups the entries by block, in the
    order of the blocks, and keeps the entries of a block in the order they came:
    the counts, the offsets and the placement, together, are the stable grouping
    of the reference definition; nothing is read or written out of range. *)
Theorem counting_sort_groups : let ids := map (block_id g) all in
  (counts ← countBlocks nb ids; offsets ← blockOffsets nb counts; sortEntries offsets (map raw_of all) ids) =
  Ok (map raw_of (concat (map (fun j => filter (fun e => block_id g e = j) all) (range nb)))).
Proof using Hg.
  intros ids. pose proof (go_blocks _ Hg) as Hnb. unfold ids. rewrite countBlocks_spec. cbn [mbind res_bind].
  rewrite blockOffsets_spec by (apply len_block_sizes; lia). cbn [mbind res_bind].
  destruct sortEntries_spec as (sorted & -> & Hlen & Hslice). f_equal.
  assert (forall n, 0 <= n <= nb -> take (Z.to_nat (offset_of (block_sizes all) n)) sorted = map raw_of (concat (map (fun j => in_block g j all) (range n)))) as H.
  2:{ specialize (H nb ltac:(lia)). rewrite take_ge in H; [exact H |]. unfold offset_of. rewrite take_ge, sum_sizes; unfold len in *; [lia |].
      pose proof (len_block_sizes all) as Hl. unfold len in Hl. lia. }
  intros n [H0 Hn]. revert Hn. pattern n. apply natlike_ind; [done | | done]. clear n H0. intros n H0 IH Hn. specialize (IH ltac:(lia)).
  assert (block_sizes all !! Z.to_nat n = Some (len (in_block g n all))) as Hb by (apply block_sizes_lookup; lia).
  pose proof (offset_succ _ _ _ Hb) as Ho. rewrite Z2Nat.id in Ho by done. unfold Z.succ. rewrite Ho, range_succ, map_app, concat_app, map_app by done. cbn [map concat]. rewrite app_nil_r.
  pose proof (offset_le (block_sizes all) 0 n (block_sizes_nonneg _) ltac:(lia)) as Hon. change (offset_of (block_sizes all) 0) with 0 in Hon.
  pose proof (len_nonneg (in_block g n all)) as Hbn. rewrite <- IH. specialize (Hslice n ltac:(lia)). apply slice_ok in Hslice as (_ & Hle & Hs).
  change (map raw_of (filter (fun e => block_id g e = n) all)) with (map raw_of (in_block g n all)). rewrite Hs, Z2Nat.inj_add by lia. replace (Z.to_nat (offset_of (block_sizes all) n + len (in_block g n all) - offset_of (block_sizes all) n)) with (Z.to_nat (len (in_block g n all))) by lia.
  rewrite take_drop_commute. set (a := Z.to_nat (offset_of _ _)). set (b := Z.to_nat (len _)).
  rewrite <- (take_drop a (take (a + b) sorted)) at 1. by rewrite take_take, Nat.min_l by lia.
Qed.
End sort.

Lemma counting_sort_groups_witness : let g := example_geometry in let all := [mk_buffered 3 5 77; mk_buffered 4 5 78] in
  let ids := map (block_id g) all in
  (counts ← countBlocks (g_blocks g) ids; offsets ← blockOffsets (g_blocks g) counts; sortEntries offsets (map raw_of all) ids) =
  Ok (map raw_of (concat (map (fun j => filter (fun e => block_id g e = j) all) (range (g_blocks g))))).
Proof. exact (counting_sort_groups example_geometry example_geometry_ok [mk_buffered 3 5 77; mk_buffered 4 5 78]). Defined.

(** ** Collecting the entries *)
Section collect.
Context `{HO : !OS} (g : geometry) (Hg : geometry_ok g).

(** The entries of a buffer, in the order they are collected. *)
Definition by_part (A : list bufferedEntry) : list bufferedEntry := concat (map (fun p => in_part g p A) (range (g_parts g))).

Lemma by_part_permutation A : by_part A ≡ₚ A.
Proof using Hg. apply (by_key_permutation (part_id g)); [apply NoDup_range |]. intros e _. by apply elem_of_range, part_id_bound. Qed.

Lemma collectEntries_spec u ws A : shaped g u -> 0 < regionCap ws ->
  buf_ok g (regionCap ws) (sel (activeBuf ws) (flatBufs ws)) (sel (activeBuf ws) (cursorSets ws)) A ->
  collectEntries u ws = Ok (map raw_of (by_part A)).
Proof using Hg.
  intros Hs Hrc [Hflat Hcur Hpart]. pose proof (go_parts _ Hg) as Hparts. unfold collectEntries. rewrite (sh_parts _ _ Hs).
  enough (wp (foldM (fun es p =>
    n ← idx (sel (activeBuf ws) (cursorSets ws)) p;
    let base := p * regionCap ws in
    part ← slice (sel (activeBuf ws) (flatBufs ws)) base (base + n);
    Ok (es ++ map (fun e => mk_routed (be_k0 e) (be_k1 e) (be_payload e)) part)) [] (range (g_parts g)))
    (fun es => es = map raw_of (by_part A)) no_err) as H.
  { destruct (foldM _ _ _); [by cbn in H; subst | done | done]. }
  eapply wp_mono; [apply (wp_foldM_prefix (fun pre es => es = map raw_of (concat (map (fun p => in_part g p A) (range (len pre)))))) | | done].
  - done.
  - intros pre p post es Heq ->. apply range_prefix in Heq as [-> Hp]. destruct (Hpart _ Hp) as (Hn & Hle & Hw).
    rewrite (idx_nat_at _ _ _ (proj1 Hp) Hn). cbn [mbind res_bind]. cbn zeta. pose proof (len_nonneg (in_part g (len pre) A)).
    rewrite slice_in_range by (rewrite ?Hflat; nia). cbn [mbind res_bind]. apply wp_ok. rewrite len_app, len_single, range_succ by (by apply len_nonneg).
    rewrite map_app, concat_app, map_app. cbn [map concat]. rewrite app_nil_r. do 2 f_equal. rewrite <- Hw at 2. unfold window.
    do 2 f_equal. unfold len. lia.
  - intros es ->. unfold by_part. do 3 f_equal. unfold range, len at 1. rewrite length_seqZ. f_equal. lia.
Qed.
End collect.

(** ** The whole path *)
Section fast.
Context `{HX : !XXHash} {HL : XXHashLaws} `{HO : !OS} `{HE : !Env}.
Context (g : geometry) (Hg : geometry_ok g) (totalKeys : Z) (opts : list BuildOption).

#[local] Abbreviation cfg := (final_config totalKeys opts).
#[local] Abbreviation c := (block_config cfg).
#[local] Abbreviation nb := (g_blocks g).

Context (Hok : build_ok cfg c) (Hblocks : g_blocks g = c_numBlocks c) (all : list bufferedEntry).
Context (Hall : Forall entry_ok all) (Hsmall : forall j, len (in_block g j all) < 2 ^ 32).

#[local] Abbreviation at_block := (at_block g totalKeys opts all raw_of).

Lemma fastBlock_spec cl wk ub u j sorted : at_block cl wk ub u j -> 0 <= j < nb ->
  slice sorted (offset_of (block_sizes g all) j) (offset_of (block_sizes g all) j + len (in_block g j all)) = Ok (map raw_of (in_block g j all)) ->
  wps (fastBlock sorted (offsets_of g (block_sizes g all)) (block_sizes g all) j) ub
    (fun _ ub' => at_block cl wk ub' u (j + 1)) (fun e ub' => unsorted_error e /\ idle ub').
Proof using Hok Hblocks Hall Hsmall.
  intros Hab Hj Hsl. unfold fastBlock. apply wps_bind, wps_gets. cbn [id]. rewrite (ab_workers _ _ _ _ _ _ _ _ _ _ Hab).
  apply wps_bind. eapply wps_mono; [by apply checkBlockContext_spec | | done]. intros [] ub1 Hab1.
  apply wps_bind, wps_lift. rewrite (idx_nat_at _ _ _ (proj1 Hj) (offsets_lookup g _ j Hj)). apply wp_ok.
  apply wps_bind, wps_lift. rewrite (idx_nat_at _ _ _ (proj1 Hj) (block_sizes_lookup g _ j Hj)). apply wp_ok.
  pose proof (give_block g totalKeys opts Hok Hblocks all raw_of ltac:(done) Hall Hsmall cl wk ub1 u j Hab1 Hj) as Hgive. cbn zeta in Hgive.
  assert (len (map raw_of (in_block g j all)) = len (in_block g j all)) as Hl by (unfold len; by rewrite length_map). rewrite Hl in Hgive.
  destruct (_ =? 0); [by destruct wk |]. apply wps_bind, wps_lift. rewrite Hsl. apply wp_ok. by destruct wk.
Qed.

Context (Hlim : limits_ok (algorithm cfg) totalKeys) (Htyped : config_typed cfg) (Hlen : len all = totalKeys).

(** The writers whose entries are collected. *)
Definition collected (ub : UnsortedBuilder) : list writerState :=
  (match defaultWriterWS ub with Some ws => [ws] | None => [] end) ++
  map uw_ws (filter (fun w => is_nil (cursorSets (uw_ws w)).1 = false) (ub_writers ub)).

Lemma finishUnsortedFastPath_spec {HP : PipeLaws} cl wk ub u : at_block cl wk ub u 0 -> shaped g u ->
  foldM (fun es ws => part ← collectEntries u ws; Ok (es ++ part)) [] (collected ub) = Ok (map raw_of all) ->
  wps finishUnsortedFastPath ub
    (fun _ ub' => build_result cfg c (keys_to g totalKeys opts all raw_of nb) (file (b_iw (ub_b ub'))) /\ b_closed (ub_b ub') = cl)
    (fun e ub' => unsorted_error e /\ cleaned ub').
Proof using HL Hg Hok Hblocks Hall Hsmall Hlim Htyped Hlen.
  intros Hab Hs Hcol. unfold finishUnsortedFastPath. apply wps_bind, wps_gets. cbn [id]. rewrite (ab_buf _ _ _ _ _ _ _ _ _ _ Hab).
  fold (collected ub). apply wps_bind, wps_lift. rewrite Hcol. apply wp_ok.
  apply wps_bind, wps_modify. set (ub1 := set_default _ _).
  assert (at_block cl wk ub1 u 0) as Hab1.
  { destruct Hab as [Hb [Hd Hw] Hp Hc Hk]. split; try done. split.
    - intros ws Hws. cbn in Hws. destruct (defaultWriterWS ub) as [ws0 |] eqn:Hd0; [| done]. injection Hws as <-. destruct (Hd ws0 eq_refl) as [Hf Hn].
      split; [done |]. cbn. by rewrite Hn.
    - intros i w Hi. cbn in Hi. change (map ?f ?l) with (f <$> l) in Hi. apply list_lookup_fmap_Some in Hi as (w0 & -> & Hi). cbn.
      destruct (is_nil _); by eapply Hw. }
  apply wps_bind, (orCleanupAll_spec g Hg). eapply wps_mono; [by apply ask_context_spec | | intros e ub' [He Hi]; split; [done | by apply idle_drainable]].
  intros [] ub2 Hab2. rewrite (sh_blocks _ _ Hs). rewrite map_map. cbn [raw_of re_k0].
  change (map (fun x => route (be_k0 x) nb) all) with (map (block_id g) all).
  apply wps_bind, wps_lift. rewrite (countBlocks_spec g Hg all). apply wp_ok.
  pose proof (go_blocks _ Hg) as Hnb.
  apply wps_bind, wps_lift. rewrite (blockOffsets_spec g Hg) by (apply len_block_sizes; lia). apply wp_ok.
  destruct (sortEntries_spec g Hg all) as (sorted & -> & _ & Hsorted). apply wps_bind, wps_lift, wp_ok, wps_bind.
  eapply wps_mono; [apply (wps_forM (fun pre ub => at_block cl wk ub u (len pre)) (fun e ub' => unsorted_error e /\ cleaned ub')) | | done].
  - done.
  - intros pre j post ub3 Heq Hab3. apply range_prefix in Heq as [-> Hj]. apply (orCleanupAll_spec g Hg).
    eapply wps_mono; [by apply (fastBlock_spec cl wk ub3 u (len pre) sorted Hab3 Hj), Hsorted | |].
    + intros [] ub4 Hab4. by rewrite len_app, len_single.
    + intros e ub4 [He Hi]. split; [done | by apply idle_drainable].
  - intros [] ub3 Hab3. unfold len in Hab3. rewrite length_range, Z2Nat.id in Hab3 by lia.
    by apply (finishBlocks_spec g Hg totalKeys opts Hok Hblocks all raw_of cl wk ub3 u).
Qed.
End fast.
