(* ===== verification/UnsortedParallel.v ===== *)
(** * The read phase with more workers

    The calling goroutine sends the blocks of each partition to the pipeline. *)
From stdpp Require Import gmap.
From S2P Require Import Prelude Words Bits Encoding Key Floats Entries Header Algorithm Block Index Image File Options Writer WriterSpec Builder BuilderSpec SortedBuild Pipeline PipelineLive PipelineSafe ParallelBuild UnsortedBuffer UnsortedWrite UnsortedRead UnsortedReadSpec UnsortedMerge UnsortedBuilder UnsortedBlocks UnsortedFinish UnsortedPartitions.
#[local] Open Scope Z_scope.

(** ** What [writerDone] delivers

    [finishUnsortedParallel] takes a nil from [writerDone] for an outcome of its
    own. A calling goroutine that stops at its first error, as this one does, is
    never given one while it dispatches. *)

(** C6: the calling goroutine dispatches until a dispatch fails, and stops then.
    In every state of a run in which it still dispatches, [writerDone] holds an
    I/O error, a cancellation or the error of a block, or it is empty and the
    writer goroutine is running, so that the channel is not closed. So neither the
    receive in the dispatch loops nor the receive of [finishUnsortedParallel]
    whose value becomes the outcome of the build can take a closed channel for a
    success, whatever the schedule: the nil that [consumePipelineError] provides
    for is left to callers that go on after an error. *)
Theorem dispatching_hears_no_nil `{HX : !XXHash} {HL : XXHashLaws} `{HO : !OS} cfg c k n blk W iw s :
  build_ok cfg c -> works_ok cfg c W -> (0 < n)%nat -> (exists ks, builds c ks blk) -> committed cfg c iw [] ->
  steps cfg c k (start n blk W iw) s -> main s = Dispatching ->
  match doneVal s with Some e => e = ErrOther \/ e ∈ block_errors | None => writer s = Running end.
Proof.
  intros Hok HW Hn Hb Hc Hs Hm. destruct (doneVal s) as [e |] eqn:Hd.
  - destruct (observed_error (Some e)) as (e' & [= <-] & He); [| done].
    exists cfg, c, n, blk, W, iw, k, s. do 7 (split; [done |]). by apply reads_value.
  - destruct (writer s) as [| | f] eqn:Hw; [done | ..].
    + destruct (run_inv cfg c W n blk iw k s Hok HW Hn Hb Hc Hs) as (_ & He & _). destruct (er_writer _ He Hm); [by rewrite Hw | done].
    + destruct (observed_error None) as (e & [=] & _). exists cfg, c, n, blk, W, iw, k, s. do 7 (split; [done |]). by eapply reads_closed.
Qed.

(** A block of the example is sent. *)
Lemma dispatching_hears_no_nil_witness : exists blk iw s,
  @steps poly_hash quiet_os example_cfg example_config 1 (start 2 blk example_works iw) s /\ main s = Dispatching /\
  match doneVal s with Some e => e = ErrOther \/ e ∈ block_errors | None => writer s = Running end.
Proof.
  destruct (@example_start poly_hash poly_hash_laws) as (blk & iw & Hb & Hc).
  assert (@steps poly_hash quiet_os example_cfg example_config 1 (start 2 blk example_works iw)
    (put_workChan [mk_work 0 [mk_routed 3 5 77] 0] (put_todo [mk_work 1 [mk_routed 200 9 99] 1] (start 2 blk example_works iw)))) as Hs.
  { eapply steps_more; [| apply steps_none].
    apply (@main_send poly_hash quiet_os example_cfg (c_maxMeta example_config) (start 2 blk example_works iw)); [reflexivity | reflexivity |].
    unfold chanCap, workChanBufferMultiplier, len. cbn. lia. }
  eexists blk, iw, _. split; [exact Hs |]. split; [reflexivity |].
  apply (@dispatching_hears_no_nil poly_hash poly_hash_laws quiet_os example_cfg example_config 1 2 blk example_works iw);
    [exact (@example_ok poly_hash) | exact (@example_works_ok poly_hash) | lia | by exists [] | exact Hc | exact Hs | reflexivity].
Defined.

(** The calling goroutine, while it dispatches, hears no nil. *)
Lemma open_poll `{HX : !XXHash} {HL : XXHashLaws} `{HO : !OS} `{HE : !Env} {HP : PipeLaws} n : pipe_poll n <> Some None.
Proof. intros H%pipe_poll_observed%observed_error. by destruct H as (? & [=] & _). Qed.

Lemma open_send `{HX : !XXHash} {HL : XXHashLaws} `{HO : !OS} `{HE : !Env} {HP : PipeLaws} n : pipe_send n <> WriterDone None.
Proof. intros H%pipe_send_observed%observed_error. by destruct H as (? & [=] & _). Qed.

Section parallel.
Context `{HX : !XXHash} {HL : XXHashLaws} `{HO : !OS} `{HE : !Env} {HP : PipeLaws}.
Context (g : geometry) (Hg : geometry_ok g) (totalKeys : Z) (opts : list BuildOption).

#[local] Abbreviation cfg := (final_config totalKeys opts).
#[local] Abbreviation c := (block_config cfg).
#[local] Abbreviation bpp := (g_bpp g).
#[local] Abbreviation nb := (g_blocks g).

Context (Hok : build_ok cfg c) (Hblocks : g_blocks g = c_numBlocks c) (Es : list (list bufferedEntry)).

#[local] Abbreviation all := (concat Es).
#[local] Abbreviation val := (routed_of (payloadSize (g_cfg g))).

Context (Hall : Forall entry_ok all) (Hsmall : forall j, len (in_block g j all) < 2 ^ 32).

#[local] Abbreviation at_block := (at_block g totalKeys opts all val).
#[local] Abbreviation gone := (fun (e : error) ub => unsorted_error e /\ cleaned ub).

Lemma wps_forW {S B} (I : list B -> S -> Prop) E (f : B -> stM S bool) l s :
  I [] s ->
  (forall pre b post s, l = pre ++ b :: post -> I pre s -> wps (f b) s (fun ok s' => ok = true /\ I (pre ++ [b]) s') E) ->
  wps (forW f l) s (fun ok s' => ok = true /\ I l s') E.
Proof using Type.
  intros H0 Hstep. enough (forall post pre s, l = pre ++ post -> I pre s -> wps (forW f post) s (fun ok s' => ok = true /\ I l s') E)
    as H by (by apply (H l [])).
  clear H0. induction post as [| b post IH]; intros pre s' Heq Hs; cbn [forW].
  - rewrite app_nil_r in Heq. subst l. by apply wps_ret.
  - apply wps_bind. eapply wps_mono; [by eapply Hstep | | done]. intros ok s'' [-> H]. eapply IH; [| exact H]. by rewrite <- app_assoc.
Qed.

Lemma failWith_spec e ub (Q : bool -> UnsortedBuilder -> Prop) : unsorted_error e -> idle ub -> wps (failWith (Some e)) ub Q gone.
Proof using Hg.
  intros He Hi. unfold failWith. apply wps_bind, wps_attempt. eapply wps_mono; [apply (cleanupAll_spec g Hg); by apply idle_drainable | |].
  all: intros; by apply wps_fail.
Qed.

Lemma on_core_ask {A} (f : nat -> A) cl wk ub u j (Q : A -> UnsortedBuilder -> Prop) E : at_block cl wk ub u j ->
  (forall n ub', at_block cl wk ub' u j -> Q (f n) ub') -> wps (on_core (ask f)) ub Q E.
Proof using Type. intros Hab HQ. unfold on_core. apply wps_zoom, wps_ask. intros n. apply HQ. by apply at_block_asked. Qed.

Lemma checkPipeline_spec cl ub u j : at_block cl true ub u j ->
  wps checkPipeline ub (fun ok ub' => ok = true /\ at_block cl true ub' u j) gone.
Proof using HL HP Hg.
  intros Hab. unfold checkPipeline. apply wps_bind. apply (on_core_ask _ cl true ub u j _ _ Hab). intros n ub1 Hab1.
  destruct (ctx_err n) as [e |] eqn:He; [apply failWith_spec; [left; by apply (context_said n) | apply Hab1] |].
  apply wps_bind. apply (on_core_ask _ cl true ub1 u j _ _ Hab1). intros m ub2 Hab2.
  destruct (pipe_poll m) as [[e |] |] eqn:Hp; [| by destruct (open_poll m) | by apply wps_ret].
  apply wps_bind. unfold on_core. apply wps_zoom, wps_modify. apply failWith_spec; [right; left; left; by apply (polled_error m) |].
  apply set_core_idle, Hab2.
Qed.

(** Sending a block is [dispatchBlockWork]; a failed send ends the build. *)
Lemma sendEntries_spec cl ub u j : at_block cl true ub u j -> 0 <= j < nb -> in_block g j all <> [] ->
  wps (sendEntries j (map val (in_block g j all))) ub (fun ok ub' => ok = true /\ at_block cl true ub' u (j + 1)) gone.
Proof using HL HP Hg Hok Hblocks Hall Hsmall.
  intros Hab Hj Hne. pose proof (give_block g totalKeys opts Hok Hblocks all val ltac:(done) Hall Hsmall cl true ub u j Hab Hj) as Hgive. cbn zeta in Hgive.
  set (es := map val (in_block g j all)) in *. destruct (Z.eqb_spec (len es) 0) as [H0 | _].
  { unfold es, len in H0. rewrite length_map in H0. destruct (in_block g j all); [done | cbn in H0; lia]. }
  unfold sendEntries. apply wps_bind, wps_gets. cbn [id]. apply wps_bind. unfold on_core at 1. apply wps_zoom, wps_modify.
  set (b1 := set_next _ _). apply wps_bind. unfold on_core at 1. apply wps_zoom. change (wps (ask pipe_send) (ub_b (set_core b1 ub))) with (wps (ask pipe_send) b1).
  assert (questions b1 = questions (ub_b ub)) as Hq by done.
  destruct (pipe_send (questions b1)) as [| | [e |]] eqn:Hs.
  - assert (on_core (dispatchBlockWork j es) ub = Ok (set_core (add_work (mk_work j es (keysBefore (ub_b ub))) (asked b1)) ub, inl tt)) as Hd.
    { unfold on_core, zoom, dispatchBlockWork, mbind, stM_bind, gets, modify, ask. cbn -[questions set_core asked add_work]. fold b1. by rewrite Hs. }
    pose proof (wps_ok _ _ _ _ _ _ Hgive Hd) as Hab'. unfold wps, ask. rewrite Hs. cbn. by split.
  - unfold wps at 1, ask. rewrite Hs. apply failWith_spec; [right; left; left; by apply (heard_cancelled (questions b1)) |].
    apply set_core_idle, set_core_idle, Hab.
  - unfold wps at 1, ask. rewrite Hs. apply wps_bind. unfold on_core. apply wps_zoom, wps_modify.
    apply failWith_spec; [right; left; left; by apply (heard_error (questions b1)) |]. apply set_core_idle, set_core_idle, set_core_idle, Hab.
  - by destruct (open_send (questions b1)).
Qed.

Lemma sendBlock_spec cl ub u i slot p k v :
  let j := p * bpp + k in
  at_block cl true ub u j -> 0 <= p -> 0 <= k -> j < nb -> 0 <= i -> readSlots u !! Z.to_nat i = Some slot ->
  v.2 = len (in_block g j all) -> slice (flatBuf slot) v.1 (v.1 + v.2) = Ok (map val (in_block g j all)) ->
  wps (sendBlock i (u32 (p * bpp)) (k, v)) ub (fun ok ub' => ok = true /\ at_block cl true ub' u (j + 1)) gone.
Proof using HL HP Hg Hok Hblocks Hall Hsmall.
  intros j Hab Hp Hk Hj Hi Hs Hn Hv. unfold sendBlock. cbn [fst snd]. rewrite (block_number g Hg) by done.
  assert (0 <= j < nb) as Hjb by (pose proof (go_bpp _ Hg); unfold j in *; nia).
  apply wps_bind. eapply (wps_mono _ _ (fun ok ub' => ok = true /\ at_block cl true ub' u j) _ gone); [| | done].
  { destruct (_ =? 0); [by apply checkPipeline_spec | by apply wps_ret]. }
  intros ok ub1 [-> Hab1]. rewrite Hn. destruct (Z.eqb_spec (len (in_block g j all)) 0) as [H0 | H0].
  - pose proof (give_block g totalKeys opts Hok Hblocks all val ltac:(done) Hall Hsmall cl true ub1 u j Hab1 Hjb) as Hgive. cbn zeta in Hgive.
    assert (in_block g j all = []) as He by (destruct (in_block g j all) as [| x l]; [done | rewrite len_cons in H0; pose proof (len_nonneg l); lia]).
    rewrite He in Hgive. apply wps_bind, wps_attempt. eapply wps_mono; [exact Hgive | |].
    + intros [] ub2 Hab2. by apply wps_ret.
    + intros e ub2 [He' Hid]. by apply failWith_spec.
  - apply wps_bind. eapply viewEntries_spec; [apply Hab1 | done | done | done |]. apply sendEntries_spec; [done | done |].
    intros He. by rewrite He in H0.
Qed.

#[local] Abbreviation first_block := (first_block g).

Lemma send_views_spec cl ub u i slot p views : at_block cl true ub u (first_block p) -> 0 <= p -> 0 <= i ->
  readSlots u !! Z.to_nat i = Some slot -> shows g Es slot p views ->
  wps (forW (sendBlock i (u32 (p * bpp))) (zip (range (len views)) views)) ub
    (fun ok ub' => ok = true /\ at_block cl true ub' u (first_block (p + 1))) gone.
Proof using HL HP Hg Hok Hblocks Hall Hsmall.
  intros Hab Hp Hi Hs Hsh.
  eapply wps_mono; [apply (wps_forW (fun pre ub => at_block cl true ub u (first_block p + len pre)) gone) | | done].
  - by rewrite Z.add_0_r.
  - intros pre [k v] post ub1 Heq Hab1. apply zip_range_prefix in Heq as [-> Hk].
    destruct (view_place _ _ _ _ _ _ _ Hp Hsh Hk) as [Hlt Hfb]. pose proof Hsh as [_ Hsh']. destruct (Hsh' _ _ Hk) as [Hn Hv].
    fold (len pre) in *. rewrite Hfb in Hab1 |- *. rewrite len_app, len_single, Z.add_assoc.
    apply (sendBlock_spec cl ub1 u i slot p (len pre) v); try done; apply len_nonneg.
  - intros ok ub' [-> Hab']. split; [done |]. rewrite <- (next_first_block g Hg Es _ _ _ Hp Hsh). unfold len in Hab' at 1. rewrite length_zip, length_range in Hab'.
    by replace (Z.of_nat (Z.to_nat (len views) `min` length views)) with (len views) in Hab' by (unfold len; lia).
Qed.

(** A reader's slots are among the slots. *)
Lemma reader_slot n p : 0 < n <= 6 -> 0 <= p -> (n = 1 -> p = 0) ->
  let readers := Z.max (n / slotsPerReader) 1 in
  0 <= (p mod readers) * slotsPerReader + (p / readers) mod slotsPerReader < n.
Proof using Type.
  intros Hn Hp H1 readers. unfold slotsPerReader in *. assert (0 < readers) as Hr by (unfold readers; lia). pose proof (Z.mod_pos_bound p readers Hr) as Hm.
  pose proof (Z.mod_pos_bound (p / readers) 2 ltac:(lia)) as H2. destruct (decide (n = 1)) as [-> | Hne].
  - rewrite (H1 eq_refl). by vm_compute.
  - assert (2 * readers <= n) by (unfold readers; Z.div_mod_to_equations; lia). lia.
Qed.

#[local] Abbreviation slots := (Z.min (readPipelineDepth * slotsPerReader) (g_parts g)).
#[local] Abbreviation readers := (Z.max (slots / slotsPerReader) 1).

Lemma parallelRound_spec cl ub u p : at_block cl true ub u (first_block p) -> readable g Es slots p u -> 0 <= p < g_parts g ->
  wps (parallelRound readers p) ub
    (fun ok ub' => ok = true /\ exists u', at_block cl true ub' u' (first_block (p + 1)) /\ readable g Es slots (p + 1) u') gone.
Proof using HL HP Hg Hok Hblocks Hall Hsmall.
  intros Hab Hra Hp. unfold parallelRound. apply wps_bind, wps_gets. cbn [id]. rewrite (ab_buf _ _ _ _ _ _ _ _ _ _ Hab).
  rewrite (sh_bpp _ _ (ds_shaped _ _ _ (ra_disks _ _ _ _ _ Hra))).
  assert (0 < slots <= 6) as Hsl by (unfold readPipelineDepth, slotsPerReader; lia).
  pose proof (reader_slot slots p Hsl (proj1 Hp) ltac:(unfold readPipelineDepth, slotsPerReader; lia)) as Hi. cbn zeta in Hi.
  set (i := (p mod readers) * slotsPerReader + (p / readers) mod slotsPerReader) in *. cbn zeta.
  apply wps_bind. eapply wps_mono; [by apply checkPipeline_spec | | done]. intros ok ub1 [-> Hab1].
  apply wps_bind, wps_attempt. eapply wps_mono; [by apply (read_spec g Hg totalKeys opts Es cl true ub1 u (first_block p) slots p i Hab1 Hra) | |].
  - intros views ub2 (u2 & slot & Hab2 & Hra2 & _ & Hs & Hsh).
    eapply wps_mono; [by apply (send_views_spec cl ub2 u2 i slot p views Hab2); try lia | | done].
    intros ok ub3 [-> Hab3]. split; [done |]. by exists u2.
  - intros e ub2 (-> & u2 & Hab2 & _). apply failWith_spec; [right; left; right; by left | apply Hab2].
Qed.

Context (Hlim : limits_ok (algorithm cfg) totalKeys) (Htyped : config_typed cfg) (Hlen : len all = totalKeys).

Lemma finishUnsortedParallel_spec cl ub u : at_block cl true ub u 0 -> readable g Es slots 0 u ->
  wps finishUnsortedParallel ub
    (fun _ ub' => build_result cfg c (keys_to g totalKeys opts all val nb) (file (b_iw (ub_b ub'))) /\ b_closed (ub_b ub') = cl) gone.
Proof using HL HP Hg Hok Hblocks Hall Hsmall Hlim Htyped Hlen.
  intros Hab Hra. unfold finishUnsortedParallel. apply wps_bind, wps_gets. cbn [id]. rewrite (ab_buf _ _ _ _ _ _ _ _ _ _ Hab).
  rewrite (so_len _ _ _ _ (ra_slots _ _ _ _ _ Hra)), (sh_parts _ _ (ds_shaped _ _ _ (ra_disks _ _ _ _ _ Hra))). cbn zeta.
  pose proof (go_parts _ Hg) as Hparts. rewrite <- (first_block_0 g Hg) in Hab. apply wps_bind.
  eapply wps_mono; [apply (wps_forW (fun pre ub => exists u, at_block cl true ub u (first_block (len pre)) /\ readable g Es slots (len pre) u) gone) | | done].
  - by exists u.
  - intros pre p post ub1 Heq (u1 & Hab1 & Hra1). apply range_prefix in Heq as [-> Hp]. rewrite len_app, len_single. by apply (parallelRound_spec cl ub1 u1).
  - intros ok ub1 [-> (u1 & Hab1 & _)]. unfold len in Hab1. rewrite length_range, Z2Nat.id, first_block_end in Hab1 by (done || lia).
    by apply (finishBlocks_spec g Hg totalKeys opts Hok Hblocks all val cl true ub1 u1).
Qed.
End parallel.
