(* ===== verification/UnsortedBuild.v ===== *)
(** * Building an index from keys in any order, one by one, end to end *)
From Stdlib Require Import String.
From S2P Require Import Prelude Words Bits Encoding Key Floats Entries Header Algorithm Block Index Image File Options Writer WriterSpec Builder BuilderSpec SortedBuild Pipeline PipelineLive PipelineSafe ParallelBuild UnsortedBuffer UnsortedWrite UnsortedRead UnsortedReadSpec UnsortedMerge UnsortedBuilder UnsortedBlocks UnsortedFinish UnsortedPartitions UnsortedFast UnsortedParallel.
#[local] Open Scope Z_scope.

(** ** From the files to the index *)
Section flushed.
Context `{HX : !XXHash} {HL : XXHashLaws} `{HO : !OS} `{HE : !Env} {HP : PipeLaws}.
Context (g : geometry) (Hg : geometry_ok g) (totalKeys : Z) (opts : list BuildOption).

#[local] Abbreviation cfg := (final_config totalKeys opts).
#[local] Abbreviation c := (block_config cfg).
#[local] Abbreviation nb := (g_blocks g).

Context (Hok : build_ok cfg c) (Hblocks : g_blocks g = c_numBlocks c) (Hcfg : g_cfg g = cfg) (Es : list (list bufferedEntry)).

#[local] Abbreviation all := (concat Es).
#[local] Abbreviation val := (routed_of (payloadSize (g_cfg g))).

Context (Hall : Forall entry_ok all) (Hsmall : forall j, len (in_block g j all) < 2 ^ 32).
Context (Hlim : limits_ok (algorithm cfg) totalKeys) (Htyped : config_typed cfg) (Hlen : len all = totalKeys).

#[local] Abbreviation at_block := (at_block g totalKeys opts all val).
#[local] Abbreviation gone := (fun (e : error) ub => unsorted_error e /\ cleaned ub).

(** The writers whose block counts are merged. *)
Definition counting (ub : UnsortedBuilder) : list writerState :=
  (match defaultWriterWS ub with Some ws => [ws] | None => [] end) ++
  map uw_ws (filter (fun w => is_nil (blockCounts (uw_ws w)) = false) (ub_writers ub)).

Lemma finishFlushed_spec cl wk ub u : at_block cl wk ub u 0 -> on_disks g Es u -> Forall2 (counted g) (counting ub) Es -> all <> [] ->
  wps finishFlushed ub
    (fun _ ub' => build_result cfg c (keys_to g totalKeys opts all val nb) (file (b_iw (ub_b ub'))) /\ b_closed (ub_b ub') = cl) gone.
Proof using HL HP Hg Hok Hblocks Hcfg Hall Hsmall Hlim Htyped Hlen.
  intros Hab Hd Hcnt Hne. unfold finishFlushed. apply wps_bind, wps_gets. cbn [id]. fold (counting ub).
  pose proof (bd_total _ _ Hok) as Htk. change (Options.totalKeys cfg) with totalKeys in Htk.
  apply wps_bind, (orCleanupAll_spec g Hg). apply (on_buf_spec _ ub u); [apply Hab |].
  eapply wps_mono; [apply (merge_spec g Hg Es (counting ub) u); [apply Hd | done | by rewrite Hlen, Hcfg | rewrite Hcfg; change (Options.totalKeys cfg) with totalKeys; destruct Htk; lia] | |].
  2:{ intros e u1 [-> _]. split; [right; by right | apply idle_drainable, set_buf_idle, Hab]. }
  intros [] u1 [-> Hexact]. apply wps_bind, wps_modify. set (ub1 := set_default None _).
  assert (at_block cl wk ub1 (set_merged (merged_all g Es (g_parts g)) u) 0) as Hab1.
  { destruct Hab as [Hb [Hid Hiw] Hp Hc Hw]. split; try done. split; [done |]. intros i w Hi. cbn in Hi. change (map ?f ?l) with (f <$> l) in Hi.
    apply list_lookup_fmap_Some in Hi as (w0 & -> & Hi). cbn. by eapply Hiw. }
  assert (on_disks g Es (set_merged (merged_all g Es (g_parts g)) u)) as Hd1.
  { destruct Hd as [[] Hl Hdisk]. split; [by split | done |]. intros w es He. destruct (Hdisk w es He) as [[] ?]. by split. }
  rewrite (ab_workers _ _ _ _ _ _ _ _ _ _ Hab). set (n := if wk then _ else 2).
  apply wps_bind, (orCleanupAll_spec g Hg). apply (on_buf_spec _ ub1 (set_merged (merged_all g Es (g_parts g)) u)); [apply Hab1 |].
  eapply wps_mono; [by apply (prepareForRead_spec g Hg Es n); [| | unfold n; by destruct wk] | | done].
  intros [] u2 (Hd2 & Hs2 & Hm2). assert (readable g Es (Z.min n (g_parts g)) 0 u2) as Hra.
  { split; [done | done |]. intros q Hq. rewrite Hm2. by apply merged_all_exact. }
  pose proof (at_block_buf _ _ _ _ _ _ _ _ _ u2 _ Hab1) as Hab2.
  destruct wk.
  - by apply (finishUnsortedParallel_spec g Hg totalKeys opts Hok Hblocks Es Hall Hsmall Hlim Htyped Hlen cl _ u2).
  - by apply (finishUnsortedSingleThreaded_spec g Hg totalKeys opts Hok Hblocks Es Hall Hsmall Hlim Htyped Hlen cl _ u2).
Qed.
End flushed.

(** ** Adding keys one by one *)

(** The directory is one more option. *)
Definition with_tempDir (dir : string) (opts : list BuildOption) : list BuildOption := opts ++ [set_unsortedTempDir dir].

Section adding.
Context `{HX : !XXHash} {HL : XXHashLaws} `{HO : !OS} `{HT : !Temp} `{HE : !Env}.
Context (totalKeys : Z) (opts : list BuildOption).

#[local] Abbreviation cfg := (final_config totalKeys opts).
#[local] Abbreviation c := (block_config cfg).

Definition one_writer : geometry := layout_geometry cfg (c_numBlocks c) 1.

#[local] Abbreviation g := one_writer.

Context (Hg : geometry_ok one_writer) (Hok : build_ok cfg c).

(** A key as it is buffered. *)
Definition buffered (kp : list Z * Z) : bufferedEntry := mk_buffered (k_0 (key_of c kp)) (k_1 (key_of c kp)) kp.2.

Definition valid (kp : list Z * Z) : Prop := MinKeySize <= len kp.1 <= maxKeyLength /\ (0 < c_ps c < 8 -> kp.2 < 2 ^ (8 * c_ps c)).
Definition bad_key (kp : list Z * Z) (e : error) : Prop := forall last, refused c last kp e.

(** The core builder before the first block. *)
Definition untouched (b : builder) : Prop := progress totalKeys opts b [] 0 /\ core cfg c b [] [].

Lemma touch_untouched b b' : touch b b' -> untouched b -> untouched b'.
Proof using Type.
  intros Ht [Hp Hc]. split; [by eapply touch_progress |]. destruct Ht as (k & t & q & cl & ->). destruct Hc. by split.
Qed.

(** The keys [kps] have been added. *)
Record adding (ub : UnsortedBuilder) (kps : list (list Z * Z)) : Prop := {
  ad_core : untouched (ub_b ub);
  ad_open : b_closed (ub_b ub) = false;
  ad_count : totalKeysAdded (ub_b ub) = u64 (len kps);
  ad_writers : ub_writers ub = [];
  ad_mode : addKeysUsed ub = false;
  ad_buf : match unsortedBuf ub with
    | None => defaultWriterWS ub = None /\ initialized ub = false /\ kps = []
    | Some u => initialized ub = true /\ exists ws W F A, defaultWriterWS ub = Some ws /\ winv g 0 (u, ws) W F A /\
        W ++ F ++ A = map buffered kps /\ (u_flushed u = true -> kps <> [])
    end
}.

Lemma adding_core ub b' kps : adding ub kps -> touch (ub_b ub) b' -> b_closed b' = false -> totalKeysAdded b' = totalKeysAdded (ub_b ub) ->
  adding (set_core b' ub) kps.
Proof using Type. intros [] Ht Hc Hn. split; try done; cbn; [by eapply touch_untouched | by rewrite Hn]. Qed.

Lemma adding_drainable ub kps : adding ub kps -> drainable g ub.
Proof using Type.
  intros [_ _ _ Hw _ Hb]. split.
  - intros u ws Hu Hws. rewrite Hu in Hb. destruct Hb as (_ & ws' & W & F & A & Hws' & Hi & _). rewrite Hws in Hws'. injection Hws' as <-.
    split; [right; by exists W, F, A | done].
  - intros u i w _ Hi. by rewrite Hw in Hi.
Qed.

(** What a failed call leaves. *)
Definition add_failed (kp : list Z * Z) (e : error) (ub : UnsortedBuilder) : Prop :=
  (bad_key kp e \/ unsorted_error e) /\ drainable g ub /\ b_closed (ub_b ub) = false.

Lemma adding_failed ub kps kp e : adding ub kps -> bad_key kp e \/ unsorted_error e -> add_failed kp e ub.
Proof using Type. intros Ha He. split; [done |]. split; [by eapply adding_drainable | apply Ha]. Qed.

Lemma checkCounter_spec ub kps kp : adding ub kps ->
  wps (if contextCheckInterval <=? keyCounter (ub_b ub) then
         _ ← on_core (modify (set_keyCounter 0));
         c ← on_core (ask ctx_err);
         match c with Some e => fail e | None => mret tt end
       else mret tt) ub (fun _ ub' => adding ub' kps /\ unsortedBuf ub' = unsortedBuf ub) (add_failed kp).
Proof using Type.
  intros Ha. destruct (_ <=? _); [| by apply wps_ret]. apply wps_bind. unfold on_core at 1. apply wps_zoom, wps_modify.
  assert (adding (set_core (set_keyCounter 0 (ub_b ub)) ub) kps) as H1 by (apply adding_core; [done | by eexists _, _, _, _ | apply Ha | done]).
  apply wps_bind. unfold on_core. apply wps_zoom, wps_ask. intros n. set (ub2 := set_core (asked _) _).
  assert (adding ub2 kps) as H2 by (apply (adding_core _ _ _ H1); [by eexists _, _, _, _ | apply Ha | done]).
  destruct (ctx_err n) as [e |] eqn:He; [| by apply wps_ret]. apply wps_fail, (adding_failed _ _ _ _ H2). right. left. by apply (context_said n).
Qed.

Lemma addKeyFast_spec ub u kps kp : adding ub kps -> unsortedBuf ub = Some u -> Forall is_byte kp.1 ->
  wps (addKeyFast kp.1 kp.2) ub (fun _ ub' => valid kp /\ adding ub' (kps ++ [kp])) (add_failed kp).
Proof using Hg Hok.
  intros Ha Hu Hbytes. unfold addKeyFast. apply wps_bind, wps_gets. cbn [id]. rewrite (ad_open _ _ Ha).
  assert (payloadSize (b_cfg (ub_b ub)) = c_ps c) as -> by (rewrite (pg_cfg _ _ _ _ _ (proj1 (ad_core _ _ Ha))); symmetry; apply Hok).
  apply wps_bind, (wps_validate c); [| intros e He; apply (adding_failed _ _ _ _ Ha); left; intros last; by apply He]. intros [Hl Hp].
  apply wps_bind. unfold on_core at 1. apply wps_zoom, wps_modify. set (ub1 := set_core _ ub).
  assert (adding ub1 kps) as H1 by (apply adding_core; [done | by eexists _, _, _, _ | apply Ha | done]).
  apply wps_bind, wps_gets, wps_bind. cbn [id]. eapply wps_mono; [by apply (checkCounter_spec ub1 kps kp) | | done]. intros [] ub2 [H2 Hu2].
  change (unsortedBuf ub1) with (unsortedBuf ub) in Hu2. rewrite Hu in Hu2. change (b_numBlocks (ub_b ub1)) with (b_numBlocks (ub_b ub)).
  rewrite (pg_num _ _ _ _ _ (proj1 (ad_core _ _ Ha))).
  destruct (key_halves c kp.1 ltac:(lia) Hbytes) as [-> ->]. apply wps_bind, wps_lift, wp_ok, wps_bind, wps_lift, wp_ok. cbn zeta.
  pose proof (ad_buf _ _ H2) as Hb. rewrite Hu2 in Hb. destruct Hb as (Hin & ws & W & F & A & Hws & Hi & Heq & Hfl).
  apply wps_bind, (on_default_spec _ ub2 u ws); [done | done |].
  eapply wps_mono; [apply (addKey_spec g Hg 0 (u, ws) W F A (buffered kp)); [lia | done] | |].
  - intros [] s (Ht & W' & F' & A' & Hi' & Heq'). unfold on_core. apply wps_zoom, wps_modify. split; [done |].
    destruct H2 as [Hc Hop Hcnt Hwr Hmode _]. split; cbn; try done.
    + eapply touch_untouched; [| exact Hc]. by eexists _, _, _, _.
    + rewrite Hcnt, len_app, len_single. unfold u64. by rewrite Zplus_mod_idemp_l.
    + split; [done |]. exists s.2, W', F', A'. split; [done |]. split; [by destruct s |]. split; [rewrite Heq', Heq, map_app; done |].
      intros _ Hnil. by destruct kps.
  - intros e s (-> & Ht & Hfn & _). split; [right; right; left; right; by left |]. split; [| apply H2]. split.
    + intros u' ws' Hu' Hws'. cbn in Hu', Hws'. injection Hws' as <-. split; [by left | apply H2].
    + intros u' i w _ Hiw. cbn in Hiw. by rewrite (ad_writers _ _ H2) in Hiw.
Qed.

(** The buffer and its only writer are made at the first key. *)
Lemma initBuffer_spec ub : adding ub [] -> unsortedBuf ub = None ->
  wps (initBuffer 1 true) ub (fun _ ub' => adding ub' [] /\ exists u, unsortedBuf ub' = Some u)
    (fun e ub' => e = ErrOther /\ ub' = ub).
Proof using Hg.
  intros Ha Hu. pose proof (ad_buf _ _ Ha) as Hb. rewrite Hu in Hb. destruct Hb as (Hd & Hin & _).
  unfold initBuffer. apply wps_bind, wps_gets. cbn [id]. rewrite Hin.
  rewrite (pg_cfg _ _ _ _ _ (proj1 (ad_core _ _ Ha))), (pg_num _ _ _ _ _ (proj1 (ad_core _ _ Ha))).
  apply wps_bind, wps_lift. eapply wp_mono; [exact (newUnsortedBuffer_spec cfg (c_numBlocks c) 1 Hg) | | done].
  intros u (Hs & Hun & Hnext & Hfl). change (layout_geometry cfg (c_numBlocks c) 1) with g in *.
  assert (g_writers g = 1) as Hw by done.
  apply wps_bind, wps_modify, wps_bind, wps_bind, wps_attempt. apply (on_buf_spec _ _ u); [done |].
  eapply wps_mono; [apply (newWriterState_spec g Hg u Hs); [by apply Hun; rewrite Hnext, Hw | by rewrite Hnext, Hw | done] | | by intros].
  intros ws u' [-> Hi]. rewrite Hnext in Hi |- *. apply wps_modify, wps_modify.
  split; [| by eexists]. destruct Ha. split; try done. cbn. split; [done |].
  exists ws, [], [], []. split; [done |]. split; [done |]. split; [done |]. by rewrite Hfl.
Qed.

Lemma adding_modes ub kps k i : adding ub kps -> (unsortedBuf ub = None -> i = false) -> (unsortedBuf ub <> None -> i = true) ->
  adding (set_modes k (addKeysUsed ub) i ub) kps.
Proof using Type.
  intros [] H0 H1. split; try done. cbn. destruct (unsortedBuf ub).
  - split; [by apply H1 | apply ad_buf0].
  - split; [apply ad_buf0 | split; [by apply H0 | apply ad_buf0]].
Qed.

Lemma cleanup_keeps_closed : keeps b_closed cleanup.
Proof using Type.
  assert (forall A (m : stM indexWriter A), keeps b_closed (on_iw m)) as Hz by (intros; unfold on_iw; auto with keeps).
  unfold cleanup. keeps_tac. destruct a, a0; auto with keeps.
Qed.

(** The next key. *)
Lemma AddKey_spec ub kps kp : adding ub kps -> Forall is_byte kp.1 ->
  wps (UB_AddKey kp.1 kp.2) ub (fun _ ub' => valid kp /\ adding ub' (kps ++ [kp])) (add_failed kp).
Proof using Hg Hok.
  intros Ha Hbytes. unfold UB_AddKey. apply wps_bind, wps_gets. cbn [id]. pose proof (ad_buf _ _ Ha) as Hb.
  destruct (unsortedBuf ub) as [u |] eqn:Hu.
  { destruct Hb as [-> _]. by apply (addKeyFast_spec ub u). }
  destruct Hb as (Hd & Hin & ->). rewrite Hin. unfold addKeyFirstCall. apply wps_bind, wps_gets. cbn [id].
  rewrite (ad_open _ _ Ha), (ad_mode _ _ Ha). apply wps_bind, wps_modify. set (ub1 := set_modes true _ _ ub).
  assert (adding ub1 []) as H1 by (unfold ub1; rewrite Hin; apply adding_modes; [done | done | by rewrite Hu]).
  apply wps_bind, wps_attempt. eapply wps_mono; [by apply (initBuffer_spec ub1) | |].
  - intros [] ub2 [H2 [u Hu2]]. by apply (addKeyFast_spec ub2 u []).
  - intros e ub2 [-> ->]. apply wps_bind, wps_attempt. unfold on_core. apply wps_zoom.
    eapply wps_mono; [apply (wps_keeps b_closed); [apply cleanup_keeps_closed | apply cleanup_spec] | |].
    all: intros x b' [_ Hcl]; apply wps_fail; split; [right; right; left; right; by left |]; split; [by apply empty_drainable | cbn; rewrite Hcl; apply H1].
Qed.

(** ** Finishing *)
Context {HP : PipeLaws} (Hlim : limits_ok (algorithm cfg) totalKeys) (Htyped : config_typed cfg).

(** A payload as it is stored: its low bytes. *)
Definition cut (kp : list Z * Z) : list Z * Z := (kp.1, kp.2 mod 2 ^ (8 * payloadSize cfg)).

(** The file is an index of the keys, in some order; the payloads as they were
    given, or as they were stored meanwhile. *)
Definition indexed (kps : list (list Z * Z)) (f : osfile) : Prop :=
  exists ks h, build_result cfg c ks f /\ (h = id \/ h = cut) /\ ks ≡ₚ map (fun kp => key_of c (h kp)) kps.

Definition given_ok (kp : list Z * Z) : Prop := Forall is_byte kp.1 /\ is_u 64 kp.2 /\ valid kp.

Lemma buffered_ok kp : given_ok kp -> entry_ok (buffered kp).
Proof using Type. intros (Hb & Hp & [Hl _]). destruct (key_of_halves c kp ltac:(lia) Hb). by split. Qed.

Lemma in_block_keys j kps : len (in_block g j (map buffered kps)) = len (filter (fun k => block_of c k = j) (map (key_of c) kps)).
Proof using Type.
  induction kps as [| kp kps IH]; [done |]. unfold in_block in *. cbn [map]. rewrite !filter_cons.
  change (block_id g (buffered kp)) with (block_of c (key_of c kp)). destruct (decide _); [rewrite !len_cons; by rewrite IH | exact IH].
Qed.

Lemma in_block_permutation j a b : a ≡ₚ b -> len (in_block g j a) = len (in_block g j b).
Proof using Type. intros H. unfold len, in_block. by rewrite H. Qed.

#[local] Abbreviation gone := (fun (e : error) ub => unsorted_error e /\ cleaned ub).

(** From the files, or from memory. *)
Lemma finishUnsorted_spec ub u ws W F A kps : unsortedBuf ub = Some u -> defaultWriterWS ub = Some ws -> ub_writers ub = [] ->
  winv g 0 (u, ws) W F A -> W ++ F ++ A = map buffered kps -> (u_flushed u = true -> kps <> []) -> untouched (ub_b ub) -> b_closed (ub_b ub) = true ->
  Forall given_ok kps -> small_blocks c (map (key_of c) kps) -> len kps = totalKeys ->
  wps finishUnsorted ub (fun _ ub' => indexed kps (file (b_iw (ub_b ub'))) /\ b_closed (ub_b ub') = true) gone.
Proof using HL HP Hg Hok Hlim Htyped.
  intros Hu Hws Hwr Hi Heq Hfl [Hp Hcore] Hcl Hgiven Hsmall Hlen. unfold finishUnsorted. apply wps_bind, wps_gets. cbn [id]. rewrite Hu.
  assert (Forall entry_ok (map buffered kps)) as Hents by (apply Forall_fmap; eapply Forall_impl; [exact Hgiven |]; apply buffered_ok).
  assert (forall j, len (in_block g j (map buffered kps)) < 2 ^ 32) as Hfew by (intros j; rewrite in_block_keys; apply Hsmall).
  assert (len (map buffered kps) = totalKeys) as Hn by (unfold len; by rewrite length_map).
  destruct (u_flushed u) eqn:Hflu; cbn [negb]; cycle 1.
  - destruct (wi_untouched _ _ _ _ _ _ Hi Hflu) as (-> & -> & Hnone). cbn [app] in Heq. subst A.
    pose proof (by_part_permutation g Hg (map buffered kps)) as Hperm. set (all := by_part g (map buffered kps)) in *.
    assert (at_block g totalKeys opts all raw_of true (1 <? b_workers (ub_b ub)) ub u 0) as Hab.
    { split; try done. split; [| intros i w Hiw; by rewrite Hwr in Hiw]. intros ws' Hws'. rewrite Hws in Hws'. by injection Hws' as <-. }
    assert (Forall entry_ok all) as Hall by (by rewrite Hperm).
    assert (forall j, len (in_block g j all) < 2 ^ 32) as Hfew' by (intros j; by rewrite (in_block_permutation j _ _ Hperm)).
    assert (len all = totalKeys) as Hla by (unfold len; by rewrite (Permutation_length Hperm)).
    eapply wps_mono; [apply (finishUnsortedFastPath_spec g Hg totalKeys opts Hok eq_refl all Hall Hfew' Hlim Htyped Hla _ _ ub u Hab) | | done].
    + apply (wi_shaped _ _ _ _ _ _ Hi).
    + unfold collected. rewrite Hws, Hwr. cbn [app map foldM].
      rewrite (collectEntries_spec g Hg u ws (map buffered kps) (wi_shaped _ _ _ _ _ _ Hi) (wi_cap _ _ _ _ _ _ Hi) (wi_active _ _ _ _ _ _ Hi)). done.
    + intros [] ub' [Hr Hc']. split; [| done]. exists (keys_to g totalKeys opts all raw_of (g_blocks g)), id. split; [done |]. split; [by left |].
      rewrite (keys_to_permutation g Hg totalKeys opts all raw_of), Hperm, map_map. done.
  - rewrite Hws. apply wps_bind, (orCleanupAll_spec g Hg), (on_default_spec _ ub u ws); [done | done |].
    eapply wps_mono; [apply (flushAll_spec g Hg 0 (u, ws) W F A); [lia | done] | |].
    2:{ intros e s (-> & _ & Hf). split; [right; left; right; by left |]. split.
        - intros u' ws' Hu' Hws'. cbn in Hu', Hws'. injection Hws' as <-. split; [by left | done].
        - intros u' i w _ Hiw. cbn in Hiw. by rewrite Hwr in Hiw. }
    intros [] s (_ & [Hsh Hid Hfn Hst _] & _). rewrite Heq in Hst. set (ub1 := set_default (Some s.2) _).
    assert (concat [map buffered kps] = map buffered kps) as Hc1 by apply app_nil_r.
    assert (at_block g totalKeys opts (concat [map buffered kps]) (routed_of (payloadSize (g_cfg g))) true (1 <? b_workers (ub_b ub)) ub1 s.1 0) as Hab.
    { split; try done. split; [| intros i w Hiw; cbn in Hiw; by rewrite Hwr in Hiw]. intros ws' Hws'. cbn in Hws'. by injection Hws' as <-. }
    rewrite <- Hc1 in Hents, Hfew, Hn.
    eapply wps_mono; [apply (finishFlushed_spec g Hg totalKeys opts Hok eq_refl eq_refl [map buffered kps] Hents Hfew Hlim Htyped Hn _ _ ub1 s.1 Hab) | | done].
    + rewrite Hc1 in Hents. split; [done | done |]. intros w es Hes. destruct w as [| w]; [| done]. injection Hes as <-. split; [by apply (stored_on_disk g 0 s) | done].
    + unfold counting. cbn [defaultWriterWS ub_writers ub1 set_default set_buf]. rewrite Hwr. cbn. constructor; [apply Hst | constructor].
    + rewrite Hc1. intros Hnil. apply (Hfl eq_refl). by destruct kps.
    + intros [] ub' [Hr Hc']. split; [| done]. eexists _, cut. split; [exact Hr |]. split; [by right |].
      rewrite (keys_to_permutation g Hg totalKeys opts), Hc1, map_map. done.
Qed.

(** Why [Finish] can fail: a wrong number of keys; a failed system call, a full
    region or a cancellation; a block that cannot be built. *)
Definition finish_failed (kps : list (list Z * Z)) (e : error) : Prop :=
  (e = ErrKeyCountMismatch /\ len kps <> totalKeys) \/ e = ErrOther \/ e ∈ block_errors.

Lemma error_reported kps e : unsorted_error e -> finish_failed kps e.
Proof using HL HP.
  intros [[-> _] | [[H%pipeline_error_known | H] | ->]]; [right; by left | by right | by right |].
  right; right. unfold block_errors. apply list_elem_of_here.
Qed.

Lemma UB_Finish_spec ub kps : adding ub kps -> Forall given_ok kps -> small_blocks c (map (key_of c) kps) -> len kps < 2 ^ 64 ->
  wps UB_Finish ub (fun _ ub' => len kps = totalKeys /\ indexed kps (file (b_iw (ub_b ub'))) /\ b_closed (ub_b ub') = true)
    (fun e ub' => finish_failed kps e /\ cleaned ub').
Proof using HL HP Hg Hok Hlim Htyped.
  intros Ha Hgiven Hsmall Hmax. pose proof (len_nonneg kps) as Hk0. unfold UB_Finish. apply wps_bind, wps_gets. cbn [id]. rewrite (ad_open _ _ Ha).
  apply wps_bind. unfold on_core at 1. apply wps_zoom, wps_modify. set (ub1 := set_core _ ub). cbn zeta.
  pose proof (touch_untouched (ub_b ub) (ub_b ub1) ltac:(by eexists _, _, _, _) (ad_core _ _ Ha)) as Hunt.
  assert (drainable g ub1) as Hdr by (pose proof (adding_drainable _ _ Ha) as []; by split).
  rewrite (ad_writers _ _ Ha), (ad_count _ _ Ha). cbn [foldl]. rewrite u64_id by (unfold is_u; lia).
  rewrite (pg_cfg _ _ _ _ _ (proj1 (ad_core _ _ Ha))). change (Options.totalKeys cfg) with totalKeys.
  destruct (Z.eqb_spec (len kps) totalKeys) as [Hn | Hne]; cbn [negb]; cycle 1.
  { eapply wps_mono; [apply (orCleanupAll_spec g Hg _ _ (fun _ _ => False) (fun e => e = ErrKeyCountMismatch)); by apply wps_fail | by intros |].
    intros e ub' [-> Hr]. split; [by left | done]. }
  pose proof (ad_buf _ _ Ha) as Hb. destruct (unsortedBuf ub) as [u |] eqn:Hu; cycle 1.
  - destruct Hb as (_ & _ & ->). unfold on_core. apply wps_zoom.
    eapply wps_mono; [by apply (commitTrailing_spec cfg c (ub_b ub1) [] [] Hok (proj2 Hunt)) | |].
    + intros [] b' [Hr Hc]. split; [done |]. split; [| done]. exists [], id. split; [done |]. split; [by left | done].
    + intros e b' [-> Hr]. split; [right; by left | split; [done |]]. cbn. exact Hu.
  - destruct Hb as (_ & ws & W & F & A & Hws & Hi & Heq & Hfl).
    eapply wps_mono; [by apply (finishUnsorted_spec ub1 u ws W F A kps); try done; apply Ha | |].
    + intros [] ub' [Hr Hc]. by split_and!.
    + intros e ub' [He Hr]. split; [by apply error_reported | done].
Qed.
End adding.

(** ** The whole build *)
Section build.
Context `{HX : !XXHash} `{HO : !OS} `{HT : !Temp} `{HE : !Env}.

Definition with_unsorted {A} (m : stM UnsortedBuilder A) (ub : UnsortedBuilder) : stM osfile A := fun _ =>
  match m ub with Ok (ub', r) => Ok (file (b_iw (ub_b ub')), r) | Err e => Err e | Panic => Panic end.

(** [defer builder.Close()] *)
Definition unsorted_then_close {A} (m : stM UnsortedBuilder A) : stM UnsortedBuilder A :=
  r ← attempt m;
  _ ← attempt UB_Close;
  match r with inl a => mret a | inr e => fail e end.

(** [AddKey] for every key, then [Finish]; the first error ends the build. *)
Definition unsorted_build (totalKeys : Z) (tempDir : string) (opts : list BuildOption) (kps : list (list Z * Z)) : stM osfile unit :=
  ub ← NewUnsortedBuilder totalKeys tempDir opts;
  with_unsorted (unsorted_then_close (_ ← forM (fun kp => UB_AddKey kp.1 kp.2) kps; UB_Finish)) ub.

Lemma unsorted_close_spec g (Hg : geometry_ok g) ub : drainable g ub ->
  wps UB_Close ub (fun _ ub' => if b_closed (ub_b ub) then ub' = ub else cleaned ub') (fun _ ub' => b_closed (ub_b ub) = false /\ cleaned ub').
Proof.
  intros Hd. unfold UB_Close. apply wps_bind, wps_gets. cbn [id]. destruct (b_closed (ub_b ub)); [by apply wps_ret |].
  apply wps_bind. unfold on_core. apply wps_zoom, wps_modify. eapply wps_mono; [apply (cleanupAll_spec g Hg) | done | done].
  destruct Hd. by split.
Qed.

(** [Close] does nothing after a finished build, and removes the file of any
    other. *)
Lemma unsorted_then_close_spec {A} g (Hg : geometry_ok g) (m : stM UnsortedBuilder A) ub (Q : A -> osfile -> Prop) (E : error -> Prop) :
  wps m ub (fun a ub' => Q a (file (b_iw (ub_b ub'))) /\ b_closed (ub_b ub') = true)
    (fun e ub' => E e /\ ((drainable g ub' /\ b_closed (ub_b ub') = false) \/ cleaned ub')) ->
  wps (unsorted_then_close m) ub (fun a ub' => Q a (file (b_iw (ub_b ub')))) (fun e ub' => E e /\ removed (file (b_iw (ub_b ub')))).
Proof.
  intros Hm. unfold unsorted_then_close. apply wps_bind, wps_attempt. eapply wps_mono; [exact Hm | |].
  - intros a ub' [HQ Hc]. apply wps_bind, wps_attempt. unfold UB_Close. apply wps_bind, wps_gets. cbn [id]. rewrite Hc. by apply wps_ret, wps_ret.
  - intros e ub' [He Hr]. apply wps_bind, wps_attempt.
    assert (drainable g ub') as Hd by (destruct Hr as [[Hd _] | [_ Hn]]; [done | by apply empty_drainable]).
    eapply wps_mono; [by apply (unsorted_close_spec g Hg) | |].
    + intros [] ub1 H. apply wps_fail. split; [done |]. destruct (b_closed (ub_b ub')) eqn:Hc; [subst ub1; destruct Hr as [[_ Hf] | [Hr _]]; [done | done] | apply H].
    + intros e' ub1 [_ [H _]]. by apply wps_fail.
Qed.

Lemma with_unsorted_spec {A} (m : stM UnsortedBuilder A) ub f (Q : A -> osfile -> Prop) E :
  wps m ub (fun a ub' => Q a (file (b_iw (ub_b ub')))) (fun e ub' => E e (file (b_iw (ub_b ub')))) -> wps (with_unsorted m ub) f Q E.
Proof. unfold wps, with_unsorted. by destruct (m ub) as [[ub' [a | e]] | |]. Qed.
End build.
