(* ===== verification/UnsortedCorrect.v ===== *)
(** * The unsorted builder is correct: keys one by one *)
From Stdlib Require Import String.
From S2P Require Import Prelude Words Bits Encoding Key Floats Entries Header Algorithm Block Index Image IndexQuery File Options Writer WriterSpec Builder BuilderSpec SortedBuild Pipeline PipelineLive PipelineSafe ParallelBuild UnsortedBuffer UnsortedWrite UnsortedRead UnsortedReadSpec UnsortedMerge UnsortedBuilder UnsortedBlocks UnsortedFinish UnsortedPartitions UnsortedFast UnsortedParallel UnsortedBuild.
#[local] Open Scope Z_scope.

(** ** A new builder *)
Section new.
Context `{HX : !XXHash} {HL : XXHashLaws} `{HO : !OS} `{HT : !Temp} `{HE : !Env}.
Context (totalKeys : Z) (dir : string) (opts : list BuildOption).

#[local] Abbreviation opts' := (with_tempDir dir opts).
#[local] Abbreviation cfg := (final_config totalKeys opts').
#[local] Abbreviation c := (block_config cfg).

Lemma final_tempDir : cfg = set_unsortedTempDir dir (final_config totalKeys opts).
Proof. unfold final_config, with_tempDir. by rewrite foldl_app. Qed.

(** The directory changes nothing that matters to a build. *)
Lemma tempDir_fresh b : build_ok (final_config totalKeys opts) (block_config (final_config totalKeys opts)) -> fresh totalKeys opts b ->
  build_ok cfg c /\ fresh totalKeys opts' (set_tempDir dir b).
Proof.
  intros Hok Hfr. pose proof final_tempDir as Heq. split.
  - rewrite Heq. destruct Hok. by split.
  - destruct Hfr. split; rewrite ?Heq; try done.
    + cbn. by rewrite fr_cfg.
    + destruct fr_committed. split; try done; [cbn; by rewrite fr_cfg |]. intros H. destruct (cm_place H). by split.
Qed.

(** A builder that was just made. *)
Definition newborn (b : builder) : Prop := untouched totalKeys opts' b /\ b_closed b = false /\ totalKeysAdded b = 0.
Definition new_unsorted (b : builder) : UnsortedBuilder := mk_ub b false false false None None [].

Lemma newborn_adding b : newborn b -> adding totalKeys opts' (new_unsorted b) [].
Proof. by intros (Hb & Hc & Ha). Qed.

(** Closing and removing the output of a builder that is not returned. *)
Lemma discard_spec b : wps (_ ← attempt (on_iw iw_close); attempt (on_iw (zoom file set_file osRemove))) b
  (fun _ b' => removed (file (b_iw b'))) (fun _ _ => False).
Proof.
  unfold on_iw. apply wps_bind, wps_attempt, wps_zoom.
  assert (forall b1 : builder, f_open (file (b_iw b1)) = false ->
    wps (attempt (zoom b_iw set_iw (zoom file set_file osRemove))) b1 (fun _ b' => removed (file (b_iw b'))) (fun _ _ => False)) as Hrest.
  { intros b1 Ho. apply wps_attempt, wps_zoom, wps_zoom. unfold osRemove, wps, sysCall.
    destruct (fault _) as [k |] eqn:Hf; (split; [exact Ho |]); [by right | by left]. }
  eapply wps_mono; [apply (wps_close (b_iw b) (fun _ w => f_open (file w) = false)); by intros | |].
  - intros [] w Hw. exact (Hrest (set_iw w b) Hw).
  - intros e w [_ Hw]. exact (Hrest (set_iw w b) Hw).
Qed.

(** A builder without keys; or a check, a system call or the temporary directory
    has failed. *)
Lemma NewUnsortedBuilder_spec f0 : config_typed (final_config totalKeys opts) -> limits_ok (algorithm (final_config totalKeys opts)) totalKeys ->
  wps (NewUnsortedBuilder totalKeys dir opts) f0
    (fun ub f => build_ok cfg c /\ exists b, ub = new_unsorted b /\ newborn b)
    (fun e f => (rejected (final_config totalKeys opts) e /\ f = f0) \/ (e = ErrOther /\ (uncreated f0 f \/ removed f))).
Proof.
  intros Ht Hl. unfold NewUnsortedBuilder. apply wps_bind.
  eapply wps_mono; [by apply (newBuilder_spec totalKeys opts f0) | | intros e f [H | [-> H]]; [by left | right; split; [done | by left]]].
  intros b f (_ & Hok & Hfr). destruct (tempDir_fresh b Hok Hfr) as [Hok' Hfr']. cbn zeta. destruct temp_dir_ok.
  - apply wps_ret. split; [done |]. exists (set_tempDir dir b). split; [done |]. split; [| split; [apply Hfr' | exact (fr_added _ _ _ Hfr')]].
    split; [by apply fresh_progress |]. destruct Hfr'. split; try done; [by setoid_rewrite fr_md | by setoid_rewrite fr_pd].
  - unfold wps. pose proof (discard_spec (set_tempDir dir b)) as Hd. unfold wps in Hd.
    destruct ((_ ← attempt (on_iw iw_close); attempt (on_iw (zoom file set_file osRemove))) (set_tempDir dir b)) as [[b' r] | |] eqn:He; [| by destruct Hd ..].
    right. split; [done |]. right. destruct r; [done | by destruct Hd].
Qed.
End new.

(** ** The answers do not depend on the order of the keys *)
Section answers.
Context `{HX : !XXHash} {HL : XXHashLaws}.

Lemma answers_permutation cfg bytes (h : list Z * Z -> list Z * Z) kps kps' :
  (forall kp, kp ∈ kps' -> (h kp).1 = kp.1 /\ (payloadSize cfg <> 0 -> (h kp).2 = kp.2)) -> kps' ≡ₚ kps ->
  answers_for cfg bytes (map h kps') -> answers_for cfg bytes kps.
Proof using Type.
  intros Hh Hp (i & Ho & Hn & Hu & Hv & ranks & Hr & Hall).
  assert (len (map h kps') = len kps) as Hl by (unfold len; by rewrite length_map, (Permutation_length Hp)). rewrite Hl in Hn, Hr.
  exists i. do 4 (split; [done |]). change (map h kps') with (h <$> kps') in Hall. apply (Forall2_fmap_l h) in Hall.
  destruct (Permutation_Forall2 Hp Hall) as (ranks' & Hr' & Hall'). exists ranks'. split; [by rewrite <- Hr' |].
  apply Forall2_same_length_lookup_2; [exact (Forall2_length _ _ _ Hall') |]. intros n kp r Hkp Hrk.
  pose proof (Forall2_lookup_lr _ _ _ _ _ _ Hall' Hkp Hrk) as [Hq Hqp].
  destruct (Hh kp) as [H1 H2]; [rewrite Hp; by eapply list_elem_of_lookup_2 |]. rewrite H1 in Hq, Hqp. split; [done |].
  intros Hne. rewrite <- (H2 Hne). by apply Hqp.
Qed.
End answers.

Section correct.
Context `{HX : !XXHash} {HL : XXHashLaws} `{HO : !OS} `{HE : !Env}.
Context (totalKeys : Z) (opts : list BuildOption).

#[local] Abbreviation cfg := (final_config totalKeys opts).
#[local] Abbreviation c := (block_config cfg).

Lemma cut_same kp : build_ok cfg c -> given_ok totalKeys opts kp -> payloadSize cfg <> 0 -> (cut totalKeys opts kp).2 = kp.2.
Proof using Type.
  intros Hok (_ & [H0 Hp] & _ & Hs) Hne. cbn [cut snd]. rewrite (bd_ps _ _ Hok) in Hs. destruct (bd_config _ _ Hok) as [_ Hps _].
  rewrite (bd_ps _ _ Hok) in Hps. unfold maxPayloadSize in Hps. apply Z.mod_small. split; [done |].
  destruct (decide (payloadSize cfg = 8)) as [-> | H8]; [done | apply Hs; lia].
Qed.

Lemma cut_given kp : build_ok cfg c -> given_ok totalKeys opts kp -> given_ok totalKeys opts (cut totalKeys opts kp).
Proof using Type.
  intros Hok Hkp. pose proof Hkp as (Hb & [H0 Hp] & Hl & Hs). destruct (bd_config _ _ Hok) as [_ Hps _]. rewrite (bd_ps _ _ Hok) in Hs, Hps. unfold maxPayloadSize in Hps.
  pose proof (Z.mod_pos_bound kp.2 (2 ^ (8 * payloadSize cfg)) ltac:(apply Z.pow_pos_nonneg; lia)) as Hm.
  split; [done |]. cbn [cut fst snd]. split; [| split; [done |]].
  - split; [lia |]. destruct (decide (payloadSize cfg = 0)) as [He | Hne].
    + rewrite He in Hm |- *. change (2 ^ (8 * 0)) with 1 in *. lia.
    + change (kp.2 mod 2 ^ (8 * payloadSize cfg)) with (cut totalKeys opts kp).2. by rewrite cut_same.
  - rewrite (bd_ps _ _ Hok). intros _. apply Hm.
Qed.

Lemma indexed_answers kps f : build_ok cfg c -> Forall (given_ok totalKeys opts) kps -> len kps = totalKeys -> indexed totalKeys opts kps f ->
  exists bytes, f_data f = Some bytes /\ f_open f = false /\ (len bytes < 2 ^ 40 -> answers_for cfg bytes kps).
Proof using HL.
  intros Hok Hgiven Hlen (ks & h & Hr & Hh & Hp). rewrite <- (map_map h (key_of c)) in Hp.
  apply Permutation_map_inv in Hp as (kps1 & -> & Hp1). symmetry in Hp1. apply Permutation_map_inv in Hp1 as (kps' & -> & Hp').
  assert (Forall (given_ok totalKeys opts) kps') as Hg' by (by rewrite <- Hp').
  assert (Forall (given_ok totalKeys opts) (map h kps')) as Hgh.
  { apply Forall_fmap. eapply Forall_impl; [exact Hg' |]. intros kp Hkp. destruct Hh as [-> | ->]; [done | by apply cut_given]. }
  destruct (build_result_answers cfg c (map h kps') f Hok Hr) as (bytes & Hd & Hopen & Hans).
  - unfold len in *. by rewrite length_map, <- (Permutation_length Hp').
  - eapply Forall_impl; [exact Hgh |]. by intros kp (? & ? & _).
  - eapply Forall_impl; [exact Hgh |]. intros kp (_ & _ & Hl & Hs). split; [lia | done].
  - exists bytes. split; [done |]. split; [done |]. intros Hl. apply (answers_permutation cfg bytes h kps kps'); [| done | by apply Hans].
    intros kp Hin. destruct Hh as [-> | ->]; [done |]. split; [done |]. apply cut_same; [done |]. by apply (proj1 (Forall_forall _ _) Hg').
Qed.
End correct.

(** ** The theorem *)

(** Why adding the keys and finishing can fail. *)
Variant unsorted_failed (totalKeys : Z) (opts : list BuildOption) (kps : list (list Z * Z)) : error -> Prop :=
  | unsorted_key pre kp post e : kps = pre ++ kp :: post -> Forall (valid totalKeys opts) pre -> bad_key totalKeys opts kp e -> unsorted_failed totalKeys opts kps e
  | unsorted_finish e : finish_failed totalKeys kps e -> unsorted_failed totalKeys opts kps e.

Lemma add_and_finish_spec `{HX : !XXHash} {HL : XXHashLaws} `{HO : !OS} `{HT : !Temp} `{HE : !Env} {HP : PipeLaws} totalKeys opts ub kps :
  let cfg := final_config totalKeys opts in
  let c := block_config cfg in
  let g := one_writer totalKeys opts in
  build_ok cfg c -> geometry_ok g -> limits_ok (algorithm cfg) totalKeys -> config_typed cfg -> adding totalKeys opts ub [] ->
  Forall (fun kp => Forall is_byte kp.1 /\ is_u 64 kp.2) kps -> small_blocks c (map (key_of c) kps) -> len kps < 2 ^ 64 ->
  wps (_ ← forM (fun kp => UB_AddKey kp.1 kp.2) kps; UB_Finish) ub
    (fun _ ub' => (len kps = totalKeys /\ Forall (valid totalKeys opts) kps /\ indexed totalKeys opts kps (file (b_iw (ub_b ub')))) /\ b_closed (ub_b ub') = true)
    (fun e ub' => unsorted_failed totalKeys opts kps e /\ ((drainable g ub' /\ b_closed (ub_b ub') = false) \/ cleaned ub')).
Proof using.
  intros cfg c g Hok Hg Hlim Ht Ha Hty Hsmall Hlen. apply wps_bind.
  eapply wps_mono; [apply (wps_forM (fun pre ub => Forall (valid totalKeys opts) pre /\ adding totalKeys opts ub pre)
    (fun e ub' => unsorted_failed totalKeys opts kps e /\ ((drainable g ub' /\ b_closed (ub_b ub') = false) \/ cleaned ub'))) | | done].
  - by split.
  - intros pre kp post ub1 Heq [Hv Ha1]. rewrite Heq in Hty. apply Forall_app in Hty as [_ [[Hb _] _]%Forall_cons].
    eapply wps_mono; [by apply (AddKey_spec totalKeys opts Hg Hok ub1 pre kp) | |].
    + intros [] ub2 [Hkp Ha2]. split; [apply Forall_app; split; [done | by constructor] | done].
    + intros e ub2 (He & Hd & Hc). split; [| left; by split]. destruct He as [He | He]; [by eapply unsorted_key | by apply unsorted_finish, error_reported].
  - intros [] ub1 [Hv Ha1]. assert (Forall (given_ok totalKeys opts) kps) as Hgiven.
    { apply Forall_forall. intros kp Hin. pose proof (proj1 (Forall_forall _ _) Hty kp Hin) as []. split; [done | split; [done |]]. by apply (proj1 (Forall_forall _ _) Hv). }
    eapply wps_mono; [by apply (UB_Finish_spec totalKeys opts Hg Hok Hlim Ht ub1 kps) | |].
    + intros [] ub2 (Hn & Hi & Hc). done.
    + intros e ub2 [He Hr]. split; [by apply unsorted_finish | by right].
Qed.

(** C2: building an index from keys in any order, added one by one, with any number
    of workers and whatever the system and the pipeline do meanwhile. When the
    build reports no error, the keys were valid and as many as announced, and the
    file it leaves is an index that verifies and answers for every key with its
    payload, whether the entries stayed in memory or went through the partition
    files. When it reports an error:
    a rejected configuration leaves the path alone; when the file could not be
    created the path is as it was, and when no space could be reserved for it the
    new file stays, closed and empty ([newIndexWriter] does not remove it); after
    every other error the file is closed and removed, unless [os.Remove] itself
    failed. The error is that of the rejected option, of the key refused, of
    the wrong number of keys, of a block that cannot be built (or has too many keys
    to count), or it wraps no sentinel: a failed system call, a full region of a
    partition, a cancelled context. *)
Theorem unsorted_build_correct `{HX : !XXHash} {HL : XXHashLaws} `{HO : !OS} `{HT : !Temp} `{HE : !Env} {HP : PipeLaws} totalKeys dir opts f0 kps :
  let opts' := with_tempDir dir opts in
  let cfg := final_config totalKeys opts' in
  let c := block_config cfg in
  config_typed cfg -> limits_ok (algorithm cfg) totalKeys -> (build_ok cfg c -> geometry_ok (one_writer totalKeys opts')) -> len kps < 2 ^ 64 ->
  Forall (fun kp => Forall is_byte kp.1 /\ is_u 64 kp.2) kps -> small_blocks c (map (key_of c) kps) ->
  wps (unsorted_build totalKeys dir opts kps) f0
    (fun _ f => len kps = totalKeys /\ Forall (valid totalKeys opts') kps /\
       exists bytes, f_data f = Some bytes /\ f_open f = false /\ (len bytes < 2 ^ 40 -> answers_for cfg bytes kps))
    (fun e f => (rejected (final_config totalKeys opts) e /\ f = f0) \/ (e = ErrOther /\ (uncreated f0 f \/ removed f)) \/
       (unsorted_failed totalKeys opts' kps e /\ removed f)).
Proof using.
  intros opts' cfg c Ht Hl Hg Hlen Hty Hsmall. pose proof (final_tempDir totalKeys dir opts) as Heq.
  assert (config_typed (final_config totalKeys opts)) as Ht0 by (unfold cfg, opts' in Ht; rewrite Heq in Ht; destruct Ht; by split).
  assert (limits_ok (algorithm (final_config totalKeys opts)) totalKeys) as Hl0 by (unfold cfg, opts' in Hl; by rewrite Heq in Hl).
  unfold unsorted_build. apply wps_bind.
  eapply wps_mono; [by apply (NewUnsortedBuilder_spec totalKeys dir opts f0) | | intros e f [H | H]; [by left | right; by left]].
  intros ub f (Hok & b & -> & Ha%newborn_adding). apply with_unsorted_spec. specialize (Hg Hok).
  eapply wps_mono; [apply (unsorted_then_close_spec _ Hg _ _ (fun _ f => len kps = totalKeys /\ Forall (valid totalKeys opts') kps /\ indexed totalKeys opts' kps f));
    by apply add_and_finish_spec | | intros e ub' H; right; by right].
  intros [] ub' (Hn & Hv & Hi). split; [done |]. split; [done |]. apply (indexed_answers totalKeys opts' kps _ Hok); [| done | done].
  apply Forall_forall. intros kp Hin. pose proof (proj1 (Forall_forall _ _) Hty kp Hin) as []. split; [done | split; [done |]]. by apply (proj1 (Forall_forall _ _) Hv).
Qed.

(** A system whose temporary directory is there. *)
Definition quiet_temp : Temp := {| temp_dir_ok := true; mkdir_temp_ok := true; temp_calls _ := 0%nat |}.

(** The keys of the sorted example, the other way round. *)
Definition example_unsorted : list (list Z * Z) := rev example_keys.

Lemma example_one_writer : geometry_ok (one_writer 2 (with_tempDir "tmp" example_par_opts)).
Proof. split; vm_compute; try split; congruence. Qed.

Lemma unsorted_build_correct_witness :
  let opts := with_tempDir "tmp" example_par_opts in
  let cfg := final_config 2 opts in
  wps (@unsorted_build poly_hash quiet_os quiet_temp (@running_env poly_hash quiet_os) 2 "tmp" example_par_opts example_unsorted) (mk_osfile None false false 0)
    (fun _ f => len example_unsorted = 2 /\ Forall (valid 2 opts) example_unsorted /\
       exists bytes, f_data f = Some bytes /\ f_open f = false /\ (len bytes < 2 ^ 40 -> @answers_for poly_hash cfg bytes example_unsorted))
    (fun e f => (rejected (final_config 2 example_par_opts) e /\ f = mk_osfile None false false 0) \/ (e = ErrOther /\ (@uncreated quiet_os (mk_osfile None false false 0) f \/ removed f)) \/
       (unsorted_failed 2 opts example_unsorted e /\ removed f)).
Proof.
  apply (@unsorted_build_correct poly_hash poly_hash_laws quiet_os quiet_temp (@running_env poly_hash quiet_os) (@running_laws poly_hash poly_hash_laws quiet_os)
    2 "tmp" example_par_opts (mk_osfile None false false 0) example_unsorted).
  - split; [unfold is_u; cbn; lia | unfold is_u; cbn; lia |]. repeat constructor; unfold_words; lia.
  - split; vm_compute; reflexivity.
  - intros _. exact example_one_writer.
  - unfold len. cbn. lia.
  - repeat constructor; unfold_words; cbn; lia.
  - apply small_blocks_few. unfold len. cbn. lia.
Defined.
