(* ===== verification/UnsortedConcurrent.v ===== *)
(** * The unsorted builder is correct: keys by several writers

    The writers of [AddKeys] take their steps in any order; each has its own
    buffers and its own file, so what one does never disturbs another. *)
From Stdlib Require Import String.
From S2P Require Import Prelude Words Bits Encoding Key Floats Entries Header Algorithm Block Index Image IndexQuery File Options Writer WriterSpec Builder BuilderSpec SortedBuild Pipeline PipelineLive PipelineSafe ParallelBuild UnsortedBuffer UnsortedWrite UnsortedRead UnsortedReadSpec UnsortedMerge UnsortedBuilder UnsortedBlocks UnsortedFinish UnsortedPartitions UnsortedFast UnsortedParallel UnsortedBuild UnsortedCorrect.
#[local] Open Scope Z_scope.

Section writers.
Context `{HX : !XXHash} {HL : XXHashLaws} `{HO : !OS} `{HT : !Temp} `{HS : !Sched} `{HE : !Env}.
Context (totalKeys : Z) (opts : list BuildOption) (nw : Z) (Hnw : 1 <= nw).

#[local] Abbreviation cfg := (final_config totalKeys opts).
#[local] Abbreviation c := (block_config cfg).

Definition several_writers : geometry := layout_geometry cfg (c_numBlocks c) nw.

#[local] Abbreviation g := several_writers.
#[local] Abbreviation buffered := (buffered totalKeys opts).
#[local] Abbreviation valid := (valid totalKeys opts).
#[local] Abbreviation bad_key := (bad_key totalKeys opts).

Context (Hg : geometry_ok several_writers) (Hok : build_ok cfg c).

(** ** One writer *)

(** Writer [i] has taken the keys [ks]. *)
Definition running (i : Z) (u : unsortedBuffer) (w : unsortedWriter) (ks : list (list Z * Z)) : Prop :=
  exists W F A, winv g i (u, uw_ws w) W F A /\ W ++ F ++ A = map buffered ks.

(** It has failed to write and has nothing under way. *)
Definition stuck (w : unsortedWriter) : Prop := flushing (uw_ws w) = None /\ flushErr (uw_ws w) = Some ErrOther.

(** The core builder is only asked for its context. *)
Definition same_core (b b' : builder) : Prop := touch b b' /\ b_closed b' = b_closed b /\ totalKeysAdded b' = totalKeysAdded b.

Lemma same_core_refl b : same_core b b.
Proof using Type. split; [| done]. exists (keyCounter b), (totalKeysAdded b), (questions b), (b_closed b). by destruct b. Qed.

Lemma same_core_asked b : same_core b (asked b).
Proof using Type. split; [by eexists _, _, _, _ | done]. Qed.

Lemma running_same i u w w' ks : uw_ws w' = uw_ws w -> running i u w ks -> running i u w' ks.
Proof using Type. unfold running. by intros ->. Qed.

Definition added_one (i : Z) (b : builder) (u : unsortedBuffer) (w : unsortedWriter) (ks : list (list Z * Z)) (kp : list Z * Z) (s : uwst) : Prop :=
  valid kp /\ same_core b s.1 /\ touched g i u s.2.1 /\ running i s.2.1 s.2.2 (ks ++ [kp]) /\
  keysAdded s.2.2 = u64 (keysAdded w + 1) /\ uw_closed s.2.2 = uw_closed w.

Definition add_refused (i : Z) (b : builder) (u : unsortedBuffer) (w : unsortedWriter) (ks : list (list Z * Z)) (kp : list Z * Z) (e : error) (s : uwst) : Prop :=
  (bad_key kp e \/ unsorted_error e) /\ same_core b s.1 /\ touched g i u s.2.1 /\ uw_closed s.2.2 = uw_closed w /\
  (running i s.2.1 s.2.2 ks \/ stuck s.2.2).

Lemma uw_addKey_spec i b u w ks kp : 0 <= i -> untouched totalKeys opts b -> running i u w ks -> Forall is_byte kp.1 ->
  wps (uw_addKey kp.1 kp.2) (b, (u, w)) (fun _ => added_one i b u w ks kp) (add_refused i b u w ks kp).
Proof using Hg Hok.
  intros Hi [Hp _] Hrun Hbytes. unfold uw_addKey. apply wps_bind, wps_gets. cbn [id fst snd].
  assert (payloadSize (b_cfg b) = c_ps c) as -> by (rewrite (pg_cfg _ _ _ _ _ Hp); symmetry; apply Hok).
  apply wps_bind, (wps_validate c).
  2:{ intros e He. split; [left; intros last; by apply He |]. split; [apply same_core_refl |]. split; [apply touched_refl |]. split; [done | by left]. }
  intros [Hl Hs]. apply wps_bind, wps_modify. set (s1 := set_uw _ _ _ _).
  apply wps_bind. eapply (wps_mono _ _ (fun _ s => same_core b s.1 /\ s.2.1 = u /\ uw_ws s.2.2 = uw_ws w /\ keysAdded s.2.2 = keysAdded w /\ uw_closed s.2.2 = uw_closed w)
    _ (add_refused i b u w ks kp)); [| | done].
  { destruct (_ <=? _); [| apply wps_ret; split; [apply same_core_refl | done]].
    apply wps_bind, wps_modify, wps_bind, wps_zoom, wps_ask. intros n. destruct (ctx_err n) as [e |] eqn:He.
    - apply wps_fail. split; [right; left; by apply (context_said n) |]. split; [apply same_core_asked |]. split; [apply touched_refl |]. split; [done | left]. by apply (running_same i u w).
    - apply wps_ret. split; [apply same_core_asked | done]. }
  intros [] [b2 [u2 w2]] (Hb2 & Hu2 & Hw2 & Hk2 & Hc2). cbn [fst snd] in *. subst u2.
  destruct (key_halves c kp.1 ltac:(lia) Hbytes) as [-> ->]. apply wps_bind, wps_lift, wp_ok, wps_bind, wps_lift, wp_ok.
  rewrite (pg_num _ _ _ _ _ Hp). destruct Hrun as (W & F & A & Hinv & Heq).
  apply wps_bind. unfold on_uws. apply wps_zoom. change (get_ws (b2, (u, w2))) with (u, uw_ws w2). rewrite Hw2.
  eapply wps_mono; [apply (addKey_spec g Hg i (u, uw_ws w) W F A (buffered kp) Hi Hinv) | |].
  - intros [] s (Ht & W' & F' & A' & Hinv' & Heq'). apply wps_modify. split; [done |]. cbn. split; [done |]. split; [done |].
    split; [| by rewrite Hk2]. exists W', F', A'. split; [by destruct s |]. by rewrite Heq', Heq, map_app.
  - intros e s (-> & Ht & Hf & Hfe). split; [right; right; left; right; by left |]. split; [done |]. split; [done |]. split; [done | right]. by split.
Qed.

(** Closing a writer: everything is in its file, or it could not be written. *)
Lemma uw_close_spec i b u w ks : 0 <= i -> uw_closed w = false -> running i u w ks \/ stuck w ->
  wps uw_close (b, (u, w))
    (fun _ s => s.1 = b /\ touched g i u s.2.1 /\ running i u w ks /\ flushed_out g i (s.2.1, uw_ws s.2.2) (map buffered ks) /\
       (ks = [] -> u_flushed s.2.1 = u_flushed u) /\ keysAdded s.2.2 = keysAdded w /\ (cursorSets (uw_ws s.2.2)).1 = [])
    (fun e s => e = ErrOther /\ s.1 = b /\ touched g i u s.2.1 /\ flushing (uw_ws s.2.2) = None).
Proof using Hg.
  intros Hi Hc Hr. unfold uw_close. apply wps_bind, wps_gets. cbn [id fst snd]. rewrite Hc.
  apply wps_bind, wps_modify, wps_bind. unfold on_uws. apply wps_zoom. cbn [get_ws set_uw fst snd uw_ws].
  destruct Hr as [Hrun | [Hf Hfe]].
  - pose proof Hrun as (W & F & A & Hinv & Heq).
    eapply wps_mono; [apply (flushAll_spec g Hg i (u, uw_ws w) W F A Hi Hinv) | |].
    + intros [] s (Ht & [Hsh Hid Hfn Hst Hun] & Hfl). rewrite Heq in *. apply wps_modify. cbn. split; [done |]. split; [done |]. split; [done |].
      split; [| split; [| done]].
      * split; try done. destruct Hst. by split.
      * intros ->. by apply Hfl.
    + intros e s (-> & Ht & Hn). done.
  - eapply wps_mono; [by apply (flushAll_gave_up (u, uw_ws w) (fun _ _ => False)) | by intros |].
    intros e s [-> ->]. split; [done |]. split; [done |]. split; [apply touched_refl | done].
Qed.

(** ** All writers *)
Context (input : Z -> list (list Z * Z)) (Hinput : forall i, Forall (fun kp => Forall is_byte kp.1 /\ is_u 64 kp.2) (input i)).

Definition inputs (i : nat) : list (list Z * Z) := input (Z.of_nat i).

(** Why a writer may have failed. *)
Definition failed_input (i : nat) (e : error) : Prop :=
  (exists pre kp post, inputs i = pre ++ kp :: post /\ Forall valid pre /\ bad_key kp e) \/ unsorted_error e.

(** Writer [i] and its goroutine: adding keys, failed, closed, or closed after a
    failure. *)
Variant writer_ok (i : nat) (u : unsortedBuffer) (w : unsortedWriter) (r : goroutine) : Prop :=
  | wo_running ks : g_err r = None -> g_done r = false -> uw_closed w = false -> inputs i = ks ++ g_todo r -> Forall valid ks ->
      running (Z.of_nat i) u w ks -> keysAdded w = u64 (len ks) -> writer_ok i u w r
  | wo_failed ks e : g_err r = Some e -> failed_input i e -> g_done r = false -> g_todo r = [] -> uw_closed w = false ->
      running (Z.of_nat i) u w ks \/ stuck w -> writer_ok i u w r
  | wo_closed : g_err r = None -> g_done r = true -> g_todo r = [] -> Forall valid (inputs i) ->
      flushed_out g (Z.of_nat i) (u, uw_ws w) (map buffered (inputs i)) -> keysAdded w = u64 (len (inputs i)) ->
      (cursorSets (uw_ws w)).1 = [] -> writer_ok i u w r
  | wo_dead e : g_err r = Some e -> failed_input i e -> g_done r = true -> flushing (uw_ws w) = None -> writer_ok i u w r.

Lemma running_touched i j u u' w ks : 0 <= i -> 0 <= j -> i <> j -> touched g j u u' -> running i u w ks -> running i u' w ks.
Proof using Type. intros Hi Hj Hne Ht (W & F & A & Hinv & Heq). exists W, F, A. split; [by eapply (winv_touched g i j) | done]. Qed.

Lemma writer_ok_touched (i j : nat) u u' w r : i <> j -> touched g (Z.of_nat j) u u' -> writer_ok i u w r -> writer_ok i u' w r.
Proof using Type.
  intros Hne Ht [ks ? ? ? ? ? Hr ? | ks e ? ? ? ? ? Hr | ? ? ? ? Hf ? ? | e ? ? ? ?].
  - eapply wo_running; try done. by eapply (running_touched _ (Z.of_nat j)); [lia | lia | lia | done |].
  - eapply (wo_failed _ _ _ _ ks); try done. destruct Hr as [Hr |]; [left | by right]. by eapply (running_touched _ (Z.of_nat j)); [lia | lia | lia | done |].
  - apply wo_closed; try done. by eapply (flushed_out_touched g (Z.of_nat i) (Z.of_nat j)); [lia | lia | lia | done |].
  - by eapply wo_dead.
Qed.

(** What a step of goroutine [r] of writer [i] does. *)
Record stepped (i : nat) (ub : UnsortedBuilder) (u : unsortedBuffer) (r r' : goroutine) (b' : builder) (u' : unsortedBuffer) (w' : unsortedWriter) : Prop := {
  sp_core : same_core (ub_b ub) b';
  sp_touched : touched g (Z.of_nat i) u u';
  sp_writer : writer_ok i u' w' r';
  sp_left : g_done r' = true \/ (length (g_todo r') < length (g_todo r))%nat;
  sp_le : (length (g_todo r') <= length (g_todo r))%nat;
  sp_err : g_err r <> None -> g_err r' <> None;
  sp_flag : u_flushed u' = true -> u_flushed u = true \/ g_err r' <> None \/ (length (g_todo r') < length (inputs i))%nat
}.

Lemma goroutineStep_spec (i : nat) ub u w r : untouched totalKeys opts (ub_b ub) -> unsortedBuf ub = Some u -> ub_writers ub !! i = Some w ->
  writer_ok i u w r -> g_done r = false ->
  wps (goroutineStep (Z.of_nat i) r) ub
    (fun r' ub' => exists b' u' w', ub' = with_writer i (b', (u', w')) ub /\ stepped i ub u r r' b' u' w') (fun _ _ => False).
Proof using Hg Hok Hinput.
  intros Hunt Hu Hw Hwo Hd. unfold goroutineStep. rewrite Hd.
  assert (forall ks, running (Z.of_nat i) u w ks \/ stuck w -> uw_closed w = false -> g_todo r = [] ->
    (g_err r = None -> ks = inputs i /\ Forall valid ks /\ keysAdded w = u64 (len ks)) -> (forall e, g_err r = Some e -> failed_input i e) ->
    wps (c ← attempt (on_writer (Z.of_nat i) uw_close);
         match c, g_err r with inr e, None => mret (mk_gor [] (Some e) true) | _, _ => mret (mk_gor [] (g_err r) true) end) ub
      (fun r' ub' => exists b' u' w', ub' = with_writer i (b', (u', w')) ub /\ stepped i ub u r r' b' u' w') (fun _ _ => False)) as Hclose.
  { intros ks Hr Hc Ht Hnone Hsome. apply wps_bind, wps_attempt. apply (on_writer_spec _ ub u i w); [done | done |].
    eapply wps_mono; [apply (uw_close_spec (Z.of_nat i) (ub_b ub) u w ks); [lia | done | done] | |].
    - intros [] [b' [u' w']] (Hb & Htc & Hrun & Hfo & Hfl & Hka & Hcs). cbn [fst snd] in *. subst b'.
      assert (g_err r = None -> u_flushed u' = true -> u_flushed u = true \/ inputs i <> []) as Hflag.
      { intros Hn Hf. destruct (Hnone Hn) as (-> & _). destruct (inputs i) eqn:Hin; [left; by rewrite <- Hfl | by right]. }
      destruct (g_err r) as [e |] eqn:Her; apply wps_ret; exists (ub_b ub), u', w'; (split; [done |]); split; cbn; try done;
        try (apply same_core_refl); try (by left); try (rewrite Ht; cbn; lia).
      + apply (wo_dead _ _ _ _ e); try done; [by apply Hsome | apply Hfo].
      + intros _. right. by left.
      + destruct (Hnone eq_refl) as (-> & Hv & Hkw). apply wo_closed; try done. by rewrite Hka.
      + intros Hf. destruct (Hflag eq_refl Hf) as [? | Hin]; [by left |]. right. right. destruct (inputs i); [done | cbn; lia].
    - intros e [b' [u' w']] (-> & Hb & Htc & Hf). cbn [fst snd] in *. subst b'.
      destruct (g_err r) as [e |] eqn:Her; apply wps_ret; exists (ub_b ub), u', w'; (split; [done |]); split; cbn; try done;
        try (apply same_core_refl); try (by left); try (rewrite Ht; cbn; lia).
      + apply (wo_dead _ _ _ _ e); try done. by apply Hsome.
      + intros _. right. by left.
      + apply (wo_dead _ _ _ _ ErrOther); try done. right. right. left. right. by left.
      + intros _. right. by left. }
  destruct Hwo as [ks He _ Hc Hin Hv Hrun Hka | ks e He Hfi _ Ht Hc Hr | ? Hd' | ? ? ? Hd']; try congruence.
  - destruct (g_todo r) as [| kp rest] eqn:Ht.
    + apply (Hclose ks); try done; [by left | | by rewrite He]. intros _. rewrite app_nil_r in Hin. done.
    + assert (Forall is_byte kp.1) as Hbytes.
      { pose proof (Hinput (Z.of_nat i)) as H. unfold inputs in Hin. rewrite Hin in H. by apply Forall_app in H as [_ [[? _] _]%Forall_cons]. }
      apply wps_bind, wps_attempt. apply (on_writer_spec _ ub u i w); [done | done |].
      eapply wps_mono; [apply (uw_addKey_spec (Z.of_nat i) (ub_b ub) u w ks kp); try done; lia | |].
      * intros [] [b' [u' w']] (Hkp & Hb & Htc & Hrun' & Hka' & Hc'). cbn [fst snd] in *. apply wps_ret. exists b', u', w'. split; [done |].
        split; cbn; rewrite ?Ht; cbn; try done; [| right; lia | lia |].
        -- apply (wo_running _ _ _ _ (ks ++ [kp])); try done; cbn; [congruence | by rewrite <- app_assoc | apply Forall_app; split; [done | by constructor] |].
           rewrite Hka', Hka, len_app, len_single. unfold u64. by rewrite Zplus_mod_idemp_l.
        -- intros _. right. right. rewrite Hin, length_app. cbn. lia.
      * intros e [b' [u' w']] (He' & Hb & Htc & Hc' & Hr'). cbn [fst snd] in *. apply wps_ret. exists b', u', w'. split; [done |].
        split; cbn; rewrite ?Ht; cbn; try done; [| right; lia | lia |].
        -- apply (wo_failed _ _ _ _ ks e); try done; cbn; [| congruence]. destruct He' as [He' | He']; [left | by right]. by exists ks, kp, rest.
        -- intros _. right. by left.
  - rewrite Ht. apply (Hclose ks); try done; [by rewrite He |]. intros e' [= <-]%(eq_trans (eq_sym He)). done.
Qed.

(** All writers and their goroutines, whatever each has done so far. *)
Record conc (ub : UnsortedBuilder) (rs : list goroutine) : Prop := {
  cc_core : untouched totalKeys opts (ub_b ub);
  cc_open : b_closed (ub_b ub) = false;
  cc_count : totalKeysAdded (ub_b ub) = 0;
  cc_default : defaultWriterWS ub = None;
  cc_writers : len (ub_writers ub) = nw;
  cc_rs : length rs = length (ub_writers ub);
  cc_buf : exists u, unsortedBuf ub = Some u /\ shaped g u /\
    (forall i w r, ub_writers ub !! i = Some w -> rs !! i = Some r -> writer_ok i u w r) /\
    (u_flushed u = true -> exists i r, rs !! i = Some r /\ (g_err r <> None \/ (length (g_todo r) < length (inputs i))%nat))
}.

Lemma conc_stepped i ub u w r r' b' u' w' rs : conc ub rs -> unsortedBuf ub = Some u -> ub_writers ub !! i = Some w -> rs !! i = Some r ->
  stepped i ub u r r' b' u' w' -> conc (with_writer i (b', (u', w')) ub) (<[i := r']> rs).
Proof using Type.
  intros [Hcore Hopen Hcnt Hdef Hlen Hrs (u0 & Hu0 & Hsh & Hall & Hflag)] Hu Hw Hr [(Htb & Hbo & Hbn) Ht Hwo _ Hle Herr Hfl].
  rewrite Hu in Hu0. injection Hu0 as <-.
  split; unfold with_writer; cbn [ub_b ub_writers unsortedBuf defaultWriterWS set_writers set_buf set_core fst snd].
  - by eapply touch_untouched.
  - by rewrite Hbo.
  - by rewrite Hbn.
  - done.
  - by rewrite len_insert.
  - by rewrite !length_insert.
  - exists u'. split; [done |]. split; [by apply Ht |]. split.
    + intros j w1 r1 Hj Hr1. destruct (decide (i = j)) as [<- | Hne].
      * rewrite list_lookup_insert_eq in Hj by (by eapply lookup_lt_Some). rewrite list_lookup_insert_eq in Hr1 by (by eapply lookup_lt_Some).
        by injection Hj as <-; injection Hr1 as <-.
      * rewrite list_lookup_insert_ne in Hj by done. rewrite list_lookup_insert_ne in Hr1 by done. eapply (writer_ok_touched j i); [done | done |]. by apply Hall.
    + intros Hf. destruct (Hfl Hf) as [Hf0 | Hnew].
      * destruct (Hflag Hf0) as (j & r1 & Hj & Hr1). destruct (decide (i = j)) as [<- | Hne].
        -- exists i, r'. rewrite list_lookup_insert_eq by (by eapply lookup_lt_Some). split; [done |]. rewrite Hr in Hj. injection Hj as <-.
           destruct Hr1 as [Hr1 | Hr1]; [left; by apply Herr | right; lia].
        -- exists j, r1. by rewrite list_lookup_insert_ne.
      * exists i, r'. by rewrite list_lookup_insert_eq by (by eapply lookup_lt_Some).
Qed.

(** How far each goroutine is after the steps [pre] of the schedule. *)
Definition counted_steps (pre : list nat) (rs : list goroutine) : Prop :=
  forall i r, rs !! i = Some r -> g_done r = true \/ (count_occ Nat.eq_dec pre i + length (g_todo r) <= length (inputs i))%nat.

Lemma scheduleStep_spec pre i ub rs : conc ub rs -> counted_steps pre rs ->
  wps (scheduleStep rs i) ub (fun rs' ub' => conc ub' rs' /\ counted_steps (pre ++ [i]) rs') (fun _ _ => False).
Proof using Hg Hok Hinput.
  intros Hc Hp. unfold scheduleStep. assert (forall j, j <> i -> count_occ Nat.eq_dec (pre ++ [i]) j = count_occ Nat.eq_dec pre j) as Hcount.
  { intros j Hne. rewrite count_occ_app. cbn. destruct (Nat.eq_dec i j); [congruence | lia]. }
  destruct (rs !! i) as [r |] eqn:Hr; cycle 1.
  { apply wps_ret. split; [done |]. intros j r Hj. rewrite Hcount by congruence. by apply Hp. }
  destruct (cc_buf _ _ Hc) as (u & Hu & Hsh & Hall & _).
  destruct (lookup_lt_is_Some_2 (ub_writers ub) i) as [w Hw]; [rewrite <- (cc_rs _ _ Hc); by eapply lookup_lt_Some |].
  apply wps_bind. destruct (g_done r) eqn:Hd.
  - unfold goroutineStep. rewrite Hd. apply wps_ret, wps_ret. rewrite list_insert_id by done. split; [done |].
    intros j r1 Hj. destruct (decide (j = i)) as [-> | Hne]; [left; congruence |]. rewrite Hcount by done. by apply Hp.
  - eapply wps_mono; [apply (goroutineStep_spec i ub u w r); try done; [apply Hc | by apply Hall] | | done].
    intros r' ub' (b' & u' & w' & -> & Hst). apply wps_ret. split; [by apply (conc_stepped i ub u w r) |].
    intros j r1 Hj. destruct (decide (i = j)) as [<- | Hne].
    + rewrite list_lookup_insert_eq in Hj by (by eapply lookup_lt_Some). injection Hj as <-.
      destruct (Hp i r Hr) as [? | Hle]; [congruence |]. destruct (sp_left _ _ _ _ _ _ _ _ Hst) as [? | Hlt]; [by left | right].
      rewrite count_occ_app. cbn. destruct (Nat.eq_dec i i); [lia | done].
    + rewrite list_lookup_insert_ne in Hj by done. rewrite Hcount by done. by apply Hp.
Qed.

(** The goroutines at their end. *)
Definition fresh_goroutines : list goroutine := map (fun i => mk_gor (input i) None false) (range nw).

Lemma fresh_lookup i r : fresh_goroutines !! i = Some r -> r = mk_gor (inputs i) None false.
Proof using Type.
  unfold fresh_goroutines. change (map ?f ?l) with (f <$> l). intros (k & -> & Hk)%list_lookup_fmap_Some. apply lookup_seqZ in Hk as [-> _]. done.
Qed.

(** The schedule ends with enough steps of every goroutine. *)
Lemma schedule_complete i r : fresh_goroutines !! i = Some r ->
  (length (inputs i) < count_occ Nat.eq_dec (schedule ++ concat (imap (fun i r => replicate (S (S (length (g_todo r)))) i) fresh_goroutines)) i)%nat.
Proof using Type.
  intros Hr. pose proof (fresh_lookup i r Hr) as Heq.
  assert (imap (fun i r => replicate (S (S (length (g_todo r)))) i) fresh_goroutines !! i = Some (replicate (S (S (length (inputs i)))) i)) as Hl.
  { rewrite list_lookup_imap, Hr, Heq. done. }
  rewrite <- (take_drop_middle _ _ _ Hl), concat_app. cbn [concat]. rewrite !count_occ_app.
  assert (forall n, count_occ Nat.eq_dec (replicate n i) i = n) as ->.
  { induction n as [| n IH]; [done |]. cbn [replicate]. by rewrite count_occ_cons_eq, IH. }
  lia.
Qed.

Lemma runWriters_spec ub : conc ub fresh_goroutines ->
  wps (runWriters fresh_goroutines) ub (fun rs ub' => conc ub' rs /\ Forall (fun r => g_done r = true) rs) (fun _ _ => False).
Proof using Hnw Hg Hok Hinput.
  intros Hc. unfold runWriters. set (l := schedule ++ _).
  eapply wps_mono; [apply (wps_foldS (fun pre rs ub => conc ub rs /\ counted_steps pre rs) (fun _ _ => False)) | | done].
  - split; [done |]. intros i r Hr. right. rewrite (fresh_lookup i r Hr). done.
  - intros pre i post rs ub1 _ [Hc1 Hp]. by apply scheduleStep_spec.
  - intros rs ub1 [Hc1 Hp]. split; [done |]. apply Forall_lookup. intros i r Hr. destruct (Hp i r Hr) as [? | Hle]; [done |].
    assert (i < length fresh_goroutines)%nat as Hi.
    { apply lookup_lt_Some in Hr. rewrite (cc_rs _ _ Hc1) in Hr. unfold fresh_goroutines. rewrite length_map, length_range. pose proof (cc_writers _ _ Hc1) as H. unfold len in H. lia. }
    destruct (lookup_lt_is_Some_2 _ _ Hi) as [r0 Hr0]. pose proof (schedule_complete i r0 Hr0). fold l in H. lia.
Qed.

(** ** Finishing *)
Context {HP : PipeLaws} (Hlim : limits_ok (algorithm cfg) totalKeys) (Htyped : config_typed cfg).

(** All the keys, writer after writer. *)
Definition all_keys : list (list Z * Z) := concat (map input (range nw)).

Lemma inputs_in i : Z.of_nat i < nw -> exists a b, all_keys = a ++ inputs i ++ b.
Proof using Type.
  intros Hi. assert (map input (range nw) !! i = Some (inputs i)) as Hl.
  { change (map ?f ?l) with (f <$> l). rewrite list_lookup_fmap. unfold range. by rewrite lookup_seqZ_lt by lia. }
  exists (concat (take i (map input (range nw)))), (concat (drop (S i) (map input (range nw)))). unfold all_keys.
  rewrite <- (take_drop_middle _ _ _ Hl) at 1. by rewrite concat_app.
Qed.

(** Every writer is closed, its keys are in its file. *)
Record all_closed (ub : UnsortedBuilder) (u : unsortedBuffer) : Prop := {
  al_buf : unsortedBuf ub = Some u;
  al_shaped : shaped g u;
  al_default : defaultWriterWS ub = None;
  al_len : len (ub_writers ub) = nw;
  al_writer : forall i w, ub_writers ub !! i = Some w -> flushed_out g (Z.of_nat i) (u, uw_ws w) (map buffered (inputs i)) /\
    keysAdded w = u64 (len (inputs i)) /\ (cursorSets (uw_ws w)).1 = [] /\ Forall valid (inputs i);
  al_flag : u_flushed u = true -> all_keys <> []
}.

Lemma conc_closed ub rs : conc ub rs -> Forall (fun r => g_done r = true) rs -> joined rs = None -> exists u, all_closed ub u.
Proof using Type.
  intros [Hcore Hopen Hcnt Hdef Hlen Hrs (u & Hu & Hsh & Hall & Hflag)] Hdone Hj. exists u.
  assert (forall i r, rs !! i = Some r -> g_err r = None) as Herr.
  { unfold joined in Hj. clear -Hj. induction rs as [| r0 rs IH]; intros i r Hi; [done |]. cbn in Hj. destruct (g_err r0) eqn:H0; [done |].
    destruct i as [| i]; [by injection Hi as <- | by eapply IH]. }
  assert (forall i w, ub_writers ub !! i = Some w -> exists r, rs !! i = Some r /\ writer_ok i u w r) as Hwr.
  { intros i w Hw. destruct (lookup_lt_is_Some_2 rs i) as [r Hr]; [rewrite Hrs; by eapply lookup_lt_Some |]. exists r. split; [done | by apply Hall]. }
  split; try done.
  - intros i w Hw. destruct (Hwr i w Hw) as (r & Hr & Hok'). pose proof (Herr i r Hr) as He. pose proof (Forall_lookup_1 _ _ _ _ Hdone Hr) as Hd. cbn beta in Hd.
    destruct Hok' as [? ? Hd' | ? ? He' | _ _ _ Hv Hf Hk Hc | ? He']; try congruence. done.
  - intros Hf. destruct (Hflag Hf) as (i & r & Hr & [He | Hlt]); [by rewrite (Herr i r Hr) in He |]. intros Hnil.
    destruct (inputs_in i) as (a & b & Hab); [apply lookup_lt_Some in Hr; unfold len in Hlen; lia |]. rewrite Hnil in Hab.
    destruct a; [| done]. destruct (inputs i); [cbn in Hlt; lia | done].
Qed.

(** The first error is that of some writer. *)
Lemma conc_failed ub rs e : conc ub rs -> joined rs = Some e -> drainable g ub /\ exists i, Z.of_nat i < nw /\ failed_input i e.
Proof using Type.
  intros [Hcore Hopen Hcnt Hdef Hlen Hrs (u & Hu & Hsh & Hall & Hflag)] Hj.
  assert (forall i w, ub_writers ub !! i = Some w -> exists r, rs !! i = Some r /\ writer_ok i u w r) as Hwr.
  { intros i w Hw. destruct (lookup_lt_is_Some_2 rs i) as [r Hr]; [rewrite Hrs; by eapply lookup_lt_Some |]. exists r. split; [done | by apply Hall]. }
  split.
  - split; [intros ? ? _ Hd; by rewrite Hdef in Hd |]. intros u1 i w Hu1 Hw. rewrite Hu in Hu1. injection Hu1 as <-.
    destruct (Hwr i w Hw) as (r & _ & [ks ? ? ? ? ? Hr ? | ks ? ? ? ? ? ? [Hr | Hr] | ? ? ? ? Hf ? ? | ? ? ? ? Hf]).
    1, 2: destruct Hr as (W & F & A & Hr & _); right; by exists W, F, A.
    all: left; by apply Hr || by apply Hf || done.
  - assert (exists i r, rs !! i = Some r /\ g_err r = Some e) as (i & r & Hr & He).
    { unfold joined in Hj. clear -Hj. induction rs as [| r0 rs IH]; [done |]. cbn in Hj. destruct (g_err r0) as [e0 |] eqn:H0.
      - injection Hj as ->. by exists 0%nat, r0.
      - destruct (IH Hj) as (i & r & Hi & He). by exists (S i), r. }
    destruct (lookup_lt_is_Some_2 (ub_writers ub) i) as [w Hw]; [rewrite <- Hrs; by eapply lookup_lt_Some |].
    exists i. split; [apply lookup_lt_Some in Hw; unfold len in Hlen; lia |].
    destruct (Hall i w r Hw Hr) as [? ? | ? ? He' | ? | ? He']; congruence.
Qed.

(** The entries in the files, writer after writer. *)
Definition on_files : list (list bufferedEntry) := map (fun i => map buffered (input i)) (range nw).

Lemma on_files_lookup i es : on_files !! i = Some es -> es = map buffered (inputs i) /\ Z.of_nat i < nw.
Proof using Type.
  unfold on_files. change (map ?f (range nw)) with (f <$> range nw). intros (k & -> & Hk)%list_lookup_fmap_Some. apply lookup_seqZ in Hk as [-> Hk]. split; [done | lia].
Qed.

Lemma len_on_files : len on_files = nw.
Proof using Hnw. unfold on_files, len. rewrite length_map, length_range. lia. Qed.

Lemma concat_on_files : concat on_files = map buffered all_keys.
Proof using Type. unfold on_files, all_keys. by rewrite concat_map, map_map. Qed.

Lemma closed_lookup ub u i : all_closed ub u -> 0 <= i < nw -> exists w, ub_writers ub !! Z.to_nat i = Some w.
Proof using Type. intros Hc Hi. apply lookup_lt_is_Some_2. pose proof (al_len _ _ Hc) as H. unfold len in H. lia. Qed.

Lemma len_all_keys ub u : all_closed ub u ->
  foldl (fun n w => u64 (n + keysAdded w)) 0 (ub_writers ub) = u64 (len all_keys).
Proof using Hnw.
  intros Hc. assert (forall n, 0 <= n <= nw -> foldl (fun n w => u64 (n + keysAdded w)) 0 (take (Z.to_nat n) (ub_writers ub)) = u64 (len (concat (map input (range n))))) as H.
  2:{ specialize (H nw ltac:(lia)). rewrite take_ge in H by (pose proof (al_len _ _ Hc) as Hl; unfold len in Hl; lia). exact H. }
  intros n Hn. destruct Hn as [H0 Hn]. revert Hn. pattern n. apply natlike_ind; [done | | done]. clear n H0. intros n H0 IH Hn.
  specialize (IH ltac:(lia)). destruct (closed_lookup ub u n Hc ltac:(lia)) as [w Hw]. destruct (al_writer _ _ Hc _ _ Hw) as (_ & Hk & _).
  unfold Z.succ. rewrite range_succ, map_app, concat_app by done. cbn [map concat]. rewrite app_nil_r, len_app.
  replace (Z.to_nat (n + 1)) with (S (Z.to_nat n)) by lia. rewrite (take_S_r _ _ _ Hw), foldl_snoc, IH, Hk.
  unfold inputs. rewrite Z2Nat.id by done. unfold u64. by rewrite <- Zplus_mod.
Qed.

Lemma closed_given ub u : all_closed ub u -> Forall (given_ok totalKeys opts) all_keys.
Proof using Hinput.
  intros Hc. unfold all_keys. apply Forall_concat, Forall_fmap, Forall_forall. intros i Hi%elem_of_range. cbn.
  destruct (closed_lookup ub u i Hc Hi) as [w Hw]. destruct (al_writer _ _ Hc _ _ Hw) as (_ & _ & _ & Hv). unfold inputs in Hv. rewrite Z2Nat.id in Hv by lia.
  apply Forall_forall. intros kp Hin. pose proof (proj1 (Forall_forall _ _) (Hinput i) kp Hin) as []. split; [done | split; [done |]]. by apply (proj1 (Forall_forall _ _) Hv).
Qed.

Lemma closed_idle ub u : all_closed ub u -> idle ub.
Proof using Type.
  intros Hc. split; [intros ws Hd; by rewrite (al_default _ _ Hc) in Hd |]. intros i w Hw. apply (al_writer _ _ Hc _ _ Hw).
Qed.

Lemma closed_disks ub u : all_closed ub u -> Forall entry_ok (map buffered all_keys) -> on_disks g on_files u.
Proof using Hnw.
  intros Hc He. split; [apply Hc | rewrite len_on_files; cbn; lia |]. intros i es Hi. destruct (on_files_lookup i es Hi) as [-> Hlt].
  destruct (closed_lookup ub u (Z.of_nat i) Hc ltac:(lia)) as [w Hw]. rewrite Nat2Z.id in Hw. destruct (al_writer _ _ Hc _ _ Hw) as (Hf & _).
  split; [exact (stored_on_disk g _ _ _ (fl_stored _ _ _ _ Hf)) |].
  destruct (inputs_in i Hlt) as (a & b & Hab). rewrite Hab, !map_app in He. by apply Forall_app in He as [_ [He _]%Forall_app].
Qed.

Lemma closed_counting ub u : all_closed ub u -> Forall2 (counted g) (counting ub) on_files.
Proof using Hnw Hg.
  intros Hc. unfold counting. rewrite (al_default _ _ Hc). cbn [app].
  assert (forall i w, ub_writers ub !! i = Some w -> counted g (uw_ws w) (map buffered (inputs i))) as Hcnt.
  { intros i w Hw. destruct (al_writer _ _ Hc _ _ Hw) as (Hf & _). exact (st_counts _ _ _ _ (fl_stored _ _ _ _ Hf)). }
  assert (filter (fun w => is_nil (blockCounts (uw_ws w)) = false) (ub_writers ub) = ub_writers ub) as ->.
  { assert (Forall (fun w => is_nil (blockCounts (uw_ws w)) = false) (ub_writers ub)) as Hn.
    { apply Forall_lookup. intros i w Hw. destruct (Hcnt i w Hw) as [Hl _]. pose proof (go_parts _ Hg). destruct (blockCounts (uw_ws w)); [change (len (@nil (list Z))) with 0 in Hl; lia | done]. }
    clear -Hn. induction Hn as [| w ws Hw _ IH]; [done |]. rewrite filter_cons_True by done. by rewrite IH. }
  apply Forall2_same_length_lookup_2.
  { pose proof len_on_files as H1. pose proof (al_len _ _ Hc) as H2. unfold len in *. rewrite length_map. lia. }
  intros i ws es Hws Hes. change (map ?f ?l) with (f <$> l) in Hws. apply list_lookup_fmap_Some in Hws as (w & -> & Hw).
  destruct (on_files_lookup i es Hes) as [-> _]. by apply Hcnt.
Qed.

#[local] Abbreviation gone := (fun (e : error) ub => unsorted_error e /\ cleaned ub).

(** [Finish] after all writers are closed. *)
Lemma closed_finish_spec ub u : all_closed ub u -> untouched totalKeys opts (ub_b ub) -> b_closed (ub_b ub) = true ->
  small_blocks c (map (key_of c) all_keys) -> len all_keys = totalKeys ->
  wps finishUnsorted ub (fun _ ub' => indexed totalKeys opts all_keys (file (b_iw (ub_b ub'))) /\ b_closed (ub_b ub') = true) gone.
Proof using HL HP Hnw Hg Hok Hinput Hlim Htyped.
  intros Hc [Hp Hcore] Hcl Hsmall Hlen. pose proof (closed_given _ _ Hc) as Hgiven. pose proof (closed_idle _ _ Hc) as Hid.
  assert (Forall entry_ok (map buffered all_keys)) as Hents by (apply Forall_fmap; eapply Forall_impl; [exact Hgiven |]; apply buffered_ok).
  unfold finishUnsorted. apply wps_bind, wps_gets. cbn [id]. rewrite (al_buf _ _ Hc), (al_default _ _ Hc).
  destruct (u_flushed u) eqn:Hf; cbn [negb]; cycle 1.
  - assert (forall i, 0 <= i < nw -> input i = []) as Hnone.
    { intros i Hi. destruct (closed_lookup _ _ i Hc Hi) as [w Hw]. destruct (al_writer _ _ Hc _ _ Hw) as (Hfo & _).
      pose proof (fl_untouched _ _ _ _ Hfo Hf) as Hnil. unfold inputs in Hnil. rewrite Z2Nat.id in Hnil by lia. by destruct (input i). }
    assert (all_keys = []) as Hall.
    { unfold all_keys. assert (Forall (fun l => l = []) (map input (range nw))) as H by (apply Forall_fmap, Forall_forall; intros i Hi%elem_of_range; by apply Hnone).
      clear -H. induction H as [| l ls -> _ IH]; [done | exact IH]. }
    rewrite Hall in *. assert (at_block g totalKeys opts [] raw_of true (1 <? b_workers (ub_b ub)) ub u 0) as Hab by (split; try done; apply Hc).
    eapply wps_mono; [apply (finishUnsortedFastPath_spec g Hg totalKeys opts Hok eq_refl [] ltac:(done) ltac:(done) Hlim Htyped Hlen _ _ ub u Hab); [apply Hc |] | | done].
    + unfold collected. rewrite (al_default _ _ Hc). cbn [app].
      assert (filter (fun w => is_nil (cursorSets (uw_ws w)).1 = false) (ub_writers ub) = []) as ->; [| done].
      assert (Forall (fun w => (cursorSets (uw_ws w)).1 = []) (ub_writers ub)) as Hn by (apply Forall_lookup; intros i w Hw; apply (al_writer _ _ Hc _ _ Hw)).
      clear -Hn. induction Hn as [| w ws Hw _ IH]; [done |]. rewrite filter_cons_False by (by rewrite Hw). exact IH.
    + intros [] ub' [Hr Hc']. split; [| done]. exists (keys_to g totalKeys opts [] raw_of (g_blocks g)), id. split; [done |]. split; [by left |].
      by rewrite (keys_to_permutation g Hg totalKeys opts [] raw_of).
  - apply wps_bind, wps_ret.
    assert (at_block g totalKeys opts (concat on_files) (routed_of (payloadSize (g_cfg g))) true (1 <? b_workers (ub_b ub)) ub u 0) as Hab
      by (split; try done; apply Hc).
    pose proof (closed_disks _ _ Hc Hents) as Hdisk. rewrite <- concat_on_files in Hents.
    assert (forall j, len (in_block g j (concat on_files)) < 2 ^ 32) as Hfew.
    { intros j. rewrite concat_on_files. change (in_block g j) with (in_block (one_writer totalKeys opts) j). rewrite in_block_keys. apply Hsmall. }
    assert (len (concat on_files) = totalKeys) as Hn by (rewrite concat_on_files; unfold len in *; by rewrite length_map).
    eapply wps_mono; [apply (finishFlushed_spec g Hg totalKeys opts Hok eq_refl eq_refl on_files Hents Hfew Hlim Htyped Hn _ _ ub u Hab Hdisk (closed_counting _ _ Hc)) | | done].
    + rewrite concat_on_files. intros Hnil. apply (al_flag _ _ Hc Hf). by destruct all_keys.
    + intros [] ub' [Hr Hc']. split; [| done]. eexists _, (cut totalKeys opts). split; [exact Hr |]. split; [by right |].
      rewrite (keys_to_permutation g Hg totalKeys opts), concat_on_files, map_map. done.
Qed.

Lemma closed_UB_Finish_spec ub u : all_closed ub u -> untouched totalKeys opts (ub_b ub) -> b_closed (ub_b ub) = false -> totalKeysAdded (ub_b ub) = 0 ->
  small_blocks c (map (key_of c) all_keys) -> len all_keys < 2 ^ 64 ->
  wps UB_Finish ub
    (fun _ ub' => (len all_keys = totalKeys /\ Forall valid all_keys /\ indexed totalKeys opts all_keys (file (b_iw (ub_b ub')))) /\ b_closed (ub_b ub') = true)
    (fun e ub' => finish_failed totalKeys all_keys e /\ cleaned ub').
Proof using HL HP Hnw Hg Hok Hinput Hlim Htyped.
  intros Hc Hunt Hop Hcnt Hsmall Hmax. pose proof (len_nonneg all_keys) as Hk0. unfold UB_Finish. apply wps_bind, wps_gets. cbn [id]. rewrite Hop.
  apply wps_bind. unfold on_core at 1. apply wps_zoom, wps_modify. set (ub1 := set_core _ ub). cbn zeta.
  pose proof (touch_untouched totalKeys opts (ub_b ub) (ub_b ub1) ltac:(by eexists _, _, _, _) Hunt) as Hunt1.
  assert (all_closed ub1 u) as Hc1 by (destruct Hc; by split).
  rewrite Hcnt, (len_all_keys _ _ Hc), u64_id by (unfold is_u; lia).
  rewrite (pg_cfg _ _ _ _ _ (proj1 Hunt)). change (Options.totalKeys cfg) with totalKeys.
  destruct (Z.eqb_spec (len all_keys) totalKeys) as [Hn | Hne]; cbn [negb]; cycle 1.
  { eapply wps_mono; [apply (orCleanupAll_spec g Hg _ _ (fun _ _ => False) (fun e => e = ErrKeyCountMismatch)) | by intros |].
    - apply wps_fail. split; [done |]. by eapply idle_drainable, closed_idle.
    - intros e ub' [-> Hr]. split; [by left | done]. }
  rewrite (al_buf _ _ Hc). eapply wps_mono; [by apply (closed_finish_spec ub1 u) | |].
  - intros [] ub' [Hr Hcl]. split; [| done]. split; [done |]. split; [| done].
    eapply Forall_impl; [exact (closed_given _ _ Hc) |]. by intros kp (_ & _ & Hv).
  - intros e ub' [He Hr]. split; [by apply error_reported | done].
Qed.
End writers.
