(* ===== verification/UnsortedAddKeys.v ===== *)
(** * [AddKeys]: the whole build with several writers *)
From Stdlib Require Import String.
From S2P Require Import Prelude Words Bits Encoding Key Floats Entries Header Algorithm Block Index Image IndexQuery File Options Writer WriterSpec Builder BuilderSpec SortedBuild Pipeline PipelineLive PipelineSafe ParallelBuild UnsortedBuffer UnsortedWrite UnsortedRead UnsortedReadSpec UnsortedMerge UnsortedBuilder UnsortedBlocks UnsortedFinish UnsortedPartitions UnsortedFast UnsortedParallel UnsortedBuild UnsortedCorrect UnsortedConcurrent.
#[local] Open Scope Z_scope.

Section addkeys.
Context `{HX : !XXHash} {HL : XXHashLaws} `{HO : !OS} `{HT : !Temp} `{HS : !Sched} `{HE : !Env}.
Context (totalKeys : Z) (opts : list BuildOption) (nw : Z) (Hnw : 1 <= nw).

#[local] Abbreviation cfg := (final_config totalKeys opts).
#[local] Abbreviation c := (block_config cfg).
#[local] Abbreviation g := (several_writers totalKeys opts nw).

Context (Hg : geometry_ok g) (Hok : build_ok cfg c).

(** ** Making the writers *)
Lemma winv_next w u ws W F A n : winv g w (u, ws) W F A -> winv g w (set_nextWriterID n u, ws) W F A.
Proof using Type. intros []. split; try done; [by destruct wi_shaped | by destruct wi_stored]. Qed.

(** The first [n] writers are made. *)
Record made (b : builder) (n : Z) (ub : UnsortedBuilder) : Prop := {
  md_core : ub_b ub = b;
  md_default : defaultWriterWS ub = None;
  md_len : len (ub_writers ub) = n;
  md_buf : exists u, unsortedBuf ub = Some u /\ shaped g u /\ nextWriterID u = n /\ u_flushed u = false /\
    (forall w, n <= w < nw -> unused g w u) /\
    (forall i w, ub_writers ub !! i = Some w -> winv g (Z.of_nat i) (u, uw_ws w) [] [] [] /\ keysAdded w = 0 /\ uw_closed w = false)
}.

Lemma initBuffer_several_spec ub : initialized ub = false -> untouched totalKeys opts (ub_b ub) -> defaultWriterWS ub = None -> ub_writers ub = [] ->
  wps (initBuffer nw false) ub (fun _ ub' => made (ub_b ub) 0 ub') (fun e ub' => e = ErrOther /\ ub' = ub).
Proof using Hnw Hg.
  intros Hin [Hp _] Hd Hwr. unfold initBuffer. apply wps_bind, wps_gets. cbn [id]. rewrite Hin.
  rewrite (pg_cfg _ _ _ _ _ Hp), (pg_num _ _ _ _ _ Hp).
  apply wps_bind, wps_lift. eapply wp_mono; [exact (newUnsortedBuffer_spec cfg (c_numBlocks c) nw Hg) | | done].
  intros u (Hs & Hun & Hnext & Hfl). change (layout_geometry cfg (c_numBlocks c) nw) with g in *.
  assert (g_writers g = nw) as Hw by (cbn; lia).
  apply wps_bind, wps_modify, wps_bind, wps_ret, wps_modify. split; cbn; try done; [by rewrite Hwr |].
  exists u. do 4 (split; [done |]). split; [intros w Hlt; apply Hun; lia |]. intros i w Hi. by rewrite Hwr in Hi.
Qed.

Lemma make_writers_spec b ub : made b 0 ub ->
  wps (forM (fun _ =>
    r ← attempt (on_buf newWriterState);
    match r with
    | inl ws => modify (fun ub => set_writers (ub_writers ub ++ [mk_uw ws 0 0 false]) ub)
    | inr e => _ ← attempt UB_Close; fail e
    end) (range nw)) ub (fun _ ub' => made b nw ub') (fun _ _ => False).
Proof using Hnw Hg.
  intros Hm. assert (g_writers g = nw) as Hgw by (cbn; lia).
  eapply wps_mono; [apply (wps_forM (fun pre ub => made b (len pre) ub) (fun _ _ => False)); [exact Hm |] | | done].
  - intros pre i post ub1 Heq [Hcore Hd Hl (u & Hu & Hs & Hnext & Hfl & Hun & Hall)]. apply range_prefix in Heq as [-> Hi].
    apply wps_bind, wps_attempt. apply (on_buf_spec _ ub1 u); [done |].
    eapply wps_mono; [apply (newWriterState_spec g Hg u Hs); [rewrite Hnext; apply Hun; lia | lia | done] | | by intros].
    intros ws u' [-> Hinv]. rewrite Hnext in Hinv |- *. apply wps_modify. rewrite len_app, len_single.
    split; cbn; try done; [by rewrite len_app, len_single, Hl |]. eexists. split; [reflexivity |]. split; [by destruct Hs |]. do 2 (split; [done |]).
    split; [intros w Hw; apply Hun; lia |]. intros j w Hj. apply lookup_app_Some in Hj as [Hj | [Hge Hj]].
    + destruct (Hall j w Hj) as (Hw & Hk & Hc). split; [by apply winv_next | done].
    + destruct (j - length (ub_writers ub1))%nat as [| k] eqn:Hk; [| done]. injection Hj as <-. split; [| done].
      cbn [uw_ws]. replace (Z.of_nat j) with (len pre) by (unfold len in *; lia). exact Hinv.
  - intros [] ub1 H. unfold len in H. by rewrite length_range, Z2Nat.id in H by lia.
Qed.

Context (input : Z -> list (list Z * Z)).

Lemma made_conc b ub : made b nw ub -> untouched totalKeys opts b -> b_closed b = false -> totalKeysAdded b = 0 ->
  conc totalKeys opts nw input ub (fresh_goroutines nw input).
Proof using Hnw.
  intros [<- Hd Hl (u & Hu & Hs & Hnext & Hfl & _ & Hall)] Hb Hc Hk. split; try done.
  - unfold fresh_goroutines. rewrite length_map, length_range. unfold len in Hl. lia.
  - exists u. split; [done |]. split; [done |]. split; [| by rewrite Hfl]. intros i w r Hw Hr. rewrite (fresh_lookup nw input i r Hr).
    destruct (Hall i w Hw) as (Hinv & Hka & Hcl). apply (wo_running _ _ _ _ _ _ _ _ []); try done. by exists [], [], [].
Qed.

Context (Hinput : forall i, Forall (fun kp => Forall is_byte kp.1 /\ is_u 64 kp.2) (input i)).
Context {HP : PipeLaws} (Hlim : limits_ok (algorithm cfg) totalKeys) (Htyped : config_typed cfg).

#[local] Abbreviation all_keys := (all_keys nw input).

(** Why [AddKeys] can fail: a key of some writer was refused, or [Finish] failed. *)
Variant addkeys_failed : error -> Prop :=
  | addkeys_key i pre kp post e : 0 <= i < nw -> input i = pre ++ kp :: post -> Forall (valid totalKeys opts) pre -> bad_key totalKeys opts kp e -> addkeys_failed e
  | addkeys_finish e : finish_failed totalKeys all_keys e -> addkeys_failed e.

Lemma close_failed ub e (Q : unit -> UnsortedBuilder -> Prop) : drainable g ub -> b_closed (ub_b ub) = false -> addkeys_failed e ->
  wps (_ ← attempt UB_Close; fail e) ub Q (fun e ub' => addkeys_failed e /\ ((drainable g ub' /\ b_closed (ub_b ub') = false) \/ cleaned ub')).
Proof using Hg.
  intros Hd Hc He. apply wps_bind, wps_attempt. eapply wps_mono; [by apply (unsorted_close_spec g Hg) | |]; rewrite Hc.
  - intros [] ub' Hr. apply wps_fail. split; [done | by right].
  - intros e' ub' [_ Hr]. apply wps_fail. split; [done | by right].
Qed.

Lemma UB_AddKeys_spec b : untouched totalKeys opts b -> b_closed b = false -> totalKeysAdded b = 0 ->
  small_blocks c (map (key_of c) all_keys) -> len all_keys < 2 ^ 64 ->
  wps (UB_AddKeys nw input) (new_unsorted b)
    (fun _ ub' => (len all_keys = totalKeys /\ Forall (valid totalKeys opts) all_keys /\ indexed totalKeys opts all_keys (file (b_iw (ub_b ub')))) /\ b_closed (ub_b ub') = true)
    (fun e ub' => addkeys_failed e /\ ((drainable g ub' /\ b_closed (ub_b ub') = false) \/ cleaned ub')).
Proof using HL HP Hnw Hg Hok Hinput Hlim Htyped.
  intros Hb Hc Hk Hsmall Hmax. unfold UB_AddKeys. apply wps_bind, wps_gets. cbn [id new_unsorted ub_b addKeyUsed]. rewrite Hc.
  apply wps_bind, wps_modify. destruct (Z.ltb_spec nw 1); [lia |]. set (ub1 := set_modes _ _ _ _).
  apply wps_bind, wps_attempt. eapply wps_mono; [by apply (initBuffer_several_spec ub1) | |].
  2:{ intros e ub' [-> ->]. apply wps_bind, wps_attempt. unfold on_core. apply wps_zoom.
      eapply wps_mono; [apply (wps_keeps b_closed); [apply cleanup_keeps_closed | apply cleanup_spec] | |].
      all: intros x b' [_ Hcl]; apply wps_fail; split; [apply addkeys_finish; right; by left | left; split; [by apply empty_drainable | by rewrite <- Hc]]. }
  intros [] ub2 Hm. apply wps_bind. eapply wps_mono; [exact (make_writers_spec b ub2 Hm) | | done]. intros [] ub3 Hm3.
  pose proof (made_conc b ub3 Hm3 Hb Hc Hk) as Hconc. apply wps_bind. fold (fresh_goroutines nw input).
  eapply wps_mono; [by apply (runWriters_spec totalKeys opts nw Hnw Hg Hok input Hinput ub3) | | done]. intros rs ub4 [Hc4 Hdone].
  destruct (joined rs) as [e |] eqn:Hj.
  - destruct (conc_failed _ _ _ _ _ _ _ Hc4 Hj) as (Hd & i & Hi & [(pre & kp & post & Hin & Hv & Hbad) | He]);
      (apply close_failed; [exact Hd | apply Hc4 |]).
    + apply (addkeys_key (Z.of_nat i) pre kp post); [lia | done ..].
    + by apply addkeys_finish, error_reported.
  - destruct (conc_closed _ _ _ _ _ _ Hc4 Hdone Hj) as [u Hcl].
    eapply wps_mono; [apply (closed_UB_Finish_spec totalKeys opts nw Hnw Hg Hok input Hinput Hlim Htyped ub4 u Hcl); [apply Hc4 | apply Hc4 | apply Hc4 | done | done] | done |].
    intros e ub' [He Hr]. split; [by apply addkeys_finish | by right].
Qed.
End addkeys.

(** ** The theorem *)
Definition concurrent_build `{HX : !XXHash} `{HO : !OS} `{HT : !Temp} `{HS : !Sched} `{HE : !Env} (totalKeys : Z) (tempDir : string)
    (opts : list BuildOption) (numWriters : Z) (input : Z -> list (list Z * Z)) : stM osfile unit :=
  ub ← NewUnsortedBuilder totalKeys tempDir opts;
  with_unsorted (unsorted_then_close (UB_AddKeys numWriters input)) ub.

(** C1: building an index with several writers that add keys at the same time.
    Whatever the order in which the writers take their steps, whatever the number
    of workers, the system and the pipeline do, when the build reports no error
    every key of every writer was valid, together they are as many as announced,
    and the file is an index that verifies and answers for all of them with their
    payloads: no key of a writer is lost to, or overwritten by, another writer.
    When it reports an error:
    a rejected configuration leaves the path alone; when the file could not be
    created the path is as it was, and when no space could be reserved for it the
    new file stays, closed and empty ([newIndexWriter] does not remove it); after
    every other error the file is closed and removed, unless [os.Remove] itself
    failed. The error is that of the rejected option, of a key some writer was
    refused, of the wrong number of keys, of a block that cannot be built (or has
    too many keys to count), or it wraps no sentinel: a failed system call, a full
    region of a partition, a cancelled context. *)
Theorem concurrent_build_correct `{HX : !XXHash} {HL : XXHashLaws} `{HO : !OS} `{HT : !Temp} `{HS : !Sched} `{HE : !Env} {HP : PipeLaws}
    totalKeys dir opts f0 nw input :
  let opts' := with_tempDir dir opts in
  let cfg := final_config totalKeys opts' in
  let c := block_config cfg in
  let kps := all_keys nw input in
  1 <= nw -> config_typed cfg -> limits_ok (algorithm cfg) totalKeys -> (build_ok cfg c -> geometry_ok (several_writers totalKeys opts' nw)) -> len kps < 2 ^ 64 ->
  (forall i, Forall (fun kp => Forall is_byte kp.1 /\ is_u 64 kp.2) (input i)) -> small_blocks c (map (key_of c) kps) ->
  wps (concurrent_build totalKeys dir opts nw input) f0
    (fun _ f => len kps = totalKeys /\ Forall (valid totalKeys opts') kps /\
       exists bytes, f_data f = Some bytes /\ f_open f = false /\ (len bytes < 2 ^ 40 -> answers_for cfg bytes kps))
    (fun e f => (rejected (final_config totalKeys opts) e /\ f = f0) \/ (e = ErrOther /\ (uncreated f0 f \/ removed f)) \/
       (addkeys_failed totalKeys opts' nw input e /\ removed f)).
Proof using.
  intros opts' cfg c kps Hnw Ht Hl Hg Hlen Hty Hsmall. pose proof (final_tempDir totalKeys dir opts) as Heq.
  assert (config_typed (final_config totalKeys opts)) as Ht0 by (unfold cfg, opts' in Ht; rewrite Heq in Ht; destruct Ht; by split).
  assert (limits_ok (algorithm (final_config totalKeys opts)) totalKeys) as Hl0 by (unfold cfg, opts' in Hl; by rewrite Heq in Hl).
  unfold concurrent_build. apply wps_bind.
  eapply wps_mono; [by apply (NewUnsortedBuilder_spec totalKeys dir opts f0) | | intros e f [H | H]; [by left | right; by left]].
  intros ub f (Hok & b & -> & Hb & Hc & Hk). apply with_unsorted_spec. specialize (Hg Hok).
  eapply wps_mono; [apply (unsorted_then_close_spec _ Hg _ _ (fun _ f => len kps = totalKeys /\ Forall (valid totalKeys opts') kps /\ indexed totalKeys opts' kps f));
    by apply (UB_AddKeys_spec totalKeys opts' nw Hnw Hg Hok input Hty Hl Ht b) | | intros e ub' H; right; by right].
  intros [] ub' (Hn & Hv & Hi). split; [done |]. split; [done |]. apply (indexed_answers totalKeys opts' kps _ Hok); [| done | done].
  apply Forall_forall. intros kp Hin. assert (Forall (fun kp => Forall is_byte kp.1 /\ is_u 64 kp.2) kps) as Htk.
  { unfold kps, all_keys. apply Forall_concat, Forall_fmap, Forall_forall. intros i _. apply Hty. }
  pose proof (proj1 (Forall_forall _ _) Htk kp Hin) as []. split; [done | split; [done |]]. by apply (proj1 (Forall_forall _ _) Hv).
Qed.

(** Two writers with a key each; the second begins. *)
Definition example_input (i : Z) : list (list Z * Z) := if i =? 0 then take 1 example_keys else if i =? 1 then drop 1 example_keys else [].
Definition example_sched : Sched := {| schedule := [1%nat; 0%nat] |}.

(** Two writers and 1000 keys make two partitions, and a writer's region of a
    partition has room for 427 entries: when one writer adds all the keys, one of
    its regions is given at least 500. *)
Example uneven_region : let g := several_writers 1000 [] 2 in
  g_parts g = 2 /\ g_region g / UnsortedWrite.entry_size g = 427 /\ 427 < 1000 / g_parts g.
Proof. vm_compute. repeat split; congruence. Qed.

Lemma example_several_writers : geometry_ok (several_writers 2 (with_tempDir "tmp" example_par_opts) 2).
Proof. split; vm_compute; try split; congruence. Qed.

Lemma concurrent_build_correct_witness :
  let opts := with_tempDir "tmp" example_par_opts in
  let cfg := final_config 2 opts in
  let kps := all_keys 2 example_input in
  wps (@concurrent_build poly_hash quiet_os quiet_temp example_sched (@running_env poly_hash quiet_os) 2 "tmp" example_par_opts 2 example_input) (mk_osfile None false false 0)
    (fun _ f => len kps = 2 /\ Forall (valid 2 opts) kps /\
       exists bytes, f_data f = Some bytes /\ f_open f = false /\ (len bytes < 2 ^ 40 -> @answers_for poly_hash cfg bytes kps))
    (fun e f => (rejected (final_config 2 example_par_opts) e /\ f = mk_osfile None false false 0) \/ (e = ErrOther /\ (@uncreated quiet_os (mk_osfile None false false 0) f \/ removed f)) \/
       (addkeys_failed 2 opts 2 example_input e /\ removed f)).
Proof.
  apply (@concurrent_build_correct poly_hash poly_hash_laws quiet_os quiet_temp example_sched (@running_env poly_hash quiet_os) (@running_laws poly_hash poly_hash_laws quiet_os)
    2 "tmp" example_par_opts (mk_osfile None false false 0) 2 example_input).
  - lia.
  - split; [unfold is_u; cbn; lia | unfold is_u; cbn; lia |]. repeat constructor; unfold_words; lia.
  - split; vm_compute; reflexivity.
  - intros _. exact example_several_writers.
  - vm_compute. reflexivity.
  - intros i. unfold example_input. destruct (i =? 0); [| destruct (i =? 1); [| constructor]]; repeat constructor; unfold_words; cbn; lia.
  - apply small_blocks_few. vm_compute. congruence.
Defined.
